(* ===== verification/_CoqProject ===== *)
-Q . S2P
Prelude.v
JsNumber.v
JsString.v
JsText.v
Ast.v
Parser.v
Grammar.v
Compile.v
Request.v
BillingTime.v
Runtime.v
RuntimeFacts.v
FixedPrice.v
Structure.v
Display.v
TaskDisplay.v
Regex.v
Json.v
JsonFacts.v
JsonText.v
Spelling.v
BillingExpr.v
RuleEditor.v
TaskExpr.v
Visual.v
TierExpr.v
ConditionDisplay.v
PriceFacts.v
DisplayFacts.v
EngineTheorems.v
InputTheorems.v
ConditionFacts.v
RuleFacts.v
TierFacts.v
VisualFacts.v
TaskFacts.v
TaskTable.v
Currency.v
PricingModel.v
PricingOptions.v
OptionFacts.v
SaveFacts.v
SyncFacts.v
DynamicPrice.v
JsArray.v
Catalog.v
ChatMessage.v
ChatConversation.v
ChatStorage.v
ChatSession.v
AuthSession.v
StatusRules.v
AdvancedCustom.v
RouteFacts.v
ModelMapping.v
ChannelModels.v
MappingFacts.v
ChannelFacts.v
RouteText.v
ChannelForm.v
ChannelFormFacts.v
FlowGraph.v
FlowView.v
Accumulate.v
FlowFacts.v
FlowBalance.v
FlowTheorems.v
FlowFilters.v
FlowMask.v
FlowLimit.v
TableFacts.v
PricingFacts.v
ProviderFacts.v
CatalogFacts.v
ChatFacts.v
ChatStream.v
ChatTexts.v
AuthFacts.v
TaskRoundTrip.v
TierRoundTrip.v
