(* ===== verification/Prelude.v ===== *)
(** * A verification of the web client: prices, channels, traffic, session, chat

    The repository is an AI gateway: a Go server, and a React client under
    [src/web/src].  The price of a model is a text in a small expression
    language, for example

<<
      v1: p <= 200000 ? tier('base', p * 3 + c * 15) : tier('long', p * 6)
>>

    The client parses, type checks and evaluates such texts to simulate charges,
    reads them into price tables, and edits them through forms that print them
    again.  This library models that part of the client,
    [src/web/src/features/pricing/lib/], and proves what makes it correct: the
    engine is total and safe, the tables show what is charged, the editors
    give back what they read, and the summaries on cards and in lists cover the
    prices they stand for.  Beside it are modelled: the configuration of channels,
    which carry requests to upstream providers; the flow diagram of the dashboard,
    which shows where the traffic went; and two parts of the client that keep state
    over time, the login session, which every request uses, and the chat of the
    playground, which streams the answers of a model.

    ** Parts of the program and where they are modelled

    The language's own library, as far as the client uses it:
    - [Prelude]: results, the state and error monad [method] with its
      specification predicate [wp], association lists, tactics and hints;
    - [JsNumber]: IEEE doubles as exact triples with [round], the arithmetic and
      comparison operators, [Number.isSafeInteger]; [JsText]: [String(x)],
      [Number(s)], decimal literals;
    - [JsArray]: the order of numbers and the sign of a difference, the stable sort
      of arrays, sets in insertion order;
      [Accumulate]: sums kept in a map that is updated in a loop;
    - [JsString]: strings as lists of UTF-16 code units, [trim], [slice],
      [startsWith], [split] and the like; [Regex]: a backtracking matcher for the
      patterns of the client; [Json], [JsonFacts] and [JsonText]:
      [JSON.parse] and [JSON.stringify], plain and indented, with their round trips.

    The expression engine, [billing-expression/]:
    - [Ast] models [types.ts]: the nodes, the diagnostics, [visitExpression],
      [expressionDependencies];
    - [Parser] and [Compile] model [parser.ts]: [BillingParser] with its lexer, its
      precedence climbing and its limits as a [method] over the fields of the
      parser object, then [checkExpressionTypes], [validateFixedPricingTree] and
      [compileBillingExpression] with its cache;
    - [Request], [BillingTime] and [Runtime] model [runtime.ts]: request paths and
      texts, calendar fields, and [BillingRuntime] as a [method] over the fields of
      the runtime object ([RuntimeState]);
    - [Structure] models [structure.ts], [Display] models [display.ts],
      [TaskDisplay] models [task-display.ts], [ConditionDisplay] models
      [condition-display.ts], [Visual] models [visual.ts].

    The editors beside it: [BillingExpr] and [RuleEditor] model [billing-expr.ts]
    (request rules), [TierExpr] models [tier-expr.ts] (token tiers and the
    estimator), [TaskExpr] models [task-expr.ts] (task prices and their matrix).

    The prices on the pages: [TaskTable] models [task-matrix-display.ts] (the table
    of task prices) and [breakdown-tier-match.ts] (the row a settlement hits);
    [Currency] models [src/web/src/lib/currency.ts]; [PricingModel] models the
    record of a model, [model-helpers.ts] (groups and ratios),
    [plugin-pricing.ts] and [price.ts]; [DynamicPrice] models [dynamic-price.ts],
    which composes all of them into the summary of a model; [Catalog] models
    [filters.ts] (the list of models), [task-price-display.ts] and
    [src/web/src/lib/localized-text.ts] (texts of task prices).

    The stored prices: [PricingOptions] models [src/web/src/features/model-pricing]
    (the options that hold the prices of all models as JSON texts, the draft of a
    model, its application, synchronisation from an upstream, the changes that are
    saved) and the rows of the editor in
    [src/web/src/features/system-settings/models/model-pricing-snapshots.ts].

    Channels, [src/web/src/features/channels]: [AdvancedCustom] and [RouteText]
    model [lib/advanced-custom.ts] (the routes of a custom channel and their JSON
    text); [ModelMapping] models [lib/model-mapping-validation.ts],
    [lib/model-mapping-rules.ts] and [lib/model-naming-patterns.ts] (the models of a
    channel and the names under which they are requested); [ChannelModels] models
    [lib/upstream-update-utils.ts], [lib/status-code-risk-guard.ts] and, of
    [components/drawers/channel-mutate-drawer.tsx], the selection of models and the
    submit handler; [ChannelForm] models [lib/channel-form.ts]: the record
    [ChannelFormValues], the checks of the schema, how a stored channel fills the form
    and the JSON texts and payloads it sends.

    The dashboard: [FlowGraph] and [FlowView] model
    [src/web/src/features/dashboard/lib/flow.ts]: rows of usage become nodes and
    links per stage ([addLink], the graph as maps of sums), stages are limited to
    their heaviest nodes, filtered, highlighted, masked and drawn.

    State over time: [AuthSession] models [src/web/src/stores/auth-store.ts] and
    [src/web/src/lib/auth-session.ts] with its messages between tabs and its hint
    cookie: the record [Client] has the store, the epoch and the refresh under way;
    logins, rotations, sign-outs, answers, timers and the browser lock are events
    ([handle], [step], [reachable]).  The playground,
    [src/web/src/features/playground]: [ChatMessage] models the messages of
    [lib/message] (thinking tags, timings, chunks, completion), [ChatConversation]
    the operations on a conversation, its views, the request and the reading of its
    stream, [ChatStorage] the stored conversation, and [ChatSession] the hooks
    [use-stream-request.ts], [use-chat-handler.ts] and
    [use-playground-conversation.ts]: the record [Chat] has the event sources, the
    generations, the buffered chunks, the outstanding requests and the queue of
    React, and headers, messages, errors, timers, answers, renders and what the
    user does are events.  [StatusRules] models
    [src/web/src/lib/http-status-code-rules.ts].

    Every function of the source is one definition of the same name; the turn of a
    loop, a visitor or a regular expression has a definition of its own.  Fallible
    code returns [outcome], an error of the engine ([BillingExpressionError]), an
    error of the language ([JsError]), or [OutOfFuel].

    ** What the theorems show

    - Engine ([EngineTheorems], from [Parser], [Grammar], [Compile],
      [RuntimeFacts], [FixedPrice]): parsing ends, and succeeds exactly on the
      token sequences an inductive grammar derives ([Grammar]), with the tree it
      derives; compilation decides a declarative
      description of the language ([compiles]); the one-pass type checker is
      structural type inference; evaluation is type sound, but for sums of operands
      of unknown type, which may join texts ([joins_texts]), and never ends in an
      error of the language; its cost is finite and not negative; fixed prices
      charge the one tier that the conditions select, at its price times the
      factors on the way to it ([charged]); an evaluation reads only the declared dependencies; integer
      arithmetic is exact in the safe range; the cache is transparent and bounded.
    - Inputs ([InputTheorems]): request paths, texts of values with their depth
      limit, calendar ranges, splitting and unwrapping of texts.
    - Tables ([PriceFacts], [DisplayFacts], [ConditionFacts], [TaskFacts],
      [TableFacts]): the rows shown for token, time and task prices contain the row
      an evaluation charges, with its cost; the time range shown for a condition
      is the range in which it holds; the matrix of enum values keeps every charge;
      the settlement of a task is marked in the row that was charged.
    - Editors ([VisualFacts], [RuleFacts], [JsonFacts], [TierFacts]): documents and
      conditions survive reading and printing; the inputs for which they do not
      are theorems as well.  [TaskRoundTrip] and [TierRoundTrip] show that what
      the task and tier editors print compiles and is read back as the same
      prices (the tier editor: when no label needs an escape); [Spelling] carries both: words, their printed text, and the parser
      on the text of a chain of conditionals.
    - Summaries ([PricingFacts], [ProviderFacts]): the ratio used in summaries is
      the best one, the range of a usage price is the range of the tiers, and the
      prices merged over providers cover every provider and are attained.
    - Catalogue ([CatalogFacts]): the list holds exactly the models the filters
      select, in a stable order of prices; the difference of two prices never
      rounds to zero, so the comparison of the code is the order of prices.
    - Stored prices ([OptionFacts], [SaveFacts], [SyncFacts]): a draft gives its prices
      to the named models and changes nothing else, though every option is parsed,
      edited and printed as a whole; what is saved of it are the models that differ,
      with the changed prices and, for tiered models, the mode and expression shown;
      an upstream selection leaves exactly the selected prices; drafts with invalid
      prices are refused.  [slot], [held] and [cell] relate the entries of the JSON
      texts to the prices that are read of them.
    - Routes ([RouteFacts]): validation decides a declarative description of valid
      routes ([routes_valid]) and names the first route at fault; edits are local.
      [RouteText]: the text of a configuration is read back as its normal form.
    - Channels ([MappingFacts], [ChannelFacts]): the pairs a naming rule derives
      divide the selection and are what a merged mapping holds; selections of models
      are sets of names; a form that is sent has passed every check, and no mapped
      model is missing once the user had them added, if no name has a comma.  [ChannelFormFacts]: the two JSON
      texts of a saved channel are stable under editing, and keys the form does not
      know survive it.
    - Flow ([FlowFacts], [FlowBalance], [FlowTheorems], [FlowFilters], [FlowMask],
      [FlowLimit]): what enters a node leaves it, and
      every stage carries the whole traffic; a limit keeps the heaviest nodes, when
      the overflow is aggregated, and the totals; the options of a filter predict what choosing them shows; masking
      changes labels only; the elements of the drawn chart are read back.
    - Session ([AuthFacts]): credentials are consistent in every reachable state; a
      refresh ends after at most eight requests, its outcome describes the session
      it leaves, and one that a login or sign-out overtakes changes nothing.
    - Chat ([ChatFacts], [ChatStream], [ChatTexts]): the page generates exactly
      while its current request is outstanding; a superseded request is inert; a
      generation ends with a settled answer; a streamed answer has the text that
      was sent, whenever the timer shows it; thinking tags keep their parts apart;
      a stored conversation is loaded within its limits.  What is lost on the way
      is a theorem as well.
    - Status code rules ([StatusRules]): accepted rules have a canonical text.

    ** Fuel and bounds

    The parser is recursive on fuel: every call or iteration takes a token, at most
    10000 tokens can be taken, and [parser_ok] shows that 40010 steps are enough.
    The traversal gets twice the size of the tree; [visit_loop_rec] shows it is
    enough.  [unwrap_loop] gets the length of the text, each turn removes two
    characters.  Printing numbers searches at most 17 digits, which
    [shortest_complete] shows to be enough.  Reading a visual condition gets the
    height of the tree ([read_condition_fuel]).  Thinking tags get a turn for each
    character; [parse_tagged] shows it is enough.  [parse_terminates] and
    [evaluation_is_safe] exclude [OutOfFuel] from every outcome.

    ** Parameters

    [Intl.DateTimeFormat] and [toLowerCase] are the class [Host], with the
    documented ranges of the calendar fields as [HostLaws], and that letters and
    digits in lower case are kept as [LowerLaws]; [two_zones] is an instance.  [localeCompare] is the class [Collation].  [Intl.NumberFormat] and
    [Math.pow(10, -digits)] are the class [NumberFormats].  The colours of the chart
    library are the class [ChartScheme].  [toUpperCase] is an argument of
    [applyPriceSyncSelections], the URL parser of [validateAdvancedCustomConfig] and of
    [isOptionalProxyURL].  The translation
    function and the list formatter are arguments of [ConditionDisplay]; the
    stored currency configuration and the clock are arguments of what reads them.
    The server, the network and the event source are the events of [AuthSession]
    and [ChatSession]; that React runs an update of state at the next render or at
    once is [env_eager].  The schema of stored messages, their JSON text and the
    quota of the browser are arguments of [loadMessages].

    ** Not modelled

    Objects are association lists in insertion order: the reordering of
    integer-like keys and the names of [Object.prototype] are left out, except in
    the model mappings, where users choose the keys ([own_entries], [put_entry]).  The
    modelled callers use [compile], the compilation without the cache, which
    [cache_is_transparent] justifies.  Of the session, the transport of messages
    between tabs and the query cache are left out; of the playground, settings,
    their controls and the debounced saving; of the stored prices, the requests
    and the summary texts of the rows; of the flow diagram, its constant styles; of
    the channel drawer, everything but its models and the submit handler; of the
    form's schema, how zod combines the checks.  What [JSON.parse] returns is taken to
    be a JSON value ([json_ok]) where a text is written again.  The
    statistics of a route text are those of a configuration of the right types.
    The rest of the client (components, routes,
    other features), the Go server, the plugins and the desktop shell are not
    modelled: they are user interface, input and output, or another language. *)

From Stdlib Require Export ZArith Bool.
From stdpp Require Export base tactics list numbers.

(** ** Errors as values

    The source signals failure by [throw]; a throwing computation is a value
    of [result E A].  The monad operations are stdpp's, so that the source's
    sequencing reads [x ← m; k]. *)

Inductive result (E A : Type) : Type :=
| Ok (a : A)
| Throw (e : E).
Arguments Ok {E A} a.
Arguments Throw {E A} e.

#[export] Instance result_ret E : MRet (result E) := fun A a => Ok a.
#[export] Instance result_bind E : MBind (result E) :=
  fun A B f m => match m with Ok a => f a | Throw e => Throw e end.
#[export] Instance result_fmap E : FMap (result E) :=
  fun A B f m => match m with Ok a => Ok (f a) | Throw e => Throw e end.

(** A method of an object with fields [S]: it reads and replaces the fields,
    and the fields are lost when it throws. *)
Definition method (S E A : Type) : Type := S -> result E (A * S).

#[export] Instance method_ret S E : MRet (method S E) := fun A a s => Ok (a, s).
#[export] Instance method_bind S E : MBind (method S E) :=
  fun A B f m s => match m s with Ok (a, s') => f a s' | Throw e => Throw e end.

Definition throwing {S E A} (e : E) : method S E A := fun _ => Throw e.
Definition lift {S E A} (r : result E A) : method S E A :=
  fun s => match r with Ok a => Ok (a, s) | Throw e => Throw e end.
Definition get {S E} : method S E S := fun s => Ok (s, s).
Definition put {S E} (s : S) : method S E unit := fun _ => Ok (tt, s).
Definition modify {S E} (f : S -> S) : method S E unit := fun s => Ok (tt, f s).

(** [if (c) throw e]. *)
Definition throw_when {E} (c : bool) (e : E) : result E unit :=
  if c then Throw e else Ok tt.
Definition method_throw_when {S E} (c : bool) (e : E) : method S E unit :=
  if c then throwing e else mret tt.

(** ** Inversion of monadic code *)

Lemma result_bind_ok {E A B} (f : A -> result E B) m b :
  (m ≫= f) = Ok b <-> exists a, m = Ok a /\ f a = Ok b.
Proof. destruct m; cbn; naive_solver. Qed.

Lemma method_bind_ok {S E A B} (f : A -> method S E B) (m : method S E A) s b s' :
  (m ≫= f) s = Ok (b, s') <->
  exists a s1, m s = Ok (a, s1) /\ f a s1 = Ok (b, s').
Proof.
  unfold mbind, method_bind. destruct (m s) as [[a s1]|e]; naive_solver.
Qed.

Lemma throw_when_ok {E} c (e : E) : throw_when c e = Ok tt <-> c = false.
Proof. destruct c; cbn; naive_solver. Qed.

Lemma method_throw_when_ok {S E} c (e : E) (s : S) t s' :
  method_throw_when c e s = Ok (t, s') <-> c = false /\ s' = s.
Proof.
  destruct t. unfold method_throw_when. destruct c.
  - split; [discriminate | intros [? _]; discriminate].
  - split; [intros [= <-]; done | intros [_ ->]; done].
Qed.

Lemma lift_ok {S E A} (r : result E A) (s s' : S) a :
  lift r s = Ok (a, s') <-> r = Ok a /\ s' = s.
Proof. unfold lift. destruct r; naive_solver. Qed.

(** [inv_ok] takes hypotheses that say a monadic computation succeeded apart
    into the successes of its steps. *)
Ltac inv_ok_step :=
  match goal with
  | H : Ok _ = Ok _ |- _ => injection H; clear H; intros
  | H : Throw _ = Throw _ |- _ => injection H; clear H; intros
  | H : Ok _ = Throw _ |- _ => discriminate H
  | H : Throw _ = Ok _ |- _ => discriminate H
  | H : (_ ≫= _) = Ok _ |- _ =>
      apply result_bind_ok in H; destruct H as (? & ? & H)
  | H : (_ ≫= _) _ = Ok (_, _) |- _ =>
      apply method_bind_ok in H; destruct H as (? & ? & ? & H)
  | H : throw_when _ _ = Ok ?x |- _ => destruct x; apply throw_when_ok in H
  | H : method_throw_when _ _ _ = Ok (?x, _) |- _ =>
      apply method_throw_when_ok in H; destruct H as [H ?]
  | H : lift _ _ = Ok (_, _) |- _ => apply lift_ok in H; destruct H as [H ?]
  | H : throwing _ _ = Ok _ |- _ => discriminate H
  | H : mret _ = Ok _ |- _ => unfold mret, result_ret in H
  | H : mret _ _ = Ok _ |- _ => unfold mret, method_ret in H
  | H : get _ = Ok _ |- _ => unfold get in H
  | H : put _ _ = Ok _ |- _ => unfold put in H
  | H : modify _ _ = Ok _ |- _ => unfold modify in H
  end.
Ltac inv_ok := repeat (inv_ok_step; simplify_eq).

(** ** Weakest preconditions of methods

    [wp good m Q s]: run from the fields [s], the method [m] either returns
    with [Q] or throws an error that is [good]. *)

Definition wp {S E A} (good : E -> Prop) (m : method S E A) (Q : A -> S -> Prop) (s : S) : Prop :=
  match m s with Ok (a, s') => Q a s' | Throw e => good e end.
#[global] Arguments wp : simpl never.

Section wp.
Context {S E : Type} (good : E -> Prop).

Lemma wp_bind {A B} (m : method S E A) (f : A -> method S E B) Q s :
  wp good m (fun a s' => wp good (f a) Q s') s -> wp good (m ≫= f) Q s.
Proof. unfold wp, mbind, method_bind. by destruct (m s) as [[a s']|e]. Qed.

Lemma wp_mono {A} (m : method S E A) (P Q : A -> S -> Prop) s :
  wp good m P s -> (forall a s', P a s' -> Q a s') -> wp good m Q s.
Proof. unfold wp. destruct (m s) as [[a s']|e]; auto. Qed.

Lemma wp_ret {A} (a : A) (Q : A -> S -> Prop) s : Q a s -> wp good (mret a) Q s.
Proof. done. Qed.
Lemma wp_get (Q : S -> S -> Prop) s : Q s s -> wp good get Q s.
Proof. done. Qed.
Lemma wp_put s' (Q : unit -> S -> Prop) s : Q tt s' -> wp good (put s') Q s.
Proof. done. Qed.
Lemma wp_modify f (Q : unit -> S -> Prop) s : Q tt (f s) -> wp good (modify f) Q s.
Proof. done. Qed.
Lemma wp_throwing {A} e (Q : A -> S -> Prop) s : good e -> wp good (throwing e) Q s.
Proof. done. Qed.
Lemma wp_throw_when c e (Q : unit -> S -> Prop) s :
  (c = true -> good e) -> (c = false -> Q tt s) -> wp good (method_throw_when c e) Q s.
Proof. unfold wp, method_throw_when. destruct c; intros H1 H2; [by apply H1 | by apply H2]. Qed.
Lemma wp_lift {A} (r : result E A) (Q : A -> S -> Prop) s :
  match r with Ok a => Q a s | Throw e => good e end -> wp good (lift r) Q s.
Proof. unfold wp, lift. by destruct r. Qed.

End wp.

(** [all_good good r]: a computation without fields throws only [good] errors. *)
Definition throws_only {E A} (good : E -> Prop) (r : result E A) : Prop :=
  match r with Ok _ => True | Throw e => good e end.

Lemma throws_only_bind {E A B} (good : E -> Prop) (m : result E A) (f : A -> result E B) :
  throws_only good m -> (forall a, m = Ok a -> throws_only good (f a)) ->
  throws_only good (m ≫= f).
Proof. destruct m; cbn; auto. Qed.

Ltac wp_step :=
  match goal with
  | |- wp _ (_ ≫= _) _ _ => apply wp_bind
  | |- wp _ (mret _) _ _ => apply wp_ret
  | |- wp _ get _ _ => apply wp_get
  | |- wp _ (put _) _ _ => apply wp_put
  | |- wp _ (modify _) _ _ => apply wp_modify
  | |- wp _ (method_throw_when _ _) _ _ => apply wp_throw_when; intros ?
  | |- wp _ (throwing _) _ _ => apply wp_throwing
  | |- wp _ (if ?c then _ else _) _ _ => destruct c eqn:?
  end.

(** ** Loops over lists *)

Section folds.
Context {E A B : Type}.

(** [for (const x of l) acc = f(acc, x)], with a body that may throw. *)
Fixpoint fold_result (f : A -> B -> result E A) (acc : A) (l : list B) : result E A :=
  match l with
  | [] => Ok acc
  | x :: l => acc' ← f acc x; fold_result f acc' l
  end.

(** [l.map(f)], with a callback that may throw. *)
Fixpoint map_result (f : A -> result E B) (l : list A) : result E (list B) :=
  match l with
  | [] => Ok []
  | x :: l => y ← f x; ys ← map_result f l; Ok (y :: ys)
  end.

(** A loop that returns [null] at the first element that does not fit. *)
Fixpoint map_option (f : A -> option B) (l : list A) : option (list B) :=
  match l with
  | [] => Some []
  | x :: l => y ← f x; ys ← map_option f l; Some (y :: ys)
  end.
End folds.

Lemma fold_result_app {E A B} (f : A -> B -> result E A) acc l1 l2 :
  fold_result f acc (l1 ++ l2) = (acc' ← fold_result f acc l1; fold_result f acc' l2).
Proof.
  revert acc. induction l1 as [|x l1 IH]; intros acc; cbn; [done|].
  destruct (f acc x); cbn; auto.
Qed.

Lemma fold_result_invariant {E A B} (P : A -> Prop) (f : A -> B -> result E A) l :
  (forall a b a', f a b = Ok a' -> P a -> P a') -> forall a a', fold_result f a l = Ok a' -> P a -> P a'.
Proof.
  intros H. induction l as [|b l IH]; intros a a'; cbn [fold_result]; [by intros [= <-]|].
  destruct (f a b) as [a1|] eqn:E1; [|done]. intros E2 Ha. exact (IH _ _ E2 (H _ _ _ E1 Ha)).
Qed.

Lemma map_option_Some {A B} (f : A -> option B) l ys :
  map_option f l = Some ys <-> Forall2 (fun x y => f x = Some y) l ys.
Proof.
  revert ys. induction l as [|x l IH]; intros ys; cbn.
  - split; [intros [= <-]; constructor|]. by inversion 1.
  - rewrite bind_Some. setoid_rewrite bind_Some. split.
    + intros (y & Hy & ys' & Hys & [= <-]). constructor; [done|]. by apply IH.
    + inversion 1 as [|? y ? ys' Hy Hys]; subst. exists y. split; [done|].
      exists ys'. by rewrite IH.
Qed.

Lemma NoDup_fmap_elem {A B} (f : A -> B) l x y : NoDup (f <$> l) -> x ∈ l -> y ∈ l -> f x = f y -> x = y.
Proof.
  induction l as [|z l IH]; intros Hnd Hx Hy E; [by apply not_elem_of_nil in Hx|]. cbn [fmap list_fmap] in Hnd.
  apply list.NoDup_cons in Hnd as [Hz Hnd]. apply elem_of_cons in Hx as [-> |Hx]; apply elem_of_cons in Hy as [-> |Hy]; try done.
  - destruct Hz. rewrite E. by apply list_elem_of_fmap_2.
  - destruct Hz. rewrite <- E. by apply list_elem_of_fmap_2.
  - by apply IH.
Qed.

Lemma forallb_map {A B} (f : B -> bool) (g : A -> B) l :
  forallb f (map g l) = forallb (fun x => f (g x)) l.
Proof. induction l as [|x l IH]; cbn; [done|by rewrite IH]. Qed.

Lemma map_option_ext {A B} (f g : A -> option B) l :
  (forall x, x ∈ l -> f x = g x) -> map_option f l = map_option g l.
Proof.
  induction l as [|x l IH]; intros Hfg; [done|]. cbn.
  rewrite (Hfg x), IH; [done|intros y Hy; apply Hfg; by right|left].
Qed.

Lemma map_option_Forall2 {A B} (f : A -> option B) (R : A -> B -> Prop) l : forall ys,
  (forall x y, x ∈ l -> f x = Some y -> R x y) -> map_option f l = Some ys -> Forall2 R l ys.
Proof.
  induction l as [|x l IH]; intros ys HR; cbn; [intros [= <-]; constructor|].
  intros (y & Hy & Hm)%bind_Some. apply bind_Some in Hm as (ys' & Hm & [= <-]).
  constructor; [apply HR; [left|done]|]. apply IH; [|done]. intros a b Ha. apply HR. by right.
Qed.

Lemma map_option_app {A B} (f : A -> option B) l1 l2 ys :
  map_option f (l1 ++ l2) = Some ys ->
  exists ys1 ys2, map_option f l1 = Some ys1 /\ map_option f l2 = Some ys2 /\ ys = ys1 ++ ys2.
Proof.
  revert ys. induction l1 as [|x l1 IH]; intros ys; cbn.
  - intros H. by exists [], ys.
  - intros (y & Hy & H)%bind_Some. apply bind_Some in H as (zs & Hzs & [= <-]).
    destruct (IH zs Hzs) as (ys1 & ys2 & E1 & E2 & ->).
    exists (y :: ys1), ys2. rewrite Hy, E1. done.
Qed.

(** ** Association lists: JavaScript objects and maps in insertion order *)

Section assoc.
Context {K V : Type} {eqK : EqDecision K}.

Fixpoint assoc_get (k : K) (l : list (K * V)) : option V :=
  match l with
  | [] => None
  | (k', v) :: l => if decide (k' = k) then Some v else assoc_get k l
  end.

(** Assigning a key that is present keeps its place in the order. *)
Fixpoint assoc_set (k : K) (v : V) (l : list (K * V)) : list (K * V) :=
  match l with
  | [] => [(k, v)]
  | (k', v') :: l =>
      if decide (k' = k) then (k, v) :: l else (k', v') :: assoc_set k v l
  end.

(** [delete l[k]] *)
Definition assoc_delete (k : K) (l : list (K * V)) : list (K * V) :=
  List.filter (fun f => bool_decide (fst f <> k)) l.

Definition assoc_has (k : K) (l : list (K * V)) : bool :=
  match assoc_get k l with Some _ => true | None => false end.

Lemma assoc_get_set_eq k v l : assoc_get k (assoc_set k v l) = Some v.
Proof.
  induction l as [|[k' v'] l IH]; cbn; [by rewrite decide_True|].
  case_decide; cbn; [by rewrite decide_True|]. by rewrite decide_False.
Qed.

Lemma assoc_get_set_ne k k' v l :
  k ≠ k' -> assoc_get k' (assoc_set k v l) = assoc_get k' l.
Proof.
  intros Hne. induction l as [|[k'' v'] l IH]; cbn.
  - by rewrite decide_False.
  - case_decide; subst; cbn.
    + by rewrite !decide_False.
    + by rewrite IH.
Qed.

Lemma assoc_get_In k v l : assoc_get k l = Some v -> (k, v) ∈ l.
Proof.
  induction l as [|[k' v'] l IH]; cbn; [done|].
  case_decide; intros Hk; simplify_eq; [left|right]; auto.
Qed.

Lemma assoc_get_None k l : assoc_get k l = None <-> k ∉ l.*1.
Proof.
  induction l as [|[k' v'] l IH]; cbn.
  - split; [intros _; apply not_elem_of_nil | done].
  - rewrite not_elem_of_cons. case_decide; naive_solver.
Qed.

Lemma assoc_set_fst_fresh k v l : k ∉ l.*1 -> assoc_set k v l = l ++ [(k, v)].
Proof.
  induction l as [|[k' v'] l IH]; cbn; [done|].
  rewrite not_elem_of_cons. intros [Hne Hl]. rewrite decide_False by done.
  by rewrite IH.
Qed.

Implicit Types l : list (K * V).

Lemma assoc_get_set k k' v l : assoc_get k' (assoc_set k v l) = if decide (k = k') then Some v else assoc_get k' l.
Proof. case_decide as E; [subst; apply assoc_get_set_eq|by apply assoc_get_set_ne]. Qed.

Lemma assoc_get_delete k k' l : assoc_get k' (assoc_delete k l) = if decide (k = k') then None else assoc_get k' l.
Proof.
  unfold assoc_delete. induction l as [|[k0 v] l IH]; [by case_decide|]. cbn [List.filter fst].
  case_bool_decide as E; cbn [assoc_get]; repeat case_decide; subst; try done; tauto.
Qed.

Lemma assoc_get_elem k v l : NoDup l.*1 -> (k, v) ∈ l -> assoc_get k l = Some v.
Proof.
  induction l as [|[k0 v0] l IH]; intros Hnd Hin; [by apply not_elem_of_nil in Hin|]. cbn [fmap list_fmap fst] in Hnd.
  apply list.NoDup_cons in Hnd as [H0 Hnd]. cbn [assoc_get]. apply elem_of_cons in Hin as [[= -> ->]|Hin]; [by rewrite decide_True|].
  rewrite decide_False; [by apply IH|]. intros ->. apply H0. apply list_elem_of_fmap. by exists (k, v).
Qed.

Lemma assoc_set_elem k v l k' v' : (k', v') ∈ assoc_set k v l -> (k', v') = (k, v) \/ (k', v') ∈ l.
Proof.
  induction l as [|[k0 v0] l IH]; cbn [assoc_set]; [intros H; apply list_elem_of_singleton in H; by left|].
  case_decide as E; intros [H|H]%elem_of_cons.
  - by left.
  - right. by right.
  - right. rewrite H. by left.
  - destruct (IH H); [by left|right; by right].
Qed.

Lemma assoc_set_NoDup k v l : NoDup l.*1 -> NoDup (assoc_set k v l).*1.
Proof.
  induction l as [|[k0 v0] l IH]; intros Hnd; [by apply list.NoDup_singleton|]. cbn [assoc_set]. cbn [fmap list_fmap fst] in Hnd.
  apply list.NoDup_cons in Hnd as [H0 Hnd]. case_decide as E; [subst; by apply list.NoDup_cons|].
  cbn [fmap list_fmap fst]. apply list.NoDup_cons. split; [|by apply IH]. intros ([k1 v1] & -> & H)%list_elem_of_fmap.
  apply assoc_set_elem in H as [[= -> ->]|H]; [done|]. apply H0. apply list_elem_of_fmap. by exists (k1, v1).
Qed.

Lemma assoc_delete_NoDup k l : NoDup l.*1 -> NoDup (assoc_delete k l).*1.
Proof.
  unfold assoc_delete. induction l as [|[k0 v0] l IH]; intros Hnd; [done|]. cbn [fmap list_fmap fst] in Hnd.
  apply list.NoDup_cons in Hnd as [H0 Hnd]. cbn [List.filter fst]. case_bool_decide as E; [|by apply IH].
  cbn [fmap list_fmap fst]. apply list.NoDup_cons. split; [|by apply IH]. intros ([k1 v1] & -> & H)%list_elem_of_fmap.
  apply list_elem_of_In, filter_In in H as [H _]. apply H0. apply list_elem_of_fmap. exists (k1, v1). by rewrite list_elem_of_In.
Qed.

Lemma assoc_set_Forall (P : K * V -> Prop) k v l : P (k, v) -> Forall P l -> Forall P (assoc_set k v l).
Proof.
  intros Hkv. induction l as [|[k0 v0] l IH]; intros H; [by constructor|]. apply Forall_cons_iff in H as [H0 H].
  cbn [assoc_set]. case_decide; constructor; auto.
Qed.
Lemma assoc_delete_Forall (P : K * V -> Prop) k l : Forall P l -> Forall P (assoc_delete k l).
Proof. unfold assoc_delete. rewrite !List.Forall_forall. intros H x [Hx _]%filter_In. by apply H. Qed.
End assoc.

(** ** Case analysis *)

(** Splits every conditional and match of a hypothesis until it is a
    constructor equation, discarding the impossible branches. *)
Ltac destruct_matches :=
  simplify_eq; try done; repeat (case_match; simplify_eq; try done).

Ltac bool_to_prop :=
  repeat match goal with
  | H : (_ && _) = true |- _ => apply andb_true_iff in H; destruct H
  | H : (_ || _) = false |- _ => apply orb_false_iff in H; destruct H
  | H : negb _ = true |- _ => apply negb_true_iff in H
  | H : negb _ = false |- _ => apply negb_false_iff in H
  | H : bool_decide _ = true |- _ => apply bool_decide_eq_true in H
  | H : bool_decide _ = false |- _ => apply bool_decide_eq_false in H
  | H : (_ <? _)%Z = true |- _ => apply Z.ltb_lt in H
  | H : (_ <? _)%Z = false |- _ => apply Z.ltb_ge in H
  | H : (_ <=? _)%Z = true |- _ => apply Z.leb_le in H
  | H : (_ <=? _)%Z = false |- _ => apply Z.leb_gt in H
  end.

Create HintDb billing.
#[export] Hint Resolve assoc_get_In : billing.

(** [t] computes to a success: name its value [x] and the equation [E]. *)
Ltac succeeds t x E :=
  destruct t as [x|] eqn:E; [|exfalso; vm_compute in E; discriminate E].
