(* ===== verification/JsNumber.v ===== *)
(** * JavaScript numbers

    The [number] type of the source: IEEE 754 binary64 values.  A finite
    number is [(-1)^neg * m * 2^e]; every arithmetic operation is the exact
    rational operation followed by one rounding to nearest, ties to even,
    which is how ECMAScript specifies it. *)

From S2P Require Import Prelude.
Local Open Scope Z_scope.

Inductive number : Type :=
| NaN
| Infinite (neg : bool)
| Finite (neg : bool) (m e : Z).

#[export] Instance number_eq_dec : EqDecision number.
Proof. solve_decision. Defined.

(** ** Rounding of a non-negative rational [n / d] *)

Definition pos (k : Z) : Z := Z.max k 0.

(** The greatest [k] with [2^k <= n / d]. *)
Definition floor_log2 (n d : Z) : Z :=
  let k := Z.log2 n - Z.log2 d in
  if d * 2 ^ pos k <=? n * 2 ^ pos (- k) then k else k - 1.

Definition round_exponent (n d : Z) : Z := Z.max (-1074) (floor_log2 n d - 52).

(** [a / b] to the nearest integer, ties to even. *)
Definition round_div_even (a b : Z) : Z :=
  let q := a / b in
  match 2 * (a mod b) ?= b with
  | Lt => q
  | Gt => q + 1
  | Eq => if Z.even q then q else q + 1
  end.

Definition round (neg : bool) (n d : Z) : number :=
  if n =? 0 then Finite neg 0 (-1074)
  else
    let e := round_exponent n d in
    let m := round_div_even (n * 2 ^ pos (- e)) (d * 2 ^ pos e) in
    let '(m, e) := if m =? 2 ^ 53 then (2 ^ 52, e + 1) else (m, e) in
    if 971 <? e then Infinite neg else Finite neg m e.

(** [n * 2^e], rounded. *)
Definition round_scaled (neg : bool) (n e : Z) : number :=
  round neg (n * 2 ^ pos e) (2 ^ pos (- e)).

(** The canonical representations: each binary64 value has exactly one. *)
Definition valid (x : number) : bool :=
  match x with
  | NaN | Infinite _ => true
  | Finite _ m e =>
      (0 <=? m) && (m <? 2 ^ 53) && (-1074 <=? e) && (e <=? 971)
      && ((2 ^ 52 <=? m) || (e =? -1074))
  end.

(** ** Operations *)

Definition of_Z (z : Z) : number := round (z <? 0) (Z.abs z) 1.
Definition zero : number := Finite false 0 (-1074).
Definition one : number := Eval vm_compute in of_Z 1.
Definition million : number := Eval vm_compute in of_Z 1000000.

Definition signed (neg : bool) (m : Z) : Z := if neg then - m else m.

(** Sign and magnitude comparison; [None] when an operand is [NaN]. *)
Definition num_compare (x y : number) : option comparison :=
  match x, y with
  | NaN, _ | _, NaN => None
  | Infinite s, Infinite t =>
      Some (match s, t with
            | true, false => Lt | false, true => Gt | _, _ => Eq end)
  | Infinite s, Finite _ _ _ => Some (if s then Lt else Gt)
  | Finite _ _ _, Infinite t => Some (if t then Gt else Lt)
  | Finite s m e, Finite t n f =>
      let k := Z.min e f in
      Some (signed s m * 2 ^ (e - k) ?= signed t n * 2 ^ (f - k))
  end.

Definition num_ltb (x y : number) : bool :=
  match num_compare x y with Some Lt => true | _ => false end.
Definition num_leb (x y : number) : bool :=
  match num_compare x y with Some Lt | Some Eq => true | _ => false end.
(** [===] on numbers: [NaN] differs from itself and [0] equals [-0]. *)
Definition num_eqb (x y : number) : bool :=
  match num_compare x y with Some Eq => true | _ => false end.
Definition num_gtb (x y : number) : bool := num_ltb y x.
Definition num_geb (x y : number) : bool := num_leb y x.

Definition num_neg (x : number) : number :=
  match x with
  | NaN => NaN
  | Infinite s => Infinite (negb s)
  | Finite s m e => Finite (negb s) m e
  end.

Definition num_abs (x : number) : number :=
  match x with
  | NaN => NaN
  | Infinite _ => Infinite false
  | Finite _ m e => Finite false m e
  end.

Definition num_add (x y : number) : number :=
  match x, y with
  | NaN, _ | _, NaN => NaN
  | Infinite s, Infinite t => if eqb s t then Infinite s else NaN
  | Infinite s, _ => Infinite s
  | _, Infinite t => Infinite t
  | Finite s m e, Finite t n f =>
      let k := Z.min e f in
      let z := signed s m * 2 ^ (e - k) + signed t n * 2 ^ (f - k) in
      if z =? 0 then Finite (s && t) 0 (-1074)
      else round_scaled (z <? 0) (Z.abs z) k
  end.

Definition num_sub (x y : number) : number := num_add x (num_neg y).

Definition num_mul (x y : number) : number :=
  match x, y with
  | NaN, _ | _, NaN => NaN
  | Infinite s, Infinite t => Infinite (xorb s t)
  | Infinite s, Finite t n _ => if n =? 0 then NaN else Infinite (xorb s t)
  | Finite s m _, Infinite t => if m =? 0 then NaN else Infinite (xorb s t)
  | Finite s m e, Finite t n f => round_scaled (xorb s t) (m * n) (e + f)
  end.

Definition num_div (x y : number) : number :=
  match x, y with
  | NaN, _ | _, NaN => NaN
  | Infinite _, Infinite _ => NaN
  | Infinite s, Finite t _ _ => Infinite (xorb s t)
  | Finite s _ _, Infinite t => Finite (xorb s t) 0 (-1074)
  | Finite s m e, Finite t n f =>
      if n =? 0 then (if m =? 0 then NaN else Infinite (xorb s t))
      else round (xorb s t) (m * 2 ^ pos (e - f)) (n * 2 ^ pos (f - e))
  end.

(** [%]: the remainder of truncated division, with the dividend's sign. *)
Definition num_rem (x y : number) : number :=
  match x, y with
  | NaN, _ | _, NaN => NaN
  | Infinite _, _ => NaN
  | _, Infinite _ => x
  | Finite s m e, Finite t n f =>
      if n =? 0 then NaN
      else
        let k := Z.min e f in
        round_scaled s ((m * 2 ^ (e - k)) mod (n * 2 ^ (f - k))) k
  end.

(** The magnitude cut to an integer, upwards when [up]. *)
Definition integral (up : bool) (x : number) : number :=
  match x with
  | Finite s m e =>
      if 0 <=? e then x
      else
        let q := m / 2 ^ (- e) in
        let q := if up && negb (m mod 2 ^ (- e) =? 0) then q + 1 else q in
        round s q 1
  | _ => x
  end.
Definition num_negative (x : number) : bool :=
  match x with Finite s _ _ | Infinite s => s | NaN => false end.
Definition num_floor (x : number) : number := integral (num_negative x) x.
Definition num_ceil (x : number) : number := integral (negb (num_negative x)) x.

Definition num_min (x y : number) : number :=
  match num_compare x y with
  | None => NaN
  | Some Lt => x
  | Some Gt => y
  | Some Eq => if num_negative x then x else y
  end.
Definition num_max (x y : number) : number :=
  match num_compare x y with
  | None => NaN
  | Some Gt => x
  | Some Lt => y
  | Some Eq => if num_negative x then y else x
  end.

Definition num_is_finite (x : number) : bool :=
  match x with Finite _ _ _ => true | _ => false end.

Definition num_is_integer (x : number) : bool :=
  match x with
  | Finite _ m e => (0 <=? e) || (m mod 2 ^ (- e) =? 0)
  | _ => false
  end.

(** The value of an integral number (truncated when it is not integral). *)
Definition num_to_Z (x : number) : Z :=
  match x with
  | Finite s m e => signed s (m * 2 ^ pos e / 2 ^ pos (- e))
  | _ => 0
  end.

Definition num_is_safe_integer (x : number) : bool :=
  num_is_integer x && (Z.abs (num_to_Z x) <=? 2 ^ 53 - 1).

(** [Object.is(x, -0)]. *)
Definition num_is_neg_zero (x : number) : bool :=
  match x with Finite true 0 _ => true | _ => false end.

(** [Boolean(x)] of a number. *)
Definition num_truthy (x : number) : bool :=
  match x with NaN => false | Infinite _ => true | Finite _ m _ => negb (m =? 0) end.

(** ** Correctness of rounding *)

(** [2^k <= n / d], with the powers on the side where they are integers. *)
Definition below (n d k : Z) : Prop := d * 2 ^ pos k <= n * 2 ^ pos (- k).

Lemma pow2_pos k : 0 <= k -> 0 < 2 ^ k.
Proof. intros. by apply Z.pow_pos_nonneg. Qed.
#[export] Hint Resolve pow2_pos : billing.

Lemma pos_nonneg k : 0 <= k -> pos k = k.
Proof. unfold pos. lia. Qed.
Lemma pos_nonpos k : k <= 0 -> pos k = 0.
Proof. unfold pos. lia. Qed.

Lemma pow2_split a b : 0 <= a -> 0 <= b -> 2 ^ (a + b) = 2 ^ a * 2 ^ b.
Proof. intros. by apply Z.pow_add_r. Qed.

Lemma pow2_pos_shift N k : 0 <= N -> 0 <= N + k ->
  exists c, 0 < c /\ 2 ^ (N + k) = 2 ^ pos k * c /\ 2 ^ N = 2 ^ pos (- k) * c.
Proof.
  intros HN Hk. exists (2 ^ (N - pos (- k))). unfold pos in *.
  split; [apply pow2_pos; lia|].
  split; rewrite <- pow2_split by lia; f_equal; lia.
Qed.

Lemma below_shift N n d k : 0 <= N -> 0 <= N + k ->
  below n d k <-> d * 2 ^ (N + k) <= n * 2 ^ N.
Proof.
  intros HN Hk. destruct (pow2_pos_shift N k HN Hk) as (c & Hc & -> & ->).
  unfold below. rewrite !Z.mul_assoc. split; intros; nia.
Qed.

Lemma below_mono n d j k : 0 < d -> j <= k -> below n d k -> below n d j.
Proof.
  intros Hd Hjk. set (N := Z.abs j + Z.abs k).
  rewrite (below_shift N n d k), (below_shift N n d j) by lia.
  intros H. assert (2 ^ (N + j) <= 2 ^ (N + k)) by (apply Z.pow_le_mono_r; lia). nia.
Qed.

Lemma floor_log2_below n d : 0 < n -> 0 < d -> below n d (floor_log2 n d).
Proof.
  intros Hn Hd. unfold floor_log2.
  destruct (Z.leb_spec (d * 2 ^ pos (Z.log2 n - Z.log2 d))
                       (n * 2 ^ pos (- (Z.log2 n - Z.log2 d)))) as [H|_]; [exact H|].
  pose proof (Z.log2_spec n Hn) as [Ha _]. pose proof (Z.log2_spec d Hd) as [_ Hb].
  pose proof (Z.log2_nonneg n). pose proof (Z.log2_nonneg d).
  set (a := Z.log2 n) in *. set (b := Z.log2 d) in *.
  apply (below_shift (b + 1)); [lia..|].
  replace (b + 1 + (a - b - 1)) with a by lia.
  rewrite Z.pow_succ_r in Hb by lia. rewrite Z.add_1_r, Z.pow_succ_r by lia.
  pose proof (pow2_pos a). pose proof (pow2_pos b). nia.
Qed.

Lemma floor_log2_above n d : 0 < n -> 0 < d -> ~ below n d (floor_log2 n d + 1).
Proof.
  intros Hn Hd. unfold floor_log2.
  destruct (Z.leb_spec (d * 2 ^ pos (Z.log2 n - Z.log2 d))
                       (n * 2 ^ pos (- (Z.log2 n - Z.log2 d)))) as [_|H].
  2: { replace (_ - 1 + 1) with (Z.log2 n - Z.log2 d) by lia. unfold below. lia. }
  pose proof (Z.log2_spec n Hn) as [_ Ha]. pose proof (Z.log2_spec d Hd) as [Hb _].
  pose proof (Z.log2_nonneg n). pose proof (Z.log2_nonneg d).
  set (a := Z.log2 n) in *. set (b := Z.log2 d) in *.
  rewrite (below_shift b) by lia.
  replace (b + (a - b + 1)) with (a + 1) by lia. rewrite Z.add_1_r.
  pose proof (pow2_pos a). pose proof (pow2_pos b). nia.
Qed.

Lemma floor_log2_unique n d k :
  0 < n -> 0 < d -> below n d k -> ~ below n d (k + 1) -> floor_log2 n d = k.
Proof.
  intros Hn Hd H1 H2. pose proof (floor_log2_below n d Hn Hd) as H3.
  pose proof (floor_log2_above n d Hn Hd) as H4.
  destruct (Z.lt_total (floor_log2 n d) k) as [Hlt|[->|Hlt]]; [|done|]; exfalso.
  - apply H4. apply (below_mono n d _ k); [lia..|done].
  - apply H2. apply (below_mono n d _ (floor_log2 n d)); [lia..|done].
Qed.

(** The integer quotient that [round] computes for exponent [e]. *)
Definition quotient (n d e : Z) : Z := n * 2 ^ pos (- e) / (d * 2 ^ pos e).

Lemma divisor_pos d e : 0 < d -> 0 < d * 2 ^ pos e.
Proof. intros. apply Z.mul_pos_pos; [done|]. apply pow2_pos. unfold pos. lia. Qed.

Lemma below_quotient n d e k : 0 <= n -> 0 < d -> 0 <= k ->
  below n d (e + k) <-> 2 ^ k <= quotient n d e.
Proof.
  intros Hn Hd Hk. set (N := Z.abs e + k).
  rewrite (below_shift N) by lia. unfold quotient.
  pose proof (divisor_pos d e Hd) as HB.
  destruct (pow2_pos_shift N e) as (c & Hc & He & HN); [lia..|].
  replace (N + (e + k)) with (N + e + k) by lia.
  rewrite pow2_split, He, HN by lia.
  transitivity (2 ^ k * (d * 2 ^ pos e) <= n * 2 ^ pos (- e)); [nia|].
  split; intros H.
  - apply Z.div_le_lower_bound; lia.
  - pose proof (Z.mul_div_le (n * 2 ^ pos (- e)) _ HB). nia.
Qed.

Lemma round_div_even_bounds a b :
  0 <= a -> 0 < b -> a / b <= round_div_even a b <= a / b + 1.
Proof.
  intros. unfold round_div_even.
  destruct (_ ?= _); [destruct (Z.even _)| |]; lia.
Qed.

Lemma round_div_even_exact m b : 0 < b -> round_div_even (m * b) b = m.
Proof.
  intros. unfold round_div_even. rewrite Z.mod_mul, Z.div_mul by lia.
  by destruct b.
Qed.

(** What [round] finds for a positive ratio, before the overflow test. *)
Lemma round_quotient_bounds n d :
  0 < n -> 0 < d ->
  let e := round_exponent n d in
  0 <= quotient n d e < 2 ^ 53 /\ (2 ^ 52 <= quotient n d e \/ e = -1074).
Proof.
  intros Hn Hd e. unfold e, round_exponent.
  pose proof (floor_log2_below n d Hn Hd) as Hlo.
  pose proof (floor_log2_above n d Hn Hd) as Hhi.
  set (fl := floor_log2 n d) in *. clearbody fl.
  split; [split|].
  - apply Z.div_pos; [|by apply divisor_pos].
    apply Z.mul_nonneg_nonneg; [lia|]. apply Z.pow_nonneg. lia.
  - apply Z.nle_gt. rewrite <- below_quotient by lia.
    intros Hb. apply Hhi. eapply below_mono; [done| |exact Hb]. lia.
  - destruct (Z.max_spec (-1074) (fl - 52)) as [[_ ->]|[_ ->]]; [left|by right].
    apply below_quotient; [lia..|]. by replace (fl - 52 + 52) with fl by lia.
Qed.

Lemma round_valid neg n d : 0 <= n -> 0 < d -> valid (round neg n d) = true.
Proof.
  intros Hn Hd. unfold round. destruct (Z.eqb_spec n 0) as [->|Hn0]; [done|].
  assert (0 < n) as Hpos by lia.
  pose proof (round_quotient_bounds n d Hpos Hd) as [Hq Hor].
  assert (-1074 <= round_exponent n d) as Hemin by (unfold round_exponent; lia).
  set (e := round_exponent n d) in *.
  pose proof (round_div_even_bounds (n * 2 ^ pos (- e)) (d * 2 ^ pos e)) as Hr.
  assert (0 <= n * 2 ^ pos (- e)) as Ha.
  { apply Z.mul_nonneg_nonneg; [lia|]. apply Z.pow_nonneg. lia. }
  specialize (Hr Ha (divisor_pos d e Hd)). fold (quotient n d e) in Hr.
  set (m := round_div_even _ _) in *. clearbody m e.
  destruct (Z.eqb_spec m (2 ^ 53)) as [->|Hm].
  - destruct (Z.ltb_spec 971 (e + 1)); [done|]. cbn.
    repeat (rewrite andb_true_iff; split); [..|apply orb_true_iff; left]; lia.
  - destruct (Z.ltb_spec 971 e); [done|]. unfold valid.
    repeat (rewrite andb_true_iff; split); try lia.
Qed.

(** Rounding leaves a value that is representable as it is. *)
Lemma round_exact neg n d m e :
  0 < n -> 0 < d -> valid (Finite neg m e) = true ->
  n * 2 ^ pos (- e) = m * (d * 2 ^ pos e) ->
  round neg n d = Finite neg m e.
Proof.
  intros Hn Hd Hv Heq. unfold valid in Hv.
  rewrite !andb_true_iff, orb_true_iff in Hv.
  destruct Hv as ((((H0%Z.leb_le & H1%Z.ltb_lt) & H2%Z.leb_le) & H3%Z.leb_le) & Hor).
  pose proof (divisor_pos d e Hd) as HB.
  assert (quotient n d e = m) as Hq.
  { unfold quotient. rewrite Heq, Z.div_mul; lia. }
  pose proof (floor_log2_below n d Hn Hd) as Hlo.
  pose proof (floor_log2_above n d Hn Hd) as Hhi.
  assert (floor_log2 n d < e + 53) as Hfl.
  { destruct (Z.le_gt_cases (e + 53) (floor_log2 n d)) as [Hle|]; [exfalso|done].
    assert (below n d (e + 53)) as Hb by (eapply below_mono; eauto).
    apply below_quotient in Hb; lia. }
  assert (round_exponent n d = e) as He.
  { unfold round_exponent. destruct Hor as [Hm%Z.leb_le| ->%Z.eqb_eq]; [|lia].
    assert (below n d (e + 52)) as Hb by (apply below_quotient; lia).
    destruct (Z.le_gt_cases (e + 52) (floor_log2 n d)) as [|Hgt]; [lia|exfalso].
    apply Hhi. eapply below_mono; [done| |exact Hb]. lia. }
  unfold round. destruct (Z.eqb_spec n 0); [lia|].
  rewrite He, Heq, round_div_even_exact by lia.
  destruct (Z.eqb_spec m (2 ^ 53)); [lia|]. destruct (Z.ltb_spec 971 e); [lia|done].
Qed.

(** Rounding depends on the ratio only. *)
Lemma below_ratio n d n' d' k :
  0 < d -> 0 < d' -> n * d' = n' * d -> below n d k -> below n' d' k.
Proof. unfold below. intros Hd Hd' Heq H. nia. Qed.

Lemma round_div_even_ratio a b a' b' :
  0 < b -> 0 < b' -> a * b' = a' * b -> round_div_even a b = round_div_even a' b'.
Proof.
  intros Hb Hb' Heq. unfold round_div_even.
  assert (a / b = a' / b') as Hq.
  { rewrite <- (Z.div_mul_cancel_r a b b'), <- (Z.div_mul_cancel_r a' b' b) by lia.
    f_equal; lia. }
  assert ((a mod b) * b' = (a' mod b') * b) as Hr.
  { rewrite !Z.mod_eq by lia. rewrite Hq. nia. }
  rewrite Hq.
  replace (2 * (a mod b) ?= b) with (2 * (a' mod b') ?= b'); [done|].
  destruct (Z.compare_spec (2 * (a' mod b')) b'), (Z.compare_spec (2 * (a mod b)) b);
    try done; exfalso; nia.
Qed.

Lemma round_ratio neg n d n' d' :
  0 <= n -> 0 < d -> 0 < d' -> n * d' = n' * d -> round neg n d = round neg n' d'.
Proof.
  intros Hn Hd Hd' Heq. unfold round.
  destruct (Z.eqb_spec n 0) as [->|Hn0].
  { assert (n' = 0) as -> by nia. done. }
  destruct (Z.eqb_spec n' 0) as [->|Hn'0]; [nia|].
  assert (0 < n) by lia. assert (0 < n') by nia.
  assert (floor_log2 n d = floor_log2 n' d') as Hfl.
  { symmetry. apply floor_log2_unique; [done..| |].
    - eapply below_ratio; [| |exact Heq|]; [done..|]. by apply floor_log2_below.
    - intros Hb. apply (floor_log2_above n d); [done..|].
      eapply (below_ratio n' d'); [done..| |exact Hb]. lia. }
  unfold round_exponent. rewrite Hfl. set (e := Z.max _ _).
  rewrite (round_div_even_ratio (n * 2 ^ pos (- e)) (d * 2 ^ pos e)
             (n' * 2 ^ pos (- e)) (d' * 2 ^ pos e)); [done|..].
  - by apply divisor_pos.
  - by apply divisor_pos.
  - nia.
Qed.

(** ** Every operation yields a canonical number *)

Lemma round_scaled_valid neg n e : 0 <= n -> valid (round_scaled neg n e) = true.
Proof.
  intros. apply round_valid; [|apply pow2_pos; unfold pos; lia].
  apply Z.mul_nonneg_nonneg; [done|]. apply Z.pow_nonneg. lia.
Qed.

Lemma valid_nonneg s m e : valid (Finite s m e) = true -> 0 <= m.
Proof. unfold valid. rewrite !andb_true_iff. intros ((((H%Z.leb_le & _) & _) & _) & _). done. Qed.

Lemma num_neg_valid x : valid (num_neg x) = valid x.
Proof. by destruct x. Qed.
Lemma num_abs_valid x : valid x = true -> valid (num_abs x) = true.
Proof. by destruct x. Qed.

Lemma num_add_valid x y : valid (num_add x y) = true.
Proof.
  destruct x as [|s|s m e], y as [|t|t n f]; cbn [num_add]; try done.
  - by destruct (eqb s t).
  - destruct (_ =? 0); [done|]. apply round_scaled_valid. lia.
Qed.

Lemma num_sub_valid x y : valid (num_sub x y) = true.
Proof. apply num_add_valid. Qed.
Lemma num_mul_valid x y : valid x = true -> valid y = true -> valid (num_mul x y) = true.
Proof.
  destruct x as [|s|s m e], y as [|t|t n f]; cbn [num_mul]; try done;
    intros Hx Hy; try (by destruct (_ =? 0)).
  apply round_scaled_valid. apply valid_nonneg in Hx, Hy. nia.
Qed.

Lemma num_div_valid x y : valid x = true -> valid y = true -> valid (num_div x y) = true.
Proof.
  destruct x as [|s|s m e], y as [|t|t n f]; cbn [num_div]; try done; intros Hx Hy.
  destruct (Z.eqb_spec n 0); [by destruct (_ =? 0)|].
  apply valid_nonneg in Hx, Hy. apply round_valid.
  - apply Z.mul_nonneg_nonneg; [done|]. apply Z.pow_nonneg. lia.
  - apply divisor_pos. lia.
Qed.

Lemma integral_valid up x : valid x = true -> valid (integral up x) = true.
Proof.
  destruct x as [|s|s m e]; cbn [integral]; try done. intros Hx.
  destruct (Z.leb_spec 0 e); [done|]. apply valid_nonneg in Hx.
  assert (0 <= m / 2 ^ (- e)).
  { apply Z.div_pos; [done|]. apply pow2_pos. lia. }
  apply round_valid; [|lia]. destruct (up && _); lia.
Qed.

Lemma num_rem_valid x y : valid x = true -> valid y = true -> valid (num_rem x y) = true.
Proof.
  destruct x as [|s|s m e], y as [|t|t n f]; cbn [num_rem]; try done. intros Hx Hy.
  destruct (Z.eqb_spec n 0); [done|]. apply valid_nonneg in Hx, Hy.
  apply round_scaled_valid. apply Z.mod_pos_bound.
  apply Z.mul_pos_pos; [lia|]. apply pow2_pos. lia.
Qed.

Lemma num_min_valid x y : valid x = true -> valid y = true -> valid (num_min x y) = true.
Proof. unfold num_min. by destruct_matches. Qed.
Lemma num_max_valid x y : valid x = true -> valid y = true -> valid (num_max x y) = true.
Proof. unfold num_max. by destruct_matches. Qed.
#[export] Hint Resolve num_add_valid num_mul_valid num_div_valid num_rem_valid
  num_min_valid num_max_valid num_abs_valid integral_valid round_valid : billing.

(** ** Integers are exact while they are safe *)

(** [m * 2^e] is the integer [z]. *)
Definition denotes (m e z : Z) : Prop := m * 2 ^ pos e = z * 2 ^ pos (- e).

Lemma denotes_rescale m e z k :
  k <= e -> denotes m e z -> m * 2 ^ (e - k) * 2 ^ pos k = z * 2 ^ pos (- k).
Proof.
  intros Hk H. unfold denotes in H. set (N := Z.abs e + Z.abs k).
  destruct (pow2_pos_shift N e) as (c & Hc & He & HN); [lia..|].
  destruct (pow2_pos_shift N k) as (c' & Hc' & Hk' & HN'); [lia..|].
  apply (Z.mul_cancel_r _ _ c'); [lia|].
  rewrite <- !Z.mul_assoc, <- Hk', <- HN', <- pow2_split by lia.
  replace (e - k + (N + k)) with (N + e) by lia. rewrite He, HN. nia.
Qed.

Lemma denotes_nonneg m e z : denotes m e z -> 0 <= m -> 0 <= z.
Proof.
  unfold denotes. intros H Hm.
  assert (0 < 2 ^ pos e) by (apply pow2_pos; unfold pos; lia).
  assert (0 < 2 ^ pos (- e)) by (apply pow2_pos; unfold pos; lia). nia.
Qed.

Lemma denotes_to_Z s m e z : denotes m e z -> num_to_Z (Finite s m e) = signed s z.
Proof.
  intros H. cbn. rewrite H, Z.div_mul; [done|].
  pose proof (pow2_pos (pos (- e))). unfold pos in *. lia.
Qed.

Lemma integer_denotes s m e :
  num_is_integer (Finite s m e) = true ->
  exists z, denotes m e z /\ num_to_Z (Finite s m e) = signed s z.
Proof.
  cbn [num_is_integer]. rewrite orb_true_iff. intros H.
  assert (exists z, denotes m e z) as [z Hz].
  { unfold denotes, pos. destruct (Z.leb_spec 0 e) as [He|He].
    - exists (m * 2 ^ e). rewrite !Z.max_l, Z.max_r by lia. lia.
    - exists (m / 2 ^ (- e)). destruct H as [|H%Z.eqb_eq]; [done|].
      rewrite Z.max_r, Z.max_l by lia. rewrite Z.mul_1_r.
      pose proof (pow2_pos (- e)).
      rewrite (Z.div_mod m (2 ^ (- e))) at 1 by lia. lia. }
  exists z. split; [done|]. by apply denotes_to_Z.
Qed.

Lemma round_one_denotes neg z k n :
  0 <= n -> n * 2 ^ pos k = z * 2 ^ pos (- k) -> round_scaled neg n k = round neg z 1.
Proof.
  intros Hn H. apply round_ratio; [| |lia|lia].
  - apply Z.mul_nonneg_nonneg; [done|]. apply Z.pow_nonneg. lia.
  - apply pow2_pos. unfold pos. lia.
Qed.

(** The shape of a rounded positive integer. *)
Lemma round_small neg n :
  0 < n < 2 ^ 53 ->
  round neg n 1 = Finite neg (n * 2 ^ (52 - Z.log2 n)) (Z.log2 n - 52).
Proof.
  intros Hn. pose proof (Z.log2_nonneg n).
  assert (Z.log2 n < 53) by (apply Z.log2_lt_pow2; lia).
  pose proof (Z.log2_spec n ltac:(lia)) as [Hl Hu].
  assert (2 ^ 52 = 2 ^ Z.log2 n * 2 ^ (52 - Z.log2 n)) as E52.
  { rewrite <- pow2_split by lia. f_equal. lia. }
  assert (2 ^ 53 = 2 ^ Z.succ (Z.log2 n) * 2 ^ (52 - Z.log2 n)) as E53.
  { rewrite <- pow2_split by lia. f_equal. lia. }
  pose proof (pow2_pos (52 - Z.log2 n)).
  assert (2 ^ 52 <= n * 2 ^ (52 - Z.log2 n) < 2 ^ 53) by nia.
  apply round_exact; [lia..| |].
  - unfold valid. repeat (rewrite andb_true_iff; split); try lia.
  - unfold pos. rewrite Z.max_l, Z.max_r by lia.
    replace (- (Z.log2 n - 52)) with (52 - Z.log2 n) by lia. lia.
Qed.

Lemma round_small_to_Z neg n :
  0 <= n < 2 ^ 53 ->
  num_to_Z (round neg n 1) = signed neg n /\ num_is_integer (round neg n 1) = true.
Proof.
  intros Hn. destruct (Z.eq_dec n 0) as [->|Hn0].
  { split; [by destruct neg|done]. }
  rewrite round_small by lia. pose proof (Z.log2_nonneg n).
  assert (Z.log2 n < 53) by (apply Z.log2_lt_pow2; lia).
  pose proof (pow2_pos (52 - Z.log2 n)).
  split.
  - apply denotes_to_Z. unfold denotes, pos. rewrite Z.max_r, Z.max_l by lia.
    replace (- (Z.log2 n - 52)) with (52 - Z.log2 n) by lia. lia.
  - cbn [num_is_integer]. apply orb_true_iff. right.
    replace (- (Z.log2 n - 52)) with (52 - Z.log2 n) by lia.
    apply Z.eqb_eq, Z.mod_mul. lia.
Qed.

(** A rounded integer that is still safe was not changed by rounding. *)
Lemma round_large_unsafe neg n :
  2 ^ 53 <= n -> num_is_safe_integer (round neg n 1) = false.
Proof.
  intros Hn. unfold round. destruct (Z.eqb_spec n 0); [lia|].
  pose proof (round_quotient_bounds n 1 ltac:(lia) ltac:(lia)) as [Hq Hor].
  assert (1 <= round_exponent n 1) as He.
  { unfold round_exponent.
    enough (53 <= floor_log2 n 1) by lia.
    destruct (Z.le_gt_cases 53 (floor_log2 n 1)) as [|Hlt]; [done|exfalso].
    apply (floor_log2_above n 1); [lia..|].
    apply (below_mono n 1 _ 53); [lia..|]. unfold below.
    change (pos 53) with 53. change (pos (- (53))) with 0. lia. }
  set (e := round_exponent n 1) in *.
  destruct Hor as [Hor|Hor]; [|lia].
  pose proof (round_div_even_bounds (n * 2 ^ pos (- e)) (1 * 2 ^ pos e)) as Hr.
  assert (0 <= n * 2 ^ pos (- e)) as Ha.
  { apply Z.mul_nonneg_nonneg; [lia|]. apply Z.pow_nonneg. lia. }
  specialize (Hr Ha (divisor_pos 1 e ltac:(lia))). fold (quotient n 1 e) in Hr.
  set (m := round_div_even _ _) in *. clearbody m e.
  assert (forall m' e', 2 ^ 52 <= m' -> 1 <= e' ->
            num_is_safe_integer (Finite neg m' e') = false) as Hbig.
  { intros m' e' Hm' He'. unfold num_is_safe_integer. apply andb_false_iff. right.
    apply Z.leb_gt. cbn. unfold pos. rewrite Z.max_l, Z.max_r, Z.div_1_r by lia.
    assert (2 ^ 1 <= 2 ^ e') by (apply Z.pow_le_mono_r; lia).
    destruct neg; cbn [signed]; nia. }
  destruct (Z.eqb_spec m (2 ^ 53)) as [->|].
  - destruct (Z.ltb_spec 971 (e + 1)); [done|]. apply Hbig; lia.
  - destruct (Z.ltb_spec 971 e); [done|]. apply Hbig; lia.
Qed.

Lemma round_safe_exact neg n :
  0 <= n -> num_is_safe_integer (round neg n 1) = true ->
  num_to_Z (round neg n 1) = signed neg n.
Proof.
  intros Hn Hs. destruct (Z.lt_ge_cases n (2 ^ 53)) as [Hlt|Hge].
  - by apply round_small_to_Z.
  - by rewrite round_large_unsafe in Hs.
Qed.

Lemma of_Z_exact z : Z.abs z < 2 ^ 53 -> num_to_Z (of_Z z) = z.
Proof.
  intros Hz. unfold of_Z. rewrite (proj1 (round_small_to_Z _ (Z.abs z) ltac:(lia))).
  destruct (Z.ltb_spec z 0); cbn [signed]; lia.
Qed.

Lemma of_Z_integer z : Z.abs z < 2 ^ 53 -> num_is_integer (of_Z z) = true.
Proof. intros Hz. unfold of_Z. apply round_small_to_Z. lia. Qed.

Lemma of_Z_safe z : Z.abs z < 2 ^ 53 -> num_is_safe_integer (of_Z z) = true.
Proof.
  intros Hz. unfold num_is_safe_integer. rewrite of_Z_integer, of_Z_exact by done.
  rewrite andb_true_l. apply Z.leb_le. lia.
Qed.

Lemma of_Z_valid z : valid (of_Z z) = true.
Proof. apply round_valid; lia. Qed.
#[export] Hint Resolve of_Z_valid : billing.

Lemma safe_integral x : num_is_safe_integer x = true -> num_is_integer x = true.
Proof. unfold num_is_safe_integer. rewrite andb_true_iff. tauto. Qed.

Lemma signed_abs z : signed (z <? 0) (Z.abs z) = z.
Proof. destruct (Z.ltb_spec z 0); cbn; lia. Qed.

Lemma signed_mul s t a b : signed (xorb s t) (a * b) = signed s a * signed t b.
Proof. destruct s, t; cbn; lia. Qed.

(** A sum of integers is the rounded sum, or some zero. *)
Lemma num_add_round x y :
  num_is_integer x = true -> num_is_integer y = true ->
  let z := num_to_Z x + num_to_Z y in
  z = 0 /\ (exists s, num_add x y = Finite s 0 (-1074)) \/
  num_add x y = round (z <? 0) (Z.abs z) 1.
Proof.
  destruct x as [|?|s m e], y as [|?|t n f]; try discriminate 1; try discriminate 2.
  intros (a & Ha & ->)%integer_denotes (b & Hb & ->)%integer_denotes.
  cbn [num_add]. set (k := Z.min e f).
  pose proof (denotes_rescale m e a k ltac:(lia) Ha) as Ha'.
  pose proof (denotes_rescale n f b k ltac:(lia) Hb) as Hb'.
  set (z := signed s m * _ + _). cbv zeta.
  assert (z * 2 ^ pos k = (signed s a + signed t b) * 2 ^ pos (- k)) as Hz.
  { unfold z. destruct s, t; cbn [signed]; lia. }
  assert (0 < 2 ^ pos k) by (apply pow2_pos; unfold pos; lia).
  assert (0 < 2 ^ pos (- k)) by (apply pow2_pos; unfold pos; lia).
  destruct (Z.eqb_spec z 0) as [Hz0|Hz0].
  - left. split; [nia|eauto].
  - right. assert (Z.abs z * 2 ^ pos k = Z.abs (signed s a + signed t b) * 2 ^ pos (- k)).
    { rewrite <- (Z.abs_eq (2 ^ pos k)), <- (Z.abs_eq (2 ^ pos (- k))) by lia.
      rewrite <- !Z.abs_mul. congruence. }
    rewrite (round_one_denotes _ (Z.abs (signed s a + signed t b))) by (done || lia).
    f_equal. destruct (Z.ltb_spec z 0), (Z.ltb_spec (signed s a + signed t b) 0);
      try done; exfalso; nia.
Qed.

(** Integer addition and multiplication agree with [Z] whenever the result is
    a safe integer. *)
Lemma num_add_exact x y :
  num_is_integer x = true -> num_is_integer y = true ->
  num_is_safe_integer (num_add x y) = true ->
  num_to_Z (num_add x y) = num_to_Z x + num_to_Z y.
Proof.
  intros Hx Hy. destruct (num_add_round x y Hx Hy) as [[-> [s ->]] | -> ]; [by destruct s|].
  intros Hs. rewrite round_safe_exact by (done || lia). apply signed_abs.
Qed.

Lemma num_add_small x y :
  num_is_integer x = true -> num_is_integer y = true ->
  Z.abs (num_to_Z x + num_to_Z y) < 2 ^ 53 ->
  num_is_integer (num_add x y) = true /\ num_to_Z (num_add x y) = num_to_Z x + num_to_Z y.
Proof.
  intros Hx Hy Hs. destruct (num_add_round x y Hx Hy) as [[-> [s ->]] | -> ]; [by destruct s|].
  destruct (round_small_to_Z (num_to_Z x + num_to_Z y <? 0) (Z.abs (num_to_Z x + num_to_Z y)) ltac:(lia))
    as [E Hi]. split; [exact Hi|]. rewrite E. apply signed_abs.
Qed.

Lemma num_to_Z_neg x : num_to_Z (num_neg x) = - num_to_Z x.
Proof. destruct x as [|?|s m e]; cbn; [done..|]. destruct s; cbn; lia. Qed.

Lemma num_sub_exact x y :
  num_is_integer x = true -> num_is_integer y = true ->
  num_is_safe_integer (num_sub x y) = true ->
  num_to_Z (num_sub x y) = num_to_Z x - num_to_Z y.
Proof.
  intros Hx Hy Hs. unfold num_sub in *. rewrite num_add_exact, num_to_Z_neg; try done.
  by destruct y.
Qed.

Lemma num_mul_exact x y :
  valid x = true -> valid y = true ->
  num_is_integer x = true -> num_is_integer y = true ->
  num_is_safe_integer (num_mul x y) = true ->
  num_to_Z (num_mul x y) = num_to_Z x * num_to_Z y.
Proof.
  destruct x as [|?|s m e], y as [|?|t n f]; try discriminate 3; try discriminate 4.
  intros Hvx%valid_nonneg Hvy%valid_nonneg.
  intros (a & Ha & ->)%integer_denotes (b & Hb & ->)%integer_denotes.
  cbn [num_mul]. unfold denotes in *.
  assert (0 <= a /\ 0 <= b) as [Ha0 Hb0].
  { split; [by apply (denotes_nonneg m e) | by apply (denotes_nonneg n f)]. }
  assert (m * n * 2 ^ pos (e + f) = a * b * 2 ^ pos (- (e + f))) as Hmn.
  { set (N := Z.abs e + Z.abs f).
    destruct (pow2_pos_shift N e) as (c & Hc & He & HN); [lia..|].
    destruct (pow2_pos_shift N f) as (c' & Hc' & Hf & HN'); [lia..|].
    destruct (pow2_pos_shift (N + N) (e + f)) as (c2 & Hc2 & Hef & HNN); [lia..|].
    apply (Z.mul_cancel_r _ _ c2); [lia|].
    rewrite <- !Z.mul_assoc, <- Hef, <- HNN.
    replace (N + N + (e + f)) with ((N + e) + (N + f)) by lia.
    rewrite (pow2_split (N + e)), (pow2_split N N) by lia.
    assert (m * 2 ^ (N + e) = a * 2 ^ N) as E1 by (by rewrite He, HN, !Z.mul_assoc, Ha).
    assert (n * 2 ^ (N + f) = b * 2 ^ N) as E2 by (by rewrite Hf, HN', !Z.mul_assoc, Hb).
    transitivity ((m * 2 ^ (N + e)) * (n * 2 ^ (N + f))); [ring|].
    rewrite E1, E2. ring. }
  assert (0 <= m * n) by (by apply Z.mul_nonneg_nonneg).
  assert (0 <= a * b) by (by apply Z.mul_nonneg_nonneg).
  rewrite (round_one_denotes _ (a * b)) by done. intros Hs.
  rewrite round_safe_exact by done. apply signed_mul.
Qed.

Lemma num_rem_exact x y :
  valid x = true -> valid y = true ->
  num_is_integer x = true -> num_is_safe_integer y = true -> num_to_Z y <> 0 ->
  num_to_Z (num_rem x y) = Z.rem (num_to_Z x) (num_to_Z y).
Proof.
  destruct x as [|?|s m e], y as [|?|t n f]; try discriminate 3; try discriminate 4.
  intros Hvx%valid_nonneg Hvy%valid_nonneg Hix Hsy.
  pose proof (safe_integral _ Hsy) as Hiy.
  apply andb_true_iff in Hsy as [_ Hsy%Z.leb_le].
  apply integer_denotes in Hix as (a & Ha & ->).
  apply integer_denotes in Hiy as (b & Hb & Eb). rewrite Eb in Hsy |- *.
  pose proof (denotes_nonneg _ _ _ Ha Hvx) as Ha0.
  pose proof (denotes_nonneg _ _ _ Hb Hvy) as Hb0. intros Hb1.
  assert (0 < b < 2 ^ 53) as Hb2 by (destruct t; cbn [signed] in *; lia).
  cbn [num_rem]. destruct (Z.eqb_spec n 0) as [->|Hn0].
  { unfold denotes in Hb.
    assert (0 < 2 ^ pos (- f)) by (apply pow2_pos; unfold pos; lia). nia. }
  set (k := Z.min e f).
  pose proof (denotes_rescale m e a k ltac:(lia) Ha) as Ha'.
  pose proof (denotes_rescale n f b k ltac:(lia) Hb) as Hb'.
  set (m' := m * 2 ^ (e - k)) in *. set (n' := n * 2 ^ (f - k)) in *.
  assert (0 < 2 ^ pos k) by (apply pow2_pos; unfold pos; lia).
  assert (0 < 2 ^ pos (- k)) by (apply pow2_pos; unfold pos; lia).
  assert (0 < n') by (apply Z.mul_pos_pos; [lia|apply pow2_pos; lia]).
  rewrite (round_one_denotes _ (a mod b)).
  - pose proof (Z.mod_pos_bound a b ltac:(lia)).
    rewrite (proj1 (round_small_to_Z s (a mod b) ltac:(lia))).
    rewrite <- (Z.rem_mod_nonneg a b) by lia.
    destruct s, t; cbn [signed];
      rewrite ?Z.rem_opp_l', ?Z.rem_opp_r'; done.
  - apply Z.mod_pos_bound. lia.
  - rewrite <- !Z.mul_mod_distr_r by lia. by rewrite Ha', Hb'.
Qed.

Lemma num_compare_integers s m e t n f a b :
  denotes m e a -> denotes n f b ->
  num_compare (Finite s m e) (Finite t n f) = Some (signed s a ?= signed t b).
Proof.
  intros Ha Hb. cbn. f_equal. set (k := Z.min e f).
  pose proof (denotes_rescale m e a k ltac:(lia) Ha) as Ha'.
  pose proof (denotes_rescale n f b k ltac:(lia) Hb) as Hb'.
  assert (0 < 2 ^ pos k) by (apply pow2_pos; unfold pos; lia).
  assert (0 < 2 ^ pos (- k)) by (apply pow2_pos; unfold pos; lia).
  rewrite (Zmult_compare_compat_r _ _ (2 ^ pos k)) by lia.
  rewrite (Zmult_compare_compat_r (signed s a) _ (2 ^ pos (- k))) by lia.
  f_equal; destruct s, t; cbn [signed]; nia.
Qed.

Lemma num_compare_ints x y :
  num_is_integer x = true -> num_is_integer y = true ->
  num_compare x y = Some (num_to_Z x ?= num_to_Z y).
Proof.
  destruct x as [|?|s m e], y as [|?|t n f]; try discriminate 1; try discriminate 2.
  intros (a & Ha & ->)%integer_denotes (b & Hb & ->)%integer_denotes. by apply num_compare_integers.
Qed.

(** Comparing small integers as numbers is comparing them. *)
Lemma num_compare_of_Z a b :
  Z.abs a < 2 ^ 53 -> Z.abs b < 2 ^ 53 ->
  num_compare (of_Z a) (of_Z b) = Some (a ?= b).
Proof.
  intros Ha Hb. rewrite num_compare_ints by (by apply of_Z_integer). by rewrite !of_Z_exact.
Qed.

Lemma num_compare_refl s m e : num_compare (Finite s m e) (Finite s m e) = Some Eq.
Proof. cbn. by rewrite Z.compare_refl. Qed.

Lemma num_eqb_refl x : num_is_finite x = true -> num_eqb x x = true.
Proof. unfold num_eqb. destruct x; try done. by rewrite num_compare_refl. Qed.

Lemma num_compare_sym x y : num_compare y x = option_map CompOpp (num_compare x y).
Proof.
  destruct x as [|s|s m e], y as [|t|t n f]; try done; try (by destruct s); try (by destruct t).
  - by destruct s, t.
  - cbn. by rewrite Z.min_comm, Z.compare_antisym.
Qed.

Lemma num_eqb_sym x y : num_eqb x y = num_eqb y x.
Proof. unfold num_eqb. rewrite (num_compare_sym x y). by destruct (num_compare x y) as [[]|]. Qed.

Lemma round_sign neg n d : num_negative (round neg n d) = neg.
Proof. unfold round. by destruct_matches. Qed.

Lemma num_mul_comm x y : num_mul x y = num_mul y x.
Proof.
  destruct x as [|a|a m e], y as [|b|b n f]; try reflexivity; cbn [num_mul];
    rewrite (xorb_comm a b); try reflexivity. by rewrite (Z.mul_comm m n), (Z.add_comm e f).
Qed.
