(* ===== verification/JsString.v ===== *)
(** * JavaScript strings

    A string is the list of its UTF-16 code units, which is what [length],
    indexing and [slice] of the source count. *)

From Stdlib Require Import String Ascii.
From S2P Require Import Prelude.

Abbreviation str := (list N).

(** A literal of the source; the literals here are ASCII. *)
Definition u (s : string) : str := N_of_ascii <$> list_ascii_of_string s.
Arguments u s%_string.

Definition quote_char : N := 34.
Definition apostrophe : N := 39.
Definition backslash : N := 92.
Definition quoted (s : str) : str := [quote_char] ++ s ++ [quote_char].

Definition str_eqb (s t : str) : bool := bool_decide (s = t).

Lemma str_eqb_eq s t : str_eqb s t = true <-> s = t.
Proof. apply bool_decide_eq_true. Qed.
Lemma str_eqb_refl s : str_eqb s s = true.
Proof. by apply str_eqb_eq. Qed.

(** [list.includes(s)] for a list of strings. *)
Definition one_of (l : list str) (s : str) : bool := existsb (str_eqb s) l.

Lemma one_of_In l s : one_of l s = true <-> s ∈ l.
Proof.
  unfold one_of. rewrite existsb_exists, list_elem_of_In.
  setoid_rewrite str_eqb_eq. naive_solver.
Qed.

(** ** Character classes of the regular expressions *)

Definition in_range (lo hi c : N) : bool := (lo <=? c)%N && (c <=? hi)%N.

(** [\s], which is also the set [trim] removes. *)
Definition is_space (c : N) : bool :=
  in_range 9 13 c || N.eqb c 32 || N.eqb c 160 || N.eqb c 5760
  || in_range 8192 8202 c || N.eqb c 8232 || N.eqb c 8233 || N.eqb c 8239
  || N.eqb c 8287 || N.eqb c 12288 || N.eqb c 65279.
(** [\d] *)
Definition is_digit (c : N) : bool := in_range 48 57 c.
Definition is_upper (c : N) : bool := in_range 65 90 c.
Definition is_lower (c : N) : bool := in_range 97 122 c.
(** [[A-Za-z_]] *)
Definition is_name_start (c : N) : bool := is_upper c || is_lower c || N.eqb c 95.
(** [\w] *)
Definition is_word (c : N) : bool := is_name_start c || is_digit c.
(** [[\da-f]] with the [i] flag *)
Definition is_hex (c : N) : bool := is_digit c || in_range 65 70 c || in_range 97 102 c.

Definition hex_value (c : N) : N :=
  if is_digit c then c - 48 else if in_range 65 70 c then c - 55 else c - 87.

(** ** Searching and cutting *)

Fixpoint take_while (p : N -> bool) (s : str) : str :=
  match s with
  | c :: s => if p c then c :: take_while p s else []
  | [] => []
  end.
Fixpoint drop_while (p : N -> bool) (s : str) : str :=
  match s with
  | c :: s' => if p c then drop_while p s' else s
  | [] => []
  end.

Definition trim_start (s : str) : str := drop_while is_space s.
Definition trim_end (s : str) : str := rev (drop_while is_space (rev s)).
Definition trim (s : str) : str := trim_end (trim_start s).

(** [s.slice(a, b)] for [0 <= a] and [0 <= b]. *)
Definition slice (s : str) (a b : nat) : str := take (b - a) (drop a s).

Fixpoint starts_with (s p : str) {struct p} : bool :=
  match p, s with
  | [], _ => true
  | c :: p, d :: s => N.eqb c d && starts_with s p
  | _ :: _, [] => false
  end.
Definition ends_with (s p : str) : bool := starts_with (rev s) (rev p).

(** [s.includes(t)] *)
Fixpoint includes (s t : str) : bool :=
  starts_with s t || match s with [] => false | _ :: s => includes s t end.

(** [s.indexOf(t)]; [None] is [-1]. *)
Fixpoint position_of (s t : str) : option nat :=
  if starts_with s t then Some 0
  else match s with [] => None | _ :: s => S <$> position_of s t end.

(** [s.split(c)] for a character [c]; [piece] is the text since the last one,
    reversed. *)
Fixpoint split_char (c : N) (s piece : str) : list str :=
  match s with
  | [] => [rev piece]
  | x :: s => if N.eqb x c then rev piece :: split_char c s [] else split_char c s (x :: piece)
  end.

(** [l.join(sep)] *)
Fixpoint join (sep : str) (l : list str) : str :=
  match l with
  | [] => []
  | [s] => s
  | s :: l => s ++ sep ++ join sep l
  end.

(** [a < b] on strings: code unit order. *)
Fixpoint str_ltb (a b : str) : bool :=
  match a, b with
  | _, [] => false
  | [], _ :: _ => true
  | c :: a, d :: b => if N.eqb c d then str_ltb a b else N.ltb c d
  end.
Definition str_leb (a b : str) : bool := negb (str_ltb b a).

(** [Boolean(s)] *)
Definition nonempty (s : str) : bool := match s with [] => false | _ => true end.

(** ** [JSON.stringify] of a string *)

Definition hex_digit (n : N) : N := if N.ltb n 10 then 48 + n else 87 + n.
Definition hex4 (c : N) : str :=
  [hex_digit (c / 4096 mod 16); hex_digit (c / 256 mod 16);
   hex_digit (c / 16 mod 16); hex_digit (c mod 16)]%N.
Definition unicode_escape (c : N) : str := backslash :: 117%N :: hex4 c.

Definition is_lead (c : N) : bool := in_range 55296 56319 c.
Definition is_trail (c : N) : bool := in_range 56320 57343 c.

Definition json_escape (c : N) : str :=
  if N.eqb c 8 then [backslash; 98%N]
  else if N.eqb c 9 then [backslash; 116%N]
  else if N.eqb c 10 then [backslash; 110%N]
  else if N.eqb c 12 then [backslash; 102%N]
  else if N.eqb c 13 then [backslash; 114%N]
  else if N.eqb c quote_char then [backslash; quote_char]
  else if N.eqb c backslash then [backslash; backslash]
  else if N.ltb c 32 then unicode_escape c
  else [c].

(** A surrogate outside a pair is escaped. *)
Fixpoint json_body (s : str) : str :=
  match s with
  | [] => []
  | c :: s =>
      if is_lead c then
        match s with
        | d :: s' =>
            if is_trail d then c :: d :: json_body s'
            else unicode_escape c ++ json_body s
        | [] => unicode_escape c
        end
      else if is_trail c then unicode_escape c ++ json_body s
      else json_escape c ++ json_body s
  end.
Definition json_string (s : str) : str := quoted (json_body s).

(** ** Lemmas *)

Lemma take_drop_while p s : take_while p s ++ drop_while p s = s.
Proof. induction s as [|c s IH]; cbn; [done|]. destruct (p c); cbn; by rewrite ?IH. Qed.

Lemma take_while_forall p s : Forall (fun c => p c = true) (take_while p s).
Proof.
  induction s as [|c s IH]; cbn; [constructor|].
  destruct (p c) eqn:E; constructor; auto.
Qed.

Lemma take_while_app p s t :
  Forall (fun c => p c = true) s ->
  take_while p (s ++ t) = s ++ take_while p t /\ drop_while p (s ++ t) = drop_while p t.
Proof.
  induction 1 as [|c s Hc _ [IH1 IH2]]; cbn; [done|]. rewrite Hc, IH1. auto.
Qed.

Lemma starts_with_app s p : starts_with s p = true <-> exists t, s = p ++ t.
Proof.
  revert s. induction p as [|c p IH]; intros s; cbn.
  { split; [intros _; by exists s | done]. }
  destruct s as [|d s]; [split; [done|by intros [t Ht]]|].
  rewrite andb_true_iff, N.eqb_eq, IH. split.
  - intros [-> [t ->]]. by exists t.
  - intros [t [= -> ->]]. split; [done|by exists t].
Qed.

Lemma slice_app s a b c : a <= b -> b <= c -> slice s a b ++ slice s b c = slice s a c.
Proof.
  intros. unfold slice. replace (c - a) with ((b - a) + (c - b)) by lia.
  rewrite <- (take_take_drop _ (b - a)). f_equal. f_equal.
  rewrite drop_drop. f_equal. lia.
Qed.

Lemma slice_middle s t r : slice (s ++ t ++ r) (length s) (length s + length t) = t.
Proof.
  unfold slice. rewrite drop_app_length.
  replace (length s + length t - length s) with (length t) by lia.
  apply take_app_length.
Qed.

Lemma trim_start_head c s : is_space c = false -> trim_start (c :: s) = c :: s.
Proof. intros H. cbn. by rewrite H. Qed.

(** The ends of a string that [trim] does not change. *)
Definition trimmed (s : str) : Prop := trim s = s.

Lemma trimmed_ends s c d :
  is_space c = false -> is_space d = false -> s = [c] \/ (exists m, s = c :: m ++ [d]) ->
  trimmed s.
Proof.
  intros Hc Hd H. unfold trimmed, trim, trim_end.
  destruct H as [->|[m ->]]; rewrite trim_start_head by done; cbn.
  - by rewrite Hc.
  - rewrite rev_app_distr. cbn. rewrite Hd. cbn.
    by rewrite rev_app_distr, rev_involutive.
Qed.

Definition spaces (s : str) : Prop := Forall (fun c => is_space c = true) s.

(** A text is its trimmed core between two runs of white space. *)
Lemma trim_split s : exists a b, s = a ++ trim s ++ b /\ spaces a /\ spaces b.
Proof.
  exists (take_while is_space s), (rev (take_while is_space (rev (trim_start s)))).
  split_and!.
  - unfold trim, trim_end.
    rewrite <- rev_app_distr, take_drop_while, rev_involutive. symmetry. apply take_drop_while.
  - apply take_while_forall.
  - apply Forall_rev, take_while_forall.
Qed.

Lemma trim_length s : length (trim s) <= length s.
Proof.
  destruct (trim_split s) as (a & b & Hs & _). rewrite Hs at 2. rewrite !length_app. lia.
Qed.

Lemma drop_while_head p s c r : drop_while p s = c :: r -> p c = false.
Proof.
  induction s as [|x s IH]; cbn; [done|]. destruct (p x) eqn:Ex; [done|]. by intros [= <- _].
Qed.
Lemma drop_while_snoc p s c : p c = false -> exists r, drop_while p (s ++ [c]) = r ++ [c].
Proof.
  intros Hc. induction s as [|x s [r IH]]; cbn; [rewrite Hc; by exists []|].
  destruct (p x); [eauto|]. by exists (x :: s).
Qed.

Lemma trim_trim s : trim (trim s) = trim s.
Proof.
  change (trimmed (trim s)). unfold trim at 1, trim_end.
  destruct (trim_start s) as [|c t] eqn:Et; [done|]. apply drop_while_head in Et as Hc.
  cbn [rev]. destruct (drop_while_snoc is_space (rev t) c Hc) as [r Hr]. rewrite Hr.
  destruct r as [|d r]; cbn [app]; [by apply (trimmed_ends [c] c c); [..|left]|].
  apply drop_while_head in Hr. cbn [rev]. rewrite rev_app_distr. cbn [rev app].
  apply (trimmed_ends _ c d); [done..|]. right. by exists (rev r).
Qed.

(** A text whose double quotes are written as apostrophes. *)
Definition uq (s : string) : str :=
  map (fun x => if N.eqb x apostrophe then quote_char else x) (u s).
