(* ===== verification/JsText.v ===== *)
(** * Numbers as text

    Decimal literals, [Number(text)], [String(number)] and
    [toExponential()], as ECMAScript defines them. *)

From S2P Require Import Prelude JsNumber JsString.
Local Open Scope Z_scope.

(** ** Decimal literals

    Digits with an optional point and optional further digits, or a point and
    digits; then an optional exponent.  This pattern of the lexer is also the
    grammar of an unsigned decimal literal in [Number(text)]. *)

Record decimal : Type := Decimal {
  dec_int : str;                           (** digits before the point *)
  dec_frac : option str;                   (** digits after the point, if there is one *)
  dec_exp : option (N * option N * str);   (** [e], its sign and its digits *)
}.

Definition dot : N := 46.
Definition plus_sign : N := 43.
Definition minus_sign : N := 45.
Definition is_e (c : N) : bool := N.eqb c 101 || N.eqb c 69.
Definition is_sign (c : N) : bool := N.eqb c plus_sign || N.eqb c minus_sign.

(** The exponent group is optional: without digits it matches nothing. *)
Definition scan_exponent (s : str) : option (N * option N * str) * str :=
  match s with
  | c :: t =>
      if is_e c then
        let '(sign, t) :=
          match t with
          | d :: t' => if is_sign d then (Some d, t') else (None, t)
          | [] => (None, t)
          end in
        match take_while is_digit t with
        | [] => (None, s)
        | ds => (Some (c, sign, ds), drop_while is_digit t)
        end
      else (None, s)
  | [] => (None, s)
  end.

Definition scan_mantissa (s : str) : option (str * option str * str) :=
  match take_while is_digit s, drop_while is_digit s with
  | [], c :: t =>
      if N.eqb c dot then
        match take_while is_digit t with
        | [] => None
        | ds => Some ([], Some ds, drop_while is_digit t)
        end
      else None
  | [], [] => None
  | ds, c :: t =>
      if N.eqb c dot
      then Some (ds, Some (take_while is_digit t), drop_while is_digit t)
      else Some (ds, None, c :: t)
  | ds, [] => Some (ds, None, [])
  end.

Definition scan_decimal (s : str) : option (decimal * str) :=
  match scan_mantissa s with
  | None => None
  | Some (i, f, t) =>
      let '(x, t) := scan_exponent t in
      Some ({| dec_int := i; dec_frac := f; dec_exp := x |}, t)
  end.

Definition exp_text (x : option (N * option N * str)) : str :=
  match x with
  | None => []
  | Some (c, sign, ds) => c :: (match sign with Some d => [d] | None => [] end) ++ ds
  end.
Definition frac_text (f : option str) : str :=
  match f with None => [] | Some ds => dot :: ds end.
Definition decimal_text (d : decimal) : str :=
  dec_int d ++ frac_text (dec_frac d) ++ exp_text (dec_exp d).

Definition digit_value (c : N) : Z := Z.of_N c - 48.
Definition digits_value (l : str) : Z :=
  fold_left (fun a c => 10 * a + digit_value c) l 0.

(** [n * 10^k], rounded. *)
Definition round_decimal (neg : bool) (n k : Z) : number :=
  round neg (n * 10 ^ pos k) (10 ^ pos (- k)).

Definition exp_value (x : option (N * option N * str)) : Z :=
  match x with
  | None => 0
  | Some (_, sign, ds) =>
      if bool_decide (sign = Some minus_sign)
      then - digits_value ds else digits_value ds
  end.

Definition decimal_number (neg : bool) (d : decimal) : number :=
  let f := default [] (dec_frac d) in
  round_decimal neg (digits_value (dec_int d ++ f))
    (exp_value (dec_exp d) - Z.of_nat (length f)).

(** ** [Number(text)] *)

Definition parse_decimal (neg : bool) (s : str) : number :=
  if str_eqb s [73;110;102;105;110;105;116;121]%N then Infinite neg
  else match scan_decimal s with
       | Some (d, []) => decimal_number neg d
       | _ => NaN
       end.

(** Hexadecimal, octal and binary literals, which take no sign. *)
Definition radix_digit (r c : N) : bool := is_hex c && N.ltb (hex_value c) r.
Definition parse_radix (r : N) (s : str) : number :=
  match s with
  | [] => NaN
  | _ => if forallb (radix_digit r) s
         then of_Z (fold_left (fun a c => Z.of_N r * a + Z.of_N (hex_value c)) s 0)
         else NaN
  end.

Definition to_number (text : str) : number :=
  match trim text with
  | [] => zero
  | c :: t =>
      if N.eqb c minus_sign then parse_decimal true t
      else if N.eqb c plus_sign then parse_decimal false t
      else match c, t with
           | 48%N, d :: ds =>
               if N.eqb d 120 || N.eqb d 88 then parse_radix 16 ds
               else if N.eqb d 111 || N.eqb d 79 then parse_radix 8 ds
               else if N.eqb d 98 || N.eqb d 66 then parse_radix 2 ds
               else parse_decimal false (c :: t)
           | _, _ => parse_decimal false (c :: t)
           end
  end.

(** ** [String(number)] *)

Definition digit_char (d : Z) : N := Z.to_N (48 + d).

Fixpoint digits_go (fuel : nat) (z : Z) (acc : str) : str :=
  match fuel with
  | O => acc
  | S fuel =>
      let acc := digit_char (z mod 10) :: acc in
      if z / 10 =? 0 then acc else digits_go fuel (z / 10) acc
  end.
(** The decimal digits of [z >= 0]; it has at most [log2 z + 1] of them. *)
Definition digits_of (z : Z) : str := digits_go (S (Z.to_nat (Z.log2 z))) z [].

Fixpoint leading_zeros (fuel : nat) (p q j : Z) : Z :=
  match fuel with
  | O => j
  | S fuel => if q <=? p then j else leading_zeros fuel (10 * p) q (j + 1)
  end.
(** The [n] with [10^(n-1) <= p/q < 10^n]; [p/q >= 2^-1074] needs at most 324
    multiplications by ten. *)
Definition decimal_exponent (p q : Z) : Z :=
  if q <=? p then Z.of_nat (length (digits_of (p / q)))
  else 1 - leading_zeros 400 p q 0.

(** The integers [s] next to [p / (q * 10^k)] for which [s * 10^k] rounds to
    the number; the closer one when both do. *)
Definition decimal_candidate (x : number) (p q k : Z) : option Z :=
  let a := p * 10 ^ pos (- k) in
  let b := q * 10 ^ pos k in
  let lo := a / b in
  let ok s := bool_decide (0 < s) && bool_decide (round_decimal false s k = x) in
  match ok lo, ok (lo + 1) with
  | true, true =>
      match 2 * (a mod b) ?= b with
      | Lt => Some lo
      | Gt => Some (lo + 1)
      | Eq => Some (if Z.even lo then lo else lo + 1)
      end
  | true, false => Some lo
  | false, true => Some (lo + 1)
  | false, false => None
  end.

(** As few digits as possible: the exponent goes down from the leading digit. *)
Fixpoint shortest (fuel : nat) (x : number) (p q k : Z) : option (Z * Z) :=
  match fuel with
  | O => None
  | S fuel =>
      match decimal_candidate x p q k with
      | Some s => Some (s, k)
      | None => shortest fuel x p q (k - 1)
      end
  end.

Fixpoint strip_zeros (fuel : nat) (s k : Z) : Z * Z :=
  match fuel with
  | O => (s, k)
  | S fuel => if s mod 10 =? 0 then strip_zeros fuel (s / 10) (k + 1) else (s, k)
  end.

(** The digits and the exponent of the last one. *)
Definition shortest_decimal (m e : Z) : Z * Z :=
  let p := m * 2 ^ pos e in
  let q := 2 ^ pos (- e) in
  let n := decimal_exponent p q in
  let fuel := S (Z.to_nat (n - 1 + pos (- e))) in
  match shortest fuel (Finite false m e) p q (n - 1) with
  | Some (s, k) => strip_zeros (S (Z.to_nat (Z.log2 s))) s k
  | None => (m, e)
  end.

Definition zeros (k : Z) : str := replicate (Z.to_nat k) 48%N.

Definition exponent_suffix (n : Z) : str :=
  101%N :: (if n <? 0 then minus_sign else plus_sign) :: digits_of (Z.abs n).

(** [toString] of a positive number with digits [ds], the point after [n] of
    them. *)
Definition place_point (ds : str) (n : Z) : str :=
  let k := Z.of_nat (length ds) in
  if (k <=? n) && (n <=? 21) then ds ++ zeros (n - k)
  else if (0 <? n) && (n <=? 21) then
    take (Z.to_nat n) ds ++ dot :: drop (Z.to_nat n) ds
  else if (-6 <? n) && (n <=? 0) then 48%N :: dot :: zeros (- n) ++ ds
  else match ds with
       | [d] => d :: exponent_suffix (n - 1)
       | d :: ds => d :: dot :: ds ++ exponent_suffix (n - 1)
       | [] => []
       end.

Definition number_to_string (x : number) : str :=
  match x with
  | NaN => [78;97;78]%N
  | Infinite s =>
      (if s then [minus_sign] else []) ++ [73;110;102;105;110;105;116;121]%N
  | Finite s m e =>
      if m =? 0 then [48%N]
      else
        let '(d, k) := shortest_decimal m e in
        let ds := digits_of d in
        (if s then [minus_sign] else [])
          ++ place_point ds (k + Z.of_nat (length ds))
  end.

(** [toExponential()]: mantissa text and exponent of a finite number. *)
Definition exponential_parts (x : number) : str * Z :=
  match x with
  | Finite s m e =>
      if m =? 0 then ([48%N], 0)
      else
        let '(d, k) := shortest_decimal m e in
        let ds := digits_of d in
        let mant := match ds with
                    | d :: [] => [d]
                    | d :: ds => d :: dot :: ds
                    | [] => [] end in
        ((if s then [minus_sign] else []) ++ mant, k + Z.of_nat (length ds) - 1)
  | _ => (number_to_string x, 0)
  end.

(** ** Scanning *)

(** What [scan_decimal] can return. *)
Definition all_digits (s : str) : Prop := Forall (fun c => is_digit c = true) s.

Definition exp_ok (x : option (N * option N * str)) : Prop :=
  match x with
  | None => True
  | Some (c, sign, ds) =>
      is_e c = true /\ all_digits ds /\ ds <> [] /\
      match sign with Some d => is_sign d = true | None => True end
  end.

Definition decimal_ok (d : decimal) : Prop :=
  all_digits (dec_int d) /\ exp_ok (dec_exp d) /\
  match dec_frac d with
  | None => dec_int d <> []
  | Some f => all_digits f /\ (dec_int d = [] -> f <> [])
  end.

Lemma scan_exponent_sound s x t :
  scan_exponent s = (x, t) -> s = exp_text x ++ t /\ exp_ok x.
Proof.
  unfold scan_exponent. destruct s as [|c s]; [by intros [= <- <-]|].
  destruct (is_e c) eqn:Ec.
  2: { intros [= <- <-]. done. }
  assert (forall sign r, s = (match sign with Some d => [d] | None => [] end) ++ r ->
    match sign with Some d => is_sign d = true | None => True end ->
    match take_while is_digit r with
    | [] => (None, c :: s)
    | ds => (Some (c, sign, ds), drop_while is_digit r)
    end = (x, t) -> c :: s = exp_text x ++ t /\ exp_ok x) as Hgen.
  { intros sign r Hs Hsign. pose proof (take_drop_while is_digit r) as Hr.
    pose proof (take_while_forall is_digit r) as Hall.
    destruct (take_while is_digit r) as [|d0 ds]; intros [= <- <-]; [done|].
    cbn [exp_text exp_ok]. split; [|done]. rewrite Hs.
    generalize dependent (drop_while is_digit r). intros r' <-. by destruct sign. }
  destruct s as [|d s].
  { by apply (Hgen None). }
  destruct (is_sign d) eqn:Es.
  - by apply (Hgen (Some d)).
  - by apply (Hgen None).
Qed.

Lemma scan_mantissa_sound s i f t :
  scan_mantissa s = Some (i, f, t) ->
  s = i ++ frac_text f ++ t /\ all_digits i /\
  match f with None => i <> [] | Some f => all_digits f /\ (i = [] -> f <> []) end.
Proof.
  unfold scan_mantissa. pose proof (take_drop_while is_digit s) as Hs.
  pose proof (take_while_forall is_digit s) as Hall.
  destruct (take_while is_digit s) as [|d ds], (drop_while is_digit s) as [|c r];
    subst s; try done.
  - destruct (N.eqb_spec c dot) as [->|]; [|done].
    pose proof (take_drop_while is_digit r) as Hr.
    pose proof (take_while_forall is_digit r) as Hallr.
    destruct (take_while is_digit r) as [|d' ds']; [done|]. intros [= <- <- <-].
    generalize dependent (drop_while is_digit r). intros r' <-.
    repeat split; try done.
  - by intros [= <- <- <-].
  - destruct (N.eqb_spec c dot) as [->|]; intros [= <- <- <-]; cbn [frac_text].
    + pose proof (take_drop_while is_digit r) as Hr.
      pose proof (take_while_forall is_digit r) as Hallr.
      generalize dependent (drop_while is_digit r).
      generalize dependent (take_while is_digit r). intros t' Ht' r' <-.
      repeat split; done.
    + done.
Qed.

Lemma scan_decimal_sound s d t :
  scan_decimal s = Some (d, t) -> s = decimal_text d ++ t /\ decimal_ok d.
Proof.
  unfold scan_decimal. destruct (scan_mantissa s) as [[[i f] r]|] eqn:Em; [|done].
  destruct (scan_exponent r) as [x r'] eqn:Ex. intros [= <- <-].
  apply scan_mantissa_sound in Em as (-> & Hi & Hf).
  apply scan_exponent_sound in Ex as (-> & Hx).
  unfold decimal_text, decimal_ok. cbn. by rewrite <- !app_assoc.
Qed.

Lemma decimal_text_nonempty d : decimal_ok d -> decimal_text d <> [].
Proof.
  unfold decimal_ok, decimal_text. intros (_ & _ & Hf).
  destruct d as [[|c i] [f|] x]; cbn in *; done.
Qed.

Lemma scan_decimal_progress s d t :
  scan_decimal s = Some (d, t) -> (0 < length (decimal_text d))%nat.
Proof.
  intros [_ H%decimal_text_nonempty]%scan_decimal_sound.
  destruct (decimal_text d); cbn; [done|lia].
Qed.

(** The characters that cannot follow a literal without extending it. *)
Definition no_extend (t : str) : Prop :=
  match t with
  | [] => True
  | c :: _ => is_digit c = false /\ c <> dot /\ is_e c = false
  end.

Lemma digits_stop ds t :
  all_digits ds -> match t with [] => True | c :: _ => is_digit c = false end ->
  take_while is_digit (ds ++ t) = ds /\ drop_while is_digit (ds ++ t) = t.
Proof.
  intros Hds Ht. destruct (take_while_app is_digit ds t Hds) as [-> ->].
  destruct t as [|c t]; cbn; [by rewrite app_nil_r|]. rewrite Ht. by rewrite app_nil_r.
Qed.

Lemma is_e_not_digit c : is_e c = true -> is_digit c = false /\ c <> dot.
Proof. unfold is_e. rewrite orb_true_iff, !N.eqb_eq. by intros [-> | ->]. Qed.

Lemma scan_exponent_complete x t :
  exp_ok x -> no_extend t -> scan_exponent (exp_text x ++ t) = (x, t).
Proof.
  intros Hx Ht. destruct x as [[[c sign] ds]|]; cbn [exp_text exp_ok app] in *.
  - destruct Hx as (He & Hds & Hne & Hsign).
    assert (match t with [] => True | c :: _ => is_digit c = false end) as Ht'.
    { destruct t; [done|]. by destruct Ht. }
    destruct (digits_stop ds t Hds Ht') as [Htk Hdr].
    cbn [scan_exponent]. rewrite He. destruct sign as [d|]; cbn [app].
    + rewrite Hsign, Htk, Hdr. by destruct ds.
    + destruct ds as [|d0 ds]; [done|].
      assert (is_sign d0 = false) as Hd0.
      { inversion_clear Hds as [|? ? Hdig _]. unfold is_sign.
        apply orb_false_iff. rewrite !N.eqb_neq. unfold is_digit in Hdig.
        by split; intros ->. }
      cbn [app] in *. rewrite Hd0, Htk, Hdr. done.
  - cbn. destruct t as [|c t]; [done|]. cbn. by destruct Ht as (_ & _ & ->).
Qed.

Lemma scan_decimal_complete d t :
  decimal_ok d -> no_extend t -> scan_decimal (decimal_text d ++ t) = Some (d, t).
Proof.
  intros (Hi & Hx & Hf) Ht. unfold scan_decimal, decimal_text.
  rewrite <- !app_assoc. set (r := exp_text (dec_exp d) ++ t).
  assert (match r with [] => True | c :: _ => is_digit c = false /\ c <> dot end) as Hr.
  { unfold r. destruct (dec_exp d) as [[[c sign] ds]|]; cbn in *.
    - destruct Hx as (He & _). by apply is_e_not_digit.
    - destruct t; [done|]. by destruct Ht as (? & ? & _). }
  assert (match r with [] => True | c :: _ => is_digit c = false end) as Hr'.
  { destruct r; [done|]. by destruct Hr. }
  assert (scan_mantissa (dec_int d ++ frac_text (dec_frac d) ++ r)
          = Some (dec_int d, dec_frac d, r)) as ->.
  { unfold scan_mantissa. destruct (dec_frac d) as [f|]; cbn [frac_text app].
    - destruct (digits_stop (dec_int d) (dot :: f ++ r) Hi eq_refl) as [-> ->].
      destruct Hf as [Hf Hne]. destruct (digits_stop f r Hf Hr') as [Hft Hfd].
      rewrite !N.eqb_refl, Hft, Hfd. destruct (dec_int d); [|done].
      destruct f; [by specialize (Hne eq_refl)|done].
    - destruct (digits_stop (dec_int d) r Hi Hr') as [-> ->].
      destruct (dec_int d) as [|c i]; [done|]. destruct r as [|c' r']; [done|].
      by destruct (N.eqb_spec c' dot); [destruct Hr|]. }
  unfold r. rewrite scan_exponent_complete by done. by destruct d.
Qed.

Lemma digits_value_app l k :
  digits_value (l ++ k) = digits_value l * 10 ^ Z.of_nat (length k) + digits_value k.
Proof.
  unfold digits_value. rewrite fold_left_app.
  generalize (fold_left (fun a c => 10 * a + digit_value c) l 0). intros z.
  enough (forall a, fold_left (fun a c => 10 * a + digit_value c) k a
    = a * 10 ^ Z.of_nat (length k)
      + fold_left (fun a c => 10 * a + digit_value c) k 0) by auto.
  clear z. induction k as [|c k IH]; intros a; cbn [fold_left length].
  - rewrite Z.pow_0_r. lia.
  - rewrite IH, (IH (10 * 0 + digit_value c)).
    rewrite Nat2Z.inj_succ, Z.pow_succ_r by lia. lia.
Qed.

Lemma digits_value_nonneg l : all_digits l -> 0 <= digits_value l.
Proof.
  intros H. induction l as [|c l IH] using rev_ind; [done|].
  apply Forall_app in H as [Hl Hc]. specialize (IH Hl). rewrite digits_value_app.
  inversion_clear Hc as [|? ? Hd _]. unfold is_digit, in_range in Hd.
  cbn. unfold digit_value. rewrite andb_true_iff, !N.leb_le in Hd. lia.
Qed.

Lemma pow10_pos k : 0 < 10 ^ pos k.
Proof. apply Z.pow_pos_nonneg; unfold pos; lia. Qed.

Lemma decimal_number_valid neg d : decimal_ok d -> valid (decimal_number neg d) = true.
Proof.
  intros (Hi & _ & Hf). apply round_valid; [|apply pow10_pos].
  apply Z.mul_nonneg_nonneg; [|pose proof (pow10_pos (exp_value (dec_exp d)
    - Z.of_nat (length (default [] (dec_frac d))))); lia].
  apply digits_value_nonneg. apply Forall_app. split; [done|].
  destruct (dec_frac d); cbn; [by destruct Hf|constructor].
Qed.

(** ** Printing *)

Lemma digit_char_digit d : 0 <= d < 10 -> is_digit (digit_char d) = true.
Proof.
  intros. unfold is_digit, in_range, digit_char. rewrite andb_true_iff, !N.leb_le. lia.
Qed.

Lemma digit_char_value d : 0 <= d < 10 -> digit_value (digit_char d) = d.
Proof. intros. unfold digit_value, digit_char. rewrite Z2N.id; lia. Qed.

Lemma digits_go_spec fuel z acc :
  0 <= z < 2 ^ Z.of_nat fuel -> all_digits acc ->
  all_digits (digits_go fuel z acc) /\
  digits_value (digits_go fuel z acc) = z * 10 ^ Z.of_nat (length acc) + digits_value acc.
Proof.
  revert z acc. induction fuel as [|fuel IH]; intros z acc Hz Hacc.
  { change (2 ^ Z.of_nat 0) with 1 in Hz. assert (z = 0) as -> by lia. by split. }
  rewrite Nat2Z.inj_succ, Z.pow_succ_r in Hz by lia. cbn [digits_go].
  pose proof (Z.mod_pos_bound z 10 ltac:(lia)) as Hm.
  assert (all_digits (digit_char (z mod 10) :: acc)) as Hacc'.
  { constructor; [by apply digit_char_digit|done]. }
  assert (digits_value (digit_char (z mod 10) :: acc)
          = z mod 10 * 10 ^ Z.of_nat (length acc) + digits_value acc) as Hv.
  { change (?c :: acc) with ([c] ++ acc). rewrite digits_value_app.
    f_equal. f_equal. cbn. by rewrite digit_char_value. }
  pose proof (Z.div_mod z 10 ltac:(lia)) as Hdm.
  destruct (Z.eqb_spec (z / 10) 0) as [H0|H0].
  - split; [done|]. rewrite Hv. replace (z mod 10) with z by lia. done.
  - destruct (IH (z / 10) (digit_char (z mod 10) :: acc)) as [Ha Hd]; [|done|].
    { split; [apply Z.div_pos; lia|]. apply Z.div_lt_upper_bound; lia. }
    split; [done|]. rewrite Hd, Hv. cbn [length].
    rewrite Nat2Z.inj_succ, Z.pow_succ_r by lia.
    rewrite Hdm at 3. lia.
Qed.

Lemma digits_of_spec z :
  0 <= z -> all_digits (digits_of z) /\ digits_value (digits_of z) = z.
Proof.
  intros Hz. unfold digits_of.
  destruct (digits_go_spec (S (Z.to_nat (Z.log2 z))) z []) as [Ha Hv]; [|constructor|].
  - split; [done|]. rewrite Nat2Z.inj_succ, Z2Nat.id by apply Z.log2_nonneg.
    destruct (Z.eq_dec z 0) as [->|]; [reflexivity|]. apply Z.log2_spec. lia.
  - split; [exact Ha|]. rewrite Hv. change (digits_value []) with 0. cbn [length].
    rewrite Z.pow_0_r. lia.
Qed.

Lemma digits_of_nonempty z : digits_of z <> [].
Proof.
  unfold digits_of. cbn [digits_go].
  assert (forall fuel z acc, acc <> [] -> digits_go fuel z acc <> []) as H.
  { induction fuel as [|fuel IH]; intros z' acc Hacc; cbn; [done|].
    destruct (_ =? 0); [done|]. by apply IH. }
  destruct (_ =? 0); [done|]. by apply H.
Qed.

Lemma decimal_candidate_sound x p q k s :
  decimal_candidate x p q k = Some s -> 0 < s /\ round_decimal false s k = x.
Proof.
  unfold decimal_candidate. set (lo := _ / _).
  destruct (bool_decide (0 < lo) && _) eqn:E1,
    (bool_decide (0 < lo + 1) && _) eqn:E2; intros H; bool_to_prop; try done;
    destruct_matches.
Qed.

Lemma shortest_sound fuel x p q k s j :
  shortest fuel x p q k = Some (s, j) -> 0 < s /\ round_decimal false s j = x.
Proof.
  revert k. induction fuel as [|fuel IH]; intros k; cbn; [done|].
  destruct (decimal_candidate x p q k) eqn:E; [|by apply IH].
  intros [= <- <-]. by eapply decimal_candidate_sound.
Qed.

Lemma round_decimal_shift neg s k : 0 <= s ->
  round_decimal neg (s * 10) k = round_decimal neg s (k + 1).
Proof.
  intros. unfold round_decimal. apply round_ratio; try apply pow10_pos.
  - pose proof (pow10_pos k). nia.
  - destruct (Z.le_gt_cases 0 k).
    + rewrite (pos_nonneg k), (pos_nonneg (k + 1)), (pos_nonpos (- k)),
        (pos_nonpos (- (k + 1))) by lia.
      rewrite Z.add_1_r, Z.pow_succ_r by lia. ring.
    + rewrite (pos_nonpos k), (pos_nonpos (k + 1)), (pos_nonneg (- k)),
        (pos_nonneg (- (k + 1))) by lia.
      replace (10 ^ (- k)) with (10 * 10 ^ (- (k + 1))); [ring|].
      rewrite <- Z.pow_succ_r by lia. f_equal. lia.
Qed.

Lemma round_decimal_pad neg s k j : 0 <= s -> 0 <= j ->
  round_decimal neg (s * 10 ^ j) k = round_decimal neg s (k + j).
Proof.
  intros Hs Hj. revert k. pattern j. apply natlike_ind; [..|done].
  - intros k. rewrite Z.pow_0_r, Z.mul_1_r. f_equal. lia.
  - intros i Hi IH k. rewrite Z.pow_succ_r by lia.
    rewrite Z.mul_assoc, (Z.mul_comm (s * 10)), Z.mul_assoc.
    rewrite round_decimal_shift by (assert (0 <= 10 ^ i) by (apply Z.pow_nonneg; lia); nia).
    rewrite Z.mul_comm, IH. f_equal. lia.
Qed.

Lemma strip_zeros_sound fuel s k s' k' :
  0 < s -> strip_zeros fuel s k = (s', k') ->
  0 < s' /\ round_decimal false s' k' = round_decimal false s k.
Proof.
  revert s k. induction fuel as [|fuel IH]; intros s k Hs; cbn.
  { by intros [= <- <-]. }
  destruct (Z.eqb_spec (s mod 10) 0) as [Hm|]; [|by intros [= <- <-]].
  pose proof (Z.div_mod s 10 ltac:(lia)).
  intros Hs'. destruct (IH (s / 10) (k + 1) ltac:(lia) Hs') as [? ->]. split; [done|].
  rewrite <- round_decimal_shift by lia. f_equal. lia.
Qed.

(** The exponent [-j], at which a dyadic fraction with [j] binary places is an
    integer, always has a candidate, and so has every exponent below it. *)
Lemma decimal_candidate_exact m e k :
  0 < m -> valid (Finite false m e) = true -> k <= - pos (- e) ->
  decimal_candidate (Finite false m e) (m * 2 ^ pos e) (2 ^ pos (- e)) k <> None.
Proof.
  intros Hm Hv Hk. unfold decimal_candidate.
  set (p := m * 2 ^ pos e). set (q := 2 ^ pos (- e)).
  assert (0 < q) as Hq by (apply pow2_pos; unfold pos; lia).
  assert (0 < p) as Hp by (apply Z.mul_pos_pos; [done|apply pow2_pos; unfold pos; lia]).
  set (j := pos (- e)) in *. assert (0 <= j) by (unfold j, pos; lia).
  assert (pos k = 0) as -> by (unfold pos; lia).
  assert (pos (- k) = - k) as -> by (unfold pos; lia). rewrite Z.pow_0_r, Z.mul_1_r.
  set (s := p * 5 ^ j * 10 ^ (- k - j)).
  assert (p * 10 ^ (- k) = s * q) as Hs.
  { unfold s, q. replace (- k) with (j + (- k - j)) at 1 by lia.
    rewrite Z.pow_add_r by lia. change 10 with (2 * 5) at 1.
    rewrite Z.pow_mul_l. ring. }
  rewrite Hs, Z.div_mul by lia.
  assert (0 < s) as Hs0.
  { unfold s. pose proof (Z.pow_pos_nonneg 5 j). pose proof (Z.pow_pos_nonneg 10 (- k - j)).
    apply Z.mul_pos_pos; [apply Z.mul_pos_pos|]; lia. }
  assert (round_decimal false s k = Finite false m e) as Hr.
  { unfold round_decimal. assert (pos k = 0) as -> by (unfold pos; lia).
    assert (pos (- k) = - k) as -> by (unfold pos; lia).
    assert (0 < 10 ^ (- k)) by (apply Z.pow_pos_nonneg; lia).
    rewrite Z.pow_0_r, Z.mul_1_r, (round_ratio false s (10 ^ (- k)) p q) by lia.
    apply round_exact; [done..|]. unfold p, q, j. ring. }
  rewrite (bool_decide_true (0 < s)), (bool_decide_true (round_decimal false s k = _)) by done.
  cbn. by destruct_matches.
Qed.

Lemma shortest_complete fuel m e k :
  0 < m -> valid (Finite false m e) = true ->
  k <= - pos (- e) + Z.of_nat fuel - 1 -> (0 < fuel)%nat ->
  shortest fuel (Finite false m e) (m * 2 ^ pos e) (2 ^ pos (- e)) k <> None.
Proof.
  intros Hm Hv. revert k. induction fuel as [|fuel IH]; intros k Hk Hf; [lia|].
  cbn [shortest]. destruct (decimal_candidate _ _ _ k) eqn:E; [done|].
  destruct (Z.le_gt_cases k (- pos (- e))) as [Hle|Hgt].
  { by apply decimal_candidate_exact in E. }
  apply IH; lia.
Qed.

Lemma shortest_decimal_spec m e s k :
  0 < m -> valid (Finite false m e) = true -> shortest_decimal m e = (s, k) ->
  0 < s /\ round_decimal false s k = Finite false m e.
Proof.
  intros Hm Hv. unfold shortest_decimal. set (n := decimal_exponent _ _).
  set (fuel := S _).
  pose proof (shortest_complete fuel m e (n - 1) Hm Hv ltac:(lia) ltac:(lia)) as Hc.
  destruct (shortest fuel _ _ _ (n - 1)) as [[s0 k0]|] eqn:E; [|done].
  apply shortest_sound in E as [Hs0 <-]. by apply strip_zeros_sound.
Qed.

Lemma zeros_digits k : all_digits (zeros k).
Proof. apply Forall_replicate. done. Qed.

Lemma digits_value_zeros k : digits_value (zeros k) = 0.
Proof.
  unfold zeros. generalize (Z.to_nat k) as n. induction n as [|n IH]; [done|].
  cbn [replicate]. change (?c :: ?l) with ([c] ++ l).
  rewrite digits_value_app, IH. done.
Qed.

Lemma zeros_length k : 0 <= k -> Z.of_nat (length (zeros k)) = k.
Proof. intros. unfold zeros. rewrite length_replicate. lia. Qed.

Lemma exponent_suffix_ok n :
  exists x, exponent_suffix n = exp_text x /\ exp_ok x /\ exp_value x = n.
Proof.
  destruct (digits_of_spec (Z.abs n)) as [Hd Hv]; [lia|].
  pose proof (digits_of_nonempty (Z.abs n)).
  exists (Some (101%N, Some (if n <? 0 then minus_sign else plus_sign), digits_of (Z.abs n))).
  unfold exponent_suffix. cbn [exp_text exp_ok exp_value]. rewrite Hv.
  destruct (Z.ltb_spec n 0); repeat split; try done.
  - rewrite bool_decide_true by done. lia.
  - rewrite bool_decide_false by done. lia.
Qed.

(** However the point is placed, the text denotes the same number. *)
Lemma place_point_spec ds n :
  all_digits ds -> ds <> [] ->
  exists d, place_point ds n = decimal_text d /\ decimal_ok d /\
    decimal_number false d =
      round_decimal false (digits_value ds) (n - Z.of_nat (length ds)).
Proof.
  intros Hds Hne. pose proof (digits_value_nonneg ds Hds) as Hv. unfold place_point.
  destruct ((Z.of_nat (length ds) <=? n) && (n <=? 21)) eqn:E1; [|
    destruct ((0 <? n) && (n <=? 21)) eqn:E2; [|
      destruct ((-6 <? n) && (n <=? 0)) eqn:E3]]; bool_to_prop.
  - exists (Decimal (ds ++ zeros (n - Z.of_nat (length ds))) None None).
    unfold decimal_text, decimal_ok, decimal_number;
      cbn [dec_int dec_frac dec_exp default id frac_text exp_text exp_ok exp_value app length]. rewrite !app_nil_r.
    split; [done|]. split.
    { split; [|by destruct ds]. apply Forall_app. split; [done|apply zeros_digits]. }
    rewrite digits_value_app, digits_value_zeros, zeros_length, Z.add_0_r by lia.
    rewrite round_decimal_pad by lia. f_equal.
  - assert (all_digits (take (Z.to_nat n) ds) /\ all_digits (drop (Z.to_nat n) ds)) as [].
    { apply Forall_app. by rewrite take_drop. }
    exists (Decimal (take (Z.to_nat n) ds) (Some (drop (Z.to_nat n) ds)) None).
    unfold decimal_text, decimal_ok, decimal_number;
      cbn [dec_int dec_frac dec_exp default id frac_text exp_text exp_ok exp_value app length]. rewrite app_nil_r, take_drop.
    split; [done|]. split.
    { split; [done|]. split; [done|]. split; [done|]. intros Hnil.
      destruct ds; [done|]. destruct (Z.to_nat n) eqn:En; [lia|done]. }
    f_equal. rewrite length_drop. apply andb_false_iff in E1. lia.
  - exists (Decimal [48%N] (Some (zeros (- n) ++ ds)) None).
    unfold decimal_text, decimal_ok, decimal_number;
      cbn [dec_int dec_frac dec_exp default id frac_text exp_text exp_ok exp_value app length]. rewrite app_nil_r.
    split; [done|]. split.
    { split; [by constructor|]. split; [done|]. split; [|done].
      apply Forall_app. split; [apply zeros_digits|done]. }
    f_equal.
    + change (48%N :: ?l) with ([48%N] ++ l).
      rewrite digits_value_app, digits_value_app, digits_value_zeros. done.
    + rewrite length_app, Nat2Z.inj_add, zeros_length; lia.
  - destruct (exponent_suffix_ok (n - 1)) as (x & -> & Hx & Hxv).
    destruct ds as [|d ds]; [done|].
    apply list.Forall_cons in Hds as [Hd Hds].
    destruct ds as [|d' ds].
    + exists (Decimal [d] None x). unfold decimal_text, decimal_ok, decimal_number;
      cbn [dec_int dec_frac dec_exp default id frac_text exp_text exp_ok exp_value app length].
      split; [done|]. split; [split; [by constructor|done]|]. rewrite Hxv. f_equal. lia.
    + exists (Decimal [d] (Some (d' :: ds)) x).
      unfold decimal_text, decimal_ok, decimal_number. cbn [dec_int dec_frac dec_exp default id frac_text exp_text app].
      split; [done|]. split; [split; [by constructor|done]|]. rewrite Hxv.
      f_equal. cbn [length]. lia.
Qed.

(** [String(x)] of a non-negative finite number is a decimal literal that
    denotes [x]. *)
Lemma number_to_string_spec m e :
  valid (Finite false m e) = true ->
  exists d, number_to_string (Finite false m e) = decimal_text d /\ decimal_ok d /\
    decimal_number false d = Finite false m e.
Proof.
  intros Hv. pose proof (valid_nonneg _ _ _ Hv) as Hm. unfold number_to_string.
  destruct (Z.eqb_spec m 0) as [->|Hm0].
  { exists (Decimal [48%N] None None). split; [done|]. split; [by repeat constructor|].
    unfold valid in Hv. cbn in Hv. bool_to_prop.
    change (2 ^ 52 <=? 0) with false in *. cbn in *.
    assert (e = -1074) as -> by lia. reflexivity. }
  destruct (shortest_decimal m e) as [s k] eqn:E.
  apply shortest_decimal_spec in E as [Hs <-]; [|lia|done].
  destruct (digits_of_spec s) as [Hd Hdv]; [lia|].
  destruct (place_point_spec (digits_of s) (k + Z.of_nat (length (digits_of s))))
    as (d & Ht & Hok & Hn); [done|apply digits_of_nonempty|].
  exists d. rewrite Ht, Hn, Hdv. split; [done|]. split; [done|]. f_equal. lia.
Qed.

Lemma decimal_text_head d c t : decimal_ok d -> decimal_text d = c :: t ->
  is_digit c = true \/ c = dot.
Proof.
  intros (Hi & _ & Hf). unfold decimal_text.
  destruct d as [[|c' i] [f|] x]; cbn in *; try done; intros H; injection H as <- _.
  - by right.
  - left. by apply list.Forall_cons in Hi as [].
  - left. by apply list.Forall_cons in Hi as [].
Qed.

Definition literal_char (c : N) : bool :=
  is_digit c || N.eqb c dot || is_e c || is_sign c.

Lemma decimal_text_chars d : decimal_ok d ->
  Forall (fun c => literal_char c = true) (decimal_text d).
Proof.
  assert (forall l, all_digits l -> Forall (fun c => literal_char c = true) l) as Hd.
  { intros l H. eapply list.Forall_impl; [exact H|]. intros c Hc. unfold literal_char.
    cbn in Hc. by rewrite Hc. }
  intros (Hi & Hx & Hf). unfold decimal_text. apply Forall_app. split; [auto|].
  apply Forall_app. split.
  - destruct (dec_frac d); cbn; [|constructor]. constructor; [done|].
    apply Hd. by destruct Hf.
  - destruct (dec_exp d) as [[[c sign] ds]|]; cbn in *; [|constructor].
    destruct Hx as (He & Hds & _ & Hs). constructor.
    + unfold literal_char. rewrite He. by rewrite !orb_true_r.
    + apply Forall_app. split; [|auto]. destruct sign; [|constructor].
      constructor; [|constructor]. unfold literal_char. rewrite Hs. by rewrite !orb_true_r.
Qed.

Lemma literal_char_not_space c : literal_char c = true -> is_space c = false.
Proof.
  unfold literal_char, is_digit, in_range, is_e, is_sign, is_space, in_range, dot,
    plus_sign, minus_sign.
  rewrite !orb_true_iff, !andb_true_iff, !N.eqb_eq, !N.leb_le. intros H.
  repeat (apply orb_false_iff; split); try apply andb_false_iff; rewrite ?N.eqb_neq, ?N.leb_gt; lia.
Qed.

Lemma trim_nonspace s : Forall (fun c => is_space c = false) s -> trim s = s.
Proof.
  intros H. unfold trim, trim_end, trim_start.
  assert (forall l, Forall (fun c => is_space c = false) l -> drop_while is_space l = l) as Hd.
  { intros l Hl. destruct Hl as [|c l Hc _]; cbn; [done|]. by rewrite Hc. }
  rewrite (Hd s H), (Hd (rev s) (List.Forall_rev H)). apply rev_involutive.
Qed.

(** [Number(text)] of a decimal literal. *)
Lemma to_number_decimal d :
  decimal_ok d -> to_number (decimal_text d) = decimal_number false d.
Proof.
  intros Hok. unfold to_number. pose proof (decimal_text_chars d Hok) as Hch.
  rewrite trim_nonspace.
  2: { eapply list.Forall_impl; [exact Hch|]. apply literal_char_not_space. }
  assert (parse_decimal false (decimal_text d) = decimal_number false d) as Hp.
  { unfold parse_decimal.
    rewrite <- (app_nil_r (decimal_text d)), scan_decimal_complete, app_nil_r by done.
    destruct (str_eqb _ _) eqn:E; [|done]. apply str_eqb_eq in E. rewrite E in Hch.
    inversion Hch. done. }
  pose proof (decimal_text_nonempty d Hok).
  destruct (decimal_text d) as [|c t] eqn:Et; [done|].
  destruct (decimal_text_head d c t Hok Et) as [Hc | ->].
  2: exact Hp.
  assert (N.eqb c minus_sign = false /\ N.eqb c plus_sign = false) as [-> ->].
  { rewrite !N.eqb_neq. unfold is_digit, in_range in Hc.
    rewrite andb_true_iff, !N.leb_le in Hc. unfold minus_sign, plus_sign. lia. }
  destruct t as [|c' t]; [rewrite Hp; by destruct_matches|].
  assert (literal_char c' = true) as Hc'.
  { by apply list.Forall_cons in Hch as [_ [? _]%list.Forall_cons]. }
  assert (forall n, literal_char n = false -> N.eqb c' n = false) as Hne.
  { intros n Hn. apply N.eqb_neq. congruence. }
  rewrite !Hne by done. cbn. rewrite Hp. by destruct_matches.
Qed.

(** Printing a non-negative finite number and reading it back. *)
Lemma to_number_to_string m e :
  valid (Finite false m e) = true ->
  to_number (number_to_string (Finite false m e)) = Finite false m e.
Proof.
  intros (d & -> & Hok & <-)%number_to_string_spec. by apply to_number_decimal.
Qed.

Lemma parse_decimal_valid neg s : valid (parse_decimal neg s) = true.
Proof.
  unfold parse_decimal. case_match; [done|].
  destruct (scan_decimal s) as [[d [|]]|] eqn:E; try done.
  apply scan_decimal_sound in E as [_ Hd]. by apply decimal_number_valid.
Qed.

Lemma parse_radix_valid r s : valid (parse_radix r s) = true.
Proof. unfold parse_radix. repeat case_match; try done. apply of_Z_valid. Qed.

Lemma to_number_valid text : valid (to_number text) = true.
Proof.
  unfold to_number. destruct (trim text) as [|c t]; [done|].
  repeat case_match; auto using parse_decimal_valid, parse_radix_valid.
Qed.
