(* ===== verification/Ast.v ===== *)
(** * Expression trees, diagnostics and traversal

    [features/pricing/lib/billing-expression/types.ts].  The string-typed
    operator and function-name fields of the source's nodes are the inductive
    types of the strings the parser can put there. *)

From Stdlib Require Import String.
From S2P Require Import Prelude JsNumber JsString.

(** ** Variables, functions and operators *)

Inductive BillingVariable : Type :=
| Var_p | Var_c | Var_len | Var_cr | Var_cc | Var_cc1h | Var_img | Var_img_cr
| Var_img_o | Var_ai | Var_ao | Var_image_count.

Definition TOKEN_VARIABLES : list BillingVariable :=
  [Var_p; Var_c; Var_len; Var_cr; Var_cc; Var_cc1h; Var_img; Var_img_cr;
   Var_img_o; Var_ai; Var_ao].
Definition BILLING_VARIABLES : list BillingVariable :=
  TOKEN_VARIABLES ++ [Var_image_count].

Definition variable_text (v : BillingVariable) : str :=
  match v with
  | Var_p => u "p" | Var_c => u "c" | Var_len => u "len" | Var_cr => u "cr"
  | Var_cc => u "cc" | Var_cc1h => u "cc1h" | Var_img => u "img"
  | Var_img_cr => u "img_cr" | Var_img_o => u "img_o" | Var_ai => u "ai"
  | Var_ao => u "ao" | Var_image_count => u "image_count"
  end.

Inductive TimeFunction : Type := Time_hour | Time_minute | Time_weekday | Time_month | Time_day.

Definition TIME_FUNCTIONS : list TimeFunction :=
  [Time_hour; Time_minute; Time_weekday; Time_month; Time_day].

Definition time_text (t : TimeFunction) : str :=
  match t with
  | Time_hour => u "hour" | Time_minute => u "minute" | Time_weekday => u "weekday"
  | Time_month => u "month" | Time_day => u "day"
  end.

(** The keys of [BILLING_FUNCTIONS]; the time functions share a constructor. *)
Inductive BillingFunction : Type :=
| Fn_tier | Fn_fixed | Fn_param | Fn_header | Fn_has | Fn_u
| Fn_time (t : TimeFunction)
| Fn_min | Fn_max | Fn_abs | Fn_ceil | Fn_floor.

Definition BILLING_FUNCTIONS : list (BillingFunction * nat) :=
  [(Fn_tier, 2); (Fn_fixed, 1); (Fn_param, 1); (Fn_header, 1); (Fn_has, 2); (Fn_u, 1);
   (Fn_time Time_hour, 1); (Fn_time Time_minute, 1); (Fn_time Time_weekday, 1);
   (Fn_time Time_month, 1); (Fn_time Time_day, 1);
   (Fn_min, 2); (Fn_max, 2); (Fn_abs, 1); (Fn_ceil, 1); (Fn_floor, 1)].

Definition function_text (f : BillingFunction) : str :=
  match f with
  | Fn_tier => u "tier" | Fn_fixed => u "fixed" | Fn_param => u "param"
  | Fn_header => u "header" | Fn_has => u "has" | Fn_u => u "u"
  | Fn_time t => time_text t
  | Fn_min => u "min" | Fn_max => u "max" | Fn_abs => u "abs"
  | Fn_ceil => u "ceil" | Fn_floor => u "floor"
  end.

Inductive BinaryOperator : Type :=
| Op_or | Op_and | Op_eq | Op_ne | Op_lt | Op_le | Op_gt | Op_ge
| Op_add | Op_sub | Op_mul | Op_div | Op_mod.

Definition operator_text (o : BinaryOperator) : str :=
  match o with
  | Op_or => u "||" | Op_and => u "&&" | Op_eq => u "==" | Op_ne => u "!="
  | Op_lt => u "<" | Op_le => u "<=" | Op_gt => u ">" | Op_ge => u ">="
  | Op_add => u "+" | Op_sub => u "-" | Op_mul => u "*" | Op_div => u "/"
  | Op_mod => u "%"
  end.

Inductive UnaryOperator : Type := Un_not | Un_plus | Un_minus.

Definition unary_text (o : UnaryOperator) : str :=
  match o with Un_not => u "!" | Un_plus => u "+" | Un_minus => u "-" end.

#[export] Instance variable_eq_dec : EqDecision BillingVariable.
Proof. solve_decision. Defined.
#[export] Instance time_eq_dec : EqDecision TimeFunction.
Proof. solve_decision. Defined.
#[export] Instance function_eq_dec : EqDecision BillingFunction.
Proof. solve_decision. Defined.
#[export] Instance binary_eq_dec : EqDecision BinaryOperator.
Proof. solve_decision. Defined.
#[export] Instance unary_eq_dec : EqDecision UnaryOperator.
Proof. solve_decision. Defined.

(** ** Nodes *)

Inductive LiteralValue : Type :=
| LString (s : str) | LNumber (x : number) | LBoolean (b : bool) | LNull.

#[export] Instance literal_eq_dec : EqDecision LiteralValue.
Proof. solve_decision. Defined.

(** Every node carries its span [start, stop) in the source text.  [integer]
    is set by number tokens without point and exponent. *)
Inductive ExpressionNode : Type :=
| Literal (value : LiteralValue) (integer : bool) (start stop : nat)
| Variable_ (name : BillingVariable) (start stop : nat)
| Call (name : BillingFunction) (args : list ExpressionNode) (start stop : nat)
| Unary (operator : UnaryOperator) (operand : ExpressionNode) (start stop : nat)
| Binary (operator : BinaryOperator) (left right : ExpressionNode) (start stop : nat)
| Conditional (condition yes no : ExpressionNode) (start stop : nat).

Definition node_start (n : ExpressionNode) : nat :=
  match n with
  | Literal _ _ s _ | Variable_ _ s _ | Call _ _ s _ | Unary _ _ s _
  | Binary _ _ _ s _ | Conditional _ _ _ s _ => s
  end.
Definition node_end (n : ExpressionNode) : nat :=
  match n with
  | Literal _ _ _ e | Variable_ _ _ e | Call _ _ _ e | Unary _ _ _ e
  | Binary _ _ _ _ e | Conditional _ _ _ _ e => e
  end.
(** [{ ...node, start, end }] *)
Definition with_span (n : ExpressionNode) (s e : nat) : ExpressionNode :=
  match n with
  | Literal v i _ _ => Literal v i s e
  | Variable_ v _ _ => Variable_ v s e
  | Call f args _ _ => Call f args s e
  | Unary o a _ _ => Unary o a s e
  | Binary o a b _ _ => Binary o a b s e
  | Conditional c y n _ _ => Conditional c y n s e
  end.

Definition children (n : ExpressionNode) : list ExpressionNode :=
  match n with
  | Literal _ _ _ _ | Variable_ _ _ _ => []
  | Call _ args _ _ => args
  | Unary _ a _ _ => [a]
  | Binary _ a b _ _ => [a; b]
  | Conditional c y n _ _ => [c; y; n]
  end.

(** Object identity of nodes.  Two nodes of one tree are the same object
    exactly when they have the same span: the parser gives every node a span
    of its own (lemma [spans_distinct] of the parser). *)
Definition node_key (n : ExpressionNode) : nat * nat := (node_start n, node_end n).
Definition same_node (a b : ExpressionNode) : bool := bool_decide (node_key a = node_key b).

Section node_induction.
Variable P : ExpressionNode -> Prop.
Hypothesis HP : forall n, Forall P (children n) -> P n.

(** Induction on a node from all of its children. *)
Fixpoint node_children_ind (n : ExpressionNode) : P n :=
  HP n
    (match n return Forall P (children n) with
     | Literal _ _ _ _ | Variable_ _ _ _ => Forall_nil _
     | Call _ args _ _ =>
         (fix go (l : list ExpressionNode) : Forall P l :=
            match l with
            | [] => Forall_nil _
            | a :: l => Forall_cons _ a l (node_children_ind a) (go l)
            end) args
     | Unary _ a _ _ => Forall_cons _ _ _ (node_children_ind a) (Forall_nil _)
     | Binary _ a b _ _ =>
         Forall_cons _ _ _ (node_children_ind a)
           (Forall_cons _ _ _ (node_children_ind b) (Forall_nil _))
     | Conditional c y m _ _ =>
         Forall_cons _ _ _ (node_children_ind c)
           (Forall_cons _ _ _ (node_children_ind y)
             (Forall_cons _ _ _ (node_children_ind m) (Forall_nil _)))
     end).
End node_induction.

(** ** Diagnostics *)

Inductive DiagnosticCode : Type :=
| D_syntax | D_unsupported | D_missing_context | D_type | D_number | D_limit.

#[export] Instance code_eq_dec : EqDecision DiagnosticCode.
Proof. solve_decision. Defined.

Record ExpressionDiagnostic : Type := Diagnostic {
  code : DiagnosticCode;
  detail : str;
  position : option nat;
}.

(** What the engine can throw: its own error class, an error of the
    language, and (only in the model) the end of a loop's fuel. *)
Inductive exn : Type :=
| BillingExpressionError (d : ExpressionDiagnostic)
| JsError (message : str)
| OutOfFuel.

Abbreviation outcome := (result exn).

Definition billing_error (c : DiagnosticCode) (d : str) : exn :=
  BillingExpressionError (Diagnostic c d None).
Definition billing_error_at (c : DiagnosticCode) (d : str) (p : nat) : exn :=
  BillingExpressionError (Diagnostic c d (Some p)).

(** The errors of the engine's own class. *)
Definition billing_exn (e : exn) : Prop := exists d, e = BillingExpressionError d.

Lemma billing_error_good c d : billing_exn (billing_error c d).
Proof. by eexists. Qed.
Lemma billing_error_at_good c d p : billing_exn (billing_error_at c d p).
Proof. by eexists. Qed.
#[export] Hint Resolve billing_error_good billing_error_at_good : billing.

(** Reading a property of [undefined]. *)
Definition undefined_property : exn := JsError (u "Cannot read properties of undefined").

Inductive FailureStatus : Type := S_unsupported | S_invalid | S_missing_context.
Record ExpressionFailure : Type := Failure {
  failure_status : FailureStatus;
  failure_diagnostic : ExpressionDiagnostic;
}.

Definition expressionFailure (error : exn) : ExpressionFailure :=
  let diagnostic :=
    match error with
    | BillingExpressionError d => d
    | JsError message => Diagnostic D_syntax message None
    | OutOfFuel => Diagnostic D_syntax (u "out of fuel") None
    end in
  let status := S_invalid in
  let status :=
    if bool_decide (code diagnostic = D_missing_context)
    then S_missing_context else status in
  let status :=
    if bool_decide (code diagnostic = D_unsupported)
       || bool_decide (code diagnostic = D_limit)
    then S_unsupported else status in
  Failure status diagnostic.

(** ** Traversal *)

Fixpoint node_size (n : ExpressionNode) : nat :=
  match n with
  | Literal _ _ _ _ | Variable_ _ _ _ => 1
  | Call _ args _ _ => S (list_sum (node_size <$> args))
  | Unary _ a _ _ => S (node_size a)
  | Binary _ a b _ _ => S (node_size a + node_size b)
  | Conditional c y m _ _ => S (node_size c + node_size y + node_size m)
  end.

Definition depth_error : exn := billing_error D_limit (u "expression depth").

Lemma depth_error_good : billing_exn depth_error.
Proof. by eexists. Qed.
#[export] Hint Resolve depth_error_good : billing.

Section visit.
Context {A : Type} (visitor : A -> ExpressionNode -> outcome A).

(** One iteration pops an entry: node, visited, depth. *)
Fixpoint visit_loop (fuel : nat) (stack : list (ExpressionNode * bool * Z)) (st : A)
  : outcome A :=
  match fuel with
  | O => Throw OutOfFuel
  | S fuel =>
      match stack with
      | [] => Ok st
      | (node, visited, depth) :: rest =>
          if (256 <? depth)%Z then Throw depth_error
          else if (visited : bool) then
            st ← visitor st node; visit_loop fuel rest st
          else
            visit_loop fuel
              (map (fun child => (child, false, (depth + 1)%Z)) (children node)
                 ++ (node, true, depth) :: rest) st
      end
  end.

(** Each node is popped twice, and the empty stack once. *)
Definition visitExpression (node : ExpressionNode) (st : A) : outcome A :=
  visit_loop (S (2 * node_size node)) [(node, false, 0%Z)] st.

(** The recursive postorder traversal the loop stands for. *)
Fixpoint visit_rec (depth : Z) (node : ExpressionNode) (st : A) : outcome A :=
  if (256 <? depth)%Z then Throw depth_error
  else
    st ← match node with
         | Literal _ _ _ _ | Variable_ _ _ _ => Ok st
         | Call _ args _ _ =>
             (fix go (l : list ExpressionNode) (st : A) : outcome A :=
                match l with
                | [] => Ok st
                | a :: l => st ← visit_rec (depth + 1) a st; go l st
                end) args st
         | Unary _ a _ _ => visit_rec (depth + 1) a st
         | Binary _ a b _ _ =>
             st ← visit_rec (depth + 1) a st; visit_rec (depth + 1) b st
         | Conditional c y m _ _ =>
             st ← visit_rec (depth + 1) c st;
             st ← visit_rec (depth + 1) y st;
             visit_rec (depth + 1) m st
         end;
    visitor st node.
End visit.

(** [new Set()], [set.add(x)] *)
Definition set_add {A} `{EqDecision A} (x : A) (l : list A) : list A :=
  if bool_decide (x ∈ l) then l else l ++ [x].

Record Dependencies : Type := { variables : list BillingVariable; functions : list BillingFunction }.

Definition add_dependency (d : Dependencies) (part : ExpressionNode) : outcome Dependencies :=
  match part with
  | Variable_ name _ _ =>
      Ok {| variables := set_add name (variables d); functions := functions d |}
  | Call name _ _ _ =>
      Ok {| variables := variables d; functions := set_add name (functions d) |}
  | _ => Ok d
  end.

Definition expressionDependencies (node : ExpressionNode) : outcome Dependencies :=
  visitExpression add_dependency node {| variables := []; functions := [] |}.

(** ** Rule traces, compiled expressions and results *)

Record BillingRequestRule : Type := Rule {
  rule_cond : str;
  rule_multiplier : number;
  rule_matched : bool;
}.

Record CompiledRule : Type := {
  cr_node : ExpressionNode;
  cr_condition : ExpressionNode;
  cr_multiplier : number;
  cr_cond : str;
}.

Record CompiledBillingExpression : Type := Compiled {
  ce_source : str;
  ce_ast : ExpressionNode;
  ce_variables : list BillingVariable;
  ce_functions : list BillingFunction;
  ce_requestRules : list CompiledRule;
}.

Definition CompilationResult : Type := CompiledBillingExpression + ExpressionFailure.

(** ** The loop is the postorder traversal *)

Fixpoint node_height (n : ExpressionNode) : nat :=
  match n with
  | Literal _ _ _ _ | Variable_ _ _ _ => 0
  | Call _ args _ _ => foldr (fun a h => Nat.max (S (node_height a)) h) 0 args
  | Unary _ a _ _ => S (node_height a)
  | Binary _ a b _ _ => S (Nat.max (node_height a) (node_height b))
  | Conditional c y m _ _ =>
      S (Nat.max (node_height c) (Nat.max (node_height y) (node_height m)))
  end.

(** All nodes of a tree, children before parents. *)
Fixpoint postorder (n : ExpressionNode) : list ExpressionNode :=
  match n with
  | Literal _ _ _ _ | Variable_ _ _ _ => [n]
  | Call _ args _ _ => flat_map postorder args ++ [n]
  | Unary _ a _ _ => postorder a ++ [n]
  | Binary _ a b _ _ => postorder a ++ postorder b ++ [n]
  | Conditional c y m _ _ => postorder c ++ postorder y ++ postorder m ++ [n]
  end.

Lemma postorder_children n : postorder n = flat_map postorder (children n) ++ [n].
Proof. destruct n; cbn; by rewrite ?app_nil_r, <- ?app_assoc. Qed.

Lemma node_size_children n : node_size n = S (list_sum (node_size <$> children n)).
Proof. destruct n; try reflexivity; cbn [node_size children fmap list_fmap list_sum foldr]; lia. Qed.

Lemma node_height_child n c : c ∈ children n -> node_height c < node_height n.
Proof.
  destruct n as [| |f args s e| | |]; cbn [children]; rewrite !list_elem_of_In.
  3: { induction args as [|a args IH]; [done|]. intros [->|H%IH]; cbn in *; lia. }
  all: cbn [In node_height]; intuition (subst; lia).
Qed.

Lemma node_height_bound n h :
  Forall (fun c => node_height c < h) (children n) -> node_height n <= h.
Proof.
  destruct n as [| |f args s e| | |]; cbn; rewrite ?Forall_cons_iff; try lia.
  induction 1; cbn; lia.
Qed.

Lemma postorder_self n : n ∈ postorder n.
Proof. rewrite postorder_children, elem_of_app, list_elem_of_singleton. by right. Qed.

Lemma postorder_child n c d : c ∈ children n -> d ∈ postorder c -> d ∈ postorder n.
Proof.
  intros Hc Hd. rewrite postorder_children, elem_of_app, !list_elem_of_In. left.
  apply in_flat_map. exists c. by rewrite <- !list_elem_of_In.
Qed.

Lemma postorder_inv n d :
  d ∈ postorder n -> d = n \/ exists c, c ∈ children n /\ d ∈ postorder c.
Proof.
  rewrite postorder_children, elem_of_app, list_elem_of_singleton, list_elem_of_In.
  rewrite in_flat_map. intros [(c & H1 & H2)|]; [|by left].
  right. exists c. by rewrite !list_elem_of_In.
Qed.

Section visit_facts.
Context {A : Type} (visitor : A -> ExpressionNode -> outcome A).

Lemma visit_rec_children depth node st :
  visit_rec visitor depth node st =
  if (256 <? depth)%Z then Throw depth_error
  else st ← fold_result (fun st c => visit_rec visitor (depth + 1) c st) st (children node);
       visitor st node.
Proof.
  destruct node as [| |f args s e|o a s e|o a b s e|c y m s e];
    cbn [visit_rec children fold_result]; destruct (256 <? depth)%Z; try done.
  - f_equal. revert st. induction args as [|a args IH]; intros st; [done|].
    cbn. by destruct (visit_rec _ _ a st); cbn.
  - by destruct (visit_rec _ _ a st).
  - destruct (visit_rec _ _ a st) as [st1|]; [|done]. cbn.
    by destruct (visit_rec _ _ b st1).
  - destruct (visit_rec _ _ c st) as [st1|]; [|done]. cbn.
    destruct (visit_rec _ _ y st1) as [st2|]; [|done]. cbn.
    by destruct (visit_rec _ _ m st2).
Qed.

Lemma visit_loop_rec node : forall depth rest fuel st,
  visit_loop visitor (2 * node_size node + fuel) ((node, false, depth) :: rest) st =
  (st ← visit_rec visitor depth node st; visit_loop visitor fuel rest st).
Proof.
  induction node as [node IH] using node_children_ind. intros depth rest fuel st.
  rewrite visit_rec_children, node_size_children.
  replace (2 * S (list_sum (node_size <$> children node)) + fuel)
    with (S (2 * list_sum (node_size <$> children node) + S fuel)) by lia.
  cbn [visit_loop]. destruct (256 <? depth)%Z eqn:Ed; [done|].
  enough (forall l, Forall (fun c => forall depth rest fuel st,
      visit_loop visitor (2 * node_size c + fuel) ((c, false, depth) :: rest) st =
      (st ← visit_rec visitor depth c st; visit_loop visitor fuel rest st)) l ->
    forall rest st,
    visit_loop visitor (2 * list_sum (node_size <$> l) + S fuel)
      (map (fun c => (c, false, (depth + 1)%Z)) l ++ rest) st =
    (st ← fold_result (fun st c => visit_rec visitor (depth + 1) c st) st l;
     visit_loop visitor (S fuel) rest st)) as Hl.
  { rewrite (Hl _ IH). destruct (fold_result _ st _) as [st'|e]; [|done].
    cbn [mbind result_bind visit_loop]. by rewrite Ed. }
  clear IH st rest. intros l Hl. induction Hl as [|c l Hc _ IHl]; intros rest st; [done|].
  change (list_sum (node_size <$> c :: l)) with (node_size c + list_sum (node_size <$> l)).
  replace (2 * (node_size c + list_sum (node_size <$> l)) + S fuel)
    with (2 * node_size c + (2 * list_sum (node_size <$> l) + S fuel)) by lia.
  cbn [map app fold_result].
  rewrite Hc. destruct (visit_rec visitor (depth + 1) c st) as [st'|e]; [|done].
  cbn. apply IHl.
Qed.

Lemma visitExpression_rec node st :
  visitExpression visitor node st = visit_rec visitor 0 node st.
Proof.
  unfold visitExpression.
  replace (S (2 * node_size node)) with (2 * node_size node + 1) by lia.
  rewrite visit_loop_rec. destruct (visit_rec _ _ _ _); done.
Qed.

Lemma visit_rec_postorder node : forall depth st,
  (depth + Z.of_nat (node_height node) <= 256)%Z ->
  visit_rec visitor depth node st = fold_result visitor st (postorder node).
Proof.
  induction node as [node IH] using node_children_ind. intros depth st Hd.
  rewrite visit_rec_children, postorder_children, fold_result_app.
  replace (256 <? depth)%Z with false by lia. cbn [fold_result].
  assert (forall r : outcome A, (x ← r; Ok x) = r) as Hret by (by intros []).
  assert (Forall (fun c => (depth + 1 + Z.of_nat (node_height c) <= 256)%Z) (children node))
    as Hc.
  { apply Forall_forall. intros c Hc%list_elem_of_In%node_height_child. lia. }
  replace (fold_result (fun st c => visit_rec visitor (depth + 1) c st) st (children node))
    with (fold_result visitor st (flat_map postorder (children node))).
  { destruct (fold_result _ _ _); [|done]. cbn. by rewrite Hret. }
  clear Hd. revert st. induction IH as [|c l Hcl _ IHl]; intros st; [done|].
  apply list.Forall_cons in Hc as [Hc Hl]. cbn [flat_map fold_result].
  rewrite fold_result_app, Hcl by done. destruct (fold_result visitor st _); [|done].
  cbn. by apply IHl.
Qed.

Lemma visit_rec_height node : forall depth st st',
  visit_rec visitor depth node st = Ok st' ->
  (depth + Z.of_nat (node_height node) <= 256)%Z.
Proof.
  induction node as [node IH] using node_children_ind. intros depth st st'.
  rewrite visit_rec_children. destruct (Z.ltb_spec 256 depth) as [|Hd]; [done|].
  intros H. inv_ok.
  enough (node_height node <= Z.to_nat (256 - depth)) by lia.
  apply node_height_bound.
  match goal with H : fold_result _ st _ = _ |- _ => revert st H end.
  induction IH as [|c l Hc _ IHl]; intros st Hf; [constructor|].
  cbn in Hf. inv_ok. constructor; [|eauto].
  match goal with H : visit_rec _ _ c _ = _ |- _ => apply Hc in H end. lia.
Qed.

Lemma visit_rec_throws (good : exn -> Prop) node :
  good depth_error ->
  (forall st d, d ∈ postorder node -> throws_only good (visitor st d)) ->
  forall depth st, throws_only good (visit_rec visitor depth node st).
Proof.
  intros Hd. induction node as [node IH] using node_children_ind. intros Hv depth st.
  rewrite visit_rec_children. destruct (256 <? depth)%Z; [done|].
  apply throws_only_bind; [|intros st' _; apply Hv, postorder_self].
  assert (forall c, c ∈ children node -> forall depth st,
    throws_only good (visit_rec visitor depth c st)) as Hc.
  { rewrite Forall_forall in IH. intros c Hc. apply IH; [by apply list_elem_of_In|].
    eauto using postorder_child. }
  clear IH Hv. revert st. induction (children node) as [|c l IHl]; intros st; [done|].
  cbn. apply throws_only_bind; [apply Hc; left|]. intros st' _. apply IHl.
  intros d Hdl. apply Hc. by right.
Qed.

(** C-statement of the traversal: a tree of height at most 256 is visited in
    postorder, a higher one is refused. *)
Lemma visitExpression_spec node st :
  (node_height node <= 256 ->
   visitExpression visitor node st = fold_result visitor st (postorder node)) /\
  (256 < node_height node -> forall st', visitExpression visitor node st <> Ok st').
Proof.
  rewrite visitExpression_rec. split.
  - intros H. apply visit_rec_postorder. lia.
  - intros H st' Hok. apply visit_rec_height in Hok. lia.
Qed.
End visit_facts.
