(* ===== verification/Parser.v ===== *)
(** * Lexer, parser, static checks and compilation

    [features/pricing/lib/billing-expression/parser.ts]. *)

From Stdlib Require Import String.
From S2P Require Import Prelude JsNumber JsString JsText Ast.

(** ** Lexemes *)

Inductive LexemeKind : Type :=
| K_number (value : number) (integer : bool)
| K_string (value : str)
| K_symbol | K_name | K_end.

Record Lexeme : Type := {
  l_text : str;
  l_start : nat;
  l_end : nat;
  l_kind : LexemeKind;
}.

Definition PRECEDENCE : list (BinaryOperator * Z) :=
  [(Op_or, 1); (Op_and, 2); (Op_eq, 3); (Op_ne, 3); (Op_lt, 4); (Op_le, 4); (Op_gt, 4);
   (Op_ge, 4); (Op_add, 5); (Op_sub, 5); (Op_mul, 6); (Op_div, 6); (Op_mod, 6)]%Z.

(** [Object.hasOwn(PRECEDENCE, text)] with [PRECEDENCE[text]]. *)
Definition precedence_of (text : str) : option (BinaryOperator * Z) :=
  find (fun row => str_eqb (operator_text row.1) text) PRECEDENCE.

Definition unary_of (text : str) : option UnaryOperator :=
  find (fun o => str_eqb (unary_text o) text) [Un_not; Un_plus; Un_minus].

Definition variable_of (text : str) : option BillingVariable :=
  find (fun v => str_eqb (variable_text v) text) BILLING_VARIABLES.

Definition function_of (text : str) : option (BillingFunction * nat) :=
  find (fun row => str_eqb (function_text row.1) text) BILLING_FUNCTIONS.

(** The alternatives of the operator pattern, in its order. *)
Definition OPERATORS : list str :=
  [u "&&"; u "||"; u "=="; u "!="; u "<="; u ">=";
   u "+"; u "-"; u "*"; u "/"; u "%"; u "<"; u ">"; u "("; u ")"; u "!"; u "?"; u ":"; u ","].

Definition scan_operator (rest : str) : option str :=
  find (fun o => starts_with rest o) OPERATORS.

Definition simple_escape (c : N) : option N :=
  if N.eqb c 110 then Some 10%N          (* n *)
  else if N.eqb c 114 then Some 13%N     (* r *)
  else if N.eqb c 116 then Some 9%N      (* t *)
  else if N.eqb c 98 then Some 8%N       (* b *)
  else if N.eqb c 102 then Some 12%N     (* f *)
  else if N.eqb c 118 then Some 11%N     (* v *)
  else if N.eqb c backslash then Some backslash
  else if N.eqb c quote_char then Some quote_char
  else if N.eqb c apostrophe then Some apostrophe
  else if N.eqb c 47 then Some 47%N
  else None.

Definition hex_char (l : str) : N := fold_left (fun a c => 16 * a + hex_value c)%N l 0%N.

(** The loop over the characters of a string literal that opened at [start];
    [pos] is the cursor. Returns the value and the cursor behind the quote. *)
Fixpoint scan_string (start : nat) (quote : N) (s : str) (pos : nat) (value : str)
  : outcome (str * nat) :=
  let unterminated := billing_error_at D_syntax (u "unterminated string") start in
  let bad_escape := billing_error_at D_unsupported (u "string escape") (S pos) in
  match s with
  | [] => Throw unterminated
  | char :: s =>
      if N.eqb char quote then Ok (value, S pos)
      else if N.eqb char 10 || N.eqb char 13 then Throw unterminated
      else if negb (N.eqb char backslash) then
        scan_string start quote s (S pos) (value ++ [char])
      else match s with
           | [] => Throw bad_escape
           | escaped :: s =>
               match simple_escape escaped with
               | Some c => scan_string start quote s (S (S pos)) (value ++ [c])
               | None =>
                   if N.eqb escaped 117 then
                     match s with
                     | a :: b :: c :: d :: s =>
                         if forallb is_hex [a; b; c; d] then
                           scan_string start quote s (pos + 6) (value ++ [hex_char [a; b; c; d]])
                         else Throw unterminated
                     | _ => Throw unterminated
                     end
                   else if N.eqb escaped 120 then
                     match s with
                     | a :: b :: s =>
                         if forallb is_hex [a; b] then
                           scan_string start quote s (pos + 4) (value ++ [hex_char [a; b]])
                         else Throw unterminated
                     | _ => Throw unterminated
                     end
                   else Throw bad_escape
               end
           end
  end.

(** The lexeme that begins at [start], which is no white space. *)
Definition lexeme_at (source : str) (start : nat) : outcome Lexeme :=
  let rest := drop start source in
  match rest with
  | [] => Ok {| l_text := []; l_start := start; l_end := start; l_kind := K_end |}
  | first :: tail =>
      match scan_decimal rest with
      | Some (d, _) =>
          let text := decimal_text d in
          let value := decimal_number false d in
          let integer := match dec_frac d, dec_exp d with None, None => true | _, _ => false end in
          if negb (num_is_finite value) then Throw (billing_error_at D_number text start)
          else if integer && negb (num_is_safe_integer value) then
            Throw (billing_error_at D_unsupported (u "integer precision") start)
          else Ok {| l_text := text; l_start := start; l_end := start + length text;
                     l_kind := K_number value integer |}
      | None =>
          if N.eqb first quote_char || N.eqb first apostrophe then
            '(value, stop) ← scan_string start first tail (S start) [];
            Ok {| l_text := slice source start stop; l_start := start; l_end := stop;
                  l_kind := K_string value |}
          else if is_name_start first then
            let text := take_while is_word rest in
            Ok {| l_text := text; l_start := start; l_end := start + length text;
                  l_kind := K_name |}
          else match scan_operator rest with
               | None => Throw (billing_error_at D_unsupported [first] start)
               | Some text =>
                   Ok {| l_text := text; l_start := start; l_end := start + length text;
                         l_kind := K_symbol |}
               end
      end
  end.

(** ** The parser object *)

Record ParserState : Type := {
  cursor : nat;
  count : Z;
  depth : Z;
  current : Lexeme;
}.

Abbreviation parsing := (method ParserState exn).

Definition is_conditional (text : str) : bool := str_eqb text (u "?").

Section BillingParser.
Context (source : str).

Definition skip_space (pos : nat) : nat := pos + length (take_while is_space (drop pos source)).

(** [next()]: the lexeme behind the cursor, with the new cursor and count. *)
Definition next : parsing Lexeme :=
  s ← get;
  let count' := (count s + 1)%Z in
  method_throw_when (10000 <? count')%Z (billing_error D_limit (u "expression tokens"));;
  lexeme ← lift (lexeme_at source (skip_space (cursor s)));
  put {| cursor := l_end lexeme; count := count'; depth := depth s; current := current s |};;
  mret lexeme.

Definition take_ : parsing Lexeme :=
  s ← get;
  let old := current s in
  lexeme ← next;
  s ← get;
  put {| cursor := cursor s; count := count s; depth := depth s; current := lexeme |};;
  mret old.

Definition current_text : parsing str := s ← get; mret (l_text (current s)).

Definition expect (text : str) : parsing Lexeme :=
  s ← get;
  method_throw_when (negb (str_eqb (l_text (current s)) text))
    (billing_error_at D_syntax (u "expected " ++ text) (l_start (current s)));;
  take_.

(** [++this.depth > 128] and [this.depth--]. *)
Definition enter : parsing unit :=
  s ← get;
  let d := (depth s + 1)%Z in
  put {| cursor := cursor s; count := count s; depth := d; current := current s |};;
  method_throw_when (128 <? d)%Z depth_error.
Definition leave : parsing unit :=
  modify (fun s => {| cursor := cursor s; count := count s; depth := depth s - 1;
                      current := current s |}).

(** [expression] (with its operator loop), [primary] and the argument loop. *)
Fixpoint expression (fuel : nat) (minimum : Z) : parsing ExpressionNode :=
  match fuel with
  | O => throwing OutOfFuel
  | S fuel =>
      enter;;
      left ← primary fuel;
      left ← binary_loop fuel minimum left;
      text ← current_text;
      left ← (if (minimum =? 0)%Z && is_conditional text then
                take_;;
                yes ← expression fuel 0;
                expect (u ":");;
                no ← expression fuel 0;
                mret (Conditional left yes no (node_start left) (node_end no))
              else mret left);
      leave;;
      mret left
  end
with binary_loop (fuel : nat) (minimum : Z) (left : ExpressionNode) : parsing ExpressionNode :=
  match fuel with
  | O => throwing OutOfFuel
  | S fuel =>
      text ← current_text;
      match precedence_of text with
      | Some (operator, precedence) =>
          if (minimum <=? precedence)%Z then
            take_;;
            right ← expression fuel (precedence + 1);
            binary_loop fuel minimum
              (Binary operator left right (node_start left) (node_end right))
          else mret left
      | None => mret left
      end
  end
with primary (fuel : nat) : parsing ExpressionNode :=
  match fuel with
  | O => throwing OutOfFuel
  | S fuel =>
      token ← take_;
      let s := l_start token in
      let e := l_end token in
      match l_kind token with
      | K_number value integer => mret (Literal (LNumber value) integer s e)
      | K_string value => mret (Literal (LString value) false s e)
      | kind =>
          if str_eqb (l_text token) (u "(") then
            node ← expression fuel 0;
            close ← expect (u ")");
            mret (with_span node s (l_end close))
          else match unary_of (l_text token) with
               | Some operator =>
                   operand ← expression fuel 7;
                   mret (Unary operator operand s (node_end operand))
               | None =>
                   match kind with
                   | K_name => name_primary fuel token
                   | _ => throwing (billing_error_at D_syntax (l_text token) s)
                   end
               end
      end
  end
with name_primary (fuel : nat) (token : Lexeme) : parsing ExpressionNode :=
  match fuel with
  | O => throwing OutOfFuel
  | S fuel =>
      let text := l_text token in
      let s := l_start token in
      let e := l_end token in
      if str_eqb text (u "nil") then mret (Literal LNull false s e)
      else if str_eqb text (u "true") || str_eqb text (u "false") then
        mret (Literal (LBoolean (str_eqb text (u "true"))) false s e)
      else
        following ← current_text;
        if negb (str_eqb following (u "(")) then
          match variable_of text with
          | Some v => mret (Variable_ v s e)
          | None => throwing (billing_error_at D_unsupported text s)
          end
        else match function_of text with
             | None => throwing (billing_error_at D_unsupported text s)
             | Some (f, arity) =>
                 take_;;
                 args ← arguments fuel [];
                 close ← expect (u ")");
                 method_throw_when (negb (length args =? arity)%nat)
                   (billing_error_at D_type text s);;
                 mret (Call f args s (l_end close))
             end
  end
with arguments (fuel : nat) (args : list ExpressionNode) : parsing (list ExpressionNode) :=
  match fuel with
  | O => throwing OutOfFuel
  | S fuel =>
      text ← current_text;
      if str_eqb text (u ")") then mret args
      else
        arg ← expression fuel 0;
        text ← current_text;
        if negb (str_eqb text (u ",")) then mret (args ++ [arg])
        else take_;; arguments fuel (args ++ [arg])
  end.

(** [/^\s*v(\d+):/]: the digits and the length of the match. *)
Definition match_version : option (str * nat) :=
  let spaces := take_while is_space source in
  match drop_while is_space source with
  | 118%N :: rest =>
      match take_while is_digit rest, drop_while is_digit rest with
      | (_ :: _) as digits, 58%N :: _ => Some (digits, length spaces + length digits + 2)
      | _, _ => None
      end
  | _ => None
  end.

Definition no_lexeme : Lexeme := {| l_text := []; l_start := 0; l_end := 0; l_kind := K_end |}.

(** The constructor. *)
Definition new_parser : outcome ParserState :=
  throw_when (65536 <? Z.of_nat (length source))%Z
    (billing_error D_limit (u "expression length"));;
  let version := match_version in
  cursor ← match version with
           | Some (digits, stop) =>
               throw_when (negb (str_eqb digits (u "1")))
                 (billing_error D_unsupported (slice source 0 stop));;
               Ok stop
           | None => Ok 0
           end;
  '(lexeme, s) ← next {| cursor := cursor; count := 0; depth := 0; current := no_lexeme |};
  Ok {| cursor := l_end lexeme; count := count s; depth := depth s; current := lexeme |}.

(** Each recursive call or iteration consumes a token, and no more than 10000
    tokens can be taken: the fuel is enough by [parser_ok] below. *)
Definition parse_fuel : nat := Z.to_nat 40010.

Definition parse_method : parsing ExpressionNode :=
  node ← expression parse_fuel 0;
  s ← get;
  match l_kind (current s) with
  | K_end => mret node
  | _ => throwing (billing_error_at D_unsupported (l_text (current s)) (l_start (current s)))
  end.

(** [new BillingParser(source).parse()] *)
Definition parse : outcome ExpressionNode :=
  s ← new_parser;
  '(node, _) ← parse_method s;
  Ok node.
End BillingParser.

(** ** Well-formed trees *)

Definition literal_ok (v : LiteralValue) (integer : bool) : Prop :=
  match v with
  | LNumber x =>
      valid x = true /\ num_is_finite x = true /\ num_negative x = false /\
      (integer = true -> num_is_safe_integer x = true)
  | _ => integer = false
  end.

(** Consecutive spans inside [lo, hi]. *)
Fixpoint in_order (lo : nat) (l : list ExpressionNode) (hi : nat) : Prop :=
  match l with
  | [] => lo <= hi
  | n :: l => lo <= node_start n /\ in_order (node_end n) l hi
  end.

(** What holds of each node of a parsed tree: its span is not empty and holds
    the children's in order; a single child starts behind its parent; a call
    has the arity of its function; literals are canonical numbers. *)
Definition node_ok (n : ExpressionNode) : Prop :=
  node_start n < node_end n /\
  in_order (node_start n) (children n) (node_end n) /\
  match n with
  | Literal v i _ _ => literal_ok v i
  | Variable_ _ _ _ => True
  | Call f args s e => (f, length args) ∈ BILLING_FUNCTIONS /\ in_order (S s) args e
  | Unary _ a s _ => s < node_start a
  | Binary _ _ _ _ _ => True
  | Conditional _ _ _ _ _ => True
  end.

Definition tree_ok (n : ExpressionNode) : Prop := Forall node_ok (postorder n).

Lemma tree_ok_children n : tree_ok n <-> node_ok n /\ Forall tree_ok (children n).
Proof.
  unfold tree_ok. rewrite postorder_children, Forall_app.
  assert (Forall node_ok [n] <-> node_ok n) as ->.
  { split; [by inversion 1|by intros; apply List.Forall_cons]. }
  enough (Forall node_ok (flat_map postorder (children n)) <->
          Forall (fun c => Forall node_ok (postorder c)) (children n)) by tauto.
  induction (children n) as [|c l IH]; cbn; [split; constructor|].
  rewrite Forall_app, IH, Forall_cons_iff. tauto.
Qed.

Lemma tree_ok_node n : tree_ok n -> node_ok n.
Proof. rewrite tree_ok_children. tauto. Qed.

Lemma tree_ok_sub n c : tree_ok n -> c ∈ children n -> tree_ok c.
Proof.
  rewrite tree_ok_children, Forall_forall. setoid_rewrite <- list_elem_of_In.
  intros [_ H]. auto.
Qed.

Lemma in_order_le lo l hi : in_order lo l hi -> Forall node_ok l -> lo <= hi.
Proof.
  revert lo. induction l as [|n l IH]; intros lo; cbn; [done|].
  intros [H1 H2] [[H3 _] H4]%Forall_cons_iff. specialize (IH _ H2 H4). lia.
Qed.

Lemma in_order_weaken lo lo' l hi hi' :
  lo' <= lo -> hi <= hi' -> in_order lo l hi -> in_order lo' l hi'.
Proof.
  revert lo lo'. induction l as [|n l IH]; intros lo lo' Hlo Hhi; cbn; [lia|].
  intros [H1 H2]. split; [lia|]. eapply IH; [| |exact H2]; lia.
Qed.

Lemma in_order_snoc lo l n hi :
  in_order lo l (node_start n) -> node_end n <= hi -> in_order lo (l ++ [n]) hi.
Proof.
  revert lo. induction l as [|m l IH]; intros lo; cbn; [auto|].
  intros [H1 H2] H3. auto.
Qed.

Lemma with_span_ok n s e :
  tree_ok n -> s <= node_start n -> node_end n <= e -> s < e -> tree_ok (with_span n s e).
Proof.
  rewrite !tree_ok_children. intros [(Hn1 & Hn2 & Hn3) Hc] Hs He Hse.
  assert (children (with_span n s e) = children n) as Hch by by destruct n.
  rewrite Hch. split; [|done]. unfold node_ok. rewrite Hch.
  assert (node_start (with_span n s e) = s) as -> by by destruct n.
  assert (node_end (with_span n s e) = e) as -> by by destruct n.
  split; [lia|]. split; [by eapply in_order_weaken; [| |exact Hn2]|].
  destruct n; cbn in *; try done; [|lia].
  destruct Hn3 as [Ha Ho]. split; [done|]. by eapply in_order_weaken; [| |exact Ho]; lia.
Qed.

(** ** The lexer stays inside the text *)

Definition kind_ok (k : LexemeKind) : Prop :=
  match k with K_number x i => literal_ok (LNumber x) i | _ => True end.

Definition lexeme_ok (source : str) (l : Lexeme) : Prop :=
  l_start l <= l_end l <= length source /\
  ((l_kind l = K_end /\ l_text l = []) \/ l_start l < l_end l) /\ kind_ok (l_kind l).

Lemma scan_string_spec start q s pos v :
  match scan_string start q s pos v with
  | Ok (_, stop) => pos < stop <= pos + length s
  | Throw e => billing_exn e
  end.
Proof.
  revert pos v. induction s as [s IH] using (induction_ltof1 _ (@length N)).
  unfold ltof in IH. intros pos v. destruct s as [|c s]; cbn [scan_string]; [by eexists|].
  destruct (N.eqb c q); [cbn; lia|].
  destruct (N.eqb c 10 || N.eqb c 13); [by eexists|].
  assert (forall t k w, k <= pos + S (length s) - length t -> pos < k -> length t < S (length s) ->
    match scan_string start q t k w with
    | Ok (_, stop) => pos < stop <= pos + length (c :: s)
    | Throw e => billing_exn e
    end) as Hrec.
  { intros t k w Hk Hp Hl. specialize (IH t ltac:(cbn; lia) k w).
    destruct (scan_string start q t k w) as [[? stop]|]; [cbn; lia|done]. }
  destruct (negb (N.eqb c backslash)); [apply Hrec; lia|].
  destruct s as [|x s]; [by eexists|].
  destruct (simple_escape x); [apply Hrec; cbn; lia|].
  destruct (N.eqb x 117).
  { destruct s as [|h1 [|h2 [|h3 [|h4 s]]]]; try by eexists.
    destruct (forallb _ _); [apply Hrec; cbn; lia|by eexists]. }
  destruct (N.eqb x 120); [|by eexists].
  destruct s as [|h1 [|h2 s]]; try by eexists.
  destruct (forallb _ _); [apply Hrec; cbn; lia|by eexists].
Qed.

Lemma take_while_length p s : length (take_while p s) <= length s.
Proof. induction s as [|c s IH]; cbn; [lia|]. destruct (p c); cbn; lia. Qed.

Lemma scan_operator_spec rest o :
  scan_operator rest = Some o -> 0 < length o <= length rest.
Proof.
  unfold scan_operator. intros [Hin Hs]%find_some. apply starts_with_app in Hs as [t ->].
  rewrite length_app. split; [|lia].
  repeat (destruct Hin as [<-|Hin]; [cbn; lia|]). done.
Qed.

Lemma lexeme_at_spec source start :
  start <= length source ->
  match lexeme_at source start with
  | Ok l => l_start l = start /\ lexeme_ok source l
  | Throw e => billing_exn e
  end.
Proof.
  intros Hlen. unfold lexeme_at.
  assert (length (drop start source) = length source - start) as Hd by apply length_drop.
  destruct (drop start source) as [|first tail] eqn:Er.
  { cbn. repeat split; auto; cbn; lia. }
  destruct (scan_decimal (first :: tail)) as [[d r]|] eqn:Es.
  { pose proof (scan_decimal_progress _ _ _ Es) as Hpos.
    apply scan_decimal_sound in Es as [Ht Hok].
    destruct (num_is_finite (decimal_number false d)) eqn:Ef; [|by eexists].
    cbn [negb]. destruct (_ && negb _) eqn:Ei; [by eexists|].
    rewrite Ht, length_app in Hd. cbn. split; [done|].
    split; [cbn; lia|]. split; [right; cbn; lia|]. cbn.
    split; [by apply decimal_number_valid|]. split; [done|].
    split; [apply round_sign|]. intros Hi. rewrite Hi in Ei. by apply negb_false_iff in Ei. }
  destruct (_ || _).
  { pose proof (scan_string_spec start first tail (S start) []) as Hs.
    destruct (scan_string _ _ _ _ _) as [[v stop]|e]; [|done]. cbn in *.
    split; [done|]. split; [cbn; lia|]. split; [right; cbn; lia|done]. }
  destruct (is_name_start first) eqn:En.
  { pose proof (take_while_length is_word (first :: tail)).
    assert (0 < length (take_while is_word (first :: tail))).
    { cbn [take_while]. unfold is_word at 1. rewrite En. cbn. lia. }
    cbn -[take_while] in *. split; [done|]. split; [cbn -[take_while]; lia|].
    split; [right; cbn -[take_while]; lia|done]. }
  destruct (scan_operator _) eqn:Eo; [|by eexists].
  apply scan_operator_spec in Eo. cbn in *. split; [done|]. split; [cbn; lia|].
  split; [right; cbn; lia|done].
Qed.

Lemma skip_space_bounds source pos :
  pos <= length source -> pos <= skip_space source pos <= length source.
Proof.
  intros. unfold skip_space.
  pose proof (take_while_length is_space (drop pos source)) as Hl.
  rewrite length_drop in Hl. lia.
Qed.

(** ** Invariant of the parser object *)

Section parser_facts.
Context (source : str).

Definition state_ok (s : ParserState) : Prop :=
  lexeme_ok source (current s) /\ cursor s = l_end (current s) /\ (0 <= count s <= 10000)%Z.

(** The parser moved on, past at least one token when [strict]. *)
Definition advanced (strict : bool) (s s' : ParserState) : Prop :=
  state_ok s' /\ depth s' = depth s /\
  (if strict then (count s < count s')%Z else (count s <= count s')%Z).

Lemma advanced_trans b c s1 s2 s3 :
  advanced b s1 s2 -> advanced c s2 s3 -> advanced (b || c) s1 s3.
Proof. unfold advanced. destruct b, c; cbn; intuition (congruence || lia). Qed.

Lemma next_spec s :
  cursor s <= length source -> (0 <= count s)%Z ->
  wp billing_exn (next source) (fun l s' =>
    lexeme_ok source l /\ cursor s <= l_start l /\ cursor s' = l_end l /\
    count s' = (count s + 1)%Z /\ (count s' <= 10000)%Z /\ depth s' = depth s) s.
Proof.
  intros Hc Hn. unfold next. repeat wp_step; [by eexists|]. bool_to_prop.
  apply wp_lift. pose proof (skip_space_bounds source _ Hc) as Hs.
  pose proof (lexeme_at_spec source _ (proj2 Hs)) as Hl.
  destruct (lexeme_at source _) as [l|e]; [|done]. destruct Hl as [Hl Hok].
  repeat wp_step. cbn. rewrite Hl. repeat split; try apply Hok; lia.
Qed.

Lemma take_spec s :
  state_ok s ->
  wp billing_exn (take_ source) (fun token s' =>
    token = current s /\ advanced true s s' /\ l_end token <= l_start (current s')) s.
Proof.
  intros (Hl & Hc & Hn). unfold take_. repeat wp_step.
  eapply wp_mono; [apply next_spec|].
  { rewrite Hc. apply Hl. }
  { lia. }
  intros l s' (Hok & H1 & H2 & H3 & H4 & H5). repeat wp_step. cbn.
  split; [done|]. split; [|lia]. unfold advanced, state_ok. cbn. repeat split; try apply Hok; lia.
Qed.

Lemma expect_spec s text :
  state_ok s ->
  wp billing_exn (expect source text) (fun token s' =>
    token = current s /\ l_text token = text /\
    advanced true s s' /\ l_end token <= l_start (current s')) s.
Proof.
  intros Hs. unfold expect. repeat wp_step; [by eexists|]. bool_to_prop.
  match goal with H : str_eqb _ _ = true |- _ => apply str_eqb_eq in H end.
  eapply wp_mono; [by apply take_spec|]. cbn. intros t s' (-> & ? & ?). auto.
Qed.

(** Tokens left to take. *)
Definition left_over (s : ParserState) : nat := Z.to_nat (10000 - count s).

Lemma advanced_left_over b s s' : state_ok s -> advanced b s s' ->
  left_over s' + Nat.b2n b <= left_over s.
Proof. unfold advanced, state_ok, left_over. destruct b; cbn; lia. Qed.

Lemma wp_current_text (Q : str -> ParserState -> Prop) s :
  Q (l_text (current s)) s -> wp billing_exn current_text Q s.
Proof. done. Qed.

Lemma enter_spec s :
  state_ok s ->
  wp billing_exn enter (fun _ s' => state_ok s' /\ count s' = count s /\
    current s' = current s /\ depth s' = (depth s + 1)%Z) s.
Proof. intros Hs. unfold enter. repeat wp_step; auto with billing. Qed.

(** Postcondition of the productions that begin at the current token. *)
Definition parsed (s : ParserState) (n : ExpressionNode) (s' : ParserState) : Prop :=
  advanced true s s' /\ tree_ok n /\ node_start n = l_start (current s) /\
  node_end n <= l_start (current s').

Definition expression_ok (fuel : nat) : Prop := forall s minimum,
  state_ok s -> 4 * left_over s + 4 <= fuel ->
  wp billing_exn (expression source fuel minimum) (parsed s) s.

Definition loop_ok (fuel : nat) : Prop := forall s minimum left,
  state_ok s -> 4 * left_over s + 1 <= fuel ->
  tree_ok left -> node_end left <= l_start (current s) ->
  wp billing_exn (binary_loop source fuel minimum left) (fun n s' =>
    advanced false s s' /\ tree_ok n /\ node_start n = node_start left /\
    node_end n <= l_start (current s')) s.

Definition primary_ok (fuel : nat) : Prop := forall s,
  state_ok s -> 4 * left_over s + 3 <= fuel ->
  wp billing_exn (primary source fuel) (parsed s) s.

Definition name_ok (fuel : nat) : Prop := forall s token,
  state_ok s -> 4 * left_over s + 2 <= fuel ->
  l_start token < l_end token -> l_end token <= l_start (current s) ->
  wp billing_exn (name_primary source fuel token) (fun n s' =>
    advanced false s s' /\ tree_ok n /\ node_start n = l_start token /\
    node_end n <= l_start (current s')) s.

Definition arguments_ok (fuel : nat) : Prop := forall s args lo,
  state_ok s -> 4 * left_over s + 5 <= fuel ->
  Forall tree_ok args -> in_order lo args (l_start (current s)) ->
  wp billing_exn (arguments source fuel args) (fun args' s' =>
    advanced false s s' /\ Forall tree_ok args' /\
    in_order lo args' (l_start (current s'))) s.

Lemma state_ok_bounds s : state_ok s ->
  l_start (current s) <= l_end (current s).
Proof. intros ((H & _) & _). lia. Qed.

Lemma advanced_refl s : state_ok s -> advanced false s s.
Proof. unfold advanced. intuition lia. Qed.

Lemma advanced_state b s s' : advanced b s s' -> state_ok s'.
Proof. unfold advanced. tauto. Qed.

Lemma binary_tree_ok o a b :
  tree_ok a -> tree_ok b -> node_end a <= node_start b ->
  tree_ok (Binary o a b (node_start a) (node_end b)).
Proof.
  intros Ha Hb Hab. pose proof (tree_ok_node _ Ha) as (? & _).
  pose proof (tree_ok_node _ Hb) as (? & _).
  apply tree_ok_children. split; [|repeat constructor; done].
  unfold node_ok. cbn. lia.
Qed.

Lemma conditional_tree_ok c y n :
  tree_ok c -> tree_ok y -> tree_ok n -> node_end c <= node_start y ->
  node_end y <= node_start n ->
  tree_ok (Conditional c y n (node_start c) (node_end n)).
Proof.
  intros Hc Hy Hn H1 H2. pose proof (tree_ok_node _ Hc) as (? & _).
  pose proof (tree_ok_node _ Hy) as (? & _). pose proof (tree_ok_node _ Hn) as (? & _).
  apply tree_ok_children. split; [|repeat constructor; done].
  unfold node_ok. cbn. lia.
Qed.

Lemma leaf_tree_ok n : children n = [] -> node_ok n -> tree_ok n.
Proof. intros Hc Hn. apply tree_ok_children. rewrite Hc. by split. Qed.

Lemma name_step fuel : arguments_ok fuel -> name_ok (S fuel).
Proof.
  intros IH s token Hs Hf Ht1 Ht2. cbn [name_primary].
  assert (forall v, literal_ok v false ->
    tree_ok (Literal v false (l_start token) (l_end token))) as Hlit.
  { intros v Hv. apply leaf_tree_ok; [done|]. split; [done|]. by split; [cbn; lia|]. }
  destruct (str_eqb _ (u "nil")).
  { apply wp_ret. cbn. split_and!; try apply Hlit; auto using advanced_refl; done. }
  destruct (str_eqb _ (u "true") || _).
  { apply wp_ret. cbn. split_and!; try apply Hlit; auto using advanced_refl; done. }
  unfold current_text. repeat wp_step.
  { destruct (variable_of _); [|by eexists]. apply wp_ret. cbn.
    split_and!; auto using advanced_refl. apply leaf_tree_ok; [done|].
    split; [done|]. by split; [cbn; lia|]. }
  destruct (function_of _) as [[f arity]|] eqn:Ef; [|by eexists].
  repeat wp_step. eapply wp_mono; [by apply take_spec|]. cbn.
  intros ? s1 (-> & Ha1 & He1). repeat wp_step.
  pose proof (advanced_left_over _ _ _ Hs Ha1) as Hlo. cbn [Nat.b2n] in Hlo. pose proof (state_ok_bounds s Hs).
  eapply wp_mono; [apply (IH s1 [] (l_start (current s1)));
    [by eapply advanced_state|lia|constructor|cbn; lia]|]. cbn.
  intros args s2 (Ha2 & Hargs & Hord). repeat wp_step.
  eapply wp_mono; [apply expect_spec; by eapply advanced_state|]. cbn.
  intros close s3 (-> & _ & Ha3 & He3). repeat wp_step; [by eexists|]. bool_to_prop.
  match goal with H : (_ =? _) = true |- _ => apply Nat.eqb_eq in H; subst arity end.
  pose proof (state_ok_bounds _ (advanced_state _ _ _ Ha2)).
  split.
  { destruct (advanced_trans _ _ _ _ _ (advanced_trans _ _ _ _ _ Ha1 Ha2) Ha3) as (? & ? & ?).
    split; [done|]. split; [done|]. cbn in *. lia. }
  split; [|cbn; split; [done|lia]].
  assert (in_order (S (l_start token)) args (l_end (current s2))) as Hin.
  { eapply in_order_weaken; [| |exact Hord]; lia. }
  pose proof (in_order_le _ _ _ Hord) as Hle.
  apply tree_ok_children. split; [|done]. apply find_some in Ef as [Ef _].
  assert (l_start (current s1) <= l_start (current s2)).
  { apply Hle. eapply List.Forall_impl; [|exact Hargs]. apply tree_ok_node. }
  split; [cbn; lia|]. split; [cbn; eapply in_order_weaken; [| |exact Hin]; lia|].
  split; [by apply list_elem_of_In|done].
Qed.

Lemma parsed_from s s1 n s2 :
  state_ok s -> advanced true s s1 -> advanced false s1 s2 -> tree_ok n ->
  node_start n = l_start (current s) -> node_end n <= l_start (current s2) ->
  parsed s n s2.
Proof.
  intros Hs H1 H2 Hn Hst He. split_and!; [|done..].
  exact (advanced_trans _ _ _ _ _ H1 H2).
Qed.

Lemma advanced_weaken s s' : advanced true s s' -> advanced false s s'.
Proof. unfold advanced. intuition lia. Qed.

Lemma primary_step fuel : expression_ok fuel -> name_ok fuel -> primary_ok (S fuel).
Proof.
  intros IHe IHn s Hs Hf. cbn [primary]. apply wp_bind.
  eapply wp_mono; [by apply take_spec|]. cbn. intros ? s1 (-> & Ha1 & He1).
  pose proof (advanced_state _ _ _ Ha1) as Hs1.
  pose proof (advanced_left_over _ _ _ Hs Ha1) as Hlo. cbn [Nat.b2n] in Hlo.
  destruct Hs as (Hl & Hcur & Hcnt). pose proof Hl as ((Hl1 & _) & Hl2 & Hl3).
  assert (Hs : state_ok s) by done.
  assert (forall v i, literal_ok v i -> l_start (current s) < l_end (current s) ->
    parsed s (Literal v i (l_start (current s)) (l_end (current s))) s1) as Hlit.
  { intros v i Hv Hlt. eapply parsed_from; eauto using advanced_refl.
    apply leaf_tree_ok; [done|]. split; [done|]. by split; [cbn; lia|]. }
  assert (forall text, l_text (current s) = text -> text <> [] ->
            l_start (current s) < l_end (current s)) as Hne.
  { intros text <- Ht. by destruct Hl2 as [[_ ?]|?]. }
  assert (wp billing_exn
    (if str_eqb (l_text (current s)) (u "(") then
       node ← expression source fuel 0; close ← expect source (u ")");
       mret (with_span node (l_start (current s)) (l_end close))
     else match unary_of (l_text (current s)) with
          | Some operator =>
              operand ← expression source fuel 7;
              mret (Unary operator operand (l_start (current s)) (node_end operand))
          | None =>
              match l_kind (current s) with
              | K_name => name_primary source fuel (current s)
              | _ => throwing (billing_error_at D_syntax (l_text (current s)) (l_start (current s)))
              end
          end) (parsed s) s1) as Hrest.
  { destruct (str_eqb _ (u "(")) eqn:Ep.
    - apply str_eqb_eq in Ep. apply wp_bind.
      eapply wp_mono; [apply IHe; [done|lia]|]. cbn. intros n s2 (Ha2 & Hn & Hns & Hne2).
      apply wp_bind. eapply wp_mono; [apply expect_spec; by eapply advanced_state|]. cbn.
      intros close s3 (-> & _ & Ha3 & He3). apply wp_ret.
      pose proof (state_ok_bounds _ (advanced_state _ _ _ Ha2)).
      pose proof (tree_ok_node _ Hn) as (Hlt & _).
      eapply parsed_from; [done|exact Ha1| | | |].
      + exact (advanced_weaken _ _ (advanced_trans _ _ _ _ _ Ha2 Ha3)).
      + apply with_span_ok; [done|lia..].
      + by destruct n.
      + destruct n; exact He3.
    - destruct (unary_of _) as [o|] eqn:Eu.
      + apply find_some in Eu as [Hin Eu%str_eqb_eq].
        assert (l_start (current s) < l_end (current s)) as Hlt.
        { apply (Hne (unary_text o)); [done|]. by destruct o. }
        apply wp_bind. eapply wp_mono; [apply IHe; [done|lia]|]. cbn.
        intros n s2 (Ha2 & Hn & Hns & Hne2). apply wp_ret.
        pose proof (tree_ok_node _ Hn) as (Hlt2 & _).
        eapply parsed_from; eauto using advanced_weaken. apply tree_ok_children.
        split; [|by repeat constructor]. unfold node_ok. cbn. lia.
      + destruct (l_kind (current s)) eqn:Ek; try by eexists.
        destruct Hl2 as [[? _]|Hlt]; [done|].
        eapply wp_mono; [apply IHn; [done|lia|done|done]|]. cbn.
        intros n s2 (Ha2 & Hn & Hns & Hne2). by eapply parsed_from. }
  destruct (l_kind (current s)) eqn:Ek; try exact Hrest;
    apply wp_ret; apply Hlit; try done; by destruct Hl2 as [[? _]|?].
Qed.

Lemma loop_step fuel : expression_ok fuel -> loop_ok fuel -> loop_ok (S fuel).
Proof.
  intros IHe IHl s minimum left Hs Hf Hleft Hend. cbn [binary_loop].
  assert (wp billing_exn (mret left) (fun n s' =>
    advanced false s s' /\ tree_ok n /\ node_start n = node_start left /\
    node_end n <= l_start (current s')) s) as Hret.
  { apply wp_ret. split_and!; auto using advanced_refl. }
  apply wp_bind, wp_current_text.
  destruct (precedence_of _) as [[o pr]|]; [|done].
  destruct (minimum <=? pr)%Z; [|done].
  apply wp_bind. eapply wp_mono; [by apply take_spec|]. cbn. intros ? s1 (-> & Ha1 & He1).
  pose proof (advanced_left_over _ _ _ Hs Ha1) as Hlo. cbn [Nat.b2n] in Hlo.
  pose proof (advanced_state _ _ _ Ha1) as Hs1. pose proof (state_ok_bounds s Hs).
  apply wp_bind. eapply wp_mono; [apply IHe; [done|lia]|]. cbn.
  intros right s2 (Ha2 & Hr & Hrs & Hre).
  pose proof (advanced_left_over _ _ _ Hs1 Ha2) as Hlo2. cbn [Nat.b2n] in Hlo2.
  eapply wp_mono; [apply IHl; [by eapply advanced_state|lia|apply binary_tree_ok; [done..|lia]|done]|].
  cbn. intros n s3 (Ha3 & Hn & Hns & Hne). split_and!; [|done..].
  exact (advanced_weaken _ _
    (advanced_trans _ _ _ _ _ (advanced_trans _ _ _ _ _ Ha1 Ha2) Ha3)).
Qed.

Lemma arguments_step fuel : expression_ok fuel -> arguments_ok fuel -> arguments_ok (S fuel).
Proof.
  intros IHe IHa s args lo Hs Hf Hargs Hord. cbn [arguments].
  apply wp_bind, wp_current_text. destruct (str_eqb _ (u ")")).
  { apply wp_ret. split_and!; auto using advanced_refl. }
  apply wp_bind. eapply wp_mono; [apply IHe; [done|lia]|]. cbn.
  intros arg s1 (Ha1 & Harg & Hst & Hend).
  pose proof (advanced_left_over _ _ _ Hs Ha1) as Hlo. cbn [Nat.b2n] in Hlo.
  pose proof (advanced_state _ _ _ Ha1) as Hs1.
  assert (Forall tree_ok (args ++ [arg])) as Hargs'.
  { apply Forall_app. split; [done|]. by apply List.Forall_cons. }
  assert (in_order lo args (node_start arg)) as Hord' by by rewrite Hst.
  apply wp_bind, wp_current_text. destruct (negb _).
  { apply wp_ret. split_and!; [by apply advanced_weaken|done|]. by apply in_order_snoc. }
  apply wp_bind. eapply wp_mono; [by apply take_spec|]. cbn. intros ? s2 (-> & Ha2 & He2).
  pose proof (advanced_left_over _ _ _ Hs1 Ha2) as Hlo2. cbn [Nat.b2n] in Hlo2.
  pose proof (state_ok_bounds s1 Hs1).
  eapply wp_mono; [apply (IHa s2 _ lo); [by eapply advanced_state|lia|done|]|].
  { apply in_order_snoc; [done|lia]. }
  cbn. intros args' s3 (Ha3 & Hargs3 & Hord3). split_and!; [|done..].
  exact (advanced_weaken _ _
    (advanced_trans _ _ _ _ _ (advanced_trans _ _ _ _ _ Ha1 Ha2) Ha3)).
Qed.

Lemma expression_step fuel :
  expression_ok fuel -> loop_ok fuel -> primary_ok fuel -> expression_ok (S fuel).
Proof.
  intros IHe IHl IHp s minimum Hs Hf. cbn [expression].
  apply wp_bind. eapply wp_mono; [by apply enter_spec|]. cbn.
  intros _ s0 (Hs0 & Hc0 & Hcur0 & Hd0).
  assert (left_over s0 = left_over s) as Hlo0 by (unfold left_over; by rewrite Hc0).
  apply wp_bind. eapply wp_mono; [apply IHp; [done|lia]|]. cbn.
  intros left s1 (Ha1 & Hleft & Hst & Hend).
  pose proof (advanced_left_over _ _ _ Hs0 Ha1) as Hlo1. cbn [Nat.b2n] in Hlo1.
  apply wp_bind. eapply wp_mono; [apply IHl; [by eapply advanced_state|lia|done|done]|]. cbn.
  intros left2 s2 (Ha2 & Hleft2 & Hst2 & Hend2).
  pose proof (advanced_trans _ _ _ _ _ Ha1 Ha2) as Ha02.
  pose proof (advanced_left_over _ _ _ Hs0 Ha02) as Hlo2. cbn [Nat.b2n orb] in Hlo2.
  pose proof (advanced_state _ _ _ Ha2) as Hs2.
  apply wp_bind, wp_current_text, wp_bind.
  assert (forall n s3, advanced true s0 s3 -> tree_ok n ->
    node_start n = l_start (current s0) -> node_end n <= l_start (current s3) ->
    wp billing_exn (leave;; mret n) (parsed s) s3) as Hleave.
  { intros n s3 (Hs3 & Hd3 & Hc3) Hn Hns Hne. apply wp_bind, wp_modify, wp_ret.
    rewrite Hcur0 in Hns. cbn in Hc3. split_and!; [|done..].
    split; [done|]. split; cbn; lia. }
  destruct (_ && _).
  2: { apply wp_ret. apply Hleave; [done|done|congruence|done]. }
  apply wp_bind. eapply wp_mono; [by apply take_spec|]. cbn. intros ? s3 (-> & Ha3 & He3).
  pose proof (advanced_left_over _ _ _ Hs2 Ha3) as Hlo3. cbn [Nat.b2n] in Hlo3.
  pose proof (advanced_state _ _ _ Ha3) as Hs3. pose proof (state_ok_bounds s2 Hs2).
  apply wp_bind. eapply wp_mono; [apply IHe; [done|lia]|]. cbn.
  intros yes s4 (Ha4 & Hyes & Hys & Hye).
  pose proof (advanced_left_over _ _ _ Hs3 Ha4) as Hlo4. cbn [Nat.b2n] in Hlo4.
  pose proof (advanced_state _ _ _ Ha4) as Hs4. pose proof (state_ok_bounds s4 Hs4).
  apply wp_bind. eapply wp_mono; [by apply expect_spec|]. cbn.
  intros ? s5 (-> & _ & Ha5 & He5).
  pose proof (advanced_left_over _ _ _ Hs4 Ha5) as Hlo5. cbn [Nat.b2n] in Hlo5.
  pose proof (advanced_state _ _ _ Ha5) as Hs5.
  apply wp_bind. eapply wp_mono; [apply IHe; [done|lia]|]. cbn.
  intros no s6 (Ha6 & Hno & Hns & Hne). apply wp_ret. apply Hleave; cbn.
  - exact (advanced_trans _ _ _ _ _ Ha02 (advanced_trans _ _ _ _ _ Ha3
      (advanced_trans _ _ _ _ _ Ha4 (advanced_trans _ _ _ _ _ Ha5 Ha6)))).
  - apply conditional_tree_ok; [done..|lia|lia].
  - congruence.
  - done.
Qed.

Lemma parser_ok fuel :
  expression_ok fuel /\ loop_ok fuel /\ primary_ok fuel /\ name_ok fuel /\ arguments_ok fuel.
Proof.
  induction fuel as [|fuel (He & Hl & Hp & Hn & Ha)].
  { unfold expression_ok, loop_ok, primary_ok, name_ok, arguments_ok.
    split_and!; intros; lia. }
  split_and!; auto using expression_step, loop_step, primary_step, name_step, arguments_step.
Qed.
End parser_facts.

Lemma match_version_bound source digits stop :
  match_version source = Some (digits, stop) -> stop <= length source.
Proof.
  unfold match_version. intros H.
  pose proof (take_drop_while is_space source) as E1.
  destruct (drop_while is_space source) as [|c rest] eqn:Ed; [done|].
  pose proof (take_drop_while is_digit rest) as E2.
  assert (length source = length (take_while is_space source)
            + S (length (take_while is_digit rest) + length (drop_while is_digit rest))) as ->.
  { rewrite <- E1 at 1. rewrite length_app. cbn. by rewrite <- length_app, E2. }
  destruct_matches. cbn. lia.
Qed.

Lemma new_parser_spec source :
  match new_parser source with
  | Ok s => state_ok source s
  | Throw e => billing_exn e
  end.
Proof.
  unfold new_parser. destruct (65536 <? _)%Z; cbn; [by eexists|].
  assert (forall c, c <= length source ->
    match ('(lexeme, s) ← next source {| cursor := c; count := 0; depth := 0; current := no_lexeme |};
           Ok {| cursor := l_end lexeme; count := count s; depth := depth s; current := lexeme |}) with
    | Ok s => state_ok source s
    | Throw e => billing_exn e
    end) as Hgen.
  { intros c Hc. set (s0 := {| cursor := c |}).
    pose proof (next_spec source s0 Hc ltac:(done)) as Hn. unfold wp in Hn.
    destruct (next source s0) as [[l s1]|e]; [|done]. cbn.
    destruct Hn as (Hl & _ & _ & Hcnt & Hle & _). split; [done|]. split; [done|]. cbn.
    rewrite Hcnt in *. unfold s0 in *. cbn in *. lia. }
  destruct (match_version source) as [[digits stop]|] eqn:Ev; cbn; [|apply Hgen; lia].
  destruct (negb _); cbn; [by eexists|]. apply Hgen. by eapply match_version_bound.
Qed.

(** Every outcome of the parser: a well-formed tree inside the text, or an
    error of the engine's own class.  In particular it never runs out of fuel. *)
Lemma parse_spec source :
  match parse source with
  | Ok ast => tree_ok ast /\ node_end ast <= length source
  | Throw e => billing_exn e
  end.
Proof.
  unfold parse. pose proof (new_parser_spec source) as Hs.
  destruct (new_parser source) as [s|e]; [|done]. cbn.
  assert (wp billing_exn (parse_method source)
            (fun n _ => tree_ok n /\ node_end n <= length source) s) as H.
  { unfold parse_method. apply wp_bind. eapply wp_mono.
    { apply (proj1 (parser_ok source parse_fuel)); [done|].
      destruct Hs as (_ & _ & Hc). unfold left_over, parse_fuel. lia. }
    cbn. intros n s' (Ha & Hn & _ & He).
    apply wp_bind, wp_get. destruct (l_kind (current s')); try by eexists.
    apply wp_ret. split; [done|]. destruct Ha as (((Hb & _) & _) & _). lia. }
  unfold wp in H. by destruct (parse_method source s) as [[n s']|e].
Qed.

Lemma parse_tree_ok source ast : parse source = Ok ast -> tree_ok ast.
Proof. intros H. pose proof (parse_spec source) as Hs. rewrite H in Hs. tauto. Qed.

(** ** Spans identify the nodes of a tree *)

Lemma in_order_elem lo l hi c :
  in_order lo l hi -> Forall tree_ok l -> c ∈ l -> lo <= node_start c /\ node_end c <= hi.
Proof.
  revert lo. induction l as [|n l IH]; intros lo; [by intros _ _ ?%elem_of_nil|].
  cbn. intros [H1 H2] [Hn Hl]%Forall_cons_iff [->|Hc]%elem_of_cons.
  - split; [done|]. eapply in_order_le; [exact H2|].
    eapply List.Forall_impl; [|exact Hl]. apply tree_ok_node.
  - destruct (tree_ok_node _ Hn) as (? & _).
    destruct (IH _ H2 Hl Hc). lia.
Qed.

Lemma tree_ok_sub_span n c :
  tree_ok n -> c ∈ children n -> node_start n <= node_start c /\ node_end c <= node_end n.
Proof.
  intros [Hn Hc]%tree_ok_children. destruct Hn as (_ & Ho & _). by apply in_order_elem.
Qed.

Lemma postorder_span n d :
  tree_ok n -> d ∈ postorder n ->
  node_start n <= node_start d /\ node_start d < node_end d /\ node_end d <= node_end n.
Proof.
  revert d. induction n as [n IH] using node_children_ind. intros d Hn Hd.
  pose proof (tree_ok_node _ Hn) as (Hlt & _).
  apply postorder_inv in Hd as [->|(c & Hc & Hd)]; [lia|].
  rewrite Forall_forall in IH. apply list_elem_of_In in Hc as Hc'.
  specialize (IH c Hc' d (tree_ok_sub _ _ Hn Hc) Hd).
  pose proof (tree_ok_sub_span _ _ Hn Hc). lia.
Qed.

(** A child's span is smaller than its parent's. *)
Lemma child_key n c : tree_ok n -> c ∈ children n ->
  node_start n < node_start c \/ node_end c < node_end n.
Proof.
  intros Hn Hc. pose proof (tree_ok_node _ Hn) as (_ & Ho & Hk).
  apply tree_ok_children in Hn as [_ Hch]. rewrite Forall_forall in Hch.
  assert (forall d, In d (children n) -> node_start d < node_end d) as Hlt.
  { intros d Hd. by destruct (tree_ok_node _ (Hch d Hd)). }
  apply list_elem_of_In in Hc.
  destruct n as [| |f args s e|o a s e|o a b s e|q y m s e]; cbn in *; try done.
  - destruct Hk as [_ Hk]. left. apply list_elem_of_In in Hc.
    enough (S s <= node_start c) by lia. eapply (in_order_elem _ _ _ c Hk); [|done].
    by apply Forall_forall.
  - destruct Hc as [->|[]]. by left.
  - pose proof (Hlt a ltac:(auto)). pose proof (Hlt b ltac:(auto)).
    destruct Hc as [->|[->|[]]]; lia.
  - pose proof (Hlt q ltac:(auto)). pose proof (Hlt y ltac:(auto)).
    pose proof (Hlt m ltac:(auto)). destruct Hc as [->|[->|[->|[]]]]; lia.
Qed.

Lemma siblings_distinct lo l hi :
  in_order lo l hi -> Forall tree_ok l ->
  Forall (fun c => NoDup (map node_key (postorder c))) l ->
  NoDup (map node_key (flat_map postorder l)).
Proof.
  revert lo. induction l as [|n l IH]; intros lo; cbn; [constructor|].
  intros [H1 H2] [Hn Hl]%Forall_cons_iff [Dn Dl]%Forall_cons_iff.
  rewrite map_app. apply list.NoDup_app. split; [done|]. split; [|by eapply IH].
  intros k. rewrite !list_elem_of_In, !in_map_iff.
  intros (d & <- & Hd) (d' & Hk & Hd').
  apply in_flat_map in Hd' as (c & Hc & Hd'). apply list_elem_of_In in Hc, Hd, Hd'.
  pose proof (postorder_span n d Hn Hd).
  pose proof (in_order_elem _ _ _ c H2 Hl Hc) as [Hs _].
  rewrite Forall_forall in Hl. apply list_elem_of_In in Hc.
  pose proof (postorder_span c d' (Hl c Hc) Hd'). unfold node_key in Hk.
  injection Hk as Hks Hke. lia.
Qed.

Lemma spans_distinct n : tree_ok n -> NoDup (map node_key (postorder n)).
Proof.
  induction n as [n IH] using node_children_ind. intros Hn.
  rewrite postorder_children, map_app. apply list.NoDup_app.
  pose proof (tree_ok_node _ Hn) as (_ & Ho & _).
  pose proof Hn as [_ Hch]%tree_ok_children.
  split.
  { eapply siblings_distinct; [exact Ho|done|]. rewrite Forall_forall in IH, Hch |- *.
    auto. }
  split; [|by apply NoDup_singleton].
  intros k. cbn [map]. rewrite list_elem_of_singleton, list_elem_of_In, in_map_iff.
  intros (d & <- & Hd) Hk. apply in_flat_map in Hd as (c & Hc & Hd).
  apply list_elem_of_In in Hc, Hd.
  pose proof (child_key n c Hn Hc). pose proof (tree_ok_sub _ _ Hn Hc) as Hcok.
  pose proof (postorder_span c d Hcok Hd). pose proof (tree_ok_sub_span _ _ Hn Hc).
  unfold node_key in Hk. injection Hk as Hks Hke. lia.
Qed.

(** In one tree, [same_node] is equality: it is the source's [===] on nodes. *)
Lemma same_node_eq n a b :
  tree_ok n -> a ∈ postorder n -> b ∈ postorder n -> same_node a b = true <-> a = b.
Proof.
  intros Hn Ha Hb. unfold same_node. rewrite bool_decide_eq_true. split; [|by intros ->].
  intros Hk. apply spans_distinct in Hn.
  apply list_elem_of_lookup in Ha as [i Hi]. apply list_elem_of_lookup in Hb as [j Hj].
  assert (i = j) as ->; [|congruence].
  eapply (NoDup_lookup _ i j (node_key a) Hn).
  - rewrite list_lookup_fmap, Hi. done.
  - rewrite list_lookup_fmap, Hj, Hk. done.
Qed.
