(* ===== verification/Grammar.v ===== *)
(** * The grammar of expressions

    A declarative grammar with the precedences of [PRECEDENCE], and the proof
    that the recursive descent of [BillingParser] accepts exactly its sentences
    and builds exactly their trees. *)

From Stdlib Require Import String.
From S2P Require Import Prelude JsNumber JsString JsText Ast Parser.

Definition literal_kind (k : LexemeKind) : bool :=
  match k with K_number _ _ | K_string _ => true | _ => false end.

(** ** The grammar

    The first argument bounds the nesting of expressions. *)

(** An expression whose operators have at least the precedence [p]; a
    conditional has the precedence 0. *)
Inductive derives : nat -> Z -> list Lexeme -> ExpressionNode -> Prop :=
| derives_conditional d q colon l1 l2 l3 c y n :
    l_text q = u "?" -> l_text colon = u ":" ->
    chain d 0 l1 c -> derives d 0 l2 y -> derives d 0 l3 n ->
    derives (S d) 0 (l1 ++ q :: l2 ++ colon :: l3) (Conditional c y n (node_start c) (node_end n))
| derives_chain d p ls n : chain d p ls n -> derives (S d) p ls n
(** Binary operators associate to the left. *)
with chain : nat -> Z -> list Lexeme -> ExpressionNode -> Prop :=
| chain_binary d p op o q l1 l2 a b :
    precedence_of (l_text op) = Some (o, q) -> (p <= q)%Z ->
    chain d q l1 a -> derives d (q + 1) l2 b ->
    chain d p (l1 ++ op :: l2) (Binary o a b (node_start a) (node_end b))
| chain_operand d p ls n : operand d ls n -> chain d p ls n
with operand : nat -> list Lexeme -> ExpressionNode -> Prop :=
| operand_number d t v i :
    l_kind t = K_number v i -> operand d [t] (Literal (LNumber v) i (l_start t) (l_end t))
| operand_string d t v :
    l_kind t = K_string v -> operand d [t] (Literal (LString v) false (l_start t) (l_end t))
| operand_nil d t :
    l_kind t = K_name -> l_text t = u "nil" ->
    operand d [t] (Literal LNull false (l_start t) (l_end t))
| operand_boolean d t b :
    l_kind t = K_name -> l_text t = (if b : bool then u "true" else u "false") ->
    operand d [t] (Literal (LBoolean b) false (l_start t) (l_end t))
| operand_variable d t v :
    l_kind t = K_name -> variable_of (l_text t) = Some v ->
    operand d [t] (Variable_ v (l_start t) (l_end t))
| operand_parens d open close ls n :
    literal_kind (l_kind open) = false -> l_text open = u "(" -> l_text close = u ")" ->
    derives d 0 ls n ->
    operand d (open :: ls ++ [close]) (with_span n (l_start open) (l_end close))
| operand_unary d t o ls n :
    literal_kind (l_kind t) = false -> unary_of (l_text t) = Some o -> derives d 7 ls n ->
    operand d (t :: ls) (Unary o n (l_start t) (node_end n))
| operand_call d t open close f arity ls args :
    l_kind t = K_name -> function_of (l_text t) = Some (f, arity) ->
    l_text open = u "(" -> l_text close = u ")" -> separated d ls args ->
    length args = arity ->
    operand d (t :: open :: ls ++ [close]) (Call f args (l_start t) (l_end close))
(** Arguments; a comma may follow the last one. *)
with separated : nat -> list Lexeme -> list ExpressionNode -> Prop :=
| separated_nil d : separated d [] []
| separated_last d ls a : derives d 0 ls a -> separated d ls [a]
| separated_comma d comma l1 l2 a args :
    l_text comma = u "," -> derives d 0 l1 a -> separated d l2 args ->
    separated d (l1 ++ comma :: l2) (a :: args).

Lemma chain_weaken d p p' ls n : (p' <= p)%Z -> chain d p ls n -> chain d p' ls n.
Proof.
  intros Hp. inversion 1; subst; [|by apply chain_operand]. eapply chain_binary; eauto; lia.
Qed.

(** ** Runs of the lexer *)

(** Taking the lexemes [ls] leads from the current lexeme [l] to [l']. *)
Inductive run_of (source : str) : Lexeme -> list Lexeme -> Lexeme -> Prop :=
| run_nil l : run_of source l [] l
| run_cons l next ls l' :
    lexeme_at source (skip_space source (l_end l)) = Ok next -> run_of source next ls l' ->
    run_of source l (l :: ls) l'.

Lemma run_app source l ls l' ls' l'' :
  run_of source l ls l' -> run_of source l' ls' l'' -> run_of source l (ls ++ ls') l''.
Proof. induction 1; intros H'; [done|]. cbn. eapply run_cons; eauto. Qed.

Lemma run_split source ls1 ls2 : forall l l'',
  run_of source l (ls1 ++ ls2) l'' ->
  exists l', run_of source l ls1 l' /\ run_of source l' ls2 l''.
Proof.
  induction ls1 as [|t ls1 IH]; intros l l''; cbn.
  - intros H. exists l. split; [constructor|done].
  - inversion 1; subst. match goal with H : run_of _ _ (ls1 ++ ls2) _ |- _ => apply IH in H as (m & ? & ?) end.
    exists m. split; [|done]. by econstructor.
Qed.

Lemma run_head source l t ls l' : run_of source l (t :: ls) l' -> t = l.
Proof. by inversion 1. Qed.

(** The texts a grammatical expression accepts. *)
Definition start_of (source : str) (start : nat) : Prop :=
  match match_version source with
  | Some (digits, stop) => digits = u "1" /\ start = stop
  | None => start = 0
  end.

Definition grammatical (source : str) (ast : ExpressionNode) : Prop :=
  (Z.of_nat (length source) <= 65536)%Z /\
  exists start first ls last,
    start_of source start /\ lexeme_at source (skip_space source start) = Ok first /\
    run_of source first ls last /\ l_kind last = K_end /\
    (Z.of_nat (length ls) < 10000)%Z /\
    derives 128 0 ls ast.

Section parser.
Context (source : str).

Lemma wp_text (good : exn -> Prop) (Q : str -> ParserState -> Prop) s :
  Q (l_text (current s)) s -> wp good current_text Q s.
Proof. done. Qed.

(** ** The parser accepts only sentences *)

Definition lexed (l : Lexeme) : Prop := exists pos, lexeme_at source pos = Ok l.
Definition ready (s : ParserState) : Prop := cursor s = l_end (current s) /\ lexed (current s).

(** The parser took the lexemes [ls]. *)
Definition moved (s : ParserState) (ls : list Lexeme) (s' : ParserState) : Prop :=
  run_of source (current s) ls (current s') /\ ready s' /\
  count s' = (count s + Z.of_nat (length ls))%Z /\ depth s' = depth s.

Lemma moved_refl s : ready s -> moved s [] s.
Proof. intros Hs. split; [constructor|]. split; [done|]. split; [cbn; lia|done]. Qed.

Lemma moved_app s1 l1 s2 l2 s3 : moved s1 l1 s2 -> moved s2 l2 s3 -> moved s1 (l1 ++ l2) s3.
Proof.
  intros (R1 & _ & C1 & D1) (R2 & H2 & C2 & D2). split; [by eapply run_app|].
  split; [done|]. rewrite length_app. split; [lia|congruence].
Qed.

Abbreviation may m Q s := (wp (fun _ : exn => True) m Q s).

Lemma take_may s :
  ready s -> may (take_ source) (fun t s' => t = current s /\ moved s [t] s') s.
Proof.
  intros Hs. unfold take_, next. repeat wp_step; [done|]. apply wp_lift.
  destruct (lexeme_at source _) as [l|e] eqn:El; [|done]. repeat wp_step. cbn.
  split; [done|]. destruct Hs as [Hs _]. rewrite Hs in El.
  split; [eapply run_cons; [exact El|constructor]|]. split; [split; [done|by eexists]|]. done.
Qed.

Lemma expect_may s text :
  ready s ->
  may (expect source text) (fun t s' => t = current s /\ l_text t = text /\ moved s [t] s') s.
Proof.
  intros Hs. unfold expect. repeat wp_step; [done|]. bool_to_prop.
  match goal with H : str_eqb _ _ = true |- _ => apply str_eqb_eq in H end.
  eapply wp_mono; [by apply take_may|]. cbn. intros t s' (-> & ?). auto.
Qed.

(** Levels of nesting left. *)
Definition room (s : ParserState) : nat := Z.to_nat (128 - depth s).

Lemma moved_room s ls s' : moved s ls s' -> room s' = room s.
Proof. intros (_ & _ & _ & Hd). unfold room. by rewrite Hd. Qed.

Lemma moved_ready s ls s' : moved s ls s' -> ready s'.
Proof. by intros (_ & ? & _). Qed.

(** The operand of an operator of precedence at least [minimum] ends here. *)
Definition stops (minimum : Z) (l : Lexeme) : Prop :=
  forall o q, precedence_of (l_text l) = Some (o, q) -> (q < minimum)%Z.

Definition expression_may (fuel : nat) : Prop := forall s minimum, ready s ->
  may (expression source fuel minimum) (fun n s' => exists ls,
    moved s ls s' /\ derives (room s) minimum ls n /\ stops minimum (current s')) s.
Definition loop_may (fuel : nat) : Prop := forall s minimum left l1, ready s ->
  chain (room s) minimum l1 left ->
  (forall o q, precedence_of (l_text (current s)) = Some (o, q) -> (minimum <= q)%Z ->
     chain (room s) q l1 left) ->
  may (binary_loop source fuel minimum left) (fun n s' => exists ls,
    moved s ls s' /\ chain (room s) minimum (l1 ++ ls) n /\ stops minimum (current s')) s.
Definition primary_may (fuel : nat) : Prop := forall s, ready s ->
  may (primary source fuel) (fun n s' => exists ls, moved s ls s' /\ operand (room s) ls n) s.
Definition name_may (fuel : nat) : Prop := forall s token, ready s -> l_kind token = K_name ->
  may (name_primary source fuel token) (fun n s' => exists ls,
    moved s ls s' /\ operand (room s) (token :: ls) n) s.
Definition arguments_may (fuel : nat) : Prop := forall s args, ready s ->
  may (arguments source fuel args) (fun args' s' => exists ls more,
    args' = args ++ more /\ moved s ls s' /\ separated (room s) ls more) s.

Lemma loop_may_step fuel : expression_may fuel -> loop_may fuel -> loop_may (S fuel).
Proof.
  intros IHe IHl s minimum left l1 Hs Hc Hq. cbn [binary_loop].
  assert (stops minimum (current s) ->
    may (mret left) (fun n s' => exists ls,
      moved s ls s' /\ chain (room s) minimum (l1 ++ ls) n /\ stops minimum (current s')) s) as Hret.
  { intros Hst. apply wp_ret. exists []. rewrite app_nil_r. auto using moved_refl. }
  apply wp_bind, wp_text.
  destruct (precedence_of (l_text (current s))) as [[o q]|] eqn:Ep.
  2: { apply Hret. intros o q Ho. congruence. }
  destruct (Z.leb_spec minimum q) as [Hle|Hlt].
  2: { apply Hret. intros o' q' Ho. assert (q' = q) as -> by congruence. done. }
  clear Hret. specialize (Hq o q eq_refl Hle).
  apply wp_bind. eapply wp_mono; [by apply take_may|]. cbn. intros op s1 (-> & M1).
  apply wp_bind. eapply wp_mono; [by apply IHe, (moved_ready _ _ _ M1)|]. cbn.
  intros right s2 (l2 & M2 & Hr & Hst). rewrite (moved_room _ _ _ M1) in Hr.
  pose proof (moved_app _ _ _ _ _ M1 M2) as M12.
  eapply wp_mono; [apply (IHl s2 minimum _ (l1 ++ current s :: l2))|].
  - by eapply moved_ready.
  - rewrite (moved_room _ _ _ M12). by eapply chain_binary.
  - intros o' q' Ep' Hle'. rewrite (moved_room _ _ _ M12).
    apply Hst in Ep'. eapply chain_binary; [exact Ep| |done|done]. lia.
  - cbn. intros n s3 (l3 & M3 & Hn & Hst3). rewrite (moved_room _ _ _ M12) in Hn.
    exists (current s :: l2 ++ l3). split; [exact (moved_app _ _ _ _ _ M12 M3)|].
    rewrite <- app_assoc in Hn. done.
Qed.

Lemma name_may_step fuel : arguments_may fuel -> name_may (S fuel).
Proof.
  intros IH s token Hs Hk. cbn [name_primary].
  assert (forall n, operand (room s) [token] n ->
    may (mret n) (fun n s' => exists ls, moved s ls s' /\ operand (room s) (token :: ls) n) s) as Hret.
  { intros n Hn. apply wp_ret. exists []. auto using moved_refl. }
  destruct (str_eqb _ (u "nil")) eqn:En.
  { apply str_eqb_eq in En. by apply Hret, operand_nil. }
  destruct (str_eqb _ (u "true") || _) eqn:Eb.
  { apply Hret, operand_boolean; [done|]. destruct (str_eqb _ (u "true")) eqn:Et.
    - by apply str_eqb_eq.
    - cbn in Eb. by apply str_eqb_eq. }
  apply wp_bind, wp_text. destruct (str_eqb _ (u "(")) eqn:Eo; cbn [negb].
  2: { destruct (variable_of _) as [v|] eqn:Ev; [|done]. by apply Hret, operand_variable. }
  apply str_eqb_eq in Eo. destruct (function_of _) as [[f arity]|] eqn:Ef; [|done].
  apply wp_bind. eapply wp_mono; [by apply take_may|]. cbn. intros open s1 (-> & M1).
  apply wp_bind. eapply wp_mono; [apply IH, (moved_ready _ _ _ M1)|]. cbn.
  intros args s2 (ls & more & -> & M2 & Hsep). cbn [app].
  apply wp_bind. eapply wp_mono; [apply expect_may, (moved_ready _ _ _ M2)|]. cbn.
  intros close s3 (-> & Hclose & M3).
  apply wp_bind, wp_throw_when; [done|]. intros Ha. apply wp_ret.
  apply negb_false_iff, Nat.eqb_eq in Ha.
  exists (current s :: ls ++ [current s2]). split.
  - exact (moved_app _ _ _ _ _ (moved_app _ _ _ _ _ M1 M2) M3).
  - rewrite (moved_room _ _ _ M1) in Hsep. by eapply operand_call.
Qed.

Lemma primary_may_step fuel : expression_may fuel -> name_may fuel -> primary_may (S fuel).
Proof.
  intros IHe IHn s Hs. cbn [primary]. apply wp_bind.
  eapply wp_mono; [by apply take_may|]. cbn. intros t s1 (-> & M1).
  assert (forall n, operand (room s) [current s] n ->
    may (mret n) (fun n s' => exists ls, moved s ls s' /\ operand (room s) ls n) s1) as Hret.
  { intros n Hn. apply wp_ret. by exists [current s]. }
  assert (literal_kind (l_kind (current s)) = false ->
    may (if str_eqb (l_text (current s)) (u "(") then
           node ← expression source fuel 0; close ← expect source (u ")");
           mret (with_span node (l_start (current s)) (l_end close))
         else match unary_of (l_text (current s)) with
              | Some operator =>
                  operand ← expression source fuel 7;
                  mret (Unary operator operand (l_start (current s)) (node_end operand))
              | None =>
                  match l_kind (current s) with
                  | K_name => name_primary source fuel (current s)
                  | _ => throwing (billing_error_at D_syntax (l_text (current s)) (l_start (current s)))
                  end
              end) (fun n s' => exists ls, moved s ls s' /\ operand (room s) ls n) s1) as Hother.
  { intros Hk. destruct (str_eqb _ (u "(")) eqn:Ep.
    - apply str_eqb_eq in Ep. apply wp_bind.
      eapply wp_mono; [apply IHe, (moved_ready _ _ _ M1)|]. cbn. intros n s2 (ls & M2 & Hn & _).
      apply wp_bind. eapply wp_mono; [apply expect_may, (moved_ready _ _ _ M2)|]. cbn.
      intros close s3 (-> & Hc & M3). apply wp_ret. rewrite (moved_room _ _ _ M1) in Hn.
      exists (current s :: ls ++ [current s2]).
      split; [exact (moved_app _ _ _ _ _ (moved_app _ _ _ _ _ M1 M2) M3)|]. by apply operand_parens.
    - destruct (unary_of _) as [o|] eqn:Eu.
      + apply wp_bind. eapply wp_mono; [apply IHe, (moved_ready _ _ _ M1)|]. cbn.
        intros n s2 (ls & M2 & Hn & _). apply wp_ret. rewrite (moved_room _ _ _ M1) in Hn.
        exists (current s :: ls). split; [exact (moved_app _ _ _ _ _ M1 M2)|]. by apply operand_unary.
      + destruct (l_kind (current s)) eqn:Ek; try done.
        eapply wp_mono; [apply IHn; [by eapply moved_ready|done]|]. cbn.
        intros n s2 (ls & M2 & Hn). rewrite (moved_room _ _ _ M1) in Hn.
        exists (current s :: ls). by split; [exact (moved_app _ _ _ _ _ M1 M2)|]. }
  destruct (l_kind (current s)) eqn:Ek; try (by apply Hother);
    [by apply Hret, operand_number|by apply Hret, operand_string].
Qed.

Lemma arguments_may_step fuel : expression_may fuel -> arguments_may fuel -> arguments_may (S fuel).
Proof.
  intros IHe IHa s args Hs. cbn [arguments]. apply wp_bind, wp_text.
  destruct (str_eqb _ (u ")")).
  { apply wp_ret. exists [], []. rewrite app_nil_r. split; [done|]. split; [by apply moved_refl|constructor]. }
  apply wp_bind. eapply wp_mono; [by apply IHe|]. cbn beta. intros a s1 (l1 & M1 & Ha & _).
  apply wp_bind, wp_text. destruct (str_eqb _ (u ",")) eqn:Ec; cbn [negb].
  2: { apply wp_ret. exists l1, [a]. split; [done|]. split; [done|]. by apply separated_last. }
  apply str_eqb_eq in Ec. apply wp_bind. eapply wp_mono; [by apply take_may, (moved_ready _ _ _ M1)|].
  cbn. intros comma s2 (-> & M2).
  eapply wp_mono; [apply IHa, (moved_ready _ _ _ M2)|]. cbn.
  intros args' s3 (ls & more & -> & M3 & Hsep).
  pose proof (moved_app _ _ _ _ _ M1 M2) as M12.
  rewrite (moved_room _ _ _ M12) in Hsep.
  exists (l1 ++ current s1 :: ls), (a :: more). split; [by rewrite <- app_assoc|]. split.
  - pose proof (moved_app _ _ _ _ _ M12 M3) as M. by rewrite <- app_assoc in M.
  - by apply separated_comma.
Qed.

Lemma expression_may_step fuel :
  expression_may fuel -> loop_may fuel -> primary_may fuel -> expression_may (S fuel).
Proof.
  intros IHe IHl IHp s minimum Hs. cbn [expression]. apply wp_bind. unfold enter.
  apply wp_bind, wp_get, wp_bind, wp_put, wp_throw_when; [done|]. intros Hd.
  set (s0 := {| depth := depth s + 1 |}).
  assert (room s = S (room s0)) as Hroom by (unfold room, s0; cbn [depth]; lia).
  apply wp_bind. eapply wp_mono; [by apply (IHp s0)|]. cbn. intros left s1 (l1 & M1 & H1).
  pose proof (moved_room _ _ _ M1) as R1.
  apply wp_bind. eapply wp_mono; [apply (IHl s1 minimum left l1)|].
  { by eapply moved_ready. }
  { rewrite R1. by apply chain_operand. }
  { intros. rewrite R1. by apply chain_operand. }
  cbn. intros left2 s2 (l2 & M2 & H2 & St2). rewrite R1 in H2.
  pose proof (moved_app _ _ _ _ _ M1 M2) as M02.
  assert (forall n s3 ls, moved s0 ls s3 -> derives (S (room s0)) minimum ls n ->
    stops minimum (current s3) ->
    may (leave;; mret n) (fun n s' => exists ls,
      moved s ls s' /\ derives (room s) minimum ls n /\ stops minimum (current s')) s3) as Hleave.
  { intros n s3 ls (R & Hr & C & D) Hn St. apply wp_bind, wp_modify, wp_ret. exists ls.
    rewrite Hroom. split; [|done]. split; [exact R|]. split; [exact Hr|]. split; [exact C|].
    cbn. rewrite D. cbn. lia. }
  apply wp_bind, wp_text, wp_bind. destruct (_ && _) eqn:Ec.
  2: { apply wp_ret. apply (Hleave left2 s2 (l1 ++ l2)); [done| |done]. by apply derives_chain. }
  apply andb_prop in Ec as [Hmin%Z.eqb_eq Eq%str_eqb_eq]. subst minimum.
  apply wp_bind. eapply wp_mono; [apply take_may, (moved_ready _ _ _ M2)|]. cbn.
  intros q s3 (-> & M3). pose proof (moved_app _ _ _ _ _ M02 M3) as M03.
  apply wp_bind. eapply wp_mono; [apply IHe, (moved_ready _ _ _ M3)|]. cbn.
  intros yes s4 (l4 & M4 & H4 & _). rewrite (moved_room _ _ _ M03) in H4.
  pose proof (moved_app _ _ _ _ _ M03 M4) as M04.
  apply wp_bind. eapply wp_mono; [apply expect_may, (moved_ready _ _ _ M4)|]. cbn.
  intros colon s5 (-> & Ht & M5). pose proof (moved_app _ _ _ _ _ M04 M5) as M05.
  apply wp_bind. eapply wp_mono; [apply IHe, (moved_ready _ _ _ M5)|]. cbn.
  intros no s6 (l6 & M6 & H6 & St6). rewrite (moved_room _ _ _ M05) in H6.
  pose proof (moved_app _ _ _ _ _ M05 M6) as M06. apply wp_ret.
  eapply Hleave; [exact M06| |done]. rewrite <- !app_assoc. cbn [app].
  rewrite (app_assoc l1). by apply derives_conditional.
Qed.

Lemma parser_may fuel :
  expression_may fuel /\ loop_may fuel /\ primary_may fuel /\ name_may fuel /\ arguments_may fuel.
Proof.
  induction fuel as [|fuel (He & Hl & Hp & Hn & Ha)].
  { by unfold expression_may, loop_may, primary_may, name_may, arguments_may. }
  auto 10 using expression_may_step, loop_may_step, primary_may_step, name_may_step, arguments_may_step.
Qed.

(** ** The parser accepts all sentences *)

Lemma run_fun l ls l1 l2 : run_of source l ls l1 -> run_of source l ls l2 -> l1 = l2.
Proof.
  intros H. revert l2. induction H as [l|l next ls l1 Hn _ IH]; intros l2; inversion 1; subst; [done|].
  apply IH. congruence.
Qed.

Lemma precedence_bounds text o q : precedence_of text = Some (o, q) -> (1 <= q <= 6)%Z.
Proof.
  unfold precedence_of. intros [Hin _]%find_some.
  repeat (destruct Hin as [[= <- <-]|Hin]; [lia|]). done.
Qed.

Lemma literal_not_close l : lexed l -> literal_kind (l_kind l) = true -> l_text l <> u ")".
Proof.
  intros [pos Hl]. unfold lexeme_at in Hl. destruct (drop pos source) as [|c rest] eqn:Er; [by injection Hl as <-|].
  destruct (scan_decimal (c :: rest)) as [[d t]|] eqn:Ed.
  { apply scan_decimal_sound in Ed as [_ Hok]. repeat (destruct (_ : bool) in Hl; [done|]).
    injection Hl as <-. cbn. intros _ Ht.
    destruct (decimal_text_head d 41%N [] Hok Ht); done. }
  destruct (N.eqb c quote_char || N.eqb c apostrophe) eqn:Eq.
  { destruct (scan_string pos c rest (S pos) []) as [[v stop]|] eqn:Es; [|done].
    injection Hl as <-. cbn. intros _. unfold slice. rewrite Er.
    pose proof (scan_string_spec pos c rest (S pos) []) as Hs. rewrite Es in Hs.
    destruct (stop - pos) as [|k] eqn:Ek; [lia|]. cbn. intros [= -> _]. done. }
  destruct (is_name_start c); [by injection Hl as <-|].
  destruct (scan_operator _); [by injection Hl as <-|done].
Qed.

Lemma end_text l : lexed l -> l_kind l = K_end -> l_text l = [].
Proof.
  intros [pos Hl]. unfold lexeme_at in Hl. destruct (drop pos source) as [|c rest]; [by injection Hl as <-|].
  destruct (scan_decimal _) as [[d t]|].
  { repeat (destruct (_ : bool) in Hl; [done|]). by injection Hl as <-. }
  destruct (_ || _); [destruct (scan_string _ _ _ _ _) as [[v stop]|]; [by injection Hl as <-|done]|].
  destruct (is_name_start c); [by injection Hl as <-|].
  destruct (scan_operator _); [by injection Hl as <-|done].
Qed.

(** The operators and operands behind the first operand of a chain, with
    precedences that do not rise. *)
Inductive loops (d : nat) (minimum : Z) : ExpressionNode -> list Lexeme -> ExpressionNode -> Prop :=
| loops_nil a : loops d minimum a [] a
| loops_cons a op o q l2 b ls n :
    precedence_of (l_text op) = Some (o, q) -> (minimum <= q)%Z -> derives d (q + 1) l2 b ->
    (forall next rest, ls = next :: rest ->
       is_Some (precedence_of (l_text next)) /\ stops (q + 1) next) ->
    loops d minimum (Binary o a b (node_start a) (node_end b)) ls n ->
    loops d minimum a (op :: l2 ++ ls) n.

Lemma loops_weaken d p p' a ls n : (p' <= p)%Z -> loops d p a ls n -> loops d p' a ls n.
Proof. intros Hp. induction 1; econstructor; eauto; lia. Qed.

Lemma loops_snoc d q a ls n op o l2 b :
  loops d q a ls n -> precedence_of (l_text op) = Some (o, q) -> derives d (q + 1) l2 b ->
  loops d q a (ls ++ op :: l2) (Binary o n b (node_start n) (node_end b)).
Proof.
  intros Hl Hop Hb. induction Hl as [a|a op' o' q' l2' b' ls n Hop' Hq' Hb' Hnext Hl IH]; cbn [app].
  - rewrite <- (app_nil_r l2). eapply loops_cons; eauto; [lia|by intros|constructor].
  - rewrite <- app_assoc. eapply loops_cons; eauto.
    intros next rest E. destruct ls as [|t ls]; [|by injection E as <- _; eapply Hnext].
    injection E as <- <-. split; [by eexists|]. intros o'' q'' E. rewrite Hop in E.
    injection E as <- <-. lia.
Qed.

Lemma chain_spine d p ls n :
  chain d p ls n -> exists l0 a l1, ls = l0 ++ l1 /\ operand d l0 a /\ loops d p a l1 n.
Proof.
  induction 1 as [d p op o q l1 l2 a b Hop Hq _ (l0 & a0 & l1' & -> & Ha & Hl) Hb|d p ls n Hn].
  - exists l0, a0, (l1' ++ op :: l2). rewrite <- app_assoc. split; [done|]. split; [done|].
    eapply loops_weaken; [exact Hq|]. by apply loops_snoc.
  - exists ls, n, []. rewrite app_nil_r. split; [done|]. split; [done|constructor].
Qed.

(** What a sentence can begin with. *)
Definition begins (ls : list Lexeme) : Prop :=
  exists t rest, ls = t :: rest /\ (literal_kind (l_kind t) = true \/ l_text t <> u ")").

Lemma operand_begins d ls n : operand d ls n -> begins ls.
Proof.
  destruct 1 as [d t v i Hk|d t v Hk|d t Hk Ht|d t b Hk Ht|d t v Hk Ht|d t close ls n Hk Ht Hc Hn
    |d t o ls n Hk Ht Hn|d t open close f arity ls args Hk Ht Ho Hc Hs Ha];
    eexists _, _; (split; [reflexivity|]); try (left; by rewrite Hk); right.
  - by rewrite Ht.
  - rewrite Ht. by destruct b.
  - intros E. by rewrite E in Ht.
  - by rewrite Ht.
  - intros E. by rewrite E in Ht.
  - intros E. by rewrite E in Ht.
Qed.

Lemma begins_app l1 l2 : begins l1 -> begins (l1 ++ l2).
Proof. intros (t & rest & -> & Ht). by exists t, (rest ++ l2). Qed.

Lemma derives_begins d p ls n : derives d p ls n -> begins ls.
Proof.
  assert (forall d p ls n, chain d p ls n -> begins ls) as Hchain.
  { clear. intros d p ls n (l0 & a & l1 & -> & Ha & _)%chain_spine.
    by eapply begins_app, operand_begins. }
  destruct 1; eauto using begins_app.
Qed.

Abbreviation must m Q s := (wp (fun _ : exn => False) m Q s).

(** The sentence [ls] begins at the current lexeme and ends before [l]. *)
Definition ahead (s : ParserState) (ls : list Lexeme) (l : Lexeme) : Prop :=
  ready s /\ run_of source (current s) ls l /\ (count s + Z.of_nat (length ls) <= 10000)%Z.

Lemma ahead_moved s ls l s' : ahead s ls l -> moved s ls s' -> current s' = l.
Proof. intros (_ & Hr & _) (Hr' & _). by eapply run_fun. Qed.

Lemma ahead_split s l1 l2 l :
  ahead s (l1 ++ l2) l -> exists m, ahead s l1 m /\
    match l2 with [] => m = l | t :: _ => m = t end /\
    forall s', moved s l1 s' -> current s' = m /\ ahead s' l2 l.
Proof.
  intros (Hs & Hr & Hc). rewrite length_app in Hc. apply run_split in Hr as (m & H1 & H2).
  exists m. split; [split; [done|]; split; [done|lia]|].
  split; [destruct l2; by inversion H2|].
  intros s' (Hr' & Hs' & Hc' & _). assert (current s' = m) as Hm by by eapply run_fun.
  split; [done|]. split; [done|]. rewrite Hm. split; [done|lia].
Qed.

Lemma ahead_head s t ls l : ahead s (t :: ls) l -> t = current s.
Proof. intros (_ & Hr & _). by eapply run_head. Qed.

Lemma take_must s t ls l :
  ahead s (t :: ls) l ->
  must (take_ source) (fun t' s' => t' = t /\ moved s [t] s' /\ ahead s' ls l) s.
Proof.
  intros Ha. pose proof (ahead_head _ _ _ _ Ha) as ->. destruct Ha as ([Hs Hx] & Hr & Hc).
  inversion Hr as [|? nx ? ? Hn Hr']; subst. cbn [length] in Hc.
  unfold take_, next. apply wp_bind, wp_get. apply wp_bind, wp_bind, wp_get.
  apply wp_bind, wp_throw_when; [lia|]. intros _.
  apply wp_bind, wp_lift. rewrite Hs, Hn. apply wp_bind, wp_put, wp_ret.
  apply wp_bind, wp_get, wp_bind, wp_put, wp_ret. cbn [current count depth cursor].
  assert (ready {| cursor := l_end nx; count := count s + 1; depth := depth s; current := nx |})
    as Hready by (split; [done|by eexists]).
  split; [done|]. split.
  - split; [eapply run_cons; [exact Hn|constructor]|]. split; [done|]. done.
  - split; [done|]. split; [done|]. cbn. lia.
Qed.

Lemma expect_must s t ls l text :
  ahead s (t :: ls) l -> l_text t = text ->
  must (expect source text) (fun t' s' => t' = t /\ moved s [t] s' /\ ahead s' ls l) s.
Proof.
  intros Ha Ht. unfold expect. apply wp_bind, wp_get, wp_bind, wp_throw_when.
  - rewrite <- (ahead_head _ _ _ _ Ha), Ht, str_eqb_refl. done.
  - intros _. by apply take_must.
Qed.

Definition expression_must (fuel : nat) : Prop := forall d s minimum ls n l,
  derives d minimum ls n -> d <= room s -> ahead s ls l ->
  stops minimum l -> l_text l <> u "(" -> (minimum = 0%Z -> l_text l <> u "?") ->
  4 * length ls <= fuel ->
  must (expression source fuel minimum) (fun n' s' => n' = n /\ moved s ls s') s.
Definition loop_must (fuel : nat) : Prop := forall d s minimum left ls n l,
  loops d minimum left ls n -> d <= room s -> ahead s ls l ->
  stops minimum l -> l_text l <> u "(" -> 4 * length ls + 1 <= fuel ->
  must (binary_loop source fuel minimum left) (fun n' s' => n' = n /\ moved s ls s') s.
Definition primary_must (fuel : nat) : Prop := forall d s ls n l,
  operand d ls n -> d <= room s -> ahead s ls l -> l_text l <> u "(" ->
  4 * length ls <= S fuel ->
  must (primary source fuel) (fun n' s' => n' = n /\ moved s ls s') s.
Definition name_must (fuel : nat) : Prop := forall d s t ls n l,
  operand d (t :: ls) n -> l_kind t = K_name -> l_text t <> u "(" -> unary_of (l_text t) = None ->
  d <= room s -> ahead s ls l -> l_text l <> u "(" -> 4 * length ls + 2 <= fuel ->
  must (name_primary source fuel t) (fun n' s' => n' = n /\ moved s ls s') s.
Definition arguments_must (fuel : nat) : Prop := forall d s args ls more l,
  separated d ls more -> d <= room s -> ahead s ls l -> l_text l = u ")" ->
  4 * length ls + 1 <= fuel ->
  must (arguments source fuel args) (fun args' s' => args' = args ++ more /\ moved s ls s') s.

Lemma ahead_nil s l : ahead s [] l -> current s = l /\ ready s.
Proof. intros (Hs & Hr & _). by inversion Hr. Qed.

Lemma close_stops l p : l_text l = u ")" -> stops p l.
Proof. intros E o q. by rewrite E. Qed.

Lemma loop_must_step fuel : expression_must fuel -> loop_must fuel -> loop_must (S fuel).
Proof.
  intros IHe IHl d s minimum left ls n l Hl Hd Ha Hst Hop Hf. cbn [binary_loop].
  apply wp_bind, wp_text. destruct Hl as [a|a op o q l2 b ls n Ho Hq Hb Hnext Hl].
  - apply ahead_nil in Ha as [Hc Hr]. rewrite Hc.
    destruct (precedence_of (l_text l)) as [[o q]|] eqn:Ep; [|apply wp_ret; auto using moved_refl].
    apply Hst in Ep. replace (minimum <=? q)%Z with false by lia. apply wp_ret. auto using moved_refl.
  - rewrite <- (ahead_head _ _ _ _ Ha), Ho. replace (minimum <=? q)%Z with true by lia.
    apply wp_bind. eapply wp_mono; [by apply (take_must _ op)|]. cbn beta.
    intros ? s1 (-> & M1 & A1). apply ahead_split in A1 as (m & A1 & Hm & Hrest).
    cbn [length] in Hf. rewrite length_app in Hf. pose proof (precedence_bounds _ _ _ Ho).
    assert (stops (q + 1) m /\ l_text m <> u "(") as [Hsm Hpm].
    { destruct ls as [|t ls].
      - subst m. split; [|done]. intros o' q' Hq'. apply Hst in Hq'. lia.
      - subst m. destruct (Hnext _ _ eq_refl) as [[x Hx] Hs]. split; [done|].
        intros E. by rewrite E in Hx. }
    apply wp_bind. eapply wp_mono; [apply (IHe d s1 (q + 1)%Z l2 b m)|];
      [done|by rewrite (moved_room _ _ _ M1)|done|done|done|lia|lia|]. cbn beta.
    intros b' s2 (-> & M2). destruct (Hrest s2 M2) as [_ A2].
    pose proof (moved_app _ _ _ _ _ M1 M2) as M12.
    eapply wp_mono; [apply (IHl d s2 minimum _ ls n l)|];
      [done|by rewrite (moved_room _ _ _ M12)|done|done|done|lia|]. cbn beta.
    intros n' s3 (-> & M3). split; [done|]. exact (moved_app _ _ _ _ _ M12 M3).
Qed.

Lemma arguments_must_step fuel : expression_must fuel -> arguments_must fuel -> arguments_must (S fuel).
Proof.
  intros IHe IHa d s args ls more l Hsep Hd Ha Hl Hf. cbn [arguments].
  assert (forall l1 a m, derives d 0 l1 a -> ahead s l1 m -> stops 0 m -> l_text m <> u "(" ->
    l_text m <> u "?" -> 4 * length l1 <= fuel ->
    str_eqb (l_text (current s)) (u ")") = false /\
    must (expression source fuel 0) (fun n' s' => n' = a /\ moved s l1 s') s) as Harg.
  { intros l1 a m Hn Ha1 Hsm Hm1 Hm2 Hf1. split; [|by eapply IHe].
    apply derives_begins in Hn as (t & rest & -> & Ht). pose proof (ahead_head _ _ _ _ Ha1) as ->.
    apply not_true_iff_false. rewrite str_eqb_eq. destruct Ht as [Ht|Ht]; [|done].
    destruct Ha1 as ([_ Hlex] & _). by apply literal_not_close. }
  apply wp_bind, wp_text. destruct Hsep as [d|d ls a Hn|d comma l1 l2 a more Hc Hn Hsep].
  - apply ahead_nil in Ha as [Hcur Hr]. rewrite Hcur, Hl, str_eqb_refl. apply wp_ret.
    rewrite app_nil_r. auto using moved_refl.
  - destruct (Harg ls a l) as [Hh Hm]; [done|done|by apply close_stops|by rewrite Hl..|lia|].
    rewrite Hh. apply wp_bind. eapply wp_mono; [exact Hm|]. cbn beta. intros a' s1 (-> & M1).
    apply wp_bind, wp_text. rewrite (ahead_moved _ _ _ _ Ha M1), Hl. by apply wp_ret.
  - rewrite length_app in Hf. cbn [length] in Hf. apply ahead_split in Ha as (m & A1 & -> & Hrest).
    destruct (Harg l1 a comma) as [Hh Hm]; [done|done|intros o q; by rewrite Hc|by rewrite Hc..|lia|].
    rewrite Hh. apply wp_bind. eapply wp_mono; [exact Hm|]. cbn beta. intros a' s1 (-> & M1).
    destruct (Hrest s1 M1) as [Hcur A2]. apply wp_bind, wp_text. rewrite Hcur, Hc, str_eqb_refl.
    cbn [negb]. apply wp_bind. eapply wp_mono; [by apply (take_must _ comma)|]. cbn beta.
    intros ? s2 (-> & M2 & A3). pose proof (moved_app _ _ _ _ _ M1 M2) as M12.
    eapply wp_mono; [apply (IHa d s2 (args ++ [a]) l2 more l)|];
      [done|by rewrite (moved_room _ _ _ M12)|done|done|lia|]. cbn beta.
    intros args' s3 (-> & M3). rewrite <- app_assoc. split; [done|].
    pose proof (moved_app _ _ _ _ _ M12 M3) as M. by rewrite <- app_assoc in M.
Qed.

Lemma name_must_step fuel : arguments_must fuel -> name_must (S fuel).
Proof.
  intros IHa d s t ls n l Hn Hk Hp Hu Hd Ha Hl Hf. cbn [name_primary].
  assert (forall n : ExpressionNode, ls = [] ->
    must (mret n) (fun (n' : ExpressionNode) s' => n' = n /\ moved s ls s') s) as Hret.
  { intros n0 ->. apply ahead_nil in Ha as [_ Hr]. apply wp_ret. auto using moved_refl. }
  inversion Hn as [? ? v i Hk'|? ? v Hk'|? ? Hk' Ht|? ? b Hk' Ht|? ? v Hk' Hv|? ? close ls' n' Hk' Ht Hc Hd'
    |? ? o ls' n' Hk' Ho Hn'|? ? open close f arity ls' args Hk' Hfun Hopen Hclose Hsep Har]; subst;
    try congruence.
  - rewrite Ht, str_eqb_refl. by apply Hret.
  - rewrite Ht. destruct b; by apply Hret.
  - assert (str_eqb (l_text t) (u "nil") = false /\
      str_eqb (l_text t) (u "true") || str_eqb (l_text t) (u "false") = false) as [-> ->].
    { split; [|apply orb_false_iff; split]; apply not_true_iff_false; rewrite str_eqb_eq;
        intros E; by rewrite E in Hv. }
    apply wp_bind, wp_text. apply ahead_nil in Ha as [-> _].
    replace (str_eqb (l_text l) (u "(")) with false
      by (symmetry; apply not_true_iff_false; by rewrite str_eqb_eq).
    cbn [negb]. rewrite Hv. by apply Hret.
  - assert (str_eqb (l_text t) (u "nil") = false /\
      str_eqb (l_text t) (u "true") || str_eqb (l_text t) (u "false") = false) as [-> ->].
    { split; [|apply orb_false_iff; split]; apply not_true_iff_false; rewrite str_eqb_eq;
        intros E; by rewrite E in Hfun. }
    clear Hret. apply wp_bind, wp_text. rewrite <- (ahead_head _ _ _ _ Ha), Hopen, str_eqb_refl.
    cbn [negb]. rewrite Hfun. apply wp_bind.
    eapply wp_mono; [by apply (take_must _ open)|]. cbn beta. intros ? s1 (-> & M1 & A1).
    cbn [length] in Hf. rewrite length_app in Hf. cbn [length] in Hf.
    apply ahead_split in A1 as (m & A1 & -> & Hrest).
    apply wp_bind. eapply wp_mono; [apply (IHa d s1 [] ls' args close)|];
      [done|by rewrite (moved_room _ _ _ M1)|done|done|lia|]. cbn beta.
    intros args' s2 (-> & M2). destruct (Hrest s2 M2) as [_ A2]. cbn [app].
    apply wp_bind. eapply wp_mono; [by apply (expect_must _ close)|]. cbn beta.
    intros ? s3 (-> & M3 & _). apply wp_bind, wp_throw_when.
    { rewrite Nat.eqb_refl. done. }
    intros _. apply wp_ret. split; [done|].
    exact (moved_app _ _ _ _ _ (moved_app _ _ _ _ _ M1 M2) M3).
Qed.

Lemma primary_must_step fuel : expression_must fuel -> name_must fuel -> primary_must (S fuel).
Proof.
  intros IHe IHn d s ls n l Hn Hd Ha Hl Hf. cbn [primary].
  assert (exists t rest, ls = t :: rest) as (t & rest & ->).
  { destruct (operand_begins _ _ _ Hn) as (t & rest & -> & _). eauto. }
  cbn [length] in Hf. apply wp_bind. eapply wp_mono; [by apply (take_must _ t)|]. cbn beta.
  intros ? s1 (-> & M1 & A1).
  assert (forall n : ExpressionNode, rest = [] ->
    must (mret n) (fun (n' : ExpressionNode) s' => n' = n /\ moved s (t :: rest) s') s1) as Hret.
  { intros n0 ->. by apply wp_ret. }
  assert (l_kind t = K_name -> l_text t <> u "(" -> unary_of (l_text t) = None ->
    must (if str_eqb (l_text t) (u "(") then
           node ← expression source fuel 0; close ← expect source (u ")");
           mret (with_span node (l_start t) (l_end close))
         else match unary_of (l_text t) with
              | Some operator =>
                  operand ← expression source fuel 7;
                  mret (Unary operator operand (l_start t) (node_end operand))
              | None => name_primary source fuel t
              end) (fun n' s' => n' = n /\ moved s (t :: rest) s') s1) as Hname.
  { intros Hk Hp Hu. replace (str_eqb (l_text t) (u "(")) with false
      by (symmetry; apply not_true_iff_false; by rewrite str_eqb_eq). rewrite Hu.
    eapply wp_mono; [apply (IHn d s1 t rest n l)|];
      [done|done|done|done|by rewrite (moved_room _ _ _ M1)|done|done|lia|]. cbn beta.
    intros n' s2 (-> & M2). split; [done|]. exact (moved_app _ _ _ _ _ M1 M2). }
  inversion Hn as [? ? v i Hk|? ? v Hk|? ? Hk Ht|? ? b Hk Ht|? ? v Hk Hv|? ? close ls' n' Hk Ht Hc Hd'
    |? ? o ls' n' Hk Ho Hn'|? ? open close f arity ls' args Hk Hfun Hopen Hclose Hsep Har]; subst.
  - rewrite Hk. by apply Hret.
  - rewrite Hk. by apply Hret.
  - rewrite Hk. apply Hname; [done|by rewrite Ht|by rewrite Ht].
  - rewrite Hk. apply Hname; [done|rewrite Ht; by destruct b|rewrite Ht; by destruct b].
  - rewrite Hk. apply Hname; [done| |].
    + intros E. by rewrite E in Hv.
    + clear -Hv. apply find_some in Hv as [_ Hv%str_eqb_eq]. rewrite <- Hv. by destruct v.
  - clear Hname. rewrite length_app in Hf. cbn [length] in Hf.
    apply ahead_split in A1 as (m & A1 & -> & Hrest).
    rewrite Ht. change (str_eqb (u "(") (u "(")) with true. cbv iota.
    destruct (l_kind t) eqn:Ek; try discriminate Hk; apply wp_bind;
      (eapply wp_mono; [apply (IHe d s1 0%Z ls' n' close)|];
        [done|by rewrite (moved_room _ _ _ M1)|done|by apply close_stops|by rewrite Hc..|lia|]);
      cbn beta; intros n0 s2 (-> & M2); destruct (Hrest s2 M2) as [_ A2];
      apply wp_bind; (eapply wp_mono; [by apply (expect_must _ close)|]); cbn beta;
      intros ? s3 (-> & M3 & _); apply wp_ret; (split; [done|]);
      exact (moved_app _ _ _ _ _ (moved_app _ _ _ _ _ M1 M2) M3).
  - clear Hname. replace (str_eqb (l_text t) (u "(")) with false.
    2: { symmetry. apply not_true_iff_false. rewrite str_eqb_eq. intros E. by rewrite E in Ho. }
    rewrite Ho. destruct (l_kind t) eqn:Ek; try discriminate Hk; apply wp_bind;
      (eapply wp_mono; [apply (IHe d s1 7%Z rest n' l)|];
        [done|by rewrite (moved_room _ _ _ M1)|done| |done|lia|lia|];
        [intros o' q' Hq'; apply precedence_bounds in Hq'; lia|]);
      cbn beta; intros n0 s2 (-> & M2); apply wp_ret; (split; [done|]);
      exact (moved_app _ _ _ _ _ M1 M2).
  - rewrite Hk. apply Hname; [done| |].
    + intros E. by rewrite E in Hfun.
    + clear -Hfun. apply find_some in Hfun as [_ Hfun%str_eqb_eq]. rewrite <- Hfun.
      cbn [fst]. destruct f; try reflexivity.
      match goal with x : TimeFunction |- _ => by destruct x end.
Qed.

(** The operand and the loop of [expression]. *)
Lemma chain_must fuel : loop_must fuel -> primary_must fuel ->
  forall d s minimum ls n l B (k : ExpressionNode -> parsing B) Q,
  chain d minimum ls n -> d <= room s -> ahead s ls l ->
  stops minimum l -> l_text l <> u "(" -> 4 * length ls <= S fuel ->
  (forall s', moved s ls s' -> current s' = l -> must (k n) Q s') ->
  must (left ← primary source fuel; left ← binary_loop source fuel minimum left; k left) Q s.
Proof.
  intros IHl IHp d s minimum ls n l B k Q Hc Hd Ha Hst Hop Hf Hk. pose proof Ha as Ha0.
  apply chain_spine in Hc as (l0 & a & l1 & -> & Hop0 & Hl). rewrite length_app in Hf.
  apply ahead_split in Ha as (m & A0 & Hm & Hrest).
  assert (l_text m <> u "(") as Hpm.
  { destruct Hl as [?|? op o q l2 b ls' n' Ho _ _ _ _]; subst m; [done|].
    intros E. by rewrite E in Ho. }
  destruct (operand_begins _ _ _ Hop0) as (t & rest & -> & _). cbn [length] in Hf.
  apply wp_bind. eapply wp_mono; [apply (IHp d s (t :: rest) a m); [done|done|done|done|cbn; lia]|].
  cbn beta. intros ? s1 (-> & M1). destruct (Hrest s1 M1) as [_ A1].
  apply wp_bind. eapply wp_mono; [apply (IHl d s1 minimum a l1 n l)|];
    [done|by rewrite (moved_room _ _ _ M1)|done|done|done|lia|]. cbn beta.
  intros ? s2 (-> & M2). pose proof (moved_app _ _ _ _ _ M1 M2) as M.
  apply Hk; [done|]. by eapply ahead_moved.
Qed.

Lemma expression_must_step fuel :
  expression_must fuel -> loop_must fuel -> primary_must fuel -> expression_must (S fuel).
Proof.
  intros IHe IHl IHp d s minimum ls n l Hn Hd Ha Hst Hop Hq Hf. cbn [expression].
  assert (exists d', d = S d') as [d' ->] by (destruct Hn; eauto).
  assert (depth s + 1 <= 128)%Z as Hdepth by (unfold room in Hd; lia).
  apply wp_bind. unfold enter.
  apply wp_bind, wp_get, wp_bind, wp_put, wp_throw_when; [lia|]. intros _.
  set (s0 := {| depth := depth s + 1 |}).
  assert (d' <= room s0) as Hroom by (unfold room, s0 in *; cbn [depth] in *; lia).
  assert (ahead s0 ls l) as A0 by exact Ha. clear Ha.
  assert (forall s', moved s0 ls s' ->
    must (leave;; mret n) (fun n' s'' => n' = n /\ moved s ls s'') s') as Hleave.
  { intros s' (R & Hr & C & D). apply wp_bind, wp_modify, wp_ret. split; [done|].
    split; [exact R|]. split; [exact Hr|]. split; [exact C|]. cbn. rewrite D. cbn. lia. }
  inversion Hn as [? q colon l1 l2 l3 c y m Hqt Hct Hc Hy Hm|? ? ? ? Hc]; subst.
  - rewrite length_app in Hf. cbn [length] in Hf. rewrite length_app in Hf. cbn [length] in Hf.
    apply ahead_split in A0 as (? & A1 & -> & Hrest1).
    eapply (chain_must fuel IHl IHp d' s0 0%Z l1 c q); [done|done|done| |by rewrite Hqt|lia|].
    { intros o p. by rewrite Hqt. }
    intros s2 M2 Hcur2. destruct (Hrest1 s2 M2) as [_ A2].
    apply wp_bind, wp_text, wp_bind. rewrite Hcur2, Hqt.
    change (is_conditional (u "?")) with true. cbn [Z.eqb andb].
    apply wp_bind. eapply wp_mono; [by apply (take_must _ q)|]. cbn beta.
    intros ? s3 (-> & M3 & A3). apply ahead_split in A3 as (? & A3 & -> & Hrest3).
    pose proof (moved_app _ _ _ _ _ M2 M3) as M03.
    apply wp_bind. eapply wp_mono; [apply (IHe d' s3 0%Z l2 y colon)|];
      [done|by rewrite (moved_room _ _ _ M03)|done|intros o p; by rewrite Hct|by rewrite Hct..|lia|].
    cbn beta. intros ? s4 (-> & M4). destruct (Hrest3 s4 M4) as [_ A4].
    pose proof (moved_app _ _ _ _ _ M03 M4) as M04.
    apply wp_bind. eapply wp_mono; [by apply (expect_must _ colon)|]. cbn beta.
    intros ? s5 (-> & M5 & A5). pose proof (moved_app _ _ _ _ _ M04 M5) as M05.
    apply wp_bind. eapply wp_mono; [apply (IHe d' s5 0%Z l3 m l)|];
      [done|by rewrite (moved_room _ _ _ M05)|done|done|done|auto|lia|].
    cbn beta. intros ? s6 (-> & M6). pose proof (moved_app _ _ _ _ _ M05 M6) as M06.
    apply wp_ret. apply Hleave. rewrite <- !app_assoc in M06. exact M06.
  - eapply (chain_must fuel IHl IHp d' s0 minimum ls n l); [done|done|done|done|done|lia|].
    intros s2 M2 Hcur2. apply wp_bind, wp_text, wp_bind. rewrite Hcur2.
    assert ((minimum =? 0)%Z && is_conditional (l_text l) = false) as ->.
    { destruct (Z.eqb_spec minimum 0) as [Hm|]; [|done]. cbn [andb]. unfold is_conditional.
      apply not_true_iff_false. rewrite str_eqb_eq. auto. }
    apply wp_ret. by apply Hleave.
Qed.

Lemma parser_must fuel :
  expression_must fuel /\ loop_must fuel /\ primary_must fuel /\ name_must fuel /\ arguments_must fuel.
Proof.
  induction fuel as [|fuel (He & Hl & Hp & Hn & Ha)].
  - unfold expression_must, loop_must, primary_must, name_must, arguments_must. split_and!.
    + intros d s minimum ls n l Hn ? ? ? ? ? Hf.
      destruct (derives_begins _ _ _ _ Hn) as (? & ? & -> & _). cbn in Hf. lia.
    + intros. lia.
    + intros d s ls n l Hn ? ? ? Hf.
      destruct (operand_begins _ _ _ Hn) as (? & ? & -> & _). cbn in Hf. lia.
    + intros. lia.
    + intros. lia.
  - auto 10 using expression_must_step, loop_must_step, primary_must_step, name_must_step,
      arguments_must_step.
Qed.

(** ** The constructor and [parse] *)

Lemma new_parser_may s :
  new_parser source = Ok s ->
  (Z.of_nat (length source) <= 65536)%Z /\ ready s /\ count s = 1%Z /\ depth s = 0%Z /\
  exists start, start_of source start /\
    lexeme_at source (skip_space source start) = Ok (current s).
Proof.
  unfold new_parser, start_of. intros H. apply result_bind_ok in H as ([] & H1 & H).
  apply throw_when_ok in H1. apply result_bind_ok in H as (c & Hc & H).
  apply result_bind_ok in H as ([l s1] & Hn & [= <-]).
  unfold next in Hn. apply method_bind_ok in Hn as (s2 & s3 & [= <- <-] & Hn).
  apply method_bind_ok in Hn as ([] & s4 & Ht & Hn). apply method_throw_when_ok in Ht as [_ ->].
  apply method_bind_ok in Hn as (l' & s5 & Hl & Hn). apply lift_ok in Hl as [Hl ->].
  apply method_bind_ok in Hn as ([] & s6 & [= <-] & [= <- <-]). cbn in *.
  split; [lia|]. split; [split; [done|by eexists]|]. split; [done|]. split; [done|].
  exists c. split; [|done]. destruct (match_version source) as [[digits stop]|].
  - apply result_bind_ok in Hc as ([] & Hv & [= <-]). apply throw_when_ok in Hv.
    apply negb_false_iff, str_eqb_eq in Hv. done.
  - by injection Hc as <-.
Qed.

Lemma new_parser_must start first :
  (Z.of_nat (length source) <= 65536)%Z -> start_of source start ->
  lexeme_at source (skip_space source start) = Ok first ->
  new_parser source =
    Ok {| cursor := l_end first; count := 1; depth := 0; current := first |}.
Proof.
  intros Hl Hst Hf. unfold new_parser, start_of in *.
  replace (65536 <? Z.of_nat (length source))%Z with false by lia. cbn [throw_when mbind result_bind].
  assert (('(lexeme, s) ← next source {| cursor := start; count := 0; depth := 0; current := no_lexeme |};
           Ok {| cursor := l_end lexeme; count := count s; depth := depth s; current := lexeme |}) =
          Ok {| cursor := l_end first; count := 1; depth := 0; current := first |}) as Hgoal.
  { assert (next source {| cursor := start; count := 0; depth := 0; current := no_lexeme |} =
      Ok (first, {| cursor := l_end first; count := 1; depth := 0; current := no_lexeme |})) as ->;
      [|reflexivity].
    unfold next, mbind, method_bind, get, method_throw_when, lift.
    change (10000 <? _)%Z with false. cbv beta iota. cbn [cursor]. by rewrite Hf. }
  destruct (match_version source) as [[digits stop]|].
  - destruct Hst as [-> ->]. exact Hgoal.
  - by subst start.
Qed.

Lemma parse_sound ast : parse source = Ok ast -> grammatical source ast.
Proof.
  unfold parse, grammatical. intros H. apply result_bind_ok in H as (s & Hs & H).
  pose proof (new_parser_spec source) as Hok. rewrite Hs in Hok.
  apply new_parser_may in Hs as (Hl & Hr & Hc & Hd & start & Hst & Hlex).
  pose proof (proj1 (parser_may parse_fuel) s 0%Z Hr) as He. unfold wp in He.
  pose proof (proj1 (parser_ok source parse_fuel) s 0%Z Hok
    ltac:(unfold left_over, parse_fuel; lia)) as Hp. unfold wp in Hp.
  apply result_bind_ok in H as ([n s2] & H & [= <-]). unfold parse_method in H.
  apply method_bind_ok in H as (n' & s' & Ee & H). rewrite Ee in He, Hp.
  apply method_bind_ok in H as (s3 & s4 & [= <- <-] & H).
  destruct He as (ls & (R & Hr' & C & D) & Hn & _).
  destruct Hp as (((_ & _ & Hcount) & _) & _).
  split; [done|]. exists start, (current s), ls, (current s').
  destruct (l_kind (current s')) eqn:Ek; try discriminate H. injection H as <- <-.
  unfold room in Hn. rewrite Hd in Hn. split_and!; try done. lia.
Qed.

Lemma parse_complete ast : grammatical source ast -> parse source = Ok ast.
Proof.
  intros (Hl & start & first & ls & last & Hst & Hf & Hr & Hk & Hc & Hd).
  unfold parse. rewrite (new_parser_must start first) by done. cbn [mbind result_bind].
  set (s := {| cursor := l_end first |}).
  assert (ahead s ls last) as Ha.
  { split; [split; [done|by eexists]|]. split; [done|]. cbn. lia. }
  assert (l_text last = []) as Ht.
  { apply end_text; [|done]. clear -Hr Hf. assert (lexed first) as Hx by by eexists. clear Hf.
    induction Hr as [|l nx ls l' Hn Hr IH]; [done|]. apply IH. by eexists. }
  pose proof (proj1 (parser_must parse_fuel) 128 s 0%Z ls ast last Hd) as He.
  assert (must (parse_method source) (fun n _ => n = ast) s) as Hm.
  { unfold parse_method. apply wp_bind. eapply wp_mono; [apply He|].
    - unfold room, s. cbn. lia.
    - done.
    - intros o q. by rewrite Ht.
    - by rewrite Ht.
    - by rewrite Ht.
    - unfold parse_fuel. lia.
    - cbn beta. intros n s' (-> & M). apply wp_bind, wp_get.
      rewrite (ahead_moved _ _ _ _ Ha M), Hk. by apply wp_ret. }
  unfold wp in Hm. destruct (parse_method source s) as [[n s']|]; [|done]. cbn. by subst.
Qed.
End parser.
