(* ===== verification/Compile.v ===== *)
(** * Type check, fixed-price check and compilation of an expression

    [billing-expression/parser.ts], from [checkExpressionTypes] to the end of
    the file.  JavaScript's [Map] and [===] on nodes are modelled by the node's
    span (see [node_key]). *)

From Stdlib Require Import String.
From stdpp Require Import sets.
From S2P Require Import Prelude JsNumber JsString Ast Parser.

(** ** [checkExpressionTypes] *)

Inductive ExpressionType : Type := T_number | T_string | T_boolean | T_nil | T_dynamic.

#[export] Instance type_eq_dec : EqDecision ExpressionType.
Proof. solve_decision. Defined.

Definition type_text (t : ExpressionType) : str :=
  match t with
  | T_number => u "number" | T_string => u "string" | T_boolean => u "boolean"
  | T_nil => u "nil" | T_dynamic => u "dynamic"
  end.

(** [new Map<ExpressionNode, ExpressionType>()] *)
Definition TypeMap : Type := list ((nat * nat) * ExpressionType).

(** The check of one operand, given what [types.get(child)] returned. *)
Definition require_actual (actual : option ExpressionType) (child : ExpressionNode)
    (expected : ExpressionType) : outcome unit :=
  throw_when (negb (bool_decide (actual = Some expected))
              && negb (bool_decide (actual = Some T_dynamic)))
    (billing_error_at D_type (type_text expected ++ u " operand") (node_start child)).

Definition requireType (types : TypeMap) (child : ExpressionNode) (expected : ExpressionType)
  : outcome unit :=
  require_actual (assoc_get (node_key child) types) child expected.

(** [args[i]], where using [undefined] as a node throws. *)
Definition argument (args : list ExpressionNode) (i : nat) : outcome ExpressionNode :=
  match args !! i with Some a => Ok a | None => Throw undefined_property end.

Definition is_time (f : BillingFunction) : bool :=
  match f with Fn_time _ => true | _ => false end.

Definition literal_type (v : LiteralValue) : ExpressionType :=
  match v with
  | LNull => T_nil | LNumber _ => T_number | LString _ => T_string | LBoolean _ => T_boolean
  end.

Section check_node.
(** [types_get] is [types.get], [require] is [requireType]. *)
Context (types_get : ExpressionNode -> option ExpressionType)
        (require : ExpressionNode -> ExpressionType -> outcome unit).

(** The visitor's body up to [types.set(node, result)]. *)
Definition node_type (node : ExpressionNode) : outcome ExpressionType :=
  match node with
  | Literal value _ _ _ => Ok (literal_type value)
  | Variable_ _ _ _ => Ok T_number
  | Unary operator operand _ _ =>
      let result := if bool_decide (operator = Un_not) then T_boolean else T_number in
      _ ← require operand result; Ok result
  | Conditional condition yes no _ _ =>
      _ ← require condition T_boolean;
      if bool_decide (types_get yes = types_get no)
      then Ok (default T_dynamic (types_get yes)) else Ok T_dynamic
  | Binary operator lhs rhs _ _ =>
      match operator with
      | Op_and | Op_or =>
          _ ← require lhs T_boolean; _ ← require rhs T_boolean; Ok T_boolean
      | Op_eq | Op_ne | Op_lt | Op_le | Op_gt | Op_ge => Ok T_boolean
      | _ =>
          if bool_decide (operator = Op_add)
             && bool_decide (types_get lhs = Some T_string)
             && bool_decide (types_get rhs = Some T_string)
          then Ok T_string
          else _ ← require lhs T_number; _ ← require rhs T_number; Ok T_number
      end
  | Call name args _ _ =>
      _ ← (if bool_decide (name = Fn_param) || bool_decide (name = Fn_header)
              || bool_decide (name = Fn_u) || is_time name
           then a ← argument args 0; require a T_string
           else Ok tt);
      match name with
      | Fn_header => Ok T_string
      | Fn_has => b ← argument args 1; _ ← require b T_string; Ok T_boolean
      | Fn_tier =>
          a ← argument args 0; _ ← require a T_string;
          b ← argument args 1; _ ← require b T_number; Ok T_number
      | Fn_time _ => Ok T_number
      | Fn_fixed | Fn_min | Fn_max | Fn_abs | Fn_ceil | Fn_floor =>
          _ ← fold_result (fun _ arg => require arg T_number) tt args; Ok T_number
      | Fn_param | Fn_u => Ok T_dynamic
      end
  end.
End check_node.

Definition type_visitor (types : TypeMap) (node : ExpressionNode) : outcome TypeMap :=
  result ← node_type (fun n => assoc_get (node_key n) types) (requireType types) node;
  Ok (assoc_set (node_key node) result types).

Definition checkExpressionTypes (ast : ExpressionNode) : outcome unit :=
  _ ← visitExpression type_visitor ast []; Ok tt.

(** ** [validateFixedPricingTree] *)

Definition has_function (f : BillingFunction) (l : list BillingFunction) : bool :=
  bool_decide (f ∈ l).

Definition containsPricingMarker (node : ExpressionNode) : outcome bool :=
  d ← expressionDependencies node;
  Ok (has_function Fn_tier (functions d) || has_function Fn_fixed (functions d)).

Definition fixed_pricing_detail : str :=
  u "Use tier(name, fixed(amount)) with a finite, non-negative numeric literal; combine pricing branches only with conditions and request multipliers.".

Definition fixed_pricing_error (node : ExpressionNode) : exn :=
  billing_error_at D_type fixed_pricing_detail (node_start node).

(** One turn of the loop over the two operand orders: whether [factor] may
    multiply a price. *)
Definition pricing_factor (rules : list CompiledRule) (factor : ExpressionNode) : outcome bool :=
  match factor with
  | Variable_ Var_image_count _ _ => Ok true
  | _ =>
      match find (fun candidate => same_node (cr_node candidate) factor) rules with
      | Some rule =>
          if num_geb (cr_multiplier rule) zero
          then marked ← containsPricingMarker (cr_condition rule); Ok (negb marked)
          else Ok false
      | None => Ok false
      end
  end.

(** [amount] of [fixed(amount)] is a literal that can be charged. *)
Definition fixed_amount_ok (amount : ExpressionNode) : bool :=
  match amount with
  | Literal (LNumber value) _ _ _ =>
      num_geb value zero && num_is_finite (num_mul value million)
  | _ => false
  end.

Section validate.
Context (rules : list CompiledRule).

Definition validate_tier (node : ExpressionNode) (args : list ExpressionNode) : outcome unit :=
  name ← argument args 0;
  marked ← containsPricingMarker name;
  if (marked : bool) then Throw (fixed_pricing_error node)
  else
    price ← argument args 1;
    match price with
    | Call Fn_fixed fixed_args _ _ =>
        amount ← argument fixed_args 0;
        if fixed_amount_ok amount then Ok tt else Throw (fixed_pricing_error node)
    | _ =>
        marked ← containsPricingMarker price;
        if (marked : bool) then Throw (fixed_pricing_error node) else Ok tt
    end.

Fixpoint validateFixedPricingTree (node : ExpressionNode) : outcome unit :=
  match node with
  | Conditional condition yes no _ _ =>
      marked ← containsPricingMarker condition;
      if (marked : bool) then Throw (fixed_pricing_error node)
      else _ ← validateFixedPricingTree yes; validateFixedPricingTree no
  | Binary Op_mul lhs rhs _ _ =>
      by_right ← pricing_factor rules rhs;
      if (by_right : bool) then validateFixedPricingTree lhs
      else
        by_left ← pricing_factor rules lhs;
        if (by_left : bool) then validateFixedPricingTree rhs
        else Throw (fixed_pricing_error node)
  | Call Fn_tier args _ _ => validate_tier node args
  | _ => Throw (fixed_pricing_error node)
  end.
End validate.

(** ** [compileBillingExpression] *)

Definition is_request_function (f : BillingFunction) : bool :=
  match f with Fn_param | Fn_header => true | _ => is_time f end.

(** The visitor that collects [condition ? multiplier : 1] with a condition
    on the request or on time. *)
Definition rule_visitor (source : str) (rules : list CompiledRule) (node : ExpressionNode)
  : outcome (list CompiledRule) :=
  match node with
  | Conditional condition (Literal (LNumber multiplier) _ _ _) (Literal (LNumber no) _ _ _) _ _ =>
      if num_eqb no one then
        calls ← expressionDependencies condition;
        if existsb is_request_function (functions calls) then
          Ok (rules ++ [{| cr_node := node; cr_condition := condition;
                           cr_multiplier := multiplier;
                           cr_cond := slice source (node_start condition) (node_end condition) |}])
        else Ok rules
      else Ok rules
  | _ => Ok rules
  end.

(** The body of the [try] block. *)
Definition compile_body (source : str) : outcome CompiledBillingExpression :=
  ast ← parse source;
  _ ← checkExpressionTypes ast;
  dependencies ← expressionDependencies ast;
  requestRules ← visitExpression (rule_visitor source) ast [];
  _ ← (if has_function Fn_fixed (functions dependencies)
       then validateFixedPricingTree requestRules ast else Ok tt);
  Ok (Compiled source ast (variables dependencies) (functions dependencies) requestRules).

(** The result without the cache. *)
Definition compile (source : str) : CompilationResult :=
  match compile_body source with
  | Ok c => inl c
  | Throw e => inr (expressionFailure e)
  end.

(** [compiledCache], in insertion order: the oldest entry first. *)
Definition CompiledCache : Type := list (str * CompilationResult).

Definition compileBillingExpression (cache : CompiledCache) (source : str)
  : CompilationResult * CompiledCache :=
  match assoc_get source cache with
  | Some cached => (cached, cache)
  | None =>
      let result := compile source in
      let cache := if (128 <=? length cache)%nat then tail cache else cache in
      (result, assoc_set source result cache)
  end.

(** The second components of [BILLING_FUNCTIONS]. *)
Definition arity (f : BillingFunction) : nat :=
  match f with Fn_tier | Fn_has | Fn_min | Fn_max => 2 | _ => 1 end.

Lemma arity_spec f k : (f, k) ∈ BILLING_FUNCTIONS <-> k = arity f.
Proof.
  split.
  - rewrite list_elem_of_In. cbn. intros H.
    repeat destruct H as [H|H]; try (injection H as <- <-; reflexivity). done.
  - intros ->. apply (bool_decide_unpack _). destruct f as [| | | | | |[]| | | | |]; reflexivity.
Qed.

(** ** The typing discipline, stated on the tree *)

(** An operand of type [actual] may stand where [expected] is required. *)
Definition fits (actual expected : ExpressionType) : bool :=
  bool_decide (actual = expected) || bool_decide (actual = T_dynamic).

Definition infer_call (name : BillingFunction) (ts : list ExpressionType)
  : option ExpressionType :=
  match name, ts with
  | Fn_param, [a] | Fn_u, [a] => if fits a T_string then Some T_dynamic else None
  | Fn_header, [a] => if fits a T_string then Some T_string else None
  | Fn_time _, [a] => if fits a T_string then Some T_number else None
  | Fn_has, [_; b] => if fits b T_string then Some T_boolean else None
  | Fn_tier, [a; b] => if fits a T_string && fits b T_number then Some T_number else None
  | Fn_fixed, [a] | Fn_abs, [a] | Fn_ceil, [a] | Fn_floor, [a] =>
      if fits a T_number then Some T_number else None
  | Fn_min, [a; b] | Fn_max, [a; b] =>
      if fits a T_number && fits b T_number then Some T_number else None
  | _, _ => None
  end.

(** The type of a node from the types of its children. *)
Definition infer_node (n : ExpressionNode) (ts : list ExpressionType) : option ExpressionType :=
  match n, ts with
  | Literal value _ _ _, [] => Some (literal_type value)
  | Variable_ _ _ _, [] => Some T_number
  | Unary Un_not _ _ _, [a] => if fits a T_boolean then Some T_boolean else None
  | Unary _ _ _ _, [a] => if fits a T_number then Some T_number else None
  | Conditional _ _ _ _ _, [c; y; m] =>
      if fits c T_boolean then Some (if bool_decide (y = m) then y else T_dynamic) else None
  | Binary operator _ _ _ _, [a; b] =>
      match operator with
      | Op_and | Op_or =>
          if fits a T_boolean && fits b T_boolean then Some T_boolean else None
      | Op_eq | Op_ne | Op_lt | Op_le | Op_gt | Op_ge => Some T_boolean
      | _ =>
          if bool_decide (operator = Op_add) && bool_decide (a = T_string)
             && bool_decide (b = T_string)
          then Some T_string
          else if fits a T_number && fits b T_number then Some T_number else None
      end
  | Call name _ _ _, ts => infer_call name ts
  | _, _ => None
  end.

Fixpoint infer (n : ExpressionNode) : option ExpressionType :=
  ts ← match n with
       | Literal _ _ _ _ | Variable_ _ _ _ => Some []
       | Call _ args _ _ =>
           (fix go (l : list ExpressionNode) : option (list ExpressionType) :=
              match l with
              | [] => Some []
              | a :: l => t ← infer a; ts ← go l; Some (t :: ts)
              end) args
       | Unary _ a _ _ => t ← infer a; Some [t]
       | Binary _ a b _ _ => t ← infer a; t' ← infer b; Some [t; t']
       | Conditional c y m _ _ =>
           t ← infer c; t' ← infer y; t'' ← infer m; Some [t; t'; t'']
       end;
  infer_node n ts.

Lemma infer_children n : infer n = map_option infer (children n) ≫= infer_node n.
Proof.
  destruct n as [| |f args s e|o a s e|o a b s e|c y m s e]; try reflexivity.
  - cbn [infer children]. f_equal. induction args as [|a args IH]; [done|].
    cbn. by rewrite IH.
  - cbn [infer children map_option]. by destruct (infer a), (infer b).
  - cbn [infer children map_option]. by destruct (infer c), (infer y), (infer m).
Qed.

Lemma require_actual_fits t c e :
  require_actual (Some t) c e =
  if fits t e then Ok tt
  else Throw (billing_error_at D_type (type_text e ++ u " operand") (node_start c)).
Proof. unfold require_actual, fits. destruct t, e; reflexivity. Qed.

Section typing_step.
Context (get : ExpressionNode -> option ExpressionType).
Let require c e := require_actual (get c) c e.

Definition typed_as (r : outcome ExpressionType) (t : option ExpressionType) : Prop :=
  match t with Some t => r = Ok t | None => exists e, r = Throw e /\ billing_exn e end.

Lemma require_known c e t : get c = Some t -> require c e = require_actual (Some t) c e.
Proof. unfold require. by intros ->. Qed.

Ltac known :=
  repeat match goal with
  | H : get ?c = Some _ |- context [get ?c] => rewrite H
  | |- context [bool_decide (?a = ?b)] =>
      destruct (bool_decide_reflect (a = b)); try congruence
  | H : get ?c = Some _ |- context [require ?c _] =>
      rewrite (require_known c _ _ H), require_actual_fits
  | |- context [if fits ?a ?b then _ else _] => destruct (fits a b)
  end;
  try first [reflexivity | eexists; split; [reflexivity | by eexists]].

Lemma node_type_infer n ts :
  node_ok n -> Forall2 (fun c t => get c = Some t) (children n) ts ->
  typed_as (node_type get require n) (infer_node n ts).
Proof.
  intros (_ & _ & Hn) Hts.
  destruct n as [v i s e|v s e|f args s e|o a s e|o a b s e|c y m s e]; cbn [children] in Hts;
    [.. | idtac]; decompose_Forall_hyps; try reflexivity.
  - destruct Hn as [Ha%arity_spec _]. pose proof (Forall2_length Hts) as Hl.
    destruct f; cbn in Ha; destruct args as [|a [|b [|]]]; try done; decompose_Forall_hyps;
      cbn; known.
  - destruct o; cbn; known.
  - destruct o; cbn; known.
  - cbn; known.
Qed.
End typing_step.

(** Keys of the nodes of a forest. *)
Definition keys (l : list ExpressionNode) : list (nat * nat) := map node_key l.

Lemma keys_app l k : keys (l ++ k) = keys l ++ keys k.
Proof. apply map_app. Qed.

Lemma keys_self c : node_key c ∈ keys (postorder c).
Proof. apply list_elem_of_In, in_map, list_elem_of_In, postorder_self. Qed.

(** What visiting the nodes [l] does to the map, when [ts] are the types
    inferred for the roots [roots]. *)
Definition types_after (types : TypeMap) (l roots : list ExpressionNode)
    (ts : option (list ExpressionType)) : Prop :=
  match ts with
  | Some ts => exists types',
      fold_result type_visitor types l = Ok types' /\
      Forall2 (fun c t => assoc_get (node_key c) types' = Some t) roots ts /\
      forall k, k ∉ keys l -> assoc_get k types' = assoc_get k types
  | None => exists e, fold_result type_visitor types l = Throw e /\ billing_exn e
  end.

Lemma types_after_forest l : forall types,
  NoDup (keys (flat_map postorder l)) ->
  Forall (fun c => forall types, types_after types (postorder c) [c] (t ← infer c; Some [t])) l ->
  types_after types (flat_map postorder l) l (map_option infer l).
Proof.
  induction l as [|c l IH]; intros types Hd Hl.
  { exists types. cbn. split_and!; auto. }
  apply Forall_cons_iff in Hl as [Hc Hl]. cbn [flat_map map_option] in Hd |- *.
  rewrite keys_app in Hd. apply list.NoDup_app in Hd as (_ & Hdisj & Hd).
  specialize (Hc types). destruct (infer c) as [t|]; cbn in Hc |- *; unfold types_after.
  - destruct Hc as (types1 & E1 & Ht & Hf1). apply Forall2_cons_1 in Ht as [Ht _].
    specialize (IH types1 Hd Hl). rewrite fold_result_app, E1. cbn.
    destruct (map_option infer l) as [ts|]; [|exact IH].
    destruct IH as (types2 & E2 & Hts & Hf2). exists types2. cbn. split; [done|]. split.
    + constructor; [|done]. rewrite Hf2; [done|]. apply Hdisj, keys_self.
    + intros k Hk. rewrite keys_app, not_elem_of_app in Hk. destruct Hk as [Hk1 Hk2].
      rewrite Hf2, Hf1; done.
  - destruct Hc as (e & E & He). exists e. by rewrite fold_result_app, E.
Qed.

Lemma types_after_tree n : forall types,
  tree_ok n -> types_after types (postorder n) [n] (t ← infer n; Some [t]).
Proof.
  induction n as [n IH] using node_children_ind. intros types Hn.
  pose proof (spans_distinct n Hn) as Hd.
  pose proof Hn as [Hnode Hch]%tree_ok_children.
  rewrite postorder_children, map_app in Hd. apply list.NoDup_app in Hd as (Hd & Hself & _).
  rewrite infer_children, postorder_children.
  rewrite Forall_forall in IH, Hch.
  assert (types_after types (flat_map postorder (children n)) (children n)
            (map_option infer (children n))) as Hl.
  { apply types_after_forest; [done|]. apply Forall_forall. auto. }
  unfold types_after in Hl |- *.
  pose proof (fold_result_app type_visitor types (flat_map postorder (children n)) [n]) as Ef.
  destruct (map_option infer (children n)) as [ts|]; cbn [mbind option_bind].
  2: { destruct Hl as (e & E & He). rewrite Ef, E. by exists e. }
  destruct Hl as (types1 & E1 & Hts & Hf).
  rewrite E1 in Ef. cbn [mbind result_bind fold_result] in Ef. unfold type_visitor in Ef at 2.
  pose proof (node_type_infer (fun c => assoc_get (node_key c) types1) n ts Hnode Hts) as Ht.
  unfold typed_as in Ht. change (fun c e => _) with (requireType types1) in Ht.
  destruct (infer_node n ts) as [t|]; cbn [mbind option_bind].
  2: { destruct Ht as (e & Ht & He). rewrite Ht in Ef. by exists e. }
  rewrite Ht in Ef. eexists. split; [exact Ef|]. split.
  - constructor; [|done]. apply assoc_get_set_eq.
  - intros k. rewrite keys_app, not_elem_of_app. cbn [keys map].
    rewrite not_elem_of_cons. intros (H1 & H2 & _).
    rewrite assoc_get_set_ne by done. by apply Hf.
Qed.

(** The checker with its map accepts exactly the trees with a type. *)
Lemma checkExpressionTypes_infer ast :
  tree_ok ast -> node_height ast <= 256 ->
  match infer ast with
  | Some _ => checkExpressionTypes ast = Ok tt
  | None => exists e, checkExpressionTypes ast = Throw e /\ billing_exn e
  end.
Proof.
  intros Hok Hh. unfold checkExpressionTypes.
  rewrite (proj1 (visitExpression_spec type_visitor ast [])) by done.
  pose proof (types_after_tree ast [] Hok) as H. unfold types_after in H.
  destruct (infer ast); cbn in H.
  - by destruct H as (types & -> & _).
  - destruct H as (e & -> & He). by exists e.
Qed.

(** ** Dependencies *)

Definition called (f : BillingFunction) (n : ExpressionNode) : Prop :=
  exists args s e, Call f args s e ∈ postorder n.
Definition mentioned (v : BillingVariable) (n : ExpressionNode) : Prop :=
  exists s e, Variable_ v s e ∈ postorder n.

Lemma elem_of_set_add {A} `{EqDecision A} (x y : A) l :
  y ∈ set_add x l <-> y = x \/ y ∈ l.
Proof.
  unfold set_add. case_bool_decide; [|rewrite elem_of_app, list_elem_of_singleton]; naive_solver.
Qed.

Lemma fold_set_add_elem {A} `{EqDecision A} (l : list A) : forall acc x,
  x ∈ fold_left (fun names name => set_add name names) l acc <-> x ∈ acc \/ x ∈ l.
Proof.
  induction l as [|y l IH]; intros acc x; cbn [fold_left]; [rewrite elem_of_nil; tauto|].
  rewrite IH, elem_of_set_add, elem_of_cons. tauto.
Qed.
Lemma fold_set_add_NoDup {A} `{EqDecision A} (l : list A) : forall acc, NoDup acc ->
  NoDup (fold_left (fun names name => set_add name names) l acc).
Proof.
  induction l as [|y l IH]; intros acc H; [done|]. cbn [fold_left]. apply IH. unfold set_add. case_bool_decide; [done|].
  apply list.NoDup_app. split; [done|]. split; [|by apply list.NoDup_singleton]. intros x Hx ->%list_elem_of_singleton. done.
Qed.

Lemma add_dependency_fold l : forall d,
  exists d', fold_result add_dependency d l = Ok d' /\
    (forall f, f ∈ functions d' <-> f ∈ functions d \/ exists args s e, Call f args s e ∈ l) /\
    (forall v, v ∈ variables d' <-> v ∈ variables d \/ exists s e, Variable_ v s e ∈ l).
Proof.
  induction l as [|n l IH]; intros d.
  { exists d. split; [done|]. split; intros; set_solver. }
  cbn [fold_result].
  assert (exists d1, add_dependency d n = Ok d1 /\
    (forall f, f ∈ functions d1 <-> f ∈ functions d \/ exists args s e, n = Call f args s e) /\
    (forall v, v ∈ variables d1 <-> v ∈ variables d \/ exists s e, n = Variable_ v s e))
    as (d1 & -> & Hf1 & Hv1).
  { destruct n; cbn; eexists; (split; [reflexivity|]); cbn;
      split; intros; rewrite ?elem_of_set_add; naive_solver. }
  destruct (IH d1) as (d2 & E & Hf2 & Hv2). exists d2. split; [exact E|]. split.
  - intros f. rewrite Hf2, Hf1. setoid_rewrite elem_of_cons. naive_solver.
  - intros v. rewrite Hv2, Hv1. setoid_rewrite elem_of_cons. naive_solver.
Qed.

Lemma expressionDependencies_spec n :
  node_height n <= 256 ->
  exists d, expressionDependencies n = Ok d /\
    (forall f, f ∈ functions d <-> called f n) /\
    (forall v, v ∈ variables d <-> mentioned v n).
Proof.
  intros Hh. unfold expressionDependencies.
  rewrite (proj1 (visitExpression_spec _ _ _)) by done.
  destruct (add_dependency_fold (postorder n) {| variables := []; functions := [] |})
    as (d & -> & Hf & Hv).
  exists d. split; [done|]. unfold called, mentioned.
  split; intros x; [rewrite Hf|rewrite Hv]; cbn; set_solver.
Qed.

(** A tree without a [tier] or [fixed] call. *)
Definition unmarked (n : ExpressionNode) : Prop := ~ called Fn_tier n /\ ~ called Fn_fixed n.

Lemma containsPricingMarker_spec n :
  node_height n <= 256 ->
  exists b, containsPricingMarker n = Ok b /\ (b = false <-> unmarked n).
Proof.
  intros Hh. unfold containsPricingMarker.
  destruct (expressionDependencies_spec n Hh) as (d & -> & Hf & _). eexists. split; [done|].
  unfold has_function, unmarked.
  rewrite orb_false_iff, !bool_decide_eq_false, !Hf. done.
Qed.

Lemma postorder_trans n c d : c ∈ postorder n -> d ∈ postorder c -> d ∈ postorder n.
Proof.
  revert c d. induction n as [n IH] using node_children_ind. intros c d Hc Hd.
  apply postorder_inv in Hc as [->|(m & Hm & Hc)]; [done|].
  rewrite Forall_forall in IH. apply list_elem_of_In in Hm as Hm'.
  eapply postorder_child; eauto.
Qed.

Lemma called_child f n c : c ∈ children n -> called f c -> called f n.
Proof.
  intros Hc (args & s & e & H). exists args, s, e. eauto using postorder_child.
Qed.

Lemma unmarked_child n c : c ∈ children n -> unmarked n -> unmarked c.
Proof. intros Hc [H1 H2]. split; eauto using called_child. Qed.

Lemma postorder_height n d : d ∈ postorder n -> node_height d <= node_height n.
Proof.
  revert d. induction n as [n IH] using node_children_ind. intros d Hd.
  apply postorder_inv in Hd as [->|(m & Hm & Hd)]; [done|].
  rewrite Forall_forall in IH. apply list_elem_of_In in Hm as Hm'.
  specialize (IH m Hm' d Hd). pose proof (node_height_child n m Hm). lia.
Qed.

(** ** Request rules *)

(** A condition on the request or on time. *)
Definition on_request (n : ExpressionNode) : Prop :=
  exists f, is_request_function f = true /\ called f n.

(** The rule of a node: [condition ? multiplier : 1] with such a condition. *)
Inductive request_rule (source : str) : ExpressionNode -> CompiledRule -> Prop :=
| request_rule_intro condition multiplier i1 s1 e1 no i2 s2 e2 s e :
    num_eqb no one = true -> on_request condition ->
    request_rule source
      (Conditional condition (Literal (LNumber multiplier) i1 s1 e1)
         (Literal (LNumber no) i2 s2 e2) s e)
      {| cr_node := Conditional condition (Literal (LNumber multiplier) i1 s1 e1)
                      (Literal (LNumber no) i2 s2 e2) s e;
         cr_condition := condition; cr_multiplier := multiplier;
         cr_cond := slice source (node_start condition) (node_end condition) |}.

Lemma request_rule_unique source n r r' :
  request_rule source n r -> request_rule source n r' -> r = r'.
Proof. destruct 1. by inversion 1. Qed.

(** The rules of a list of nodes, in order. *)
Inductive rules_of (source : str) : list ExpressionNode -> list CompiledRule -> Prop :=
| rules_nil : rules_of source [] []
| rules_take n l r rs :
    request_rule source n r -> rules_of source l rs -> rules_of source (n :: l) (r :: rs)
| rules_skip n l rs :
    (forall r, ~ request_rule source n r) -> rules_of source l rs -> rules_of source (n :: l) rs.

Lemma rules_of_unique source l rs rs' :
  rules_of source l rs -> rules_of source l rs' -> rs = rs'.
Proof.
  intros H. revert rs'. induction H; inversion 1; subst; try done; try naive_solver.
  f_equal; eauto using request_rule_unique.
Qed.

Lemma rules_of_elem source l rs r :
  rules_of source l rs -> r ∈ rs <-> cr_node r ∈ l /\ request_rule source (cr_node r) r.
Proof.
  intros H. induction H as [|n l r' rs Hr _ IH|n l rs Hn _ IH].
  - set_solver.
  - rewrite !elem_of_cons, IH. split; [|naive_solver eauto using request_rule_unique].
    intros [->|?]; [|naive_solver]. destruct Hr. split; [by left|]. by constructor.
  - rewrite elem_of_cons, IH. naive_solver.
Qed.

Lemma rule_visitor_spec source n rules :
  node_height n <= 256 ->
  (exists r, request_rule source n r /\ rule_visitor source rules n = Ok (rules ++ [r])) \/
  (forall r, ~ request_rule source n r) /\ rule_visitor source rules n = Ok rules.
Proof.
  intros Hh.
  destruct n as [| | | | |c [[| m | | ] i1 s1 e1| | | | |] [[| no | | ] i2 s2 e2| | | | |] s e];
    try (right; split; [by inversion 1 | reflexivity]).
  cbn [rule_visitor]. destruct (num_eqb no one) eqn:En;
    [|right; split; [|done]; inversion 1; congruence].
  assert (node_height c <= 256) as Hc by (cbn in Hh; lia).
  destruct (expressionDependencies_spec c Hc) as (d & -> & Hf & _).
  cbn [mbind result_bind]. destruct (existsb is_request_function (functions d)) eqn:Ex.
  - left. eexists. split; [|reflexivity]. constructor; [done|].
    apply existsb_exists in Ex as (f & Hin & Hreq). exists f. split; [done|].
    by apply Hf, list_elem_of_In.
  - right. split; [|done]. inversion 1 as [? ? ? ? ? ? ? ? ? ? ? ? (f & Hreq & Hcall)]. subst.
    apply Hf, list_elem_of_In in Hcall.
    enough (existsb is_request_function (functions d) = true) by congruence.
    apply existsb_exists. eauto.
Qed.

Lemma rule_visitor_fold source l : forall rules,
  Forall (fun n => node_height n <= 256) l ->
  exists rs, rules_of source l rs /\
    fold_result (rule_visitor source) rules l = Ok (rules ++ rs).
Proof.
  induction l as [|n l IH]; intros rules Hl.
  { exists []. split; [constructor|]. by rewrite app_nil_r. }
  apply Forall_cons_iff in Hl as [Hn Hl]. cbn [fold_result].
  destruct (rule_visitor_spec source n rules Hn) as [(r & Hr & ->)|(Hr & ->)];
    cbn [mbind result_bind].
  - destruct (IH (rules ++ [r]) Hl) as (rs & Hrs & ->). exists (r :: rs).
    split; [by constructor|]. by rewrite <- app_assoc.
  - destruct (IH rules Hl) as (rs & Hrs & ->). exists rs. split; [by apply rules_skip|done].
Qed.

Lemma collect_rules source ast :
  node_height ast <= 256 ->
  exists rs, rules_of source (postorder ast) rs /\
    visitExpression (rule_visitor source) ast [] = Ok rs.
Proof.
  intros Hh. rewrite (proj1 (visitExpression_spec _ _ _)) by done.
  apply (rule_visitor_fold source (postorder ast) []).
  apply Forall_forall. intros d Hd%list_elem_of_In%postorder_height. lia.
Qed.

(** ** The grammar of fixed-price expressions *)

Section priced.
Context (rules : list CompiledRule).

(** A factor that may scale a price: the number of images, or a request rule
    with a multiplier of at least 0 whose condition holds no price. *)
Inductive price_factor : ExpressionNode -> Prop :=
| factor_images s e : price_factor (Variable_ Var_image_count s e)
| factor_rule r :
    r ∈ rules -> num_geb (cr_multiplier r) zero = true -> unmarked (cr_condition r) ->
    price_factor (cr_node r).

Inductive priced : ExpressionNode -> Prop :=
| priced_if c y m s e : unmarked c -> priced y -> priced m -> priced (Conditional c y m s e)
| priced_by_right a b s e : price_factor b -> priced a -> priced (Binary Op_mul a b s e)
| priced_by_left a b s e : price_factor a -> priced b -> priced (Binary Op_mul a b s e)
| priced_fixed name amount s1 e1 s e :
    unmarked name -> fixed_amount_ok amount = true ->
    priced (Call Fn_tier [name; Call Fn_fixed [amount] s1 e1] s e)
| priced_tokens name price s e :
    unmarked name -> unmarked price -> priced (Call Fn_tier [name; price] s e).
End priced.

Lemma find_rule source ast rules n :
  tree_ok ast -> rules_of source (postorder ast) rules -> n ∈ postorder ast ->
  match find (fun r => same_node (cr_node r) n) rules with
  | Some r => r ∈ rules /\ cr_node r = n
  | None => forall r, r ∈ rules -> cr_node r <> n
  end.
Proof.
  intros Hok Hr Hn. destruct (find _ rules) as [r|] eqn:Ef.
  - apply find_some in Ef as [Hin Hs]. apply list_elem_of_In in Hin. split; [done|].
    eapply same_node_eq; eauto. by eapply rules_of_elem in Hin as [? _].
  - intros r Hin <-. apply list_elem_of_In in Hin.
    apply (find_none _ _ Ef) in Hin. unfold same_node in Hin. by rewrite bool_decide_eq_false in Hin.
Qed.

Section validate_facts.
Context (source : str) (ast : ExpressionNode) (rules : list CompiledRule).
Context (Hok : tree_ok ast) (Hheight : node_height ast <= 256)
        (Hrules : rules_of source (postorder ast) rules).

Lemma rule_node r : r ∈ rules ->
  cr_node r ∈ postorder ast /\ cr_condition r ∈ postorder ast /\
  request_rule source (cr_node r) r.
Proof.
  intros Hr. eapply rules_of_elem in Hr as [Hin Hreq]; [|done].
  split; [done|]. split; [|done]. eapply postorder_trans; [exact Hin|].
  destruct Hreq. cbn [cr_node cr_condition].
  eapply postorder_child; [|apply postorder_self]. left.
Qed.

Lemma marker_spec n : n ∈ postorder ast ->
  exists b, containsPricingMarker n = Ok b /\ (b = false <-> unmarked n).
Proof. intros Hn%postorder_height. apply containsPricingMarker_spec. lia. Qed.

Lemma rule_unique r r' : r ∈ rules -> r' ∈ rules -> cr_node r = cr_node r' -> r = r'.
Proof.
  intros (_ & _ & H1)%rule_node (_ & _ & H2)%rule_node E. rewrite <- E in H2.
  eapply request_rule_unique; eauto.
Qed.

Lemma pricing_factor_spec n : n ∈ postorder ast ->
  exists b, pricing_factor rules n = Ok b /\ (b = true <-> price_factor rules n).
Proof.
  intros Hn. pose proof (find_rule _ _ _ _ Hok Hrules Hn) as Hf.
  assert (exists b, match find (fun r => same_node (cr_node r) n) rules with
    | Some rule =>
        if num_geb (cr_multiplier rule) zero
        then marked ← containsPricingMarker (cr_condition rule); Ok (negb marked)
        else Ok false
    | None => Ok false
    end = Ok b /\ (b = true <-> exists r, r ∈ rules /\ cr_node r = n /\
       num_geb (cr_multiplier r) zero = true /\ unmarked (cr_condition r))) as (b & Eb & Hb).
  { destruct (find _ rules) as [r|].
    - destruct Hf as [Hr <-]. destruct (num_geb _ _) eqn:Eg.
      + destruct (marker_spec (cr_condition r)) as (m & -> & Hm); [by apply rule_node|].
        eexists. split; [done|]. rewrite negb_true_iff, Hm. split; [eauto|].
        intros (r' & Hr' & En & _ & Hu). by rewrite <- (rule_unique r' r).
      + exists false. split; [done|]. split; [done|].
        intros (r' & Hr' & En & Hg & _). rewrite (rule_unique r' r) in Hg; congruence.
    - exists false. split; [done|]. naive_solver. }
  assert (price_factor rules n <-> b = true \/ exists s e, n = Variable_ Var_image_count s e)
    as Hiff.
  { rewrite Hb. split; [destruct 1; eauto 10|]. intros [(r & ? & <- & ? & ?)|(s & e & ->)];
      by constructor. }
  destruct n as [|[]| | | |]; try (exists b; split; [exact Eb|]; rewrite Hiff; naive_solver).
  exists true. split; [done|]. rewrite Hiff. naive_solver.
Qed.

(** A factor is not itself a price. *)
Lemma factor_not_priced n : price_factor rules n -> ~ priced rules n.
Proof.
  destruct 1 as [s e|r Hr _ _]; [by inversion 1|].
  apply rule_node in Hr as (_ & _ & Hreq). destruct Hreq. cbn [cr_node].
  inversion 1 as [? ? ? ? ? ? Hy| | | |]. inversion Hy.
Qed.

(** The checker's verdict on [n]: accepted and priced, or refused and not. *)
Definition verdict (r : outcome unit) (P : Prop) : Prop :=
  (r = Ok tt /\ P) \/ (exists e, r = Throw e /\ billing_exn e) /\ ~ P.

Lemma verdict_refused n (P : Prop) : ~ P -> verdict (Throw (fixed_pricing_error n)) P.
Proof. right. split; [|done]. eexists. split; [done|by eexists]. Qed.

Lemma verdict_iff r (P Q : Prop) : (P <-> Q) -> verdict r P -> verdict r Q.
Proof. unfold verdict. tauto. Qed.

Lemma validate_tier_spec args s e :
  Call Fn_tier args s e ∈ postorder ast ->
  verdict (validate_tier (Call Fn_tier args s e) args) (priced rules (Call Fn_tier args s e)).
Proof.
  intros Hn. assert (length args = 2) as Hlen.
  { apply list_elem_of_In in Hn. unfold tree_ok in Hok. rewrite Forall_forall in Hok.
    destruct (Hok _ Hn) as (_ & _ & Ha%arity_spec & _). done. }
  destruct args as [|name [|price [|]]]; try done. unfold validate_tier. cbn [argument lookup list_lookup mbind result_bind].
  destruct (marker_spec name) as (b & -> & Hb).
  { eapply postorder_trans; [exact Hn|]. eapply postorder_child; [|apply postorder_self]. left. }
  cbn [mbind result_bind]. destruct b.
  { apply verdict_refused. inversion 1; naive_solver. }
  assert (Hname : unmarked name) by tauto.
  assert (price ∈ postorder ast) as Hp.
  { eapply postorder_trans; [exact Hn|]. eapply postorder_child; [|apply postorder_self]. right. left. }
  assert (verdict
    (marked ← containsPricingMarker price;
     if (marked : bool) then Throw (fixed_pricing_error (Call Fn_tier [name; price] s e)) else Ok tt)
    (unmarked price)) as Hmark.
  { destruct (marker_spec price Hp) as (b & -> & Hb'). cbn [mbind result_bind]. destruct b.
    - apply verdict_refused. naive_solver.
    - left. naive_solver. }
  assert ((exists a s1 e1, price = Call Fn_fixed a s1 e1) \/
          ~ exists a s1 e1, price = Call Fn_fixed a s1 e1) as [(a & s1 & e1 & ->)|Hne].
  { destruct price as [| |[]| | |]; first [left; by eauto | right; by intros (? & ? & ? & ?)]. }
  - assert (length a = 1) as Ha.
    { apply list_elem_of_In in Hp. unfold tree_ok in Hok. rewrite Forall_forall in Hok.
      destruct (Hok _ Hp) as (_ & _ & Ha%arity_spec & _). done. }
    destruct a as [|amount [|]]; try done. cbn [argument lookup list_lookup mbind result_bind].
    destruct (fixed_amount_ok amount) eqn:Ef; [left; split; [done|by constructor]|].
    apply verdict_refused. inversion 1 as [| | | |? ? ? ? _ [_ Hm]]; subst; [congruence|].
    apply Hm. exists [amount], s1, e1. apply postorder_self.
  - eapply verdict_iff; [|].
    2: destruct price as [| |[]| | |]; try exact Hmark; naive_solver.
    split; [by constructor|]. inversion 1; subst; [|done]. naive_solver.
Qed.

Lemma validate_spec n : n ∈ postorder ast ->
  verdict (validateFixedPricingTree rules n) (priced rules n).
Proof.
  induction n as [n IH] using node_children_ind. intros Hn. rewrite Forall_forall in IH.
  assert (forall c, c ∈ children n -> c ∈ postorder ast) as Hsub.
  { intros c Hc. eapply postorder_trans; [exact Hn|].
    eapply postorder_child; [exact Hc|apply postorder_self]. }
  assert (forall c, c ∈ children n -> verdict (validateFixedPricingTree rules c) (priced rules c))
    as HIH.
  { intros c Hc. apply IH; [by apply list_elem_of_In|auto]. }
  clear IH.
  destruct n as [| |f args s e| |o a b s e|c y m s e]; cbn [validateFixedPricingTree children] in *;
    try (apply verdict_refused; by inversion 1).
  - destruct f; try (apply verdict_refused; by inversion 1). by apply validate_tier_spec.
  - destruct o; try (apply verdict_refused; by inversion 1).
    destruct (pricing_factor_spec b) as (br & -> & Hbr); [set_solver|]. cbn [mbind result_bind].
    destruct br.
    { eapply verdict_iff; [|apply HIH; set_solver].
      assert (price_factor rules b) as Hfb by tauto. split; [by apply priced_by_right|].
      inversion 1; [done|]. exfalso. by apply (factor_not_priced b). }
    destruct (pricing_factor_spec a) as (bl & -> & Hbl); [set_solver|]. cbn [mbind result_bind].
    destruct bl.
    { eapply verdict_iff; [|apply HIH; set_solver].
      assert (price_factor rules a) as Hfa by tauto. split; [by apply priced_by_left|].
      inversion 1; [|done]. exfalso. by apply (factor_not_priced a). }
    apply verdict_refused. inversion 1; naive_solver.
  - destruct (marker_spec c) as (b & -> & Hb); [set_solver|]. cbn [mbind result_bind].
    destruct b; [apply verdict_refused; inversion 1; naive_solver|].
    assert (unmarked c) as Hc by tauto.
    destruct (HIH y) as [[-> Hy]|[(ex & -> & He) Hy]]; [set_solver|..]; cbn [mbind result_bind].
    + eapply verdict_iff; [|apply HIH; set_solver]. split; [by constructor|by inversion 1].
    + right. split; [eauto|]. by inversion 1.
Qed.
End validate_facts.

(** ** What a successful compilation gives *)

Record compiled_ok (c : CompiledBillingExpression) : Prop := {
  co_parsed : parse (ce_source c) = Ok (ce_ast c);
  co_tree : tree_ok (ce_ast c);
  co_height : node_height (ce_ast c) <= 256;
  co_typed : exists t, infer (ce_ast c) = Some t;
  co_variables : forall v, v ∈ ce_variables c <-> mentioned v (ce_ast c);
  co_functions : forall f, f ∈ ce_functions c <-> called f (ce_ast c);
  co_rules : rules_of (ce_source c) (postorder (ce_ast c)) (ce_requestRules c);
  co_fixed : called Fn_fixed (ce_ast c) -> priced (ce_requestRules c) (ce_ast c);
}.

Lemma require_throws types c e : throws_only billing_exn (requireType types c e).
Proof.
  unfold requireType, require_actual, throw_when. case_match; cbn; [by eexists|done].
Qed.

Lemma type_visitor_throws types n :
  node_ok n -> throws_only billing_exn (type_visitor types n).
Proof.
  intros (_ & _ & Hn). unfold type_visitor. apply throws_only_bind; [|done].
  pose proof (require_throws types) as Hr.
  destruct n as [| |f args s e|o a s e|o a b s e|c y m s e]; cbn [node_type]; try done.
  - destruct Hn as [Ha%arity_spec _].
    destruct f; cbn in Ha; destruct args as [|a [|b [|]]]; try done; cbn;
      repeat (apply throws_only_bind; [|intros ? _]); try done; apply Hr.
  - apply throws_only_bind; [apply Hr|done].
  - destruct o; cbn; try done; try (case_match; [done|]);
      repeat (apply throws_only_bind; [apply Hr|intros ? _]); done.
  - apply throws_only_bind; [apply Hr|]. intros ? _. by case_match.
Qed.

Lemma checkExpressionTypes_throws ast :
  tree_ok ast -> throws_only billing_exn (checkExpressionTypes ast).
Proof.
  intros Hok. unfold checkExpressionTypes. apply throws_only_bind; [|done].
  rewrite visitExpression_rec. apply visit_rec_throws; [apply depth_error_good|].
  intros types d Hd. apply type_visitor_throws. unfold tree_ok in Hok.
  rewrite Forall_forall in Hok. by apply Hok, list_elem_of_In.
Qed.

Lemma checkExpressionTypes_height ast :
  checkExpressionTypes ast = Ok tt -> node_height ast <= 256.
Proof.
  unfold checkExpressionTypes. intros H. inv_ok.
  destruct (decide (node_height ast <= 256)) as [|Hh]; [done|].
  exfalso. by eapply (proj2 (visitExpression_spec type_visitor ast [])); [lia|].
Qed.

(** The texts that compile, and what they compile to. *)
Inductive compiles (source : str) : CompiledBillingExpression -> Prop :=
| compiles_intro ast t d rules :
    parse source = Ok ast -> node_height ast <= 256 -> infer ast = Some t ->
    expressionDependencies ast = Ok d -> rules_of source (postorder ast) rules ->
    (called Fn_fixed ast -> priced rules ast) ->
    compiles source (Compiled source ast (variables d) (functions d) rules).

Lemma compile_body_spec source :
  match compile_body source with
  | Ok c => compiles source c
  | Throw e => billing_exn e /\ forall c, ~ compiles source c
  end.
Proof.
  unfold compile_body. pose proof (parse_spec source) as Hp.
  destruct (parse source) as [ast|e] eqn:Ep; cbn [mbind result_bind];
    [|split; [done|inversion 1; congruence]].
  destruct Hp as [Hok _].
  pose proof (checkExpressionTypes_throws ast Hok) as Ht.
  destruct (checkExpressionTypes ast) as [[]|e] eqn:Ec; cbn [mbind result_bind].
  2: { split; [done|]. inversion 1 as [ast' t d rules Hp Hh Hi].
       assert (ast' = ast) as -> by congruence.
       pose proof (checkExpressionTypes_infer ast Hok Hh) as Hc. rewrite Hi in Hc. congruence. }
  pose proof (checkExpressionTypes_height ast Ec) as Hh.
  pose proof (checkExpressionTypes_infer ast Hok Hh) as Hi.
  destruct (infer ast) as [t|] eqn:Ei; [|destruct Hi as (? & ? & _); congruence].
  destruct (expressionDependencies_spec ast Hh) as (d & Ed & Hf & Hv).
  destruct (collect_rules source ast Hh) as (rules & Hrules & Er).
  rewrite Ed. cbn [mbind result_bind]. rewrite Er. cbn [mbind result_bind].
  destruct (validate_spec source ast rules Hok Hh Hrules ast (postorder_self ast))
    as [[Ev Hpr]|[(e & Ev & He) Hpr]]; rewrite Ev; unfold has_function.
  - replace (if bool_decide (Fn_fixed ∈ functions d) then Ok tt else Ok tt) with (@Ok exn _ tt)
      by by case_match.
    by econstructor.
  - case_bool_decide as Hfix; cbn [mbind result_bind].
    + split; [done|]. inversion 1 as [ast' t' d' rules' Hp _ _ _ Hr' Hpr'].
      assert (ast' = ast) as -> by congruence.
      assert (rules' = rules) as -> by by eapply rules_of_unique. apply Hpr, Hpr', Hf, Hfix.
    + econstructor; eauto. rewrite <- Hf. done.
Qed.

Lemma compiles_ok source c : compiles source c -> ce_source c = source /\ compiled_ok c.
Proof.
  destruct 1 as [ast t d rules Hp Hh Hi Hd Hr Hf]. split; [done|].
  destruct (expressionDependencies_spec ast Hh) as (d' & Ed & Hfn & Hv).
  assert (d' = d) as -> by congruence.
  constructor; cbn; eauto using parse_tree_ok.
Qed.

Lemma compile_ready source c : compile source = inl c -> ce_source c = source /\ compiled_ok c.
Proof.
  unfold compile. pose proof (compile_body_spec source) as H.
  destruct (compile_body source); [|done]. intros [= ->]. by apply compiles_ok.
Qed.

(** ** The cache *)

Record cache_ok (cache : CompiledCache) : Prop := {
  cache_keys : NoDup cache.*1;
  cache_size : length cache <= 128;
  cache_entries : forall s r, (s, r) ∈ cache -> r = compile s;
}.

Lemma cache_ok_nil : cache_ok [].
Proof. constructor; [constructor|cbn; lia|set_solver]. Qed.

Lemma compileBillingExpression_ok cache source :
  cache_ok cache ->
  (compileBillingExpression cache source).1 = compile source /\
  cache_ok (compileBillingExpression cache source).2 /\
  assoc_get source (compileBillingExpression cache source).2 = Some (compile source).
Proof.
  intros [Hk Hs He]. unfold compileBillingExpression.
  destruct (assoc_get source cache) as [r|] eqn:Eg.
  { cbn. pose proof (He _ _ (assoc_get_In _ _ _ Eg)) as ->. done. }
  cbn [fst snd]. split; [done|]. split; [|apply assoc_get_set_eq].
  apply assoc_get_None in Eg.
  assert (exists l, (if (128 <=? length cache)%nat then tail cache else cache) = l /\
    NoDup (l.*1) /\ length l <= 127 /\ (source ∉ l.*1) /\ (forall x, x ∈ l -> x ∈ cache))
    as (l & -> & Hl1 & Hl2 & Hl3 & Hl4).
  { eexists. split; [reflexivity|]. destruct (Nat.leb_spec 128 (length cache)).
    - destruct cache as [|[s r] cache]; cbn in *; [lia|].
      apply list.NoDup_cons in Hk as [_ Hk]. split_and!; [done|lia|set_solver|set_solver].
    - split_and!; auto. lia. }
  rewrite assoc_set_fst_fresh by done. constructor.
  - rewrite fmap_app. apply list.NoDup_app. split; [done|]. split; [|apply NoDup_singleton].
    cbn. set_solver.
  - rewrite length_app. cbn. lia.
  - intros s r. rewrite elem_of_app, list_elem_of_singleton. naive_solver.
Qed.

(** A sequence of calls, each with the cache the one before left. *)
Fixpoint compile_all (cache : CompiledCache) (sources : list str)
  : list CompilationResult * CompiledCache :=
  match sources with
  | [] => ([], cache)
  | s :: sources =>
      let '(r, cache) := compileBillingExpression cache s in
      let '(rs, cache) := compile_all cache sources in (r :: rs, cache)
  end.

Lemma compile_all_ok sources : forall cache,
  cache_ok cache ->
  (compile_all cache sources).1 = map compile sources /\ cache_ok (compile_all cache sources).2.
Proof.
  induction sources as [|s l IH]; intros cache Hc; [done|].
  cbn. destruct (compileBillingExpression_ok cache s Hc) as (H1 & H2 & _).
  destruct (compileBillingExpression cache s) as [r cache1]. cbn in *.
  specialize (IH cache1 H2). destruct (compile_all cache1 l) as [rs cache2]. cbn in *.
  destruct IH as [-> ?]. by subst.
Qed.

(** The compiled form of a text known to compile. *)
Definition compiled_text (source : str) : CompiledBillingExpression :=
  match compile source with
  | inl c => c
  | inr _ => {| ce_source := source; ce_ast := Literal LNull false 0 0; ce_variables := [];
                ce_functions := []; ce_requestRules := [] |}
  end.
