(* ===== verification/Request.v ===== *)
(** * Request values and paths

    [readRequestPath] and [billingString] of [billing-expression/runtime.ts].
    A request body, a task's usage record and the results of the interpreter
    are values of JavaScript restricted to what JSON and the engine produce. *)

From Stdlib Require Import String.
From S2P Require Import Prelude JsNumber JsString JsText Ast.

(** An object is the list of its own enumerable properties in the order of
    [Object.entries]. *)
Inductive value : Type :=
| VUndefined
| VNull
| VBoolean (b : bool)
| VNumber (x : number)
| VString (s : str)
| VArray (items : list value)
| VObject (fields : list (str * value)).

(** [v == null] *)
Definition nullish (v : value) : bool :=
  match v with VUndefined | VNull => true | _ => false end.
(** [v ?? null] *)
Definition or_null (v : value) : value := if nullish v then VNull else v.

(** ** [readRequestPath] *)

Definition path_error (path : str) : exn := billing_error D_unsupported path.

Definition is_path_operator (c : N) : bool := bool_decide (c ∈ u "*?[]()|@!").

(** The loop that splits the path; [part] is the key read so far. *)
Fixpoint split_path (path rest part : str) : outcome (list str) :=
  match rest with
  | [] => Ok [part]
  | char :: rest =>
      if N.eqb char backslash then
        match rest with
        | [] => Throw (path_error path)
        | escaped :: rest => split_path path rest (part ++ [escaped])
        end
      else if N.eqb char dot then
        parts ← split_path path rest []; Ok (part :: parts)
      else if is_path_operator char then Throw (path_error path)
      else split_path path rest (part ++ [char])
  end.

(** [value[index]] for a safe integer [index >= 0]. *)
Definition array_at (items : list value) (index : Z) : value :=
  if (index <? Z.of_nat (length items))%Z
  then default VUndefined (items !! Z.to_nat index) else VUndefined.

Definition all_digits (key : str) : bool := nonempty key && forallb is_digit key.

(** The loop that follows the keys. *)
Fixpoint follow (path : str) (v : value) (parts : list str) : outcome value :=
  match parts with
  | [] => Ok (or_null v)
  | key :: rest =>
      match v with
      | VArray items =>
          if str_eqb key (u "#") then
            match rest with
            | [] => Ok (VNumber (of_Z (Z.of_nat (length items))))
            | _ => Throw (path_error path)
            end
          else if negb (all_digits key) then Ok VNull
          else
            let index := to_number key in
            follow path
              (if num_is_safe_integer index then array_at items (num_to_Z index)
               else VUndefined) rest
      | VObject fields =>
          match assoc_get key fields with
          | Some item => follow path item rest
          | None => Ok VNull
          end
      | _ => Ok VNull
      end
  end.

Definition readRequestPath (body : value) (rawPath : str) : outcome value :=
  let path := trim rawPath in
  if negb (nonempty path) then Ok VNull
  else parts ← split_path path path []; follow path body parts.

(** ** [billingString] *)

(** [.sort(([a], [b]) => (a < b ? -1 : Number(a > b)))]: stable, by key. *)
Fixpoint insert_entry {A} (entry : str * A) (l : list (str * A)) : list (str * A) :=
  match l with
  | [] => [entry]
  | e :: l => if str_ltb e.1 entry.1 then e :: insert_entry entry l else entry :: e :: l
  end.
Definition sort_entries {A} (l : list (str * A)) : list (str * A) :=
  foldr insert_entry [] l.

Definition pad2 (s : str) : str := if (length s <? 2)%nat then u "0" ++ s else s.

Definition number_string (x : number) : outcome str :=
  if negb (num_is_finite x) then Throw (billing_error D_number (u "request number"))
  else if num_is_neg_zero x then Ok (u "-0")
  else
    let '(mantissa, exponent) := exponential_parts x in
    if (6 <=? exponent)%Z || (exponent <? -4)%Z then
      Ok (mantissa ++ u "e" ++ (if (exponent <? 0)%Z then u "-" else u "+")
            ++ pad2 (number_to_string (of_Z (Z.abs exponent))))
    else Ok (number_to_string x).

Definition boolean_text (b : bool) : str := if b then u "true" else u "false".

Definition value_depth_error : exn := billing_error D_limit (u "request value depth").

Fixpoint billingString (v : value) (depth : Z) : outcome str :=
  if (128 <? depth)%Z then Throw value_depth_error
  else
    match v with
    | VUndefined | VNull => Ok (u "<nil>")
    | VArray items =>
        texts ← (fix go (l : list value) : outcome (list str) :=
                   match l with
                   | [] => Ok []
                   | item :: l =>
                       t ← billingString item (depth + 1); ts ← go l; Ok (t :: ts)
                   end) items;
        Ok (u "[" ++ join (u " ") texts ++ u "]")
    | VObject fields =>
        texts ← map_result (fun entry : str * outcome str =>
                    t ← entry.2; Ok (entry.1 ++ u ":" ++ t))
                  (sort_entries
                    ((fix go (l : list (str * value)) : list (str * outcome str) :=
                        match l with
                        | [] => []
                        | (key, item) :: l => (key, billingString item (depth + 1)) :: go l
                        end) fields));
        Ok (u "map[" ++ join (u " ") texts ++ u "]")
    | VNumber x => number_string x
    | VBoolean b => Ok (boolean_text b)
    | VString s => Ok s
    end.

(** ** Facts *)

Definition value_children (v : value) : list value :=
  match v with VArray items => items | VObject fields => fields.*2 | _ => [] end.

Section value_induction.
Variable P : value -> Prop.
Hypothesis HP : forall v, Forall P (value_children v) -> P v.

Fixpoint value_children_ind (v : value) : P v :=
  HP v
    (match v return Forall P (value_children v) with
     | VArray items =>
         (fix go (l : list value) : Forall P l :=
            match l with
            | [] => List.Forall_nil _
            | a :: l => List.Forall_cons _ a l (value_children_ind a) (go l)
            end) items
     | VObject fields =>
         (fix go (l : list (str * value)) : Forall P l.*2 :=
            match l with
            | [] => List.Forall_nil _
            | (k, a) :: l => List.Forall_cons _ a (l.*2) (value_children_ind a) (go l)
            end) fields
     | _ => List.Forall_nil _
     end).
End value_induction.

(** Paths written by escaping each key. *)
Definition needs_escape (c : N) : bool :=
  N.eqb c backslash || N.eqb c dot || is_path_operator c.
Definition escape_key (key : str) : str :=
  flat_map (fun c => if needs_escape c then [backslash; c] else [c]) key.
Definition path_of (keys : list str) : str := join [dot] (map escape_key keys).

Lemma split_path_escaped path key rest part :
  split_path path (escape_key key ++ rest) part = split_path path rest (part ++ key).
Proof.
  revert part. induction key as [|c key IH]; intros part; [by rewrite app_nil_r|].
  cbn [escape_key flat_map]. fold (escape_key key).
  replace (part ++ c :: key) with ((part ++ [c]) ++ key) by by rewrite <- app_assoc.
  rewrite <- IH. unfold needs_escape.
  destruct (N.eqb c backslash) eqn:E1; [by cbn|].
  destruct (N.eqb c dot) eqn:E2; [by cbn|].
  destruct (is_path_operator c) eqn:E3; [by cbn|].
  cbn [orb app split_path]. by rewrite E1, E2, E3.
Qed.

(** Splitting inverts the escaping of keys. *)
Lemma split_path_of path key keys :
  split_path path (path_of (key :: keys)) [] = Ok (key :: keys).
Proof.
  revert key. induction keys as [|k keys IH]; intros key.
  - unfold path_of. cbn [map join].
    by rewrite <- (app_nil_r (escape_key key)), split_path_escaped.
  - change (path_of (key :: k :: keys)) with (escape_key key ++ [dot] ++ path_of (k :: keys)).
    rewrite split_path_escaped. cbn [app split_path].
    change (N.eqb dot backslash) with false. rewrite N.eqb_refl, IH. done.
Qed.

Lemma split_path_throws path rest part : throws_only billing_exn (split_path path rest part).
Proof.
  remember (length rest) as n eqn:Hn. assert (length rest <= n) as Hle by lia. clear Hn.
  revert rest part Hle. induction n as [|n IH]; intros [|c rest] part Hle; try done;
    cbn in Hle; [lia|]. cbn [split_path].
  destruct (N.eqb c backslash).
  - destruct rest as [|d rest]; [by eexists|]. apply IH. cbn in Hle. lia.
  - destruct (N.eqb c dot).
    + apply throws_only_bind; [apply IH; lia|done].
    + destruct (is_path_operator c); [by eexists|]. apply IH. lia.
Qed.

Lemma follow_throws path parts : forall v, throws_only billing_exn (follow path v parts).
Proof.
  induction parts as [|key rest IH]; intros v; [done|].
  destruct v; cbn [follow]; try done; repeat case_match; try done; try by eexists.
Qed.

Lemma readRequestPath_throws body path : throws_only billing_exn (readRequestPath body path).
Proof.
  unfold readRequestPath. case_match; [done|].
  apply throws_only_bind; [apply split_path_throws|]. intros parts _. apply follow_throws.
Qed.

Lemma or_null_defined v : or_null v <> VUndefined.
Proof. by destruct v. Qed.

Lemma follow_defined path parts : forall v w, follow path v parts = Ok w -> w <> VUndefined.
Proof.
  induction parts as [|key rest IH]; intros v w; cbn [follow].
  - intros [= <-]. apply or_null_defined.
  - destruct v; try (intros [= <-]; done); repeat case_match;
      try (by intros [= <-]); try done; apply IH.
Qed.

Lemma readRequestPath_defined body path v :
  readRequestPath body path = Ok v -> v <> VUndefined.
Proof.
  unfold readRequestPath. case_match; [by intros [= <-]|]. intros Hr. inv_ok.
  by eapply follow_defined.
Qed.

(** The object that holds [leaf] under the given keys. *)
Definition nested (keys : list str) (leaf : value) : value :=
  foldr (fun key v => VObject [(key, v)]) leaf keys.

Lemma follow_nested path keys leaf : follow path (nested keys leaf) keys = Ok (or_null leaf).
Proof.
  induction keys as [|k keys IH]; [done|]. cbn. by rewrite decide_True.
Qed.

(** *** [billingString] *)

Fixpoint value_height (v : value) : nat :=
  match v with
  | VArray items => foldr (fun a h => Nat.max (S (value_height a)) h) 0 items
  | VObject fields => foldr (fun e h => Nat.max (S (value_height (snd e))) h) 0 fields
  | _ => 0
  end.

Fixpoint finite_numbers (v : value) : bool :=
  match v with
  | VNumber x => num_is_finite x
  | VArray items => forallb finite_numbers items
  | VObject fields => forallb (fun e => finite_numbers (snd e)) fields
  | _ => true
  end.

Lemma insert_entry_elem {A} (e x : str * A) l : x ∈ insert_entry e l <-> x = e \/ x ∈ l.
Proof.
  induction l as [|d l IH]; cbn; [by rewrite list_elem_of_singleton; split; [left|intros [|?%elem_of_nil]]|].
  case_match; rewrite !elem_of_cons, ?IH; tauto.
Qed.

Lemma sort_entries_elem {A} (x : str * A) l : x ∈ sort_entries l <-> x ∈ l.
Proof.
  induction l as [|d l IH]; cbn; [done|]. rewrite insert_entry_elem, elem_of_cons. by fold (sort_entries l); rewrite IH.
Qed.

Lemma map_result_throws {E A B} (good : E -> Prop) (f : A -> result E B) l :
  (forall x, x ∈ l -> throws_only good (f x)) -> throws_only good (map_result f l).
Proof.
  induction l as [|x l IH]; intros H; [done|]. cbn.
  apply throws_only_bind; [apply H; left|]. intros y _.
  apply throws_only_bind; [|done]. apply IH. intros z Hz. apply H. by right.
Qed.

Lemma map_result_total {E A B} (f : A -> result E B) l :
  (forall x, x ∈ l -> exists y, f x = Ok y) -> exists ys, map_result f l = Ok ys.
Proof.
  induction l as [|x l IH]; intros H; [by exists []|]. cbn.
  destruct (H x) as [y ->]; [left|]. destruct IH as [ys ->]; [|by exists (y :: ys)].
  intros z Hz. apply H. by right.
Qed.

(** The recursion of [billingString] as maps over the children. *)
Lemma billingString_eq v depth :
  billingString v depth =
  if (128 <? depth)%Z then Throw value_depth_error
  else match v with
       | VUndefined | VNull => Ok (u "<nil>")
       | VArray items =>
           texts ← map_result (fun item => billingString item (depth + 1)) items;
           Ok (u "[" ++ join (u " ") texts ++ u "]")
       | VObject fields =>
           texts ← map_result (fun entry : str * outcome str =>
                       t ← entry.2; Ok (entry.1 ++ u ":" ++ t))
                     (sort_entries
                       (map (fun e => (e.1, billingString e.2 (depth + 1))) fields));
           Ok (u "map[" ++ join (u " ") texts ++ u "]")
       | VNumber x => number_string x
       | VBoolean b => Ok (boolean_text b)
       | VString s => Ok s
       end.
Proof.
  destruct v as [| | | | |items|fields]; try reflexivity.
  - cbn [billingString]. destruct (128 <? depth)%Z; [done|]. f_equal.
    induction items as [|a l IH]; [done|]. cbn. by rewrite IH.
  - cbn [billingString]. destruct (128 <? depth)%Z; [done|]. do 3 f_equal.
    induction fields as [|[k a] l IH]; [done|]. cbn. by rewrite IH.
Qed.

Lemma billingString_throws v : forall depth, throws_only billing_exn (billingString v depth).
Proof.
  induction v as [v IH] using value_children_ind. rewrite Forall_forall in IH.
  setoid_rewrite <- list_elem_of_In in IH. intros depth. rewrite billingString_eq.
  case_match; [by eexists|]. destruct v as [| | |x| |items|fields]; try done.
  - unfold number_string. repeat case_match; try done. by eexists.
  - apply throws_only_bind; [|done]. apply map_result_throws. auto.
  - apply throws_only_bind; [|done]. apply map_result_throws.
    intros [k r] Hk. rewrite sort_entries_elem, list_elem_of_In, in_map_iff in Hk.
    destruct Hk as ([k' a] & [= <- <-] & Ha). apply throws_only_bind; [|done]. apply IH.
    cbn. apply list_elem_of_In, in_map_iff. by exists (k', a).
Qed.

Lemma billingString_total v : forall depth,
  finite_numbers v = true -> (depth + Z.of_nat (value_height v) <= 128)%Z ->
  exists s, billingString v depth = Ok s.
Proof.
  induction v as [v IH] using value_children_ind. rewrite Forall_forall in IH.
  setoid_rewrite <- list_elem_of_In in IH. intros depth Hf Hh. rewrite billingString_eq.
  replace (128 <? depth)%Z with false by lia.
  destruct v as [| | |x| |items|fields]; try by eexists.
  - cbn in Hf. unfold number_string. rewrite Hf. cbn [negb]. destruct (num_is_neg_zero x); [eauto|].
    destruct (exponential_parts x). case_match; eauto.
  - destruct (map_result_total (fun item => billingString item (depth + 1)) items) as [ts ->];
      [|by eexists].
    intros a Ha. apply IH; [done| |].
    + cbn in Hf. rewrite forallb_forall in Hf. by apply Hf, list_elem_of_In.
    + cbn in Hh. clear -Ha Hh. induction items as [|b l IH]; [by apply elem_of_nil in Ha|].
      cbn in Hh. apply elem_of_cons in Ha as [->|Ha]; [lia|]. apply IH; [|done]. lia.
  - edestruct (map_result_total (fun entry : str * outcome str =>
        t ← entry.2; Ok (entry.1 ++ u ":" ++ t))) as [ts ->]; [|by eexists].
    intros [k r] Hk. rewrite sort_entries_elem, list_elem_of_In, in_map_iff in Hk.
    destruct Hk as ([k' a] & [= <- <-] & Ha). cbn [fst snd].
    destruct (IH a) with (depth := (depth + 1)%Z) as [t ->]; [| | |by eexists].
    + cbn. apply list_elem_of_In, in_map_iff. by exists (k', a).
    + cbn in Hf. rewrite forallb_forall in Hf. by apply (Hf (k', a)).
    + cbn in Hh. clear -Ha Hh. induction fields as [|b l IH]; [done|].
      cbn in Hh. destruct Ha as [->|Ha]; [cbn in Hh; lia|]. apply IH; [|done]. lia.
Qed.
