(* ===== verification/BillingTime.v ===== *)
(** * The time of day in a billing zone

    [timeInBillingZone] of [billing-expression/runtime.ts].  [Intl] and the
    Unicode case tables belong to the JavaScript host: they are a parameter of
    the model, the class [Host]; what the engine relies on is [HostLaws]. *)

From Stdlib Require Import String.
From S2P Require Import Prelude JsNumber JsString JsText Ast.

(** A [Date] is its time value in milliseconds; [None] is an invalid date. *)
Abbreviation date := (option Z).

(** An [Intl.DateTimeFormat] built with the options of the source. *)
Record Formatter : Type := {
  resolvedTimeZone : str;
  formatToParts : Z -> list (str * str);
}.

Class Host : Type := {
  toLowerCase : str -> str;
  (** [None]: the constructor throws. *)
  DateTimeFormat : str -> option Formatter;
}.

(** [Record<TimeFunction, number>] *)
Record TimeValues : Type := {
  tv_hour : number;
  tv_minute : number;
  tv_weekday : number;
  tv_month : number;
  tv_day : number;
}.

Definition time_value (v : TimeValues) (f : TimeFunction) : number :=
  match f with
  | Time_hour => tv_hour v
  | Time_minute => tv_minute v
  | Time_weekday => tv_weekday v
  | Time_month => tv_month v
  | Time_day => tv_day v
  end.

(** ** The UTC getters of [Date] *)

Open Scope Z_scope.

Definition msPerDay : Z := 86400000.
Definition epoch_day (t : Z) : Z := t / msPerDay.

Definition getUTCHours (t : Z) : Z := (t / 3600000) mod 24.
Definition getUTCMinutes (t : Z) : Z := (t / 60000) mod 60.
Definition getUTCDay (t : Z) : Z := (epoch_day t + 4) mod 7.

(** Day of a 400-year era that starts on 1 March, its year of the era and its
    day of that year. *)
Definition day_of_era (t : Z) : Z := (epoch_day t + 719468) mod 146097.
Definition year_of_era (doe : Z) : Z :=
  (doe - doe / 1460 + doe / 36524 - doe / 146096) / 365.
Definition day_of_year (doe : Z) : Z :=
  let yoe := year_of_era doe in doe - (365 * yoe + yoe / 4 - yoe / 100).
(** Months counted from March. *)
Definition month_of_year (doy : Z) : Z := (5 * doy + 2) / 153.

Definition getUTCMonth (t : Z) : Z :=
  let mp := month_of_year (day_of_year (day_of_era t)) in
  if mp <? 10 then mp + 2 else mp - 10.
Definition getUTCDate (t : Z) : Z :=
  let doy := day_of_year (day_of_era t) in
  doy - (153 * month_of_year doy + 2) / 5 + 1.

(** ** [timeInBillingZone] *)

Definition is_zone_char (c : N) : bool :=
  is_upper c || is_lower c || is_digit c || N.eqb c 95 || N.eqb c 43 || N.eqb c 45.

(** Matches a name of the form [A...] or [A.../B...]: [started] says that the
    part being read has its first letter. *)
Fixpoint zone_rest (s : str) (started : bool) : bool :=
  match s with
  | [] => started
  | c :: s =>
      if (started : bool) then
        if N.eqb c 47 then zone_rest s false else is_zone_char c && zone_rest s true
      else is_upper c && zone_rest s true
  end.
Definition is_zone_name (zone : str) : bool := zone_rest zone false.

Definition WEEKDAYS : list str :=
  [u "Sun"; u "Mon"; u "Tue"; u "Wed"; u "Thu"; u "Fri"; u "Sat"].

(** [indexOf]: [-1] when absent. *)
Fixpoint index_of (x : str) (l : list str) : option Z :=
  match l with
  | [] => None
  | y :: l => if str_eqb y x then Some 0 else Z.succ <$> index_of x l
  end.

(** [Object.fromEntries(...)[key]]: the last entry of a key counts. *)
Fixpoint part_of (key : str) (parts : list (str * str)) : option str :=
  match parts with
  | [] => None
  | (k, v) :: parts =>
      match part_of key parts with
      | Some v' => Some v'
      | None => if str_eqb k key then Some v else None
      end
  end.

(** [Number(parts.key)] *)
Definition part_number (key : str) (parts : list (str * str)) : number :=
  match part_of key parts with Some text => to_number text | None => NaN end.

Definition utc_values (t : Z) : TimeValues :=
  {| tv_hour := of_Z (getUTCHours t);
     tv_minute := of_Z (getUTCMinutes t);
     tv_weekday := of_Z (getUTCDay t);
     tv_month := of_Z (getUTCMonth t + 1);
     tv_day := of_Z (getUTCDate t) |}.

Definition zone_values (f : Formatter) (t : Z) : TimeValues :=
  let parts := formatToParts f t in
  {| tv_hour := part_number (u "hour") parts;
     tv_minute := part_number (u "minute") parts;
     tv_weekday :=
       of_Z (match part_of (u "weekday") parts with
             | Some name => default (-1) (index_of name WEEKDAYS)
             | None => -1 end);
     tv_month := part_number (u "month") parts;
     tv_day := part_number (u "day") parts |}.

Section zones.
Context `{Host}.

(** The [try] block: the formatter of a zone that is spelled as the host
    spells it. *)
Definition zone_formatter (timezone : str) : option Formatter :=
  if negb (is_zone_name timezone) then None
  else match DateTimeFormat timezone with
       | Some formatter =>
           let resolved := resolvedTimeZone formatter in
           if str_eqb (toLowerCase resolved) (toLowerCase timezone)
              && negb (str_eqb resolved timezone)
           then None else Some formatter
       | None => None
       end.

Definition timeInBillingZone (now : date) (zone : str) : outcome TimeValues :=
  match now with
  | None => Throw (billing_error D_type (u "simulation time"))
  | Some t =>
      let timezone := if nonempty (trim zone) then trim zone else u "UTC" in
      if str_eqb timezone (u "Local") then
        Throw (billing_error D_unsupported (u "server Local timezone"))
      else match zone_formatter timezone with
           | None => Ok (utc_values t)
           | Some formatter => Ok (zone_values formatter t)
           end
  end.
End zones.

(** ** Ranges *)

Record calendar_range (v : TimeValues) : Prop := {
  range_hour : exists n, tv_hour v = of_Z n /\ 0 <= n <= 23;
  range_minute : exists n, tv_minute v = of_Z n /\ 0 <= n <= 59;
  range_weekday : exists n, tv_weekday v = of_Z n /\ 0 <= n <= 6;
  range_month : exists n, tv_month v = of_Z n /\ 1 <= n <= 12;
  range_day : exists n, tv_day v = of_Z n /\ 1 <= n <= 31;
}.

(** A part that reads as a number in a range. *)
Definition part_in (key : string) (lo hi : Z) (parts : list (str * str)) : Prop :=
  exists text n, part_of (u key) parts = Some text /\ to_number text = of_Z n /\ lo <= n <= hi.

(** The documented behaviour of [formatToParts] with numeric fields, the
    [h23] hour cycle, short weekdays and the en-US locale. *)
Class HostLaws `{Host} : Prop := {
  format_fields : forall zone f t, DateTimeFormat zone = Some f ->
    let parts := formatToParts f t in
    part_in "hour" 0 23 parts /\ part_in "minute" 0 59 parts /\
    part_in "month" 1 12 parts /\ part_in "day" 1 31 parts /\
    exists name, part_of (u "weekday") parts = Some name /\ name ∈ WEEKDAYS;
}.

Lemma part_number_in key lo hi parts :
  part_in key lo hi parts -> exists n, part_number (u key) parts = of_Z n /\ lo <= n <= hi.
Proof. intros (text & n & Hp & Hn & Hr). exists n. unfold part_number. by rewrite Hp. Qed.

Lemma index_of_range name l :
  name ∈ l -> exists n, index_of name l = Some n /\ 0 <= n < Z.of_nat (length l).
Proof.
  induction l as [|x l IH]; [by intros ?%elem_of_nil|]. cbn [index_of length].
  destruct (str_eqb x name) eqn:E; [intros _; exists 0; split; [done|lia]|].
  intros [->|Hl]%elem_of_cons; [by rewrite str_eqb_refl in E|].
  destruct (IH Hl) as (n & -> & Hn). exists (Z.succ n). split; [done|]. lia.
Qed.

Lemma zone_values_range `{HostLaws} zone f t :
  DateTimeFormat zone = Some f -> calendar_range (zone_values f t).
Proof.
  intros Hf. destruct (format_fields zone f t Hf) as (H1 & H2 & H3 & H4 & name & Hname & Hin).
  constructor; cbn [zone_values tv_hour tv_minute tv_weekday tv_month tv_day];
    try (by apply part_number_in).
  rewrite Hname. destruct (index_of_range _ _ Hin) as (n & -> & Hn).
  exists n. split; [done|]. cbn in Hn. lia.
Qed.

Lemma year_of_era_range doe : 0 <= doe < 146097 ->
  let yoe := year_of_era doe in
  0 <= yoe <= 399 /\ 0 <= day_of_year doe <= 365.
Proof.
  intros Hd. unfold day_of_year, year_of_era. cbv zeta.
  pose proof (Z.div_mod doe 1460). pose proof (Z.mod_pos_bound doe 1460).
  pose proof (Z.div_mod doe 36524). pose proof (Z.mod_pos_bound doe 36524).
  pose proof (Z.div_mod doe 146096). pose proof (Z.mod_pos_bound doe 146096).
  set (a := doe / 1460) in *. set (b := doe / 36524) in *. set (c := doe / 146096) in *.
  pose proof (Z.div_mod (doe - a + b - c) 365).
  pose proof (Z.mod_pos_bound (doe - a + b - c) 365).
  set (y := (doe - a + b - c) / 365) in *.
  pose proof (Z.div_mod y 4). pose proof (Z.mod_pos_bound y 4).
  pose proof (Z.div_mod y 100). pose proof (Z.mod_pos_bound y 100).
  set (q := y / 4) in *. set (h := y / 100) in *.
  lia.
Qed.

Lemma month_of_year_range doy : 0 <= doy <= 365 ->
  0 <= month_of_year doy <= 11 /\
  1 <= doy - (153 * month_of_year doy + 2) / 5 + 1 <= 31.
Proof.
  intros Hd. unfold month_of_year.
  pose proof (Z.div_mod (5 * doy + 2) 153). pose proof (Z.mod_pos_bound (5 * doy + 2) 153).
  set (m := (5 * doy + 2) / 153) in *.
  pose proof (Z.div_mod (153 * m + 2) 5). pose proof (Z.mod_pos_bound (153 * m + 2) 5).
  set (k := (153 * m + 2) / 5) in *. lia.
Qed.

Lemma utc_values_range t : calendar_range (utc_values t).
Proof.
  assert (0 <= day_of_era t < 146097) as Hd by (apply Z.mod_pos_bound; lia).
  destruct (year_of_era_range _ Hd) as [_ Hy]. destruct (month_of_year_range _ Hy) as [Hm Hday].
  constructor; cbn [utc_values tv_hour tv_minute tv_weekday tv_month tv_day];
    eexists; (split; [reflexivity|]).
  - enough (0 <= getUTCHours t < 24) by lia. apply Z.mod_pos_bound. lia.
  - enough (0 <= getUTCMinutes t < 60) by lia. apply Z.mod_pos_bound. lia.
  - enough (0 <= getUTCDay t < 7) by lia. apply Z.mod_pos_bound. lia.
  - unfold getUTCMonth. cbv zeta.
    destruct (Z.ltb_spec (month_of_year (day_of_year (day_of_era t))) 10); lia.
  - exact Hday.
Qed.

Lemma zone_formatter_known `{Host} zone f :
  zone_formatter zone = Some f -> DateTimeFormat zone = Some f.
Proof. unfold zone_formatter. intros. destruct_matches. Qed.

(** Every outcome of [timeInBillingZone]. *)
Lemma timeInBillingZone_spec `{HostLaws} now zone :
  match timeInBillingZone now zone with
  | Ok v => calendar_range v
  | Throw e => billing_exn e
  end.
Proof.
  unfold timeInBillingZone. destruct now as [t|]; [|by eexists].
  destruct (str_eqb _ _); [by eexists|].
  destruct (zone_formatter _) as [f|] eqn:Ef; [|apply utc_values_range].
  by eapply zone_values_range, zone_formatter_known.
Qed.

(** ** A host with two zones *)

Definition ascii_lower (s : str) : str := map (fun c => if is_upper c then (c + 32)%N else c) s.

Definition fixed_offset (name : str) (offset : Z) : Formatter :=
  {| resolvedTimeZone := name;
     formatToParts t :=
       let t := t + offset in
       [(u "weekday", nth (Z.to_nat (getUTCDay t)) WEEKDAYS []);
        (u "literal", u ", ");
        (u "month", number_to_string (of_Z (getUTCMonth t + 1)));
        (u "literal", u "/");
        (u "day", number_to_string (of_Z (getUTCDate t)));
        (u "literal", u ", ");
        (u "hour", number_to_string (of_Z (getUTCHours t)));
        (u "literal", u ":");
        (u "minute", number_to_string (of_Z (getUTCMinutes t)))] |}.

(** [UTC] and [Asia/Shanghai]; case is folded for ASCII letters only. *)
Definition two_zones : Host := {|
  toLowerCase := ascii_lower;
  DateTimeFormat zone :=
    if str_eqb (ascii_lower zone) (u "utc") then Some (fixed_offset (u "UTC") 0)
    else if str_eqb (ascii_lower zone) (u "asia/shanghai")
         then Some (fixed_offset (u "Asia/Shanghai") 28800000) else None;
|}.

Lemma small_text n : 0 <= n <= 60 -> to_number (number_to_string (of_Z n)) = of_Z n.
Proof.
  intros Hn. pose proof (of_Z_valid n) as Hv.
  assert (num_negative (of_Z n) = false /\ num_is_finite (of_Z n) = true) as [Hs Hf].
  { unfold of_Z. rewrite round_sign. split; [lia|].
    pose proof (of_Z_safe n ltac:(lia)) as Hsafe. unfold of_Z in Hsafe.
    destruct (round _ _ _); done. }
  destruct (of_Z n) as [| |[] m e]; try done. by apply to_number_to_string.
Qed.

Lemma fixed_offset_fields name offset t :
  let parts := formatToParts (fixed_offset name offset) t in
  part_in "hour" 0 23 parts /\ part_in "minute" 0 59 parts /\
  part_in "month" 1 12 parts /\ part_in "day" 1 31 parts /\
  exists name, part_of (u "weekday") parts = Some name /\ name ∈ WEEKDAYS.
Proof.
  assert (0 <= day_of_era (t + offset) < 146097) as Hd by (apply Z.mod_pos_bound; lia).
  destruct (year_of_era_range _ Hd) as [_ Hy]. destruct (month_of_year_range _ Hy) as [Hm Hday].
  assert (0 <= getUTCMonth (t + offset) <= 11) as Hmonth.
  { unfold getUTCMonth. cbv zeta. destruct (Z.ltb_spec (month_of_year (day_of_year (day_of_era (t + offset)))) 10); lia. }
  assert (1 <= getUTCDate (t + offset) <= 31) as Hdate by exact Hday.
  assert (0 <= getUTCHours (t + offset) <= 23) as Hh 
    by (enough (0 <= getUTCHours (t + offset) < 24) by lia; apply Z.mod_pos_bound; lia).
  assert (0 <= getUTCMinutes (t + offset) <= 59) as Hmi 
    by (enough (0 <= getUTCMinutes (t + offset) < 60) by lia; apply Z.mod_pos_bound; lia).
  cbn zeta. split_and!; try (eexists _, _; split; [reflexivity|]; split; [apply small_text; lia|lia]).
  eexists. split; [reflexivity|]. apply list_elem_of_In, nth_In.
  enough (0 <= getUTCDay (t + offset) < 7) by (cbn [length WEEKDAYS]; lia).
  apply Z.mod_pos_bound. lia.
Qed.

Lemma two_zones_laws : @HostLaws two_zones.
Proof.
  constructor. intros zone f t. cbn [DateTimeFormat two_zones].
  repeat case_match; intros [= <-]; apply fixed_offset_fields.
Qed.
