(* ===== verification/Runtime.v ===== *)
(** * The interpreter of billing expressions

    The class [BillingRuntime] of [billing-expression/runtime.ts] with
    [evaluateBillingCondition] and [evaluateBillingExpression].  The mutable
    fields of the class are a record threaded through the [method] monad; its
    constant fields are the context of the section. *)

From Stdlib Require Import String.
From S2P Require Import Prelude JsNumber JsString JsText Ast Parser Compile Request.
From S2P Require Import BillingTime.

(** ** Data *)

(** [RuntimeValue]; an absent [integer] flag is [false]. *)
Record RuntimeValue : Type := Rv { rv_value : value; rv_integer : bool }.

Record BillingRequest : Type := {
  req_body : value;
  req_headers : option (list (str * value));
}.

(** An absent property is [None]; [ctx_now = Some None] is an invalid date. *)
Record BillingSimulationContext : Type := {
  ctx_imageCount : option number;
  ctx_tokens : option (list (str * value));
  ctx_request : option BillingRequest;
  ctx_usage : option (list (str * value));
  ctx_now : option date;
}.

Definition empty_context : BillingSimulationContext :=
  {| ctx_imageCount := None; ctx_tokens := None; ctx_request := None;
     ctx_usage := None; ctx_now := None |}.

Inductive BillingUnit : Type := Unit_token | Unit_request.

(** The fields of [BillingRuntime] that change. *)
Record RuntimeState : Type := {
  requestRules : list BillingRequestRule;
  matchedTier : str;
  billingUnit : BillingUnit;
  fixedPrice : option number;
  timeValues : list (str * TimeValues);
  depth : Z;
}.

Definition set_requestRules v s :=
  {| requestRules := v; matchedTier := matchedTier s; billingUnit := billingUnit s;
     fixedPrice := fixedPrice s; timeValues := timeValues s; depth := depth s |}.
Definition set_matchedTier v s :=
  {| requestRules := requestRules s; matchedTier := v; billingUnit := billingUnit s;
     fixedPrice := fixedPrice s; timeValues := timeValues s; depth := depth s |}.
Definition set_fixed amount s :=
  {| requestRules := requestRules s; matchedTier := matchedTier s; billingUnit := Unit_request;
     fixedPrice := Some amount; timeValues := timeValues s; depth := depth s |}.
Definition set_timeValues v s :=
  {| requestRules := requestRules s; matchedTier := matchedTier s; billingUnit := billingUnit s;
     fixedPrice := fixedPrice s; timeValues := v; depth := depth s |}.
Definition set_depth v s :=
  {| requestRules := requestRules s; matchedTier := matchedTier s; billingUnit := billingUnit s;
     fixedPrice := fixedPrice s; timeValues := timeValues s; depth := v |}.

Definition error_at {S A} (c : DiagnosticCode) (d : str) (node : ExpressionNode)
  : method S exn A := throwing (billing_error_at c d (node_start node)).

(** [rules[i].matched = true] *)
Definition mark_matched (r : BillingRequestRule) : BillingRequestRule :=
  Rule (rule_cond r) (rule_multiplier r) true.

(** [findIndex((rule) => rule.node === node)] *)
Definition rule_index (rules : list CompiledRule) (node : ExpressionNode) : option nat :=
  fst <$> list_find (fun r => same_node (cr_node r) node = true) rules.

(** [a === b] on values that are not both objects. *)
Definition strict_equal (a b : value) : bool :=
  match a, b with
  | VUndefined, VUndefined | VNull, VNull => true
  | VBoolean x, VBoolean y => eqb x y
  | VNumber x, VNumber y => num_eqb x y
  | VString x, VString y => str_eqb x y
  | _, _ => false
  end.

Definition is_object (v : value) : bool :=
  match v with VArray _ | VObject _ => true | _ => false end.
Definition is_null (v : value) : bool := match v with VNull => true | _ => false end.

(** Comparisons of two numbers or two strings; [None]: not a comparison. *)
Definition compare_values (o : BinaryOperator) (a b : value) : option bool :=
  match a, b with
  | VNumber x, VNumber y =>
      match o with
      | Op_lt => Some (num_ltb x y) | Op_le => Some (num_leb x y)
      | Op_gt => Some (num_gtb x y) | Op_ge => Some (num_geb x y)
      | _ => None end
  | VString x, VString y =>
      match o with
      | Op_lt => Some (str_ltb x y) | Op_le => Some (str_leb x y)
      | Op_gt => Some (str_ltb y x) | Op_ge => Some (str_leb y x)
      | _ => None end
  | _, _ => None
  end.

Abbreviation running := (method RuntimeState exn).

Section BillingRuntime.
Context `{Host}.
Context (rules : list CompiledRule) (context : BillingSimulationContext)
        (now : date) (headers : list (str * str)).

Section with_evaluate.
Context (evaluate : ExpressionNode -> running RuntimeValue).

Definition boolean (node : ExpressionNode) : running bool :=
  result ← evaluate node;
  match rv_value result with
  | VBoolean b => mret b
  | _ => error_at D_type (u "boolean condition") node
  end.

Definition numeric (node : ExpressionNode) : running (number * bool) :=
  result ← evaluate node;
  match rv_value result with
  | VNumber x => mret (x, rv_integer result)
  | _ => error_at D_type (u "numeric operand") node
  end.

Definition string_ (node : ExpressionNode) : running str :=
  result ← evaluate node;
  match rv_value result with
  | VString s => mret s
  | _ => error_at D_type (u "string argument") node
  end.

(** The part of [binary] behind the evaluation of both operands. *)
Definition apply_binary (node : ExpressionNode) (operator : BinaryOperator)
    (lhs rhs : RuntimeValue) : running RuntimeValue :=
  let a := rv_value lhs in
  let b := rv_value rhs in
  if bool_decide (operator = Op_eq) || bool_decide (operator = Op_ne) then
    if negb (is_null a) && negb (is_null b) && (is_object a || is_object b)
    then error_at D_unsupported (u "object comparison") node
    else
      let equal := strict_equal a b in
      mret (Rv (VBoolean (if bool_decide (operator = Op_eq) then equal else negb equal)) false)
  else
    match a, b, operator with
    | VString x, VString y, Op_add => mret (Rv (VString (x ++ y)) false)
    | _, _, _ =>
        match compare_values operator a b with
        | Some result => mret (Rv (VBoolean result) false)
        | None =>
            match a, b with
            | VNumber x, VNumber y =>
                let integer := rv_integer lhs && rv_integer rhs in
                match operator with
                | Op_add => mret (Rv (VNumber (num_add x y)) integer)
                | Op_sub => mret (Rv (VNumber (num_sub x y)) integer)
                | Op_mul => mret (Rv (VNumber (num_mul x y)) integer)
                | Op_div => mret (Rv (VNumber (num_div x y)) false)
                | Op_mod =>
                    if negb integer then error_at D_type (u "integer modulo") node
                    else mret (Rv (VNumber (num_rem x y)) true)
                | _ => error_at D_unsupported (operator_text operator) node
                end
            | _, _ => error_at D_type (operator_text operator) node
            end
        end
    end.

Definition binary (node : ExpressionNode) (operator : BinaryOperator)
    (left_ right_ : ExpressionNode) : running RuntimeValue :=
  match operator with
  | Op_and =>
      a ← boolean left_;
      if (a : bool) then b ← boolean right_; mret (Rv (VBoolean b) false)
      else mret (Rv (VBoolean false) false)
  | Op_or =>
      a ← boolean left_;
      if (a : bool) then mret (Rv (VBoolean true) false)
      else b ← boolean right_; mret (Rv (VBoolean b) false)
  | _ =>
      lhs ← evaluate left_;
      rhs ← evaluate right_;
      apply_binary node operator lhs rhs
  end.

(** The time values of a zone are computed once per run. *)
Definition time_call (t : TimeFunction) (zone : str) : running RuntimeValue :=
  s ← get;
  match assoc_get zone (timeValues s) with
  | Some values => mret (Rv (VNumber (time_value values t)) true)
  | None =>
      values ← lift (timeInBillingZone now zone);
      _ ← modify (set_timeValues (assoc_set zone values (timeValues s)));
      mret (Rv (VNumber (time_value values t)) true)
  end.

(** [has(source, substring)] behind the evaluation of its arguments. *)
Definition has_substring (source : value) (substring : str) : outcome bool :=
  if negb (nullish source) && nonempty substring
  then text ← billingString source 0; Ok (includes text substring)
  else Ok false.

(** A missing argument is used as [undefined] and throws. *)
Definition missing {A} : running A := throwing undefined_property.

Definition call (node : ExpressionNode) (name : BillingFunction) (args : list ExpressionNode)
  : running RuntimeValue :=
  match args with
  | [] => missing
  | arg0 :: rest =>
      match name with
      | Fn_fixed =>
          amount ← numeric arg0;
          _ ← modify (set_fixed amount.1);
          mret (Rv (VNumber (num_mul amount.1 million)) false)
      | Fn_tier =>
          name ← string_ arg0;
          match rest with
          | [] => missing
          | arg1 :: _ =>
              v ← numeric arg1;
              _ ← modify (set_matchedTier name);
              mret (Rv (VNumber v.1) false)
          end
      | Fn_param =>
          path ← string_ arg0;
          match ctx_request context with
          | None => error_at D_missing_context (u "request body") node
          | Some request =>
              v ← lift (readRequestPath (req_body request) path); mret (Rv v false)
          end
      | Fn_header =>
          name ← string_ arg0;
          match ctx_request context with
          | None => error_at D_missing_context (u "request headers") node
          | Some _ =>
              mret (Rv (VString (default [] (assoc_get (toLowerCase (trim name)) headers))) false)
          end
      | Fn_u =>
          name ← string_ arg0;
          match ctx_usage context with
          | None => error_at D_missing_context (u "task usage") node
          | Some usage => mret (Rv (default VNull (assoc_get name usage)) false)
          end
      | Fn_has =>
          source ← evaluate arg0;
          match rest with
          | [] => missing
          | arg1 :: _ =>
              substring ← string_ arg1;
              b ← lift (has_substring (rv_value source) substring);
              mret (Rv (VBoolean b) false)
          end
      | Fn_min =>
          a ← numeric arg0;
          match rest with
          | [] => missing
          | arg1 :: _ => b ← numeric arg1; mret (Rv (VNumber (num_min a.1 b.1)) false)
          end
      | Fn_max =>
          a ← numeric arg0;
          match rest with
          | [] => missing
          | arg1 :: _ => b ← numeric arg1; mret (Rv (VNumber (num_max a.1 b.1)) false)
          end
      | Fn_abs => a ← numeric arg0; mret (Rv (VNumber (num_abs a.1)) false)
      | Fn_floor => a ← numeric arg0; mret (Rv (VNumber (num_floor a.1)) false)
      | Fn_ceil => a ← numeric arg0; mret (Rv (VNumber (num_ceil a.1)) false)
      | Fn_time t => zone ← string_ arg0; time_call t (trim zone)
      end
  end.

Definition image_count_ok (x : number) : bool :=
  num_is_integer x && negb (num_ltb x one) && negb (num_gtb x (of_Z 128)).

Definition evaluate_variable (node : ExpressionNode) (name : BillingVariable)
  : running RuntimeValue :=
  match name with
  | Var_image_count =>
      let v := default one (ctx_imageCount context) in
      if negb (image_count_ok v)
      then error_at D_number (u "image_count must be between 1 and 128") node
      else mret (Rv (VNumber v) false)
  | _ =>
      let v := match ctx_tokens context with
               | Some tokens => default VUndefined (assoc_get (variable_text name) tokens)
               | None => VUndefined end in
      match v with
      | VUndefined => error_at D_missing_context (variable_text name) node
      | VNumber x =>
          if num_ltb x zero then error_at D_number (variable_text name) node
          else mret (Rv v false)
      | _ => error_at D_number (variable_text name) node
      end
  end.

Definition literal_value (v : LiteralValue) : value :=
  match v with
  | LString s => VString s | LNumber x => VNumber x
  | LBoolean b => VBoolean b | LNull => VNull
  end.

(** [this.requestRules[ruleIndex].matched = true] *)
Definition match_rule (node : ExpressionNode) : running unit :=
  match rule_index rules node with
  | Some i => modify (fun s => set_requestRules (alter mark_matched i (requestRules s)) s)
  | None => mret tt
  end.

Definition evaluateNode (node : ExpressionNode) : running RuntimeValue :=
  match node with
  | Literal v integer _ _ => mret (Rv (literal_value v) integer)
  | Variable_ name _ _ => evaluate_variable node name
  | Conditional condition yes no _ _ =>
      c ← boolean condition;
      if (c : bool) then _ ← match_rule node; evaluate yes else evaluate no
  | Unary Un_not operand _ _ =>
      b ← boolean operand; mret (Rv (VBoolean (negb b)) false)
  | Unary Un_minus operand _ _ =>
      a ← numeric operand; mret (Rv (VNumber (num_neg a.1)) a.2)
  | Unary Un_plus operand _ _ =>
      a ← numeric operand; mret (Rv (VNumber a.1) a.2)
  | Binary operator left_ right_ _ _ => binary node operator left_ right_
  | Call name args _ _ => call node name args
  end.
End with_evaluate.

Definition evaluation_depth_error : exn := billing_error D_limit (u "evaluation depth").

(** The check of a number at the end of [evaluate]. *)
Definition check_value (node : ExpressionNode) (v : RuntimeValue) : running unit :=
  match rv_value v with
  | VNumber x =>
      if negb (num_is_finite x) then error_at D_number (u "non-finite result") node
      else if rv_integer v && negb (num_is_safe_integer x)
      then error_at D_unsupported (u "integer precision") node
      else mret tt
  | _ => mret tt
  end.

Fixpoint evaluate (node : ExpressionNode) : running RuntimeValue :=
  s ← get;
  _ ← put (set_depth (depth s + 1) s);
  _ ← method_throw_when (256 <? depth s + 1)%Z evaluation_depth_error;
  v ← evaluateNode evaluate node;
  _ ← check_value node v;
  _ ← modify (fun s => set_depth (depth s - 1) s);
  mret v.
End BillingRuntime.

(** ** The constructor and the exported functions *)

Section entry_points.
Context `{Host}.

(** One header: trimmed, keyed by its lower-case name, dropped when empty. *)
Definition add_header (headers : list (str * str)) (entry : str * value)
  : outcome (list (str * str)) :=
  match entry.2 with
  | VString rawValue =>
      let key := toLowerCase (trim entry.1) in
      let v := trim rawValue in
      Ok (if nonempty key && nonempty v then assoc_set key v headers else headers)
  | _ => Throw (billing_error D_type (u "request header"))
  end.

Definition request_headers (context : BillingSimulationContext) : list (str * value) :=
  match ctx_request context with
  | Some request => default [] (req_headers request)
  | None => []
  end.

Definition initial_rules (rules : list CompiledRule) : list BillingRequestRule :=
  map (fun r => Rule (cr_cond r) (cr_multiplier r) false) rules.

Definition initial_state (rules : list CompiledRule) : RuntimeState :=
  {| requestRules := initial_rules rules; matchedTier := []; billingUnit := Unit_token;
     fixedPrice := None; timeValues := []; depth := 0 |}.

(** [new BillingRuntime(compiled, context).evaluate(node)], where [clock] is
    what [new Date()] reads. *)
Definition run (clock : Z) (compiled : CompiledBillingExpression)
    (context : BillingSimulationContext) (node : ExpressionNode)
  : outcome (RuntimeValue * RuntimeState) :=
  headers ← fold_result add_header [] (request_headers context);
  evaluate (ce_requestRules compiled) context (default (Some clock) (ctx_now context)) headers
    node (initial_state (ce_requestRules compiled)).

Definition evaluateBillingCondition (compiled : CompiledBillingExpression)
    (node : ExpressionNode) (now : date) : option bool :=
  match run 0 compiled {| ctx_imageCount := None; ctx_tokens := None; ctx_request := None;
                          ctx_usage := None; ctx_now := Some now |} node with
  | Ok (result, _) =>
      match rv_value result with VBoolean b => Some b | _ => None end
  | Throw _ => None
  end.

Record BillingEvaluation : Type := Success {
  be_cost : number;
  be_billingUnit : BillingUnit;
  be_imageCount : option number;
  be_fixedPrice : option number;
  be_matchedTier : str;
  be_requestRules : list BillingRequestRule;
}.
Definition BillingEvaluationResult : Type := BillingEvaluation + ExpressionFailure.

Definition is_amount (v : value) : bool :=
  match v with
  | VNumber x => num_is_finite x && negb (num_ltb x zero)
  | _ => false
  end.

Definition check_token (u_ : unit) (entry : str * value) : outcome unit :=
  throw_when (negb (is_amount entry.2)) (billing_error D_number entry.1).

(** The [try] block. *)
Definition evaluate_body (clock : Z) (compiled : CompiledBillingExpression)
    (context : BillingSimulationContext) : outcome BillingEvaluation :=
  _ ← fold_result check_token tt (default [] (ctx_tokens context));
  '(result, runtime) ← run clock compiled context (ce_ast compiled);
  match rv_value result with
  | VNumber cost =>
      if negb (is_amount (VNumber cost))
      then Throw (billing_error D_number (u "billing result"))
      else Ok {| be_cost := cost;
                 be_billingUnit := billingUnit runtime;
                 be_imageCount :=
                   if bool_decide (Var_image_count ∈ ce_variables compiled)
                   then Some (default one (ctx_imageCount context)) else None;
                 be_fixedPrice := fixedPrice runtime;
                 be_matchedTier := matchedTier runtime;
                 be_requestRules := requestRules runtime |}
  | _ => Throw (billing_error D_number (u "billing result"))
  end.

(** [evaluateBillingExpression] on a compiled expression. *)
Definition evaluateCompiled (clock : Z) (compiled : CompiledBillingExpression)
    (context : BillingSimulationContext) : BillingEvaluationResult :=
  match evaluate_body clock compiled context with
  | Ok r => inl r
  | Throw e => inr (expressionFailure e)
  end.

(** [evaluateBillingExpression] on a text, through the compilation cache. *)
Definition evaluateBillingExpression (clock : Z) (cache : CompiledCache) (expression : str)
    (context : BillingSimulationContext) : BillingEvaluationResult * CompiledCache :=
  let '(compiled, cache) := compileBillingExpression cache expression in
  match compiled with
  | inr failure => (inr failure, cache)
  | inl compiled => (evaluateCompiled clock compiled context, cache)
  end.
End entry_points.

(** A request of [p] input and [c] output tokens. *)
Definition tokens_context (p c : Z) : BillingSimulationContext :=
  {| ctx_imageCount := None;
     ctx_tokens := Some [(u "p", VNumber (of_Z p)); (u "c", VNumber (of_Z c))];
     ctx_request := None; ctx_usage := None; ctx_now := Some (Some 0%Z) |}.

(** The cost a text charges for a request, if it compiles and evaluates. *)
Definition cost_of_text `{Host} (source : str) (context : BillingSimulationContext) : option number :=
  match compile source with
  | inl compiled =>
      match evaluateCompiled 0 compiled context with inl r => Some (be_cost r) | inr _ => None end
  | inr _ => None
  end.
