(* ===== verification/RuntimeFacts.v ===== *)
(** * Facts about the interpreter

    One induction on the tree shows what every evaluation keeps and what it
    returns ([evaluate_spec]); the exported functions inherit it. *)

From Stdlib Require Import String.
From S2P Require Import Prelude JsNumber JsString JsText Ast Parser Compile Request.
From S2P Require Import BillingTime Runtime.

Lemma time_value_valid `{Host} now zone v t :
  timeInBillingZone now zone = Ok v -> valid (time_value v t) = true.
Proof.
  unfold timeInBillingZone. intros Hv.
  assert (forall key parts, valid (part_number key parts) = true) as Hp.
  { intros key parts. unfold part_number. destruct (part_of key parts); [apply to_number_valid|done]. }
  destruct_matches; destruct t; cbn [time_value utc_values zone_values tv_hour tv_minute
    tv_weekday tv_month tv_day]; auto using of_Z_valid.
Qed.

(** ** The values of a static type *)

Definition has_type (v : value) (t : ExpressionType) : Prop :=
  match t with
  | T_number => exists x, v = VNumber x
  | T_string => exists s, v = VString s
  | T_boolean => exists b, v = VBoolean b
  | T_nil => v = VNull
  | T_dynamic => True
  end.

(** The one gap of the checker: a sum in which no operand is known to be a
    number is typed as a number, but is a string when both operands turn out to
    be strings.  [joins_texts n]: [n] is such a sum, or may select one. *)
Fixpoint joins_texts (n : ExpressionNode) : bool :=
  match n with
  | Binary Op_add a b _ _ =>
      match infer a with Some T_dynamic | Some T_string => true | _ => joins_texts a end &&
      match infer b with Some T_dynamic | Some T_string => true | _ => joins_texts b end
  | Conditional _ yes no _ _ => joins_texts yes || joins_texts no
  | _ => false
  end.

(** [v] is of the type of [n], or [n] is such a sum and [v] the joined text. *)
Definition value_of_type (n : ExpressionNode) (v : value) (t : ExpressionType) : Prop :=
  has_type v t \/ (t = T_number /\ joins_texts n = true /\ has_type v T_string).

(** An operand that turns out to be a string was not known to be a number. *)
Lemma text_operand n t x :
  infer n = Some t -> value_of_type n (VString x) t ->
  match infer n with Some T_dynamic | Some T_string => true | _ => joins_texts n end = true.
Proof.
  intros -> [Hv|(-> & Hj & _)]; [|done]. destruct t; try done; try (by destruct Hv).
Qed.

(** A number that [evaluate] may return. *)
Definition good_number (x : number) (integer : bool) : Prop :=
  num_is_finite x = true /\ (integer = true -> valid x = true /\ num_is_safe_integer x = true).
Definition good_value (v : RuntimeValue) : Prop :=
  match rv_value v with VNumber x => good_number x (rv_integer v) | _ => True end.

(** Before the check at the end of [evaluate]. *)
Definition raw_value (v : RuntimeValue) : Prop :=
  match rv_value v with VNumber x => rv_integer v = true -> valid x = true | _ => True end.

Lemma good_raw v : good_value v -> raw_value v.
Proof. unfold good_value, raw_value, good_number. destruct (rv_value v); naive_solver. Qed.

Lemma raw_unflagged v : raw_value (Rv v false).
Proof. by destruct v. Qed.

(** A rule of the trace may only become matched. *)
Definition rule_grows (a b : BillingRequestRule) : Prop :=
  rule_cond b = rule_cond a /\ rule_multiplier b = rule_multiplier a /\
  (rule_matched a = true -> rule_matched b = true).

Lemma rule_grows_refl a : rule_grows a a.
Proof. done. Qed.

Lemma rules_grow_trans l1 l2 l3 :
  Forall2 rule_grows l1 l2 -> Forall2 rule_grows l2 l3 -> Forall2 rule_grows l1 l3.
Proof.
  intros H12. revert l3. induction H12 as [|a b l1 l2 Hab _ IH]; intros l3 H23.
  - by inversion H23.
  - inversion H23 as [|? c ? l3' Hbc H23']; subst. constructor; [|auto].
    unfold rule_grows in *. intuition congruence.
Qed.

Lemma rules_grow_refl l : Forall2 rule_grows l l.
Proof. induction l; constructor; auto using rule_grows_refl. Qed.

Lemma rules_grow_mark i l : Forall2 rule_grows l (alter mark_matched i l).
Proof.
  revert i. induction l as [|a l IH]; intros [|i]; cbn; constructor;
    auto using rule_grows_refl, rules_grow_refl.
  unfold rule_grows, mark_matched. done.
Qed.

Section evaluation.
Context `{Host}.
Context (rules : list CompiledRule) (context : BillingSimulationContext)
        (now : date) (headers : list (str * str)).

Abbreviation eval := (evaluate rules context now headers).

Lemma evaluate_unfold node :
  eval node =
  (s ← get;
   _ ← put (set_depth (depth s + 1) s);
   _ ← method_throw_when (256 <? depth s + 1)%Z evaluation_depth_error;
   v ← evaluateNode rules context now headers eval node;
   _ ← check_value node v;
   _ ← modify (fun s => set_depth (depth s - 1) s);
   mret v).
Proof. by destruct node. Qed.

(** Cached time values are the ones of their zone. *)
Definition time_ok (s : RuntimeState) : Prop :=
  forall zone v, assoc_get zone (timeValues s) = Some v -> timeInBillingZone now zone = Ok v.

(** A fixed price is set exactly when requests are charged. *)
Definition unit_ok (s : RuntimeState) : Prop :=
  match billingUnit s with
  | Unit_token => fixedPrice s = None
  | Unit_request => exists x, fixedPrice s = Some x /\ num_is_finite x = true
  end.

Definition fine (s : RuntimeState) : Prop := time_ok s /\ unit_ok s.

(** What a piece of evaluation does to the fields. *)
Record step (s s' : RuntimeState) : Prop := {
  step_fine : fine s';
  step_depth : depth s' = depth s;
  step_rules : Forall2 rule_grows (requestRules s) (requestRules s');
}.

Lemma step_refl s : fine s -> step s s.
Proof. intros Hs. constructor; auto using rules_grow_refl. Qed.

Lemma step_trans s1 s2 s3 : step s1 s2 -> step s2 s3 -> step s1 s3.
Proof.
  intros [H1 H2 H3] [H4 H5 H6]. constructor; [done|congruence|].
  by eapply rules_grow_trans.
Qed.

(** [P v] and the fields follow. *)
Definition yields {A} (P : A -> Prop) (s : RuntimeState) (v : A) (s' : RuntimeState) : Prop :=
  P v /\ step s s'.

Definition evaluates (m : running RuntimeValue) (P : RuntimeValue -> Prop) : Prop :=
  forall s, fine s -> wp billing_exn m (yields P s) s.

Lemma wp_step_bind {A B} (m : running A) (f : A -> running B) (P : A -> Prop) Q s0 s :
  wp billing_exn m (yields P s) s -> step s0 s ->
  (forall a s', P a -> step s0 s' -> wp billing_exn (f a) (yields Q s0) s') ->
  wp billing_exn (m ≫= f) (yields Q s0) s.
Proof.
  intros Hm H0 Hf. apply wp_bind. eapply wp_mono; [exact Hm|]. intros a s' [Ha Hs].
  apply Hf; [done|]. by eapply step_trans.
Qed.

Lemma wp_step_ret {A} (P : A -> Prop) (a : A) s0 s :
  step s0 s -> P a -> wp billing_exn (mret a : running A) (yields P s0) s.
Proof. intros ? ?. apply wp_ret. by split. Qed.

Lemma wp_error_at {A} c d node (Q : A -> RuntimeState -> Prop) s :
  wp billing_exn (error_at c d node) Q s.
Proof. by eexists. Qed.

Lemma wp_lift_throws {A} (r : outcome A) (P : A -> Prop) s0 s :
  throws_only billing_exn r -> (forall a, r = Ok a -> P a) -> step s0 s ->
  wp billing_exn (lift r : running A) (yields P s0) s.
Proof. intros Hr HP Hs. apply wp_lift. destruct r; cbn in *; [split; auto|done]. Qed.
Definition operand (node : ExpressionNode) : Prop := evaluates (eval node) good_value.

Lemma boolean_spec node s :
  operand node -> fine s -> wp billing_exn (boolean eval node) (yields (fun _ => True) s) s.
Proof.
  intros Hn Hs. unfold boolean. eapply wp_step_bind; [by apply Hn|by apply step_refl|].
  intros v s' _ Hst. destruct (rv_value v); first [apply wp_error_at | by apply wp_step_ret].
Qed.

Lemma numeric_spec node s :
  operand node -> fine s ->
  wp billing_exn (numeric eval node) (yields (fun a => good_number a.1 a.2) s) s.
Proof.
  intros Hn Hs. unfold numeric. eapply wp_step_bind; [by apply Hn|by apply step_refl|].
  intros v s' Hv Hst. unfold good_value in Hv. destruct (rv_value v);
    first [apply wp_error_at | by apply wp_step_ret].
Qed.

Lemma string_spec node s :
  operand node -> fine s -> wp billing_exn (string_ eval node) (yields (fun _ => True) s) s.
Proof.
  intros Hn Hs. unfold string_. eapply wp_step_bind; [by apply Hn|by apply step_refl|].
  intros v s' _ Hst. destruct (rv_value v); first [apply wp_error_at | by apply wp_step_ret].
Qed.


(** The values an operator other than [&&] and [||] can give. *)
Definition operator_result (o : BinaryOperator) (a b v : value) : Prop :=
  match o with
  | Op_add => (exists x y, a = VNumber x /\ b = VNumber y /\ v = VNumber (num_add x y)) \/
              (exists x y, a = VString x /\ b = VString y /\ v = VString (x ++ y))
  | Op_sub | Op_mul | Op_div | Op_mod => exists x, v = VNumber x
  | _ => has_type v T_boolean
  end.

Lemma good_integer x y i j :
  good_number x i -> good_number y j -> i && j = true -> valid x = true /\ valid y = true.
Proof. intros [_ Hx] [_ Hy] [-> ->]%andb_true_iff. naive_solver. Qed.

Lemma apply_binary_spec node o l r s0 s :
  o <> Op_and -> o <> Op_or -> good_value l -> good_value r -> step s0 s ->
  wp billing_exn (apply_binary node o l r)
    (yields (fun v => raw_value v /\ operator_result o (rv_value l) (rv_value r) (rv_value v)) s0) s.
Proof.
  intros Hand Hor Hl Hr Hs. unfold apply_binary. cbv zeta.
  destruct (_ || _) eqn:Eeq.
  { destruct (_ && _); [apply wp_error_at|]. apply wp_step_ret; [done|]. split; [done|].
    destruct o; try discriminate Eeq; cbn; eauto. }
  unfold good_value in Hl, Hr. destruct l as [a i], r as [b j]. cbn [rv_value rv_integer] in *.
  destruct a as [| | |x|x| |]; try apply wp_error_at;
    destruct b as [| | |y|y| |]; try (destruct o; apply wp_error_at).
  - destruct o; try discriminate Eeq; try done; cbn [compare_values];
      try (destruct (i && j) eqn:Hij; [|apply wp_error_at]);
      (apply wp_step_ret; [done|]); (split; [|first [by eexists | by left; eexists _, _]]);
      try done; intros Hint; try discriminate Hint;
      first [destruct (good_integer _ _ _ _ Hl Hr Hint) | destruct (good_integer _ _ _ _ Hl Hr Hij)];
      auto using num_add_valid, num_sub_valid, num_mul_valid, num_rem_valid.
  - destruct o; try discriminate Eeq; try done; cbn [compare_values]; try apply wp_error_at;
      (apply wp_step_ret; [done|]); (split; [done|]); [..|].
    all: first [by eexists | by right; eexists _, _].
Qed.

(** A time call gives the zone's value, whatever is cached. *)
Lemma time_call_spec t zone s0 s :
  step s0 s ->
  wp billing_exn (time_call now t zone)
    (yields (fun v => v = Rv (rv_value v) true /\
       exists tv, timeInBillingZone now zone = Ok tv /\ rv_value v = VNumber (time_value tv t))
      s0) s.
Proof.
  intros Hs. destruct (step_fine _ _ Hs) as [Ht Hu]. unfold time_call.
  apply wp_bind, wp_get. destruct (assoc_get zone (timeValues s)) as [tv|] eqn:E.
  { apply wp_step_ret; [done|]. cbn. eauto. }
  apply wp_bind, wp_lift.
  destruct (timeInBillingZone now zone) as [tv|e] eqn:Etv.
  - apply wp_bind, wp_modify, wp_step_ret; [|cbn; eauto].
    eapply step_trans; [exact Hs|]. constructor; [|done|apply rules_grow_refl].
    split; [|exact Hu]. intros z v. cbn [timeValues set_timeValues].
    destruct (decide (zone = z)) as [<-|Hz].
    + rewrite assoc_get_set_eq. by intros [= <-].
    + rewrite assoc_get_set_ne by done. apply Ht.
  - revert Etv. unfold timeInBillingZone. repeat case_match; try done;
      intros [= <-]; by eexists.
Qed.

Lemma has_substring_throws v t : throws_only billing_exn (has_substring v t).
Proof.
  unfold has_substring. case_match; [|done].
  apply throws_only_bind; [apply billingString_throws|done].
Qed.

Lemma step_tier name s0 s : step s0 s -> step s0 (set_matchedTier name s).
Proof. intros [[Ht Hu] Hd Hr]. by constructor. Qed.

Lemma step_fixed amount s0 s :
  num_is_finite amount = true -> step s0 s -> step s0 (set_fixed amount s).
Proof.
  intros Ha [[Ht Hu] Hd Hr]. constructor; [|done|done]. split; [exact Ht|].
  exists amount. done.
Qed.

Ltac eval_step :=
  match goal with
  | |- wp _ (error_at _ _ _) _ _ => apply wp_error_at
  | Hs : step ?s0 ?s |- wp _ (numeric _ ?n ≫= _) _ ?s =>
      eapply wp_step_bind; [apply numeric_spec; [by auto|by apply (step_fine _ _ Hs)]|exact Hs|];
      clear s Hs; intros [? ?] s ? Hs; cbn [fst snd] in *
  | Hs : step ?s0 ?s |- wp _ (string_ _ ?n ≫= _) _ ?s =>
      eapply wp_step_bind; [apply string_spec; [by auto|by apply (step_fine _ _ Hs)]|exact Hs|];
      clear s Hs; intros ? s _ Hs
  | Hs : step ?s0 ?s |- wp _ (boolean _ ?n ≫= _) _ ?s =>
      eapply wp_step_bind; [apply boolean_spec; [by auto|by apply (step_fine _ _ Hs)]|exact Hs|];
      clear s Hs; intros ? s _ Hs
  | Hs : step ?s0 ?s, Hn : operand ?n |- wp _ (evaluate _ _ _ _ ?n ≫= _) _ ?s =>
      eapply wp_step_bind; [apply Hn, (step_fine _ _ Hs)|exact Hs|];
      clear s Hs; intros ? s ? Hs
  | |- wp _ (mret _) _ _ => apply wp_step_ret; [done|]
  end.

(** The result type of a call. *)
Definition call_result (f : BillingFunction) (v : value) : Prop :=
  match f with
  | Fn_param | Fn_u => True
  | Fn_header => has_type v T_string
  | Fn_has => has_type v T_boolean
  | _ => exists x, v = VNumber x
  end.

Lemma call_spec node f args s0 s :
  length args = arity f -> Forall operand args -> step s0 s ->
  wp billing_exn (call context now headers eval node f args)
    (yields (fun v => raw_value v /\ call_result f (rv_value v)) s0) s.
Proof.
  intros Hlen Hargs Hs.
  destruct f; cbn in Hlen; destruct args as [|a [|b [|]]]; try done;
    repeat (apply Forall_cons_iff in Hargs as [? Hargs]); cbn [call];
    repeat eval_step; try (split; [apply raw_unflagged|by eexists]).
  - apply wp_bind, wp_modify, wp_step_ret; [by apply step_tier|].
    split; [apply raw_unflagged|by eexists].
  - apply wp_bind, wp_modify, wp_step_ret; [apply step_fixed; [by destruct H1|done]|].
    split; [apply raw_unflagged|by eexists].
  - destruct (ctx_request context) as [request|]; [|apply wp_error_at].
    eapply wp_step_bind; [apply (wp_lift_throws _ (fun _ => True)); eauto using readRequestPath_throws, step_refl, step_fine|done|].
    intros v s' _ Hs'. eval_step. split; [apply raw_unflagged|done].
  - destruct (ctx_request context); eval_step. split; [done|by eexists].
  - eapply wp_step_bind; [apply (wp_lift_throws _ (fun _ => True)); eauto using has_substring_throws, step_refl, step_fine|done|].
    intros v s' _ Hs'. eval_step. split; [done|by eexists].
  - destruct (ctx_usage context); eval_step. split; [apply raw_unflagged|done].
  - eapply wp_mono; [by apply time_call_spec|].
    intros v s' [(-> & tv & Htv & Hv) Hs']. cbn in Hv. split; [|done]. unfold raw_value. cbn.
    rewrite Hv. split; [|by eexists]. intros _. by eapply time_value_valid.
Qed.

Lemma evaluate_variable_spec node v s0 s :
  step s0 s ->
  wp billing_exn (evaluate_variable context node v)
    (yields (fun v => raw_value v /\ exists x, rv_value v = VNumber x) s0) s.
Proof.
  intros Hs. assert (forall x, yields (fun v => raw_value v /\ exists x, rv_value v = VNumber x) s0
    (Rv (VNumber x) false) s) as Hret by (intros x; split; [split; [done|by eexists]|done]).
  unfold evaluate_variable.
  destruct v; repeat case_match; try apply wp_error_at; apply wp_ret, Hret.
Qed.

Lemma match_rule_spec node s0 s :
  step s0 s -> wp billing_exn (match_rule rules node) (yields (fun _ => True) s0) s.
Proof.
  intros Hs. unfold match_rule. destruct (rule_index rules node) as [i|]; [|by apply wp_step_ret].
  apply wp_modify. split; [done|]. eapply step_trans; [exact Hs|]. destruct (step_fine _ _ Hs).
  constructor; [by split|done|apply rules_grow_mark].
Qed.

Lemma check_value_spec node v s0 s :
  raw_value v -> step s0 s ->
  wp billing_exn (check_value node v) (yields (fun _ => good_value v) s0) s.
Proof.
  intros Hv Hs. unfold check_value. destruct v as [w i]. unfold raw_value, good_value in *.
  cbn [rv_value rv_integer] in *. destruct w as [| | |x| | |]; try (by apply wp_step_ret).
  destruct (num_is_finite x) eqn:Ef; [|apply wp_error_at]. cbn [negb].
  destruct (i && negb (num_is_safe_integer x)) eqn:Es; [apply wp_error_at|].
  apply wp_step_ret; [done|]. split; [done|]. intros ->. split; [auto|].
  by destruct (num_is_safe_integer x).
Qed.

Definition typed_operand (node : ExpressionNode) (t : ExpressionType) : Prop :=
  evaluates (eval node) (fun v => good_value v /\ value_of_type node (rv_value v) t).

Lemma typed_is_operand node t : typed_operand node t -> operand node.
Proof.
  intros Hn s Hs. eapply wp_mono; [by apply Hn|]. intros v s' [[Hg _] Hst]. by split.
Qed.

Lemma typed_operands nodes ts : Forall2 typed_operand nodes ts -> Forall operand nodes.
Proof. induction 1; constructor; eauto using typed_is_operand. Qed.

(** [evaluate] around [evaluateNode]. *)
Lemma evaluate_around node (P : RuntimeValue -> Prop) :
  (forall s0 s, step s0 s ->
    wp billing_exn (evaluateNode rules context now headers eval node)
      (yields (fun v => raw_value v /\ P v) s0) s) ->
  evaluates (eval node) (fun v => good_value v /\ P v).
Proof.
  intros Hn s Hs. rewrite evaluate_unfold.
  apply wp_bind, wp_get, wp_bind, wp_put, wp_bind, wp_throw_when; [by eexists|]. intros _.
  set (s1 := set_depth (depth s + 1) s).
  apply wp_bind. eapply wp_mono; [by apply (Hn s1 s1), step_refl|]. intros v s2 [[Hraw HP] Hst].
  apply wp_bind. eapply wp_mono; [by apply (check_value_spec node v s1 s2)|].
  intros _ s3 [Hgood [[Ht Hu] Hd Hr]]. apply wp_bind, wp_modify, wp_ret. split; [done|].
  constructor; [done| |done]. cbn. rewrite Hd. cbn. lia.
Qed.

Lemma infer_call_result f ts t v : infer_call f ts = Some t -> call_result f v -> has_type v t.
Proof.
  destruct f; cbn; intros Hi Hv; repeat (case_match; try discriminate Hi);
    injection Hi as <-; cbn; auto.
Qed.

Lemma operator_type o a b s e ta tb t v w r :
  infer a = Some ta -> infer b = Some tb -> infer_node (Binary o a b s e) [ta; tb] = Some t ->
  value_of_type a v ta -> value_of_type b w tb -> operator_result o v w r ->
  value_of_type (Binary o a b s e) r t.
Proof.
  intros Hia Hib Hi Hv Hw Hr.
  destruct o; cbn in Hi, Hr; repeat (case_match; try discriminate Hi); injection Hi as <-;
    try (by left); bool_to_prop; subst; destruct Hr as [(x & y & -> & -> & ->)|(x & y & -> & -> & ->)];
    try (by left; eexists).
  - destruct Hv as [[? Hv]|(Hv & _)]; discriminate Hv.
  - right. split; [done|]. split; [|by eexists]. cbn [joins_texts]. apply andb_true_iff.
    split; by eapply text_operand.
Qed.

Lemma binary_spec node o a b ta tb t s e s0 st :
  infer a = Some ta -> infer b = Some tb -> typed_operand a ta -> typed_operand b tb ->
  infer_node (Binary o a b s e) [ta; tb] = Some t -> step s0 st ->
  wp billing_exn (binary eval node o a b)
    (yields (fun v => raw_value v /\ value_of_type (Binary o a b s e) (rv_value v) t) s0) st.
Proof.
  intros Hia Hib Ha Hb Hi Hs.
  pose proof (typed_is_operand _ _ Ha) as Hoa. pose proof (typed_is_operand _ _ Hb) as Hob.
  assert (o <> Op_and -> o <> Op_or ->
    wp billing_exn (lhs ← eval a; rhs ← eval b; apply_binary node o lhs rhs)
      (yields (fun v => raw_value v /\ value_of_type (Binary o a b s e) (rv_value v) t) s0) st)
    as Hother.
  { intros H1 H2. eapply wp_step_bind; [apply Ha, (step_fine _ _ Hs)|done|].
    intros l s1 [Hl Hlt] Hs1. eapply wp_step_bind; [apply Hb, (step_fine _ _ Hs1)|done|].
    intros r s2 [Hr Hrt] Hs2. eapply wp_mono; [by apply apply_binary_spec|].
    intros v s3 [[Hraw Hres] Hs3]. split; [|done]. split; [done|].
    by apply (operator_type o a b s e ta tb t _ _ _ Hia Hib Hi Hlt Hrt). }
  destruct o; try (by apply Hother); clear Hother; cbn in Hi; case_match; try discriminate Hi;
    injection Hi as <-; cbn [binary]; eval_step; case_match; repeat eval_step;
    (split; [done|by left; eexists]).
Qed.

Lemma branch_spec whole node tn t s0 s :
  typed_operand node tn ->
  (forall v, value_of_type node v tn -> value_of_type whole v t) -> step s0 s ->
  wp billing_exn (eval node)
    (yields (fun v => raw_value v /\ value_of_type whole (rv_value v) t) s0) s.
Proof.
  intros Hn Ht Hs. eapply wp_mono; [apply Hn, (step_fine _ _ Hs)|].
  intros v s' [[Hg Hv] Hst]. split; [|by eapply step_trans]. split; auto using good_raw.
Qed.

(** The value of a branch is one of the conditional. *)
Lemma branch_type c y m s e (first : bool) (ty tm : ExpressionType) v :
  value_of_type (if first then y else m) v (if first then ty else tm) ->
  value_of_type (Conditional c y m s e) v (if bool_decide (ty = tm) then ty else T_dynamic).
Proof.
  case_bool_decide as Ht; [subst tm|by left]. intros [Hv|(Hn & Hj & Hv)].
  - left. by destruct first.
  - right. split; [by destruct first|]. split; [|done]. cbn [joins_texts].
    apply orb_true_iff. destruct first; auto.
Qed.

(** A well-typed tree evaluates to a value of its type or throws an error of
    the engine; numbers are finite, integers are safe, and the fields follow. *)
Lemma evaluate_spec node : forall t,
  tree_ok node -> infer node = Some t -> typed_operand node t.
Proof.
  induction node as [node IH] using node_children_ind. intros t Hok Hi.
  rewrite infer_children in Hi. apply bind_Some in Hi as (ts & Hts & Hi).
  apply map_option_Some in Hts. pose proof Hok as [(_ & _ & Hnode) Hch]%tree_ok_children.
  assert (Forall2 typed_operand (children node) ts) as Hops.
  { clear -IH Hts Hch. revert IH Hch. induction Hts as [|c tc l ts Hc _ IHl]; [constructor|].
    intros [Hc' Hl']%Forall_cons_iff [Hok Hokl]%Forall_cons_iff. constructor; auto. }
  pose proof (typed_operands _ _ Hops) as Hall. clear IH Hch.
  apply evaluate_around. intros s0 s Hs.
  destruct node as [v i s1 e|v s1 e|f args s1 e|o a s1 e|o a b s1 e|c y m s1 e];
    cbn [children] in Hops, Hall, Hts; decompose_Forall_hyps; cbn [evaluateNode].
  - apply wp_step_ret; [done|]. split.
    + destruct v; cbn; try done. cbn in Hnode. naive_solver.
    + left. destruct v; cbn; eauto.
  - eapply wp_mono; [by apply evaluate_variable_spec|].
    intros w s' [[Hw Hx] Hst]. split; [|done]. split; [done|]. by left.
  - destruct Hnode as [Hlen%arity_spec _]. eapply wp_mono; [by apply call_spec|].
    intros w s' [[Hw Hx] Hst]. split; [|done]. split; [done|]. left. by eapply infer_call_result.
  - destruct o; cbn in Hi; case_match; try discriminate Hi; injection Hi as <-;
      repeat eval_step; (split; [|left; cbn; eauto]); try done;
      unfold raw_value; cbn; rewrite ?num_neg_valid;
      match goal with Hg : good_number _ _ |- _ => destruct Hg; naive_solver end.
  - by eapply (binary_spec _ _ _ _ _ _ _ s1 e).
  - cbn in Hi. case_match; try discriminate Hi. injection Hi as <-. eval_step.
    case_match.
    + eapply wp_step_bind; [apply match_rule_spec, step_refl, (step_fine _ _ Hs)|done|].
      intros _ s' _ Hs'. eapply branch_spec; [done| |done]. intros v. apply (branch_type c y m s1 e true).
    + eapply branch_spec; [done| |done]. intros v. apply (branch_type c y m s1 e false).
Qed.

(** *** Integer arithmetic

    The integer an expression denotes in unbounded arithmetic: integer
    literals, time functions of a literal zone, [+], [-], [*], [%] and signs. *)
Fixpoint int_value (n : ExpressionNode) : option Z :=
  match n with
  | Literal (LNumber x) true _ _ => Some (num_to_Z x)
  | Call (Fn_time t) [Literal (LString zone) _ _ _] _ _ =>
      match timeInBillingZone now (trim zone) with
      | Ok tv => Some (num_to_Z (time_value tv t))
      | Throw _ => None
      end
  | Unary Un_plus a _ _ => int_value a
  | Unary Un_minus a _ _ => Z.opp <$> int_value a
  | Binary o a b _ _ =>
      x ← int_value a; y ← int_value b;
      match o with
      | Op_add => Some (x + y)%Z
      | Op_sub => Some (x - y)%Z
      | Op_mul => Some (x * y)%Z
      | Op_mod => if (y =? 0)%Z then None else Some (Z.rem x y)
      | _ => None
      end
  | _ => None
  end.

(** An integer result that is exact if it is in the safe range. *)
Definition exact (z : Z) (v : RuntimeValue) : Prop :=
  exists x, v = Rv (VNumber x) true /\ (num_is_safe_integer x = true -> num_to_Z x = z).

Definition exact_operand (n : ExpressionNode) (z : Z) : Prop :=
  evaluates (eval n) (fun v => good_value v /\ exact z v).

Lemma exact_value z v : good_value v -> exact z v ->
  exists x, v = Rv (VNumber x) true /\ num_to_Z x = z /\ valid x = true /\
    num_is_safe_integer x = true.
Proof.
  intros Hg (x & -> & Hx). destruct Hg as [_ Hg]. destruct (Hg eq_refl) as [Hv Hs].
  exists x. auto.
Qed.

Lemma exact_numeric n z s0 s (B : Type) (f : number * bool -> running B) Q :
  exact_operand n z -> step s0 s ->
  (forall x s', num_to_Z x = z -> valid x = true -> num_is_safe_integer x = true ->
     step s0 s' -> wp billing_exn (f (x, true)) (yields Q s0) s') ->
  wp billing_exn (numeric eval n ≫= f) (yields Q s0) s.
Proof.
  intros Hn Hs Hf. apply wp_bind. unfold numeric. apply wp_bind.
  eapply wp_mono; [apply Hn, (step_fine _ _ Hs)|]. intros v s' [[Hg He] Hst].
  destruct (exact_value z v Hg He) as (x & -> & Hz & Hv & Hsafe). cbn [rv_value rv_integer].
  apply wp_ret, Hf; try done. by eapply step_trans.
Qed.

Lemma apply_exact node o x y z s0 s :
  valid x = true -> valid y = true ->
  num_is_safe_integer x = true -> num_is_safe_integer y = true ->
  match o with
  | Op_add => Some (num_to_Z x + num_to_Z y)%Z
  | Op_sub => Some (num_to_Z x - num_to_Z y)%Z
  | Op_mul => Some (num_to_Z x * num_to_Z y)%Z
  | Op_mod => if (num_to_Z y =? 0)%Z then None else Some (Z.rem (num_to_Z x) (num_to_Z y))
  | _ => None
  end = Some z ->
  step s0 s ->
  wp billing_exn (apply_binary node o (Rv (VNumber x) true) (Rv (VNumber y) true))
    (yields (fun v => raw_value v /\ exact z v) s0) s.
Proof.
  intros Hvx Hvy Hx Hy Hz Hs. pose proof (safe_integral _ Hx). pose proof (safe_integral _ Hy).
  destruct o; try discriminate Hz; try (injection Hz as <-);
    try (destruct (Z.eqb_spec (num_to_Z y) 0); [discriminate Hz|injection Hz as <-]);
    apply wp_step_ret; try done; (split;
      [intros _; auto using num_add_valid, num_sub_valid, num_mul_valid, num_rem_valid|]);
    eexists; (split; [reflexivity|]);
    auto using num_add_exact, num_sub_exact, num_mul_exact, num_rem_exact.
Qed.

Lemma literal_text text i s e :
  evaluates (eval (Literal (LString text) i s e)) (fun v => v = Rv (VString text) i).
Proof.
  intros st Hst. eapply wp_mono; [apply (evaluate_around _ (fun v => v = Rv (VString text) i)); [|done]|].
  - intros s0 s1 Hs. by apply wp_step_ret.
  - intros v s1 [[_ Hv] Hs]. by split.
Qed.

Lemma int_value_exact n : forall z, tree_ok n -> int_value n = Some z -> exact_operand n z.
Proof.
  induction n as [n IH] using node_children_ind. intros z Hok Hz.
  pose proof Hok as [(_ & _ & Hnode) Hch]%tree_ok_children.
  apply evaluate_around. intros s0 s Hs.
  destruct n as [v i s1 e|v s1 e|f args s1 e|o a s1 e|o a b s1 e|c y m s1 e];
    cbn [children] in IH, Hch; rewrite ?Forall_cons_iff in IH, Hch; try discriminate Hz.
  - destruct v as [|x| |]; try discriminate Hz. destruct i; try discriminate Hz.
    injection Hz as <-. apply wp_step_ret; [done|]. cbn in Hnode.
    split; [unfold raw_value; cbn; naive_solver|]. exists x. done.
  - destruct f as [| | | | | |t| | | | |]; try discriminate Hz.
    destruct args as [|[[zone| | |] i2 s2 e2| | | | |] [|]]; try discriminate Hz.
    cbn [int_value] in Hz. destruct (timeInBillingZone now (trim zone)) as [tv|] eqn:Etv;
      [|discriminate Hz]. injection Hz as <-.
    cbn [evaluateNode call].
    unfold string_. apply wp_bind, wp_bind.
    eapply wp_mono; [apply literal_text, (step_fine _ _ Hs)|]. intros v s3 [-> Hs3].
    cbn [rv_value]. apply wp_ret. eapply wp_mono; [by apply time_call_spec, (step_trans _ _ _ Hs)|].
    intros w s4 [(Hw & tv' & Htv & Hval) Hs4]. rewrite Hval in Hw.
    assert (tv' = tv) as -> by congruence.
    split; [|done]. rewrite Hw. split; [intros _; by eapply time_value_valid|]. by eexists.
  - destruct Hch as [Hok1 _], IH as [IH _].
    destruct o; try discriminate Hz; cbn [int_value] in Hz; cbn [evaluateNode].
    + eapply exact_numeric; [by apply IH|done|]. intros x s' Hx Hv Hsafe Hst.
      apply wp_step_ret; [done|]. split; [by intros _|]. by exists x.
    + apply fmap_Some in Hz as (w & Hw & ->).
      eapply exact_numeric; [by apply IH|done|]. intros x s' Hx Hv Hsafe Hst.
      apply wp_step_ret; [done|]. split; [intros _; cbn; by rewrite num_neg_valid|].
      eexists. split; [done|]. cbn. by rewrite num_to_Z_neg, Hx.
  - destruct Hch as (Hoka & Hokb & _), IH as (IHa & IHb & _). cbn [int_value] in Hz.
    apply bind_Some in Hz as (za & Hza & Hz). apply bind_Some in Hz as (zb & Hzb & Hz).
    cbn [evaluateNode].
    assert (binary eval (Binary o a b s1 e) o a b =
      (lhs ← eval a; rhs ← eval b; apply_binary (Binary o a b s1 e) o lhs rhs)) as ->
      by (destruct o; done).
    eapply wp_step_bind; [apply (IHa za), (step_fine _ _ Hs); done|done|].
    intros l s2 [Hl Hle] Hs2.
    eapply wp_step_bind; [apply (IHb zb), (step_fine _ _ Hs2); done|done|].
    intros r s3 [Hr Hre] Hs3.
    destruct (exact_value _ _ Hl Hle) as (x & -> & <- & Hvx & Hsx).
    destruct (exact_value _ _ Hr Hre) as (y & -> & <- & Hvy & Hsy).
    by apply apply_exact.
Qed.
End evaluation.

(** ** The exported functions *)

Section runs.
Context `{Host}.

Lemma add_headers_throws l : forall hs, throws_only billing_exn (fold_result add_header hs l).
Proof.
  induction l as [|[k v] l IH]; intros hs; [done|]. cbn [fold_result].
  apply throws_only_bind; [|auto]. unfold add_header. cbn. destruct v; try done; by eexists.
Qed.

Lemma initial_fine rules now : fine now (initial_state rules).
Proof. by split. Qed.

(** A run of a well-typed tree. *)
Lemma run_spec clock compiled context node t :
  tree_ok node -> infer node = Some t ->
  match run clock compiled context node with
  | Ok (v, s) => good_value v /\ value_of_type node (rv_value v) t /\ unit_ok s /\
      Forall2 rule_grows (initial_rules (ce_requestRules compiled)) (requestRules s)
  | Throw e => billing_exn e
  end.
Proof.
  intros Hok Hi. unfold run. pose proof (add_headers_throws (request_headers context) []) as Hh.
  destruct (fold_result add_header _ _) as [hs|e]; [|done]. cbn [mbind result_bind].
  set (now := default (Some clock) (ctx_now context)).
  pose proof (evaluate_spec (ce_requestRules compiled) context now hs node t Hok Hi
    _ (initial_fine (ce_requestRules compiled) now)) as Hw. unfold wp in Hw.
  destruct (evaluate _ _ _ _ _ _) as [[v s]|e]; [|done].
  destruct Hw as [[Hg Ht] [[_ Hu] _ Hr]]. done.
Qed.

Lemma check_tokens_throws l : throws_only billing_exn (fold_result check_token tt l).
Proof.
  induction l as [|[k v] l IH]; [done|]. cbn [fold_result].
  apply throws_only_bind; [|by intros [] _].
  unfold check_token, throw_when. destruct (is_amount (k, v).2); cbn; [done|by eexists].
Qed.

(** What a successful evaluation reports. *)
Record evaluation_ok (compiled : CompiledBillingExpression) (r : BillingEvaluation) : Prop := {
  eo_cost : num_is_finite (be_cost r) = true /\ num_ltb (be_cost r) zero = false;
  eo_unit : match be_billingUnit r with
            | Unit_token => be_fixedPrice r = None
            | Unit_request => exists x, be_fixedPrice r = Some x /\ num_is_finite x = true
            end;
  eo_rules : Forall2 (fun c r => rule_cond r = cr_cond c /\ rule_multiplier r = cr_multiplier c)
               (ce_requestRules compiled) (be_requestRules r);
}.

Lemma initial_rules_grow rules l :
  Forall2 rule_grows (initial_rules rules) l ->
  Forall2 (fun c r => rule_cond r = cr_cond c /\ rule_multiplier r = cr_multiplier c) rules l.
Proof.
  revert l. induction rules as [|r rules IH]; intros l; cbn; [by inversion 1; constructor|].
  inversion 1 as [|? b ? l' (H1 & H2 & _) Hl]; subst. constructor; [done|]. by apply IH.
Qed.

Lemma evaluate_body_spec clock compiled context :
  compiled_ok compiled ->
  match evaluate_body clock compiled context with
  | Ok r => evaluation_ok compiled r
  | Throw e => billing_exn e
  end.
Proof.
  intros Hc. destruct (co_typed _ Hc) as [t Ht]. unfold evaluate_body.
  pose proof (check_tokens_throws (default [] (ctx_tokens context))) as Htok.
  destruct (fold_result check_token _ _) as [[]|e]; [|done]. cbn [mbind result_bind].
  pose proof (run_spec clock compiled context (ce_ast compiled) t (co_tree _ Hc) Ht) as Hr.
  destruct (run _ _ _ _) as [[v s]|e]; [|done]. cbn [mbind result_bind].
  destruct Hr as (Hg & _ & Hu & Hrules).
  destruct (rv_value v) as [| | |x| | |]; try by eexists.
  destruct (is_amount (VNumber x)) eqn:Ea; [|by eexists]. cbn [negb].
  cbn in Ea. bool_to_prop. constructor; cbn; auto using initial_rules_grow.
Qed.
End runs.

(** ** Dependencies cover what an evaluation reads *)

Definition token_of (context : BillingSimulationContext) (v : BillingVariable) : value :=
  match ctx_tokens context with
  | Some tokens => default VUndefined (assoc_get (variable_text v) tokens)
  | None => VUndefined
  end.

Definition same_variable (c1 c2 : BillingSimulationContext) (v : BillingVariable) : Prop :=
  match v with
  | Var_image_count => default one (ctx_imageCount c1) = default one (ctx_imageCount c2)
  | _ => token_of c1 v = token_of c2 v
  end.

Section agreement.
Context `{Host}.
Context (rules : list CompiledRule) (c1 c2 : BillingSimulationContext)
        (now1 now2 : date) (h1 h2 : list (str * str)).

(** The inputs agree on what a set of variables and functions reads. *)
Record agrees (has_variable : BillingVariable -> Prop) (has_call : BillingFunction -> Prop)
  : Prop := {
  agree_variable : forall v, has_variable v -> same_variable c1 c2 v;
  agree_param : has_call Fn_param -> req_body <$> ctx_request c1 = req_body <$> ctx_request c2;
  agree_header : has_call Fn_header ->
    (is_Some (ctx_request c1) <-> is_Some (ctx_request c2)) /\ h1 = h2;
  agree_usage : has_call Fn_u -> ctx_usage c1 = ctx_usage c2;
  agree_time : forall t, has_call (Fn_time t) -> now1 = now2;
}.

Definition agrees_on (n : ExpressionNode) : Prop :=
  agrees (fun v => mentioned v n) (fun f => called f n).

Lemma mentioned_child v n c : c ∈ children n -> mentioned v c -> mentioned v n.
Proof. intros Hc (s & e & Hv). exists s, e. eauto using postorder_child. Qed.

Lemma agrees_child n c : c ∈ children n -> agrees_on n -> agrees_on c.
Proof.
  intros Hc [H1 H2 H3 H4 H5]. constructor; eauto using called_child, mentioned_child.
Qed.

Abbreviation eval1 := (evaluate rules c1 now1 h1).
Abbreviation eval2 := (evaluate rules c2 now2 h2).

Lemma called_self f args s e : called f (Call f args s e).
Proof. exists args, s, e. apply postorder_self. Qed.

Lemma call_agrees node f args s e :
  agrees_on (Call f args s e) -> Forall (fun c => eval1 c = eval2 c) args ->
  call c1 now1 h1 eval1 node f args = call c2 now2 h2 eval2 node f args.
Proof.
  intros Ha Hargs. destruct args as [|a rest]; [done|].
  apply Forall_cons_iff in Hargs as [Hea Hrest]. pose proof (called_self f (a :: rest) s e) as Hf.
  destruct f; cbn [call]; unfold numeric, string_; rewrite ?Hea; try done;
    try (destruct rest as [|b rest]; [done|]; apply Forall_cons_iff in Hrest as [Heb _];
         rewrite ?Heb; done).
  - pose proof (agree_param _ _ Ha Hf) as Hr.
    destruct (ctx_request c1), (ctx_request c2); try discriminate Hr; [|done].
    injection Hr as ->. done.
  - destruct (agree_header _ _ Ha Hf) as [Hr ->].
    destruct (ctx_request c1), (ctx_request c2); try done; exfalso;
      [destruct (proj1 Hr)|destruct (proj2 Hr)]; eauto; done.
  - by rewrite (agree_usage _ _ Ha Hf).
  - by rewrite (agree_time _ _ Ha t Hf).
Qed.

Lemma variable_agrees node v s e :
  agrees_on (Variable_ v s e) -> evaluate_variable c1 node v = evaluate_variable c2 node v.
Proof.
  intros Ha. assert (mentioned v (Variable_ v s e)) as Hm by (exists s, e; apply postorder_self).
  apply (agree_variable _ _ Ha) in Hm. unfold same_variable, token_of in Hm.
  destruct v; unfold evaluate_variable; by rewrite Hm.
Qed.

(** Evaluations from inputs that agree are the same, errors included. *)
Lemma evaluate_agrees n : agrees_on n -> eval1 n = eval2 n.
Proof.
  induction n as [n IH] using node_children_ind. intros Ha.
  assert (Forall (fun c => eval1 c = eval2 c) (children n)) as Hc.
  { rewrite Forall_forall in IH |- *. intros c Hc. apply IH; [done|].
    eapply agrees_child; [|done]. by apply list_elem_of_In. }
  clear IH. rewrite !evaluate_unfold.
  enough (evaluateNode rules c1 now1 h1 eval1 n = evaluateNode rules c2 now2 h2 eval2 n) as ->
    by done.
  destruct n as [| |f args s e|o a s e|o a b s e|c y m s e]; cbn [children] in Hc;
    rewrite ?Forall_cons_iff in Hc; cbn [evaluateNode].
  - done.
  - by eapply variable_agrees.
  - by eapply call_agrees.
  - destruct Hc as [Hea _], o; unfold boolean, numeric; by rewrite Hea.
  - destruct Hc as (Hea & Heb & _). unfold binary, boolean. rewrite Hea, Heb. by destruct o.
  - destruct Hc as (Hec & Hey & Hem & _). unfold boolean. by rewrite Hec, Hey, Hem.
Qed.
End agreement.

(** Inputs the entry checks accept: non-negative finite tokens, string headers. *)
Definition accepted `{Host} (context : BillingSimulationContext) (headers : list (str * str))
  : Prop :=
  fold_result check_token tt (default [] (ctx_tokens context)) = Ok tt /\
  fold_result add_header [] (request_headers context) = Ok headers.

Definition now_of (clock : Z) (context : BillingSimulationContext) : date :=
  default (Some clock) (ctx_now context).

Lemma evaluateCompiled_agrees `{Host} compiled k1 k2 c1 c2 h1 h2 :
  compiled_ok compiled -> accepted c1 h1 -> accepted c2 h2 ->
  agrees c1 c2 (now_of k1 c1) (now_of k2 c2) h1 h2
    (fun v => v ∈ ce_variables compiled) (fun f => f ∈ ce_functions compiled) ->
  evaluateCompiled k1 compiled c1 = evaluateCompiled k2 compiled c2.
Proof.
  intros Hc [Ht1 Hh1] [Ht2 Hh2] Ha.
  assert (agrees_on c1 c2 (now_of k1 c1) (now_of k2 c2) h1 h2 (ce_ast compiled)) as Hon.
  { destruct Ha as [A1 A2 A3 A4 A5].
    constructor; intros; rewrite <- ?(co_functions _ Hc), <- ?(co_variables _ Hc) in *; eauto. }
  unfold evaluateCompiled, evaluate_body, run. rewrite Ht1, Ht2, Hh1, Hh2.
  cbn [mbind result_bind]. fold (now_of k1 c1) (now_of k2 c2).
  rewrite (evaluate_agrees _ _ _ _ _ _ _ _ Hon).
  destruct (evaluate _ _ _ _ _ _) as [[v s]|e]; [|done]. cbn [mbind result_bind].
  destruct (rv_value v) as [| | |x| | |]; try done. destruct (negb (is_amount (VNumber x))); [done|].
  case_bool_decide as Hi; [|done]. pose proof (agree_variable _ _ _ _ _ _ _ _ Ha _ Hi) as Hv.
  cbn in Hv. by rewrite Hv.
Qed.
