(* ===== verification/FixedPrice.v ===== *)
(** * Fixed prices at run time

    What the check of fixed-price expressions ([validateFixedPricingTree])
    buys: a run takes exactly one priced branch, the one its conditions select;
    the reported tier and price are those of that branch, and the cost is the
    price of the branch multiplied by the factors on the way to it.  Conditions,
    names, prices and factors have the value they have when they are evaluated
    on their own ([steady_evaluate]). *)

From Stdlib Require Import String.
From S2P Require Import Prelude JsNumber JsString JsText Ast Parser Compile Request.
From S2P Require Import BillingTime Runtime RuntimeFacts.

(** ** What a priced expression charges

    Stated on the tree, from the values [gives] its parts have. *)

Section charge.
Context (rules : list CompiledRule) (context : BillingSimulationContext)
        (gives : ExpressionNode -> value -> Prop).

(** The value of a factor: the number of images, the multiplier of a request
    rule whose condition holds, or the 1 of a rule whose condition does not. *)
Inductive factor_value : ExpressionNode -> number -> Prop :=
| value_images s e x :
    x = default one (ctx_imageCount context) -> image_count_ok x = true ->
    factor_value (Variable_ Var_image_count s e) x
| value_rule r :
    r ∈ rules -> num_geb (cr_multiplier r) zero = true ->
    gives (cr_condition r) (VBoolean true) -> factor_value (cr_node r) (cr_multiplier r)
| value_one r x :
    r ∈ rules -> num_eqb x one = true -> gives (cr_node r) (VNumber x) ->
    gives (cr_condition r) (VBoolean false) -> factor_value (cr_node r) x.

(** [charged n marks cost]: the tier of [n] that its conditions select has the
    reported name, unit and fixed price [marks], and [cost] is its price
    multiplied by the factors on the way to it. *)
Inductive charged : ExpressionNode -> str * BillingUnit * option number -> number -> Prop :=
| charged_then c y m s e marks cost :
    gives c (VBoolean true) -> charged y marks cost ->
    charged (Conditional c y m s e) marks cost
| charged_else c y m s e marks cost :
    gives c (VBoolean false) -> charged m marks cost ->
    charged (Conditional c y m s e) marks cost
| charged_by_right a b s e marks x f :
    charged a marks x -> factor_value b f ->
    charged (Binary Op_mul a b s e) marks (num_mul x f)
| charged_by_left a b s e marks x f :
    factor_value a f -> charged b marks x ->
    charged (Binary Op_mul a b s e) marks (num_mul f x)
| charged_fixed name tier amount i s1 e1 s2 e2 s e :
    gives name (VString tier) -> fixed_amount_ok (Literal (LNumber amount) i s1 e1) = true ->
    charged (Call Fn_tier [name; Call Fn_fixed [Literal (LNumber amount) i s1 e1] s2 e2] s e)
      (tier, Unit_request, Some amount) (num_mul amount million)
| charged_tokens name tier price x s e :
    gives name (VString tier) -> unmarked price -> gives price (VNumber x) ->
    charged (Call Fn_tier [name; price] s e) (tier, Unit_token, None) x.

Lemma fixed_marked args s e : ~ unmarked (Call Fn_fixed args s e).
Proof. intros [_ Hu]. apply Hu, called_self. Qed.

(** A run charges in one way. *)
Section unique.
Context (Hgives : forall n v w, gives n v -> gives n w -> v = w).
Context (Hrules : forall r, r ∈ rules -> exists source, request_rule source (cr_node r) r).

Lemma rule_not_charged r marks cost : r ∈ rules -> ~ charged (cr_node r) marks cost.
Proof.
  intros Hr Hc. destruct (Hrules r Hr) as [source Hreq]. inversion Hreq as [? ? ? ? ? ? ? ? ? ? ? ? ? E1 E2].
  rewrite <- E1 in Hc. inversion Hc as [? ? ? ? ? ? ? _ Hl|? ? ? ? ? ? ? _ Hl| | | |]; inversion Hl.
Qed.

Lemma factor_not_charged n x marks cost : factor_value n x -> ~ charged n marks cost.
Proof. destruct 1; [inversion 1|by apply rule_not_charged|by apply rule_not_charged]. Qed.

Lemma rule_parts_unique r r' : r ∈ rules -> r' ∈ rules -> cr_node r = cr_node r' ->
  cr_condition r = cr_condition r' /\ cr_multiplier r = cr_multiplier r'.
Proof.
  intros Hr Hr' Hn. destruct (Hrules r Hr) as [? H1], (Hrules r' Hr') as [? H2].
  rewrite <- Hn in H2. inversion H1 as [? ? ? ? ? ? ? ? ? ? ? ? ? E1 E2].
  inversion H2 as [? ? ? ? ? ? ? ? ? ? ? ? ? E3 E4]. rewrite <- E3 in E1. by simplify_eq.
Qed.

Lemma factor_value_unique n x y : factor_value n x -> factor_value n y -> x = y.
Proof.
  assert (forall r b, r ∈ rules -> gives (cr_condition r) (VBoolean b) -> forall r' b',
    r' ∈ rules -> gives (cr_condition r') (VBoolean b') -> cr_node r = cr_node r' -> b = b') as Hb.
  { intros r b Hr Hg r' b' Hr' Hg' E. destruct (rule_parts_unique r r' Hr Hr' E) as [Ec _].
    rewrite <- Ec in Hg'. specialize (Hgives _ _ _ Hg Hg'). congruence. }
  assert (forall r s e, r ∈ rules -> cr_node r <> Variable_ Var_image_count s e) as Hv.
  { intros r s e Hr E. destruct (Hrules r Hr) as [? H1]. rewrite E in H1. inversion H1. }
  intros Hx Hy. inversion Hx as [s e x' Ex Ok En Exx|r Hr Hge Ht En Exx|r x' Hr Ho Hw Ht En Exx];
    inversion Hy as [s' e' y' Ey Ok' En' Eyy|r' Hr' Hge' Ht' En' Eyy|r' y' Hr' Ho' Hw' Ht' En' Eyy];
    subst; try (exfalso; by eapply Hv); try congruence.
  - by destruct (rule_parts_unique r r' Hr Hr').
  - discriminate (Hb r true Hr Ht r' false Hr' Ht' (eq_sym En')).
  - discriminate (Hb r false Hr Ht r' true Hr' Ht' (eq_sym En')).
  - rewrite <- En' in Hw. specialize (Hgives _ _ _ Hw Hw'). congruence.
Qed.

Lemma charged_unique n m1 x1 : charged n m1 x1 ->
  forall m2 x2, charged n m2 x2 -> m2 = m1 /\ x2 = x1.
Proof.
  induction 1 as [c y m s e marks cost Hg Hc IH|c y m s e marks cost Hg Hc IH
    |a b s e marks x f Hc IH Hf|a b s e marks x f Hf Hc IH
    |name tier amount i s1 e1 s2 e2 s e Hg Hok|name tier price x s e Hg Hu Hp];
    intros m2 x2 H2.
  - inversion H2; subst; [by apply IH|].
    assert (VBoolean true = VBoolean false) by eauto. discriminate.
  - inversion H2; subst; [|by apply IH].
    assert (VBoolean true = VBoolean false) by eauto. discriminate.
  - inversion H2 as [| |? ? ? ? ? ? ? Hc2 Hf2|? ? ? ? ? ? ? Hf2 Hc2| |]; subst;
      [|by exfalso; eapply factor_not_charged].
    destruct (IH _ _ Hc2) as [-> ->]. by rewrite (factor_value_unique _ _ _ Hf Hf2).
  - inversion H2 as [| |? ? ? ? ? ? ? Hc2 Hf2|? ? ? ? ? ? ? Hf2 Hc2| |]; subst;
      [by exfalso; eapply factor_not_charged|].
    destruct (IH _ _ Hc2) as [-> ->]. by rewrite (factor_value_unique _ _ _ Hf Hf2).
  - inversion H2; subst; [|exfalso; by eapply fixed_marked].
    assert (VString tier = VString tier0) as [= <-] by eauto. done.
  - inversion H2; subst; [exfalso; by eapply fixed_marked|].
    assert (VString tier = VString tier0) as [= <-] by eauto.
    assert (VNumber x = VNumber x2) as [= <-] by eauto. done.
Qed.
End unique.
End charge.

(** ** Expressions without a price leave the price fields alone *)

Definition marks (s : RuntimeState) : str * BillingUnit * option number :=
  (matchedTier s, billingUnit s, fixedPrice s).

(** [m], if it returns, gives a value with [P] and keeps the price fields. *)
Definition keeps {A} (m : running A) : Prop :=
  forall s, wp (fun _ => True) m (fun _ s' => marks s' = marks s) s.

Lemma keeps_bind {A B} (m : running A) (f : A -> running B) :
  keeps m -> (forall a, keeps (f a)) -> keeps (m ≫= f).
Proof.
  intros Hm Hf s. apply wp_bind. eapply wp_mono; [apply Hm|]. intros a s' Hs.
  cbn. eapply wp_mono; [apply Hf|]. cbn. intros _ s'' ->. done.
Qed.
Lemma keeps_ret {A} (a : A) : keeps (mret a).
Proof. done. Qed.
Lemma keeps_error {A} c d n : keeps (error_at c d n : running A).
Proof. done. Qed.
Lemma keeps_throwing {A} e : keeps (throwing e : running A).
Proof. done. Qed.
Lemma keeps_lift {A} (r : outcome A) : keeps (lift r).
Proof. intros s. apply wp_lift. by destruct r. Qed.
Lemma keeps_get : keeps get.
Proof. done. Qed.
Lemma keeps_modify f : (forall s, marks (f s) = marks s) -> keeps (modify f).
Proof. intros Hf s. apply wp_modify, Hf. Qed.
#[export] Hint Resolve keeps_ret keeps_error keeps_throwing keeps_lift keeps_get : billing.

Section keep.
Context `{Host}.
Context (rules : list CompiledRule) (context : BillingSimulationContext)
        (now : date) (headers : list (str * str)).
Abbreviation eval := (evaluate rules context now headers).

Lemma keeps_evaluate node :
  keeps (evaluateNode rules context now headers eval node) -> keeps (eval node).
Proof.
  intros Hn s. rewrite evaluate_unfold.
  apply wp_bind, wp_get, wp_bind, wp_put, wp_bind, wp_throw_when; [done|]. intros _.
  apply wp_bind. eapply wp_mono; [apply Hn|]. intros v s1 H1. cbn beta in H1.
  apply wp_bind. unfold check_value.
  destruct (rv_value v); repeat case_match; try done;
    apply wp_ret, wp_bind, wp_modify, wp_ret; exact H1.
Qed.

Lemma keeps_boolean node : keeps (eval node) -> keeps (boolean eval node).
Proof. intros Hn. apply keeps_bind; [done|]. intros v. destruct (rv_value v); auto with billing. Qed.
Lemma keeps_numeric node : keeps (eval node) -> keeps (numeric eval node).
Proof. intros Hn. apply keeps_bind; [done|]. intros v. destruct (rv_value v); auto with billing. Qed.
Lemma keeps_string node : keeps (eval node) -> keeps (string_ eval node).
Proof. intros Hn. apply keeps_bind; [done|]. intros v. destruct (rv_value v); auto with billing. Qed.
Lemma keeps_match_rule node : keeps (match_rule rules node).
Proof. unfold match_rule. case_match; [by apply keeps_modify|apply keeps_ret]. Qed.
Lemma keeps_apply node o l r : keeps (apply_binary node o l r).
Proof. unfold apply_binary. cbv zeta. repeat case_match; auto with billing. Qed.
Lemma keeps_time t zone : keeps (time_call now t zone).
Proof.
  apply keeps_bind; [apply keeps_get|]. intros s. case_match; [apply keeps_ret|].
  apply keeps_bind; [apply keeps_lift|]. intros tv.
  apply keeps_bind; [by apply keeps_modify|]. auto with billing.
Qed.
#[local] Hint Resolve keeps_boolean keeps_numeric keeps_string keeps_match_rule keeps_apply
  keeps_time : billing.

Ltac keep := repeat first
  [ apply keeps_bind; [|intros ?] | case_match | progress (auto with billing) ].

Lemma unmarked_keeps n : unmarked n -> keeps (eval n).
Proof.
  induction n as [n IH] using node_children_ind. intros Hu. apply keeps_evaluate.
  assert (Forall (fun c => keeps (eval c)) (children n)) as Hc.
  { rewrite Forall_forall in IH |- *. intros c Hc. apply IH; [done|].
    eapply unmarked_child; [|done]. by apply list_elem_of_In. }
  clear IH. destruct n as [| v |f args s e|o a s e|o a b s e|c y m s e]; cbn [children] in Hc;
    rewrite ?Forall_cons_iff in Hc; cbn [evaluateNode].
  - apply keeps_ret.
  - unfold evaluate_variable. destruct v; keep.
  - destruct args as [|a rest]; [apply keeps_throwing|].
    apply Forall_cons_iff in Hc as [Ha Hrest].
    destruct f; cbn [call];
      try (exfalso; destruct Hu as [H1 H2]; first [by apply H1, called_self | by apply H2, called_self]);
      try (destruct rest as [|b rest]; [|apply Forall_cons_iff in Hrest as [Hb _]]);
      unfold missing; keep.
  - destruct Hc as [Ha _], o; keep.
  - destruct Hc as (Ha & Hb & _). unfold binary. destruct o; keep.
  - destruct Hc as (Hcond & Hy & Hm & _). keep.
Qed.

(** ** A value does not depend on the run so far

    The fields an evaluation reads are the depth, which can only make it fail,
    and the time values, which are the ones of their zone. *)

(** What [m] returns from the fields [s] it returns from any fields [s0] of no
    greater depth. *)
Definition steady {A} (m : running A) : Prop :=
  forall s s0, time_ok now s -> time_ok now s0 -> (depth s0 <= depth s)%Z ->
    wp (fun _ => True) m (fun a s' => time_ok now s' /\ depth s' = depth s /\
      exists s0', m s0 = Ok (a, s0') /\ time_ok now s0' /\ depth s0' = depth s0) s.

Lemma steady_bind {A B} (m : running A) (f : A -> running B) :
  steady m -> (forall a, steady (f a)) -> steady (m ≫= f).
Proof.
  intros Hm Hf s s0 Hs Hs0 Hd. apply wp_bind. eapply wp_mono; [by apply (Hm s s0)|].
  intros a s1 (Ht1 & Hd1 & s2 & E2 & Ht2 & Hd2).
  eapply wp_mono; [apply (Hf a s1 s2); [done|done|lia]|].
  intros b s3 (Ht3 & Hd3 & s4 & E4 & Ht4 & Hd4).
  split; [done|]. split; [lia|]. exists s4. split; [apply method_bind_ok; eauto|].
  split; [done|lia].
Qed.
Lemma steady_ret {A} (a : A) : steady (mret a).
Proof. intros s s0 Hs Hs0 _. apply wp_ret. eauto 10. Qed.
Lemma steady_error {A} c d n : steady (error_at c d n : running A).
Proof. done. Qed.
Lemma steady_throwing {A} e : steady (throwing e : running A).
Proof. done. Qed.
Lemma steady_lift {A} (r : outcome A) : steady (lift r).
Proof. intros s s0 Hs Hs0 _. apply wp_lift. destruct r; [|done]. eauto 10. Qed.
Lemma steady_modify f :
  (forall s, timeValues (f s) = timeValues s /\ depth (f s) = depth s) -> steady (modify f).
Proof.
  intros Hf s s0 Hs Hs0 _. apply wp_modify. unfold time_ok in *.
  destruct (Hf s) as [-> ->]. split; [done|]. split; [done|].
  exists (f s0). destruct (Hf s0) as [-> ->]. done.
Qed.
#[local] Hint Resolve steady_ret steady_error steady_throwing steady_lift : billing.

Lemma time_call_ok t zone tv s :
  time_ok now s -> timeInBillingZone now zone = Ok tv ->
  exists s', time_call now t zone s = Ok (Rv (VNumber (time_value tv t)) true, s') /\
    time_ok now s' /\ depth s' = depth s.
Proof.
  intros Hs Htv. unfold time_call, mbind, method_bind, get.
  destruct (assoc_get zone (timeValues s)) as [tv'|] eqn:E.
  - rewrite (Hs _ _ E) in Htv. injection Htv as ->. by exists s.
  - unfold lift. rewrite Htv. eexists. split; [reflexivity|]. split; [|done].
    intros z v. cbn [timeValues set_timeValues]. destruct (decide (zone = z)) as [<-|Hz].
    + rewrite assoc_get_set_eq. by intros [= <-].
    + rewrite assoc_get_set_ne by done. apply Hs.
Qed.

Lemma steady_time t zone : steady (time_call now t zone).
Proof.
  intros s s0 Hs Hs0 _. unfold wp. destruct (timeInBillingZone now zone) as [tv|x] eqn:Etv.
  - destruct (time_call_ok t zone tv s Hs Etv) as (s' & -> & Ht & Hd).
    destruct (time_call_ok t zone tv s0 Hs0 Etv) as (s0' & -> & Ht0 & Hd0). eauto 10.
  - unfold time_call, mbind, method_bind, get.
    destruct (assoc_get zone (timeValues s)) as [tv'|] eqn:E.
    + rewrite (Hs _ _ E) in Etv. discriminate Etv.
    + unfold lift. by rewrite Etv.
Qed.

Lemma steady_check node v : steady (check_value node v).
Proof. unfold check_value. repeat case_match; auto with billing. Qed.

Lemma steady_around node :
  steady (evaluateNode rules context now headers eval node) -> steady (eval node).
Proof.
  intros Hn s s0 Hs Hs0 Hd. rewrite evaluate_unfold.
  apply wp_bind, wp_get, wp_bind, wp_put, wp_bind, wp_throw_when; [done|]. intros Hlim.
  assert ((256 <? depth s0 + 1)%Z = false) as Hlim0 by lia.
  assert (steady (v ← evaluateNode rules context now headers eval node;
    _ ← check_value node v; mret v)) as Hv.
  { apply steady_bind; [done|]. intros v. apply steady_bind; [apply steady_check|].
    intros _. apply steady_ret. }
  specialize (Hv (set_depth (depth s + 1) s) (set_depth (depth s0 + 1) s0) Hs Hs0
    ltac:(cbn; lia)). unfold wp in Hv |- *. cbn [set_depth depth] in Hv.
  unfold mbind, method_bind in Hv |- *.
  destruct (evaluateNode rules context now headers eval node _) as [[v s1]|]; [|done].
  destruct (check_value node v s1) as [[[] s2]|]; [|done].
  cbn in Hv |- *. destruct Hv as (Ht & Hd1 & s3 & E & Ht3 & Hd3).
  split; [exact Ht|]. split; [lia|].
  unfold get, put, method_throw_when. rewrite Hlim0. cbn.
  destruct (evaluateNode rules context now headers eval node _) as [[v' s4]|]; [|done].
  destruct (check_value node v' s4) as [[[] s5]|]; [|done].
  injection E as -> ->. eexists. split; [reflexivity|]. split; [exact Ht3|]. cbn. lia.
Qed.

Lemma steady_boolean node : steady (eval node) -> steady (boolean eval node).
Proof. intros Hn. apply steady_bind; [done|]. intros v. destruct (rv_value v); auto with billing. Qed.
Lemma steady_numeric node : steady (eval node) -> steady (numeric eval node).
Proof. intros Hn. apply steady_bind; [done|]. intros v. destruct (rv_value v); auto with billing. Qed.
Lemma steady_string node : steady (eval node) -> steady (string_ eval node).
Proof. intros Hn. apply steady_bind; [done|]. intros v. destruct (rv_value v); auto with billing. Qed.
Lemma steady_match_rule node : steady (match_rule rules node).
Proof. unfold match_rule. case_match; [by apply steady_modify|apply steady_ret]. Qed.
Lemma steady_apply node o l r : steady (apply_binary node o l r).
Proof. unfold apply_binary. cbv zeta. repeat case_match; auto with billing. Qed.
Lemma steady_tier name : steady (modify (set_matchedTier name)).
Proof. by apply steady_modify. Qed.
Lemma steady_fixed amount : steady (modify (set_fixed amount)).
Proof. by apply steady_modify. Qed.
#[local] Hint Resolve steady_boolean steady_numeric steady_string steady_match_rule steady_apply
  steady_time steady_tier steady_fixed : billing.

Ltac stay := repeat first
  [ progress (auto with billing) | apply steady_bind; [|intros ?] | case_match ].

Lemma steady_evaluate n : steady (eval n).
Proof.
  induction n as [n Hc] using node_children_ind. apply steady_around.
  destruct n as [| v |f args s e|o a s e|o a b s e|c y m s e]; cbn [children] in Hc;
    rewrite ?Forall_cons_iff in Hc; cbn [evaluateNode].
  - apply steady_ret.
  - unfold evaluate_variable. destruct v; stay.
  - destruct args as [|a rest]; [apply steady_throwing|].
    apply Forall_cons_iff in Hc as [Ha Hrest].
    destruct f; cbn [call];
      try (destruct rest as [|b rest]; [|apply Forall_cons_iff in Hrest as [Hb _]]);
      unfold missing; stay.
  - destruct Hc as [Ha _], o; stay.
  - destruct Hc as (Ha & Hb & _). unfold binary. destruct o; stay.
  - destruct Hc as (Hcond & Hy & Hm & _). stay.
Qed.

(** [n], evaluated on its own, gives [v]. *)
Definition gives (n : ExpressionNode) (v : value) : Prop :=
  exists i s, eval n (initial_state rules) = Ok (Rv v i, s).

Lemma gives_unique n v w : gives n v -> gives n w -> v = w.
Proof. intros (i & s & Hv) (j & s' & Hw). congruence. Qed.

(** The fields in the middle of a run. *)
Definition ready (s : RuntimeState) : Prop := time_ok now s /\ (0 <= depth s)%Z.

Lemma evaluate_gives n s : ready s ->
  wp (fun _ => True) (eval n) (fun v s' => ready s' /\ gives n (rv_value v)) s.
Proof.
  intros [Ht Hd]. eapply wp_mono; [apply (steady_evaluate n s (initial_state rules)); done|].
  intros [v i] s' (Ht' & Hd' & s0 & E & _). split; [split; [done|lia]|]. by exists i, s0.
Qed.

Lemma wp_and {A} (m : running A) (P Q : A -> RuntimeState -> Prop) s :
  wp (fun _ => True) m P s -> wp (fun _ => True) m Q s ->
  wp (fun _ => True) m (fun a s' => P a s' /\ Q a s') s.
Proof. unfold wp. destruct (m s) as [[a s']|]; auto. Qed.

(** An expression without a price, in the middle of a run. *)
Definition passes (n : ExpressionNode) (s : RuntimeState) (v : value) (s' : RuntimeState) : Prop :=
  ready s' /\ marks s' = marks s /\ gives n v.

Lemma unmarked_passes n s : unmarked n -> ready s ->
  wp (fun _ => True) (eval n) (fun v s' => passes n s (rv_value v) s') s.
Proof.
  intros Hu Hs. eapply wp_mono;
    [apply wp_and; [by apply evaluate_gives|by apply unmarked_keeps]|].
  intros v s' [[Hr Hg] Hm]. done.
Qed.
Lemma boolean_passes n s : unmarked n -> ready s ->
  wp (fun _ => True) (boolean eval n) (fun b s' => passes n s (VBoolean b) s') s.
Proof.
  intros Hu Hs. apply wp_bind. eapply wp_mono; [by apply unmarked_passes|].
  intros v s' Hp. cbn beta in Hp. by destruct (rv_value v).
Qed.
Lemma string_passes n s : unmarked n -> ready s ->
  wp (fun _ => True) (string_ eval n) (fun x s' => passes n s (VString x) s') s.
Proof.
  intros Hu Hs. apply wp_bind. eapply wp_mono; [by apply unmarked_passes|].
  intros v s' Hp. cbn beta in Hp. by destruct (rv_value v).
Qed.
Lemma numeric_passes n s : unmarked n -> ready s ->
  wp (fun _ => True) (numeric eval n) (fun x s' => passes n s (VNumber x.1) s') s.
Proof.
  intros Hu Hs. apply wp_bind. eapply wp_mono; [by apply unmarked_passes|].
  intros v s' Hp. cbn beta in Hp. by destruct (rv_value v).
Qed.

(** ** A run charges what the expression says *)

(** A post-condition of [evaluateNode] that ignores the depth, from fields with
    [P]. *)
Lemma evaluate_from (P : RuntimeState -> Prop) n (Q : str * BillingUnit * option number -> RuntimeValue ->
    str * BillingUnit * option number -> Prop) :
  (forall s, P s -> P (set_depth (depth s + 1) s)) ->
  (forall s, P s -> wp (fun _ => True) (evaluateNode rules context now headers eval n)
    (fun v s' => Q (marks s) v (marks s')) s) ->
  forall s, P s -> wp (fun _ => True) (eval n) (fun v s' => Q (marks s) v (marks s')) s.
Proof.
  intros HP Hn s Hs. rewrite evaluate_unfold.
  apply wp_bind, wp_get, wp_bind, wp_put, wp_bind, wp_throw_when; [done|]. intros _.
  apply wp_bind. eapply wp_mono; [by apply Hn, HP|]. intros v s1 H1. cbn beta in H1.
  apply wp_bind. unfold check_value.
  destruct (rv_value v); repeat case_match; try done;
    apply wp_ret, wp_bind, wp_modify, wp_ret; exact H1.
Qed.

Lemma evaluate_partial n (Q : str * BillingUnit * option number -> RuntimeValue ->
    str * BillingUnit * option number -> Prop) :
  (forall s, wp (fun _ => True) (evaluateNode rules context now headers eval n)
    (fun v s' => Q (marks s) v (marks s')) s) ->
  forall s, wp (fun _ => True) (eval n) (fun v s' => Q (marks s) v (marks s')) s.
Proof. intros Hn s. by apply (evaluate_from (fun _ => True)). Qed.

Lemma eval_literal v i s e st :
  wp (fun _ => True) (eval (Literal v i s e))
    (fun w st' => w = Rv (literal_value v) i /\ marks st' = marks st) st.
Proof.
  apply (evaluate_partial (Literal v i s e)
    (fun m w m' => w = Rv (literal_value v) i /\ m' = m)). done.
Qed.

(** A binary product of numbers. *)
Lemma product_from (P : RuntimeState -> Prop) (Qa Qb Q : str * BillingUnit * option number -> number ->
    str * BillingUnit * option number -> Prop) a b s e :
  (forall s, P s -> P (set_depth (depth s + 1) s)) ->
  (forall st, P st -> wp (fun _ => True) (eval a)
     (fun v st' => P st' /\ forall x, rv_value v = VNumber x -> Qa (marks st) x (marks st')) st) ->
  (forall st, P st -> wp (fun _ => True) (eval b)
     (fun v st' => forall x, rv_value v = VNumber x -> Qb (marks st) x (marks st')) st) ->
  (forall m m1 m2 x y, Qa m x m1 -> Qb m1 y m2 -> Q m (num_mul x y) m2) ->
  forall st, P st -> wp (fun _ => True) (eval (Binary Op_mul a b s e))
    (fun v st' => exists x, rv_value v = VNumber x /\ Q (marks st) x (marks st')) st.
Proof.
  intros HP Ha Hb HQ.
  apply (evaluate_from P (Binary Op_mul a b s e)
    (fun m v m' => exists x, rv_value v = VNumber x /\ Q m x m')); [done|].
  intros st Hst. cbn [evaluateNode binary]. apply wp_bind.
  eapply wp_mono; [by apply Ha|]. intros l st1 [Hst1 Hl]. cbn beta in Hl.
  apply wp_bind. eapply wp_mono; [by apply Hb|]. intros r st2 Hr. cbn beta in Hr.
  unfold apply_binary. cbn [orb]. destruct (rv_value l) as [| | |x| | |]; try done;
    destruct (rv_value r) as [| | |y| | |]; try done.
  apply wp_ret. eexists. split; [done|]. by eapply HQ; [apply Hl|apply Hr].
Qed.

Lemma eval_product (Qa Qb Q : str * BillingUnit * option number -> number ->
    str * BillingUnit * option number -> Prop) a b s e :
  (forall st, wp (fun _ => True) (eval a)
     (fun v st' => forall x, rv_value v = VNumber x -> Qa (marks st) x (marks st')) st) ->
  (forall st, wp (fun _ => True) (eval b)
     (fun v st' => forall x, rv_value v = VNumber x -> Qb (marks st) x (marks st')) st) ->
  (forall m m1 m2 x y, Qa m x m1 -> Qb m1 y m2 -> Q m (num_mul x y) m2) ->
  forall st, wp (fun _ => True) (eval (Binary Op_mul a b s e))
    (fun v st' => exists x, rv_value v = VNumber x /\ Q (marks st) x (marks st')) st.
Proof.
  intros Ha Hb HQ st. apply (product_from (fun _ => True) Qa Qb Q); [done| |by intros; apply Hb|done|done].
  intros st1 _. eapply wp_mono; [apply Ha|]. done.
Qed.

(** The price fields say that nothing was charged yet. *)
Definition uncharged (m : str * BillingUnit * option number) : Prop :=
  m.1.2 = Unit_token /\ m.2 = None.

Definition charge_of (n : ExpressionNode) (m : str * BillingUnit * option number) (x : number)
    (m' : str * BillingUnit * option number) : Prop :=
  uncharged m -> charged rules context gives n m' x.

Definition charges (n : ExpressionNode) : Prop :=
  forall s, ready s -> wp (fun _ => True) (eval n)
    (fun v s' => exists x, rv_value v = VNumber x /\ charge_of n (marks s) x (marks s')) s.

Lemma ready_deeper s : ready s -> ready (set_depth (depth s + 1) s).
Proof. intros [Ht Hd]. split; [exact Ht|]. cbn. lia. Qed.

Lemma charges_node n :
  (forall s, ready s -> wp (fun _ => True) (evaluateNode rules context now headers eval n)
    (fun v s' => exists x, rv_value v = VNumber x /\ charge_of n (marks s) x (marks s')) s) ->
  charges n.
Proof.
  intros Hn. exact (evaluate_from ready n
    (fun m v m' => exists x, rv_value v = VNumber x /\ charge_of n m x m') ready_deeper Hn).
Qed.

Lemma match_rule_ready node s : ready s ->
  wp (fun _ => True) (match_rule rules node) (fun _ s' => ready s' /\ marks s' = marks s) s.
Proof. intros Hs. unfold match_rule. case_match; [by apply wp_modify|by apply wp_ret]. Qed.

(** A charge in a product, and the values of its other factor. *)
Lemma charges_operand n st : charges n -> ready st ->
  wp (fun _ => True) (eval n) (fun v st' => ready st' /\ forall x, rv_value v = VNumber x ->
    charge_of n (marks st) x (marks st')) st.
Proof.
  intros Hn Hst. eapply wp_mono; [apply wp_and; [by apply evaluate_gives|by apply Hn]|].
  intros v st' [[Hr _] (x & Hv & Hc)]. split; [done|]. intros y Hy.
  assert (x = y) as <- by congruence. done.
Qed.

Section with_rules.
Context (Hrules : forall r, r ∈ rules -> exists source, request_rule source (cr_node r) r).

Lemma factor_spec f st :
  price_factor rules f -> ready st ->
  wp (fun _ => True) (eval f)
    (fun v st' => ready st' /\ forall x, rv_value v = VNumber x ->
       marks st' = marks st /\ factor_value rules context gives f x) st.
Proof.
  intros Hf Hst.
  eapply wp_mono; [apply wp_and; [by apply evaluate_gives|]|intros v st' [[Hr Hg] HQ];
    split; [exact Hr|]; intros x Hx; rewrite Hx in Hg; exact (HQ x Hx Hg)].
  revert st Hst.
  refine (evaluate_from ready f (fun m v m' => forall x, rv_value v = VNumber x -> gives f (VNumber x) ->
    m' = m /\ factor_value rules context gives f x) ready_deeper _). intros st Hst.
  destruct Hf as [s e|r Hr Hge Hu].
  - cbn [evaluateNode evaluate_variable]. cbv zeta.
    destruct (image_count_ok _) eqn:Ei; cbn [negb]; [|done].
    apply wp_ret. intros x [= <-] _. split; [done|]. by apply value_images.
  - destruct (Hrules r Hr) as [source Hreq].
    inversion Hreq as [c m i1 s1 e1 no i2 s2 e2 s e Hno Hon E1 E2].
    rewrite E1. rewrite <- E2 in Hu. cbn [cr_condition] in Hu.
    assert (cr_condition r = c) as Hcond by (by rewrite <- E2).
    assert (cr_multiplier r = m) as Hmult by (by rewrite <- E2).
    rewrite <- E1 at 1. cbn [evaluateNode].
    apply wp_bind. eapply wp_mono; [by apply boolean_passes|].
    intros b st1 (Hst1 & Hb & Hg). cbn beta in Hb. destruct b.
    + apply wp_bind. eapply wp_mono; [apply keeps_match_rule|]. intros [] st2 Hm. cbn beta in Hm.
      eapply wp_mono; [apply eval_literal|]. intros w st3 [-> Hst3] x [= <-] _.
      split; [congruence|]. rewrite <- Hmult. apply value_rule; [done|done|]. by rewrite Hcond.
    + eapply wp_mono; [apply eval_literal|]. intros w st3 [-> Hst3] x [= <-] Hn.
      split; [congruence|]. apply value_one; [done|done|done|]. by rewrite Hcond.
Qed.

Lemma fixed_spec amount i s1 e1 s2 e2 st : ready st ->
  wp (fun _ => True) (eval (Call Fn_fixed [Literal (LNumber amount) i s1 e1] s2 e2))
    (fun v st' => rv_value v = VNumber (num_mul amount million) /\
       marks st' = ((marks st).1.1, Unit_request, Some amount)) st.
Proof.
  revert st. refine (evaluate_from ready (Call Fn_fixed _ s2 e2)
    (fun m v m' => rv_value v = VNumber (num_mul amount million) /\
       m' = (m.1.1, Unit_request, Some amount)) ready_deeper _).
  intros st _. cbn [evaluateNode call]. apply wp_bind. unfold numeric. apply wp_bind.
  eapply wp_mono; [apply eval_literal|]. intros w st1 [-> Hst]. cbn [rv_value literal_value].
  apply wp_ret, wp_bind, wp_modify, wp_ret. split; [done|]. unfold marks in *. cbn. congruence.
Qed.

(** A priced expression charges the tier that its conditions select. *)
Lemma priced_charges n : priced rules n -> charges n.
Proof.
  induction 1 as [c y m s e Hu Hy IHy Hm IHm|a b s e Hf Ha IH|a b s e Hf Hb IH
    |name amount s1 e1 s e Hu Hok|name price s e Hu Hp].
  - apply charges_node. intros st Hst. cbn [evaluateNode]. apply wp_bind.
    eapply wp_mono; [by apply boolean_passes|]. intros b st1 (Hst1 & Hb & Hg). destruct b.
    + apply wp_bind. eapply wp_mono; [by apply match_rule_ready|]. intros [] st2 [Hst2 Hr].
      eapply wp_mono; [by apply IHy|]. intros v st3 (x & Hv & Hc). exists x. split; [done|].
      rewrite <- Hb, <- Hr. intros H0. by apply charged_then, Hc.
    + eapply wp_mono; [by apply IHm|]. intros v st3 (x & Hv & Hc). exists x. split; [done|].
      rewrite <- Hb. intros H0. by apply charged_else, Hc.
  - refine (product_from ready (charge_of a) (fun m x m' => m' = m /\ factor_value rules context gives b x)
      (charge_of (Binary Op_mul a b s e)) _ _ _ _ ready_deeper _ _ _).
    + intros st Hst. by apply charges_operand.
    + intros st Hst. eapply wp_mono; [by apply factor_spec|]. by intros v st' [_ Hv].
    + intros m m1 m2 x y Hc [-> Hy] H0. apply charged_by_right; auto.
  - refine (product_from ready (fun m x m' => m' = m /\ factor_value rules context gives a x) (charge_of b)
      (charge_of (Binary Op_mul a b s e)) _ _ _ _ ready_deeper _ _ _).
    + intros st Hst. by apply factor_spec.
    + intros st Hst. eapply wp_mono; [by apply charges_operand|]. by intros v st' [_ Hv].
    + intros m m1 m2 x y [-> Hx] Hc H0. apply charged_by_left; auto.
  - destruct amount as [[|x| |] i s2 e2| | | | |]; try discriminate Hok.
    apply charges_node. intros st Hst. cbn [evaluateNode call]. apply wp_bind.
    eapply wp_mono; [by apply string_passes|]. intros tier st1 (Hst1 & Ht & Hg).
    apply wp_bind. unfold numeric at 1. apply wp_bind.
    eapply wp_mono; [by apply fixed_spec|]. intros v st2 [Hv Hm]. rewrite Hv.
    apply wp_ret, wp_bind, wp_modify, wp_ret. eexists. split; [done|]. intros _.
    injection Hm as _ Hunit Hprice. unfold marks. cbn. rewrite Hunit, Hprice. by apply charged_fixed.
  - apply charges_node. intros st Hst. cbn [evaluateNode call]. apply wp_bind.
    eapply wp_mono; [by apply string_passes|]. intros tier st1 (Hst1 & Ht & Hg).
    apply wp_bind. eapply wp_mono; [by apply numeric_passes|]. intros v st2 (Hst2 & Hm & Hgp).
    apply wp_bind, wp_modify, wp_ret. eexists. split; [done|]. intros [Hunit Hprice].
    rewrite <- Ht, <- Hm in Hunit, Hprice. unfold marks in *. cbn in *. rewrite Hunit, Hprice.
    by apply charged_tokens.
Qed.
End with_rules.
End keep.

(** The value of a part of a compiled expression, evaluated on its own for the
    same request. *)
Definition part_value `{Host} (clock : Z) (compiled : CompiledBillingExpression)
    (context : BillingSimulationContext) (n : ExpressionNode) (v : value) : Prop :=
  exists i s, run clock compiled context n = Ok (Rv v i, s).

Lemma compiled_rules_request compiled r : compiled_ok compiled ->
  r ∈ ce_requestRules compiled -> exists source, request_rule source (cr_node r) r.
Proof.
  intros Hc Hr. exists (ce_source compiled).
  exact (proj2 (proj1 (rules_of_elem _ _ _ _ (co_rules _ Hc)) Hr)).
Qed.

(** A run of an expression with fixed prices. *)
Lemma evaluate_fixed `{Host} clock compiled context r :
  compiled_ok compiled -> called Fn_fixed (ce_ast compiled) ->
  evaluateCompiled clock compiled context = inl r ->
  charged (ce_requestRules compiled) context (part_value clock compiled context) (ce_ast compiled)
    (be_matchedTier r, be_billingUnit r, be_fixedPrice r) (be_cost r).
Proof.
  intros Hc Hf. unfold evaluateCompiled, evaluate_body, part_value, run.
  destruct (fold_result check_token _ _) as [[]|]; [|done]. cbn [mbind result_bind].
  destruct (fold_result add_header _ _) as [hs|]; [|done]. cbn [mbind result_bind].
  set (now := default (Some clock) (ctx_now context)).
  pose proof (priced_charges (ce_requestRules compiled) context now hs
    (fun r => compiled_rules_request compiled r Hc) _ (co_fixed _ Hc Hf)
    (initial_state (ce_requestRules compiled)) ltac:(by split)) as Hp. unfold wp in Hp.
  destruct (evaluate _ _ _ _ _ _) as [[v s]|]; [|done]. cbn [mbind result_bind].
  destruct Hp as (x & -> & Hx). destruct (negb _); [done|]. intros [= <-].
  by apply Hx.
Qed.

Lemma part_value_unique `{Host} clock compiled context n v w :
  part_value clock compiled context n v -> part_value clock compiled context n w -> v = w.
Proof. intros (i & s & Hv) (j & s' & Hw). congruence. Qed.
