(* ===== verification/Structure.v ===== *)
(** * Splitting expression text

    [billing-expression/structure.ts]: helpers that cut expression text without
    parsing it.  A [for] loop over an index is a recursion on the rest of the
    text; [skip] counts the extra increments of the index. *)

From Stdlib Require Import String.
From S2P Require Import Prelude JsString.

Definition is_quote (c : N) : bool := N.eqb c quote_char || N.eqb c apostrophe.
Definition is_open (c : N) : bool := N.eqb c 40 || N.eqb c 91 || N.eqb c 123.
Definition is_close (c : N) : bool := N.eqb c 41 || N.eqb c 93 || N.eqb c 125.

Section split.
(** [operator] is not empty at any call of the source (with an empty one the
    source does not terminate). *)
Context (source operator : str).

Definition split_finish (start : nat) (parts : list str) : list str :=
  List.filter nonempty (parts ++ [trim (drop start source)]).

Fixpoint split_loop (rest : str) (i skip start : nat) (depth : Z) (quote : option N)
    (parts : list str) : list str :=
  match rest with
  | [] => split_finish start parts
  | char :: rest' =>
      match skip with
      | S skip => split_loop rest' (S i) skip start depth quote parts
      | O =>
          match quote with
          | Some q =>
              if N.eqb char backslash then split_loop rest' (S i) 1 start depth quote parts
              else split_loop rest' (S i) 0 start depth
                     (if N.eqb char q then None else quote) parts
          | None =>
              if is_quote char then split_loop rest' (S i) 0 start depth (Some char) parts
              else
                let depth := if is_open char then (depth + 1)%Z else depth in
                let depth := if is_close char then (depth - 1)%Z else depth in
                if negb (depth =? 0)%Z then split_loop rest' (S i) 0 start depth None parts
                else if N.eqb char 63 then [trim source]
                else if starts_with rest operator then
                  split_loop rest' (S i) (length operator - 1) (i + length operator) depth None
                    (parts ++ [trim (slice source start i)])
                else split_loop rest' (S i) 0 start depth None parts
          end
      end
  end.

Definition splitExpressionAtTopLevel : list str := split_loop source 0 0 0 0 None [].
End split.

(** The inner loop of [unwrapExpressionParens]: whether the first [(] closes
    at the last character. *)
Fixpoint closes_at_end (rest : str) (skip : nat) (depth : Z) (quote : option N) : bool :=
  match rest with
  | [] => false
  | char :: rest =>
      match skip with
      | S skip => closes_at_end rest skip depth quote
      | O =>
          match quote with
          | Some q =>
              if N.eqb char backslash then closes_at_end rest 1 depth quote
              else closes_at_end rest 0 depth (if N.eqb char q then None else quote)
          | None =>
              if is_quote char then closes_at_end rest 0 depth (Some char)
              else
                let depth := if N.eqb char 40 then (depth + 1)%Z else depth in
                let depth := if N.eqb char 41 then (depth - 1)%Z else depth in
                if (depth =? 0)%Z then negb (nonempty rest)
                else closes_at_end rest 0 depth None
          end
      end
  end.

(** [s.slice(1, -1)] *)
Definition strip_ends (s : str) : str := slice s 1 (length s - 1).

Fixpoint unwrap_loop (fuel : nat) (expression : str) : str :=
  match fuel with
  | O => expression
  | S fuel =>
      if starts_with expression (u "(") && ends_with expression (u ")") then
        if closes_at_end expression 0 0 None
        then unwrap_loop fuel (trim (strip_ends expression)) else expression
      else expression
  end.

(** Every turn removes two characters at least, so the length is enough fuel. *)
Definition unwrapExpressionParens (source : str) : str :=
  unwrap_loop (length source) (trim source).

(** ** Nothing is lost *)

(** The pieces between the cuts, before trimming. *)
Lemma slice_from (s : str) a b : a <= b -> b <= length s -> slice s a b ++ drop b s = drop a s.
Proof.
  intros Hab Hb. unfold slice. replace (drop b s) with (drop (b - a) (drop a s)).
  - apply take_drop.
  - rewrite drop_drop. f_equal. lia.
Qed.

(** The pieces [ps] and the rest of the text behind the last cut. *)
Definition cut_into (source operator : str) (start : nat) (ps : list str) : Prop :=
  start <= length source /\
  flat_map (fun p => p ++ operator) ps ++ drop start source = source.

Lemma cut_into_step source operator start i ps :
  cut_into source operator start ps -> start <= i -> i <= length source ->
  starts_with (drop i source) operator = true ->
  cut_into source operator (i + length operator) (ps ++ [slice source start i]).
Proof.
  intros [Hs Hc] Hi Hl [t Ht]%starts_with_app. split.
  - enough (length operator <= length (drop i source)) by (rewrite length_drop in *; lia).
    rewrite Ht, length_app. lia.
  - rewrite flat_map_app. cbn [flat_map]. rewrite app_nil_r, <- !app_assoc.
    etransitivity; [|exact Hc]. f_equal. rewrite <- (slice_from source start i) by done.
    f_equal. rewrite <- drop_drop, Ht. by rewrite drop_app_length.
Qed.

Lemma split_loop_lossless source operator rest : forall i skip start depth quote ps,
  drop i source = rest -> i <= length source -> start <= i + skip ->
  cut_into source operator start ps ->
  operator <> [] ->
  let r := split_loop source operator rest i skip start depth quote (map trim ps) in
  r = [trim source] \/
  exists qs, r = List.filter nonempty (map trim qs) /\ join operator qs = source.
Proof.
  induction rest as [|char rest IH]; intros i skip start depth quote ps Hd Hi Hs Hc Hop; cbn zeta.
  - right. exists (ps ++ [drop start source]). cbn [split_loop]. unfold split_finish.
    rewrite map_app. split; [done|]. destruct Hc as [_ Hc].
    etransitivity; [|exact Hc]. clear. induction ps as [|p ps IHp]; [done|]. cbn [flat_map app].
    rewrite <- app_assoc, <- app_assoc, <- IHp. by destruct ps.
  - assert (drop (S i) source = rest /\ S i <= length source) as [Hd' Hi'].
    { split; [|]. 
      - replace (S i) with (i + 1) by lia. by rewrite <- drop_drop, Hd.
      - enough (length (drop i source) = S (length rest)) by (rewrite length_drop in *; lia).
        by rewrite Hd. }
    cbn [split_loop]. destruct skip as [|skip]; [|apply IH; try done; lia].
    destruct quote as [q|]; [case_match; apply IH; try done; lia|].
    destruct (is_quote char); [apply IH; try done; lia|].
    set (depth' := if is_close char then _ else _). clearbody depth'.
    destruct (negb (depth' =? 0)%Z); [apply IH; try done; lia|].
    destruct (N.eqb char 63); [by left|].
    destruct (starts_with (char :: rest) operator) eqn:Eo; [|apply IH; try done; lia].
    replace (map trim ps ++ [trim (slice source start i)])
      with (map trim (ps ++ [slice source start i])) by by rewrite map_app.
    apply IH; try done.
    + assert (length operator <> 0) by by destruct operator. lia.
    + apply cut_into_step; try done; [lia|]. by rewrite Hd.
Qed.

(** The parts are the trimmed, non-empty pieces of a cut of the text at
    occurrences of the operator, unless a conditional stopped the split. *)
Lemma splitExpressionAtTopLevel_lossless source operator :
  operator <> [] ->
  let r := splitExpressionAtTopLevel source operator in
  r = [trim source] \/
  exists qs, r = List.filter nonempty (map trim qs) /\ join operator qs = source.
Proof.
  intros Hop. apply (split_loop_lossless source operator source 0 0 0 0 None []);
    rewrite ?drop_0; try done; try lia. split; [lia|]. by rewrite drop_0.
Qed.

(** *** Removing parentheses *)

(** [wraps e s]: [s] is [e] inside white space and pairs of parentheses. *)
Inductive wraps (e : str) : str -> Prop :=
| wraps_self : wraps e e
| wraps_spaces a b s : spaces a -> spaces b -> wraps e s -> wraps e (a ++ s ++ b)
| wraps_parens s : wraps e s -> wraps e ([40%N] ++ s ++ [41%N]).

Lemma wraps_trim e s : wraps e (trim s) -> wraps e s.
Proof.
  intros Hw. destruct (trim_split s) as (a & b & Hs & Ha & Hb). rewrite Hs.
  by apply wraps_spaces.
Qed.

Lemma strip_ends_spec s :
  starts_with s (u "(") = true -> ends_with s (u ")") = true -> closes_at_end s 0 0 None = true ->
  s = [40%N] ++ strip_ends s ++ [41%N].
Proof.
  intros [t ->]%starts_with_app He Hc. change (u "(") with [40%N] in *.
  unfold ends_with in He. apply starts_with_app in He as [r Hr].
  change (rev (u ")")) with [41%N] in Hr.
  assert (([40%N] ++ t) = rev r ++ [41%N]) as Hrev.
  { rewrite <- (rev_involutive ([40%N] ++ t)), Hr. by rewrite rev_app_distr. }
  destruct (rev r) as [|c r'] eqn:Er; cbn in Hrev; [done|]. injection Hrev as <- Ht.
  unfold strip_ends, slice. rewrite Ht. cbn [app drop length].
  rewrite length_app. cbn [length]. f_equal.
  replace (S (length r' + 1) - 1 - 1) with (length r') by lia. rewrite drop_0. by rewrite take_app_length.
Qed.

Lemma unwrap_loop_wraps fuel : forall e, wraps (unwrap_loop fuel e) e.
Proof.
  induction fuel as [|fuel IH]; intros e; cbn [unwrap_loop]; [constructor|].
  destruct (starts_with e (u "(")) eqn:E1; [|constructor].
  destruct (ends_with e (u ")")) eqn:E2; [|constructor]. cbn [andb].
  destruct (closes_at_end e 0 0 None) eqn:E3; [|constructor].
  rewrite (strip_ends_spec e E1 E2 E3) at 2. apply wraps_parens, wraps_trim, IH.
Qed.

(** [stuck e]: no pair of parentheses around the whole of [e]. *)
Definition stuck (e : str) : Prop :=
  starts_with e (u "(") && ends_with e (u ")") && closes_at_end e 0 0 None = false.

Lemma unwrap_loop_stuck fuel : forall e, length e <= fuel -> stuck (unwrap_loop fuel e).
Proof.
  unfold stuck. induction fuel as [|fuel IH]; intros e Hl; cbn [unwrap_loop].
  { destruct e; [done|cbn in Hl; lia]. }
  destruct (starts_with e (u "(")) eqn:E1; [|cbn [andb]; by rewrite E1].
  destruct (ends_with e (u ")")) eqn:E2; [|cbn [andb]; by rewrite E1, E2]. cbn [andb].
  destruct (closes_at_end e 0 0 None) eqn:E3; [|by rewrite E1, E2, E3].
  apply IH. pose proof (trim_length (strip_ends e)).
  pose proof (f_equal length (strip_ends_spec e E1 E2 E3)) as Hlen.
  rewrite !length_app in Hlen. cbn in Hlen. lia.
Qed.

(** The loop ends with an expression that has no outer parentheses left, and
    only white space and matching parentheses were removed. *)
Lemma unwrapExpressionParens_spec source :
  wraps (unwrapExpressionParens source) source /\ stuck (unwrapExpressionParens source).
Proof.
  unfold unwrapExpressionParens. split.
  - apply wraps_trim, unwrap_loop_wraps.
  - apply unwrap_loop_stuck, trim_length.
Qed.
