(* ===== verification/Display.v ===== *)
(** * Reading price tiers off an expression

    [billing-expression/display.ts].  The functions read compiled trees, in
    which every call has the arity of its function; on a call with too few
    arguments, which the parser does not build, the model answers [None].
    [compileBillingExpression] is used without its cache (see [compile_all_ok]). *)

From Stdlib Require Import String.
From S2P Require Import Prelude JsNumber JsString JsText Ast Parser Compile Request.
From S2P Require Import BillingTime Runtime.

(** ** Data *)

Record TokenTierCondition : Type := TokenCondition {
  tc_var : BillingVariable;
  tc_op : BinaryOperator;
  tc_value : number;
}.

Record TokenTier : Type := {
  tt_conditionText : option str;
  tt_imageCount : bool;
  tt_billingUnit : option BillingUnit;
  tt_fixedPrice : option number;
  tt_label : str;
  tt_conditions : list TokenTierCondition;
  tt_prices : list (BillingVariable * number);
}.

Record TimeTierCondition : Type := TimeTierCond { tcond_condition : ExpressionNode; tcond_matches : bool }.
Record TimeTokenTier : Type := {
  ttt_tier : TokenTier;
  ttt_timeConditions : list TimeTierCondition;
}.

Definition price_tier label conditions prices : TokenTier :=
  {| tt_conditionText := None; tt_imageCount := false; tt_billingUnit := None;
     tt_fixedPrice := None; tt_label := label; tt_conditions := conditions;
     tt_prices := prices |}.
Definition fixed_tier label conditions amount : TokenTier :=
  {| tt_conditionText := None; tt_imageCount := false; tt_billingUnit := Some Unit_request;
     tt_fixedPrice := Some amount; tt_label := label; tt_conditions := conditions;
     tt_prices := [] |}.
Definition with_conditionText (text : str) (t : TokenTier) : TokenTier :=
  {| tt_conditionText := Some text; tt_imageCount := tt_imageCount t;
     tt_billingUnit := tt_billingUnit t; tt_fixedPrice := tt_fixedPrice t;
     tt_label := tt_label t; tt_conditions := tt_conditions t; tt_prices := tt_prices t |}.
Definition with_imageCount (t : TokenTier) : TokenTier :=
  {| tt_conditionText := tt_conditionText t; tt_imageCount := true;
     tt_billingUnit := tt_billingUnit t; tt_fixedPrice := tt_fixedPrice t;
     tt_label := tt_label t; tt_conditions := tt_conditions t; tt_prices := tt_prices t |}.

(** ** Token tiers *)

Fixpoint flattenBinary (node : ExpressionNode) (operator : BinaryOperator) : list ExpressionNode :=
  match node with
  | Binary o l r _ _ =>
      if bool_decide (o = operator)
      then flattenBinary l operator ++ flattenBinary r operator else [node]
  | _ => [node]
  end.

Definition is_order (o : BinaryOperator) : bool :=
  match o with Op_lt | Op_le | Op_gt | Op_ge => true | _ => false end.
Definition is_condition_variable (v : BillingVariable) : bool :=
  match v with Var_p | Var_c | Var_len => true | _ => false end.

(** One turn of the loop of [tokenConditions]. *)
Definition token_condition (part : ExpressionNode) : option TokenTierCondition :=
  match part with
  | Binary operator (Variable_ name _ _) (Literal (LNumber v) _ _ _) _ _ =>
      if is_order operator && is_condition_variable name && negb (num_ltb v zero)
      then Some (TokenCondition name operator v) else None
  | _ => None
  end.
Definition tokenConditions (node : ExpressionNode) : option (list TokenTierCondition) :=
  map_option token_condition (flattenBinary node Op_and).

(** [node.kind === 'literal' && node.value === 0] *)
Definition is_zero_literal (node : ExpressionNode) : bool :=
  match node with Literal (LNumber v) _ _ _ => num_eqb v zero | _ => false end.

Definition negative_zero : number := num_neg zero.

Definition nonnegativePriceLiteral (node : ExpressionNode) : option number :=
  match node with
  | Literal (LNumber v) _ _ _ => if num_geb v zero then Some v else None
  | Unary Un_minus operand _ _ => if is_zero_literal operand then Some negative_zero else None
  | _ => None
  end.

(** [len - ai] *)
Definition is_len_minus_ai (node : ExpressionNode) : bool :=
  match node with
  | Binary Op_sub (Variable_ Var_len _ _) (Variable_ Var_ai _ _) _ _ => true
  | _ => false
  end.

(** The variable a term of a price is for. *)
Definition price_variable (input : ExpressionNode) : option BillingVariable :=
  match input with
  | Variable_ Var_len _ _ | Variable_ Var_image_count _ _ => None
  | Variable_ name _ _ => Some name
  | Call Fn_max [arg0; arg1] _ _ =>
      if is_zero_literal arg0 then
        if is_len_minus_ai arg1 then Some Var_p else None
      else if is_zero_literal arg1 then
        if is_len_minus_ai arg0 then Some Var_p else None
      else None
  | _ => None
  end.

(** One turn of the loop of [tokenTier]. *)
Definition price_term (term : ExpressionNode) : option (BillingVariable * number) :=
  match term with
  | Binary Op_mul l r _ _ =>
      '(input, price) ←
        match nonnegativePriceLiteral r with
        | Some price => Some (l, price)
        | None => price ← nonnegativePriceLiteral l; Some (r, price)
        end;
      variable ← price_variable input;
      Some (variable, price)
  | _ => None
  end.

Fixpoint price_terms (terms : list ExpressionNode) (prices : list (BillingVariable * number))
  : option (list (BillingVariable * number)) :=
  match terms with
  | [] => Some prices
  | term :: terms =>
      '(variable, price) ← price_term term;
      if assoc_has variable prices then None
      else price_terms terms (assoc_set variable price prices)
  end.

Definition tokenTier (node : ExpressionNode) (conditions : list TokenTierCondition)
  : option TokenTier :=
  match node with
  | Call Fn_tier (Literal (LString label) _ _ _ :: body :: _) _ _ =>
      match body with
      | Call Fn_fixed (Literal (LNumber amount) _ _ _ :: _) _ _ =>
          Some (fixed_tier label conditions amount)
      | _ =>
          prices ← price_terms (flattenBinary body Op_add) [];
          match prices with [] => None | _ => Some (price_tier label conditions prices) end
      end
  | _ => None
  end.

(** [part] is [ai > 0] or [ao > 0]. *)
Definition audio_input (part : ExpressionNode) : option BillingVariable :=
  match part with
  | Binary Op_gt (Variable_ Var_ai _ _) r _ _ => if is_zero_literal r then Some Var_ai else None
  | Binary Op_gt (Variable_ Var_ao _ _) r _ _ => if is_zero_literal r then Some Var_ao else None
  | _ => None
  end.

(** The first branch of [readTokenTierChain]: [ai > 0 || ao > 0 ? ... : ...]. *)
Definition read_audio_chain (node : ExpressionNode) : option (list TokenTier) :=
  match node with
  | Conditional (Binary Op_or l r _ _) yes no _ _ =>
      match audio_input l, audio_input r with
      | Some x, Some y =>
          if bool_decide (x = y) then None
          else
            audio ← tokenTier yes [];
            text ← tokenTier no [];
            Some [with_conditionText (u "Audio requests") audio;
                  with_conditionText (u "Text-only requests") text]
      | _, _ => None
      end
  | _ => None
  end.

Definition is_image_count (node : ExpressionNode) : bool :=
  match node with Variable_ Var_image_count _ _ => true | _ => false end.

(** The [while] loop and the fallback. *)
Fixpoint read_linear_chain (node : ExpressionNode) : option (list TokenTier) :=
  match node with
  | Conditional condition yes no _ _ =>
      conditions ← tokenConditions condition;
      tier ← tokenTier yes conditions;
      tiers ← read_linear_chain no;
      Some (tier :: tiers)
  | _ => fallback ← tokenTier node []; Some [fallback]
  end.

Fixpoint readTokenTierChain (node : ExpressionNode) : option (list TokenTier) :=
  match read_audio_chain node with
  | Some tiers => Some tiers
  | None =>
      match node with
      | Binary Op_mul l r _ _ =>
          if is_image_count l then map with_imageCount <$> readTokenTierChain r
          else if is_image_count r then map with_imageCount <$> readTokenTierChain l
          else read_linear_chain node
      | _ => read_linear_chain node
      end
  end.

(** ** Tiers by time *)

Definition is_time_helper (f : BillingFunction) : bool :=
  match f with
  | Fn_min | Fn_max | Fn_abs | Fn_ceil | Fn_floor => true
  | _ => is_time f
  end.

Definition isTimeCondition (node : ExpressionNode) : outcome bool :=
  d ← expressionDependencies node;
  Ok (match variables d with [] => true | _ => false end
      && existsb is_time (functions d)
      && forallb is_time_helper (functions d)).

(** [`${condition.var} ${condition.op} ${condition.value}`] *)
Definition condition_text (c : TokenTierCondition) : str :=
  variable_text (tc_var c) ++ u " " ++ operator_text (tc_op c) ++ u " "
    ++ number_to_string (tc_value c).

Definition time_text_of (source : str) (c : TimeTierCondition) : str :=
  let text := slice source (node_start (tcond_condition c)) (node_end (tcond_condition c)) in
  if tcond_matches c then u "(" ++ text ++ u ")" else u "!(" ++ text ++ u ")".

Section with_compiled.
Context (compiled : CompiledBillingExpression).

Fixpoint timeTierBranches (node : ExpressionNode) (path : list TimeTierCondition)
  : outcome (option (list TimeTokenTier)) :=
  let leaf : option (list TimeTokenTier) :=
    match readTokenTierChain node, path with
    | Some tiers, _ :: _ =>
        let timeDescription := join (u " && ") (map (time_text_of (ce_source compiled)) path) in
        Some (map (fun tier =>
          {| ttt_tier := with_conditionText
               (join (u " && ") (timeDescription :: map condition_text (tt_conditions tier))) tier;
             ttt_timeConditions := path |}) tiers)
    | _, _ => None
    end in
  match node with
  | Conditional condition yes no _ _ =>
      by_time ← isTimeCondition condition;
      if (by_time : bool) then
        yes ← timeTierBranches yes (path ++ [TimeTierCond condition true]);
        no ← timeTierBranches no (path ++ [TimeTierCond condition false]);
        Ok (y ← yes; n ← no; Some (y ++ n))
      else Ok leaf
  | _ => Ok leaf
  end.
End with_compiled.

Definition is_current `{Host} (compiled : CompiledBillingExpression) (now : date)
    (tier : TimeTokenTier) : bool :=
  forallb (fun c => bool_decide
      (evaluateBillingCondition compiled (tcond_condition c) now = Some (tcond_matches c)))
    (ttt_timeConditions tier).

(** The tiers and, for a given time, the current ones. *)
Definition readTimeTokenPricing `{Host} (source : str) (now : option date)
  : outcome (option (list TimeTokenTier * list TimeTokenTier)) :=
  match compile source with
  | inr _ => Ok None
  | inl compiled =>
      tiers ← timeTierBranches compiled (ce_ast compiled) [];
      Ok (tiers ← tiers;
          Some (tiers, match now with
                       | Some now => List.filter (is_current compiled now) tiers
                       | None => [] end))
  end.

(** ** Task tiers *)

Inductive BillingUsageUnit : Type := U_second | U_count | U_token | U_credit.
Inductive UsageFieldType : Type := F_number | F_boolean.

#[export] Instance unit_eq_dec : EqDecision BillingUsageUnit.
Proof. solve_decision. Defined.
#[export] Instance field_type_eq_dec : EqDecision UsageFieldType.
Proof. solve_decision. Defined.

(** The fields of [BillingUsageFieldSchema] that pricing reads. *)
(** A text, or texts by language tag: [string | Record<string, string>]. *)
Inductive LocalizedText : Type := Text (s : str) | Texts (texts : list (str * str)).

Record BillingUsageFieldSchema : Type := Field {
  f_type : option UsageFieldType;
  f_unit : option BillingUsageUnit;
  f_unitLabel : option LocalizedText;
  f_enum : option (list str);
  f_enumLabels : option (list (str * LocalizedText));
  f_description : option LocalizedText;
}.
Abbreviation BillingUsageSchema := (list (str * BillingUsageFieldSchema)).

Record TaskCondition : Type := TaskCond { tk_field : str; tk_value : str }.
Record TaskTier : Type := {
  task_conditionText : option str;
  task_label : str;
  task_conditions : list TaskCondition;
  task_constant : number;
  task_unitPrices : list (str * number);
}.

Inductive TaskConditions : Type := Unreachable | Conditions (l : list TaskCondition).

Section with_schema.
Context (schema : BillingUsageSchema) (includeBoolean : bool).

(** One turn of the loop of [taskConditions]: the condition and whether the
    schema still declares its value. *)
Definition task_condition (term : ExpressionNode) : option (TaskCondition * bool) :=
  match term with
  | Binary Op_eq (Call Fn_u (Literal (LString field) _ _ _ :: _) _ _) (Literal v _ _ _) _ _ =>
      let definition := assoc_get field schema in
      if bool_decide ((definition ≫= f_type) = Some F_boolean) then
        match v with
        | LBoolean b =>
            if includeBoolean then Some (TaskCond field (boolean_text b), true) else None
        | _ => None
        end
      else
        match v, definition ≫= f_enum with
        | LString s, Some values => Some (TaskCond field s, one_of values s)
        | _, _ => None
        end
  | _ => None
  end.

Definition taskConditions (node : ExpressionNode) : option TaskConditions :=
  conditions ← map_option task_condition (flattenBinary node Op_and);
  Some (if forallb snd conditions then Conditions (map fst conditions) else Unreachable).

(** [term / 1000000], with the division taken off. *)
Definition unscaled (term : ExpressionNode) : option (ExpressionNode * bool) :=
  match term with
  | Binary Op_div l (Literal (LNumber v) _ _ _) _ _ =>
      if num_eqb v million then Some (l, true) else None
  | Binary Op_div _ _ _ _ => None
  | _ => Some (term, false)
  end.

Definition unit_price (term : ExpressionNode) (scaled : bool) : option (str * number) :=
  match term with
  | Binary Op_mul (Call Fn_u (Literal (LString field) _ _ _ :: _) _ _) r _ _ =>
      price ← nonnegativePriceLiteral r;
      definition ← assoc_get field schema;
      match f_type definition, f_unit definition with
      | Some F_number, Some unit_ =>
          if eqb (bool_decide (unit_ = U_token)) scaled then Some (field, price) else None
      | _, _ => None
      end
  | _ => None
  end.

(** The loop of [taskTier]; [constant] is set once. *)
Fixpoint task_terms (terms : list ExpressionNode) (constant : option number)
    (unitPrices : list (str * number)) : option (number * list (str * number)) :=
  match terms with
  | [] => Some (default zero constant, unitPrices)
  | term :: terms =>
      match nonnegativePriceLiteral term with
      | Some literal =>
          match constant with
          | Some _ => None
          | None => task_terms terms (Some literal) unitPrices
          end
      | None =>
          '(term, scaled) ← unscaled term;
          '(field, price) ← unit_price term scaled;
          if assoc_has field unitPrices then None
          else task_terms terms constant (assoc_set field price unitPrices)
      end
  end.

Definition taskTier (node : ExpressionNode) (conditions : list TaskCondition) : option TaskTier :=
  match node with
  | Call Fn_tier (Literal (LString label) _ _ _ :: body :: _) _ _ =>
      '(constant, unitPrices) ← task_terms (flattenBinary body Op_add) None [];
      match unitPrices with
      | [] => None
      | _ => Some {| task_conditionText := None; task_label := label; task_conditions := conditions;
                     task_constant := constant; task_unitPrices := unitPrices |}
      end
  | _ => None
  end.

Fixpoint readTaskTierChain (node : ExpressionNode) : option (list TaskTier) :=
  match node with
  | Conditional condition yes no _ _ =>
      conditions ← taskConditions condition;
      match conditions with
      | Unreachable => readTaskTierChain no
      | Conditions conditions =>
          tier ← taskTier yes conditions;
          tiers ← readTaskTierChain no;
          Some (tier :: tiers)
      end
  | _ => fallback ← taskTier node []; Some [fallback]
  end.
End with_schema.
