(* ===== verification/TaskDisplay.v ===== *)
(** * Task prices under categorical facts and time conditions

    [billing-expression/task-display.ts].  [context.remaining] is the state of a
    [method]; returning [null], which every caller passes on at once, is its
    exception.  The other fields of the context are arguments.  Names of usage
    fields are assumed not to be names of [Object.prototype]. *)

From Stdlib Require Import String.
From S2P Require Import Prelude JsNumber JsString JsText Ast Parser Compile Request.
From S2P Require Import BillingTime Runtime Display.

(** ** Data *)

Inductive Fact : Type := FString (s : str) | FBoolean (b : bool).

#[export] Instance fact_eq_dec : EqDecision Fact.
Proof. solve_decision. Defined.

Definition fact_text (f : Fact) : str :=
  match f with FString s => s | FBoolean b => boolean_text b end.

Record PriceBranch : Type := {
  pb_label : option str;
  pb_constant : number;
  pb_prices : list (str * number);
  pb_times : list (str * bool);
}.

Definition MAX_DISPLAY_ROWS : nat := 128.

(** Computations that count [context.remaining] down and may answer [null]. *)
Abbreviation counting := (method Z unit).
Definition null {A} : counting A := throwing tt.
Definition of_option {A} (o : option A) : counting A :=
  match o with Some a => mret a | None => null end.

(** [if (--context.remaining < 0) return null] *)
Definition tick : counting unit :=
  remaining ← get;
  put (remaining - 1)%Z;;
  method_throw_when (remaining - 1 <? 0)%Z tt.

(** [boolean | string]: decided, or a text over time. *)
Inductive ConditionValue : Type := Decided (b : bool) | Undecided (text : str).

Definition is_decided (b : bool) (v : ConditionValue) : bool :=
  match v with Decided b' => eqb b b' | Undecided _ => false end.

(** [new Map(entries)] *)
Definition map_of {K V} `{EqDecision K} (entries : list (K * V)) : list (K * V) :=
  fold_left (fun m e => assoc_set e.1 e.2 m) entries [].

Section display.
Context (source : str) (schema : BillingUsageSchema) (facts : list (str * Fact)).

Definition is_time_call (part : ExpressionNode) : bool :=
  match part with
  | Call (Fn_time _) (Literal (LString zone) _ _ _ :: _) _ _ =>
      negb (str_eqb (trim zone) (u "Local"))
  | _ => false
  end.
Definition is_call (part : ExpressionNode) : bool :=
  match part with Call _ _ _ _ => true | _ => false end.
Definition is_number_literal (part : ExpressionNode) : bool :=
  match part with Literal (LNumber _) _ _ _ => true | _ => false end.

(** [probe] is [u("key")] and [literal] a literal. *)
Definition usage_probe (probe literal : ExpressionNode) : option (str * LiteralValue) :=
  match probe, literal with
  | Call Fn_u (Literal (LString key) _ _ _ :: _) _ _, Literal v _ _ _ => Some (key, v)
  | _, _ => None
  end.

(** The answer to [u("key") == v] (or [!=], when [negated]). *)
Definition usage_equals (key : str) (v : LiteralValue) (negated : bool) : option ConditionValue :=
  fact ← assoc_get key facts;
  definition ← assoc_get key schema;
  let answer (equal : bool) := Some (Decided (if negated then negb equal else equal)) in
  if bool_decide (f_type definition = Some F_boolean) then
    match v with
    | LBoolean b => answer (bool_decide (fact = FBoolean b))
    | _ => None
    end
  else
    match v with
    | LString s =>
        if match f_enum definition with Some values => one_of values s | None => false end
        then answer (bool_decide (fact = FString s))
        else Some (Decided negated)
    | _ => None
    end.

(** The branch on comparisons of numbers and time functions. *)
Definition time_comparison (node l r : ExpressionNode) : option ConditionValue :=
  if (is_call l || is_call r)
     && (is_number_literal l || is_time_call l) && (is_number_literal r || is_time_call r)
  then Some (Undecided (slice source (node_start node) (node_end node))) else None.

Definition equality_condition (node l r : ExpressionNode) (negated : bool)
  : option ConditionValue :=
  match usage_probe l r with
  | Some (key, v) => usage_equals key v negated
  | None =>
      match usage_probe r l with
      | Some (key, v) => usage_equals key v negated
      | None => time_comparison node l r
      end
  end.

(** [&&] and [||] on two values; [or] is the operator's short-circuit value. *)
Definition connect (or : bool) (left_ right_ : ConditionValue) : ConditionValue :=
  if is_decided or left_ || is_decided or right_ then Decided or
  else match left_, right_ with
       | Decided _, _ => right_
       | _, Decided _ => left_
       | Undecided a, Undecided b =>
           Undecided (u "(" ++ a ++ u ") " ++ (if or then u "||" else u "&&")
                        ++ u " (" ++ b ++ u ")")
       end.

Fixpoint taskDisplayCondition (node : ExpressionNode) : counting ConditionValue :=
  tick;;
  match node with
  | Literal (LBoolean b) _ _ _ => mret (Decided b)
  | Unary Un_not operand _ _ =>
      v ← taskDisplayCondition operand;
      mret (match v with
            | Decided b => Decided (negb b)
            | Undecided text => Undecided (u "!(" ++ text ++ u ")")
            end)
  | Binary operator l r _ _ =>
      match operator with
      | Op_and | Op_or =>
          a ← taskDisplayCondition l;
          b ← taskDisplayCondition r;
          mret (connect (bool_decide (operator = Op_or)) a b)
      | Op_eq => of_option (equality_condition node l r false)
      | Op_ne => of_option (equality_condition node l r true)
      | Op_lt | Op_le | Op_gt | Op_ge => of_option (time_comparison node l r)
      | _ => null
      end
  | _ => null
  end.

(** ** Symbolic linear prices *)

Definition single_price (constant : number) (prices : list (str * number)) : PriceBranch :=
  {| pb_label := None; pb_constant := constant; pb_prices := prices; pb_times := [] |}.
Definition with_label (label : str) (b : PriceBranch) : PriceBranch :=
  {| pb_label := Some label; pb_constant := pb_constant b; pb_prices := pb_prices b;
     pb_times := pb_times b |}.
Definition is_labelled (b : PriceBranch) : bool :=
  match pb_label b with Some _ => true | None => false end.

(** The children of a branch that agree with [condition = matches]. *)
Definition under_time (condition : str) (matches : bool) (children : list PriceBranch)
  : list PriceBranch :=
  omap (fun child =>
    match assoc_get condition (pb_times child) with
    | Some matches' =>
        if negb (eqb matches matches') then None
        else Some {| pb_label := pb_label child; pb_constant := pb_constant child;
                     pb_prices := pb_prices child;
                     pb_times := map_of ((condition, matches) :: pb_times child) |}
    | None =>
        Some {| pb_label := pb_label child; pb_constant := pb_constant child;
                pb_prices := pb_prices child;
                pb_times := map_of ((condition, matches) :: pb_times child) |}
    end) children.

Inductive PriceOperator : Type := P_add | P_mul | P_div.

Definition price_operator (o : BinaryOperator) : option PriceOperator :=
  match o with
  | Op_add => Some P_add | Op_mul => Some P_mul | Op_div => Some P_div | _ => None
  end.

Definition has_prices (b : PriceBranch) : bool :=
  match pb_prices b with [] => false | _ => true end.

Definition add_prices (a b : list (str * number)) : list (str * number) :=
  map (fun field => (field, num_add (default zero (assoc_get field a))
                              (default zero (assoc_get field b))))
    (a.*1 ++ List.filter (fun field => negb (assoc_has field a)) (b.*1)).

Definition scale_prices (factor : number) (prices : list (str * number)) : list (str * number) :=
  map (fun e => (e.1, num_mul e.2 factor)) prices.

(** The constant and the unit prices of [a operator b]; [None] is [null]. *)
Definition combine_prices (operator : PriceOperator) (a b : PriceBranch)
  : option (number * list (str * number)) :=
  match operator with
  | P_add => Some (num_add (pb_constant a) (pb_constant b), add_prices (pb_prices a) (pb_prices b))
  | P_mul =>
      if has_prices a && has_prices b then None
      else if has_prices a
      then Some (num_mul (pb_constant a) (pb_constant b), scale_prices (pb_constant b) (pb_prices a))
      else Some (num_mul (pb_constant a) (pb_constant b), scale_prices (pb_constant a) (pb_prices b))
  | P_div =>
      if has_prices b || num_leb (pb_constant b) zero then None
      else Some (num_div (pb_constant a) (pb_constant b),
                 scale_prices (num_div one (pb_constant b)) (pb_prices a))
  end.

Definition is_price (x : number) : bool := num_is_finite x && num_geb x zero.

Definition times_conflict (a b : PriceBranch) : bool :=
  existsb (fun e => match assoc_get e.1 (pb_times b) with
                    | Some v => negb (eqb v e.2)
                    | None => false end) (pb_times a).

(** One turn of the loops over [a] and [b]: [None] returns [null],
    [Some None] continues. *)
Definition combine_branches (operator : PriceOperator) (a b : PriceBranch)
  : option (option PriceBranch) :=
  if is_labelled a && is_labelled b then None
  else if times_conflict a b then Some None
  else
    '(constant, prices) ← combine_prices operator a b;
    if is_price constant && forallb (fun e => is_price e.2) prices then
      Some (Some {| pb_label := match pb_label a with Some l => Some l | None => pb_label b end;
                    pb_constant := constant; pb_prices := prices;
                    pb_times := map_of (pb_times a ++ pb_times b) |})
    else None.

Definition cross_branches (operator : PriceOperator) (left_ right_ : list PriceBranch)
  : option (list PriceBranch) :=
  branches ← map_option (fun ab : PriceBranch * PriceBranch => combine_branches operator ab.1 ab.2)
               (flat_map (fun a => map (fun b => (a, b)) right_) left_);
  Some (omap (M := list) (fun o => o) branches).

Definition small (n : nat) : bool := (n <=? MAX_DISPLAY_ROWS)%nat.

Fixpoint taskPriceBranches (node : ExpressionNode) : counting (list PriceBranch) :=
  tick;;
  match node with
  | Literal (LNumber v) _ _ _ =>
      if num_geb v zero then mret [single_price v []] else null
  | Call Fn_u (Literal (LString field) _ _ _ :: _) _ _ =>
      match assoc_get field schema with
      | Some {| f_type := Some F_number; f_unit := Some _ |} =>
          mret [single_price zero [(field, one)]]
      | _ => null
      end
  | Call Fn_tier (Literal (LString label) _ _ _ :: body :: _) _ _ =>
      branches ← taskPriceBranches body;
      if existsb is_labelled branches then null else mret (map (with_label label) branches)
  | Conditional condition yes no _ _ =>
      c ← taskDisplayCondition condition;
      match c with
      | Decided b => if (b : bool) then taskPriceBranches yes else taskPriceBranches no
      | Undecided text =>
          yes ← taskPriceBranches yes;
          no ← taskPriceBranches no;
          let branches := under_time text true yes ++ under_time text false no in
          if small (length branches) then mret branches else null
      end
  | Binary operator l r _ _ =>
      match price_operator operator with
      | None => null
      | Some operator =>
          a ← taskPriceBranches l;
          b ← taskPriceBranches r;
          if small (length a * length b) then of_option (cross_branches operator a b) else null
      end
  | _ => null
  end.
End display.

(** ** [readConditionalTaskPricing] *)

(** The visitor: the fields read by [u], [None] once one is not declared. *)
Definition field_visitor (schema : BillingUsageSchema) (fields : option (list str))
    (node : ExpressionNode) : outcome (option (list str)) :=
  match node with
  | Call Fn_u args _ _ =>
      key ← argument args 0;
      Ok (match key with
          | Literal (LString key) _ _ _ =>
              if assoc_has key schema then set_add key <$> fields else None
          | _ => None
          end)
  | _ => Ok fields
  end.

(** The values of a categorical field. *)
Definition fact_values (definition : BillingUsageFieldSchema) : list Fact :=
  if bool_decide (f_type definition = Some F_boolean) then [FBoolean false; FBoolean true]
  else map FString (default [] (f_enum definition)).

Definition extend_combinations (schema : BillingUsageSchema)
    (combinations : list (list (str * Fact))) (field : str)
  : option (list (list (str * Fact))) :=
  definition ← assoc_get field schema;
  if bool_decide (f_type definition = Some F_number) then Some combinations
  else
    let values := fact_values definition in
    if match values with [] => true | _ => false end
       || negb (small (length combinations * length values)) then None
    else Some (flat_map (fun facts => map (fun v => facts ++ [(field, v)]) values) combinations).

Fixpoint fold_option {A B} (f : A -> B -> option A) (acc : A) (l : list B) : option A :=
  match l with [] => Some acc | x :: l => acc ← f acc x; fold_option f acc l end.

(** The displayed prices of a branch: tokens per million. *)
Definition display_prices (schema : BillingUsageSchema) (fields : list str)
    (prices : list (str * number)) : list (str * number) :=
  omap (fun field =>
    match assoc_get field schema with
    | Some {| f_type := Some F_number; f_unit := Some unit_ |} =>
        Some (field, num_mul (default zero (assoc_get field prices))
                       (if bool_decide (unit_ = U_token) then million else one))
    | _ => None
    end) fields.

Definition branch_tier (schema : BillingUsageSchema) (fields : list str)
    (facts : list (str * Fact)) (branch : PriceBranch) : option TaskTier :=
  label ← pb_label branch;
  let unitPrices := display_prices schema fields (pb_prices branch) in
  if match unitPrices with [] => true | _ => false end
     || negb (forallb (fun e => num_is_finite e.2) unitPrices) then None
  else
    let conditionText := join (u " && ")
      (map (fun e : str * bool =>
              if e.2 then u "(" ++ e.1 ++ u ")" else u "!(" ++ e.1 ++ u ")") (pb_times branch)) in
    Some {| task_conditionText := if nonempty conditionText then Some conditionText else None;
            task_label := label;
            task_conditions := map (fun e => TaskCond e.1 (fact_text e.2)) facts;
            task_constant := pb_constant branch;
            task_unitPrices := unitPrices |}.

(** The loop over the combinations; [remaining] is shared by its turns. *)
Fixpoint combination_tiers (source : str) (schema : BillingUsageSchema) (fields : list str)
    (ast : ExpressionNode) (combinations : list (list (str * Fact))) (tiers : list TaskTier)
  : counting (list TaskTier) :=
  match combinations with
  | [] => mret tiers
  | facts :: combinations =>
      branches ← taskPriceBranches source schema facts ast;
      if negb (small (length tiers + length branches)) then null
      else
        rows ← of_option (map_option (branch_tier schema fields facts) branches);
        combination_tiers source schema fields ast combinations (tiers ++ rows)
  end.

Definition readConditionalTaskPricing (source : str) (schema : BillingUsageSchema)
  : outcome (option (list TaskTier)) :=
  match compile source with
  | inr _ => Ok None
  | inl compiled =>
      fields ← visitExpression (field_visitor schema) (ce_ast compiled) (Some []);
      Ok (fields ← fields;
          combinations ← fold_option (extend_combinations schema) [[]] fields;
          match combination_tiers source schema fields (ce_ast compiled) combinations [] 20000 with
          | Ok (tiers, _) => Some tiers
          | Throw _ => None
          end)
  end.
