(* ===== verification/Regex.v ===== *)
(** * Regular expressions of JavaScript

    A backtracking matcher in continuation style for the constructs the
    sources use: classes, sequences, ordered alternatives, greedy repetition,
    capture groups and back references. *)

From Stdlib Require Import String.
From S2P Require Import Prelude JsString.

Inductive re : Type :=
| Eps
| Chr (p : N -> bool)
| Seq (a b : re)
| Alt (a b : re)
| Star (a : re)
| Group (i : nat) (a : re)
| Back (i : nat).

(** The text of each group that took part in the match. *)
Abbreviation captures := (list (nat * str)).

Fixpoint run_re (r : re) (s : str) (c : captures)
    (k : str -> captures -> option (str * captures)) : option (str * captures) :=
  match r with
  | Eps => k s c
  | Chr p => match s with x :: s' => if p x then k s' c else None | [] => None end
  | Seq a b => run_re a s c (fun s' c' => run_re b s' c' k)
  | Alt a b => match run_re a s c k with Some m => Some m | None => run_re b s c k end
  | Star a =>
      (fix loop (n : nat) (s : str) (c : captures) : option (str * captures) :=
         match n with
         | O => k s c
         | S n =>
             match run_re a s c (fun s' c' =>
                     if (length s' <? length s)%nat then loop n s' c' else None) with
             | Some m => Some m
             | None => k s c
             end
         end) (length s) s c
  | Group i a =>
      run_re a s c (fun s' c' => k s' (assoc_set i (take (length s - length s') s) c'))
  | Back i =>
      match assoc_get i c with
      | Some t => if starts_with s t then k (drop (length t) s) c else None
      | None => k s c
      end
  end.

(** A match at the start of [s]: the rest of the text and the groups. *)
Definition match_prefix (r : re) (s : str) : option (str * captures) :=
  run_re r s [] (fun s c => Some (s, c)).
(** [/^r$/] *)
Definition match_all (r : re) (s : str) : option captures :=
  snd <$> run_re r s [] (fun s c => match s with [] => Some (s, c) | _ => None end).
Definition test_all (r : re) (s : str) : bool :=
  match match_all r s with Some _ => true | None => false end.

(** The leftmost match: the text before it, the rest behind it, the groups. *)
Fixpoint search (r : re) (s : str) (before : str) : option (str * str * captures) :=
  match match_prefix r s with
  | Some (rest, c) => Some (before, rest, c)
  | None => match s with [] => None | x :: s => search r s (before ++ [x]) end
  end.

Definition group (i : nat) (c : captures) : option str := assoc_get i c.
(** [m[i]] of a group that takes part in every match. *)
Definition text_of (i : nat) (c : captures) : str := default [] (assoc_get i c).

(** ** Notation of patterns *)

Fixpoint lit_chars (s : str) : re :=
  match s with [] => Eps | c :: s => Seq (Chr (N.eqb c)) (lit_chars s) end.
Definition lit (s : string) : re := lit_chars (u s).
(** The same with the double quotes of the source written as single ones. *)
Definition litq (s : string) : re :=
  lit_chars (map (fun c => if N.eqb c apostrophe then quote_char else c) (u s)).
Fixpoint alts (l : list re) : re :=
  match l with [] => Chr (fun _ => false) | [r] => r | r :: l => Alt r (alts l) end.
Definition seqs (l : list re) : re := fold_right Seq Eps l.
Definition plus (r : re) : re := Seq r (Star r).
Definition opt (r : re) : re := Alt r Eps.
Definition class (s : string) : re := Chr (fun c => bool_decide (c ∈ u s)).
Definition none_of (l : list N) : re := Chr (fun c => negb (bool_decide (c ∈ l))).
Definition digit : re := Chr is_digit.
Definition space : re := Chr is_space.
(** [.] without the [s] flag: not a line terminator. *)
Definition any : re := none_of [10%N; 13%N; 8232%N; 8233%N].
Definition any_s : re := Chr (fun _ => true).
