(* ===== verification/Json.v ===== *)
(** * [JSON.parse] *)

From Stdlib Require Import String.
From S2P Require Import Prelude JsNumber JsString JsText Ast Request.

Definition json_space (c : N) : bool :=
  N.eqb c 32 || N.eqb c 9 || N.eqb c 10 || N.eqb c 13.
Definition skip_json_space (s : str) : str := drop_while json_space s.

Definition json_escape_char (c : N) : option N :=
  match c with
  | 34%N => Some 34%N | 92%N => Some 92%N | 47%N => Some 47%N
  | 98%N => Some 8%N | 102%N => Some 12%N | 110%N => Some 10%N
  | 114%N => Some 13%N | 116%N => Some 9%N
  | _ => None
  end.

Definition hex_number (a b c d : N) : option N :=
  if is_hex a && is_hex b && is_hex c && is_hex d
  then Some (16 * (16 * (16 * hex_value a + hex_value b) + hex_value c) + hex_value d)%N
  else None.

(** The rest of a string literal behind its opening quote. *)
Fixpoint json_chars (s : str) : option (str * str) :=
  match s with
  | [] => None
  | c :: s =>
      if N.eqb c quote_char then Some ([], s)
      else if N.eqb c backslash then
        match s with
        | e :: s' =>
            if N.eqb e 117 then
              match s' with
              | a :: b :: c' :: d :: s'' =>
                  x ← hex_number a b c' d; '(t, r) ← json_chars s''; Some (x :: t, r)
              | _ => None
              end
            else x ← json_escape_char e; '(t, r) ← json_chars s'; Some (x :: t, r)
        | [] => None
        end
      else if N.ltb c 32 then None
      else '(t, r) ← json_chars s; Some (c :: t, r)
  end.

(** A JSON number: an optional sign, an integer part without leading zeros,
    a fraction with digits, an exponent. *)
Definition json_number (s : str) : option (number * str) :=
  let (negative, t) := match s with
                       | 45%N :: t => (true, t)
                       | _ => (false, s) end in
  match scan_decimal t with
  | Some (d, rest) =>
      let leading := match dec_int d with 48%N :: _ :: _ => true | [] => true | _ => false end in
      let empty_fraction := match dec_frac d with Some [] => true | _ => false end in
      if leading || empty_fraction then None
      else Some (decimal_number negative d, rest)
  | None => None
  end.

Definition json_keyword (s : str) : option (value * str) :=
  if starts_with s (u "null") then Some (VNull, drop 4 s)
  else if starts_with s (u "true") then Some (VBoolean true, drop 4 s)
  else if starts_with s (u "false") then Some (VBoolean false, drop 5 s)
  else None.

(** A value at the start of the text (behind white space), with the rest. *)
Fixpoint json_value (fuel : nat) (s : str) : option (value * str) :=
  match fuel with
  | O => None
  | S fuel =>
      match skip_json_space s with
      | 34%N :: t => '(x, r) ← json_chars t; Some (VString x, r)
      | 91%N :: t =>
          match skip_json_space t with
          | 93%N :: r => Some (VArray [], r)
          | _ => '(items, r) ← json_items fuel t; Some (VArray items, r)
          end
      | 123%N :: t =>
          match skip_json_space t with
          | 125%N :: r => Some (VObject [], r)
          | _ => '(fields, r) ← json_fields fuel t []; Some (VObject fields, r)
          end
      | t =>
          match json_keyword t with
          | Some m => Some m
          | None => '(x, r) ← json_number t; Some (VNumber x, r)
          end
      end
  end
with json_items (fuel : nat) (s : str) : option (list value * str) :=
  match fuel with
  | O => None
  | S fuel =>
      '(item, r) ← json_value fuel s;
      match skip_json_space r with
      | 44%N :: r => '(items, r) ← json_items fuel r; Some (item :: items, r)
      | 93%N :: r => Some ([item], r)
      | _ => None
      end
  end
with json_fields (fuel : nat) (s : str) (fields : list (str * value))
  : option (list (str * value) * str) :=
  match fuel with
  | O => None
  | S fuel =>
      match skip_json_space s with
      | 34%N :: t =>
          '(key, r) ← json_chars t;
          match skip_json_space r with
          | 58%N :: r =>
              '(item, r) ← json_value fuel r;
              let fields := assoc_set key item fields in
              match skip_json_space r with
              | 44%N :: r => json_fields fuel r fields
              | 125%N :: r => Some (fields, r)
              | _ => None
              end
          | _ => None
          end
      | _ => None
      end
  end.

(** [JSON.parse(text)]; [None]: it throws.  Every level of nesting and every
    item consumes a character, so the fuel is enough. *)
Definition json_parse (text : str) : option value :=
  '(v, rest) ← json_value (2 * length text + 2) text;
  match skip_json_space rest with [] => Some v | _ => None end.

(** [String(v)] *)
Fixpoint to_string (v : value) : str :=
  match v with
  | VUndefined => u "undefined"
  | VNull => u "null"
  | VBoolean b => boolean_text b
  | VNumber x => number_to_string x
  | VString s => s
  | VArray items =>
      join (u ",") ((fix go (l : list value) : list str :=
                       match l with
                       | [] => []
                       | v :: l => (if nullish v then [] else to_string v) :: go l
                       end) items)
  | VObject _ => u "[object Object]"
  end.

(** ** Reading a value *)

(** [value.name] of an object; other values have none of the fields. *)
Definition field (v : value) (name : string) : value :=
  match v with VObject fields => default VUndefined (assoc_get (u name) fields) | _ => VUndefined end.

Definition as_string (v : value) : option str := match v with VString s => Some s | _ => None end.
Definition as_number (v : value) : option number := match v with VNumber x => Some x | _ => None end.
Definition as_boolean (v : value) : option bool := match v with VBoolean b => Some b | _ => None end.
(** [typeof v === 'string' && v.length > 0] *)
Definition as_text (v : value) : option str :=
  match v with VString s => if nonempty s then Some s else None | _ => None end.

(** [Boolean(v)] *)
Definition truthy (v : value) : bool :=
  match v with
  | VUndefined | VNull => false
  | VBoolean b => b
  | VNumber x => num_truthy x
  | VString s => nonempty s
  | VArray _ | VObject _ => true
  end.
