(* ===== verification/JsonFacts.v ===== *)
(** * Printed string literals are read back

    [JSON.stringify] of a string, read by [JSON.parse] and by the lexer of
    billing expressions. *)

From Stdlib Require Import String.
From S2P Require Import Prelude JsNumber JsString JsText Ast Parser Request Json.

#[local] Open Scope N_scope.

(** ** The pieces of a printed string *)

(** The escapes of one letter [JSON.stringify] uses. *)
Definition short_escape (c e : N) : Prop :=
  (c, e) ∈ [(8, 98); (9, 116); (10, 110); (12, 102); (13, 114);
            (quote_char, quote_char); (backslash, backslash)].

(** [p] prints the code unit [c]. *)
Inductive piece (c : N) : str -> Prop :=
| piece_plain : c <> quote_char -> c <> backslash -> 32 <= c -> piece c [c]
| piece_short e : short_escape c e -> piece c [backslash; e]
| piece_hex : c < 65536 -> piece c (unicode_escape c).

Definition code_unit (c : N) : Prop := c < 65536.

Lemma json_escape_piece c : code_unit c -> piece c (json_escape c).
Proof.
  intros Hc. unfold json_escape.
  repeat (match goal with |- context [N.eqb c ?k] => destruct (N.eqb_spec c k) as [->|?] end;
          [by constructor; unfold short_escape; repeat (left || right)|]).
  destruct (N.ltb_spec c 32); [by apply piece_hex|by apply piece_plain].
Qed.

Lemma plain_surrogate c : is_lead c = true \/ is_trail c = true -> piece c [c].
Proof.
  unfold is_lead, is_trail, in_range, quote_char, backslash. intros Hc.
  assert (55296 <= c) by (destruct Hc as [Hc|Hc]; apply andb_true_iff in Hc as [Hc _];
    apply N.leb_le in Hc; lia).
  apply piece_plain; unfold quote_char, backslash; lia.
Qed.

Lemma json_body_pieces s :
  Forall code_unit s -> exists ps, json_body s = concat ps /\ Forall2 piece s ps.
Proof.
  remember (length s) as n eqn:Hn. revert s Hn.
  induction n as [n IH] using (well_founded_induction Nat.lt_wf_0). intros s Hn Hs.
  destruct s as [|c s]; [exists []; by split; [|constructor]|].
  apply Forall_cons_iff in Hs as [Hc Hs].
  assert (exists ps, json_body s = concat ps /\ Forall2 piece s ps) as (ps & E & Hps).
  { eapply IH; [|reflexivity|done]. subst n. cbn. lia. }
  cbn [json_body]. destruct (is_lead c) eqn:El; [|destruct (is_trail c) eqn:Et].
  - destruct s as [|d s].
    { exists [unicode_escape c]. inversion Hps; subst. split; [done|].
      constructor; [by apply piece_hex|constructor]. }
    destruct (is_trail d) eqn:Ed.
    + apply Forall_cons_iff in Hs as [_ Hs].
      destruct (IH (length s) ltac:(subst n; cbn; lia) s eq_refl Hs) as (qs & Eq & Hqs).
      exists ([c] :: [d] :: qs). rewrite Eq. split; [done|].
      constructor; [by apply plain_surrogate; left|]. constructor; [by apply plain_surrogate; right|done].
    + exists (unicode_escape c :: ps). rewrite E. split; [done|]. constructor; [by apply piece_hex|done].
  - exists (unicode_escape c :: ps). rewrite E. split; [done|]. constructor; [by apply piece_hex|done].
  - exists (json_escape c :: ps). rewrite E. split; [done|]. constructor; [by apply json_escape_piece|done].
Qed.

(** ** Hexadecimal escapes *)

Lemma hex_digit_ok n : n < 16 -> is_hex (hex_digit n) = true /\ hex_value (hex_digit n) = n.
Proof.
  intros Hn. set (ok k := is_hex (hex_digit k) && (hex_value (hex_digit k) =? k)).
  assert (forallb ok (map N.of_nat (seq 0 16)) = true) as Hall by (vm_compute; reflexivity).
  rewrite forallb_forall in Hall. specialize (Hall n). unfold ok in Hall.
  rewrite andb_true_iff, N.eqb_eq in Hall. apply Hall, in_map_iff.
  exists (N.to_nat n). split; [lia|]. apply in_seq. lia.
Qed.

Lemma hex4_value c : c < 65536 ->
  16 * (16 * (16 * (c / 4096 mod 16) + c / 256 mod 16) + c / 16 mod 16) + c mod 16 = c.
Proof. intros Hc. zify. Z.to_euclidean_division_equations. lia. Qed.

Lemma hex4_spec c : c < 65536 -> exists a b d e,
  hex4 c = [a; b; d; e] /\ forallb is_hex [a; b; d; e] = true /\
  16 * (16 * (16 * hex_value a + hex_value b) + hex_value d) + hex_value e = c.
Proof.
  intros Hc. unfold hex4. eexists _, _, _, _. split; [reflexivity|].
  assert (forall n, n mod 16 < 16) as Hm by (intros n; by apply N.mod_lt).
  pose proof (hex_digit_ok _ (Hm (c / 4096))) as [H1 V1].
  pose proof (hex_digit_ok _ (Hm (c / 256))) as [H2 V2].
  pose proof (hex_digit_ok _ (Hm (c / 16))) as [H3 V3].
  pose proof (hex_digit_ok _ (Hm c)) as [H4 V4].
  cbn [forallb]. rewrite H1, H2, H3, H4, V1, V2, V3, V4. split; [done|]. by apply hex4_value.
Qed.

(** ** [JSON.parse] *)

Lemma json_chars_piece c p rest t r :
  piece c p -> json_chars rest = Some (t, r) -> json_chars (p ++ rest) = Some (c :: t, r).
Proof.
  intros Hp Hr. destruct Hp as [H1 H2 H3|e He|Hc].
  - cbn [app json_chars]. rewrite (proj2 (N.eqb_neq _ _) H1), (proj2 (N.eqb_neq _ _) H2).
    rewrite (proj2 (N.ltb_ge _ _) H3), Hr. done.
  - unfold short_escape in He. cbn [app json_chars].
    repeat (apply elem_of_cons in He as [[= -> ->]|He]; [cbn; by rewrite Hr|]). by apply not_elem_of_nil in He.
  - destruct (hex4_spec c Hc) as (a & b & d & e & Ex & Hx & Hv).
    unfold unicode_escape. rewrite Ex. cbn [app json_chars]. cbn [forallb] in Hx.
    rewrite !andb_true_iff in Hx. destruct Hx as (Ha & Hb & Hd & He & _).
    unfold hex_number. rewrite Ha, Hb, Hd, He. cbn [andb]. rewrite Hv, Hr. done.
Qed.

Lemma json_chars_body s rest :
  Forall code_unit s -> json_chars (json_body s ++ quote_char :: rest) = Some (s, rest).
Proof.
  intros Hs. destruct (json_body_pieces s Hs) as (ps & -> & Hps). clear Hs.
  induction Hps as [|c p s ps Hp _ IH]; [done|]. cbn [concat]. rewrite <- app_assoc.
  by apply json_chars_piece.
Qed.

Lemma json_parse_string s : Forall code_unit s -> json_parse (json_string s) = Some (VString s).
Proof.
  intros Hs. unfold json_parse, json_string, quoted.
  rewrite (Nat.add_succ_r _ 1).
  pose proof (json_chars_body s [] Hs) as Hb. cbn [json_value].
  change (skip_json_space ([quote_char] ++ json_body s ++ [quote_char])) with (34%N :: json_body s ++ [quote_char]). cbv iota beta.
  rewrite Hb. done.
Qed.

(** ** The lexer *)

Lemma scan_string_piece start c p rest pos value :
  piece c p ->
  scan_string start quote_char (p ++ rest) pos value =
  scan_string start quote_char rest (pos + length p)%nat (value ++ [c]).
Proof.
  intros [H1 H2 H3|e He|Hc].
  - cbn [app scan_string]. rewrite (proj2 (N.eqb_neq _ _) H1).
    replace ((c =? 10) || (c =? 13)) with false by (symmetry; apply orb_false_iff; split; apply N.eqb_neq; lia).
    rewrite (proj2 (N.eqb_neq _ _) H2). cbn [negb length]. by rewrite Nat.add_1_r.
  - unfold short_escape in He. cbn [app length].
    replace (pos + 2)%nat with (S (S pos)) by lia.
    repeat (apply elem_of_cons in He as [[= -> ->]|He]; [reflexivity|]). by apply not_elem_of_nil in He.
  - destruct (hex4_spec c Hc) as (a & b & d & e & Ex & Hx & Hv).
    unfold unicode_escape. rewrite Ex. cbn [app scan_string length]. 
    change (simple_escape 117) with (@None N). cbn [N.eqb Pos.eqb]. rewrite Hx.
    f_equal. f_equal. f_equal. unfold hex_char. cbn [fold_left]. lia.
Qed.

Lemma scan_string_body start s rest : forall pos value,
  Forall code_unit s ->
  scan_string start quote_char (json_body s ++ quote_char :: rest) pos value =
  Ok (value ++ s, S (pos + length (json_body s)))%nat.
Proof.
  intros pos value Hs. destruct (json_body_pieces s Hs) as (ps & -> & Hps). clear Hs. revert pos value.
  induction Hps as [|c p s ps Hp _ IH]; intros pos value; cbn [concat].
  - cbn. by rewrite app_nil_r, Nat.add_0_r.
  - rewrite <- app_assoc, (scan_string_piece _ c) by done. rewrite IH, <- app_assoc, length_app.
    cbn [app]. do 3 f_equal. lia.
Qed.

Lemma lexeme_at_string pre s rest :
  Forall code_unit s ->
  lexeme_at (pre ++ json_string s ++ rest) (length pre) =
  Ok {| l_text := json_string s; l_start := length pre;
        l_end := (length pre + length (json_string s))%nat; l_kind := K_string s |}.
Proof.
  intros Hs. unfold lexeme_at. rewrite drop_app_length. unfold json_string, quoted. cbn [app].
  change (scan_decimal (quote_char :: ?x)) with (@None (decimal * str)). cbv iota beta.
  change ((quote_char =? quote_char) || (quote_char =? apostrophe)) with true. cbv iota.
  rewrite <- app_assoc. cbn [app]. rewrite scan_string_body by done. cbn [mbind result_bind app].
  assert (S (S (length pre) + length (json_body s)) =
          length pre + length (quote_char :: json_body s ++ [quote_char]))%nat as ->.
  { cbn [length]. rewrite length_app. cbn [length]. lia. }
  do 3 f_equal. pose proof (slice_middle pre (quote_char :: json_body s ++ [quote_char]) rest) as E.
  cbn [app] in E. rewrite <- app_assoc in E. cbn [app] in E. exact E.
Qed.

(** a string printed with [JSON.stringify] is read back by [JSON.parse] and,
    wherever it stands in an expression, by the lexer of billing expressions:
    labels, time zones and field names survive being printed. *)
Theorem printed_string_read_back s pre rest :
  Forall code_unit s ->
  json_parse (json_string s) = Some (VString s) /\
  lexeme_at (pre ++ json_string s ++ rest) (length pre) =
    Ok {| l_text := json_string s; l_start := length pre;
          l_end := (length pre + length (json_string s))%nat; l_kind := K_string s |}.
Proof. intros Hs. split; [by apply json_parse_string|by apply lexeme_at_string]. Qed.

(** A quote, a backslash, a line feed, a control character, a pair and a lone surrogate. *)
Definition awkward : str := [34; 92; 10; 1; 55357; 56832; 56832; 97].

Lemma printed_string_read_back_witness :
  Forall code_unit awkward /\ json_parse (json_string awkward) = Some (VString awkward) /\
  lexeme_at (u "tier(" ++ json_string awkward ++ u ", p)") 5 =
    Ok {| l_text := json_string awkward; l_start := 5;
          l_end := (5 + length (json_string awkward))%nat; l_kind := K_string awkward |}.
Proof.
  assert (Forall code_unit awkward) as Ha by (repeat constructor; by vm_compute).
  split; [exact Ha|]. exact (printed_string_read_back awkward (u "tier(") (u ", p)") Ha).
Defined.
