(* ===== verification/JsonText.v ===== *)
(** * [JSON.stringify] and its reading back

    The text of a JSON value, plain or indented, and that [JSON.parse] gives the value
    back. *)

From Stdlib Require Import String.
From stdpp Require Import list.
From S2P Require Import Prelude JsNumber JsString JsText Ast Request Json JsonFacts.

#[local] Open Scope nat_scope.

(** [JSON.stringify(v)]; a field without value is left out, an item without value
    and a number that is not finite are [null]. *)
Fixpoint stringify (v : value) : str :=
  match v with
  | VUndefined | VNull => u "null"
  | VBoolean b => boolean_text b
  | VNumber x => if num_is_finite x then number_to_string x else u "null"
  | VString s => json_string s
  | VArray items =>
      u "[" ++ join (u ",") ((fix go (l : list value) : list str :=
                                match l with [] => [] | v :: l => stringify v :: go l end) items) ++ u "]"
  | VObject fields =>
      u "{" ++ join (u ",") ((fix go (l : list (str * value)) : list str :=
                                match l with
                                | [] => []
                                | (_, VUndefined) :: l => go l
                                | (k, v) :: l => (json_string k ++ u ":" ++ stringify v) :: go l
                                end) fields) ++ u "}"
  end.

Definition field_text (p : str * value) : str := json_string (fst p) ++ u ":" ++ stringify (snd p).

(** ** Values that survive *)

(** A finite number that is not the negative zero, in canonical form. *)
Definition json_number_ok (x : number) : bool :=
  match x with Finite neg m e => valid x && negb (neg && (m =? 0)%Z) | _ => false end.

(** What [JSON.parse] returns: texts of code units, finite numbers, keys that are
    different. *)
Fixpoint json_ok (v : value) : Prop :=
  match v with
  | VUndefined => False
  | VNull | VBoolean _ => True
  | VNumber x => json_number_ok x = true
  | VString s => Forall code_unit s
  | VArray items => (fix go (l : list value) : Prop := match l with [] => True | v :: l => json_ok v /\ go l end) items
  | VObject fields =>
      NoDup fields.*1 /\
      (fix go (l : list (str * value)) : Prop :=
         match l with [] => True | (k, v) :: l => Forall code_unit k /\ json_ok v /\ go l end) fields
  end.

Lemma json_ok_items items : json_ok (VArray items) <-> Forall json_ok items.
Proof.
  induction items as [|v l IH]; [by split; [intros _; apply List.Forall_nil|]|].
  change (json_ok (VArray (v :: l))) with (json_ok v /\ json_ok (VArray l)). by rewrite IH, Forall_cons_iff.
Qed.
Definition field_ok (p : str * value) : Prop := Forall code_unit (fst p) /\ json_ok (snd p).
Lemma json_ok_fields fields : json_ok (VObject fields) <-> NoDup fields.*1 /\ Forall field_ok fields.
Proof.
  cbn [json_ok]. apply and_iff_compat_l. induction fields as [|[k v] l IH]; [by split; [intros _; apply List.Forall_nil|]|].
  rewrite IH, Forall_cons_iff. unfold field_ok at 2. cbn [fst snd]. tauto.
Qed.

Lemma array_text items : stringify (VArray items) = u "[" ++ join (u ",") (map stringify items) ++ u "]".
Proof. done. Qed.
Lemma object_text fields : Forall field_ok fields ->
  stringify (VObject fields) = u "{" ++ join (u ",") (map field_text fields) ++ u "}".
Proof.
  intros H. cbn [stringify]. f_equal. f_equal. f_equal. induction H as [|[k v] l [_ Hv] _ IH]; [done|].
  cbn [map]. rewrite <- IH. cbn [snd] in Hv. by destruct v.
Qed.

(** ** Numbers *)

(** The text of the literal is a number of JSON. *)
Definition json_decimal (d : decimal) : Prop :=
  match dec_int d with [] => False | 48%N :: _ :: _ => False | _ => True end /\ dec_frac d <> Some [].

Lemma json_decimal_int c l frac exp : c <> 48%N \/ l = [] -> frac <> Some [] -> json_decimal (Decimal (c :: l) frac exp).
Proof.
  intros Hc Hf. split; [|done]. cbn [dec_int]. destruct l as [|c' l]; [by repeat case_match|].
  destruct Hc as [Hc|Hc]; [|done]. by repeat case_match.
Qed.

Lemma place_point_json c l n : JsText.all_digits (c :: l) -> c <> 48%N ->
  exists d, place_point (c :: l) n = decimal_text d /\ decimal_ok d /\ json_decimal d.
Proof.
  intros Hds Hc. unfold place_point. set (ds := c :: l) in *.
  destruct ((Z.of_nat (length ds) <=? n)%Z && (n <=? 21)%Z) eqn:E1; [|
    destruct ((0 <? n)%Z && (n <=? 21)%Z) eqn:E2; [|
      destruct ((-6 <? n)%Z && (n <=? 0)%Z) eqn:E3]].
  - exists (Decimal (ds ++ zeros (n - Z.of_nat (length ds))) None None).
    unfold decimal_text. cbn [dec_int dec_frac dec_exp frac_text exp_text]. rewrite !app_nil_r. split; [done|].
    split; [|by apply json_decimal_int; [left|]]. split; [apply List.Forall_app; split; [exact Hds|apply zeros_digits]|by unfold ds].
  - apply andb_true_iff in E2 as [Hn%Z.ltb_lt H21].
    assert (JsText.all_digits (take (Z.to_nat n) ds) /\ JsText.all_digits (drop (Z.to_nat n) ds)) as [Ht Hd].
    { apply List.Forall_app. by rewrite take_drop. }
    exists (Decimal (take (Z.to_nat n) ds) (Some (drop (Z.to_nat n) ds)) None).
    unfold decimal_text. cbn [dec_int dec_frac dec_exp frac_text exp_text]. rewrite app_nil_r. split; [done|].
    destruct (Z.to_nat n) as [|k] eqn:En; [lia|]. unfold ds in Ht, Hd |- *. cbn [take] in *.
    split; [by split_and!|]. apply json_decimal_int; [by left|]. intros [= E].
    apply (f_equal (@length N)) in E. rewrite length_drop in E. cbn [length] in E.
    rewrite H21, andb_true_r in E1. apply Z.leb_gt in E1. unfold ds in E1. cbn [length] in E1. lia.
  - exists (Decimal [48%N] (Some (zeros (- n) ++ ds)) None).
    unfold decimal_text. cbn [dec_int dec_frac dec_exp frac_text exp_text]. rewrite app_nil_r. split; [done|].
    split; [|apply json_decimal_int; [by right|]].
    + split; [by repeat constructor|]. split; [done|]. split; [|done]. apply List.Forall_app. split; [apply zeros_digits|done].
    + intros [= E]. by destruct (zeros (- n)).
  - destruct (exponent_suffix_ok (n - 1)) as (x & -> & Hx & _). unfold ds in *. apply Forall_cons_iff in Hds as [Hd Hl].
    destruct l as [|d' l].
    + exists (Decimal [c] None x). split; [done|]. split; [split; [by constructor|done]|]. by apply json_decimal_int; [right|].
    + exists (Decimal [c] (Some (d' :: l)) x). split; [done|]. split; [split; [by constructor|done]|].
      by apply json_decimal_int; [right|].
Qed.

Lemma digits_go_head fuel z acc : (0 < z < 2 ^ Z.of_nat fuel)%Z ->
  exists c l, digits_go fuel z acc = c :: l /\ c <> 48%N.
Proof.
  revert z acc. induction fuel as [|fuel IH]; intros z acc Hz; [change (2 ^ Z.of_nat 0)%Z with 1%Z in Hz; lia|].
  rewrite Nat2Z.inj_succ, Z.pow_succ_r in Hz by lia. cbn [digits_go]. pose proof (Z.div_mod z 10 ltac:(lia)).
  pose proof (Z.mod_pos_bound z 10 ltac:(lia)). destruct (Z.eqb_spec (z / 10) 0) as [E|E].
  - eexists _, _. split; [reflexivity|]. unfold digit_char. lia.
  - apply IH. split; [|apply Z.div_lt_upper_bound; lia]. assert (0 <= z / 10)%Z by (apply Z.div_pos; lia). lia.
Qed.
Lemma digits_of_head z : (0 < z)%Z -> exists c l, digits_of z = c :: l /\ c <> 48%N.
Proof.
  intros Hz. apply digits_go_head. split; [done|]. rewrite Nat2Z.inj_succ, Z2Nat.id by apply Z.log2_nonneg.
  by apply Z.log2_spec.
Qed.

(** The text of a positive number. *)
Lemma positive_text m e : valid (Finite false m e) = true -> (0 < m)%Z ->
  exists d, number_to_string (Finite false m e) = decimal_text d /\ decimal_ok d /\ json_decimal d /\
    decimal_number false d = Finite false m e.
Proof.
  intros Hv Hm. destruct (number_to_string_spec m e Hv) as (d & Et & Hok & En). exists d. split_and!; [done..| |done].
  revert Et. unfold number_to_string. destruct (Z.eqb_spec m 0); [lia|]. destruct (shortest_decimal m e) as [s k] eqn:E.
  apply shortest_decimal_spec in E as [Hs _]; [|done..]. destruct (digits_of_head s Hs) as (c & l & El & Hc).
  destruct (digits_of_spec s ltac:(lia)) as [Hd _]. rewrite El in Hd |- *. cbn [app].
  destruct (place_point_json c l (k + Z.of_nat (length (c :: l))) Hd Hc) as (d' & -> & Hok' & Hj). intros E.
  pose proof (scan_decimal_complete d [] Hok I) as S1. pose proof (scan_decimal_complete d' [] Hok' I) as S2.
  rewrite E, S1 in S2. by injection S2 as ->.
Qed.

Lemma nonnegative_text m e : valid (Finite false m e) = true ->
  exists d, number_to_string (Finite false m e) = decimal_text d /\ decimal_ok d /\ json_decimal d /\
    decimal_number false d = Finite false m e.
Proof.
  intros Hv. pose proof (valid_nonneg _ _ _ Hv) as Hm. destruct (Z.eq_dec m 0%Z) as [->|Hm0]; [|apply positive_text; [done|lia]].
  destruct (number_to_string_spec 0 e Hv) as (d & Et & Hok & En). exists d. split_and!; [done..| |done].
  pose proof (scan_decimal_complete d [] Hok I) as S1. rewrite app_nil_r, <- Et in S1.
  change (number_to_string (Finite false 0%Z e)) with [48%N] in S1. vm_compute in S1. injection S1 as <-. by split.
Qed.

Lemma round_negated n d : round true n d = num_neg (round false n d).
Proof. unfold round. by repeat case_match. Qed.
Lemma decimal_negated d : decimal_number true d = num_neg (decimal_number false d).
Proof. unfold decimal_number, round_decimal. repeat case_match; apply round_negated. Qed.

Lemma json_number_decimal (neg : bool) d rest : decimal_ok d -> json_decimal d -> no_extend rest ->
  json_number ((if neg then [minus_sign] else []) ++ decimal_text d ++ rest) = Some (decimal_number neg d, rest).
Proof.
  intros Hok [Hi Hf] Hr. unfold json_number.
  assert (match (if neg then [minus_sign] else []) ++ decimal_text d ++ rest with
          | 45%N :: t => (true, t)
          | _ => (false, (if neg then [minus_sign] else []) ++ decimal_text d ++ rest) end = (neg, decimal_text d ++ rest)) as ->.
  { destruct neg; [done|]. cbn [app]. destruct (decimal_text d ++ rest) as [|c t] eqn:E; [done|].
    assert (is_digit c = true) as Hc.
    { unfold decimal_text in E. destruct d as [[|c' l] frac exp]; [done|]. destruct Hok as (Hds & _). cbn [dec_int] in *.
      apply Forall_cons_iff in Hds as [Hd _]. cbn in E. by injection E as <- _. }
    repeat case_match; try done; subst; vm_compute in Hc; discriminate Hc. }
  rewrite scan_decimal_complete by done.
  assert (match dec_int d with 48%N :: _ :: _ => true | [] => true | _ => false end = false) as ->.
  { by destruct (dec_int d) as [|c l]; [|repeat case_match]. }
  destruct (dec_frac d) as [[|c l]|]; done.
Qed.

Lemma json_number_text x rest : json_number_ok x = true -> no_extend rest ->
  json_number (number_to_string x ++ rest) = Some (x, rest).
Proof.
  intros Hx Hr. destruct x as [|neg|neg m e]; [done..|]. cbn [json_number_ok] in Hx. apply andb_true_iff in Hx as [Hv Hz].
  destruct (nonnegative_text m e Hv) as (d & Et & Hok & Hj & En).
  assert (number_to_string (Finite neg m e) = (if neg then [minus_sign] else []) ++ decimal_text d) as ->.
  { rewrite <- Et. unfold number_to_string. destruct neg; [|done]. destruct (m =? 0)%Z; [done|]. by destruct (shortest_decimal m e). }
  rewrite <- (assoc_L (++)), json_number_decimal by done. destruct neg; [|by rewrite En]. by rewrite decimal_negated, En.
Qed.

(** The first character of a text says what it is. *)
Lemma number_text_head x : json_number_ok x = true -> exists c l, number_to_string x = c :: l /\
  (is_digit c = true \/ c = minus_sign).
Proof.
  intros Hx. destruct x as [|neg|neg m e]; [done..|]. cbn [json_number_ok] in Hx. apply andb_true_iff in Hx as [Hv _].
  destruct (nonnegative_text m e Hv) as (d & Et & Hok & [Hi _] & _).
  assert (exists c l, number_to_string (Finite false m e) = c :: l /\ is_digit c = true) as (c & l & E & Hc).
  { rewrite Et. unfold decimal_text. destruct (dec_int d) as [|c l] eqn:El; [done|]. destruct Hok as [Hds _]. rewrite El in Hds.
    apply Forall_cons_iff in Hds as [Hc _]. cbn. eauto. }
  destruct neg; [|eauto]. unfold number_to_string in *. destruct (m =? 0)%Z; [eauto|].
  destruct (shortest_decimal m e). cbn [app]. eauto.
Qed.

(** ** Values *)

(** How the text of a value starts, and what can follow it. *)
Definition value_start (c : N) : bool :=
  is_digit c || bool_decide (c ∈ [34; 91; 123; 110; 116; 102; 45]%N).
Definition follows (rest : str) : Prop :=
  match rest with [] => True | c :: _ => c ∈ [44; 93; 125]%N end.

Lemma value_start_cases c : value_start c = true -> json_space c = false /\ c <> 93%N /\ c <> 125%N.
Proof.
  unfold value_start. intros H. assert (is_digit c = true \/ c ∈ [34; 91; 123; 110; 116; 102; 45]%N) as Hc.
  { apply orb_true_iff in H as [H|H]; [by left|right; by apply bool_decide_eq_true in H]. }
  destruct Hc as [Hd|Hin].
  - unfold is_digit, in_range in Hd. apply andb_true_iff in Hd as [H1%N.leb_le H2%N.leb_le].
    split; [|lia]. unfold json_space. repeat (apply orb_false_iff; split); apply N.eqb_neq; lia.
  - repeat (apply elem_of_cons in Hin as [-> |Hin]; [by vm_compute|]). by apply not_elem_of_nil in Hin.
Qed.

Lemma follows_no_extend rest : follows rest -> no_extend rest.
Proof.
  destruct rest as [|c rest]; [done|]. cbn. intros Hin.
  repeat (apply elem_of_cons in Hin as [-> |Hin]; [by vm_compute|]). by apply not_elem_of_nil in Hin.
Qed.
Lemma follows_skip rest : follows rest -> skip_json_space rest = rest.
Proof.
  destruct rest as [|c rest]; [done|]. cbn. intros Hin.
  repeat (apply elem_of_cons in Hin as [-> |Hin]; [by vm_compute|]). by apply not_elem_of_nil in Hin.
Qed.

Lemma text_start v : json_ok v -> exists c l, stringify v = c :: l /\ value_start c = true.
Proof.
  destruct v; cbn [json_ok stringify]; try done.
  - intros _. eexists _, _. split; [reflexivity|]. by vm_compute.
  - intros _. destruct b; (eexists _, _; split; [reflexivity|]; by vm_compute).
  - intros H. destruct (number_text_head x H) as (c & l & E & Hc). destruct x; [done..|]. cbn [num_is_finite].
    exists c, l. split; [done|]. unfold value_start. destruct Hc as [-> | ->]; [done|by vm_compute].
  - intros _. eexists _, _. split; [reflexivity|]. by vm_compute.
  - intros _. eexists _, _. split; [reflexivity|]. by vm_compute.
  - intros _. eexists _, _. split; [reflexivity|]. by vm_compute.
Qed.

Lemma skip_start s c l : s = c :: l -> value_start c = true -> skip_json_space s = s.
Proof. intros -> H. destruct (value_start_cases c H) as [Hs _]. unfold skip_json_space. cbn. by rewrite Hs. Qed.

Lemma digit_cases c : is_digit c = true -> c ∈ [48; 49; 50; 51; 52; 53; 54; 55; 56; 57]%N.
Proof.
  unfold is_digit, in_range. intros [H1%N.leb_le H2%N.leb_le]%andb_true_iff.
  rewrite !elem_of_cons. lia.
Qed.

(** The reading of a value, behind the white space. *)
Lemma json_value_number fuel x rest : json_number_ok x = true -> no_extend rest ->
  json_value (S fuel) (number_to_string x ++ rest) = Some (VNumber x, rest).
Proof.
  intros Hx Hr. pose proof (json_number_text x rest Hx Hr) as Hn. destruct (number_text_head x Hx) as (c & l & E & Hc).
  rewrite E in Hn |- *. cbn [app] in Hn |- *. assert (c ∈ [45; 48; 49; 50; 51; 52; 53; 54; 55; 56; 57]%N) as Hin.
  { destruct Hc as [Hc%digit_cases| ->]; [by right|by left]. }
  assert (json_value (S fuel) (c :: l ++ rest) = ('(x, r) ← json_number (c :: l ++ rest); Some (VNumber x, r))) as ->;
    [|by rewrite Hn]. clear -Hin.
  repeat (apply elem_of_cons in Hin as [-> |Hin]; [reflexivity|]). by apply not_elem_of_nil in Hin.
Qed.

(** The text of an array or an object is read back where its items are. *)
Definition reads_back (v : value) : Prop := forall fuel rest,
  length (stringify v) < fuel -> follows rest -> json_value fuel (stringify v ++ rest) = Some (v, rest).

Lemma join_cons sep s t l : join sep (s :: t :: l) = s ++ sep ++ join sep (t :: l).
Proof. done. Qed.

Lemma json_items_text items : forall fuel rest, items <> [] -> Forall reads_back items -> Forall json_ok items ->
  length (join (u ",") (map stringify items)) + 1 < fuel ->
  json_items fuel (join (u ",") (map stringify items) ++ u "]" ++ rest) = Some (items, rest).
Proof.
  induction items as [|v items IH]; intros fuel rest Hne Hr Hok Hf; [done|].
  destruct fuel as [|fuel]; [lia|]. apply Forall_cons_iff in Hr as [Hv Hr]. apply Forall_cons_iff in Hok as [Hv' Hok].
  cbn [map] in *. destruct items as [|w items].
  - cbn [join map json_items] in *. rewrite Hv; [done|lia|by right; left].
  - cbn [map] in *. rewrite join_cons in Hf |- *. rewrite !length_app in Hf. change (length (u ",")) with 1 in Hf.
    destruct (text_start v Hv') as (c & l & E & _). assert (0 < length (stringify v)) by (rewrite E; cbn; lia).
    cbn [json_items]. rewrite <- !app_assoc, Hv; [|lia|by left]. change (u "," ++ ?r) with (44%N :: r).
    cbv iota beta. cbn [mbind option_bind]. change (skip_json_space (44%N :: ?r)) with (44%N :: r). cbv iota beta.
    rewrite IH; [done|done|done|done|lia].
Qed.

Lemma json_fields_text fields : forall fuel rest before, fields <> [] -> Forall reads_back fields.*2 ->
  Forall field_ok fields -> NoDup (before ++ fields).*1 ->
  length (join (u ",") (map field_text fields)) + 1 < fuel ->
  json_fields fuel (join (u ",") (map field_text fields) ++ u "}" ++ rest) before = Some (before ++ fields, rest).
Proof.
  induction fields as [|[k v] fields IH]; intros fuel rest before Hne Hr Hok Hnd Hf; [done|].
  destruct fuel as [|fuel]; [lia|]. apply Forall_cons_iff in Hr as [Hv Hr]. apply Forall_cons_iff in Hok as [[Hk Hv'] Hok].
  assert (k ∉ before.*1) as Hfresh.
  { rewrite fmap_app in Hnd. apply list.NoDup_app in Hnd as (_ & Hd & _). intros Hin. apply (Hd k Hin). by left. }
  cbn [fst snd] in *. assert (forall r, field_text (k, v) ++ r = 34%N :: json_body k ++ quote_char :: 58%N :: stringify v ++ r) as Et.
  { intros r. unfold field_text, json_string, quoted. cbn [fst snd app]. by rewrite <- !app_assoc. }
  assert (length (stringify v) + 3 <= length (field_text (k, v))) as Hl.
  { pose proof (f_equal (@length N) (Et [])) as El. rewrite !app_nil_r in El. rewrite El. cbn. rewrite length_app. cbn. lia. }
  assert (forall r, follows r -> json_fields (S fuel) (field_text (k, v) ++ r) before =
    match r with
    | 44%N :: r => json_fields fuel r (before ++ [(k, v)])
    | 125%N :: r => Some (before ++ [(k, v)], r)
    | _ => None end) as Estep.
  { intros r Hr'. rewrite Et. cbn [json_fields]. change (skip_json_space (34%N :: ?t)) with (34%N :: t). cbv iota beta.
    rewrite json_chars_body by done. cbn [mbind option_bind]. change (skip_json_space (58%N :: ?t)) with (58%N :: t). cbv iota beta.
    rewrite Hv; [|destruct fields; cbn [map join] in Hf; [|rewrite length_app in Hf]; lia|done]. cbn [mbind option_bind].
    rewrite follows_skip, assoc_set_fst_fresh by done. done. }
  cbn [map] in *. destruct fields as [|w fields].
  - cbn [join]. by rewrite Estep by (by right; right; left).
  - cbn [map] in *. rewrite join_cons in Hf |- *. rewrite !length_app in Hf. change (length (u ",")) with 1 in Hf.
    rewrite <- !app_assoc, Estep by by left. change (u "," ++ ?r) with (44%N :: r). cbv iota beta.
    rewrite IH; [by rewrite <- app_assoc|done|done|done|by rewrite <- app_assoc|lia].
Qed.

Lemma json_value_text v : json_ok v -> reads_back v.
Proof.
  induction v as [v IH] using value_children_ind. intros Hok [|fuel] rest Hf Hr; [lia|].
  destruct v as [| |b|x|s|items|fields]; cbn [value_children] in IH.
  - done.
  - done.
  - by destruct b.
  - cbn [json_ok] in Hok. cbn [stringify]. destruct x; [done..|]. cbn [num_is_finite].
    by apply json_value_number; [|apply follows_no_extend].
  - pose proof (json_chars_body s rest Hok) as E. cbn [stringify]. unfold json_string, quoted. cbn [app json_value].
    rewrite <- app_assoc. change (skip_json_space (quote_char :: ?t)) with (34%N :: t). cbv iota beta.
    change ([quote_char] ++ rest) with (quote_char :: rest). by rewrite E.
  - apply json_ok_items in Hok. rewrite array_text in Hf |- *. destruct items as [|v items]; [done|].
    assert (Forall reads_back (v :: items)) as Hrb.
    { rewrite List.Forall_forall in *. eauto. }
    pose proof (json_items_text (v :: items) fuel rest ltac:(done) Hrb Hok) as E.
    apply Forall_cons_iff in Hok as [Hv _]. destruct (text_start v Hv) as (c & l & Ev & Hc).
    destruct (value_start_cases c Hc) as (Hs & Hne & _).
    rewrite !length_app in Hf. change (length (u "[")) with 1 in Hf. change (length (u "]")) with 1 in Hf.
    specialize (E ltac:(lia)). rewrite <- !app_assoc.
    assert (exists t, join (u ",") (map stringify (v :: items)) ++ u "]" ++ rest = c :: t) as [t Et].
    { cbn [map]. rewrite Ev. destruct items; cbn; eauto. }
    rewrite Et in E |- *. change (u "[" ++ c :: t) with (91%N :: c :: t). cbn [json_value].
    change (skip_json_space (91%N :: ?t)) with (91%N :: t). cbv iota beta.
    rewrite (skip_start _ c t eq_refl Hc), E. by repeat (case_match; try done).
  - apply json_ok_fields in Hok as [Hnd Hok]. rewrite object_text in Hf |- * by done. destruct fields as [|f fields]; [done|].
    assert (Forall reads_back (f :: fields).*2) as Hrb.
    { rewrite List.Forall_forall in *. intros w Hw. apply IH; [done|]. apply in_map_iff in Hw as (g & <- & Hg). by apply Hok. }
    pose proof (json_fields_text (f :: fields) fuel rest [] ltac:(done) Hrb Hok Hnd) as E.
    rewrite !length_app in Hf. change (length (u "{")) with 1 in Hf. change (length (u "}")) with 1 in Hf.
    specialize (E ltac:(lia)). rewrite <- !app_assoc.
    assert (exists t, join (u ",") (map field_text (f :: fields)) ++ u "}" ++ rest = 34%N :: t) as [t Et].
    { cbn [map]. unfold field_text at 1, json_string, quoted. destruct fields; cbn; eauto. }
    rewrite Et in E |- *. change (u "{" ++ 34%N :: t) with (123%N :: 34%N :: t). cbn [json_value].
    change (skip_json_space (123%N :: ?t)) with (123%N :: t). cbv iota beta.
    change (skip_json_space (34%N :: ?t)) with (34%N :: t). cbv iota beta. by rewrite E.
Qed.

(** What [JSON.stringify] writes, [JSON.parse] reads. *)
Theorem json_parse_text v : json_ok v -> json_parse (stringify v) = Some v.
Proof.
  intros Hok. unfold json_parse. pose proof (json_value_text v Hok (2 * length (stringify v) + 2) [] ltac:(lia) I) as E.
  rewrite app_nil_r in E. by rewrite E.
Qed.

(** ** The indented text

    [JSON.stringify] with an indent of two, read back in the same way. *)


(** A line break and [n] spaces. *)
Definition newline (n : nat) : str := 10%N :: repeat 32%N n.

(** The texts of items or fields between brackets, each on a line of its own. *)
Definition bracketed (left right : str) (indent : nat) (texts : list str) : str :=
  match texts with
  | [] => left ++ right
  | _ => left ++ newline (indent + 2) ++ join (u "," ++ newline (indent + 2)) texts ++ newline indent ++ right
  end.

(** [JSON.stringify(v, null, 2)], within [indent] spaces. *)
Fixpoint stringify_indented (indent : nat) (v : value) : str :=
  match v with
  | VArray items =>
      bracketed (u "[") (u "]") indent
        ((fix go (l : list value) : list str :=
            match l with [] => [] | v :: l => stringify_indented (indent + 2) v :: go l end) items)
  | VObject fields =>
      bracketed (u "{") (u "}") indent
        ((fix go (l : list (str * value)) : list str :=
            match l with
            | [] => []
            | (_, VUndefined) :: l => go l
            | (k, v) :: l => (json_string k ++ u ": " ++ stringify_indented (indent + 2) v) :: go l
            end) fields)
  | _ => stringify v
  end.

Definition indented_field (indent : nat) (p : str * value) : str :=
  json_string p.1 ++ u ": " ++ stringify_indented (indent + 2) p.2.

Lemma indented_array indent items :
  stringify_indented indent (VArray items) = bracketed (u "[") (u "]") indent (map (stringify_indented (indent + 2)) items).
Proof. done. Qed.
Lemma indented_object indent fields : Forall field_ok fields ->
  stringify_indented indent (VObject fields) = bracketed (u "{") (u "}") indent (map (indented_field indent) fields).
Proof.
  intros H. cbn [stringify_indented]. f_equal. induction H as [|[k v] l [_ Hv] _ IH]; [done|].
  cbn [map]. rewrite <- IH. cbn [snd] in Hv. by destruct v.
Qed.

(** ** White space *)

Definition blank (s : str) : Prop := Forall (fun c => json_space c = true) s.
Lemma newline_blank n : blank (newline n).
Proof. constructor; [done|]. induction n; constructor; done. Qed.

Lemma skip_blank s t : blank s -> skip_json_space (s ++ t) = skip_json_space t.
Proof. unfold skip_json_space. induction 1 as [|c s Hc _ IH]; [done|]. cbn [app drop_while]. by rewrite Hc. Qed.
Lemma json_value_blank fuel s t : blank s -> json_value fuel (s ++ t) = json_value fuel t.
Proof. intros Hs. destruct fuel; [done|]. cbn [json_value]. by rewrite skip_blank. Qed.
Lemma json_items_blank fuel s t : blank s -> json_items fuel (s ++ t) = json_items fuel t.
Proof. intros Hs. destruct fuel; [done|]. cbn [json_items]. by rewrite json_value_blank. Qed.
Lemma json_fields_blank fuel s t fields : blank s -> json_fields fuel (s ++ t) fields = json_fields fuel t fields.
Proof. intros Hs. destruct fuel; [done|]. cbn [json_fields]. by rewrite skip_blank. Qed.

(** What can follow the text of a value. *)
Definition ends (rest : str) : Prop := match rest with [] => True | c :: _ => c ∈ [10; 44; 93; 125]%N end.
Lemma ends_no_extend rest : ends rest -> no_extend rest.
Proof.
  destruct rest as [|c rest]; [done|]. cbn. intros Hin.
  repeat (apply elem_of_cons in Hin as [-> |Hin]; [by vm_compute|]). by apply not_elem_of_nil in Hin.
Qed.

(** ** Reading back *)

Definition indented_back (v : value) : Prop := forall indent fuel rest,
  length (stringify_indented indent v) < fuel -> ends rest ->
  json_value fuel (stringify_indented indent v ++ rest) = Some (v, rest).

Lemma indented_items items : forall indent fuel rest, items <> [] -> Forall indented_back items ->
  length (join (u "," ++ newline (indent + 2)) (map (stringify_indented (indent + 2)) items)) + 1 < fuel ->
  json_items fuel (join (u "," ++ newline (indent + 2)) (map (stringify_indented (indent + 2)) items) ++ newline indent ++ u "]" ++ rest)
    = Some (items, rest).
Proof.
  induction items as [|v items IH]; intros indent fuel rest Hne Hr Hf; [done|].
  destruct fuel as [|fuel]; [lia|]. apply Forall_cons_iff in Hr as [Hv Hr]. cbn [map] in *. destruct items as [|w items].
  - cbn [join map json_items] in *. rewrite Hv by (lia || by left). cbn [mbind option_bind].
    rewrite skip_blank by apply newline_blank. done.
  - cbn [map] in *. rewrite join_cons in Hf |- *. rewrite !length_app in Hf. change (length (u ",")) with 1 in Hf.
    cbn [json_items]. rewrite <- !app_assoc. rewrite Hv by (lia || by right; left). cbn [mbind option_bind].
    change (u "," ++ ?r) with (44%N :: r). change (skip_json_space (44%N :: ?r)) with (44%N :: r). cbv iota beta.
    rewrite json_items_blank by apply newline_blank. rewrite IH; [done|done|done|]. lia.
Qed.

Lemma indented_fields fields : forall indent fuel rest before, fields <> [] -> Forall indented_back fields.*2 ->
  Forall field_ok fields -> NoDup (before ++ fields).*1 ->
  length (join (u "," ++ newline (indent + 2)) (map (indented_field indent) fields)) + 1 < fuel ->
  json_fields fuel (join (u "," ++ newline (indent + 2)) (map (indented_field indent) fields) ++ newline indent ++ u "}" ++ rest) before
    = Some (before ++ fields, rest).
Proof.
  induction fields as [|[k v] fields IH]; intros indent fuel rest before Hne Hr Hok Hnd Hf; [done|].
  destruct fuel as [|fuel]; [lia|]. apply Forall_cons_iff in Hr as [Hv Hr]. apply Forall_cons_iff in Hok as [[Hk Hv'] Hok].
  assert (k ∉ before.*1) as Hfresh.
  { rewrite fmap_app in Hnd. apply list.NoDup_app in Hnd as (_ & Hd & _). intros Hin. apply (Hd k Hin). by left. }
  cbn [fst snd] in *. set (t := stringify_indented (indent + 2) v).
  assert (forall r, indented_field indent (k, v) ++ r = 34%N :: json_body k ++ quote_char :: 58%N :: [32%N] ++ t ++ r) as Et.
  { intros r. unfold indented_field, json_string, quoted. cbn [fst snd app]. by rewrite <- !app_assoc. }
  assert (length t + 4 <= length (indented_field indent (k, v))) as Hl.
  { pose proof (f_equal (@length N) (Et [])) as El. rewrite !app_nil_r in El. rewrite El. cbn. rewrite length_app. cbn. lia. }
  assert (forall r, ends r -> json_fields (S fuel) (indented_field indent (k, v) ++ r) before =
    match skip_json_space r with
    | 44%N :: r => json_fields fuel r (before ++ [(k, v)])
    | 125%N :: r => Some (before ++ [(k, v)], r)
    | _ => None end) as Estep.
  { intros r Hr'. rewrite Et. cbn [json_fields]. change (skip_json_space (34%N :: ?t)) with (34%N :: t). cbv iota beta.
    rewrite json_chars_body by done. cbn [mbind option_bind]. change (skip_json_space (58%N :: ?t)) with (58%N :: t). cbv iota beta.
    rewrite json_value_blank by (by repeat constructor). unfold t.
    rewrite Hv; [|fold t; destruct fields; cbn [map join] in Hf; [|rewrite length_app in Hf]; lia|done]. cbn [mbind option_bind].
    rewrite assoc_set_fst_fresh by done. done. }
  cbn [map] in *. destruct fields as [|w fields].
  - cbn [join]. rewrite Estep by (by left). rewrite skip_blank by apply newline_blank. done.
  - cbn [map] in *. rewrite join_cons in Hf |- *. rewrite !length_app in Hf. change (length (u ",")) with 1 in Hf.
    rewrite <- !app_assoc, Estep by (by right; left). change (u "," ++ ?r) with (44%N :: r).
    change (skip_json_space (44%N :: ?r)) with (44%N :: r). cbv iota beta.
    rewrite json_fields_blank by apply newline_blank. rewrite IH; [by rewrite <- app_assoc|done|done|done|by rewrite <- app_assoc|lia].
Qed.

Lemma indented_start v indent : json_ok v -> exists c l, stringify_indented indent v = c :: l /\ value_start c = true.
Proof.
  intros Hv. destruct v as [| |b|x|s|items|fields]; try (by apply (text_start _ Hv)).
  - rewrite indented_array. unfold bracketed. destruct (map _ items); (eexists _, _; split; [reflexivity|]; by vm_compute).
  - apply json_ok_fields in Hv as [_ Hv]. rewrite indented_object by done. unfold bracketed.
    destruct (map _ fields); (eexists _, _; split; [reflexivity|]; by vm_compute).
Qed.

Lemma json_value_indented v : json_ok v -> indented_back v.
Proof.
  induction v as [v IH] using value_children_ind. intros Hok indent [|fuel] rest Hf Hr; [lia|].
  destruct v as [| |b|x|s|items|fields]; cbn [value_children] in IH.
  - done.
  - done.
  - by destruct b.
  - cbn [json_ok] in Hok. cbn [stringify_indented stringify]. destruct x; [done..|]. cbn [num_is_finite].
    by apply json_value_number; [|apply ends_no_extend].
  - pose proof (json_chars_body s rest Hok) as E. cbn [stringify_indented stringify]. unfold json_string, quoted. cbn [app json_value].
    rewrite <- app_assoc. change (skip_json_space (quote_char :: ?t)) with (34%N :: t). cbv iota beta.
    change ([quote_char] ++ rest) with (quote_char :: rest). by rewrite E.
  - apply json_ok_items in Hok. rewrite indented_array in Hf |- *. destruct items as [|v items]; [done|].
    assert (Forall indented_back (v :: items)) as Hrb by (rewrite List.Forall_forall in *; eauto).
    pose proof (indented_items (v :: items) indent fuel rest ltac:(done) Hrb) as E.
    apply Forall_cons_iff in Hok as [Hv _]. destruct (indented_start v (indent + 2) Hv) as (c & l & Ev & Hc).
    destruct (value_start_cases c Hc) as (Hs & Hne & _).
    cbn [bracketed map] in Hf |- *. rewrite !length_app in Hf. change (length (u "[")) with 1 in Hf. change (length (u "]")) with 1 in Hf.
    cbn [map] in E. specialize (E ltac:(lia)). rewrite <- !app_assoc.
    assert (exists t, join (u "," ++ newline (indent + 2)) (stringify_indented (indent + 2) v :: map (stringify_indented (indent + 2)) items)
      ++ newline indent ++ u "]" ++ rest = c :: t) as [t Et] by (rewrite Ev; destruct items; cbn; eauto).
    rewrite Et in E |- *. change (u "[" ++ ?r) with (91%N :: r). cbn [json_value].
    change (skip_json_space (91%N :: ?t)) with (91%N :: t). cbv iota beta.
    rewrite skip_blank, (skip_start _ c t eq_refl Hc), json_items_blank, E by apply newline_blank. by repeat (case_match; try done).
  - apply json_ok_fields in Hok as [Hnd Hok]. rewrite indented_object in Hf |- * by done. destruct fields as [|f fields]; [done|].
    assert (Forall indented_back (f :: fields).*2) as Hrb.
    { rewrite List.Forall_forall in *. intros w Hw. apply IH; [done|]. apply in_map_iff in Hw as (g & <- & Hg). by apply Hok. }
    pose proof (indented_fields (f :: fields) indent fuel rest [] ltac:(done) Hrb Hok Hnd) as E.
    cbn [bracketed map] in Hf |- *. rewrite !length_app in Hf. change (length (u "{")) with 1 in Hf. change (length (u "}")) with 1 in Hf.
    cbn [map] in E. specialize (E ltac:(lia)). rewrite <- !app_assoc.
    assert (exists t, join (u "," ++ newline (indent + 2)) (indented_field indent f :: map (indented_field indent) fields)
      ++ newline indent ++ u "}" ++ rest = 34%N :: t) as [t Et]
      by (unfold indented_field at 1, json_string, quoted; destruct fields; cbn; eauto).
    rewrite Et in E |- *. change (u "{" ++ ?r) with (123%N :: r). cbn [json_value].
    change (skip_json_space (123%N :: ?t)) with (123%N :: t). cbv iota beta.
    rewrite skip_blank, json_fields_blank by apply newline_blank.
    change (skip_json_space (34%N :: ?t)) with (34%N :: t). cbv iota beta. by rewrite E.
Qed.

(** What [JSON.stringify] writes with an indent, [JSON.parse] reads. *)
Theorem json_parse_indented v : json_ok v -> json_parse (stringify_indented 0 v) = Some v.
Proof.
  intros Hok. unfold json_parse.
  pose proof (json_value_indented v Hok 0 (2 * length (stringify_indented 0 v) + 2) [] ltac:(lia) I) as E.
  rewrite app_nil_r in E. by rewrite E.
Qed.
