(* ===== verification/Spelling.v ===== *)
(** * Printed texts and the trees they parse to

    The editors print expressions as text.  Here a printed text is a list of
    words, each with the space the printer puts before it: the lexer reads the
    words back, and a tree that follows from the words by the grammar is what
    the parser returns.  Trees are compared by shape, without their positions. *)

From Stdlib Require Import String.
From S2P Require Import Prelude JsNumber JsString JsText Ast Parser Grammar Compile Request.
From S2P Require Import Structure Display Json JsonFacts.
#[local] Open Scope nat_scope.

(** Decidable facts on concrete data. *)
Ltac decided := apply (bool_decide_unpack _); vm_compute; exact I.

#[export] Instance code_unit_dec c : Decision (code_unit c).
Proof. unfold code_unit. apply _. Defined.

(** ** Shapes *)

(** A tree without positions and without the integer flag of literals. *)
Fixpoint shape (n : ExpressionNode) : ExpressionNode :=
  match n with
  | Literal v _ _ _ => Literal v false 0 0
  | Variable_ v _ _ => Variable_ v 0 0
  | Call f args _ _ => Call f (map shape args) 0 0
  | Unary o a _ _ => Unary o (shape a) 0 0
  | Binary o a b _ _ => Binary o (shape a) (shape b) 0 0
  | Conditional c y m _ _ => Conditional (shape c) (shape y) (shape m) 0 0
  end.

Lemma node_height_shape n : node_height (shape n) = node_height n.
Proof.
  induction n as [n IH] using node_children_ind.
  destruct n as [| |f args s e|o a s e|o a b s e|c y m s e]; cbn in *;
    rewrite ?Forall_cons_iff in IH; try by (destruct_and?; congruence).
  induction IH as [|a args Ha _ IHl]; [done|]. cbn. by rewrite Ha, IHl.
Qed.

(** ** Words *)

Record word : Type := Word {
  w_space : bool;
  w_text : str;
  w_kind : LexemeKind;
}.

Definition spell (w : word) : str := (if w_space w then [32%N] else []) ++ w_text w.
Definition spell_all (ws : list word) : str := concat (map spell ws).

Lemma spell_all_app a b : spell_all (a ++ b) = spell_all a ++ spell_all b.
Proof. unfold spell_all. by rewrite map_app, concat_app. Qed.

Definition kind_shape (k : LexemeKind) : LexemeKind :=
  match k with K_number v _ => K_number v false | k => k end.

(** [l] is a lexeme of the word [w]. *)
Definition spells (w : word) (l : Lexeme) : Prop :=
  l_text l = w_text w /\ kind_shape (l_kind l) = w_kind w.

(** Characters no name and no number goes on with. *)
Definition delimiter (c : N) : bool :=
  N.eqb c 32 || N.eqb c 40 || N.eqb c 41 || N.eqb c 44.
Definition delimited (s : str) : Prop :=
  match s with [] => True | c :: _ => delimiter c = true end.

(** What may stand behind a word. *)
Definition may_follow (w : word) (post : str) : Prop := w_text w = u "(" \/ delimited post.

Definition visible (text : str) : Prop := exists c t, text = c :: t /\ is_space c = false.

(** Wherever it stands, the lexer reads the word. *)
Definition word_ok (w : word) : Prop :=
  visible (w_text w) /\
  forall pre post, may_follow w post -> exists l,
    lexeme_at (pre ++ w_text w ++ post) (length pre) = Ok l /\ spells w l /\
    l_end l = length pre + length (w_text w).

Fixpoint spaced (ws : list word) : Prop :=
  match ws with
  | [] => True
  | w :: ws => word_ok w /\ may_follow w (spell_all ws) /\ spaced ws
  end.

Lemma delimited_app s t : delimited s -> s <> [] -> delimited (s ++ t).
Proof. by destruct s. Qed.

Lemma spell_nonempty w : word_ok w -> spell w <> [].
Proof. intros [(c & t & E & _) _]. unfold spell. rewrite E. by destruct (w_space w). Qed.

Lemma spaced_app a b : spaced a -> spaced b -> delimited (spell_all b) -> spaced (a ++ b).
Proof.
  intros Ha Hb Hd. induction a as [|w a IH]; [done|]. destruct Ha as (Hw & Hf & Ha).
  cbn [app spaced]. split; [done|]. split; [|auto].
  destruct Hf as [Hf|Hf]; [by left|right]. rewrite spell_all_app.
  destruct a as [|w' a]; [done|]. apply delimited_app; [done|].
  destruct Ha as (Hw' & _). apply spell_nonempty in Hw'. unfold spell_all. cbn.
  by destruct (spell w').
Qed.

Lemma spaced_length ws : spaced ws -> length ws <= length (spell_all ws).
Proof.
  induction ws as [|w ws IH]; [done|]. intros (Hw & _ & H%IH). apply spell_nonempty in Hw.
  unfold spell_all in *. cbn. rewrite length_app. destruct (spell w); [done|]. cbn. lia.
Qed.

(** ** The lexer reads the words back *)

Lemma skip_space_stays pre text post :
  visible text -> skip_space (pre ++ text ++ post) (length pre) = length pre.
Proof.
  intros (c & t & -> & Hc). unfold skip_space. rewrite drop_app_length. cbn. rewrite Hc. cbn. lia.
Qed.

Lemma skip_space_one pre text post :
  visible text -> skip_space (pre ++ 32%N :: text ++ post) (length pre) = S (length pre).
Proof.
  intros (c & t & -> & Hc). unfold skip_space. rewrite drop_app_length. cbn. rewrite Hc. cbn. lia.
Qed.

Lemma word_scanned w pre post :
  word_ok w -> may_follow w post -> exists l,
    lexeme_at (pre ++ spell w ++ post) (skip_space (pre ++ spell w ++ post) (length pre)) = Ok l /\
    spells w l /\ l_end l = length (pre ++ spell w).
Proof.
  intros [Hv Hl] Hf. unfold spell. rewrite length_app. destruct (w_space w); cbn [app].
  - rewrite skip_space_one by done. destruct (Hl (pre ++ [32%N]) post Hf) as (l & E & Hs & He).
    rewrite length_app in E, He. rewrite <- app_assoc in E. cbn [app length] in *.
    rewrite Nat.add_1_r in E, He. exists l. split; [exact E|]. split; [done|]. lia.
  - rewrite skip_space_stays by done. by apply Hl.
Qed.

(** The lexemes from the position [pos] to the end of the text. *)
Inductive scans (source : str) : nat -> list Lexeme -> Prop :=
| scans_end pos : pos = length source -> scans source pos []
| scans_cons pos l ls :
    lexeme_at source (skip_space source pos) = Ok l -> scans source (l_end l) ls ->
    scans source pos (l :: ls).

Lemma words_scanned ws : forall pre, spaced ws ->
  exists ls, scans (pre ++ spell_all ws) (length pre) ls /\ Forall2 spells ws ls.
Proof.
  induction ws as [|w ws IH]; intros pre Hs.
  { exists []. split; [|done]. constructor. unfold spell_all. cbn. by rewrite app_nil_r. }
  destruct Hs as (Hw & Hf & Hs). destruct (word_scanned w pre _ Hw Hf) as (l & E & Hl & He).
  destruct (IH (pre ++ spell w) Hs) as (ls & Hsc & Hls). rewrite <- app_assoc in Hsc.
  exists (l :: ls). split; [|by constructor]. econstructor; [exact E|]. by rewrite He.
Qed.

Lemma lexeme_at_end source : exists l,
  lexeme_at source (skip_space source (length source)) = Ok l /\ l_kind l = K_end.
Proof.
  unfold skip_space, lexeme_at. rewrite drop_all. cbn [take_while length]. rewrite Nat.add_0_r.
  rewrite drop_all. by eexists.
Qed.

Lemma scans_run source l ls : scans source (l_end l) ls ->
  exists last, run_of source l (l :: ls) last /\ l_kind last = K_end.
Proof.
  revert l. induction ls as [|l' ls IH]; intros l; inversion 1; subst.
  - destruct (lexeme_at_end source) as (e & E & Hk). exists e. split; [|done].
    econstructor; [|constructor]. congruence.
  - destruct (IH l') as (e & Hr & Hk); [done|]. exists e. split; [|done]. by econstructor.
Qed.

(** ** Trees of words *)

Definition writes_operand (d : nat) (ws : list word) (s : ExpressionNode) : Prop :=
  forall ls, Forall2 spells ws ls -> exists n, operand d ls n /\ shape n = s.
Definition writes_chain (d : nat) (p : Z) (ws : list word) (s : ExpressionNode) : Prop :=
  forall ls, Forall2 spells ws ls -> exists n, chain d p ls n /\ shape n = s.
Definition writes (d : nat) (p : Z) (ws : list word) (s : ExpressionNode) : Prop :=
  forall ls, Forall2 spells ws ls -> exists n, derives d p ls n /\ shape n = s.

(** A text of words parses to their tree.  A text that begins with a version is
    not one of them. *)
Lemma parse_words ws s :
  spaced ws -> ws <> [] -> (Z.of_nat (length (spell_all ws)) < 10000)%Z ->
  match_version (spell_all ws) = None -> writes 128 0 ws s ->
  exists n, parse (spell_all ws) = Ok n /\ shape n = s.
Proof.
  intros Hs Hne Hlen Hv Hw. destruct (words_scanned ws [] Hs) as (ls & Hsc & Hls).
  cbn [app length] in Hsc. destruct (Hw ls Hls) as (n & Hn & Hsh). exists n. split; [|done].
  apply parse_complete. split; [lia|]. pose proof (Forall2_length Hls) as El.
  pose proof (spaced_length ws Hs) as Hle.
  inversion Hsc as [? Hz|? l ls' E Hsc']; subst.
  { destruct ws; [done|]. inversion Hls. }
  destruct (scans_run _ _ _ Hsc') as (e & Hr & Hk).
  exists 0, l, (l :: ls'), e. split; [by unfold start_of; rewrite Hv|].
  split_and!; [exact E|exact Hr|exact Hk| |exact Hn]. rewrite <- El. lia.
Qed.

(** ** The words of the printers *)

Definition symbol (o : str) : word := Word false o K_symbol.
Definition name (t : str) : word := Word false t K_name.
Definition number_word (x : number) : word := Word false (number_to_string x) (K_number x false).
Definition string_word (s : str) : word := Word false (json_string s) (K_string s).

(** The same words behind a space. *)
Definition lead (ws : list word) : list word :=
  match ws with [] => [] | w :: ws => Word true (w_text w) (w_kind w) :: ws end.

Definition SYMBOLS : list str :=
  [u "("; u ")"; u ","; u "+"; u "*"; u "/"; u "?"; u ":"; u "&&"; u "=="; u "<"; u "<="; u ">"; u ">="].

Lemma symbol_ok o : o ∈ SYMBOLS -> word_ok (symbol o).
Proof.
  intros Ho. split.
  - unfold SYMBOLS in Ho. repeat (apply elem_of_cons in Ho as [->|Ho]; [by do 2 eexists|]).
    by apply elem_of_nil in Ho.
  - intros pre post Hf. unfold lexeme_at. cbn [symbol w_text] in *. rewrite drop_app_length.
    exists {| l_text := o; l_start := length pre; l_end := length pre + length o; l_kind := K_symbol |}.
    split; [|by split]. change (o = u "(" \/ delimited post) in Hf.
    destruct Hf as [->|Hf]; [reflexivity|].
    assert (starts_with post (u "=") = false) as He.
    { destruct post as [|c post]; [done|]. destruct (N.eq_dec 61%N c) as [<-|Hne]; [discriminate Hf|].
      change (N.eqb 61%N c && true = false). by rewrite (proj2 (N.eqb_neq _ _) Hne). }
    assert (forall o, o ∈ [u "<"; u ">"] -> scan_operator (o ++ post) = Some o) as Hop.
    { intros o'. rewrite !elem_of_cons. intros [-> |[-> |[]%elem_of_nil]];
        unfold scan_operator, OPERATORS; cbn [find];
        [change (starts_with (u "<" ++ post) (u "<=")) with (starts_with post (u "="))
        |change (starts_with (u ">" ++ post) (u ">=")) with (starts_with post (u "="))];
        rewrite He; reflexivity. }
    unfold SYMBOLS in Ho. repeat (apply elem_of_cons in Ho as [->|Ho]; [try reflexivity|]).
    all: try by apply elem_of_nil in Ho.
    + pose proof (Hop (u "<") ltac:(by left)) as E. cbn in E |- *. by rewrite E.
    + pose proof (Hop (u ">") ltac:(by right; left)) as E. cbn in E |- *. by rewrite E.
Qed.

Definition is_name (t : str) : bool :=
  match t with c :: r => is_name_start c && forallb is_word r | [] => false end.

Lemma delimiter_cases c : delimiter c = true -> c ∈ [32; 40; 41; 44]%N.
Proof.
  unfold delimiter. rewrite !orb_true_iff, !N.eqb_eq, !elem_of_cons, elem_of_nil. tauto.
Qed.

Lemma delimited_head (P : N -> Prop) post :
  P 32%N -> P 40%N -> P 41%N -> P 44%N -> delimited post ->
  match post with [] => True | c :: _ => P c end.
Proof.
  intros H1 H2 H3 H4. destruct post as [|c post]; [done|]. intros Hc%delimiter_cases.
  repeat (apply elem_of_cons in Hc as [->|Hc]; [done|]). by apply elem_of_nil in Hc.
Qed.

Lemma name_start_cases c : is_name_start c = true ->
  is_space c = false /\ is_digit c = false /\ N.eqb c dot = false /\
  N.eqb c quote_char || N.eqb c apostrophe = false.
Proof.
  unfold is_name_start, is_upper, is_lower, is_space, is_digit, in_range, dot, quote_char, apostrophe.
  rewrite !orb_true_iff, !andb_true_iff, !N.eqb_eq, !N.leb_le. intros H.
  split_and!; repeat (apply orb_false_iff; split); try apply andb_false_iff;
    rewrite ?N.eqb_neq, ?N.leb_gt; lia.
Qed.

Lemma scan_decimal_none c t : is_digit c = false -> N.eqb c dot = false -> scan_decimal (c :: t) = None.
Proof.
  intros Hd Hdot. unfold scan_decimal, scan_mantissa. cbn [take_while drop_while]. rewrite Hd.
  by rewrite Hdot.
Qed.

Lemma name_ok t : is_name t = true -> word_ok (name t).
Proof.
  destruct t as [|c t]; [done|]. cbn [is_name]. rewrite andb_true_iff. intros [Hc Ht].
  destruct (name_start_cases c Hc) as (Hs & Hd & Hdot & Hq). split; [by exists c, t|].
  intros pre post Hf. cbn [name w_text]. destruct Hf as [Hf|Hf]; [by injection Hf as -> ->|].
  assert (take_while is_word ((c :: t) ++ post) = c :: t) as Etw.
  { destruct (take_while_app is_word (c :: t) post) as [-> _].
    - constructor; [unfold is_word; by rewrite Hc|]. by apply List.Forall_forall, forallb_forall.
    - pose proof (delimited_head (fun c => is_word c = false) post eq_refl eq_refl eq_refl eq_refl Hf).
      destruct post as [|d post]; cbn [take_while]; [by rewrite app_nil_r|]. cbn in H. rewrite H.
      by rewrite app_nil_r. }
  exists {| l_text := c :: t; l_start := length pre; l_end := length pre + length (c :: t);
            l_kind := K_name |}.
  split; [|by split]. unfold lexeme_at. rewrite drop_app_length. rewrite Etw. cbn [app].
  rewrite scan_decimal_none, Hq, Hc by done. reflexivity.
Qed.

Lemma string_ok s : Forall code_unit s -> word_ok (string_word s).
Proof.
  intros Hs. split; [by do 2 eexists|]. intros pre post _. eexists.
  split; [by apply lexeme_at_string|]. done.
Qed.

(** A price the engine reads back from its own spelling: not negative, and
    exact where it is spelled as an integer. *)
Definition spelled_as_integer (x : number) : bool :=
  forallb is_digit (number_to_string x).
Definition readable_price (x : number) : bool :=
  match x with
  | Finite false _ _ => valid x && implb (spelled_as_integer x) (num_is_safe_integer x)
  | _ => false
  end.

Lemma number_ok x : readable_price x = true -> word_ok (number_word x).
Proof.
  intros Hx. destruct x as [| |[|] m e]; try discriminate Hx. cbn [readable_price] in Hx.
  apply andb_true_iff in Hx as [Hv Hi].
  destruct (number_to_string_spec m e Hv) as (d & Et & Hok & Ev).
  assert (visible (number_to_string (Finite false m e))) as Hvis.
  { rewrite Et. pose proof (decimal_text_nonempty d Hok) as Hne.
    pose proof (decimal_text_chars d Hok) as Hch.
    destruct (decimal_text d) as [|c t]; [done|]. exists c, t. split; [done|].
    apply literal_char_not_space. by apply list.Forall_cons in Hch as []. }
  split; [exact Hvis|]. intros pre post Hf. cbn [number_word w_text]. rewrite Et.
  destruct Hf as [Hf|Hf].
  { change (number_to_string (Finite false m e) = u "(") in Hf. rewrite Et in Hf. pose proof (decimal_text_chars d Hok) as Hch. rewrite Hf in Hch.
    by apply list.Forall_cons in Hch as [Hch _]. }
  assert (no_extend post) as Hno by by apply (delimited_head (fun c => _ /\ _ /\ _)).
  set (i := match dec_frac d, dec_exp d with None, None => true | _, _ => false end).
  exists {| l_text := decimal_text d; l_start := length pre; l_end := length pre + length (decimal_text d);
            l_kind := K_number (Finite false m e) i |}.
  split; [|by split; [split|]; cbn; rewrite ?Et]. unfold lexeme_at. rewrite drop_app_length.
  rewrite scan_decimal_complete by done.
  destruct (decimal_text d ++ post) as [|c t] eqn:E.
  { apply app_eq_nil in E as [E _]. by apply decimal_text_nonempty in Hok. }
  fold i. rewrite Ev. cbn [num_is_finite negb].
  destruct (i && negb (num_is_safe_integer (Finite false m e))) eqn:Ei; [|reflexivity].
  apply andb_true_iff in Ei as [Hi1 Hi2]. exfalso. unfold i in Hi1.
  destruct d as [ds [|] [|]]; try discriminate Hi1.
  assert (spelled_as_integer (Finite false m e) = true) as Hsp.
  { unfold spelled_as_integer. rewrite Et. unfold decimal_text. cbn [dec_int dec_frac dec_exp frac_text exp_text]. rewrite !app_nil_r.
    apply forallb_forall, List.Forall_forall. by destruct Hok. }
  rewrite Hsp in Hi. cbn [implb] in Hi. by rewrite Hi in Hi2.
Qed.

(** ** Grammar of words *)

Lemma writes_number d x : writes_operand d [number_word x] (Literal (LNumber x) false 0 0).
Proof.
  intros ls H. apply Forall2_cons_inv_l in H as (l & ? & [_ Hk] & Hn & ->).
  apply Forall2_nil_inv_l in Hn as ->. destruct (l_kind l) eqn:E; try discriminate Hk.
  injection Hk as ->. eexists. split; [by eapply operand_number|]. done.
Qed.

Lemma writes_string d s : writes_operand d [string_word s] (Literal (LString s) false 0 0).
Proof.
  intros ls H. apply Forall2_cons_inv_l in H as (l & ? & [_ Hk] & Hn & ->).
  apply Forall2_nil_inv_l in Hn as ->. destruct (l_kind l) eqn:E; try discriminate Hk.
  injection Hk as ->. eexists. split; [by eapply operand_string|]. done.
Qed.

Lemma name_kind l t : spells (name t) l -> l_kind l = K_name /\ l_text l = t.
Proof. intros [Ht Hk]. by destruct (l_kind l). Qed.

Lemma writes_variable d v :
  writes_operand d [name (variable_text v)] (Variable_ v 0 0).
Proof.
  intros ls H. apply Forall2_cons_inv_l in H as (l & ? & [Hk Ht]%name_kind & Hn & ->).
  apply Forall2_nil_inv_l in Hn as ->. eexists.
  split; [eapply operand_variable; [done|rewrite Ht; by destruct v]|]. done.
Qed.

Lemma writes_chain_operand d p ws s : writes_operand d ws s -> writes_chain d p ws s.
Proof. intros H ls Hls. destruct (H ls Hls) as (n & ? & ?). eauto using chain_operand. Qed.

Lemma writes_of_chain d p ws s : writes_chain d p ws s -> writes (S d) p ws s.
Proof. intros H ls Hls. destruct (H ls Hls) as (n & ? & ?). eauto using derives_chain. Qed.

Lemma writes_weaken d p q ws s : (p <= q)%Z -> writes_chain d q ws s -> writes_chain d p ws s.
Proof. intros Hp H ls Hls. destruct (H ls Hls) as (n & ? & ?). eauto using chain_weaken. Qed.

(** [Forall2] lists of words and lexemes, taken apart. *)
Ltac split_words :=
  repeat match goal with
  | H : Forall2 spells [] _ |- _ => apply Forall2_nil_inv_l in H as ->
  | H : Forall2 spells (_ :: _) _ |- _ => apply Forall2_cons_inv_l in H as (? & ? & ? & ? & ->)
  | H : Forall2 spells (_ ++ _) _ |- _ => apply Forall2_app_inv_l in H as (? & ? & ? & ? & ->)
  end.

Lemma spells_lead ws ls : Forall2 spells (lead ws) ls -> Forall2 spells ws ls.
Proof. destruct ws as [|w ws]; [done|]. inversion 1; subst. by constructor. Qed.

Lemma writes_lead d p ws s : writes d p ws s -> writes d p (lead ws) s.
Proof. intros H ls Hls%spells_lead. auto. Qed.

Definition writes_arguments (d : nat) (ws : list word) (args : list ExpressionNode) : Prop :=
  forall ls, Forall2 spells ws ls -> exists l, separated d ls l /\ map shape l = args.

Lemma writes_argument d ws a : writes d 0 ws a -> writes_arguments d ws [a].
Proof.
  intros H ls Hls. destruct (H ls Hls) as (n & Hn & <-). exists [n]. split; [|done].
  by apply separated_last.
Qed.

Lemma writes_comma d ws ws' a args :
  writes d 0 ws a -> writes_arguments d ws' args ->
  writes_arguments d (ws ++ symbol (u ",") :: ws') (a :: args).
Proof.
  intros Ha Hargs ls Hls. split_words.
  match goal with H : spells (symbol _) _ |- _ => destruct H as [Hc _] end.
  edestruct Ha as (n & Hn & <-); [eassumption|]. edestruct Hargs as (l & Hl & <-); [eassumption|].
  eexists (n :: l). split; [|done]. by apply separated_comma.
Qed.

Lemma writes_call f d ws args :
  function_of (function_text f) = Some (f, length args) -> writes_arguments d ws args ->
  writes_operand d (name (function_text f) :: symbol (u "(") :: ws ++ [symbol (u ")")])
    (Call f args 0 0).
Proof.
  intros Hf Hargs ls Hls. split_words.
  edestruct Hargs as (l & Hl & <-); [eassumption|]. rewrite length_map in Hf.
  match goal with H : spells (name _) _ |- _ => apply name_kind in H as [Hk Ht] end.
  eexists. split; [|shelve].
  eapply operand_call; [exact Hk|by rewrite Ht| | |exact Hl|done];
    match goal with H : spells (symbol ?t) ?l |- l_text ?l = ?t => by destruct H end.
  Unshelve. done.
Qed.

Lemma writes_binary d p o q op ws ws' a b :
  precedence_of (w_text op) = Some (o, q) -> (p <= q)%Z ->
  writes_chain d q ws a -> writes d (q + 1) ws' b ->
  writes_chain d p (ws ++ op :: ws') (Binary o a b 0 0).
Proof.
  intros Ho Hp Ha Hb ls Hls. split_words.
  match goal with H : spells op _ |- _ => destruct H as [Ht _] end.
  edestruct Ha as (n & Hn & <-); [eassumption|]. edestruct Hb as (m & Hm & <-); [eassumption|].
  eexists. split; [eapply chain_binary; [rewrite Ht; exact Ho|done|exact Hn|exact Hm]|]. done.
Qed.

Lemma writes_conditional d q colon w1 w2 w3 c y n :
  w_text q = u "?" -> w_text colon = u ":" ->
  writes_chain d 0 w1 c -> writes d 0 w2 y -> writes d 0 w3 n ->
  writes (S d) 0 (w1 ++ q :: w2 ++ colon :: w3) (Conditional c y n 0 0).
Proof.
  intros Hq Hc H1 H2 H3 ls Hls. split_words.
  match goal with H : spells q _ |- _ => destruct H as [Htq _] end.
  match goal with H : spells colon _ |- _ => destruct H as [Htc _] end.
  edestruct H1 as (n1 & Hn1 & <-); [eassumption|]. edestruct H2 as (n2 & Hn2 & <-); [eassumption|].
  edestruct H3 as (n3 & Hn3 & <-); [eassumption|].
  eexists. split; [eapply derives_conditional; [congruence..|exact Hn1|exact Hn2|exact Hn3]|]. done.
Qed.

(** ** Joined texts *)

(** The printers join operands with an operator between spaces. *)
Definition join_words (op : word) (l : list (list word)) : list word :=
  match l with
  | [] => []
  | ws :: l => ws ++ flat_map (fun ws => Word true (w_text op) (w_kind op) :: lead ws) l
  end.

Definition starts_plain (ws : list word) : Prop :=
  match ws with [] => False | w :: _ => w_space w = false end.

Lemma spell_lead ws : starts_plain ws -> spell_all (lead ws) = 32%N :: spell_all ws.
Proof. destruct ws as [|w ws]; [done|]. cbn. unfold spell_all. cbn. unfold spell. by intros ->. Qed.

Lemma spell_join op l :
  Forall starts_plain l ->
  spell_all (join_words op l) = join (32%N :: w_text op ++ [32%N]) (map spell_all l).
Proof.
  destruct l as [|ws l]; [done|]. intros [_ Hl]%Forall_cons_iff. cbn [join_words map].
  rewrite spell_all_app. revert ws. induction Hl as [|ws' l Hw Hl IH]; intros ws.
  - cbn. by rewrite app_nil_r.
  - cbn [flat_map]. rewrite spell_all_app.
    change (spell_all (Word true (w_text op) (w_kind op) :: lead ws'))
      with ((32%N :: w_text op) ++ spell_all (lead ws')).
    rewrite spell_lead by done. specialize (IH ws'). cbn [map join] in IH |- *. rewrite <- IH.
    cbn [app]. by rewrite <- !app_assoc.
Qed.

Lemma spaced_lead ws : spaced ws -> spaced (lead ws).
Proof. by destruct ws. Qed.

Definition binary_of (o : BinaryOperator) (a b : ExpressionNode) : ExpressionNode := Binary o a b 0 0.

(** The operators of a joined text associate to the left. *)
Lemma writes_join d p o q op ws l a bs :
  precedence_of (w_text op) = Some (o, q) -> (p <= q)%Z ->
  writes_chain d q ws a -> Forall2 (writes d (q + 1)) l bs ->
  writes_chain d p (join_words op (ws :: l)) (fold_left (binary_of o) bs a).
Proof.
  intros Ho Hp Ha Hl. apply (writes_weaken _ _ q); [done|]. cbn [join_words].
  revert ws a Ha. induction Hl as [|w b l bs Hw Hl IH]; intros ws a Ha.
  - cbn. by rewrite app_nil_r.
  - cbn [flat_map fold_left]. rewrite app_assoc. apply IH.
    eapply (writes_binary _ _ o q (Word true (w_text op) (w_kind op)));
      [done|lia|done|]. by apply writes_lead.
Qed.

(** ** Compilation of words *)

Lemma infer_shape n : infer (shape n) = infer n.
Proof.
  induction n as [n IH] using node_children_ind. rewrite !infer_children.
  assert (map_option infer (children (shape n)) = map_option infer (children n)) as ->.
  { assert (children (shape n) = map shape (children n)) as -> by by destruct n.
    induction IH as [|c l Hc _ IHl]; [done|]. cbn. by rewrite Hc, IHl. }
  destruct (map_option infer (children n)) as [ts|]; [|done]. by destruct n.
Qed.

Definition no_fixed (n : ExpressionNode) : Prop :=
  Forall (fun c => forall args s e, c <> Call Fn_fixed args s e) (postorder n).

Lemma no_fixed_children n :
  Forall no_fixed (children n) -> (forall args s e, n <> Call Fn_fixed args s e) -> no_fixed n.
Proof.
  intros Hc Hn. unfold no_fixed. rewrite postorder_children. apply Forall_app. split; [|by constructor].
  induction Hc as [|c l Hc _ IH]; [constructor|]. cbn. apply Forall_app. by split.
Qed.

Lemma postorder_shape n : postorder (shape n) = map shape (postorder n).
Proof.
  induction n as [n IH] using node_children_ind. rewrite !postorder_children, map_app. f_equal.
  assert (children (shape n) = map shape (children n)) as -> by by destruct n.
  induction IH as [|c l Hc _ IHl]; [done|]. cbn. by rewrite map_app, Hc, IHl.
Qed.

Lemma no_fixed_called n : no_fixed (shape n) -> ~ called Fn_fixed n.
Proof.
  unfold no_fixed. rewrite postorder_shape. intros Hn Hc. unfold called in Hc.
  destruct Hc as (args & s & e & Hc). apply list_elem_of_In, (in_map shape) in Hc.
  rewrite List.Forall_forall in Hn. by apply (Hn _ Hc (map shape args) 0 0).
Qed.

Lemma compile_words ws s t :
  spaced ws -> ws <> [] -> (Z.of_nat (length (spell_all ws)) < 10000)%Z ->
  match_version (spell_all ws) = None -> writes 128 0 ws s ->
  node_height s <= 256 -> infer s = Some t -> no_fixed s ->
  exists c, compile (spell_all ws) = inl c /\ shape (ce_ast c) = s.
Proof.
  intros Hs Hne Hl Hv Hw Hh Ht Hf. destruct (parse_words ws s Hs Hne Hl Hv Hw) as (n & Hp & <-).
  rewrite node_height_shape in Hh. rewrite infer_shape in Ht. apply no_fixed_called in Hf.
  destruct (expressionDependencies_spec n Hh) as (d & Hd & _).
  destruct (collect_rules (spell_all ws) n Hh) as (rules & Hr & _).
  pose proof (compile_body_spec (spell_all ws)) as Hc. unfold compile.
  destruct (compile_body (spell_all ws)) as [c|e].
  - exists c. split; [done|]. inversion Hc; subst. cbn. congruence.
  - destruct Hc as [_ Hc]. exfalso. eapply Hc. econstructor; eauto. done.
Qed.

(** ** Splitting at the factors *)

(** The loop that splits at [*] goes over [text], from the nesting [z] to [z']. *)
Definition passes (z : Z) (text : str) (z' : Z) : Prop :=
  forall source rest i start parts,
    split_loop source (u "*") (text ++ rest) i 0 start z None parts =
    split_loop source (u "*") rest (i + length text) 0 start z' None parts.

Lemma passes_nil z : passes z [] z.
Proof. intros source rest i start parts. cbn. by rewrite Nat.add_0_r. Qed.

Lemma passes_app z1 s z2 t z3 : passes z1 s z2 -> passes z2 t z3 -> passes z1 (s ++ t) z3.
Proof.
  intros Hs Ht source rest i start parts. rewrite <- app_assoc, Hs, Ht, length_app.
  f_equal. lia.
Qed.

(** The characters that end or nest something, or stop the loop. *)
Definition structural (c : N) : bool :=
  is_quote c || is_open c || is_close c || N.eqb c 63 || N.eqb c 42.

Lemma passes_plain z c : structural c = false -> passes z [c] z.
Proof.
  unfold structural. rewrite !orb_false_iff. intros ((((Hq & Ho) & Hc) & H63) & H42).
  intros source rest i start parts. cbn [app length split_loop]. rewrite Hq, Ho, Hc, H63.
  change (starts_with (c :: rest) (u "*")) with (N.eqb 42 c && true).
  rewrite N.eqb_sym, H42. replace (i + 1) with (S i) by lia. by destruct (z =? 0)%Z.
Qed.

Lemma passes_text z s : forallb (fun c => negb (structural c)) s = true -> passes z s z.
Proof.
  induction s as [|c s IH]; [by intros _; apply passes_nil|]. cbn.
  rewrite andb_true_iff, negb_true_iff. intros [Hc Hs].
  apply (passes_app _ [c] z); auto using passes_plain.
Qed.

Lemma passes_inside z c : (0 < z)%Z -> c = 63%N \/ c = 42%N -> passes z [c] z.
Proof.
  intros Hz Hc source rest i start parts. cbn [app length split_loop].
  destruct Hc as [-> | ->]; cbn [is_quote is_open is_close N.eqb Pos.eqb orb];
    (replace (negb (z =? 0)%Z) with true by (destruct (Z.eqb_spec z 0); [lia|done]));
    f_equal; lia.
Qed.

Lemma passes_open z : (0 <= z)%Z -> passes z (u "(") (z + 1).
Proof.
  intros Hz source rest i start parts. change (u "(") with [40%N]. cbn [app length split_loop].
  change (is_quote 40) with false. change (is_open 40) with true. change (is_close 40) with false.
  cbv iota zeta. destruct (Z.eqb_spec (z + 1) 0); [lia|]. cbn [negb]. f_equal; lia.
Qed.

Lemma passes_close z : passes (z + 1) (u ")") z.
Proof.
  intros source rest i start parts. change (u ")") with [41%N]. cbn [app length split_loop].
  change (is_quote 41) with false. change (is_open 41) with false. change (is_close 41) with true.
  cbv iota zeta. rewrite Z.add_simpl_r. change (N.eqb 41 63) with false.
  change (starts_with (41%N :: rest) (u "*")) with false. cbv iota.
  replace (i + 1) with (S i) by lia. by destruct (z =? 0)%Z.
Qed.

(** Inside a string, up to its end. *)
Lemma quoted_piece c p source rest i start z parts :
  piece c p ->
  split_loop source (u "*") (p ++ rest) i 0 start z (Some quote_char) parts =
  split_loop source (u "*") rest (i + length p) 0 start z (Some quote_char) parts.
Proof.
  intros [Hq Hb _|e _|Hc].
  - cbn [app length split_loop]. rewrite (proj2 (N.eqb_neq _ _) Hb), (proj2 (N.eqb_neq _ _) Hq).
    f_equal; lia.
  - cbn [app length split_loop]. change (N.eqb backslash backslash) with true. cbv iota.
    f_equal. lia.
  - destruct (hex4_spec c Hc) as (a & b & d & e & Ex & Hx & _). unfold unicode_escape. rewrite Ex.
    assert (forall x, is_hex x = true -> N.eqb x backslash = false /\ N.eqb x quote_char = false) as Hp.
    { intros x. unfold is_hex, is_digit, in_range, backslash, quote_char.
      rewrite !orb_true_iff, !andb_true_iff, !N.leb_le, !N.eqb_neq. lia. }
    cbn [forallb] in Hx. rewrite !andb_true_iff in Hx. destruct Hx as (Ha & Hb & Hd & He & _).
    apply Hp in Ha as [Ha1 Ha2], Hb as [Hb1 Hb2], Hd as [Hd1 Hd2], He as [He1 He2].
    cbn [app length split_loop]. change (N.eqb backslash backslash) with true. cbv iota.
    rewrite Ha1, Ha2, Hb1, Hb2, Hd1, Hd2, He1, He2. f_equal. lia.
Qed.

Lemma passes_string z s : Forall code_unit s -> passes z (json_string s) z.
Proof.
  intros Hs source rest i start parts. unfold json_string, quoted. rewrite <- !app_assoc.
  cbn [app length split_loop]. change (is_quote quote_char) with true. cbv iota.
  destruct (json_body_pieces s Hs) as (ps & -> & Hps). clear Hs.
  assert (forall i, split_loop source (u "*") (concat ps ++ quote_char :: rest) i 0 start z
      (Some quote_char) parts =
    split_loop source (u "*") rest (S (i + length (concat ps))) 0 start z None parts) as ->.
  { induction Hps as [|c p s ps Hp _ IH]; intros j; cbn [concat].
    - cbn [app length split_loop]. change (N.eqb quote_char backslash) with false. cbv iota.
      rewrite N.eqb_refl. by rewrite Nat.add_0_r.
    - rewrite <- app_assoc, (quoted_piece c) by done. rewrite IH, length_app. f_equal. lia. }
  rewrite length_app. cbn [length]. f_equal. lia.
Qed.

Lemma passes_spell z w z' : passes z (w_text w) z' -> passes z (spell w) z'.
Proof.
  intros H. unfold spell. destruct (w_space w); [|exact H].
  apply (passes_app _ [32%N] z); [by apply passes_plain|exact H].
Qed.

(** A text the splitting loop goes over is not split. *)
Lemma passed_unsplit text : passes 0 text 0 -> length (splitExpressionAtTopLevel text (u "*")) <= 1.
Proof.
  intros H. unfold splitExpressionAtTopLevel. specialize (H text [] 0 0 []). rewrite app_nil_r in H.
  rewrite H. cbn [split_loop]. unfold split_finish. cbn. destruct (trim (drop 0 text)); cbn; lia.
Qed.

(** The loop gives up at a conditional. *)
Lemma conditional_unsplit s t : passes 0 s 0 ->
  length (splitExpressionAtTopLevel (s ++ u "?" ++ t) (u "*")) <= 1.
Proof. intros H. unfold splitExpressionAtTopLevel. by rewrite H. Qed.

(** ** Printed fragments *)

Definition op_word (o : str) : word := Word true o K_symbol.

(** A list of words that is read back and not split; [top] when this holds
    outside of all parentheses too. *)
Definition printed (top : bool) (ws : list word) : Prop :=
  spaced ws /\ starts_plain ws /\
  forall z, (if top then 0 <= z else 0 < z)%Z -> passes z (spell_all ws) z.

Lemma printed_single top w :
  word_ok w -> w_space w = false -> (forall z, passes z (w_text w) z) -> printed top [w].
Proof.
  intros Hw Hs Hp. split; [|split; [done|]].
  - split; [done|]. split; [by right|done].
  - intros z _. unfold spell_all. cbn. rewrite app_nil_r. by apply passes_spell.
Qed.

Lemma printed_string top s : Forall code_unit s -> printed top [string_word s].
Proof. intros Hs. apply printed_single; [by apply string_ok|done|]. intros z. by apply passes_string. Qed.

Lemma word_not_structural c : is_word c = true -> structural c = false.
Proof.
  unfold is_word, is_name_start, is_upper, is_lower, is_digit, structural, is_quote, is_open, is_close,
    in_range, quote_char, apostrophe.
  rewrite !orb_true_iff, !andb_true_iff, !N.eqb_eq, !N.leb_le, !orb_false_iff, !N.eqb_neq. lia.
Qed.

Lemma literal_not_structural c : literal_char c = true -> structural c = false.
Proof.
  unfold literal_char, is_e, is_sign, dot, plus_sign, minus_sign, is_digit, structural, is_quote,
    is_open, is_close, in_range, quote_char, apostrophe.
  rewrite !orb_true_iff, !andb_true_iff, !N.eqb_eq, !N.leb_le, !orb_false_iff, !N.eqb_neq. lia.
Qed.

Lemma passes_chars (f : N -> bool) z s :
  (forall c, f c = true -> structural c = false) -> Forall (fun c => f c = true) s -> passes z s z.
Proof.
  intros Hf Hs. apply passes_text. apply forallb_forall. intros c Hc.
  rewrite List.Forall_forall in Hs. by rewrite (Hf c (Hs c Hc)).
Qed.

Lemma passes_number z x : readable_price x = true -> passes z (number_to_string x) z.
Proof.
  intros Hx. destruct x as [| |[|] m e]; try discriminate Hx. cbn [readable_price] in Hx.
  apply andb_true_iff in Hx as [Hv _]. destruct (number_to_string_spec m e Hv) as (d & -> & Hok & _).
  eapply passes_chars; [exact literal_not_structural|]. by apply decimal_text_chars.
Qed.

Lemma printed_number top x : readable_price x = true -> printed top [number_word x].
Proof. intros Hx. apply printed_single; [by apply number_ok|done|]. intros z. by apply passes_number. Qed.

Lemma spell_all_cons w ws : spell_all (w :: ws) = spell w ++ spell_all ws.
Proof. done. Qed.

Lemma passes_lead z ws : starts_plain ws -> passes z (spell_all ws) z -> passes z (spell_all (lead ws)) z.
Proof.
  intros Hs Hp. rewrite spell_lead by done. apply (passes_app _ [32%N] z); [by apply passes_plain|done].
Qed.

(** An infix symbol may be printed at the top. *)
Definition infix (top : bool) (o : str) : Prop :=
  o ∈ SYMBOLS /\ forall z, (if top then 0 <= z else 0 < z)%Z -> passes z o z.

Lemma printed_infix top op a b :
  w_kind op = K_symbol -> infix top (w_text op) -> delimited (spell op) ->
  printed top a -> printed top b -> printed top (a ++ op :: lead b).
Proof.
  intros Hk [Ho Hop] Hd (Sa & Pa & Wa) (Sb & Pb & Wb). split; [|split].
  - assert (word_ok op) as Hw.
    { destruct op as [sp t k]. cbn in Hk. subst k. exact (symbol_ok t Ho). }
    apply spaced_app; [done| |].
    + split; [done|]. split; [right; by rewrite spell_lead|by apply spaced_lead].
    + rewrite spell_all_cons. apply delimited_app; [done|]. by apply spell_nonempty.
  - by destruct a.
  - intros z Hz. rewrite spell_all_app, spell_all_cons.
    apply (passes_app _ _ z); [auto|]. apply (passes_app _ _ z); [apply passes_spell; auto|].
    by apply passes_lead; [|auto].
Qed.

Lemma printed_join top op ws l :
  w_kind op = K_symbol -> infix top (w_text op) -> printed top ws -> Forall (printed top) l ->
  printed top (join_words op (ws :: l)).
Proof.
  intros Hk Ho Hw Hl. cbn [join_words]. revert ws Hw. induction Hl as [|w l Hw' Hl IH]; intros ws Hw.
  - cbn. by rewrite app_nil_r.
  - cbn [flat_map]. rewrite app_assoc. apply IH. by apply printed_infix.
Qed.

Definition call_words (f : BillingFunction) (ws : list word) : list word :=
  name (function_text f) :: symbol (u "(") :: ws ++ [symbol (u ")")].

Lemma printed_call top f ws : printed false ws -> printed top (call_words f ws).
Proof.
  intros (Hs & Hp & Hw). assert (is_name (function_text f) = true) as Hn.
  { destruct f; try reflexivity. match goal with t : TimeFunction |- _ => by destruct t end. }
  split; [|split; [done|]].
  - split; [by apply name_ok|]. split; [by right|]. split; [apply symbol_ok; by left|].
    split; [by left|]. apply spaced_app; [done| |done].
    split; [apply symbol_ok; right; by left|]. split; [by right|done].
  - intros z Hz. assert (0 <= z)%Z by (destruct top; lia). unfold call_words.
    rewrite !spell_all_cons, spell_all_app. apply (passes_app _ _ z).
    { apply passes_spell. eapply passes_chars; [exact word_not_structural|]. cbn [name w_text].
      destruct (function_text f) as [|c t]; [done|]. cbn in Hn. apply andb_true_iff in Hn as [H1 H2].
      constructor; [unfold is_word; by rewrite H1|]. by apply List.Forall_forall, forallb_forall. }
    apply (passes_app _ _ (z + 1)); [by apply passes_open|].
    apply (passes_app _ _ (z + 1)); [apply Hw; lia|].
    unfold spell_all. cbn [map concat]. rewrite app_nil_r. apply passes_close.
Qed.

Lemma spell_call f ws : spell_all (call_words f ws) = function_text f ++ u "(" ++ spell_all ws ++ u ")".
Proof. unfold call_words. rewrite !spell_all_cons, spell_all_app. done. Qed.

(** ** Nodes and joined operands *)

Definition text_node (s : str) : ExpressionNode := Literal (LString s) false 0 0.

Definition number_node (x : number) : ExpressionNode := Literal (LNumber x) false 0 0.

(** Operands joined by an operator. *)
Definition joined (o : BinaryOperator) (l : list ExpressionNode) : ExpressionNode :=
  match l with [] => text_node [] | a :: l => fold_left (binary_of o) l a end.

Lemma infix_plain top o :
  o ∈ SYMBOLS -> forallb (fun c => negb (structural c)) o = true -> infix top o.
Proof. intros Ho Hs. split; [done|]. intros z _. by apply passes_text. Qed.

Ltac symbol := apply (proj1 (bool_decide_eq_true _)); reflexivity.

Lemma infix_times : infix false (u "*").
Proof. split; [symbol|]. intros z Hz. by apply passes_inside; [|right]. Qed.

(** A node of a given type, bounded height and no fixed price. *)
Definition typed (t : ExpressionType) (h : nat) (n : ExpressionNode) : Prop :=
  infer n = Some t /\ node_height n <= h /\ no_fixed n.

Lemma typed_joined o t h a l :
  (forall m n, infer m = Some t -> infer n = Some t -> infer (binary_of o m n) = Some t) ->
  typed t h a -> Forall (typed t h) l -> typed t (h + length l) (fold_left (binary_of o) l a).
Proof.
  intros Ho Ha Hl. revert h a Ha Hl. induction l as [|b l IH]; intros h a Ha Hl.
  - cbn. by rewrite Nat.add_0_r.
  - apply Forall_cons_iff in Hl as [Hb Hl]. cbn [fold_left length].
    replace (h + S (length l)) with (S h + length l) by lia.
    destruct Ha as (Ia & Ha & Fa), Hb as (Ib & Hb & Fb). apply IH.
    + split; [by apply Ho|]. split; [cbn; lia|].
      apply no_fixed_children; [by repeat constructor|done].
    + eapply list.Forall_impl; [exact Hl|]. intros n (? & ? & ?). split; [done|]. split; [lia|done].
Qed.

Lemma no_fixed_text s : no_fixed (text_node s).
Proof. by repeat constructor. Qed.

Lemma typed_number h x : typed T_number h (number_node x).
Proof. split; [done|]. split; [cbn; lia|]. by repeat constructor. Qed.

Lemma flatten_shape n o : flattenBinary (shape n) o = map shape (flattenBinary n o).
Proof.
  induction n as [n IH] using node_children_ind. destruct n; try done. cbn in *.
  rewrite !Forall_cons_iff in IH. destruct IH as (IHl & IHr & _).
  case_bool_decide; [|done]. by rewrite map_app, IHl, IHr.
Qed.

Lemma map_option_shape {B} (f : ExpressionNode -> option B) l :
  (forall n, f (shape n) = f n) -> map_option f (map shape l) = map_option f l.
Proof. intros Hf. induction l as [|n l IH]; [done|]. cbn. by rewrite Hf, IH. Qed.

Lemma price_literal_shape n : nonnegativePriceLiteral (shape n) = nonnegativePriceLiteral n.
Proof. destruct n as [| | |o a s e| |]; try done. destruct o; try done. cbn. by destruct a. Qed.

Lemma flatten_joined o l : l <> [] -> Forall (fun n => flattenBinary n o = [n]) l ->
  flattenBinary (joined o l) o = l.
Proof.
  destruct l as [|a l]; [done|]. intros _ [Ha Hl]%Forall_cons_iff. cbn [joined].
  assert (forall a pre, flattenBinary a o = pre ->
    flattenBinary (fold_left (binary_of o) l a) o = pre ++ l) as H; [|by rewrite (H a [a])].
  clear a Ha. induction Hl as [|n l Hn Hl IH]; intros a pre Ha; cbn [fold_left].
  - by rewrite app_nil_r.
  - rewrite (IH _ (pre ++ [n])); [by rewrite <- app_assoc|]. cbn.
    rewrite bool_decide_eq_true_2 by done. by rewrite Ha, Hn.
Qed.

Lemma charged_positive x :
  readable_price x = true -> num_geb x zero = true /\ (num_gtb x zero = false -> x = zero).
Proof.
  intros Hx. destruct x as [| |[|] m e]; try discriminate Hx. cbn [readable_price] in Hx.
  apply andb_true_iff in Hx as [Hv _]. pose proof (valid_nonneg _ _ _ Hv) as Hm.
  destruct (Z.eq_dec m 0%Z) as [->|Hm0].
  - assert (Finite false 0%Z e = zero) as ->; [|done]. unfold valid in Hv. cbn in Hv. bool_to_prop.
    change (2 ^ 52 <=? 0)%Z with false in *. cbn in *. by assert (e = -1074)%Z as -> by lia.
  - assert (num_compare zero (Finite false m e) = Some Lt) as Hc.
    { unfold num_compare, zero. cbn [signed].
      match goal with |- Some (?a ?= ?b)%Z = _ => assert (a < b)%Z end; [|by rewrite (proj2 (Z.compare_lt_iff _ _))].
      rewrite Z.mul_0_l. apply Z.mul_pos_pos; [lia|]. apply pow2_pos. lia. }
    unfold num_geb, num_gtb, num_leb, num_ltb. by rewrite Hc.
Qed.

Lemma no_version_text c t : c <> 118%N -> is_space c = false -> match_version (c :: t) = None.
Proof.
  intros Hc Hs. unfold match_version. cbn [drop_while take_while]. rewrite Hs.
  destruct c as [|p]; [done|]. by do 7 (destruct p as [p|p|]; try done).
Qed.

(** ** Chains of conditionals

    The editors print [test ? body : test ? body : body], where the last body
    has no test. *)

Section conditional_chain.
Context {A B : Type} (conditions : A -> list B) (good : A -> Prop).
Context (test body : A -> list word) (test_node body_node : A -> ExpressionNode).

(** Every item but the last has a condition. *)
Fixpoint guarded (l : list A) : Prop :=
  match l with
  | [] => False
  | a :: rest => match rest with [] => conditions a = [] | _ => conditions a <> [] /\ guarded rest end
  end.

Fixpoint chain_words (l : list A) : list word :=
  match l with
  | [] => []
  | a :: rest =>
      match rest with
      | [] => body a
      | _ => test a ++ op_word (u "?") :: lead (body a) ++ op_word (u ":") :: lead (chain_words rest)
      end
  end.
Fixpoint chain_node (l : list A) : ExpressionNode :=
  match l with
  | [] => text_node []
  | a :: rest =>
      match rest with
      | [] => body_node a
      | _ => Conditional (test_node a) (body_node a) (chain_node rest) 0 0
      end
  end.
Fixpoint chain_parts (l : list A) : list str :=
  match l with
  | [] => []
  | a :: rest =>
      match rest with
      | [] => [spell_all (body a)]
      | _ => (spell_all (test a) ++ u " ? " ++ spell_all (body a)) :: chain_parts rest
      end
  end.

Lemma chain_words_cons a b l :
  chain_words (a :: b :: l) =
  test a ++ op_word (u "?") :: lead (body a) ++ op_word (u ":") :: lead (chain_words (b :: l)).
Proof. done. Qed.
Lemma chain_node_cons a b l :
  chain_node (a :: b :: l) = Conditional (test_node a) (body_node a) (chain_node (b :: l)) 0 0.
Proof. done. Qed.

Context (Hbody : forall a, good a -> printed true (body a)).
Context (Htest : forall a, good a -> conditions a <> [] -> printed true (test a)).

Lemma printed_weaken ws : printed true ws -> printed false ws.
Proof. intros (? & ? & Hp). split; [done|]. split; [done|]. intros z Hz. apply Hp. lia. Qed.

Lemma chain_printed l : guarded l -> Forall good l -> printed false (chain_words l).
Proof.
  induction l as [|a [|b l] IH]; [done| |]; intros Hg [Ha Hl]%Forall_cons_iff.
  { by apply printed_weaken, Hbody. }
  destruct Hg as [Hc Hg]. rewrite chain_words_cons, app_comm_cons, app_assoc.
  assert (infix false (u "?")) as Hq.
  { split; [symbol|]. intros z Hz. by apply passes_inside; [|left]. }
  apply printed_infix; [done|apply infix_plain; [symbol|done]|done| |by apply IH].
  apply printed_infix; [done|done|done|by apply printed_weaken, Htest|by apply printed_weaken, Hbody].
Qed.

Lemma spell_chain l : guarded l -> Forall good l ->
  join (u " : ") (chain_parts l) = spell_all (chain_words l).
Proof.
  induction l as [|a [|b l] IH]; [done|done|]. intros [Hc Hg] [Ha Hl]%Forall_cons_iff.
  pose proof (IH Hg Hl) as E. rewrite chain_words_cons.
  destruct (Hbody a Ha) as (_ & Hp & _), (chain_printed _ Hg Hl) as (_ & Hp' & _).
  rewrite spell_all_app, spell_all_cons, spell_all_app, spell_all_cons, !spell_lead by done.
  assert (exists p ps, chain_parts (b :: l) = p :: ps) as (p & ps & Ep) by (destruct l; cbn; eauto).
  rewrite <- E. change (chain_parts (a :: b :: l)) with
    ((spell_all (test a) ++ u " ? " ++ spell_all (body a)) :: chain_parts (b :: l)).
  rewrite Ep. cbn [join]. by rewrite <- !app_assoc.
Qed.

(** The text is not split at a factor. *)
Lemma chain_unsplit l : guarded l -> Forall good l ->
  length (splitExpressionAtTopLevel (spell_all (chain_words l)) (u "*")) <= 1.
Proof.
  intros Hg Hl. destruct l as [|a [|b l]]; [done| |]; apply Forall_cons_iff in Hl as [Ha _].
  - apply passed_unsplit. destruct (Hbody a Ha) as (_ & _ & Hp). by apply Hp.
  - destruct Hg as [Hc _]. destruct (Htest a Ha Hc) as (_ & _ & Hp).
    rewrite chain_words_cons, spell_all_app, spell_all_cons.
    change (spell (op_word (u "?"))) with ([32%N] ++ u "?"). rewrite <- app_assoc.
    rewrite (app_assoc (spell_all (test a))). apply conditional_unsplit.
    apply (passes_app _ _ 0); [by apply Hp|by apply passes_plain].
Qed.

(** The first and the last character of the text. *)
Context (initial : N -> Prop).
Context (Hends : forall a, good a -> exists c middle, initial c /\ spell_all (body a) = c :: middle ++ u ")").
Context (Hstarts : forall a, good a -> conditions a <> [] -> exists c rest,
  initial c /\ spell_all (test a) = c :: rest).

Lemma chain_ends l : guarded l -> Forall good l -> exists c middle,
  initial c /\ spell_all (chain_words l) = c :: middle ++ u ")".
Proof.
  intros Hg Hl. induction l as [|a [|b l] IH]; [done| |]; apply Forall_cons_iff in Hl as [Ha Hl].
  { by apply Hends. }
  destruct Hg as [Hc Hg]. destruct (IH Hg Hl) as (c' & m & _ & E).
  destruct (Hstarts a Ha Hc) as (c & r & Hi & Ec).
  destruct (chain_printed _ Hg Hl) as (_ & Hp & _). rewrite chain_words_cons, spell_all_app, Ec.
  rewrite spell_all_cons, spell_all_app, spell_all_cons, (spell_lead (chain_words _)), E by done.
  cbn [app]. exists c. eexists (r ++ spell _ ++ spell_all _ ++ spell _ ++ 32%N :: c' :: m).
  split; [done|]. rewrite <- !app_assoc. reflexivity.
Qed.

Context (d : nat) (Hwb : forall a k, good a -> writes_operand (d + k) (body a) (body_node a)).
Context (Hwt : forall a k, good a -> conditions a <> [] -> writes_chain (d + k) 0 (test a) (test_node a)).

Lemma chain_writes l : guarded l -> Forall good l -> forall k,
  writes (d + length l + k) 0 (chain_words l) (chain_node l).
Proof.
  induction l as [|a [|b l] IH]; [done| |]; intros Hg [Ha Hl]%Forall_cons_iff k.
  { replace (d + length [a] + k) with (S (d + k)) by (cbn; lia).
    by apply writes_of_chain, writes_chain_operand, Hwb. }
  destruct Hg as [Hc Hg]. rewrite chain_words_cons, chain_node_cons.
  replace (d + length (a :: b :: l) + k) with (S (d + length (b :: l) + k)) by (cbn; lia).
  apply writes_conditional; [done|done| | |by apply writes_lead, IH].
  - rewrite <- Nat.add_assoc. by apply Hwt.
  - apply writes_lead. replace (d + length (b :: l) + k) with (S (d + (length l + k))) by (cbn; lia).
    by apply writes_of_chain, writes_chain_operand, Hwb.
Qed.

Context (h : nat) (Htb : forall a, good a -> typed T_number h (body_node a)).
Context (Htt : forall a, good a -> conditions a <> [] -> typed T_boolean h (test_node a)).

Lemma chain_typed l : guarded l -> Forall good l -> typed T_number (h + length l) (chain_node l).
Proof.
  induction l as [|a [|b l] IH]; [done| |]; intros Hg [Ha Hl]%Forall_cons_iff;
    destruct (Htb a Ha) as (Ty & Hy & Fy).
  { split; [done|]. split; [cbn; lia|done]. }
  destruct Hg as [Hc Hg]. rewrite chain_node_cons. destruct (IH Hg Hl) as (Tn & Hn & Fn).
  destruct (Htt a Ha Hc) as (Tc & Hh & Fc). split; [|split].
  - rewrite infer_children. cbn [children map_option]. by rewrite Tc, Ty, Tn.
  - cbn [node_height length] in *. lia.
  - apply no_fixed_children; [|done]. cbn [children]. rewrite !Forall_cons_iff. by split_and!.
Qed.

Context (Hinitial : forall c, initial c -> c <> 118%N /\ is_space c = false).

(** The printed text compiles to the chain. *)
Lemma compile_chain l : guarded l -> Forall good l ->
  d + length l <= 128 -> h + length l <= 256 ->
  (Z.of_nat (length (spell_all (chain_words l))) < 10000)%Z ->
  trim (spell_all (chain_words l)) = spell_all (chain_words l) /\
  exists compiled, compile (spell_all (chain_words l)) = inl compiled /\
    shape (ce_ast compiled) = chain_node l.
Proof.
  intros Hg Hl Hd Hh Hlen. destruct (chain_ends l Hg Hl) as (c & middle & Hc & E).
  destruct (Hinitial c Hc) as [Hv Hsp]. split.
  { rewrite E. apply (trimmed_ends _ c 41%N); [done|done|]. right. by exists middle. }
  destruct (chain_typed l Hg Hl) as (Ti & Hi & Fi), (chain_printed l Hg Hl) as (Hs & _).
  eapply compile_words; [exact Hs| |exact Hlen| | |lia|exact Ti|exact Fi].
  - intros E0. by rewrite E0 in E.
  - rewrite E. by apply no_version_text.
  - replace 128 with (d + length l + (128 - (d + length l))) by lia. by apply chain_writes.
Qed.
End conditional_chain.
