(* ===== verification/BillingExpr.v ===== *)
(** * Request rules and tier rows

    [features/pricing/lib/billing-expr.ts]: the variable registry, the rows the
    price tables show, and the request-rule editor's parser and printer.
    [JSON.parse] may throw, so the parsers return an [outcome]. *)

From Stdlib Require Import String.
From S2P Require Import Prelude JsNumber JsString JsText Ast Parser Compile Request.
From S2P Require Import BillingTime Runtime Structure Display Regex Json.

(** ** The variable registry *)

Inductive BillingSide : Type := Side_input | Side_output | Side_condition.

Record BillingVar : Type := {
  bv_key : BillingVariable;
  bv_field : option str;
  bv_tierField : option str;
  bv_label : str;
  bv_shortLabel : str;
  bv_side : BillingSide;
  bv_isBase : bool;
  bv_isConditionOnly : bool;
  bv_group : option str;
}.

Definition base_var key field tierField label shortLabel side : BillingVar :=
  {| bv_key := key; bv_field := Some (u field); bv_tierField := Some (u tierField);
     bv_label := u label; bv_shortLabel := u shortLabel; bv_side := side;
     bv_isBase := true; bv_isConditionOnly := false; bv_group := None |}.
Definition extra_var key field tierField label shortLabel side group : BillingVar :=
  {| bv_key := key; bv_field := Some (u field); bv_tierField := Some (u tierField);
     bv_label := u label; bv_shortLabel := u shortLabel; bv_side := side;
     bv_isBase := false; bv_isConditionOnly := false; bv_group := Some (u group) |}.

Definition BILLING_VARS : list BillingVar :=
  [base_var Var_p "inputPrice" "input_unit_cost" "Input price" "Input" Side_input;
   base_var Var_c "outputPrice" "output_unit_cost" "Completion price" "Output" Side_output;
   {| bv_key := Var_len; bv_field := None; bv_tierField := None; bv_label := u "Input length";
      bv_shortLabel := u "Length"; bv_side := Side_condition; bv_isBase := false;
      bv_isConditionOnly := true; bv_group := None |};
   extra_var Var_cr "cacheReadPrice" "cache_read_unit_cost" "Cache read price" "Cache Read"
     Side_input "cache";
   extra_var Var_cc "cacheCreatePrice" "cache_create_unit_cost" "Cache create price" "Cache Write"
     Side_input "cache";
   extra_var Var_img_cr "imageCachePrice" "image_cache_unit_cost" "Image cache input price"
     "Image Cache" Side_input "cache";
   extra_var Var_cc1h "cacheCreate1hPrice" "cache_create_1h_unit_cost" "Cache create (1h) price"
     "Cache Write (1h)" Side_input "cache";
   extra_var Var_img "imagePrice" "image_unit_cost" "Image input price" "Image In"
     Side_input "media";
   extra_var Var_img_o "imageOutputPrice" "image_output_unit_cost" "Image output price" "Image Out"
     Side_output "media";
   extra_var Var_ai "audioInputPrice" "audio_input_unit_cost" "Audio input price" "Audio In"
     Side_input "media";
   extra_var Var_ao "audioOutputPrice" "audio_output_unit_cost" "Audio output price" "Audio Out"
     Side_output "media"].

Definition BILLING_PRICING_VARS : list BillingVar :=
  List.filter (fun v => negb (bv_isConditionOnly v)) BILLING_VARS.
Definition BILLING_CONDITION_VARS : list BillingVariable :=
  map bv_key (List.filter (fun v => bv_isBase v || bv_isConditionOnly v) BILLING_VARS).
Definition BILLING_VAR_KEY_TO_FIELD : list (BillingVariable * str) :=
  map (fun v => (bv_key v, default [] (bv_field v))) BILLING_PRICING_VARS.
Definition BILLING_EXTRA_VARS : list BillingVar :=
  List.filter (fun v => negb (bv_isBase v) && negb (bv_isConditionOnly v)) BILLING_VARS.
(** [(exprVar, field)] *)
Definition BILLING_CACHE_VAR_MAP : list (BillingVariable * str) :=
  map (fun v => (bv_key v, default [] (bv_tierField v))) BILLING_EXTRA_VARS.

(** ** Request-rule data *)

Definition SOURCE_PARAM : str := u "param".
Definition SOURCE_HEADER : str := u "header".
Definition SOURCE_TIME : str := u "time".
Definition MATCH_EQ : str := u "eq".
Definition MATCH_CONTAINS : str := u "contains".
Definition MATCH_GT : str := u "gt".
Definition MATCH_GTE : str := u "gte".
Definition MATCH_LT : str := u "lt".
Definition MATCH_LTE : str := u "lte".
Definition MATCH_EXISTS : str := u "exists".
Definition MATCH_RANGE : str := u "range".

Definition TIME_FUNCS : list TimeFunction := TIME_FUNCTIONS.

(** [/^-?(?:\d+\.?\d*|\.\d+)(?:[eE][+-]?\d+)?$/] *)
Definition NUMERIC_LITERAL_REGEX : re :=
  seqs [opt (lit "-");
        alts [seqs [plus digit; opt (lit "."); Star digit]; seqs [lit "."; plus digit]];
        opt (seqs [class "eE"; opt (class "+-"); plus digit])].
Definition is_numeric_literal (text : str) : bool := test_all NUMERIC_LITERAL_REGEX text.

Inductive RequestSource : Type := From_param | From_header.

Definition source_text (s : RequestSource) : str :=
  match s with From_param => SOURCE_PARAM | From_header => SOURCE_HEADER end.

Record ParamHeaderCondition : Type := {
  ph_source : RequestSource;
  ph_path : str;
  ph_mode : str;
  ph_value : str;
}.
Record TimeCondition : Type := {
  tm_timeFunc : TimeFunction;
  tm_timezone : str;
  tm_mode : str;
  tm_value : str;
  tm_rangeStart : str;
  tm_rangeEnd : str;
}.
Inductive RequestCondition : Type :=
| OnTime (t : TimeCondition)
| OnRequest (c : ParamHeaderCondition).

Record RequestRuleGroup : Type := {
  rg_conditions : list RequestCondition;
  rg_multiplier : str;
  rg_conditionText : option str;
  rg_matched : option bool;
}.

(** ** Tier rows *)

Record ParsedTier : Type := {
  pt_label : str;
  pt_imageCount : bool;
  pt_conditions : list TokenTierCondition;
  pt_billingUnit : option BillingUnit;
  pt_fixedPrice : option number;
  pt_conditionText : option str;
  pt_fields : list (str * number);
}.

Definition mapTokenTier (tier : TokenTier) : ParsedTier :=
  let request := match tt_billingUnit tier with Some Unit_request => true | _ => false end in
  {| pt_label := tt_label tier;
     pt_imageCount := tt_imageCount tier;
     pt_conditions := tt_conditions tier;
     pt_billingUnit := if request then tt_billingUnit tier else None;
     pt_fixedPrice := if request then tt_fixedPrice tier else None;
     pt_conditionText :=
       match tt_conditionText tier with
       | Some text => if nonempty text then Some text else None
       | None => None end;
     pt_fields := map (fun e => (default (u "undefined") (assoc_get e.1 BILLING_VAR_KEY_TO_FIELD), e.2))
                    (tt_prices tier) |}.

Definition parseTiersFromExpr `{Host} (exprStr : str) : outcome (list ParsedTier) :=
  if negb (nonempty exprStr) then Ok []
  else match compile exprStr with
       | inr _ => Ok []
       | inl compiled =>
           match readTokenTierChain (ce_ast compiled) with
           | Some canonical => Ok (map mapTokenTier canonical)
           | None =>
               pricing ← readTimeTokenPricing exprStr None;
               Ok (match pricing with
                   | Some (tiers, _) => map (fun t => mapTokenTier (ttt_tier t)) tiers
                   | None => [] end)
           end
       end.

Definition getCurrentTimePricingTiers `{Host} (exprStr : str) (now : date)
  : outcome (option (list ParsedTier)) :=
  pricing ← readTimeTokenPricing exprStr (Some now);
  Ok (match pricing with
      | Some (_, currentTiers) => Some (map (fun t => mapTokenTier (ttt_tier t)) currentTiers)
      | None => None end).

(** [text.replaceAll(r, by)] for a pattern that matches no empty text. *)
Fixpoint replace_all (fuel : nat) (r : re) (by_ text : str) : str :=
  match fuel with
  | O => text
  | S fuel =>
      match search r text [] with
      | Some (before, rest, _) => before ++ by_ ++ replace_all fuel r by_ rest
      | None => text
      end
  end.

(** The full-width and mathematical comparison signs. *)
Definition equals_sign : re := Chr (fun c => bool_decide (c ∈ [61%N; 65309%N])).
Definition less_signs : re :=
  alts [Seq (lit "<") (opt equals_sign); Chr (N.eqb 8804); Seq (Chr (N.eqb 65308)) (opt equals_sign)].
Definition greater_signs : re :=
  alts [Seq (lit ">") (opt equals_sign); Chr (N.eqb 8805); Seq (Chr (N.eqb 65310)) (opt equals_sign)].

Definition remove_spaces (text : str) : str := List.filter (fun c => negb (is_space c)) text.

Definition normalizeTierLabel `{Host} (label : option str) : str :=
  match label with
  | None => []
  | Some label =>
      let label := replace_all (S (length label)) less_signs (u "<") label in
      let label := replace_all (S (length label)) greater_signs (u ">") label in
      toLowerCase (remove_spaces label)
  end.

(** ** Parsing request rules *)

Definition splitTopLevelMultiply (expr : str) : list str := splitExpressionAtTopLevel expr (u "*").
Definition splitTopLevelAnd (expr : str) : list str := splitExpressionAtTopLevel expr (u "&&").

(** The parsed literal; [VNull] is [null]. *)
Definition parseExprLiteral (raw : str) : value :=
  let text := trim raw in
  if str_eqb text (u "true") || str_eqb text (u "false") then VString text
  else if is_numeric_literal text then VString text
  else default VNull (json_parse text).

Definition TIME_FUNC_RANGES (f : TimeFunction) : Z * Z :=
  match f with
  | Time_hour => (0, 23) | Time_minute => (0, 59) | Time_weekday => (0, 6)
  | Time_month => (1, 12) | Time_day => (1, 31)
  end%Z.

Definition isTimeValueInRange (timeFunc : TimeFunction) (text : str) : bool :=
  if negb (is_numeric_literal text) then false
  else
    let v := to_number text in
    if negb (num_is_integer v) then false
    else
      let '(lo, hi) := TIME_FUNC_RANGES timeFunc in
      num_geb v (of_Z lo) && num_leb v (of_Z hi).

Definition time_of_text (text : str) : option TimeFunction :=
  List.find (fun t => str_eqb (time_text t) text) TIME_FUNCTIONS.

(** [(hour|minute|weekday|month|day)] *)
Definition time_name : re := Group 1 (alts (map (fun t => lit_chars (time_text t)) TIME_FUNCTIONS)).
(** [\('([^']+)'\)] with group [i] *)
Definition quoted_arg (i : nat) : re :=
  seqs [litq "('"; Group i (plus (none_of [quote_char])); litq "')"].
(** [[\d.eE+-]+] *)
Definition number_chars : re := plus (Chr (fun c => is_digit c || bool_decide (c ∈ u ".eE+-"))).

(** [(hour|...)\('([^']+)'\) >= ([\d.eE+-]+) (?:&&|\|\|) \1\('\2'\) < ([\d.eE+-]+)] *)
Definition time_range_body : re :=
  seqs [time_name; quoted_arg 2; lit " >= "; Group 3 number_chars; lit " ";
        alts [lit "&&"; lit "||"]; lit " "; Back 1; litq "('"; Back 2; litq "')"; lit " < ";
        Group 4 number_chars].
Definition time_range_parens : re := seqs [lit "("; time_range_body; lit ")"].
(** [(hour|...)\('([^']+)'\) (==|>=|<) ([\d.eE+-]+)] *)
Definition time_compare : re :=
  seqs [time_name; quoted_arg 2; lit " "; Group 3 (alts [lit "=="; lit ">="; lit "<"]); lit " ";
        Group 4 number_chars].

Definition tryParseTimeCondition (expr : str) : option RequestCondition :=
  match (match match_all time_range_body expr with
         | Some m => Some m
         | None => match_all time_range_parens expr end) with
  | Some m =>
      timeFunc ← time_of_text (text_of 1 m);
      if negb (isTimeValueInRange timeFunc (text_of 3 m))
         || negb (isTimeValueInRange timeFunc (text_of 4 m)) then None
      else Some (OnTime {| tm_timeFunc := timeFunc; tm_timezone := text_of 2 m;
                           tm_mode := MATCH_RANGE; tm_value := [];
                           tm_rangeStart := text_of 3 m; tm_rangeEnd := text_of 4 m |})
  | None =>
      m ← match_all time_compare expr;
      timeFunc ← time_of_text (text_of 1 m);
      if negb (isTimeValueInRange timeFunc (text_of 4 m)) then None
      else
        let mode := if str_eqb (text_of 3 m) (u ">=") then MATCH_GTE
                    else if str_eqb (text_of 3 m) (u "<") then MATCH_LT else MATCH_EQ in
        Some (OnTime {| tm_timeFunc := timeFunc; tm_timezone := text_of 2 m;
                        tm_mode := mode; tm_value := text_of 4 m;
                        tm_rangeStart := []; tm_rangeEnd := [] |})
  end.

(** ['(?:[^'\\]|\\.)*'] *)
Definition string_literal : re :=
  seqs [litq "'"; Star (Alt (none_of [quote_char; backslash]) (Seq (Chr (N.eqb backslash)) any));
        litq "'"].

Definition header_exists : re := seqs [lit "header"; quoted_arg 1; litq " != ''"].
Definition param_exists : re := seqs [lit "param"; quoted_arg 1; lit " != nil"].
Definition header_contains : re :=
  seqs [lit "has(header"; quoted_arg 1; lit ", "; Group 2 string_literal; lit ")"].
Definition param_contains : re :=
  seqs [lit "param"; quoted_arg 1; lit " != nil && has(param"; quoted_arg 2; lit ", ";
        Group 3 string_literal; lit ")"].
Definition param_compare : re :=
  seqs [lit "param"; quoted_arg 1; lit " != nil && param"; quoted_arg 2; lit " ";
        Group 3 (alts [lit ">"; lit ">="; lit "<"; lit "<="]); lit " "; Group 4 number_chars].
Definition equals_literal : re :=
  seqs [Group 1 (alts [lit "param"; lit "header"]); quoted_arg 2; lit " == "; Group 3 (plus any)].

(** [JSON.parse(text) as string] *)
Definition json_text (text : str) : outcome str :=
  match json_parse text with
  | Some v => Ok (to_string v)
  | None => Throw (JsError (u "Unexpected token in JSON"))
  end.

Definition request_condition source path mode v : RequestCondition :=
  OnRequest {| ph_source := source; ph_path := path; ph_mode := mode; ph_value := v |}.

Definition compare_mode (op : str) : str :=
  if str_eqb op (u ">") then MATCH_GT
  else if str_eqb op (u ">=") then MATCH_GTE
  else if str_eqb op (u "<") then MATCH_LT else MATCH_LTE.

(** The last three patterns. *)
Definition parse_comparison (expr : str) : outcome (option RequestCondition) :=
  match match_all param_compare expr with
  | Some m =>
      if str_eqb (text_of 1 m) (text_of 2 m)
      then Ok (Some (request_condition From_param (text_of 1 m) (compare_mode (text_of 3 m))
                       (text_of 4 m)))
      else Ok None
  | None => Ok None
  end.
Definition parse_equality (expr : str) : option RequestCondition :=
  m ← match_all equals_literal expr;
  match parseExprLiteral (text_of 3 m) with
  | VNull => None
  | v => Some (request_condition
                 (if str_eqb (text_of 1 m) (u "param") then From_param else From_header)
                 (text_of 2 m) MATCH_EQ (to_string v))
  end.
Definition parse_param_contains (expr : str) : outcome (option RequestCondition) :=
  match match_all param_contains expr with
  | Some m =>
      if str_eqb (text_of 1 m) (text_of 2 m)
      then v ← json_text (text_of 3 m);
           Ok (Some (request_condition From_param (text_of 1 m) MATCH_CONTAINS v))
      else Ok None
  | None => Ok None
  end.

Definition tryParseRequestCondition (expr : str) : outcome (option RequestCondition) :=
  match tryParseTimeCondition expr with
  | Some tc => Ok (Some tc)
  | None =>
  match match_all header_exists expr with
  | Some m => Ok (Some (request_condition From_header (text_of 1 m) MATCH_EXISTS []))
  | None =>
  match match_all param_exists expr with
  | Some m => Ok (Some (request_condition From_param (text_of 1 m) MATCH_EXISTS []))
  | None =>
  match match_all header_contains expr with
  | Some m =>
      v ← json_text (text_of 2 m);
      Ok (Some (request_condition From_header (text_of 1 m) MATCH_CONTAINS v))
  | None =>
      contains ← parse_param_contains expr;
      match contains with
      | Some c => Ok (Some c)
      | None =>
          comparison ← parse_comparison expr;
          match comparison with
          | Some c => Ok (Some c)
          | None => Ok (parse_equality expr)
          end
      end
  end end end end.

Definition tryParseTimeRangePair (lower upper : str) : option RequestCondition :=
  match tryParseTimeCondition lower, tryParseTimeCondition upper with
  | Some (OnTime ta), Some (OnTime tb) =>
      if negb (bool_decide (tm_timeFunc ta = tm_timeFunc tb))
         || negb (str_eqb (tm_timezone ta) (tm_timezone tb)) then None
      else if negb (str_eqb (tm_mode ta) MATCH_GTE) || negb (str_eqb (tm_mode tb) MATCH_LT)
      then None
      else Some (OnTime {| tm_timeFunc := tm_timeFunc ta; tm_timezone := tm_timezone ta;
                           tm_mode := MATCH_RANGE; tm_value := [];
                           tm_rangeStart := tm_value ta; tm_rangeEnd := tm_value tb |})
  | _, _ => None
  end.

(** The loop over the parts of a conjunction; [None] is [null]. *)
Fixpoint parse_parts (andParts : list str) : outcome (option (list RequestCondition)) :=
  match andParts with
  | [] => Ok (Some [])
  | part :: rest =>
      let part := trim part in
      let single :=
        condition ← tryParseRequestCondition part;
        match condition with
        | None => Ok None
        | Some condition =>
            conditions ← parse_parts rest;
            Ok (option_map (cons condition) conditions)
        end in
      match rest with
      | next :: rest' =>
          let next := trim next in
          if nonempty next then
            match tryParseTimeRangePair part next with
            | Some merged => conditions ← parse_parts rest'; Ok (option_map (cons merged) conditions)
            | None => single
            end
          else single
      | [] => single
      end
  end.

Definition tryParseRequestConditions (conditionStr : str)
  : outcome (option (list RequestCondition)) :=
  match tryParseTimeCondition (trim conditionStr) with
  | Some wholeTimeCond => Ok (Some [wholeTimeCond])
  | None =>
      conditions ← parse_parts (splitTopLevelAnd conditionStr);
      Ok (match conditions with Some (_ :: _) => conditions | _ => None end)
  end.

(** [/^\((.+) \? ([\d.eE+-]+) : 1\)$/s] *)
Definition rule_factor : re :=
  seqs [lit "("; Group 1 (plus any_s); lit " ? "; Group 2 number_chars; lit " : 1)"].

Definition tryParseRuleGroupFactor (part : str) : outcome (option RequestRuleGroup) :=
  match match_all rule_factor part with
  | None => Ok None
  | Some m =>
      conditions ← tryParseRequestConditions (text_of 1 m);
      Ok (conditions ← conditions;
          Some {| rg_conditions := conditions; rg_multiplier := text_of 2 m;
                  rg_conditionText := None; rg_matched := None |})
  end.

Definition requestRuleGroupsFromTrace (requestRules : list BillingRequestRule)
  : outcome (list RequestRuleGroup) :=
  map_result (fun rule =>
    let conditionText := trim (rule_cond rule) in
    conditions ← tryParseRequestConditions conditionText;
    Ok {| rg_conditions := default [] conditions;
          rg_multiplier := number_to_string (rule_multiplier rule);
          rg_conditionText := Some conditionText;
          rg_matched := Some (rule_matched rule) |}) requestRules.

Fixpoint parse_factors (parts : list str) : outcome (option (list RequestRuleGroup)) :=
  match parts with
  | [] => Ok (Some [])
  | part :: parts =>
      group ← tryParseRuleGroupFactor part;
      match group with
      | None => Ok None
      | Some group => groups ← parse_factors parts; Ok (option_map (cons group) groups)
      end
  end.

Definition tryParseRequestRuleExpr (expr : str) : outcome (option (list RequestRuleGroup)) :=
  let trimmed := trim expr in
  if negb (nonempty trimmed) then Ok (Some [])
  else parse_factors (splitTopLevelMultiply trimmed).

(** ** Splitting and combining *)

Definition unwrapOuterParens (expr : str) : str := unwrapExpressionParens expr.

(** Whether a factor is a request rule. *)
Definition is_rule_part (part : str) : outcome bool :=
  parsed ← tryParseRequestRuleExpr part;
  let traced := match compile part with
                | inl compiled =>
                    existsb (fun rule => same_node (cr_node rule) (ce_ast compiled))
                      (ce_requestRules compiled)
                | inr _ => false end in
  Ok (match parsed with Some (_ :: _) => true | _ => traced end).

Fixpoint partition_parts (parts : list str) : outcome (list str * list str) :=
  match parts with
  | [] => Ok ([], [])
  | part :: parts =>
      is_rule ← is_rule_part part;
      '(rules, bases) ← partition_parts parts;
      Ok (if (is_rule : bool) then (part :: rules, bases) else (rules, part :: bases))
  end.

(** The billing expression and the request-rule expression. *)
Definition splitBillingExprAndRequestRules (expr : str) : outcome (str * str) :=
  let trimmed := trim expr in
  if negb (nonempty trimmed) then Ok ([], [])
  else
    let parts := splitTopLevelMultiply trimmed in
    if (length parts <=? 1)%nat then Ok (trimmed, [])
    else
      '(ruleParts, baseParts) ← partition_parts parts;
      let quantityParts :=
        List.filter (fun part => str_eqb (unwrapOuterParens part) (u "image_count")) baseParts in
      if match ruleParts with [] => true | _ => false end
         || negb (Z.of_nat (length baseParts) - Z.of_nat (length quantityParts) =? 1)%Z
      then Ok (trimmed, [])
      else Ok (join (u " * ") (map unwrapOuterParens baseParts), join (u " * ") ruleParts).

Definition combineBillingExpr (baseExpr requestRuleExpr : str) : str :=
  let base := trim baseExpr in
  let rules := trim requestRuleExpr in
  if negb (nonempty base) then []
  else if negb (nonempty rules) then base
  else u "(" ++ base ++ u ") * " ++ rules.

Definition parseTaskTiersFromExpr (exprStr : str) (schema : BillingUsageSchema)
    (includeBooleanConditions : bool) : outcome (list TaskTier) :=
  if negb (nonempty exprStr) || match schema with [] => true | _ => false end then Ok []
  else
    '(billingExpr, _) ← splitBillingExprAndRequestRules exprStr;
    Ok (match compile billingExpr with
        | inr _ => []
        | inl compiled =>
            default [] (readTaskTierChain schema includeBooleanConditions (ce_ast compiled))
        end).
