(* ===== verification/RuleEditor.v ===== *)
(** * The request-rule editor's printer

    The editor half of [features/pricing/lib/billing-expr.ts]: empty rows, match
    options, [normalizeCondition] and the functions that build the text of
    request rules. *)

From Stdlib Require Import String.
From S2P Require Import Prelude JsNumber JsString JsText Ast Compile Request Structure Regex.
From S2P Require Import Json BillingExpr.

(** ** Empty rows *)

Definition createEmptyCondition : ParamHeaderCondition :=
  {| ph_source := From_param; ph_path := []; ph_mode := MATCH_EQ; ph_value := [] |}.
Definition createEmptyTimeCondition : TimeCondition :=
  {| tm_timeFunc := Time_hour; tm_timezone := u "Asia/Shanghai"; tm_mode := MATCH_GTE;
     tm_value := []; tm_rangeStart := []; tm_rangeEnd := [] |}.
Definition rule_group (conditions : list RequestCondition) (multiplier : str) : RequestRuleGroup :=
  {| rg_conditions := conditions; rg_multiplier := multiplier;
     rg_conditionText := None; rg_matched := None |}.
Definition createEmptyRuleGroup : RequestRuleGroup :=
  rule_group [OnRequest createEmptyCondition] [].
Definition createEmptyTimeRuleGroup : RequestRuleGroup :=
  rule_group [OnTime createEmptyTimeCondition] [].

(** ** Match options: mode and label *)

Definition getRequestRuleMatchOptions (source : str) : list (str * str) :=
  if str_eqb source SOURCE_TIME then
    [(MATCH_EQ, u "Equals"); (MATCH_GTE, u "Greater than or equal");
     (MATCH_LT, u "Less than"); (MATCH_RANGE, u "Overnight range")]
  else
    let base := [(MATCH_EQ, u "Equals"); (MATCH_CONTAINS, u "Contains");
                 (MATCH_EXISTS, u "Exists")] in
    if str_eqb source SOURCE_HEADER then base
    else base ++ [(MATCH_GT, u "Greater than"); (MATCH_GTE, u "Greater than or equal");
                  (MATCH_LT, u "Less than"); (MATCH_LTE, u "Less than or equal")].

Definition has_mode (source : str) (mode : option str) : option str :=
  match mode with
  | Some m => if one_of (map fst (getRequestRuleMatchOptions source)) m then Some m else None
  | None => None
  end.

(** ** [normalizeCondition] *)

(** [Partial<RequestCondition>]: any field may be missing. *)
Record PartialCondition : Type := {
  pc_source : option str;
  pc_timeFunc : option str;
  pc_timezone : option str;
  pc_path : option str;
  pc_mode : option str;
  pc_value : option str;
  pc_rangeStart : option str;
  pc_rangeEnd : option str;
}.

(** [s || d] *)
Definition or_default (s : option str) (d : str) : str :=
  match s with Some (c :: t) => c :: t | _ => d end.

Definition normalizeCondition (cond : PartialCondition) : RequestCondition :=
  if bool_decide (pc_source cond = Some SOURCE_TIME) then
    OnTime {| tm_timeFunc := default Time_hour (pc_timeFunc cond ≫= time_of_text);
              tm_timezone := or_default (pc_timezone cond) (u "Asia/Shanghai");
              tm_mode := default MATCH_GTE (has_mode SOURCE_TIME (pc_mode cond));
              tm_value := default [] (pc_value cond);
              tm_rangeStart := default [] (pc_rangeStart cond);
              tm_rangeEnd := default [] (pc_rangeEnd cond) |}
  else
    let source := if bool_decide (pc_source cond = Some SOURCE_HEADER)
                  then From_header else From_param in
    OnRequest {| ph_source := source;
                 ph_path := or_default (pc_path cond) [];
                 ph_mode := default MATCH_EQ (has_mode (source_text source) (pc_mode cond));
                 ph_value := default [] (pc_value cond) |}.

(** A full condition as an argument of [normalizeCondition]. *)
Definition partial_of (c : RequestCondition) : PartialCondition :=
  match c with
  | OnTime t =>
      {| pc_source := Some SOURCE_TIME; pc_timeFunc := Some (time_text (tm_timeFunc t));
         pc_timezone := Some (tm_timezone t); pc_path := None; pc_mode := Some (tm_mode t);
         pc_value := Some (tm_value t); pc_rangeStart := Some (tm_rangeStart t);
         pc_rangeEnd := Some (tm_rangeEnd t) |}
  | OnRequest c =>
      {| pc_source := Some (source_text (ph_source c)); pc_timeFunc := None;
         pc_timezone := None; pc_path := Some (ph_path c); pc_mode := Some (ph_mode c);
         pc_value := Some (ph_value c); pc_rangeStart := None; pc_rangeEnd := None |}
  end.

(** ** Printing *)

Definition buildExprLiteral (mode v : str) : str :=
  let text := trim v in
  if str_eqb mode MATCH_CONTAINS then json_string text
  else if str_eqb text (u "true") || str_eqb text (u "false") then text
  else if is_numeric_literal text then text
  else json_string text.

(** [buildTimeConditionExpr] on a normalized condition. *)
Definition build_time (normalized : TimeCondition) : str :=
  let timeFunc := tm_timeFunc normalized in
  let fn := time_text timeFunc ++ u "(" ++ json_string (tm_timezone normalized) ++ u ")" in
  if str_eqb (tm_mode normalized) MATCH_RANGE then
    let s := trim (tm_rangeStart normalized) in
    let e := trim (tm_rangeEnd normalized) in
    if negb (isTimeValueInRange timeFunc s) || negb (isTimeValueInRange timeFunc e) then []
    else if num_gtb (to_number s) (to_number e)
    then fn ++ u " >= " ++ s ++ u " || " ++ fn ++ u " < " ++ e
    else fn ++ u " >= " ++ s ++ u " && " ++ fn ++ u " < " ++ e
  else
    let v := trim (tm_value normalized) in
    if negb (isTimeValueInRange timeFunc v) then []
    else
      let op := if str_eqb (tm_mode normalized) MATCH_GTE then u ">="
                else if str_eqb (tm_mode normalized) MATCH_LT then u "<" else u "==" in
      fn ++ u " " ++ op ++ u " " ++ v.

Definition buildTimeConditionExpr (cond : TimeCondition) : str :=
  match normalizeCondition (partial_of (OnTime cond)) with
  | OnTime normalized => build_time normalized
  | OnRequest _ => []
  end.

Definition is_header (s : RequestSource) : bool :=
  match s with From_header => true | From_param => false end.

(** The comparison operators of the numeric modes. *)
Definition mode_operator (mode : str) : option str :=
  if str_eqb mode MATCH_GT then Some (u ">")
  else if str_eqb mode MATCH_GTE then Some (u ">=")
  else if str_eqb mode MATCH_LT then Some (u "<")
  else if str_eqb mode MATCH_LTE then Some (u "<=") else None.

(** [buildRequestConditionExpr] on a normalized condition. *)
Definition build_request (normalized : ParamHeaderCondition) : str :=
  let path := trim (ph_path normalized) in
  if negb (nonempty path) then []
  else
    let mode := ph_mode normalized in
    let header := is_header (ph_source normalized) in
    let sourceExpr := (if header then u "header(" else u "param(") ++ json_string path ++ u ")" in
    let literal := buildExprLiteral mode (ph_value normalized) in
    if str_eqb mode MATCH_EXISTS then
      if header then sourceExpr ++ u " != " ++ quoted [] else sourceExpr ++ u " != nil"
    else if str_eqb mode MATCH_CONTAINS then
      if header then u "has(" ++ sourceExpr ++ u ", " ++ literal ++ u ")"
      else sourceExpr ++ u " != nil && has(" ++ sourceExpr ++ u ", " ++ literal ++ u ")"
    else
      match mode_operator mode with
      | Some op =>
          let numText := trim (ph_value normalized) in
          if negb (is_numeric_literal numText) then []
          else sourceExpr ++ u " != nil && " ++ sourceExpr ++ u " " ++ op ++ u " " ++ numText
      | None => sourceExpr ++ u " == " ++ literal
      end.

Definition buildRequestConditionExpr (cond : RequestCondition) : str :=
  match cond with
  | OnTime t => buildTimeConditionExpr t
  | OnRequest c =>
      match normalizeCondition (partial_of (OnRequest c)) with
      | OnRequest normalized => build_request normalized
      | OnTime _ => []
      end
  end.

Definition buildRuleGroupFactor (group : RequestRuleGroup) : str :=
  let multiplier := trim (rg_multiplier group) in
  if negb (is_numeric_literal multiplier) then []
  else
    let condExprs :=
      List.filter nonempty (map buildRequestConditionExpr (rg_conditions group)) in
    let combined :=
      match condExprs with
      | [e] => e
      | _ => join (u " && ")
               (map (fun e => if includes e (u " || ") then u "(" ++ e ++ u ")" else e) condExprs)
      end in
    match condExprs with
    | [] => []
    | _ => u "(" ++ combined ++ u " ? " ++ multiplier ++ u " : 1)"
    end.

Definition buildRequestRuleExpr (groups : list RequestRuleGroup) : str :=
  join (u " * ") (List.filter nonempty (map buildRuleGroupFactor groups)).
