(* ===== verification/TaskExpr.v ===== *)
(** * Task pricing: matrices, visual rows and previews

    [features/pricing/lib/task-expr.ts].  A missing schema is the empty one.
    [localeCompare] belongs to the host: the class [Collation].  The previews
    evaluate through [evaluateCompiled]; [clock] is what [new Date()] reads. *)

From Stdlib Require Import String.
From S2P Require Import Prelude JsNumber JsString JsText Ast Parser Compile Request.
From S2P Require Import BillingTime Runtime Structure Display Regex Json BillingExpr.

(** [a.localeCompare(b) <= 0] *)
Class Collation : Type := locale_leb : str -> str -> bool.

Definition TASK_TOKEN_PRICE_SCALE : number := million.

Record TaskVisualTier : Type := {
  tv_label : str;
  tv_conditions : list TaskCondition;
  tv_constant : number;
  tv_unitPrices : list (str * number);
}.
Abbreviation TaskVisualConfig := (list TaskVisualTier).

Record TaskMatrixRow : Type := {
  mr_combination : list (str * str);
  mr_constant : number;
  mr_unitPrices : list (str * number);
}.
Abbreviation TaskMatrixConfig := (list TaskMatrixRow).

Inductive PreviewPart : Type :=
| Part_constant (amount : number)
| Part_usage (field : str) (amount quantity unitPrice : number).

Record TaskPreviewResult : Type := {
  pr_tier : TaskVisualTier;
  pr_total : number;
  pr_parts : list PreviewPart;
}.

Section task_expr.
Context `{Collation}.

(** [.sort(([left], [right]) => left.localeCompare(right))] *)
Fixpoint insert_by_key {A} (e : str * A) (l : list (str * A)) : list (str * A) :=
  match l with
  | [] => [e]
  | d :: l => if locale_leb e.1 d.1 then e :: d :: l else d :: insert_by_key e l
  end.
Definition sort_by_key {A} (l : list (str * A)) : list (str * A) := foldr insert_by_key [] l.

Definition is_number_field (f : BillingUsageFieldSchema) : bool :=
  match f_type f, f_unit f with Some F_number, Some _ => true | _, _ => false end.
Definition is_enum_field (f : BillingUsageFieldSchema) : bool :=
  match f_enum f with Some (_ :: _) => true | _ => false end.

Definition getTaskNumberFields (schema : BillingUsageSchema)
  : list (str * BillingUsageFieldSchema) :=
  sort_by_key (List.filter (fun e => is_number_field e.2) schema).
Definition getTaskEnumFields (schema : BillingUsageSchema)
  : list (str * BillingUsageFieldSchema) :=
  sort_by_key (List.filter (fun e => is_enum_field e.2) schema).

Definition getTaskEnumCombinations (schema : BillingUsageSchema) : list (list (str * str)) :=
  fold_left (fun combinations e =>
    flat_map (fun combination =>
      map (fun v => assoc_set e.1 v combination) (default [] (f_enum e.2))) combinations)
    (getTaskEnumFields schema) [[]].

(** [Object.fromEntries(getTaskNumberFields(schema).map(([field]) => [field, 0]))] *)
Definition zero_prices (schema : BillingUsageSchema) : list (str * number) :=
  map (fun e => (e.1, zero)) (getTaskNumberFields schema).

Definition createDefaultTaskVisualConfig (schema : BillingUsageSchema) : TaskVisualConfig :=
  [{| tv_label := u "base"; tv_conditions := []; tv_constant := zero;
      tv_unitPrices := zero_prices schema |}].

Definition createDefaultTaskMatrixConfig (schema : BillingUsageSchema) : TaskMatrixConfig :=
  map (fun combination =>
    {| mr_combination := combination; mr_constant := zero; mr_unitPrices := zero_prices schema |})
    (getTaskEnumCombinations schema).

(** The separator is U+00B7. *)
Definition taskMatrixRowLabel (combination : list (str * str)) : str :=
  match map snd (sort_by_key combination) with
  | [] => u "base"
  | values => join [183%N] values
  end.

(** [a === b] on numbers that may be [undefined]. *)
Definition same_number (a b : option number) : bool :=
  match a, b with
  | Some x, Some y => num_eqb x y
  | None, None => true
  | _, _ => false
  end.

Definition prices_of (numberFields : list (str * BillingUsageFieldSchema))
    (unitPrices : list (str * number)) : list (str * number) :=
  map (fun e => (e.1, default zero (assoc_get e.1 unitPrices))) numberFields.

Definition is_uniform (numberFields : list (str * BillingUsageFieldSchema))
    (firstRow : TaskMatrixRow) (rows : list TaskMatrixRow) : bool :=
  forallb (fun row =>
    num_eqb (mr_constant row) (mr_constant firstRow)
    && forallb (fun e => same_number (assoc_get e.1 (mr_unitPrices row))
                           (assoc_get e.1 (mr_unitPrices firstRow))) numberFields) rows.

(** [rows.map((row, index) => ...)]: the last row has no conditions. *)
Fixpoint matrix_tiers (numberFields : list (str * BillingUsageFieldSchema))
    (rows : list TaskMatrixRow) : list TaskVisualTier :=
  match rows with
  | [] => []
  | row :: rest =>
      {| tv_label := taskMatrixRowLabel (mr_combination row);
         tv_conditions :=
           match rest with
           | [] => []
           | _ => map (fun e => TaskCond e.1 e.2) (sort_by_key (mr_combination row))
           end;
         tv_constant := mr_constant row;
         tv_unitPrices := prices_of numberFields (mr_unitPrices row) |}
      :: matrix_tiers numberFields rest
  end.

Definition taskMatrixToTiers (config : TaskMatrixConfig) (schema : BillingUsageSchema)
  : list TaskVisualTier :=
  let numberFields := getTaskNumberFields schema in
  match numberFields, config with
  | [], _ | _, [] => []
  | _, firstRow :: _ =>
      if is_uniform numberFields firstRow config then
        [{| tv_label := u "base"; tv_conditions := []; tv_constant := mr_constant firstRow;
            tv_unitPrices := prices_of numberFields (mr_unitPrices firstRow) |}]
      else matrix_tiers numberFields config
  end.

(** All conditions hold for a combination of enum values. *)
Definition covers (combination : list (str * str)) (conditions : list TaskCondition) : bool :=
  forallb (fun c => bool_decide (assoc_get (tk_field c) combination = Some (tk_value c))) conditions.

(** [new Set(fields).size === fields.length] *)
Definition distinct (l : list str) : bool :=
  bool_decide (length (fold_left (fun s x => set_add x s) l []) = length l).

Definition matrix_row (numberFields : list (str * BillingUsageFieldSchema)) (tiers : list TaskTier)
    (fallbackTier : TaskTier) (combination : list (str * str)) : TaskMatrixRow :=
  let tier := default fallbackTier
    (List.find (fun candidate => covers combination (task_conditions candidate)) tiers) in
  {| mr_combination := combination; mr_constant := task_constant tier;
     mr_unitPrices := prices_of numberFields (task_unitPrices tier) |}.

Definition tryParseTaskMatrixConfig (expression : str) (schema : BillingUsageSchema)
  : outcome (option TaskMatrixConfig) :=
  if negb (nonempty expression) then Ok None
  else
    tiers ← parseTaskTiersFromExpr expression schema false;
    Ok (match list.last tiers with
        | None => None
        | Some fallbackTier =>
        if match task_conditions fallbackTier with [] => false | _ => true end then None
        else if negb (forallb (fun tier => distinct (map tk_field (task_conditions tier))) tiers)
        then None
        else Some (map (matrix_row (getTaskNumberFields schema) tiers fallbackTier)
                     (getTaskEnumCombinations schema))
        end).

(** ** Previews *)

Abbreviation sample := (list (str * value)).

(** [sample[field] === value] *)
Definition sample_is (s : sample) (c : TaskCondition) : bool :=
  match assoc_get (tk_field c) s with
  | Some (VString text) => str_eqb text (tk_value c)
  | _ => false
  end.

(** [Number(v)] of a number, a text or a missing value. *)
Definition number_of (v : option value) : number :=
  match v with
  | Some (VNumber x) => x
  | Some (VString text) => to_number text
  | _ => NaN
  end.

Fixpoint select_tier (tiers : list TaskVisualTier) (s : sample) : option TaskVisualTier :=
  match tiers with
  | [] => None
  | [fallback] => Some fallback
  | tier :: tiers => if forallb (sample_is s) (tv_conditions tier) then Some tier
                     else select_tier tiers s
  end.

Definition is_amount_number (x : number) : bool := num_is_finite x && negb (num_ltb x zero).

Definition is_token_field (schema : BillingUsageSchema) (field : str) : bool :=
  match assoc_get field schema with
  | Some f => bool_decide (f_unit f = Some U_token)
  | None => false
  end.

(** The loop over the unit prices; [None] returns [null]. *)
Fixpoint usage_parts (s : sample) (schema : BillingUsageSchema) (prices : list (str * number))
  : option (list PreviewPart) :=
  match prices with
  | [] => Some []
  | (field, unitPrice) :: prices =>
      if negb (is_amount_number unitPrice) then None
      else if num_eqb unitPrice zero then usage_parts s schema prices
      else
        let quantity := number_of (assoc_get field s) in
        if negb (is_amount_number quantity) then None
        else
          let amount := if is_token_field schema field
                        then num_div (num_mul quantity unitPrice) TASK_TOKEN_PRICE_SCALE
                        else num_mul quantity unitPrice in
          if negb (num_is_finite amount) then None
          else parts ← usage_parts s schema prices;
               Some (Part_usage field amount quantity unitPrice :: parts)
  end.

Definition part_term (schema : BillingUsageSchema) (part : PreviewPart) : option str :=
  match part with
  | Part_usage field _ _ unitPrice =>
      if nonempty field then
        Some (u "u(" ++ json_string field ++ u ") * " ++ number_to_string unitPrice
                ++ (if is_token_field schema field then u " / 1000000" else []))
      else None
  | Part_constant _ => None
  end.
Definition part_usage (usage : sample) (part : PreviewPart) : sample :=
  match part with
  | Part_usage field _ quantity _ =>
      if nonempty field then assoc_set field (VNumber quantity) usage else usage
  | Part_constant _ => usage
  end.

(** The expression the preview evaluates. *)
Definition preview_expression (tier : TaskVisualTier) (schema : BillingUsageSchema)
    (parts : list PreviewPart) : str :=
  u "tier(" ++ json_string (tv_label tier) ++ u ", "
    ++ join (u " + ") (number_to_string (tv_constant tier) :: omap (part_term schema) parts) ++ u ")".

Definition usage_context (usage : sample) : BillingSimulationContext :=
  {| ctx_imageCount := None; ctx_tokens := None; ctx_request := None;
     ctx_usage := Some usage; ctx_now := None |}.

Definition evaluateTaskVisualConfig `{Host} (clock : Z) (config : TaskVisualConfig) (s : sample)
    (schema : BillingUsageSchema) : option TaskPreviewResult :=
  matchedTier ← select_tier config s;
  let constant := tv_constant matchedTier in
  if negb (is_amount_number constant) then None
  else
    usage ← usage_parts s schema (tv_unitPrices matchedTier);
    let parts := (if num_gtb constant zero then [Part_constant constant] else []) ++ usage in
    match compile (preview_expression matchedTier schema parts) with
    | inr _ => None
    | inl compiled =>
        match evaluateCompiled clock compiled
                (usage_context (fold_left part_usage parts s)) with
        | inl result => Some {| pr_tier := matchedTier; pr_total := be_cost result; pr_parts := parts |}
        | inr _ => None
        end
    end.

(** ** Normalization and printing *)

Definition amount_or_zero (x : number) : number :=
  if num_is_finite x && num_geb x zero then x else zero.

Definition index_label (index : nat) : str :=
  if (index =? 0)%nat then u "base"
  else u "tier_" ++ number_to_string (of_Z (Z.of_nat index + 1)).

Definition normalize_tier (schema : BillingUsageSchema) (index : nat) (tier : TaskVisualTier)
  : TaskVisualTier :=
  {| tv_label := if nonempty (tv_label tier) then tv_label tier else index_label index;
     tv_conditions :=
       List.filter (fun c =>
         match assoc_get (tk_field c) (getTaskEnumFields schema) with
         | Some f => one_of (default [] (f_enum f)) (tk_value c)
         | None => false
         end) (tv_conditions tier);
     tv_constant := amount_or_zero (tv_constant tier);
     tv_unitPrices :=
       map (fun e => (e.1, amount_or_zero (default NaN (assoc_get e.1 (tv_unitPrices tier)))))
         (getTaskNumberFields schema) |}.

Definition normalizeTaskVisualConfig (config : TaskVisualConfig) (schema : BillingUsageSchema)
  : TaskVisualConfig :=
  match config with
  | [] => createDefaultTaskVisualConfig schema
  | _ => imap (normalize_tier schema) config
  end.

Definition price_part (tier : TaskVisualTier) (e : str * BillingUsageFieldSchema) : str :=
  let price := default zero (assoc_get e.1 (tv_unitPrices tier)) in
  u "u(" ++ json_string e.1 ++ u ") * " ++ number_to_string price
    ++ (if bool_decide (f_unit e.2 = Some U_token)
        then u " / " ++ number_to_string TASK_TOKEN_PRICE_SCALE else []).

Definition generateTaskTierBody (tier : TaskVisualTier)
    (numberFields : list (str * BillingUsageFieldSchema)) : str :=
  join (u " + ")
    ((if num_gtb (tv_constant tier) zero then [number_to_string (tv_constant tier)] else [])
     ++ map (price_part tier) numberFields).

Definition generateTaskTierCall (tier : TaskVisualTier)
    (numberFields : list (str * BillingUsageFieldSchema)) : str :=
  u "tier(" ++ json_string (tv_label tier) ++ u ", " ++ generateTaskTierBody tier numberFields
    ++ u ")".

Definition generateTaskCondition (conditions : list TaskCondition) : str :=
  join (u " && ")
    (map (fun c => u "u(" ++ json_string (tk_field c) ++ u ") == " ++ json_string (tk_value c))
       conditions).

(** The loop over the tiers; [None] returns the empty text. *)
Fixpoint generate_parts (numberFields : list (str * BillingUsageFieldSchema))
    (tiers : list TaskVisualTier) : option (list str) :=
  match tiers with
  | [] => Some []
  | tier :: rest =>
      let call := generateTaskTierCall tier numberFields in
      match rest with
      | [] => Some [call]
      | _ =>
          let condition := generateTaskCondition (tv_conditions tier) in
          if negb (nonempty condition) then None
          else parts ← generate_parts numberFields rest;
               Some ((condition ++ u " ? " ++ call) :: parts)
      end
  end.

Definition generateTaskExprFromConfig (config : TaskVisualConfig) (schema : BillingUsageSchema)
  : str :=
  let numberFields := getTaskNumberFields schema in
  match numberFields with
  | [] => []
  | _ =>
      match normalizeTaskVisualConfig config schema with
      | [tier] => generateTaskTierCall tier numberFields
      | tiers =>
          match generate_parts numberFields tiers with
          | Some parts => join (u " : ") parts
          | None => []
          end
      end
  end.

Definition visual_tier (tier : TaskTier) : TaskVisualTier :=
  {| tv_label := task_label tier; tv_conditions := task_conditions tier;
     tv_constant := task_constant tier; tv_unitPrices := task_unitPrices tier |}.

Definition tryParseTaskVisualConfig (expression : str) (schema : BillingUsageSchema)
  : outcome (option TaskVisualConfig) :=
  if negb (nonempty expression) then Ok None
  else
    tiers ← parseTaskTiersFromExpr expression schema false;
    Ok (match tiers with
        | [] => None
        | _ => Some (normalizeTaskVisualConfig (map visual_tier tiers) schema)
        end).

(** Labels and totals of the examples that can be evaluated. *)
Definition evaluateTaskUsageExamples `{Host} (clock : Z) (expression : str)
    (schema : BillingUsageSchema) (examples : list (str * sample)) : outcome (list (str * number)) :=
  if negb (nonempty expression) || match examples with [] => true | _ => false end then Ok []
  else
    '(billingExpr, _) ← splitBillingExprAndRequestRules expression;
    config ← tryParseTaskVisualConfig billingExpr schema;
    Ok (match config with
        | None => []
        | Some config =>
            omap (fun example : str * sample =>
              match evaluateTaskVisualConfig clock config example.2 schema with
              | Some result => Some (example.1, pr_total result)
              | None => None
              end) examples
        end).
End task_expr.
