(* ===== verification/Visual.v ===== *)
(** * The visual document of an expression

    [billing-expression/visual.ts]: an editable tree that remembers, for each
    part, the node of the source it was read from, and a printer that reuses
    the source text of untouched parts.  The list of issues the printer fills
    is returned beside the text; [===] on nodes is [same_node]. *)

From Stdlib Require Import String.
From S2P Require Import Prelude JsNumber JsString JsText Ast Parser Compile Request.
From S2P Require Import BillingTime Runtime Display Regex.

(** ** Data *)

Inductive VisualProbe : Type := Probe_variable (v : BillingVariable) | Probe_time (t : TimeFunction).

Definition probe_text (p : VisualProbe) : str :=
  match p with Probe_variable v => variable_text v | Probe_time t => time_text t end.

(** [Origin]: an identifier and the node it was read from. *)
Record Origin : Type := { or_id : str; or_node : option ExpressionNode }.

(** [VComparison] is the constructor of [VisualComparison]; [VGroup true] is
    [all], [VGroup false] is [any]. *)
Inductive VisualCondition : Type :=
| VComparison (origin : Origin) (probe : VisualProbe) (timezone : str)
    (operator : BinaryOperator) (value : str)
| VGroup (all : bool) (origin : Origin) (children : list VisualCondition)
| VNot (origin : Origin) (child : VisualCondition).

Definition condition_origin (c : VisualCondition) : option ExpressionNode :=
  match c with
  | VComparison o _ _ _ _ | VGroup _ o _ | VNot o _ => or_node o
  end.

Record VisualPrice : Type := {
  vp_variable : BillingVariable;
  vp_value : str;
  vp_origin : option ExpressionNode;
}.

Inductive VisualPricingNode : Type :=
| VTier (origin : Origin) (label : str) (prices : list VisualPrice) (billingUnit : BillingUnit)
    (fixedPrice : str)
| VBranch (origin : Origin) (condition : VisualCondition) (yes no : VisualPricingNode).

Record VisualBillingDocument : Type := { doc_source : str; doc_root : VisualPricingNode }.
Record VisualBillingIssue : Type := Issue { issue_id : str; issue_message : str }.

Definition pricing_id (n : VisualPricingNode) : str :=
  match n with VTier o _ _ _ _ | VBranch o _ _ _ => or_id o end.

Definition is_comparison (o : BinaryOperator) : bool :=
  match o with Op_lt | Op_le | Op_gt | Op_ge | Op_eq | Op_ne => true | _ => false end.

Definition TIME_DOMAINS (t : TimeFunction) : Z * Z :=
  match t with
  | Time_hour => (0, 23) | Time_minute => (0, 59) | Time_weekday => (0, 6)
  | Time_month => (1, 12) | Time_day => (1, 31)
  end%Z.

Definition nat_text (n : nat) : str := number_to_string (of_Z (Z.of_nat n)).

(** [nextId] is a global counter: the identifier and the counter behind it. *)
Definition visualNodeId (nextId : nat) : str * nat := (u "draft-" ++ nat_text (S nextId), S nextId).

Definition createEmptyVisualCondition (nextId : nat) : VisualCondition * nat :=
  let '(id, nextId) := visualNodeId nextId in
  (VComparison {| or_id := id; or_node := None |} (Probe_time Time_hour) (u "Asia/Shanghai") Op_ge [],
   nextId).

(** ** Reading *)

Definition identity (prefix : str) (node : ExpressionNode) : Origin :=
  {| or_id := prefix ++ nat_text (node_start node) ++ u "-" ++ nat_text (node_end node);
     or_node := Some node |}.

(** The left side of a comparison. *)
Definition read_probe (left_ : ExpressionNode) : option (VisualProbe * str) :=
  match left_ with
  | Variable_ name _ _ =>
      if is_condition_variable name then Some (Probe_variable name, []) else None
  | Call (Fn_time t) (Literal (LString zone) _ _ _ :: _) _ _ => Some (Probe_time t, zone)
  | _ => None
  end.

(** The children of a group are lower than the group: the height of the node
    bounds the recursion. *)
Fixpoint read_condition (fuel : nat) (node : ExpressionNode) : option VisualCondition :=
  match fuel with
  | O => None
  | S fuel =>
      let id := identity (u "condition-") node in
      match node with
      | Unary Un_not operand _ _ => VNot id <$> read_condition fuel operand
      | Binary Op_and _ _ _ _ =>
          VGroup true id <$> map_option (read_condition fuel) (flattenBinary node Op_and)
      | Binary Op_or _ _ _ _ =>
          VGroup false id <$> map_option (read_condition fuel) (flattenBinary node Op_or)
      | Binary operator left_ (Literal (LNumber v) _ _ _) _ _ =>
          if is_comparison operator then
            '(probe, timezone) ← read_probe left_;
            Some (VComparison id probe timezone operator (number_to_string v))
          else None
      | _ => None
      end
  end.
Definition readVisualCondition (node : ExpressionNode) : option VisualCondition :=
  read_condition (S (node_height node)) node.

(** One turn of the loop over the terms of a price. *)
Definition read_price (term : ExpressionNode) : option VisualPrice :=
  match term with
  | Binary Op_mul (Variable_ name _ _) (Literal (LNumber v) _ _ _) _ _ =>
      match name with
      | Var_len | Var_image_count => None
      | _ => if num_ltb v zero then None
             else Some {| vp_variable := name; vp_value := number_to_string v;
                          vp_origin := Some term |}
      end
  | _ => None
  end.
Fixpoint read_prices (terms : list ExpressionNode) (prices : list VisualPrice)
  : option (list VisualPrice) :=
  match terms with
  | [] => Some prices
  | term :: terms =>
      price ← read_price term;
      if existsb (fun p => bool_decide (vp_variable p = vp_variable price)) prices then None
      else read_prices terms (prices ++ [price])
  end.

Definition literal_text_of (v : LiteralValue) : str :=
  match v with
  | LString s => s | LNumber x => number_to_string x
  | LBoolean b => boolean_text b | LNull => u "null"
  end.

Fixpoint readVisualPricing (node : ExpressionNode) : option VisualPricingNode :=
  let id := identity (u "pricing-") node in
  match node with
  | Conditional condition yes no _ _ =>
      condition ← readVisualCondition condition;
      yes ← readVisualPricing yes;
      no ← readVisualPricing no;
      Some (VBranch id condition yes no)
  | Call Fn_tier (Literal (LString label) _ _ _ :: body :: _) _ _ =>
      match body with
      | Call Fn_fixed (Literal v _ _ _ :: _) _ _ =>
          Some (VTier id label [] Unit_request (literal_text_of v))
      | _ =>
          prices ← read_prices (flattenBinary body Op_add) [];
          Some (VTier id label prices Unit_token [])
      end
  | _ => None
  end.

(** ** Writing *)

Record Patch : Type := { patch_node : ExpressionNode; patch_text : str }.

(** [[...patches].sort((a, b) => b.node.start - a.node.start)] *)
Fixpoint insert_patch (p : Patch) (l : list Patch) : list Patch :=
  match l with
  | [] => [p]
  | q :: l =>
      if (node_start (patch_node q) <=? node_start (patch_node p))%nat
      then p :: q :: l else q :: insert_patch p l
  end.
Definition sort_patches (l : list Patch) : list Patch := foldr insert_patch [] l.

(** One replacement in the text of [origin]. *)
Definition apply_patch (origin : ExpressionNode) (result : str) (p : Patch) : str :=
  take (node_start (patch_node p) - node_start origin) result
    ++ patch_text p ++ drop (node_end (patch_node p) - node_start origin) result.

Definition patchSource (source : str) (origin : ExpressionNode) (patches : list Patch) : str :=
  fold_left (apply_patch origin) (sort_patches patches)
    (slice source (node_start origin) (node_end origin)).

Definition span_text (source : str) (node : ExpressionNode) : str :=
  slice source (node_start node) (node_end node).

(** The pattern of the test is the lexer's pattern of numbers, anchored. *)
Definition is_unsigned_decimal (text : str) : bool :=
  match scan_decimal text with Some (_, []) => true | _ => false end.

Definition parseNonNegativeNumber (text : str) : option number :=
  if negb (is_unsigned_decimal (trim text)) then None
  else
    let x := to_number text in
    if num_is_finite x && num_geb x zero then Some x else None.

(** Text and issues, in the order they are reported. *)
Abbreviation written := (str * list VisualBillingIssue)%type.

(** [value === node.value] for a value that may be [null] *)
Definition same_literal (v : option number) (node : ExpressionNode) : bool :=
  match v, node with
  | Some x, Literal (LNumber y) _ _ _ => num_eqb x y
  | None, Literal LNull _ _ _ => true
  | _, _ => false
  end.
Definition is_literal (node : ExpressionNode) : bool :=
  match node with Literal _ _ _ _ => true | _ => false end.
Definition is_text_literal (text : str) (node : ExpressionNode) : bool :=
  match node with Literal (LString s) _ _ _ => str_eqb s text | _ => false end.

Definition same_origin (a : option ExpressionNode) (b : ExpressionNode) : bool :=
  match a with Some a => same_node a b | None => false end.

(** [l.length === m.length && l.every((x, i) => f(m[i], x))] *)
Fixpoint forallb2 {A B} (f : A -> B -> bool) (l : list A) (m : list B) : bool :=
  match l, m with
  | [], [] => true
  | x :: l, y :: m => f x y && forallb2 f l m
  | _, _ => false
  end.

Section write.
Context `{Host} (source : str).

(** [node.timezone !== originalZone] *)
Definition zone_changed (origin : option ExpressionNode) (timezone : str) : bool :=
  match origin with
  | Some (Binary _ (Call _ (Literal (LString zone) _ _ _ :: _) _ _) _ _ _) =>
      negb (str_eqb timezone zone)
  | _ => true
  end.
Definition zone_valid (timezone : str) : bool :=
  nonempty (trim timezone)
  && match DateTimeFormat (trim timezone) with Some _ => true | None => false end.

Definition comparison_issues (origin : Origin) (probe : VisualProbe) (timezone : str)
    (operator : BinaryOperator) (v : option number) : list VisualBillingIssue :=
  let valid :=
    match v, probe with
    | None, _ => false
    | Some _, Probe_variable _ => true
    | Some x, Probe_time t =>
        let '(lo, hi) := TIME_DOMAINS t in
        num_is_integer x && num_geb x (of_Z lo)
        && num_leb x (of_Z (hi + if bool_decide (operator = Op_lt) then 1 else 0))
    end in
  (if valid then [] else [Issue (or_id origin) (u "Enter a valid condition value.")])
  ++ match probe with
     | Probe_variable _ => []
     | Probe_time _ =>
         if zone_changed (or_node origin) timezone && negb (zone_valid timezone)
         then [Issue (or_id origin) (u "Choose a valid IANA timezone.")] else []
     end.

Definition probe_plain (probe : VisualProbe) (timezone : str) : str :=
  match probe with
  | Probe_variable v => variable_text v
  | Probe_time t => time_text t ++ u "(" ++ json_string timezone ++ u ")"
  end.

(** The text of a probe, from the source when it is unchanged. *)
Definition probe_written (oldProbe : ExpressionNode) (probe : VisualProbe) (timezone : str) : str :=
  let text := probe_plain probe timezone in
  match oldProbe, probe with
  | Variable_ name _ _, Probe_variable v =>
      if bool_decide (name = v) then span_text source oldProbe else text
  | Call (Fn_time t') (arg :: _) _ _, Probe_time t =>
      if bool_decide (t' = t) && is_text_literal timezone arg
      then span_text source oldProbe else text
  | _, _ => text
  end.

Definition write_comparison (origin : Origin) (probe : VisualProbe) (timezone : str)
    (operator : BinaryOperator) (text : str) : written :=
  let v := parseNonNegativeNumber text in
  let plain := u "(" ++ probe_plain probe timezone ++ u " " ++ operator_text operator
                 ++ u " " ++ text ++ u ")" in
  (match or_node origin with
   | Some (Binary o oldProbe right_ _ _ as node) =>
       if bool_decide (o = operator) then
         patchSource source node
           [{| patch_node := oldProbe; patch_text := probe_written oldProbe probe timezone |};
            {| patch_node := right_;
               patch_text := if is_literal right_ && same_literal v right_
                             then span_text source right_ else text |}]
       else plain
   | _ => plain
   end, comparison_issues origin probe timezone operator v).

Fixpoint writeVisualCondition (node : VisualCondition) : written :=
  match node with
  | VNot origin child =>
      let '(text, issues) := writeVisualCondition child in
      (match or_node origin with
       | Some (Unary _ operand _ _ as n) =>
           if same_origin (condition_origin child) operand
           then patchSource source n [{| patch_node := operand; patch_text := text |}]
           else u "!(" ++ text ++ u ")"
       | _ => u "!(" ++ text ++ u ")"
       end, issues)
  | VGroup all origin children =>
      let results := map writeVisualCondition children in
      let texts := map fst results in
      let operator := if all then Op_and else Op_or in
      let plain := u "(" ++ join (u " " ++ operator_text operator ++ u " ")
                     (map (fun t => u "(" ++ t ++ u ")") texts) ++ u ")" in
      (match or_node origin with
       | Some (Binary o _ _ _ _ as n) =>
           if bool_decide (o = operator) then
             let original := flattenBinary n operator in
             if forallb2 (fun n c => same_origin (condition_origin c) n) original children
             then patchSource source n
                    (zip_with (fun n t => {| patch_node := n; patch_text := t |}) original texts)
             else plain
           else plain
       | _ => plain
       end,
       match children with
       | [] => [Issue (or_id origin) (u "Add at least one condition to this group.")]
       | _ => []
       end ++ flat_map snd results)
  | VComparison origin probe timezone operator text =>
      write_comparison origin probe timezone operator text
  end.

Definition visualConditionExpression (node : VisualCondition) : option str :=
  match writeVisualCondition node with
  | (text, []) => Some text
  | _ => None
  end.

Definition price_issue (id suffix : str) : VisualBillingIssue :=
  Issue (id ++ u ":" ++ suffix) (u "Enter a finite, non-negative price.").

(** The text of a label: the source's when it is unchanged. *)
Definition label_written (node : ExpressionNode) (label : str) : str :=
  if is_text_literal label node then span_text source node else json_string label.

Definition write_fixed (origin : Origin) (label fixedPrice : str) : written :=
  let v := parseNonNegativeNumber fixedPrice in
  let issues := match v with
                | Some x => if num_is_finite (num_mul x million) then []
                            else [price_issue (or_id origin) (u "fixed")]
                | None => [price_issue (or_id origin) (u "fixed")] end in
  (match or_node origin with
   | Some (Call Fn_tier (label_node :: price :: _) _ _ as n) =>
       let priceText :=
         match price with
         | Call Fn_fixed ((Literal _ _ _ _ as amount) :: _) _ _ =>
             let text := if same_literal v amount then span_text source amount else fixedPrice in
             patchSource source price [{| patch_node := amount; patch_text := text |}]
         | _ => u "fixed(" ++ fixedPrice ++ u ")"
         end in
       patchSource source n
         [{| patch_node := label_node; patch_text := label_written label_node label |};
          {| patch_node := price; patch_text := priceText |}]
   | _ => u "tier(" ++ json_string label ++ u ", fixed(" ++ fixedPrice ++ u "))"
   end, issues).

(** One price: its term, the patch of its value, its issues. *)
Definition write_price (id : str) (price : VisualPrice)
  : str * list Patch * list VisualBillingIssue :=
  let v := parseNonNegativeNumber (vp_value price) in
  let issues := match v with
                | Some _ => []
                | None => [price_issue id (variable_text (vp_variable price))] end in
  match vp_origin price with
  | Some (Binary _ _ (Literal _ _ _ _ as right_) _ _ as n) =>
      let text := if same_literal v right_ then span_text source right_ else vp_value price in
      let patch := {| patch_node := right_; patch_text := text |} in
      (patchSource source n [patch], [patch], issues)
  | _ => (variable_text (vp_variable price) ++ u " * " ++ vp_value price, [], issues)
  end.

Definition write_tokens (origin : Origin) (label : str) (prices : list VisualPrice) : written :=
  let results := map (write_price (or_id origin)) prices in
  let terms := map (fun r => r.1.1) results in
  let valuePatches := flat_map (fun r => r.1.2) results in
  let issues :=
    match prices with
    | [] => [Issue (or_id origin) (u "Include at least one price variable.")]
    | _ => []
    end ++ flat_map snd results in
  (match or_node origin with
   | Some (Call Fn_tier (label_node :: body :: _) _ _ as n) =>
       let label_patch :=
         {| patch_node := label_node; patch_text := label_written label_node label |} in
       let original := flattenBinary body Op_add in
       if forallb2 (fun term p => same_origin (vp_origin p) term) original prices
       then patchSource source n (label_patch :: valuePatches)
       else patchSource source n
              [label_patch; {| patch_node := body; patch_text := join (u " + ") terms |}]
   | _ => u "tier(" ++ json_string label ++ u ", " ++ join (u " + ") terms ++ u ")"
   end, issues).

Fixpoint writeVisualPricing (node : VisualPricingNode) : written :=
  match node with
  | VBranch origin condition yes no =>
      let '(condition_text, issues1) := writeVisualCondition condition in
      let '(yes_text, issues2) := writeVisualPricing yes in
      let '(no_text, issues3) := writeVisualPricing no in
      (match or_node origin with
       | Some (Conditional c y m _ _ as n) =>
           patchSource source n
             [{| patch_node := c; patch_text := condition_text |};
              {| patch_node := y; patch_text := yes_text |};
              {| patch_node := m; patch_text := no_text |}]
       | _ => u "(" ++ condition_text ++ u ") ? (" ++ yes_text ++ u ") : (" ++ no_text ++ u ")"
       end, issues1 ++ issues2 ++ issues3)
  | VTier origin label prices Unit_request fixedPrice => write_fixed origin label fixedPrice
  | VTier origin label prices Unit_token _ => write_tokens origin label prices
  end.
End write.

Definition is_ready (r : CompilationResult) : bool :=
  match r with inl _ => true | inr _ => false end.

Definition serializeVisualBillingDocument `{Host} (document : VisualBillingDocument)
  : str + list VisualBillingIssue :=
  let '(body, issues) := writeVisualPricing (doc_source document) (doc_root document) in
  match issues with
  | _ :: _ => inr issues
  | [] =>
      match compile (doc_source document) with
      | inr _ =>
          inr [Issue (pricing_id (doc_root document))
                 (u "This expression cannot be edited visually without losing information.")]
      | inl original =>
          let source :=
            take (node_start (ce_ast original)) (doc_source document)
              ++ body ++ drop (node_end (ce_ast original)) (doc_source document) in
          if is_ready (compile source) then inl source
          else inr [Issue (pricing_id (doc_root document)) (u "Enter a valid condition value.")]
      end
  end.

Definition parseVisualBillingDocument `{Host} (source : str) : option VisualBillingDocument :=
  match compile source with
  | inr _ => None
  | inl compiled =>
      root ← readVisualPricing (ce_ast compiled);
      let document := {| doc_source := source; doc_root := root |} in
      match serializeVisualBillingDocument document with
      | inl _ => Some document
      | inr _ => None
      end
  end.
