(* ===== verification/TierExpr.v ===== *)
(** * Visual tiers and the cost estimator

    [features/pricing/lib/tier-expr.ts]. *)

From Stdlib Require Import String.
From S2P Require Import Prelude JsNumber JsString JsText Ast Parser Compile Request.
From S2P Require Import BillingTime Runtime Display Regex Json BillingExpr.

(** ** Data *)

Inductive CacheMode : Type := CACHE_MODE_TIMED | CACHE_MODE_GENERIC.

(** [number | string] *)
Inductive ConditionInputValue : Type := Input_number (x : number) | Input_text (s : str).

Record TierConditionInput : Type := {
  ti_var : BillingVariable;
  ti_op : BinaryOperator;
  ti_value : ConditionInputValue;
}.

(** [Partial<VisualTier>]: [pv_costs] holds the unit costs other than the two
    base ones, by field name. *)
Record PartialVisualTier : Type := {
  pv_billing_unit : option BillingUnit;
  pv_fixed_price : option str;
  pv_label : option str;
  pv_conditions : option (list TierConditionInput);
  pv_input_unit_cost : option number;
  pv_output_unit_cost : option number;
  pv_cache_mode : option CacheMode;
  pv_costs : list (str * number);
}.

Record VisualTier : Type := {
  vt_billing_unit : option BillingUnit;
  vt_fixed_price : option str;
  vt_label : str;
  vt_conditions : list TierConditionInput;
  vt_input_unit_cost : number;
  vt_output_unit_cost : number;
  vt_cache_mode : CacheMode;
  vt_costs : list (str * number);
}.
Abbreviation VisualConfig := (list VisualTier).

(** [Number(x) || 0] *)
Definition number_or_zero (x : number) : number := if num_truthy x then x else zero.
Definition cost_of (costs : list (str * number)) (field : str) : number :=
  default NaN (assoc_get field costs).

Definition getTierCacheMode (tier : PartialVisualTier) : CacheMode :=
  match pv_cache_mode tier with
  | Some mode => mode
  | None =>
      if num_gtb (cost_of (pv_costs tier) (u "cache_create_1h_unit_cost")) zero
      then CACHE_MODE_TIMED else CACHE_MODE_GENERIC
  end.

(** The cost fields that are always set. *)
Definition normalized_costs : list str :=
  [u "cache_read_unit_cost"; u "cache_create_unit_cost"; u "cache_create_1h_unit_cost";
   u "image_unit_cost"; u "image_output_unit_cost"; u "audio_input_unit_cost";
   u "audio_output_unit_cost"].

(** A field of the argument replaces the default written before [...tier]. *)
Definition normalizeVisualTier (tier : PartialVisualTier) : VisualTier :=
  {| vt_billing_unit := pv_billing_unit tier;
     vt_fixed_price := pv_fixed_price tier;
     vt_label := default [] (pv_label tier);
     vt_conditions := default [] (pv_conditions tier);
     vt_input_unit_cost := default zero (pv_input_unit_cost tier);
     vt_output_unit_cost := default zero (pv_output_unit_cost tier);
     vt_cache_mode := getTierCacheMode tier;
     vt_costs := fold_left
       (fun costs field => assoc_set field (number_or_zero (cost_of (pv_costs tier) field)) costs)
       normalized_costs (pv_costs tier) |}.

Definition partial_tier label conditions input output costs : PartialVisualTier :=
  {| pv_billing_unit := None; pv_fixed_price := None; pv_label := Some label;
     pv_conditions := Some conditions; pv_input_unit_cost := Some input;
     pv_output_unit_cost := Some output; pv_cache_mode := None; pv_costs := costs |}.

Definition partial_of_tier (tier : VisualTier) : PartialVisualTier :=
  {| pv_billing_unit := vt_billing_unit tier; pv_fixed_price := vt_fixed_price tier;
     pv_label := Some (vt_label tier); pv_conditions := Some (vt_conditions tier);
     pv_input_unit_cost := Some (vt_input_unit_cost tier);
     pv_output_unit_cost := Some (vt_output_unit_cost tier);
     pv_cache_mode := Some (vt_cache_mode tier); pv_costs := vt_costs tier |}.

Definition createDefaultVisualConfig : VisualConfig :=
  [normalizeVisualTier
     {| pv_billing_unit := None; pv_fixed_price := None; pv_label := Some (u "base");
        pv_conditions := Some []; pv_input_unit_cost := Some zero;
        pv_output_unit_cost := Some zero; pv_cache_mode := Some CACHE_MODE_GENERIC;
        pv_costs := [] |}].

Definition normalizeVisualConfig (config : VisualConfig) : VisualConfig :=
  match config with
  | [] => createDefaultVisualConfig
  | _ => map (fun tier => normalizeVisualTier (partial_of_tier tier)) config
  end.

(** ** Printing *)

Definition input_text (v : ConditionInputValue) : str :=
  match v with Input_number x => number_to_string x | Input_text s => s end.
Definition is_given (v : ConditionInputValue) : bool :=
  match v with Input_number _ => true | Input_text s => nonempty s end.

Definition buildConditionStr (conditions : list TierConditionInput) : str :=
  join (u " && ")
    (map (fun c => variable_text (ti_var c) ++ u " " ++ operator_text (ti_op c) ++ u " "
                     ++ input_text (ti_value c))
       (List.filter (fun c => is_given (ti_value c)) conditions)).

Definition buildTierBodyExpr (tier : VisualTier) : str :=
  match vt_billing_unit tier with
  | Some Unit_request => u "fixed(" ++ default [] (vt_fixed_price tier) ++ u ")"
  | _ =>
      join (u " + ")
        ([u "p * " ++ number_to_string (number_or_zero (vt_input_unit_cost tier));
          u "c * " ++ number_to_string (number_or_zero (vt_output_unit_cost tier))]
         ++ omap (fun cv : BillingVariable * str =>
              let v := number_or_zero (cost_of (vt_costs tier) cv.2) in
              if num_eqb v zero then None
              else Some (variable_text cv.1 ++ u " * " ++ number_to_string v))
            BILLING_CACHE_VAR_MAP)
  end.

Definition tier_call (label : str) (tier : VisualTier) : str :=
  u "tier(" ++ quoted label ++ u ", " ++ buildTierBodyExpr tier ++ u ")".

(** The loop over several tiers. *)
Fixpoint generate_tiers (i : nat) (tiers : list VisualTier) : list str :=
  match tiers with
  | [] => []
  | tier :: rest =>
      let label := if nonempty (vt_label tier) then vt_label tier
                   else u "tier_" ++ number_to_string (of_Z (Z.of_nat i + 1)) in
      let body := tier_call label tier in
      let cond := buildConditionStr (vt_conditions tier) in
      (match rest with
       | _ :: _ => if nonempty cond then cond ++ u " ? " ++ body else body
       | [] => body
       end) :: generate_tiers (S i) rest
  end.

Definition generateExprFromVisualConfig (config : VisualConfig) : str :=
  match config with
  | [] => u "p * 0 + c * 0"
  | [tier] =>
      let label := if nonempty (vt_label tier) then vt_label tier else u "default" in
      let body := tier_call label tier in
      let cond := buildConditionStr (vt_conditions tier) in
      if nonempty cond then cond ++ u " ? " ++ body ++ u " : p * 0 + c * 0" else body
  | tiers => join (u " : ") (generate_tiers 0 tiers)
  end.

(** ** Parsing *)

Definition version_re : re :=
  seqs [lit "v"; plus digit; lit ":"; Group 1 (Star any_s)].

(** [v\s*\*\s*([\d.eE+-]+)] with group [i] *)
Definition price_re (v : str) (i : nat) : re :=
  seqs [lit_chars v; Star space; lit "*"; Star space; Group i number_chars].
Definition plus_re : re := seqs [Star space; lit "+"; Star space].

(** [bodyPat]; the groups start at [i]. *)
Definition body_re (i : nat) : re :=
  seqs ([price_re (u "p") i; plus_re; price_re (u "c") (S i)]
        ++ imap (fun k cv => opt (Seq plus_re (price_re (variable_text cv.1) (S (S i) + k))))
             BILLING_CACHE_VAR_MAP).

Definition tier_re (i : nat) : re :=
  seqs [litq "tier('"; Group i (Star (none_of [quote_char])); litq "',"; Star space;
        body_re (S i); lit ")"].

Definition condition_number : re := plus (Chr (fun c => is_digit c || bool_decide (c ∈ u ".eE+"))).
Definition condition_var : re := alts [lit "p"; lit "c"; lit "len"].
Definition condition_op : re := alts [lit "<"; lit "<="; lit ">"; lit ">="].
Definition condition_re : re :=
  seqs [condition_var; Star space; condition_op; Star space; condition_number].
Definition and_re : re := seqs [Star space; lit "&&"; Star space].
Definition condition_group : re := Group 1 (Seq condition_re (Star (Seq and_re condition_re))).
Definition tiers_re : re :=
  Seq (opt (seqs [condition_group; Star space; lit "?"; Star space])) (tier_re 2).

(** [text.split(r)] *)
Fixpoint split_re (fuel : nat) (r : re) (text : str) : list str :=
  match fuel with
  | O => [text]
  | S fuel =>
      match search r text [] with
      | Some (before, rest, _) => before :: split_re fuel r rest
      | None => [text]
      end
  end.

Definition single_condition : re :=
  seqs [Group 1 condition_var; Star space; Group 2 condition_op; Star space; Group 3 condition_number].

Definition order_of (text : str) : option BinaryOperator :=
  if str_eqb text (u "<") then Some Op_lt
  else if str_eqb text (u "<=") then Some Op_le
  else if str_eqb text (u ">") then Some Op_gt
  else if str_eqb text (u ">=") then Some Op_ge else None.

Definition parse_conditions (condStr : str) : list TierConditionInput :=
  if negb (nonempty condStr) then []
  else omap (fun cp =>
         cm ← match_all single_condition (trim cp);
         v ← variable_of (text_of 1 cm);
         op ← order_of (text_of 2 cm);
         Some {| ti_var := v; ti_op := op; ti_value := Input_number (to_number (text_of 3 cm)) |})
       (split_re (S (length condStr)) and_re condStr).

(** The cost fields of the groups from [i] on that took part. *)
Definition matched_costs (m : captures) (i : nat) : list (str * number) :=
  omap (fun e => match group (i + e.1) m with
                 | Some text => Some (e.2, to_number text)
                 | None => None end)
    (imap (fun k (cv : BillingVariable * str) => (k, cv.2)) BILLING_CACHE_VAR_MAP).

(** A tier of a match whose label is group [i]. *)
Definition matched_tier (m : captures) (i : nat) (conditions : list TierConditionInput) : VisualTier :=
  normalizeVisualTier
    (partial_tier (text_of i m) conditions (to_number (text_of (i + 1) m))
       (to_number (text_of (i + 2) m)) (matched_costs m (i + 3))).

(** The loop [while ((match = tierRe.exec(body)) !== null)]; every match
    consumes text. *)
Fixpoint exec_tiers (fuel : nat) (body : str) : list VisualTier :=
  match fuel with
  | O => []
  | S fuel =>
      match search tiers_re body [] with
      | None => []
      | Some (_, rest, m) =>
          matched_tier m 2 (parse_conditions (text_of 1 m)) :: exec_tiers fuel rest
      end
  end.

Definition tryParseVisualConfig (exprStr : str) : option VisualConfig :=
  if negb (nonempty exprStr) then None
  else
    let body := match match_all version_re exprStr with
                | Some m => text_of 1 m
                | None => exprStr end in
    match match_all (tier_re 1) body with
    | Some simple => Some (normalizeVisualConfig [matched_tier simple 1 []])
    | None =>
        match exec_tiers (S (length body)) body with
        | [] => None
        | tiers =>
            let cfg := normalizeVisualConfig tiers in
            if str_eqb (remove_spaces (generateExprFromVisualConfig cfg)) (remove_spaces body)
            then Some cfg else None
        end
    end.

(** ** The estimator *)

Record ExtraTokenValues : Type := {
  cacheReadTokens : number;
  cacheCreateTokens : number;
  cacheCreate1hTokens : number;
  imageTokens : number;
  imageCacheTokens : number;
  imageOutputTokens : number;
  audioInputTokens : number;
  audioOutputTokens : number;
}.

(** [ESTIMATOR_VARS] *)
Definition ESTIMATOR_VARS : list (BillingVariable * (ExtraTokenValues -> number)) :=
  [(Var_cr, cacheReadTokens); (Var_cc, cacheCreateTokens); (Var_cc1h, cacheCreate1hTokens);
   (Var_img, imageTokens); (Var_img_cr, imageCacheTokens); (Var_img_o, imageOutputTokens);
   (Var_ai, audioInputTokens); (Var_ao, audioOutputTokens)].

Definition buildEstimatorTokens (promptTokens completionTokens : number)
    (extra : ExtraTokenValues) : list (str * number) :=
  [(u "p", promptTokens); (u "c", completionTokens);
   (u "len",
    num_add (num_add (num_add (num_add (num_add (num_add promptTokens (cacheReadTokens extra))
      (imageCacheTokens extra)) (imageTokens extra)) (audioInputTokens extra))
      (cacheCreateTokens extra)) (cacheCreate1hTokens extra))]
  ++ map (fun e => (variable_text e.1, e.2 extra)) ESTIMATOR_VARS.

Record EvalResult : Type := {
  er_cost : number;
  er_matchedTier : str;
  er_error : option str;
  er_billingUnit : option BillingUnit;
}.

(** [{ ...context, tokens: { ...estimated, ...context?.tokens } }] *)
Definition estimator_context (context : option BillingSimulationContext)
    (estimated : list (str * number)) : BillingSimulationContext :=
  let c := default empty_context context in
  {| ctx_imageCount := ctx_imageCount c;
     ctx_tokens := Some (fold_left (fun m e => assoc_set e.1 e.2 m)
       (default [] (ctx_tokens c)) (map (fun e => (e.1, VNumber e.2)) estimated));
     ctx_request := ctx_request c; ctx_usage := ctx_usage c; ctx_now := ctx_now c |}.

Definition evalExprLocally `{Host} (clock : Z) (exprStr : str)
    (promptTokens completionTokens : number) (extra : ExtraTokenValues)
    (context : option BillingSimulationContext) : EvalResult :=
  if negb (nonempty (trim exprStr)) then
    {| er_cost := zero; er_matchedTier := []; er_error := None; er_billingUnit := None |}
  else
    let result :=
      match compile exprStr with
      | inl compiled =>
          evaluateCompiled clock compiled
            (estimator_context context (buildEstimatorTokens promptTokens completionTokens extra))
      | inr failure => inr failure
      end in
    match result with
    | inr failure =>
        {| er_cost := zero; er_matchedTier := [];
           er_error := Some (detail (failure_diagnostic failure)); er_billingUnit := None |}
    | inl r =>
        {| er_cost := be_cost r; er_matchedTier := be_matchedTier r; er_error := None;
           er_billingUnit := match be_billingUnit r with
                             | Unit_request => Some Unit_request
                             | Unit_token => None end |}
    end.

Definition exprUsesExtraVars (exprStr : str) : bool :=
  if negb (nonempty exprStr) then false
  else match compile exprStr with
       | inl compiled =>
           existsb (fun e => bool_decide (e.1 ∈ ce_variables compiled)) ESTIMATOR_VARS
       | inr _ => false
       end.
