(* ===== verification/ConditionDisplay.v ===== *)
(** * Conditions in words

    [billing-expression/condition-display.ts].  The translation function, the
    weekday names and the number format belong to the i18n library and the
    host: they are the class [Locale].  A formatter that throws is [None]. *)

From Stdlib Require Import String.
From S2P Require Import Prelude JsNumber JsString JsText Ast Parser Compile Request.
From S2P Require Import BillingTime Runtime Display.

Class Locale : Type := {
  (** [t(key, options)] *)
  translate : str -> list (str * str) -> str;
  (** [new Intl.DateTimeFormat(locale, { weekday: 'short', timeZone: 'UTC' }).format(date)] *)
  format_weekday : Z -> option str;
  (** [x.toLocaleString(locale)] *)
  toLocaleString : number -> option str;
}.

Inductive DescriptionKind : Type := Calendar | Clock | Combined.
#[export] Instance kind_eq_dec : EqDecision DescriptionKind.
Proof. solve_decision. Defined.

Record Description : Type := {
  de_text : str;
  de_kind : DescriptionKind;
  de_timezone : str;
  de_disjunction : bool;
}.

Record TimeComparison : Type := {
  cmp_name : TimeFunction;
  cmp_timezone : str;
  cmp_operator : BinaryOperator;
  cmp_value : number;
}.

(** Half-open ranges. *)
Definition DOMAINS (t : TimeFunction) : number * number :=
  match t with
  | Time_hour => (of_Z 0, of_Z 24)
  | Time_minute => (of_Z 0, of_Z 60)
  | Time_weekday => (of_Z 0, of_Z 7)
  | Time_month => (of_Z 1, of_Z 13)
  | Time_day => (of_Z 1, of_Z 32)
  end.

Definition is_time_operator (o : BinaryOperator) : bool :=
  match o with Op_eq | Op_ge | Op_gt | Op_le | Op_lt => true | _ => false end.

Definition timeComparison (node : ExpressionNode) : option TimeComparison :=
  match node with
  | Binary operator (Call (Fn_time name) (Literal (LString zone) _ _ _ :: _) _ _)
      (Literal (LNumber v) _ _ _) _ _ =>
      if is_time_operator operator && num_is_integer v then
        Some {| cmp_name := name;
                cmp_timezone := if nonempty (trim zone) then trim zone else u "UTC";
                cmp_operator := operator; cmp_value := v |}
      else None
  | _ => None
  end.

(** The range of values all comparisons allow, one comparison at a time. *)
Definition narrow (range : number * number) (c : TimeComparison) : number * number :=
  let '(start, stop) := range in
  let v := cmp_value c in
  match cmp_operator c with
  | Op_ge => (num_max start v, stop)
  | Op_gt => (num_max start (num_add v one), stop)
  | Op_lt => (start, num_min stop v)
  | Op_le => (start, num_min stop (num_add v one))
  | Op_eq => (num_max start v, num_min stop (num_add v one))
  | _ => range
  end.
Definition time_range (name : TimeFunction) (comparisons : list TimeComparison) : number * number :=
  fold_left narrow comparisons (DOMAINS name).

Definition pad_number (x : number) : str :=
  let s := number_to_string x in if (length s <? 2)%nat then u "0" ++ s else s.
(** The key ["{{start}}-{{end}}"], with an en dash. *)
Definition range_key : str := u "{{start}}" ++ [8211%N] ++ u "{{end}}".
(** [Date.UTC(2026, 0, 4 + days)]: 4 January 2026 is a Sunday. *)
Definition sunday_plus (days : Z) : Z := ((20457 + days) * 86400000)%Z.

Section describe.
Context `{Locale}.

Definition range_text (start stop : str) : str :=
  translate range_key [(u "start", start); (u "end", stop)].
Definition or_throw {A} (o : option A) : outcome A :=
  match o with Some a => Ok a | None => Throw (JsError (u "RangeError")) end.

Definition describeTimeRange (first : TimeComparison) (comparisons : list TimeComparison)
  : outcome (option Description) :=
  let '(start, stop) := time_range (cmp_name first) comparisons in
  let last := num_sub stop one in
  let single := num_eqb start last in
  let describe kind text :=
    Some {| de_text := text; de_kind := kind; de_timezone := cmp_timezone first;
            de_disjunction := false |} in
  if num_geb start stop then Ok None
  else
    match cmp_name first with
    | Time_hour => Ok (describe Clock (range_text (pad_number start ++ u ":00") (pad_number stop ++ u ":00")))
    | Time_weekday =>
        from ← or_throw (format_weekday (sunday_plus (num_to_Z start)));
        to ← or_throw (format_weekday (sunday_plus (num_to_Z last)));
        Ok (describe Calendar (if single then from else range_text from to))
    | name =>
        let label := match name with
                     | Time_minute => u "Minute" | Time_month => u "Month" | _ => u "Day" end in
        let values := if single then number_to_string start
                      else range_text (number_to_string start) (number_to_string last) in
        Ok (describe Calendar (translate label [] ++ u ": " ++ values))
    end.

Definition condition_label (v : BillingVariable) : option str :=
  match v with
  | Var_p => Some (u "Input") | Var_c => Some (u "Output")
  | Var_len => Some (u "Full input length") | _ => None
  end.

Definition is_describable (o : BinaryOperator) : bool :=
  match o with Op_lt | Op_le | Op_gt | Op_ge | Op_eq | Op_ne => true | _ => false end.

(** [variable operator number] *)
Definition variable_comparison (node : ExpressionNode)
  : option (BillingVariable * BinaryOperator * number) :=
  match node with
  | Binary operator (Variable_ name _ _) (Literal (LNumber v) _ _ _) _ _ =>
      if is_describable operator then Some (name, operator, v) else None
  | _ => None
  end.

(** [ranges.get(key) ?? []], pushed to and set; a key is a function and a zone. *)
Abbreviation ranges := (list ((TimeFunction * str) * list TimeComparison)).
Definition add_range (rs : ranges) (c : TimeComparison) : ranges :=
  let key := (cmp_name c, cmp_timezone c) in
  assoc_set key (default [] (assoc_get key rs) ++ [c]) rs.

Definition combined text timezone disjunction : Description :=
  {| de_text := text; de_kind := Combined; de_timezone := timezone;
     de_disjunction := disjunction |}.

Definition parenthesized (and : bool) (d : Description) : str :=
  if and && de_disjunction d then u "(" ++ de_text d ++ u ")" else de_text d.

(** The part behind the loops: joins the descriptions of the parts. *)
Definition join_parts (and : bool) (parts : list Description) : option Description :=
  let zones := fold_left (fun zs z => set_add z zs)
                 (List.filter nonempty (map de_timezone parts)) [] in
  let calendars := List.filter (fun d => bool_decide (de_kind d = Calendar)) parts in
  let clocks := List.filter (fun d => bool_decide (de_kind d = Clock)) parts in
  match parts with
  | [] => None
  | first :: others =>
      if (1 <? length zones)%nat then None
      else match others with
           | [] => Some first
           | _ =>
               match and, others, calendars, clocks with
               | true, [_], [calendar], [clock] =>
                   Some (combined (de_text calendar ++ u " " ++ de_text clock)
                           (de_timezone first) false)
               | _, _, _, _ =>
                   let separator := if and then u "{{first}} and {{second}}"
                                    else u "{{first}} or {{second}}" in
                   Some {| de_text := fold_left (fun text d =>
                             translate separator
                               [(u "first", text); (u "second", parenthesized and d)])
                             others (parenthesized and first);
                           de_kind := if (length clocks =? length parts)%nat then Clock else Combined;
                           de_timezone := default [] (head zones);
                           de_disjunction := negb and |}
               end
           end
  end.

(** The loop over the operands of [&&]: descriptions and time ranges. *)
Fixpoint split_ranges (describe : ExpressionNode -> outcome (option Description))
    (nodes : list ExpressionNode) (parts : list Description) (rs : ranges)
  : outcome (option (list Description * ranges)) :=
  match nodes with
  | [] => Ok (Some (parts, rs))
  | part :: nodes =>
      match timeComparison part with
      | Some comparison => split_ranges describe nodes parts (add_range rs comparison)
      | None =>
          description ← describe part;
          match description with
          | None => Ok None
          | Some d => split_ranges describe nodes (parts ++ [d]) rs
          end
      end
  end.

(** A loop that returns [null] with the first [null]. *)
Fixpoint describe_all {A} (describe : A -> outcome (option Description)) (l : list A)
  : outcome (option (list Description)) :=
  match l with
  | [] => Ok (Some [])
  | x :: l =>
      description ← describe x;
      match description with
      | None => Ok None
      | Some d => rest ← describe_all describe l; Ok (option_map (cons d) rest)
      end
  end.

Definition describe_range (entry : (TimeFunction * str) * list TimeComparison)
  : outcome (option Description) :=
  match entry.2 with
  | first :: _ => describeTimeRange first entry.2
  | [] => Throw undefined_property
  end.

(** The operands are lower than the node: its height bounds the recursion. *)
Fixpoint describe_condition (fuel : nat) (node : ExpressionNode) : outcome (option Description) :=
  match fuel with
  | O => Throw OutOfFuel
  | S fuel =>
      match node, variable_comparison node, timeComparison node with
      | Unary Un_not operand _ _, _, _ =>
          description ← describe_condition fuel operand;
          Ok (d ← description;
              Some {| de_text := translate (u "Outside these times: {{condition}}")
                        [(u "condition", de_text d)];
                      de_kind := Combined; de_timezone := de_timezone d;
                      de_disjunction := de_disjunction d |})
      | _, Some (name, operator, v), _ =>
          match condition_label name with
          | None => Ok None
          | Some label =>
              text ← or_throw (toLocaleString v);
              Ok (Some (combined (translate label [] ++ u " " ++ operator_text operator ++ u " " ++ text)
                          [] false))
          end
      | _, None, Some single => describeTimeRange single [single]
      | Binary Op_and _ _ _ _, None, None =>
          split ← split_ranges (describe_condition fuel) (flattenBinary node Op_and) [] [];
          match split with
          | None => Ok None
          | Some (parts, rs) =>
              described ← describe_all describe_range rs;
              Ok (more ← described; join_parts true (parts ++ more))
          end
      | Binary Op_or _ _ _ _, None, None =>
          described ← describe_all (describe_condition fuel) (flattenBinary node Op_or);
          Ok (parts ← described; join_parts false parts)
      | _, _, _ => Ok None
      end
  end.
Definition describeBillingCondition (node : ExpressionNode) : outcome (option Description) :=
  describe_condition (S (node_height node)) node.

Definition formatBillingCondition (source : str) : option str :=
  match compile source with
  | inr _ => None
  | inl compiled =>
      match describeBillingCondition (ce_ast compiled) with
      | Throw _ | Ok None => None
      | Ok (Some d) =>
          if nonempty (de_timezone d) then
            Some (translate (u "{{condition}} ({{timezone}})")
                    [(u "condition", de_text d); (u "timezone", de_timezone d)])
          else Some (de_text d)
      end
  end.
End describe.
