(* ===== verification/PriceFacts.v ===== *)
(** * The cost of the shapes of a price

    What the evaluation of a price gives, for the shapes the price tables read:
    literals, token counts, sums and products.  All statements are about
    evaluations that succeed; they are used to show that the numbers of a table
    row are the numbers that are charged. *)

From S2P Require Import Prelude JsNumber JsString JsText Ast Parser Compile Request.
From S2P Require Import BillingTime Runtime RuntimeFacts FixedPrice Display.

(** A number that stands for a shown price: the price itself, or a zero for a
    zero (the tables read [-0] and [0] alike). *)
Definition stands_for (x price : number) : Prop :=
  x = price \/ num_eqb x zero = true /\ num_eqb price zero = true.

Lemma eqb_zero s m e : num_eqb (Finite s m e) zero = true <-> m = 0%Z.
Proof.
  unfold num_eqb, zero. cbn [num_compare signed]. rewrite Z.mul_0_l.
  assert (0 < 2 ^ (e - Z.min e (-1074)))%Z as Hp by (apply Z.pow_pos_nonneg; lia).
  split.
  - destruct (Z.compare_spec (signed s m * 2 ^ (e - Z.min e (-1074))) 0) as [Hc|Hc|Hc]; try done.
    intros _. unfold signed in Hc. destruct s; nia.
  - intros ->. by destruct s.
Qed.

Lemma neg_zero x : num_eqb x zero = true -> num_eqb (num_neg x) zero = true.
Proof. destruct x as [|[]|s m e]; try done. cbn [num_neg]. by rewrite !eqb_zero. Qed.

Section counts.
Context `{Host}.
Context (rules : list CompiledRule) (context : BillingSimulationContext)
        (now : date) (headers : list (str * str)).
Abbreviation eval := (evaluate rules context now headers).

(** [node] keeps the price fields, and a number it gives has [P]. *)
Definition counts (node : ExpressionNode) (P : number -> Prop) : Prop :=
  forall s, wp (fun _ => True) (eval node)
    (fun v s' => marks s' = marks s /\ forall x, rv_value v = VNumber x -> P x) s.

Lemma counts_node node (P : number -> Prop) :
  (forall s, wp (fun _ => True) (evaluateNode rules context now headers eval node)
    (fun v s' => marks s' = marks s /\ forall x, rv_value v = VNumber x -> P x) s) ->
  counts node P.
Proof.
  intros Hn s. apply (evaluate_partial rules context now headers node
    (fun m v m' => m' = m /\ forall x, rv_value v = VNumber x -> P x)). exact Hn.
Qed.

Lemma counts_mono node (P Q : number -> Prop) :
  counts node P -> (forall x, P x -> Q x) -> counts node Q.
Proof.
  intros Hp HPQ s. eapply wp_mono; [apply Hp|]. intros v s' [Hm Hx]. split; [done|]. eauto.
Qed.

Lemma counts_numeric node (P : number -> Prop) s :
  counts node P ->
  wp (fun _ => True) (numeric eval node) (fun a s' => marks s' = marks s /\ P a.1) s.
Proof.
  intros Hp. unfold numeric. apply wp_bind. eapply wp_mono; [apply Hp|]. intros v s' [Hm Hx].
  destruct (rv_value v); try done. apply wp_ret. auto.
Qed.

Lemma counts_literal v i s e : counts (Literal (LNumber v) i s e) (fun x => x = v).
Proof.
  intros st. eapply wp_mono; [apply eval_literal|]. intros w s' [-> Hm]. split; [done|].
  by intros x [= <-].
Qed.

Lemma counts_variable v s e :
  v <> Var_image_count -> counts (Variable_ v s e) (fun x => token_of context v = VNumber x).
Proof.
  intros Hv. apply counts_node. intros st. cbn [evaluateNode]. unfold evaluate_variable.
  fold (token_of context v).
  destruct v; try done; cbv zeta; destruct (token_of context _) as [| | |x| | |] eqn:Et; try done;
    destruct (num_ltb x zero); try done; (split; [done|]); by intros y [= <-].
Qed.

Lemma counts_image_count s e :
  counts (Variable_ Var_image_count s e) (fun x => x = default one (ctx_imageCount context)).
Proof.
  apply counts_node. intros st. cbn [evaluateNode evaluate_variable].
  destruct (negb _); [done|]. split; [done|]. by intros y [= <-].
Qed.

Definition arithmetic (o : BinaryOperator) : option (number -> number -> number) :=
  match o with
  | Op_add => Some num_add | Op_sub => Some num_sub
  | Op_mul => Some num_mul | Op_div => Some num_div
  | _ => None
  end.

Lemma counts_binary o f a b s e (P Q : number -> Prop) :
  arithmetic o = Some f -> counts a P -> counts b Q ->
  counts (Binary o a b s e) (fun z => exists x y, P x /\ Q y /\ z = f x y).
Proof.
  intros Hf Ha Hb. apply counts_node. intros st.
  assert (wp (fun _ => True) (l ← eval a; r ← eval b; apply_binary (Binary o a b s e) o l r)
    (fun v s' => marks s' = marks st /\ forall z, rv_value v = VNumber z ->
       exists x y, P x /\ Q y /\ z = f x y) st) as Hgoal.
  { apply wp_bind. eapply wp_mono; [apply Ha|]. intros l s1 [Hm1 Hx].
    apply wp_bind. eapply wp_mono; [apply Hb|]. intros r s2 [Hm2 Hy].
    unfold apply_binary.
    destruct (rv_value l) as [| | |x|t| |], (rv_value r) as [| | |y|t'| |];
      destruct o; try discriminate Hf; try done; apply wp_ret; (split; [congruence|]);
      try (by intros z [=]); injection Hf as <-; intros z [= <-]; eauto 10. }
  destruct o; try discriminate Hf; exact Hgoal.
Qed.

Lemma counts_max a b s e (P Q : number -> Prop) :
  counts a P -> counts b Q ->
  counts (Call Fn_max [a; b] s e) (fun z => exists x y, P x /\ Q y /\ z = num_max x y).
Proof.
  intros Ha Hb. apply counts_node. intros st. cbn [evaluateNode call].
  apply wp_bind. eapply wp_mono; [by apply counts_numeric|]. intros x s1 [Hm1 Hx].
  apply wp_bind. eapply wp_mono; [by apply counts_numeric|]. intros y s2 [Hm2 Hy].
  apply wp_ret. split; [congruence|]. intros z [= <-]. eauto 10.
Qed.

Lemma zero_literal_counts node :
  is_zero_literal node = true -> counts node (fun x => num_eqb x zero = true).
Proof.
  destruct node as [[|v| |] i s e| | | | |]; try done. cbn. intros Hv.
  eapply counts_mono; [apply counts_literal|]. by intros x ->.
Qed.

Lemma price_literal_counts node price :
  nonnegativePriceLiteral node = Some price -> counts node (fun x => stands_for x price).
Proof.
  destruct node as [[|v| |] i s e| | |o a s e| |]; try done; cbn.
  - case_match; [|done]. intros [= <-]. eapply counts_mono; [apply counts_literal|].
    intros x ->. by left.
  - destruct o; try done. destruct (is_zero_literal a) eqn:Ez; [|done]. intros [= <-].
    apply counts_node. intros st. cbn [evaluateNode]. apply wp_bind.
    eapply wp_mono; [by apply counts_numeric, zero_literal_counts|]. intros x s1 [Hm Hx].
    apply wp_ret. split; [done|]. intros y [= <-]. right. split; [by apply neg_zero|done].
Qed.

(** *** Sums *)

(** [x] is the sum of terms of [l], added from left to right in some grouping. *)
Inductive sum_of {A} (term : A -> number -> Prop) : list A -> number -> Prop :=
| sum_term a x : term a x -> sum_of term [a] x
| sum_add l1 l2 x y : sum_of term l1 x -> sum_of term l2 y -> sum_of term (l1 ++ l2) (num_add x y).

Lemma flatten_counts {A} (f : ExpressionNode -> option A) (term : A -> number -> Prop) :
  (forall n a, f n = Some a -> counts n (term a)) ->
  forall node l, map_option f (flattenBinary node Op_add) = Some l -> counts node (sum_of term l).
Proof.
  intros Hf node. induction node as [node IH] using node_children_ind. intros l Hl.
  assert (flattenBinary node Op_add = [node] -> counts node (sum_of term l)) as Hone.
  { intros E. rewrite E in Hl. cbn in Hl. apply bind_Some in Hl as (a & Ha & [= <-]).
    eapply counts_mono; [by apply Hf|]. intros x Hx. by constructor. }
  destruct node as [| | | |o a b s e|]; try (by apply Hone). cbn [flattenBinary] in *.
  case_bool_decide; [|by apply Hone]. subst o. clear Hone.
  cbn [children] in IH. rewrite !Forall_cons_iff in IH. destruct IH as (IHa & IHb & _).
  apply map_option_app in Hl as (la & lb & Ea & Eb & ->).
  eapply counts_mono; [apply (counts_binary Op_add num_add); [done|by apply IHa|by apply IHb]|].
  intros z (x & y & Hx & Hy & ->). by constructor.
Qed.

(** *** Token prices *)

(** What a price is multiplied with: a token count, or [max(0, len - ai)] in the
    place of the text tokens. *)
Inductive quantity : BillingVariable -> number -> Prop :=
| quantity_token v x : token_of context v = VNumber x -> quantity v x
| quantity_text len ai z :
    token_of context Var_len = VNumber len -> token_of context Var_ai = VNumber ai ->
    num_eqb z zero = true -> quantity Var_p (num_max z (num_sub len ai))
| quantity_text_first len ai z :
    token_of context Var_len = VNumber len -> token_of context Var_ai = VNumber ai ->
    num_eqb z zero = true -> quantity Var_p (num_max (num_sub len ai) z).

(** The amount of one entry of a row. *)
Definition token_amount (entry : BillingVariable * number) (x : number) : Prop :=
  exists q price, quantity entry.1 q /\ stands_for price entry.2 /\ x = num_mul q price.

Lemma len_minus_ai_counts node :
  is_len_minus_ai node = true ->
  counts node (fun x => exists len ai, token_of context Var_len = VNumber len /\
    token_of context Var_ai = VNumber ai /\ x = num_sub len ai).
Proof.
  destruct node as [| | | |o a b s e|]; try done. destruct o; try done.
  destruct a as [|[] s1 e1| | | |]; try done. destruct b as [|[] s2 e2| | | |]; try done. intros _.
  eapply counts_mono; [by eapply (counts_binary Op_sub num_sub); [|apply counts_variable..]|].
  intros z (x & y & Hx & Hy & ->). eauto.
Qed.

Lemma price_variable_counts node v : price_variable node = Some v -> counts node (quantity v).
Proof.
  destruct node as [|w s e|f args s e| | |]; try done.
  - intros Hv. eapply counts_mono; [apply (counts_variable w)|].
    + by destruct w.
    + intros x Hx. assert (w = v) as -> by (destruct w; by simplify_eq/=). by constructor.
  - destruct f; try done. destruct args as [|a [|b [|]]]; try done. cbn.
    destruct (is_zero_literal a) eqn:Ea.
    + destruct (is_len_minus_ai b) eqn:Eb; [|done]. intros [= <-].
      eapply counts_mono; [by apply counts_max; [apply zero_literal_counts|apply len_minus_ai_counts]|].
      intros z (x & y & Hx & (len & ai & Hl & Ha & ->) & ->). by constructor.
    + destruct (is_zero_literal b) eqn:Eb; [|done].
      destruct (is_len_minus_ai a) eqn:El; [|done]. intros [= <-].
      eapply counts_mono; [by apply counts_max; [apply len_minus_ai_counts|apply zero_literal_counts]|].
      intros z (x & y & (len & ai & Hl & Ha & ->) & Hy & ->). by constructor.
Qed.

Lemma price_term_counts node entry : price_term node = Some entry -> counts node (token_amount entry).
Proof.
  destruct node as [| | | |o l r s e|]; try done. destruct o; try done. cbn. intros Hp.
  assert (exists input other price, (input = l /\ other = r \/ input = r /\ other = l) /\
    nonnegativePriceLiteral other = Some price /\ price_variable input = Some entry.1 /\
    entry.2 = price) as (input & other & price & Hio & Hlit & Hvar & Hprice).
  { destruct (nonnegativePriceLiteral r) as [x|] eqn:Er; cbn in Hp.
    - apply bind_Some in Hp as (w & Hw & [= <-]). eauto 10.
    - apply bind_Some in Hp as ([m x] & Hm & Hp). apply bind_Some in Hm as (y & Hy & [= <- <-]).
      apply bind_Some in Hp as (w & Hw & [= <-]). eauto 10. }
  apply price_variable_counts in Hvar. apply price_literal_counts in Hlit. subst price.
  destruct Hio as [[-> ->]|[-> ->]];
    (eapply counts_mono; [by eapply (counts_binary Op_mul num_mul)|]); intros z (x & y & Hx & Hy & ->).
  - by exists x, y.
  - exists y, x. by rewrite num_mul_comm.
Qed.

Lemma price_terms_map terms : forall prices ps,
  price_terms terms prices = Some ps ->
  exists added, ps = prices ++ added /\ map_option price_term terms = Some added.
Proof.
  induction terms as [|t terms IH]; intros prices ps; cbn.
  { intros [= <-]. exists []. by rewrite app_nil_r. }
  intros ([v x] & Ht & Hr)%bind_Some. destruct (assoc_has v prices) eqn:Ea; [done|].
  apply IH in Hr as (added & -> & Hm). exists ((v, x) :: added). rewrite Ht. cbn. rewrite Hm.
  split; [|done]. unfold assoc_has in Ea. destruct (assoc_get v prices) eqn:Eg; [done|].
  apply assoc_get_None in Eg. rewrite assoc_set_fst_fresh by done. by rewrite <- app_assoc.
Qed.

Lemma prices_count body ps :
  price_terms (flattenBinary body Op_add) [] = Some ps -> counts body (sum_of token_amount ps).
Proof.
  intros (added & -> & Hm)%price_terms_map. eapply flatten_counts; [|done]. apply price_term_counts.
Qed.
End counts.
