(* ===== verification/DisplayFacts.v ===== *)
(** * The displayed tiers are the tiers that are charged

    [readTokenTierChain] and [readTimeTokenPricing] against the interpreter. *)

From Stdlib Require Import String.
From S2P Require Import Prelude JsNumber JsString JsText Ast Parser Compile Request.
From S2P Require Import BillingTime Runtime RuntimeFacts FixedPrice Display PriceFacts.

(** ** Marks of a binary node *)

Lemma called_inv f n :
  called f n -> (exists args s e, n = Call f args s e) \/ exists c, c ∈ children n /\ called f c.
Proof.
  intros (args & s & e & H). apply postorder_inv in H as [<-|(c & Hc & Hin)]; [left; eauto|].
  right. exists c. split; [done|]. by exists args, s, e.
Qed.

Lemma unmarked_from_children n :
  (forall args s e, n <> Call Fn_tier args s e) -> (forall args s e, n <> Call Fn_fixed args s e) ->
  Forall unmarked (children n) -> unmarked n.
Proof.
  intros H1 H2 Hc. rewrite Forall_forall in Hc.
  split; intros [(args & s & e & E)|(c & Hin & Hcall)]%called_inv;
    try (by eapply H1); try (by eapply H2); apply list_elem_of_In in Hin;
    destruct (Hc c Hin); done.
Qed.

Lemma unmarked_leaf n : children n = [] -> (forall f, n <> Call f [] (node_start n) (node_end n)) ->
  unmarked n.
Proof.
  intros Hc Hn. apply unmarked_from_children; [..|by rewrite Hc].
  - intros args s e ->. cbn in Hc. subst. by eapply Hn.
  - intros args s e ->. cbn in Hc. subst. by eapply Hn.
Qed.

Create HintDb follows.

Ltac leaf_unmarked := apply unmarked_leaf; [done|intros ?; discriminate].

Lemma literal_unmarked v i s e : unmarked (Literal v i s e).
Proof. leaf_unmarked. Qed.
Lemma variable_unmarked v s e : unmarked (Variable_ v s e).
Proof. leaf_unmarked. Qed.
#[export] Hint Resolve literal_unmarked variable_unmarked : billing.

Lemma is_zero_unmarked n : is_zero_literal n = true -> unmarked n.
Proof. destruct n; try done. auto with billing. Qed.

Lemma price_literal_unmarked n x : nonnegativePriceLiteral n = Some x -> unmarked n.
Proof.
  destruct n as [| | |o a s e| |]; try done; [auto with billing|].
  destruct o; try done. cbn. case_match; [|done]. intros _.
  apply unmarked_from_children; try done. cbn. rewrite Forall_cons_iff.
  auto using is_zero_unmarked.
Qed.

Lemma len_minus_ai_unmarked n : is_len_minus_ai n = true -> unmarked n.
Proof.
  destruct n as [| | | |o a b s e|]; try done. destruct o; try done.
  destruct a as [|[]| | | |]; try done. destruct b as [|[]| | | |]; try done. intros _.
  apply unmarked_from_children; try done. cbn. rewrite !Forall_cons_iff. auto with billing.
Qed.

Lemma price_variable_unmarked n v : price_variable n = Some v -> unmarked n.
Proof.
  destruct n as [| |f args s e| | |]; try done; [auto with billing|].
  destruct f; try done. destruct args as [|a [|b [|]]]; try done. cbn. intros Hv.
  assert (unmarked a /\ unmarked b) as [Ha Hb].
  { destruct (is_zero_literal a) eqn:Ea.
    - destruct (is_len_minus_ai b) eqn:Eb; [|done]. auto using is_zero_unmarked, len_minus_ai_unmarked.
    - destruct (is_zero_literal b) eqn:Eb; [|done].
      destruct (is_len_minus_ai a) eqn:Ec; [|done]. auto using is_zero_unmarked, len_minus_ai_unmarked. }
  apply unmarked_from_children; try done. cbn. rewrite !Forall_cons_iff. auto.
Qed.

Lemma price_term_unmarked n v : price_term n = Some v -> unmarked n.
Proof.
  destruct n as [| | | |o l r s e|]; try done. destruct o; try done. cbn. intros Hp.
  assert (unmarked l /\ unmarked r) as [Hl Hr].
  { destruct (nonnegativePriceLiteral r) as [x|] eqn:Er; cbn in Hp.
    - apply bind_Some in Hp as (w & Hw & _). eauto using price_literal_unmarked, price_variable_unmarked.
    - apply bind_Some in Hp as ([m x] & Hm & Hp). apply bind_Some in Hm as (y & Hy & [= <- <-]).
      apply bind_Some in Hp as (w & Hw & _). eauto using price_literal_unmarked, price_variable_unmarked. }
  apply unmarked_from_children; try done. cbn. rewrite !Forall_cons_iff. auto.
Qed.

(** ** Token tiers *)

Section chain.
Context `{Host}.
Context (rules : list CompiledRule) (context : BillingSimulationContext)
        (now : date) (headers : list (str * str)).
Abbreviation eval := (evaluate rules context now headers).
Abbreviation marking := (str * BillingUnit * option number)%type.

(** A condition of a tier on the tokens of the request. *)
Definition condition_holds (c : TokenTierCondition) : bool :=
  default false (compare_values (tc_op c) (token_of context (tc_var c)) (VNumber (tc_value c))).
Definition tier_applies (t : TokenTier) : bool := forallb condition_holds (tt_conditions t).

(** The price fields after a tier was charged. *)
Definition tier_marks (t : TokenTier) (before : marking) : marking :=
  match tt_fixedPrice t with
  | Some amount => (tt_label t, Unit_request, Some amount)
  | None => (tt_label t, before.1.2, before.2)
  end.

Definition partially (node : ExpressionNode) (Q : marking -> RuntimeValue -> marking -> Prop) : Prop :=
  forall s, wp (fun _ => True) (eval node) (fun v s' => Q (marks s) v (marks s')) s.

Lemma partially_mono node (P Q : marking -> RuntimeValue -> marking -> Prop) :
  partially node P -> (forall m v m', P m v m' -> Q m v m') -> partially node Q.
Proof. intros Hp HPQ s. eapply wp_mono; [apply Hp|]. auto. Qed.

(** An evaluation to a known boolean that keeps the price fields. *)
Definition decides (node : ExpressionNode) (b : bool) : Prop :=
  partially node (fun m v m' => rv_value v = VBoolean b /\ m' = m).

Lemma decides_boolean node b s :
  decides node b ->
  wp (fun _ => True) (boolean eval node) (fun c s' => c = b /\ marks s' = marks s) s.
Proof.
  intros Hd. unfold boolean. apply wp_bind. eapply wp_mono; [apply Hd|].
  intros v s' [-> Hm]. by apply wp_ret.
Qed.

Lemma eval_variable_value v s e :
  is_condition_variable v = true ->
  partially (Variable_ v s e) (fun m w m' => rv_value w = token_of context v /\ m' = m).
Proof.
  intros Hv st.
  apply (evaluate_partial rules context now headers (Variable_ v s e)
    (fun m w m' => rv_value w = token_of context v /\ m' = m)). clear st. intros st.
  cbn [evaluateNode]. unfold evaluate_variable. fold (token_of context v).
  destruct v; try discriminate Hv; cbv zeta; destruct (token_of context _) as [| | |x| | |];
    try done; destruct (num_ltb x zero); done.
Qed.

Lemma token_condition_decides part c :
  token_condition part = Some c -> decides part (condition_holds c).
Proof.
  destruct part as [| | | |o l r s e|]; try done.
  destruct l as [|v s1 e1| | | |]; try done. destruct r as [[|x| |] i s2 e2| | | | |]; try done.
  cbn. intros Hc. destruct (is_order o) eqn:Eo; [|done].
  destruct (is_condition_variable v) eqn:Ev; [|done]. cbn in Hc.
  destruct (num_ltb x zero); [done|]. injection Hc as <-.
  intros st. apply (evaluate_partial rules context now headers (Binary o _ _ s e)
    (fun m w m' => rv_value w = VBoolean (condition_holds (TokenCondition v o x)) /\ m' = m)).
  clear st. intros st. cbn [evaluateNode].
  unfold condition_holds. cbn [tc_op tc_var tc_value].
  assert (wp (fun _ => True)
    (lhs ← eval (Variable_ v s1 e1); rhs ← eval (Literal (LNumber x) i s2 e2);
     apply_binary (Binary o (Variable_ v s1 e1) (Literal (LNumber x) i s2 e2) s e) o lhs rhs)
    (fun w s' => rv_value w = VBoolean (default false
       (compare_values o (token_of context v) (VNumber x))) /\ marks s' = marks st) st) as Hgoal.
  { apply wp_bind. eapply wp_mono; [by apply eval_variable_value|]. intros a s3 [Ha Hm1].
    apply wp_bind. eapply wp_mono; [apply eval_literal|]. intros b s4 [-> Hm2].
    unfold apply_binary. cbn [rv_value literal_value]. rewrite Ha.
    destruct o; try discriminate Eo; cbn [bool_decide orb];
      destruct (token_of context v) as [| | |y| | |]; try done; apply wp_ret; split; try done; congruence. }
  destruct o; try discriminate Eo; exact Hgoal.
Qed.

(** A node with a known value in every state with [I]. *)
Definition settles_to (I : RuntimeState -> Prop) (node : ExpressionNode) (w : value) : Prop :=
  forall s, I s -> wp (fun _ => True) (eval node) (fun v s' => rv_value v = w /\ I s') s.
Abbreviation settles I node b := (settles_to I node (VBoolean b)).

Lemma settles_node (I : RuntimeState -> Prop) node w :
  (forall d s, I s -> I (set_depth d s)) ->
  (forall s, I s -> wp (fun _ => True) (evaluateNode rules context now headers eval node)
     (fun v s' => rv_value v = w /\ I s') s) ->
  settles_to I node w.
Proof.
  intros HI Hn s Hs. rewrite evaluate_unfold.
  apply wp_bind, wp_get, wp_bind, wp_put, wp_bind, wp_throw_when; [done|]. intros _.
  apply wp_bind. eapply wp_mono; [by apply Hn, HI|]. intros v s1 [Hv H1].
  apply wp_bind. unfold check_value. rewrite Hv.
  destruct w; repeat case_match; try done; apply wp_ret, wp_bind, wp_modify, wp_ret; auto.
Qed.

Lemma settles_boolean I node b s :
  settles I node b -> I s ->
  wp (fun _ => True) (boolean eval node) (fun c s' => c = b /\ I s') s.
Proof.
  intros Hd Hs. unfold boolean. apply wp_bind. eapply wp_mono; [by apply Hd|].
  intros v s' [-> Hm]. by apply wp_ret.
Qed.

(** A conjunction is settled by its flattened operands. *)
Lemma conjunction_settles {A} I (f : ExpressionNode -> option A) (holds : A -> bool) node :
  (forall d s, I s -> I (set_depth d s)) ->
  (forall part a, f part = Some a -> settles I part (holds a)) ->
  forall l, map_option f (flattenBinary node Op_and) = Some l -> settles I node (forallb holds l).
Proof.
  intros HI Hf. induction node as [node IH] using node_children_ind. intros l Hl.
  assert (flattenBinary node Op_and = [node] -> settles I node (forallb holds l)) as Hone.
  { intros E. rewrite E in Hl. cbn in Hl. apply bind_Some in Hl as (c & Hc & [= <-]).
    cbn. rewrite andb_true_r. by apply Hf. }
  destruct node as [| | | |o a b s e|]; try (by apply Hone). cbn [flattenBinary] in *.
  case_bool_decide; [|by apply Hone]. subst o. clear Hone.
  cbn [children] in IH. rewrite !Forall_cons_iff in IH. destruct IH as (IHl & IHr & _).
  apply map_option_app in Hl as (csl & csr & El & Er & ->). rewrite forallb_app.
  specialize (IHl _ El). specialize (IHr _ Er).
  apply settles_node; [done|]. intros st Hst. cbn [evaluateNode binary].
  apply wp_bind. eapply wp_mono; [by apply settles_boolean|]. intros x s1 [-> Hs1].
  destruct (forallb holds csl); [|by apply wp_ret].
  apply wp_bind. eapply wp_mono; [by apply settles_boolean|]. intros y s2 [-> Hs2].
  by apply wp_ret.
Qed.

Lemma conjunction_decides {A} (f : ExpressionNode -> option A) (holds : A -> bool) node :
  (forall part a, f part = Some a -> decides part (holds a)) ->
  forall l, map_option f (flattenBinary node Op_and) = Some l -> decides node (forallb holds l).
Proof.
  intros Hf l Hl s.
  apply (conjunction_settles (fun s' => marks s' = marks s) f holds node); [done| |done|done].
  intros part a Ha s1 Hs1. rewrite <- Hs1. by apply Hf.
Qed.

Lemma tokenConditions_decide node cs :
  tokenConditions node = Some cs -> decides node (forallb condition_holds cs).
Proof. apply conjunction_decides, token_condition_decides. Qed.

(** The cost of a row: a million times its fixed price, or the sum of its prices
    per token. *)
Definition base_cost (t : TokenTier) (x : number) : Prop :=
  match tt_fixedPrice t with
  | Some amount => x = num_mul amount million
  | None => sum_of (token_amount context) (tt_prices t) x
  end.

(** The image count multiplies the cost of the rows marked with it. *)
Inductive times_images (x : number) : bool -> number -> Prop :=
| not_by_images : times_images x false x
| by_images marked y :
    times_images x marked y ->
    times_images x true (num_mul (default one (ctx_imageCount context)) y).

Definition tier_cost (t : TokenTier) (x : number) : Prop :=
  exists y, base_cost t y /\ times_images y (tt_imageCount t) x.

Definition costs_tier (t : TokenTier) (v : RuntimeValue) : Prop :=
  exists x, rv_value v = VNumber x /\ tier_cost t x.

(** Charging the tier [t]. *)
Definition charges_tier (node : ExpressionNode) (t : TokenTier) : Prop :=
  partially node (fun m v m' => costs_tier t v /\ m' = tier_marks t m).

Lemma tokenTier_charges node cs t : tokenTier node cs = Some t -> charges_tier node t.
Proof.
  destruct node as [| |f args s e| | |]; try done. destruct f; try done.
  destruct args as [|name [|body rest]]; try done.
  { destruct name as [[]| | | | |]; done. }
  destruct name as [[label| | |] i s1 e1| | | | |]; try done. intros Ht st.
  apply (evaluate_partial rules context now headers (Call Fn_tier _ s e)
    (fun m v m' => costs_tier t v /\ m' = tier_marks t m)). clear st. intros st.
  cbn [evaluateNode call]. unfold string_. apply wp_bind, wp_bind.
  eapply wp_mono; [apply eval_literal|]. intros w s2 [-> Hm1]. cbn [rv_value literal_value].
  apply wp_ret, wp_bind.
  enough (wp (fun _ => True) (numeric eval body)
    (fun a s' => tier_cost t a.1 /\
       (label, (marks s').1.2, (marks s').2) = tier_marks t (marks s2)) s2) as Hbody.
  { eapply wp_mono; [exact Hbody|]. intros v s3 [Hv Hs3]. apply wp_bind, wp_modify, wp_ret.
    split; [by exists v.1|]. rewrite <- Hm1, <- Hs3. done. }
  cbn [tokenTier] in Ht.
  assert (forall prices, price_terms (flattenBinary body Op_add) [] = Some prices ->
    t = price_tier label cs prices ->
    wp (fun _ => True) (numeric eval body)
      (fun a s' => tier_cost t a.1 /\
         (label, (marks s').1.2, (marks s').2) = tier_marks t (marks s2)) s2) as Hprices.
  { intros prices Hp ->. eapply wp_mono; [by apply counts_numeric, prices_count|].
    intros v s3 [Hm3 Hv]. rewrite Hm3. split; [|done]. exists v.1. split; [exact Hv|constructor]. }
  destruct body as [| |f args s3 e3| | |]; try (apply bind_Some in Ht as (ps & Hps & Ht);
    eapply Hprices; [exact Hps|]; by destruct ps; [|injection Ht]).
  destruct f; try (apply bind_Some in Ht as (ps & Hps & Ht);
    eapply Hprices; [exact Hps|]; by destruct ps; [|injection Ht]).
  destruct args as [|[[|x| |] i4 s4 e4| | | | |] rest']; try discriminate Ht.
  injection Ht as <-. unfold numeric. apply wp_bind.
  eapply wp_mono; [apply (evaluate_partial rules context now headers (Call Fn_fixed _ s3 e3)
    (fun m v m' => rv_value v = VNumber (num_mul x million) /\ m' = (m.1.1, Unit_request, Some x)))|].
  { intros st'. cbn [evaluateNode call]. apply wp_bind. unfold numeric. apply wp_bind.
    eapply wp_mono; [apply eval_literal|]. intros w' s5 [-> Hm5]. cbn [rv_value literal_value].
    apply wp_ret, wp_bind, wp_modify, wp_ret. split; [done|].
    unfold marks in *. cbn. congruence. }
  intros v s5 [-> Hm5]. apply wp_ret. rewrite Hm5. split; [|done].
  eexists. split; [reflexivity|constructor].
Qed.

(** The tier that is charged is one of [tiers]: the first whose conditions hold
    when the rows are told apart by conditions on tokens alone. *)
Definition charged_row (tiers : list TokenTier) (t : TokenTier) : Prop :=
  t ∈ tiers /\ tier_applies t = true /\
  (Forall (fun t => tt_conditionText t = None) tiers -> List.find tier_applies tiers = Some t).

Definition row_charge (tiers : list TokenTier) (m : marking) (v : RuntimeValue) (m' : marking)
  : Prop :=
  exists t, charged_row tiers t /\ costs_tier t v /\ m' = tier_marks t m.
Definition charges_row (node : ExpressionNode) (tiers : list TokenTier) : Prop :=
  partially node (row_charge tiers).

Lemma tokenTier_data node cs t :
  tokenTier node cs = Some t -> tt_conditions t = cs /\ tt_conditionText t = None.
Proof.
  destruct node as [| |f args s e| | |]; try done. destruct f; try done.
  destruct args as [|[[label| | |] i s1 e1| | | | |] [|body rest]]; try done.
  cbn [tokenTier]. intros Ht.
  assert (forall o : option (list (BillingVariable * number)),
    (prices ← o; match prices with [] => None | _ => Some (price_tier label cs prices) end) = Some t ->
    tt_conditions t = cs /\ tt_conditionText t = None) as Hp.
  { intros [[|]|]; try done. by intros [= <-]. }
  destruct body as [| |f args s3 e3| | |]; try (by eapply Hp). destruct f; try (by eapply Hp).
  destruct args as [|[[|x| |] i4 s4 e4| | | | |] rest']; try (by eapply Hp). by injection Ht as <-.
Qed.

Lemma linear_chain_charges node : forall tiers,
  read_linear_chain node = Some tiers -> charges_row node tiers.
Proof.
  induction node as [node IH] using node_children_ind. intros tiers Ht.
  assert (forall fallback, tokenTier node [] = Some fallback -> tiers = [fallback] ->
    charges_row node tiers) as Hlast.
  { intros t Hf ->. eapply partially_mono; [by eapply tokenTier_charges|].
    intros m v m' [Hv Hm]. exists t. split; [|done].
    apply tokenTier_data in Hf as [Hc Hn]. unfold charged_row, tier_applies. rewrite Hc.
    split; [left|]. split; [done|]. intros _. cbn. by rewrite Hc. }
  destruct node as [| | | | |c y m s e];
    try (cbn [read_linear_chain] in Ht; apply bind_Some in Ht as (fb & Hfb & [= <-]);
         by eapply Hlast).
  clear Hlast. cbn [read_linear_chain] in Ht.
  apply bind_Some in Ht as (cs & Hcs & Ht). apply bind_Some in Ht as (t & Hty & Ht).
  apply bind_Some in Ht as (ts & Hts & [= <-]).
  cbn [children] in IH. rewrite !Forall_cons_iff in IH. destruct IH as (_ & _ & IHm & _).
  specialize (IHm _ Hts). pose proof (tokenTier_data _ _ _ Hty) as [Hc Hn].
  intros st. apply (evaluate_partial rules context now headers (Conditional c y m s e)
    (row_charge (t :: ts))). clear st. intros st.
  cbn [evaluateNode]. apply wp_bind.
  eapply wp_mono; [by apply decides_boolean, tokenConditions_decide|]. intros b s1 [-> Hm1].
  destruct (forallb condition_holds cs) eqn:Eb.
  - apply wp_bind. eapply wp_mono; [apply keeps_match_rule|]. intros [] s2 Hm2. cbn beta in Hm2.
    eapply wp_mono; [by eapply tokenTier_charges|]. intros v s3 [Hv Hm3].
    exists t. split; [|split; [done|by rewrite Hm3, Hm2, Hm1]].
    unfold charged_row, tier_applies. rewrite Hc. split; [left|]. split; [done|].
    intros _. cbn [List.find]. by rewrite Hc, Eb.
  - eapply wp_mono; [apply IHm|]. intros v s3 (t0 & (Hin & Ha & Hf) & Hv & Hm3).
    exists t0. split; [|split; [done|by rewrite Hm3, Hm1]].
    split; [by right|]. split; [done|]. intros [_ Hall]%Forall_cons_iff.
    cbn [List.find]. unfold tier_applies at 1. rewrite Hc, Eb. auto.
Qed.

Lemma audio_chain_charges node tiers :
  read_audio_chain node = Some tiers -> charges_row node tiers.
Proof.
  destruct node as [| | | | |c y m s e]; try done. destruct c as [| | | |o l r s1 e1|]; try done.
  destruct o; try done. cbn [read_audio_chain].
  destruct (audio_input l) as [x|] eqn:El; [|done]. destruct (audio_input r) as [x'|] eqn:Er; [|done].
  case_bool_decide; [done|]. intros Ht. apply bind_Some in Ht as (ta & Ha & Ht).
  apply bind_Some in Ht as (tt & Htt & [= <-]).
  assert (forall n x, audio_input n = Some x -> unmarked n) as Hau.
  { intros n x0. destruct n as [| | | |o a b s2 e2|]; try done. destruct o; try done.
    destruct a as [|[]| | | |]; try done; cbn; destruct (is_zero_literal b) eqn:Ez; try done;
      intros _; apply unmarked_from_children; try done; cbn; rewrite !Forall_cons_iff;
      auto using is_zero_unmarked with billing. }
  assert (unmarked (Binary Op_or l r s1 e1)) as Hu.
  { apply unmarked_from_children; try done. cbn. rewrite !Forall_cons_iff. eauto. }
  assert (forall n t text others, tokenTier n [] = Some t ->
    with_conditionText text t ∈ others -> Exists (fun t => tt_conditionText t <> None) others ->
    charges_row n others) as Hrow.
  { intros n t text others Hn Hin Hex. eapply partially_mono; [by eapply tokenTier_charges|].
    intros m0 v m' [Hv Hm]. exists (with_conditionText text t). split; [|done]. apply tokenTier_data in Hn as [Hc _]. unfold charged_row, tier_applies. cbn.
    rewrite Hc. split; [done|]. split; [done|]. intros Hall. exfalso.
    rewrite Forall_forall in Hall. apply Exists_exists in Hex as (t' & Ht' & Hne).
    by apply Hne, Hall. }
  set (rows := [_; _]).
  assert (Exists (fun t => tt_conditionText t <> None) rows) as Hex by by left.
  intros st. apply (evaluate_partial rules context now headers (Conditional _ y m s e)
    (row_charge rows)). clear st. intros st.
  cbn [evaluateNode]. apply wp_bind.
  eapply wp_mono; [apply keeps_boolean, unmarked_keeps, Hu|]. intros b s2 Hm1. cbn beta in Hm1.
  destruct b.
  - apply wp_bind. eapply wp_mono; [apply keeps_match_rule|]. intros [] s3 Hm2. cbn beta in Hm2.
    eapply wp_mono; [eapply (Hrow y); [done|left|done]|]. intros v s4 Hv. by rewrite <- Hm1, <- Hm2.
  - eapply wp_mono; [eapply (Hrow m); [done|right; left|done]|]. intros v s4 Hv. by rewrite <- Hm1.
Qed.

Lemma image_count_value n :
  is_image_count n = true ->
  counts rules context now headers n (fun x => x = default one (ctx_imageCount context)).
Proof. destruct n as [|[] s e| | | |]; try done. intros _. apply counts_image_count. Qed.

Lemma charged_row_images tiers t :
  charged_row tiers t -> charged_row (map with_imageCount tiers) (with_imageCount t).
Proof.
  intros (Hin & Ha & Hf). split; [|split; [done|]].
  - apply list_elem_of_In. apply in_map. by apply list_elem_of_In.
  - intros Hall. rewrite Forall_map in Hall. specialize (Hf Hall). clear -Hf.
    induction tiers as [|t' ts IH]; [done|]. cbn [map List.find] in *.
    change (tier_applies (with_imageCount t')) with (tier_applies t').
    destruct (tier_applies t'); [by injection Hf as ->|auto].
Qed.

Lemma images_row ts m x m' :
  (exists t, charged_row ts t /\ tier_cost t x /\ m' = tier_marks t m) ->
  exists t, charged_row (map with_imageCount ts) t /\
    tier_cost t (num_mul (default one (ctx_imageCount context)) x) /\ m' = tier_marks t m.
Proof.
  intros (t & Ht & (y & Hy & Hx) & ->). exists (with_imageCount t).
  split; [by apply charged_row_images|]. split; [|done]. exists y. split; [done|]. by econstructor.
Qed.

Lemma product_row l r s e ts :
  is_image_count l = true /\ charges_row r ts \/ is_image_count r = true /\ charges_row l ts ->
  charges_row (Binary Op_mul l r s e) (map with_imageCount ts).
Proof.
  intros Hor st.
  set (row := fun ts (m : marking) (x : number) (m' : marking) =>
    exists t, charged_row ts t /\ tier_cost t x /\ m' = tier_marks t m).
  set (images := fun (m : marking) (x : number) (m' : marking) =>
    x = default one (ctx_imageCount context) /\ m' = m).
  assert (forall n, charges_row n ts -> forall st, wp (fun _ => True) (eval n)
    (fun v st' => forall x, rv_value v = VNumber x -> row ts (marks st) x (marks st')) st) as Hrow.
  { intros n Hn st'. eapply wp_mono; [apply Hn|].
    intros v s' (t & Ht & (y & Hy & Hc) & Hm) x Hx. exists t.
    rewrite Hy in Hx. by injection Hx as ->. }
  assert (forall n, is_image_count n = true -> forall st, wp (fun _ => True) (eval n)
    (fun v st' => forall x, rv_value v = VNumber x -> images (marks st) x (marks st')) st) as Himg.
  { intros n Hn st'. eapply wp_mono; [by apply image_count_value|].
    intros v s' [Hm Hx] x Hv. split; auto. }
  eapply (wp_mono _ _ (fun v st' => exists x, rv_value v = VNumber x /\
    row (map with_imageCount ts) (marks st) x (marks st'))).
  - destruct Hor as [[Hl Hr]|[Hr Hl]].
    + apply (eval_product rules context now headers images (row ts)); auto.
      intros m m1 m2 x y [-> ->] Hy. by apply images_row.
    + apply (eval_product rules context now headers (row ts) images); auto.
      intros m m1 m2 x y Hx [-> ->]. rewrite num_mul_comm. by apply images_row.
  - intros v s' (x & Hv & t & Ht & Hc & Hm). exists t. split; [done|]. split; [by exists x|done].
Qed.

(** The rows read off a tree hold the row its evaluation charges. *)
Lemma token_chain_charges node : forall tiers,
  readTokenTierChain node = Some tiers -> charges_row node tiers.
Proof.
  induction node as [node IH] using node_children_ind. intros tiers Ht.
  assert (forall o, read_audio_chain node = o -> o = Some tiers \/ o = None) as Haudio.
  { intros o E. destruct node; cbn [readTokenTierChain] in Ht; rewrite E in Ht;
      destruct o; auto; left; congruence. }
  destruct (Haudio _ eq_refl) as [Ha|Ha]; [by apply audio_chain_charges|]. clear Haudio.
  destruct node as [| | | |o l r s e|]; cbn [readTokenTierChain] in Ht; rewrite Ha in Ht;
    try (by apply linear_chain_charges).
  destruct o; try (by apply linear_chain_charges).
  cbn [children] in IH. rewrite !Forall_cons_iff in IH. destruct IH as (IHl & IHr & _).
  destruct (is_image_count l) eqn:El.
  { apply fmap_Some in Ht as (ts & Hts & ->). apply product_row; left. auto. }
  destruct (is_image_count r) eqn:Er; [|by apply linear_chain_charges].
  apply fmap_Some in Ht as (ts & Hts & ->). apply product_row; right. auto.
Qed.
End chain.

(** ** Results do not depend on the fields a run starts with

    A run that succeeds gives the same value from any other consistent cache of
    time values and from any smaller depth. *)

Section independence.
Context `{Host}.
Context (rules : list CompiledRule) (context : BillingSimulationContext)
        (now : date) (headers : list (str * str)).
Abbreviation eval := (evaluate rules context now headers).

Definition below_state (s s2 : RuntimeState) : Prop :=
  time_ok now s /\ time_ok now s2 /\ (depth s2 <= depth s)%Z.

Definition follows {A} (m : running A) : Prop :=
  forall s s2 v s', below_state s s2 -> m s = Ok (v, s') ->
  exists s2', m s2 = Ok (v, s2') /\ below_state s' s2' /\
    depth s' = depth s /\ depth s2' = depth s2.

Lemma follows_ret {A} (a : A) : follows (mret a).
Proof. intros s s2 v s' Hb [= <- <-]. exists s2. split; [done|]. by split. Qed.
Lemma follows_throwing {A} e : follows (throwing e : running A).
Proof. by intros s s2 v s' Hb. Qed.
Lemma follows_error {A} c d n : follows (error_at c d n : running A).
Proof. apply follows_throwing. Qed.
Lemma follows_lift {A} (r : outcome A) : follows (lift r).
Proof.
  intros s s2 v s' Hb. unfold lift. destruct r; [|done]. intros [= <- <-].
  exists s2. split; [done|]. by split.
Qed.
Lemma follows_bind {A B} (m : running A) (f : A -> running B) :
  follows m -> (forall a, follows (f a)) -> follows (m ≫= f).
Proof.
  intros Hm Hf s s2 v s' Hb Hr. apply method_bind_ok in Hr as (a & s1 & H1 & H2).
  destruct (Hm _ _ _ _ Hb H1) as (s3 & E3 & Hb3 & Hd3 & Hd3').
  destruct (Hf _ _ _ _ _ Hb3 H2) as (s4 & E4 & Hb4 & Hd4 & Hd4').
  exists s4. split; [|split; [done|split; congruence]]. apply method_bind_ok. eauto.
Qed.
Lemma follows_modify f :
  (forall s, timeValues (f s) = timeValues s /\ depth (f s) = depth s) -> follows (modify f).
Proof.
  intros Hf s s2 v s' (H1 & H2 & H3) [= <- <-]. exists (f s2). split; [done|].
  destruct (Hf s) as [Et Ed], (Hf s2) as [Et2 Ed2].
  unfold below_state, time_ok. by rewrite Et, Et2, Ed, Ed2.
Qed.
#[local] Hint Resolve follows_ret follows_throwing follows_error follows_lift : follows.

Lemma follows_time t zone : follows (time_call now t zone).
Proof.
  intros s s2 v s' (H1 & H2 & H3) Hr.
  assert (exists tv, timeInBillingZone now zone = Ok tv /\ v = Rv (VNumber (time_value tv t)) true /\
    time_ok now s' /\ depth s' = depth s) as (tv & Htv & -> & Ht' & Hd).
  { unfold time_call in Hr. apply method_bind_ok in Hr as (s0 & s1 & [= <- <-] & Hr).
    destruct (assoc_get zone (timeValues s)) as [tv|] eqn:E.
    - injection Hr as <- <-. exists tv. split; [by apply H1|done].
    - apply method_bind_ok in Hr as (tv & s3 & Hl & Hr). apply lift_ok in Hl as [Htv ->].
      apply method_bind_ok in Hr as (u_ & s4 & [= <- <-] & [= <- <-]). exists tv.
      split; [done|]. split; [done|]. split; [|done]. intros z w. cbn [timeValues set_timeValues].
      destruct (decide (zone = z)) as [<-|Hz].
      + rewrite assoc_get_set_eq. by intros [= <-].
      + rewrite assoc_get_set_ne by done. apply H1. }
  unfold time_call. unfold mbind at 1, method_bind at 1, get.
  destruct (assoc_get zone (timeValues s2)) as [tv2|] eqn:E2.
  - pose proof (H2 _ _ E2) as Htv2. assert (tv2 = tv) as -> by congruence.
    exists s2. split; [done|]. split; [|done]. split; [done|]. split; [done|lia].
  - rewrite Htv. eexists. split; [reflexivity|]. split; [|done]. split; [done|]. split; [|cbn; lia].
    intros z w. cbn [timeValues set_timeValues]. destruct (decide (zone = z)) as [<-|Hz].
    + rewrite assoc_get_set_eq. by intros [= <-].
    + rewrite assoc_get_set_ne by done. apply H2.
Qed.

Lemma follows_evaluate node :
  follows (evaluateNode rules context now headers eval node) -> follows (eval node).
Proof.
  intros Hn s s2 v s' (H1 & H2 & H3). rewrite !evaluate_unfold. intros Hr.
  unfold mbind, method_bind, get, put, modify, method_throw_when in Hr |- *.
  destruct (Z.ltb_spec 256 (depth s + 1)) as [|Hd]; [done|].
  destruct (Z.ltb_spec 256 (depth s2 + 1)) as [|Hd2]; [lia|].
  cbn [mret method_ret] in Hr |- *.
  destruct (evaluateNode _ _ _ _ _ _ (set_depth (depth s + 1) s)) as [[w s3]|] eqn:E3; [|done].
  assert (below_state (set_depth (depth s + 1) s) (set_depth (depth s2 + 1) s2)) as Hb.
  { split; [done|]. split; [done|]. cbn [depth set_depth]. lia. }
  destruct (Hn _ _ _ _ Hb E3) as (s4 & E4 & (Hb1 & Hb2 & Hb3) & Hd4 & Hd4').
  rewrite E4. cbn [depth set_depth] in Hd4, Hd4'.
  unfold check_value in Hr |- *.
  destruct (rv_value w) as [| | |x| | |];
    try (injection Hr as <- <-; eexists; split; [reflexivity|]; split;
         [split; [exact Hb1|]; split; [exact Hb2|cbn; lia]|cbn; split; lia]).
  destruct (negb (num_is_finite x)); [done|]. destruct (_ && _); [done|].
  injection Hr as <- <-. eexists. split; [reflexivity|].
  split; [split; [exact Hb1|]; split; [exact Hb2|cbn; lia]|cbn; split; lia].
Qed.

Lemma follows_boolean node : follows (eval node) -> follows (boolean eval node).
Proof. intros Hn. apply follows_bind; [done|]. intros v. destruct (rv_value v); auto with follows. Qed.
Lemma follows_numeric node : follows (eval node) -> follows (numeric eval node).
Proof. intros Hn. apply follows_bind; [done|]. intros v. destruct (rv_value v); auto with follows. Qed.
Lemma follows_string node : follows (eval node) -> follows (string_ eval node).
Proof. intros Hn. apply follows_bind; [done|]. intros v. destruct (rv_value v); auto with follows. Qed.
Lemma follows_match_rule node : follows (match_rule rules node).
Proof. unfold match_rule. case_match; [by apply follows_modify|apply follows_ret]. Qed.
Lemma follows_apply node o l r : follows (apply_binary node o l r).
Proof. unfold apply_binary. cbv zeta. repeat case_match; auto with follows. Qed.
#[local] Hint Resolve follows_boolean follows_numeric follows_string follows_match_rule
  follows_apply follows_time : follows.

Ltac follow := repeat first
  [ apply follows_time | apply follows_bind; [|intros ?] | case_match | by apply follows_modify
  | progress (auto with follows) ].

Lemma evaluate_follows n : follows (eval n).
Proof.
  induction n as [n Hc] using node_children_ind. apply follows_evaluate.
  destruct n as [| v |f args s e|o a s e|o a b s e|c y m s e]; cbn [children] in Hc;
    rewrite ?Forall_cons_iff in Hc; cbn [evaluateNode].
  - apply follows_ret.
  - unfold evaluate_variable. destruct v; follow.
  - destruct args as [|a rest]; [apply follows_throwing|].
    apply Forall_cons_iff in Hc as [Ha Hrest].
    destruct f; cbn [call];
      try (destruct rest as [|b rest]; [|apply Forall_cons_iff in Hrest as [Hb _]]);
      unfold missing; follow.
  - destruct Hc as [Ha _], o; follow.
  - destruct Hc as (Ha & Hb & _). unfold binary. destruct o; follow.
  - destruct Hc as (Hcond & Hy & Hm & _). follow.
Qed.
End independence.

(** ** Conditions on the time *)

(** The inputs [evaluateBillingCondition] runs with. *)
Definition only_time (now : date) : BillingSimulationContext :=
  {| ctx_imageCount := None; ctx_tokens := None; ctx_request := None;
     ctx_usage := None; ctx_now := Some now |}.

Lemma isTimeCondition_spec c :
  (node_height c <= 256)%nat ->
  exists b, isTimeCondition c = Ok b /\
    (b = true <-> (forall v, ~ mentioned v c) /\ (exists t, called (Fn_time t) c) /\
       forall f, called f c -> is_time_helper f = true).
Proof.
  intros Hh. unfold isTimeCondition.
  destruct (expressionDependencies_spec c Hh) as (d & -> & Hf & Hv).
  eexists. split; [reflexivity|]. rewrite !andb_true_iff, existsb_exists, forallb_forall.
  split.
  - intros [[H1 (f & Hin & Ht)] H3]. split; [|split].
    + intros v. rewrite <- Hv. destruct (variables d); [inversion 1|done].
    + destruct f; try done. eexists. by apply Hf, list_elem_of_In.
    + intros g Hc. apply H3, list_elem_of_In, Hf, Hc.
  - intros (H1 & (t & Ht) & H3). split; [split|].
    + destruct (variables d) as [|v vs]; [done|]. exfalso. apply (H1 v), Hv. left.
    + exists (Fn_time t). split; [|done]. apply list_elem_of_In, Hf, Ht.
    + intros f Hin. apply H3, Hf, list_elem_of_In, Hin.
Qed.

Lemma time_condition_unmarked c :
  (node_height c <= 256)%nat -> isTimeCondition c = Ok true -> unmarked c.
Proof.
  intros Hh Ht. destruct (isTimeCondition_spec c Hh) as (b & Hb & Hiff).
  rewrite Ht in Hb. injection Hb as <-. destruct Hiff as [(_ & _ & Hf) _]; [done|].
  by split; intros Hc; apply Hf in Hc.
Qed.

Section time.
Context `{Host}.
Context (compiled : CompiledBillingExpression) (context : BillingSimulationContext)
        (now : date) (headers : list (str * str)).
Abbreviation rules := (ce_requestRules compiled).
Abbreviation eval := (evaluate rules context now headers).

(** A condition on the time has the same value in every run at that time. *)
Lemma time_condition_value c s v s' :
  (node_height c <= 256)%nat -> isTimeCondition c = Ok true -> time_ok now s -> (0 <= depth s)%Z ->
  boolean eval c s = Ok (v, s') -> evaluateBillingCondition compiled c now = Some v.
Proof.
  intros Hh Ht Hok Hd Hr. destruct (isTimeCondition_spec c Hh) as (b & Hb & Hiff).
  rewrite Ht in Hb. injection Hb as <-. destruct Hiff as [(Hv & _ & Hf) _]; [done|].
  unfold boolean in Hr. apply method_bind_ok in Hr as (w & s1 & Hr & Hw).
  destruct (rv_value w) as [| |b'| | | |] eqn:Ew; try done. injection Hw as <- <-.
  destruct (evaluate_follows rules context now headers c s (initial_state rules) w s1)
    as (s2 & Hs2 & _); [by split; [|split]|done|].
  unfold evaluateBillingCondition, run. cbn [request_headers ctx_request fold_result mbind result_bind].
  fold (only_time now). rewrite <- (evaluate_agrees rules context (only_time now) now now headers [] c).
  - cbn [only_time ctx_now default]. by rewrite Hs2, Ew.
  - constructor; [intros v Hm; by apply Hv in Hm|..]; intros; try done;
      match goal with Hc : called _ _ |- _ => apply Hf in Hc; discriminate Hc end.
Qed.

Lemma evaluate_time_ok n s v s' :
  time_ok now s -> eval n s = Ok (v, s') -> time_ok now s' /\ depth s' = depth s.
Proof.
  intros Hok Hr.
  destruct (evaluate_follows rules context now headers n s s v s') as (s2 & _ & (H1 & _) & Hd & _);
    [by split; [|split]|done|done].
Qed.
(** A conditional ran its condition and then one branch, each one level down. *)
Lemma conditional_inv c y m p e s v s' :
  time_ok now s -> eval (Conditional c y m p e) s = Ok (v, s') ->
  exists b s1 s2 s3, boolean eval c (set_depth (depth s + 1) s) = Ok (b, s1) /\
    marks s2 = marks s1 /\ time_ok now s2 /\ depth s2 = (depth s + 1)%Z /\
    eval (if b then y else m) s2 = Ok (v, s3) /\ marks s' = marks s3.
Proof.
  intros Hok Hr. rewrite evaluate_unfold in Hr.
  apply method_bind_ok in Hr as (s0 & s1 & [= <- <-] & Hr).
  apply method_bind_ok in Hr as ([] & s1 & [= <-] & Hr).
  apply method_bind_ok in Hr as ([] & s2 & Hd & Hr). apply method_throw_when_ok in Hd as (_ & ->).
  apply method_bind_ok in Hr as (w & s3 & Hn & Hr).
  assert (v = w /\ marks s' = marks s3) as [-> Hm].
  { apply method_bind_ok in Hr as ([] & s4 & Hc & Hr).
    apply method_bind_ok in Hr as ([] & s5 & [= <-] & [= <- <-]). split; [done|].
    unfold check_value in Hc. destruct (rv_value w); try by injection Hc as <-.
    destruct (negb _); [done|]. destruct (_ && _); [done|]. by injection Hc as <-. }
  cbn [evaluateNode] in Hn. apply method_bind_ok in Hn as (b & s1 & Hb & Hn).
  assert (time_ok now s1 /\ depth s1 = (depth s + 1)%Z) as [Hok1 Hd1].
  { pose proof Hb as Hb'. unfold boolean in Hb'. apply method_bind_ok in Hb' as (x & s4 & Hx & Hb').
    destruct (rv_value x); try discriminate Hb'. injection Hb' as _ <-.
    exact (evaluate_time_ok _ (set_depth (depth s + 1) s) _ _ Hok Hx). }
  destruct b.
  - apply method_bind_ok in Hn as ([] & s2 & Hu & Hn). exists true, s1, s2, s3.
    unfold match_rule in Hu. case_match; injection Hu as <-; done.
  - by exists false, s1, s1, s3.
Qed.

(** The conditions on the time that led to a tier hold, one by one. *)
Definition holds_now (c : TimeTierCondition) : Prop :=
  evaluateBillingCondition compiled (tcond_condition c) now = Some (tcond_matches c).

Definition charged_at (tiers : list TimeTokenTier) (path : list TimeTierCondition)
    (before : str * BillingUnit * option number) (v : RuntimeValue)
    (after : str * BillingUnit * option number) : Prop :=
  exists tier more, tier ∈ tiers /\ tier_applies context (ttt_tier tier) = true /\
    costs_tier context (ttt_tier tier) v /\ after = tier_marks (ttt_tier tier) before /\
    ttt_timeConditions tier = path ++ more /\ Forall holds_now more.

Lemma charged_at_app path c l1 l2 (first : bool) before v after :
  holds_now c -> charged_at (if first then l1 else l2) (path ++ [c]) before v after ->
  charged_at (l1 ++ l2) path before v after.
Proof.
  intros Hc (tier & more & Hin & Ha & Hv & Hm & Hp & Hall).
  exists tier, (c :: more). split; [apply elem_of_app; destruct first; auto|].
  rewrite <- app_assoc in Hp. by repeat split; [..|constructor].
Qed.

Lemma time_branches_charge node : forall path tiers s v s',
  timeTierBranches compiled node path = Ok (Some tiers) -> (node_height node <= 256)%nat ->
  time_ok now s -> (0 <= depth s)%Z -> eval node s = Ok (v, s') ->
  charged_at tiers path (marks s) v (marks s').
Proof.
  induction node as [node IH] using node_children_ind. intros path tiers s v s' Ht Hh Hok Hd Hr.
  set (leaf := match readTokenTierChain node, path with
    | Some tiers, _ :: _ => Some (map (fun tier =>
          {| ttt_tier := with_conditionText (join (u " && ")
               (join (u " && ") (map (time_text_of (ce_source compiled)) path)
                  :: map condition_text (tt_conditions tier))) tier;
             ttt_timeConditions := path |}) tiers)
    | _, _ => None end).
  assert (leaf = Some tiers -> charged_at tiers path (marks s) v (marks s')) as Hleaf.
  { unfold leaf. destruct (readTokenTierChain node) as [rows|] eqn:Er; [|done].
    destruct path as [|c path]; [done|]. intros [= <-].
    pose proof (token_chain_charges rules context now headers node rows Er s) as Hc.
    unfold wp in Hc. rewrite Hr in Hc. destruct Hc as (t & (Hin & Ha & _) & Hv & Hm).
    eexists _, []. split; [apply list_elem_of_In, in_map, list_elem_of_In, Hin|].
    rewrite app_nil_r. by repeat split. }
  destruct node as [| | | | |c y m p e]; try (apply Hleaf; by injection Ht).
  cbn [timeTierBranches] in Ht. apply result_bind_ok in Ht as (by_time & Hb & Ht).
  destruct by_time; [|apply Hleaf; injection Ht as Ht; exact Ht]. clear Hleaf leaf.
  apply result_bind_ok in Ht as (ys & Hys & Ht). apply result_bind_ok in Ht as (ns & Hns & Ht).
  injection Ht as Ht. apply bind_Some in Ht as (ly & -> & Ht). apply bind_Some in Ht as (ln & -> & [= <-]).
  cbn [children] in IH. rewrite !Forall_cons_iff in IH. destruct IH as (_ & IHy & IHm & _).
  cbn [node_height] in Hh.
  destruct (conditional_inv _ _ _ _ _ _ _ _ Hok Hr) as (b & s1 & s2 & s3 & Hb1 & Hm2 & Hok2 & Hd2 & Hr2 & Hm').
  assert (marks s1 = marks s) as Hm1.
  { pose proof (keeps_boolean rules context now headers c) as Hk.
    specialize (Hk (unmarked_keeps _ _ _ _ c (time_condition_unmarked c ltac:(lia) Hb))
      (set_depth (depth s + 1) s)). unfold wp in Hk. by rewrite Hb1 in Hk. }
  apply time_condition_value in Hb1 as Hc; [|lia|done|done|cbn; lia].
  apply (charged_at_app path (TimeTierCond c b) ly ln b); [done|].
  rewrite <- Hm1, <- Hm2, Hm'. destruct b; [eapply IHy|eapply IHm]; eauto; lia.
Qed.

End time.

(** ** The displayed rows and the charge *)

Lemma evaluateCompiled_inv `{Host} clock compiled context r :
  evaluateCompiled clock compiled context = inl r ->
  exists headers v s, evaluate (ce_requestRules compiled) context (now_of clock context) headers
      (ce_ast compiled) (initial_state (ce_requestRules compiled)) = Ok (v, s) /\
    rv_value v = VNumber (be_cost r) /\
    marks s = (be_matchedTier r, be_billingUnit r, be_fixedPrice r).
Proof.
  unfold evaluateCompiled, evaluate_body, run.
  destruct (fold_result check_token _ _) as [[]|]; [|done]. cbn [mbind result_bind].
  destruct (fold_result add_header _ _) as [hs|]; [|done]. cbn [mbind result_bind].
  fold (now_of clock context).
  destruct (evaluate _ _ _ _ _ _) as [[v s]|] eqn:Ev; [|done]. cbn [mbind result_bind].
  destruct (rv_value v) as [| | |x| | |] eqn:Er; try done. destruct (negb _); [done|].
  intros [= <-]. by exists hs, v, s.
Qed.

(** C4: the rows [readTokenTierChain] shows for an expression hold the row the
    expression charges.  A successful evaluation matched a tier with the label and
    the fixed price of a row whose conditions hold of the tokens, and this is the
    first such row unless the rows are told apart by a description; and the cost is
    what the row says: a million times its fixed price, or the sum of its prices
    times their token counts, multiplied by the image count where the row is
    marked with it. *)
Theorem token_rows_hold_the_charge `{Host} clock compiled context tiers r :
  readTokenTierChain (ce_ast compiled) = Some tiers ->
  evaluateCompiled clock compiled context = inl r ->
  exists t, t ∈ tiers /\ tier_applies context t = true /\
    (Forall (fun t => tt_conditionText t = None) tiers ->
       List.find (tier_applies context) tiers = Some t) /\
    tier_cost context t (be_cost r) /\
    (be_matchedTier r, be_billingUnit r, be_fixedPrice r)
      = tier_marks t ([], Unit_token, None).
Proof.
  intros Ht (hs & v & s & Hv & Hcost & Hm)%evaluateCompiled_inv.
  pose proof (token_chain_charges (ce_requestRules compiled) context (now_of clock context) hs
    _ _ Ht (initial_state (ce_requestRules compiled))) as Hc.
  unfold wp in Hc. rewrite Hv, Hm in Hc.
  destruct Hc as (t & (Hin & Ha & Hf) & (x & Hx & Hc) & Hm').
  exists t. rewrite Hcost in Hx. by injection Hx as <-.
Qed.

Definition two_tiers : str := u "p <= 200000 ? tier('base', p * 3 + c * 15) : tier('long', p * 6)".

Lemma token_rows_hold_the_charge_witness : exists tiers r t,
  readTokenTierChain (ce_ast (compiled_text two_tiers)) = Some tiers /\
  evaluateCompiled (H := two_zones) 0 (compiled_text two_tiers) (tokens_context 300000 1) = inl r /\
  t ∈ tiers /\ tt_label t = u "long" /\ be_matchedTier r = u "long".
Proof.
  succeeds (readTokenTierChain (ce_ast (compiled_text two_tiers))) tiers Et.
  succeeds (evaluateCompiled (H := two_zones) 0 (compiled_text two_tiers)
    (tokens_context 300000 1)) r Er.
  destruct (token_rows_hold_the_charge (H := two_zones) _ _ _ _ _ Et Er) as (t & Hin & _ & Hf & _ & _).
  exists tiers, r, t. split_and!; [done|done|done|..];
    vm_compute in Et; injection Et as <-; vm_compute in Er; injection Er as <-; [|done].
  assert (List.find (tier_applies (tokens_context 300000 1)) _ = Some t) as Ht by (apply Hf; repeat constructor).
  vm_compute in Ht. by injection Ht as <-.
Defined.

Lemma time_branches_total compiled node : forall path,
  (node_height node <= 256)%nat -> exists o, timeTierBranches compiled node path = Ok o.
Proof.
  induction node as [node IH] using node_children_ind. intros path Hh.
  destruct node as [| | | | |c y m p e]; try (eexists; reflexivity).
  cbn [timeTierBranches]. cbn [node_height] in Hh.
  destruct (isTimeCondition_spec c ltac:(lia)) as (b & -> & _). cbn [mbind result_bind].
  destruct b; [|eexists; reflexivity].
  cbn [children] in IH. rewrite !Forall_cons_iff in IH. destruct IH as (_ & IHy & IHm & _).
  destruct (IHy (path ++ [TimeTierCond c true]) ltac:(lia)) as [oy ->]. cbn [mbind result_bind].
  destruct (IHm (path ++ [TimeTierCond c false]) ltac:(lia)) as [om ->]. by eexists.
Qed.

(** [readTimeTokenPricing] does not throw, and the tiers it marks as current
    at a time hold the tier that an evaluation at that time charges: every
    condition on the time that leads to the tier has its value then, the label and
    the fixed price are the ones charged, and the cost is what the prices of the
    tier come to. *)
Theorem current_tiers_hold_the_charge `{Host} source compiled clock now context r :
  compile source = inl compiled -> ctx_now context = Some now ->
  evaluateCompiled clock compiled context = inl r ->
  exists pricing, readTimeTokenPricing source (Some now) = Ok pricing /\
    forall tiers current, pricing = Some (tiers, current) ->
    exists t, t ∈ tiers /\ t ∈ current /\ tier_applies context (ttt_tier t) = true /\
      tier_cost context (ttt_tier t) (be_cost r) /\
      (be_matchedTier r, be_billingUnit r, be_fixedPrice r)
        = tier_marks (ttt_tier t) ([], Unit_token, None).
Proof.
  intros Ec Hnow (hs & v & s & Hv & Hcost & Hm)%evaluateCompiled_inv.
  unfold now_of in Hv. rewrite Hnow in Hv. cbn [default] in Hv.
  unfold readTimeTokenPricing. rewrite Ec. apply compile_ready in Ec as [_ Hok].
  destruct (time_branches_total compiled (ce_ast compiled) [] (co_height _ Hok)) as [o Ho].
  rewrite Ho. cbn [mbind result_bind]. eexists. split; [reflexivity|].
  intros tiers current Hp. apply bind_Some in Hp as (l & -> & [= <- <-]).
  destruct (time_branches_charge compiled context now hs _ _ _ (initial_state (ce_requestRules compiled)) _ _ Ho (co_height _ Hok)
    ltac:(by intros z w) (Z.le_refl 0) Hv) as (t & more & Hin & Ha & (x & Hx & Hprice) & Hmark & Hpath & Hall).
  rewrite Hcost in Hx. injection Hx as <-.
  exists t. split_and!; [done| |done|done|by rewrite <- Hm].
  apply list_elem_of_In, filter_In. split; [by apply list_elem_of_In|].
  unfold is_current. rewrite Hpath. cbn [app]. apply forallb_forall. intros c Hc.
  apply bool_decide_eq_true. rewrite Forall_forall in Hall. by apply Hall.
Qed.

Definition night_tier : str :=
  u "hour('UTC') < 8 ? tier('night', p * 1) : tier('day', p * 3)".

Lemma current_tiers_hold_the_charge_witness : exists r pricing,
  evaluateCompiled (H := two_zones) 0 (compiled_text night_tier) (tokens_context 10 1) = inl r /\
  be_matchedTier r = u "night" /\
  readTimeTokenPricing (H := two_zones) night_tier (Some (Some 0%Z)) = Ok pricing /\
  exists tiers current t, pricing = Some (tiers, current) /\ length tiers = 2%nat /\
    t ∈ current /\ tt_label (ttt_tier t) = u "night".
Proof.
  succeeds (evaluateCompiled (H := two_zones) 0 (compiled_text night_tier)
    (tokens_context 10 1)) r Er.
  destruct (current_tiers_hold_the_charge (H := two_zones) night_tier (compiled_text night_tier) 0
    (Some 0%Z) (tokens_context 10 1) r ltac:(vm_compute; reflexivity) eq_refl Er)
    as (pricing & Hp & Hall).
  destruct pricing as [[tiers current]|]; [|by vm_compute in Hp].
  destruct (Hall _ _ eq_refl) as (t & _ & Hin & _ & _ & Hm).
  assert (be_matchedTier r = u "night") as Hr by (vm_compute in Er; injection Er as <-; done).
  eexists r, _. split; [done|]. split; [done|]. split; [exact Hp|].
  exists tiers, current, t. split; [done|]. split; [|split; [done|]].
  - exact (eq_sym (f_equal (fun o => match o with
      | Ok (Some (tiers, _)) => length tiers | _ => 0%nat end) Hp)).
  - apply (f_equal (fun m => m.1.1)) in Hm. rewrite <- Hr. unfold tier_marks in Hm.
    by destruct (tt_fixedPrice _).
Defined.
