(* ===== verification/EngineTheorems.v ===== *)
(** The contract of the expression engine, stated on the functions
    [billing-expression/index.ts] exports: what compiles, what an evaluation
    returns, which inputs it reads.  The proofs apply the specifications of the
    parser, the compiler and the interpreter. *)

From Stdlib Require Import String.
From S2P Require Import Prelude JsNumber JsString JsText Ast Parser Compile Request.
From S2P Require Import BillingTime.
From S2P Require Import Runtime RuntimeFacts FixedPrice DisplayFacts Grammar.

(** ** Compilation *)

(** C2: [compileBillingExpression] decides the language of the engine: it
    returns a compiled expression exactly for the texts that parse to a tree of
    at most 256 levels, that have a type, and whose fixed prices stand only
    where a price may stand; the compiled form records the tree, its
    dependencies and its request rules.  Every other text fails with a
    diagnostic of the engine, never with an error of the language. *)
Theorem compile_decides source :
  match compile source with
  | inl compiled => compiles source compiled
  | inr failure =>
      (forall compiled, ~ compiles source compiled) /\
      exists d, failure = expressionFailure (BillingExpressionError d)
  end.
Proof.
  unfold compile. pose proof (compile_body_spec source) as H.
  destruct (compile_body source) as [c|e]; [done|].
  destruct H as [[d ->] Hn]. split; [done|]. by exists d.
Qed.

(** C38: parsing ends on every text, within the fuel the model gives it: with a
    tree whose nodes have the right number of arguments and nested, ordered
    spans inside the text, or with an error of the engine's own class. *)
Theorem parse_terminates source :
  match parse source with
  | Ok ast => tree_ok ast /\ (node_end ast <= length source)%nat
  | Throw e => billing_exn e
  end.
Proof. apply parse_spec. Qed.

(** C3: the recursive descent with its one-lexeme lookahead, its precedence
    climbing and its limits is the grammar: a text parses to a tree exactly when,
    behind an optional version 1, its lexemes derive the tree in the grammar with
    the precedences of the operators, in at most 65536 characters, 10000 lexemes
    and 128 levels.  The right side does not mention the parser. *)
Theorem parse_is_the_grammar source ast : parse source = Ok ast <-> grammatical source ast.
Proof. split; [apply parse_sound|apply parse_complete]. Qed.

(** in a parsed tree no two nodes have the same span, so looking a node up by
    its span, as the source map of the types and of the rules does by object
    identity, finds that node and no other. *)
Theorem spans_identify_nodes source ast a b :
  parse source = Ok ast -> a ∈ postorder ast -> b ∈ postorder ast ->
  same_node a b = true <-> a = b.
Proof. intros H%parse_tree_ok. by apply same_node_eq. Qed.

Lemma spans_identify_nodes_witness :
  exists ast a b, parse (u "1 + 1") = Ok ast /\ a ∈ postorder ast /\ b ∈ postorder ast /\
    a <> b /\ same_node a b = false.
Proof.
  succeeds (parse (u "1 + 1")) ast E.
  destruct ast as [| | | |o a b s e|] eqn:Ea; try (vm_compute in E; discriminate E).
  assert (Hda : a ∈ postorder (Binary o a b s e)).
  { apply (postorder_child _ a); [left|apply postorder_self]. }
  assert (Hdb : b ∈ postorder (Binary o a b s e)).
  { apply (postorder_child _ b); [right; left|apply postorder_self]. }
  pose proof (spans_identify_nodes (u "1 + 1") _ a b E Hda Hdb) as Hs.
  exists (Binary o a b s e), a, b. split; [reflexivity|]. split; [exact Hda|]. split; [exact Hdb|].
  assert (same_node a b = false) as Hab.
  { vm_compute in E. injection E as _ <- <- _ _. reflexivity. }
  split; [|exact Hab]. intros Heq. apply Hs in Heq. congruence.
Defined.

(** the type checker, one pass over the nodes with a map from nodes to
    types, accepts exactly the trees to which the structural typing rules give a
    type, and refuses the others with an error of the engine. *)
Theorem type_checker_is_inference source ast :
  parse source = Ok ast -> (node_height ast <= 256)%nat ->
  match infer ast with
  | Some _ => checkExpressionTypes ast = Ok tt
  | None => exists e, checkExpressionTypes ast = Throw e /\ billing_exn e
  end.
Proof. intros H%parse_tree_ok. by apply checkExpressionTypes_infer. Qed.

Lemma type_checker_is_inference_witness :
  exists ast e, parse (u "1 + 'a'") = Ok ast /\
    checkExpressionTypes ast = Throw e /\ billing_exn e.
Proof.
  succeeds (parse (u "1 + 'a'")) ast E.
  assert (node_height ast <= 256)%nat as Hh by (vm_compute in E; injection E as <-; vm_compute; lia).
  pose proof (type_checker_is_inference (u "1 + 'a'") ast E Hh) as Ht.
  assert (infer ast = None) as Hi by (vm_compute in E; injection E as <-; vm_compute; reflexivity).
  rewrite Hi in Ht. destruct Ht as (e & He & Hb).
  exists ast, e. split; [reflexivity|]. split; [exact He|exact Hb].
Defined.

(** the traversal with an explicit stack visits the nodes of a tree of at most
    256 levels children first and from left to right, and refuses a higher
    tree. *)
Theorem traversal_is_postorder {A} (visitor : A -> ExpressionNode -> outcome A) node st :
  if (node_height node <=? 256)%nat
  then visitExpression visitor node st = fold_result visitor st (postorder node)
  else forall st', visitExpression visitor node st <> Ok st'.
Proof.
  destruct (visitExpression_spec visitor node st) as [H1 H2].
  destruct (Nat.leb_spec (node_height node) 256); [by apply H1|]. by apply H2.
Qed.

(** C39: the cache of 128 compilations is transparent: whatever texts were compiled
    before, every call returns what a fresh compilation returns, and the cache
    keeps at most 128 entries under distinct keys. *)
Theorem cache_is_transparent sources :
  (compile_all [] sources).1 = map compile sources /\
  (length (compile_all [] sources).2 <= 128)%nat /\
  NoDup ((compile_all [] sources).2).*1.
Proof.
  destruct (compile_all_ok sources [] cache_ok_nil) as [H1 [H2 H3 _]]. done.
Qed.

(** ** Evaluation *)

(** C1: evaluating a text that compiled returns a finite cost that is not
    negative, a fixed price exactly when the request is the billing unit, and one
    trace entry per request rule; otherwise it fails with a diagnostic of the
    engine.  No evaluation ends in an error of the language. *)
Theorem evaluation_is_safe `{Host} source compiled clock context :
  compile source = inl compiled ->
  match evaluateCompiled clock compiled context with
  | inl r => evaluation_ok compiled r
  | inr failure => exists d, failure = expressionFailure (BillingExpressionError d)
  end.
Proof.
  intros [_ Hc]%compile_ready. unfold evaluateCompiled.
  pose proof (evaluate_body_spec clock compiled context Hc) as He.
  destruct (evaluate_body clock compiled context) as [r|e]; [done|].
  destruct He as [d ->]. by exists d.
Qed.

Definition doubled_images : str :=
  u "tier('image', fixed(0.5)) * image_count * (hour('UTC') < 8 ? 2 : 1)".

Lemma evaluation_is_safe_witness :
  exists compiled r, compile doubled_images = inl compiled /\
    evaluateCompiled (H := two_zones) 0 compiled (tokens_context 1 1) = inl r /\
    evaluation_ok compiled r.
Proof.
  exists (compiled_text doubled_images).
  assert (compile doubled_images = inl (compiled_text doubled_images)) as E
    by (vm_compute; reflexivity).
  pose proof (@evaluation_is_safe two_zones doubled_images (compiled_text doubled_images) 0
    (tokens_context 1 1) E) as Hs.
  succeeds (evaluateCompiled (H := two_zones) 0 (compiled_text doubled_images)
    (tokens_context 1 1)) r Er.
  exists r. split; [exact E|]. split; [reflexivity|exact Hs].
Defined.

(** C37: a tree the checker gave a type evaluates to a value of that type, with
    numbers finite and integers safe, or fails with an error of the engine: no
    operation meets an operand it does not handle.  There is one exception,
    [joins_texts]: a sum in which no operand is known to be a number, and a
    conditional that may select one, is typed as a number and may evaluate to a
    string. *)
Theorem well_typed_evaluation `{Host} source compiled clock context t :
  compile source = inl compiled -> infer (ce_ast compiled) = Some t ->
  match run clock compiled context (ce_ast compiled) with
  | Ok (v, _) =>
      good_value v /\
      (joins_texts (ce_ast compiled) = false -> has_type (rv_value v) t) /\
      (has_type (rv_value v) t \/ t = T_number /\ has_type (rv_value v) T_string)
  | Throw e => billing_exn e
  end.
Proof.
  intros [_ Hc]%compile_ready Ht.
  pose proof (run_spec clock compiled context _ t (co_tree _ Hc) Ht) as Hr.
  destruct (run _ _ _ _) as [[v s]|e]; [|done].
  destruct Hr as (Hg & [Hv|(-> & Hj & Hv)] & _); [by auto|]. split; [done|].
  split; [congruence|by right].
Qed.

Lemma well_typed_evaluation_witness :
  exists v s, run (H := two_zones) 0 (compiled_text (u "p > 3")) (tokens_context 5 1)
      (ce_ast (compiled_text (u "p > 3"))) = Ok (v, s) /\ has_type (rv_value v) T_boolean.
Proof.
  pose proof (@well_typed_evaluation two_zones (u "p > 3") (compiled_text (u "p > 3")) 0
    (tokens_context 5 1) T_boolean ltac:(vm_compute; reflexivity) ltac:(vm_compute; reflexivity))
    as Ht.
  succeeds (run (H := two_zones) 0 (compiled_text (u "p > 3")) (tokens_context 5 1)
    (ce_ast (compiled_text (u "p > 3")))) vs E.
  destruct vs as [v s]. exists v, s. split; [reflexivity|].
  apply (proj1 (proj2 Ht)). vm_compute. reflexivity.
Defined.

(** The exception happens: a sum of two request parameters that are strings. *)
Definition joined_parameters : str := u "param('a') + param('b')".
Definition text_parameters : BillingSimulationContext :=
  {| ctx_imageCount := None; ctx_tokens := None;
     ctx_request := Some {| req_body := VObject [(u "a", VString (u "x")); (u "b", VString (u "y"))];
                            req_headers := None |};
     ctx_usage := None; ctx_now := None |}.

Example typed_number_is_a_text :
  infer (ce_ast (compiled_text joined_parameters)) = Some T_number /\
  joins_texts (ce_ast (compiled_text joined_parameters)) = true /\
  match run (H := two_zones) 0 (compiled_text joined_parameters) text_parameters
    (ce_ast (compiled_text joined_parameters)) with
  | Ok (v, _) => rv_value v = VString (u "xy")
  | Throw _ => False
  end.
Proof. vm_compute. repeat split. Qed.

(** C27: an expression with fixed prices charges exactly one of its tiers, the
    one that its conditions select.  The reported name is the value of the name
    of this tier.  For a tier with a fixed amount the reported unit is the
    request, the fixed price is the amount, and the cost a million times the
    amount; for any other tier the unit is the token, there is no fixed price, and
    the cost is the value of the price of the tier.  The cost is multiplied by the
    image count and by the request rules on the way to the tier: by the multiplier
    of a rule whose condition holds and by 1 otherwise.  Conditions, names and
    prices have the value of evaluating them on their own, and no other charge
    fits the expression. *)
Theorem fixed_price_charges_one_tier `{Host} source compiled clock context r :
  compile source = inl compiled -> Fn_fixed ∈ ce_functions compiled ->
  evaluateCompiled clock compiled context = inl r ->
  charged (ce_requestRules compiled) context (part_value clock compiled context) (ce_ast compiled)
    (be_matchedTier r, be_billingUnit r, be_fixedPrice r) (be_cost r) /\
  (forall marks cost,
     charged (ce_requestRules compiled) context (part_value clock compiled context)
       (ce_ast compiled) marks cost ->
     marks = (be_matchedTier r, be_billingUnit r, be_fixedPrice r) /\ cost = be_cost r).
Proof.
  intros [_ Hc]%compile_ready Hf Hr.
  assert (charged (ce_requestRules compiled) context (part_value clock compiled context)
    (ce_ast compiled) (be_matchedTier r, be_billingUnit r, be_fixedPrice r) (be_cost r)) as Hcharge
    by (apply evaluate_fixed; [done| |done]; by apply (co_functions _ Hc)).
  split; [done|]. apply (charged_unique _ _ _ (part_value_unique clock compiled context)
    (fun r => compiled_rules_request compiled r Hc) _ _ _ Hcharge).
Qed.

Definition mixed_prices : str :=
  u "(p > 3 ? tier('long', p * 2) : tier('short', fixed(0.5))) * image_count".

Lemma fixed_price_charges_one_tier_witness :
  exists r, evaluateCompiled (H := two_zones) 0 (compiled_text mixed_prices)
      (tokens_context 5 1) = inl r /\
    charged (ce_requestRules (compiled_text mixed_prices)) (tokens_context 5 1)
      (part_value (H := two_zones) 0 (compiled_text mixed_prices) (tokens_context 5 1))
      (ce_ast (compiled_text mixed_prices))
      (be_matchedTier r, be_billingUnit r, be_fixedPrice r) (be_cost r) /\
    be_matchedTier r = u "long" /\ be_cost r = of_Z 10.
Proof.
  succeeds (evaluateCompiled (H := two_zones) 0 (compiled_text mixed_prices)
    (tokens_context 5 1)) r Er.
  exists r. split; [reflexivity|]. split.
  - apply (@fixed_price_charges_one_tier two_zones mixed_prices _ 0);
      [vm_compute; reflexivity| |exact Er]. apply (proj1 (bool_decide_eq_true _)). vm_compute. reflexivity.
  - vm_compute in Er. injection Er as <-. split; reflexivity.
Defined.

(** C40: an evaluation depends only on the inputs the compiled expression lists
    among its variables and functions: two requests that agree on those, and that
    pass the entry checks, are charged the same, or fail in the same way. *)
Theorem only_dependencies_matter `{Host} source compiled k1 k2 c1 c2 h1 h2 :
  compile source = inl compiled -> accepted c1 h1 -> accepted c2 h2 ->
  agrees c1 c2 (now_of k1 c1) (now_of k2 c2) h1 h2
    (fun v => v ∈ ce_variables compiled) (fun f => f ∈ ce_functions compiled) ->
  evaluateCompiled k1 compiled c1 = evaluateCompiled k2 compiled c2.
Proof. intros [_ Hc]%compile_ready. by apply evaluateCompiled_agrees. Qed.

Definition input_price : str := u "tier('base', p * 3)".

Lemma input_price_agrees c :
  agrees (tokens_context 7 1) (tokens_context 7 c) (now_of 0 (tokens_context 7 1))
    (now_of 5 (tokens_context 7 c)) [] []
    (fun v => v ∈ ce_variables (compiled_text input_price))
    (fun f => f ∈ ce_functions (compiled_text input_price)).
Proof.
  constructor; try done.
  intros v. destruct v; try done. intros Hv%(proj2 (bool_decide_eq_true _)).
  vm_compute in Hv. discriminate Hv.
Qed.

Lemma only_dependencies_matter_witness :
  evaluateCompiled (H := two_zones) 0 (compiled_text input_price) (tokens_context 7 1)
  = evaluateCompiled (H := two_zones) 5 (compiled_text input_price) (tokens_context 7 900).
Proof.
  apply (@only_dependencies_matter two_zones input_price (compiled_text input_price) 0 5
    (tokens_context 7 1) (tokens_context 7 900) [] []).
  - vm_compute. reflexivity.
  - split; vm_compute; reflexivity.
  - split; vm_compute; reflexivity.
  - apply input_price_agrees.
Defined.

(** integer arithmetic is exact: where an expression of integer literals,
    time functions, signs and the operators +, -, * and % is charged at all, the
    cost is its value in unbounded arithmetic, which lies in the range of safe
    integers; an intermediate result that leaves the range is refused. *)
Theorem integer_costs_are_exact `{Host} source compiled clock context r z :
  compile source = inl compiled ->
  int_value (now_of clock context) (ce_ast compiled) = Some z ->
  evaluateCompiled clock compiled context = inl r ->
  num_to_Z (be_cost r) = z /\ num_is_safe_integer (be_cost r) = true.
Proof.
  intros [_ Hc]%compile_ready Hz (hs & v & s & Hv & Hcost & _)%evaluateCompiled_inv.
  pose proof (int_value_exact (ce_requestRules compiled) context (now_of clock context) hs _ _
    (co_tree _ Hc) Hz (initial_state (ce_requestRules compiled)) ltac:(apply initial_fine)) as Hw.
  unfold wp in Hw. rewrite Hv in Hw. destruct Hw as [[Hg He] _].
  destruct (exact_value _ _ Hg He) as (x & -> & Hx & _ & Hs). cbn in Hcost. by simplify_eq.
Qed.

Definition integer_price : str := u "9007199254740000 + 7 * hour('UTC') - 1000000 % 7".

Lemma integer_costs_are_exact_witness :
  exists r, evaluateCompiled (H := two_zones) 0 (compiled_text integer_price)
      (tokens_context 1 1) = inl r /\
    num_to_Z (be_cost r) = 9007199254739999%Z /\ num_is_safe_integer (be_cost r) = true.
Proof.
  succeeds (evaluateCompiled (H := two_zones) 0 (compiled_text integer_price)
    (tokens_context 1 1)) r Er.
  exists r. split; [reflexivity|].
  apply (@integer_costs_are_exact two_zones integer_price (compiled_text integer_price) 0
    (tokens_context 1 1) r 9007199254739999%Z); [vm_compute; reflexivity| |exact Er].
  vm_compute. reflexivity.
Defined.
