(* ===== verification/InputTheorems.v ===== *)
(** * What an evaluation reads from a request

    Request paths, the text of request values, calendar fields, and the
    textual splitting of an expression. *)

From Stdlib Require Import String.
From S2P Require Import Prelude JsNumber JsString JsText Ast Parser Compile Request.
From S2P Require Import BillingTime Structure.
#[local] Open Scope nat_scope.

(** ** Request paths *)

(** [readRequestPath] finds what a path names: the path written by escaping
    the separators and the operators in a list of keys reads the value stored
    under these keys, [null] where it is undefined. *)
Theorem escaped_path_finds_value key keys leaf :
  trim (path_of (key :: keys)) = path_of (key :: keys) -> path_of (key :: keys) <> [] ->
  readRequestPath (nested (key :: keys) leaf) (path_of (key :: keys)) = Ok (or_null leaf).
Proof.
  intros Ht Hn. unfold readRequestPath. rewrite Ht.
  destruct (path_of (key :: keys)) as [|c path] eqn:Ep; [done|]. rewrite <- Ep. cbn [nonempty negb].
  rewrite Ep at 1. cbn [nonempty negb]. rewrite split_path_of. cbn [mbind result_bind].
  apply follow_nested.
Qed.

Lemma escaped_path_finds_value_witness :
  path_of [u "a.b"; u "c"] = u "a\.b.c" /\
  readRequestPath (VObject [(u "a.b", VObject [(u "c", VString (u "x"))])]) (u "a\.b.c")
    = Ok (VString (u "x")).
Proof.
  split; [vm_compute; reflexivity|].
  apply (escaped_path_finds_value (u "a.b") [u "c"] (VString (u "x")));
    vm_compute; [reflexivity|discriminate].
Defined.

(** reading a path and printing a value never end in an error of the language
    or in [undefined]: the outcome is a JSON value or a diagnostic. *)
Theorem request_paths_are_safe body path :
  match readRequestPath body path with
  | Ok v => v <> VUndefined
  | Throw e => billing_exn e
  end.
Proof.
  pose proof (readRequestPath_throws body path) as Ht.
  destruct (readRequestPath body path) as [v|e] eqn:E; [|done].
  by eapply readRequestPath_defined.
Qed.

(** ** The text of a value *)

Lemma map_result_ok {E A B} (f : A -> result E B) l ys :
  map_result f l = Ok ys -> Forall (fun x => exists y, f x = Ok y) l.
Proof.
  revert ys. induction l as [|x l IH]; intros ys H; [constructor|]. cbn in H. inv_ok.
  constructor; [eauto|]. eauto.
Qed.

Lemma height_bound {A} (h : A -> nat) l n :
  Forall (fun a => S (h a) <= n) l -> foldr (fun a m => Nat.max (S (h a)) m) 0 l <= n.
Proof. induction 1; cbn; lia. Qed.

Lemma billingString_ok v : forall depth s,
  billingString v depth = Ok s ->
  finite_numbers v = true /\ (depth + Z.of_nat (value_height v) <= 128)%Z.
Proof.
  induction v as [v IH] using value_children_ind. rewrite Forall_forall in IH. intros depth s.
  rewrite billingString_eq. destruct (Z.ltb_spec 128 depth) as [|Hd]; [done|].
  destruct v as [| | |x| |items|fields]; cbn [finite_numbers value_height value_children] in *;
    try (intros _; split; [done|cbn; lia]).
  - unfold number_string. destruct (num_is_finite x); [|done]. intros _. split; [done|]. lia.
  - intros H. inv_ok.
    match goal with H : map_result _ _ = _ |- _ => apply map_result_ok in H as Hl end.
    rewrite Forall_forall in Hl.
    assert (forall a, In a items -> finite_numbers a = true /\
      (depth + 1 + Z.of_nat (value_height a) <= 128)%Z) as Ha.
    { intros a Ha. destruct (Hl a Ha) as [t Ht]. by eapply IH. }
    split; [apply forallb_forall; intros a Hin; by apply Ha|].
    enough (foldr (fun a m => Nat.max (S (value_height a)) m) 0 items <= Z.to_nat (128 - depth))
      by lia.
    apply height_bound, Forall_forall. intros a Hin. specialize (Ha a Hin). lia.
  - intros H. inv_ok.
    match goal with H : map_result _ _ = _ |- _ => apply map_result_ok in H as Hl end.
    rewrite Forall_forall in Hl.
    assert (forall e, In e fields -> finite_numbers e.2 = true /\
      (depth + 1 + Z.of_nat (value_height e.2) <= 128)%Z) as Ha.
    { intros [k a] Ha. destruct (Hl (k, billingString a (depth + 1))) as [t Ht].
      - apply list_elem_of_In, sort_entries_elem, list_elem_of_In, in_map_iff. by exists (k, a).
      - cbn in Ht. inv_ok. eapply IH; [|done]. apply in_map_iff. by exists (k, a). }
    split; [apply forallb_forall; intros a Hin; by apply Ha|].
    enough (foldr (fun e m => Nat.max (S (value_height e.2)) m) 0 fields <= Z.to_nat (128 - depth))
      by lia.
    apply (height_bound (fun e : str * value => value_height e.2)), Forall_forall.
    intros a Hin. specialize (Ha a Hin). lia.
Qed.

(** [billingString] prints exactly the values that nest at most 128 levels
    and hold finite numbers, and refuses every other value with a diagnostic of
    the engine. *)
Theorem billingString_bounds v :
  if finite_numbers v && (value_height v <=? 128)
  then exists s, billingString v 0 = Ok s
  else exists e, billingString v 0 = Throw e /\ billing_exn e.
Proof.
  destruct (finite_numbers v && (value_height v <=? 128)) eqn:E.
  - apply andb_prop in E as [Hf Hh%Nat.leb_le]. apply billingString_total; [done|]. lia.
  - pose proof (billingString_throws v 0) as Ht.
    destruct (billingString v 0) as [s|e] eqn:Es; [|by exists e].
    apply billingString_ok in Es as [Hf Hh]. rewrite Hf in E. cbn in E. apply Nat.leb_gt in E. lia.
Qed.

(** ** The calendar *)

(** the calendar fields of a time zone are integers in their ranges, for every
    time and every zone name, the default zone and the unknown zones included;
    the only refusals are an invalid date and the server's local zone. *)
Theorem calendar_fields_in_range `{HostLaws} now zone :
  match timeInBillingZone now zone with
  | Ok v => calendar_range v
  | Throw e => billing_exn e /\ (now = None \/ trim zone = u "Local")
  end.
Proof.
  pose proof (timeInBillingZone_spec now zone) as Hs. unfold timeInBillingZone in *.
  destruct now as [t|]; [|by split; [|left]].
  destruct (str_eqb _ _) eqn:El; [|by destruct (zone_formatter _)].
  split; [done|right]. destruct (nonempty (trim zone)); apply str_eqb_eq in El; done.
Qed.

Lemma calendar_fields_in_range_witness :
  exists v, timeInBillingZone (H := two_zones) (Some 0%Z) (u "Asia/Shanghai") = Ok v /\
    calendar_range v /\ tv_hour v = of_Z 8.
Proof.
  pose proof (@calendar_fields_in_range two_zones two_zones_laws (Some 0%Z) (u "Asia/Shanghai")) as Hr.
  succeeds (timeInBillingZone (H := two_zones) (Some 0%Z) (u "Asia/Shanghai")) v E.
  exists v. split; [reflexivity|]. split; [exact Hr|].
  vm_compute in E. injection E as <-. vm_compute. reflexivity.
Defined.

(** ** Splitting the text of an expression *)

(** [splitExpressionAtTopLevel] loses nothing: its parts are the trimmed,
    non-empty pieces of a cut of the text at occurrences of the operator, or the
    whole text where a conditional stops the split. *)
Theorem split_loses_nothing source operator :
  operator <> [] ->
  let parts := splitExpressionAtTopLevel source operator in
  parts = [trim source] \/
  exists pieces, parts = List.filter nonempty (map trim pieces) /\ join operator pieces = source.
Proof. apply splitExpressionAtTopLevel_lossless. Qed.

Lemma split_loses_nothing_witness :
  let parts := splitExpressionAtTopLevel (u "a && (b && c)") (u "&&") in
  parts = [u "a"; u "(b && c)"] /\
  (parts = [trim (u "a && (b && c)")] \/
   exists pieces, parts = List.filter nonempty (map trim pieces) /\
     join (u "&&") pieces = u "a && (b && c)").
Proof.
  split; [vm_compute; reflexivity|].
  apply (split_loses_nothing (u "a && (b && c)") (u "&&")). discriminate.
Defined.

(** [unwrapExpressionParens] ends, and removes only white space and matching
    pairs of parentheses, and all of the pairs that enclose the whole text. *)
Theorem unwrap_removes_outer_parens source :
  wraps (unwrapExpressionParens source) source /\ stuck (unwrapExpressionParens source).
Proof. apply unwrapExpressionParens_spec. Qed.
