(* ===== verification/ConditionFacts.v ===== *)
(** * The described times are the times that match

    [describeTimeRange] against the interpreter: a conjunction of comparisons
    of one time function in one zone holds exactly in the range of values that
    is shown. *)

From Stdlib Require Import String.
From S2P Require Import Prelude JsNumber JsString JsText Ast Parser Compile Request.
From S2P Require Import BillingTime Runtime RuntimeFacts FixedPrice Display DisplayFacts.
From S2P Require Import ConditionDisplay.

#[local] Open Scope Z_scope.

(** [x] is the integer [z]. *)
Definition int_is (x : number) (z : Z) : Prop := num_is_integer x = true /\ num_to_Z x = z.

Lemma int_of_Z z : Z.abs z < 2 ^ 53 -> int_is (of_Z z) z.
Proof. split; [by apply of_Z_integer|by apply of_Z_exact]. Qed.

Lemma int_compare x y a b : int_is x a -> int_is y b -> num_compare x y = Some (a ?= b).
Proof. intros [Hx <-] [Hy <-]. by apply num_compare_ints. Qed.

Lemma int_ltb x y a b : int_is x a -> int_is y b -> num_ltb x y = (a <? b).
Proof. intros Hx Hy. unfold num_ltb. rewrite (int_compare x y a b) by done. unfold Z.ltb. by destruct (a ?= b). Qed.
Lemma int_leb x y a b : int_is x a -> int_is y b -> num_leb x y = (a <=? b).
Proof. intros Hx Hy. unfold num_leb. rewrite (int_compare x y a b) by done. unfold Z.leb. by destruct (a ?= b). Qed.
Lemma int_eqb x y a b : int_is x a -> int_is y b -> num_eqb x y = (a =? b).
Proof.
  intros Hx Hy. unfold num_eqb. rewrite (int_compare x y a b) by done.
  destruct (Z.compare_spec a b), (Z.eqb_spec a b); lia || done.
Qed.
Lemma int_max x y a b : int_is x a -> int_is y b -> int_is (num_max x y) (Z.max a b).
Proof.
  intros Hx Hy. unfold num_max. rewrite (int_compare x y a b) by done.
  destruct (Z.compare_spec a b); [subst; destruct (num_negative x)|..];
    rewrite ?Z.max_l, ?Z.max_r by lia; done.
Qed.
Lemma int_min x y a b : int_is x a -> int_is y b -> int_is (num_min x y) (Z.min a b).
Proof.
  intros Hx Hy. unfold num_min. rewrite (int_compare x y a b) by done.
  destruct (Z.compare_spec a b); [subst; destruct (num_negative x)|..];
    rewrite ?Z.min_l, ?Z.min_r by lia; done.
Qed.
Lemma int_succ x a : int_is x a -> Z.abs (a + 1) < 2 ^ 53 -> int_is (num_add x one) (a + 1).
Proof.
  intros [Hx <-] Ha. assert (int_is one 1) as [H1 E1] by (exact (int_of_Z 1 ltac:(lia))).
  destruct (num_add_small x one) as [Hi Hz]; [done..|by rewrite E1|]. split; [done|]. by rewrite Hz, E1.
Qed.

(** ** Ranges *)

(** A comparison the description accepts, with a value that has a successor. *)
Definition comparable (c : TimeComparison) : Prop :=
  is_time_operator (cmp_operator c) = true /\
  exists k, int_is (cmp_value c) k /\ Z.abs k < 2 ^ 53 - 1.

Lemma comparables cs :
  forallb (fun c => is_time_operator (cmp_operator c) && num_is_integer (cmp_value c)
                    && (Z.abs (num_to_Z (cmp_value c)) <? 2 ^ 53 - 1)) cs = true ->
  Forall comparable cs.
Proof.
  rewrite forallb_forall, Forall_forall. intros Hall c Hc. specialize (Hall c Hc).
  rewrite !andb_true_iff, Z.ltb_lt in Hall. destruct Hall as [[Ho Hi] Hk]. split; [done|]. by eexists.
Qed.

(** What the interpreter computes for the comparison of the value [t]. *)
Definition comparison_holds (t : number) (c : TimeComparison) : bool :=
  match cmp_operator c with
  | Op_eq => num_eqb t (cmp_value c)
  | o => default false (compare_values o (VNumber t) (VNumber (cmp_value c)))
  end.

Ltac by_range := unfold id; apply eq_true_iff_eq; rewrite ?andb_true_iff, ?Z.leb_le, ?Z.ltb_lt, ?Z.eqb_eq; lia.

Lemma narrow_spec range c a b :
  int_is range.1 a -> int_is range.2 b -> comparable c ->
  exists a' b', int_is (narrow range c).1 a' /\ int_is (narrow range c).2 b' /\
    forall t z, int_is t z ->
      (a' <=? z) && (z <? b') = (a <=? z) && (z <? b) && comparison_holds t c.
Proof.
  destruct range as [x y]. cbn [fst snd]. intros Hx Hy (Ho & k & Hk & Hs).
  assert (int_is (num_add (cmp_value c) one) (k + 1)) as Hk1 by (apply int_succ; [done|lia]).
  unfold narrow, comparison_holds. cbv zeta.
  destruct (cmp_operator c); try discriminate Ho; cbn [fst snd compare_values default].
  - eexists _, _. split; [apply (int_max _ _ _ _ Hx Hk)|]. split; [apply (int_min _ _ _ _ Hy Hk1)|].
    intros t z Ht. rewrite (int_eqb _ _ _ _ Ht Hk). by_range.
  - eexists _, _. split; [exact Hx|]. split; [apply (int_min _ _ _ _ Hy Hk)|]. intros t z Ht.
    rewrite (int_ltb _ _ _ _ Ht Hk). by_range.
  - eexists _, _. split; [exact Hx|]. split; [apply (int_min _ _ _ _ Hy Hk1)|]. intros t z Ht.
    rewrite (int_leb _ _ _ _ Ht Hk). by_range.
  - eexists _, _. split; [apply (int_max _ _ _ _ Hx Hk1)|]. split; [exact Hy|]. intros t z Ht.
    unfold num_gtb. rewrite (int_ltb _ _ _ _ Hk Ht). by_range.
  - eexists _, _. split; [apply (int_max _ _ _ _ Hx Hk)|]. split; [exact Hy|]. intros t z Ht.
    unfold num_geb. rewrite (int_leb _ _ _ _ Hk Ht). by_range.
Qed.

Lemma narrow_fold cs : forall range a b,
  int_is range.1 a -> int_is range.2 b -> Forall comparable cs ->
  exists a' b', int_is (fold_left narrow cs range).1 a' /\ int_is (fold_left narrow cs range).2 b' /\
    forall t z, int_is t z ->
      (a' <=? z) && (z <? b') = (a <=? z) && (z <? b) && forallb (comparison_holds t) cs.
Proof.
  induction cs as [|c cs IH]; intros range a b Ha Hb Hcs; cbn [fold_left forallb].
  - exists a, b. split_and!; [done..|]. intros. by rewrite andb_true_r.
  - apply Forall_cons_iff in Hcs as [Hc Hcs].
    destruct (narrow_spec range c a b Ha Hb Hc) as (a1 & b1 & Ha1 & Hb1 & H1).
    destruct (IH _ a1 b1 Ha1 Hb1 Hcs) as (a2 & b2 & Ha2 & Hb2 & H2).
    exists a2, b2. split_and!; [done..|]. intros t z Ht. rewrite (H2 t z Ht), (H1 t z Ht).
    by rewrite andb_assoc.
Qed.

(** The domain of a time function, as integers. *)
Definition domain (name : TimeFunction) : Z * Z :=
  match name with
  | Time_hour => (0, 24) | Time_minute => (0, 60) | Time_weekday => (0, 7)
  | Time_month => (1, 13) | Time_day => (1, 32)
  end.

Lemma domain_int name : int_is (DOMAINS name).1 (domain name).1 /\ int_is (DOMAINS name).2 (domain name).2.
Proof. destruct name; split; apply int_of_Z; cbn; lia. Qed.

Lemma in_domain values name : calendar_range values ->
  exists z, int_is (time_value values name) z /\ (domain name).1 <= z < (domain name).2.
Proof.
  intros [(h & Eh & Hh) (i & Ei & Hi) (w & Ew & Hw) (m & Em & Hm) (d & Ed & Hd)].
  destruct name; cbn [time_value domain fst snd]; [exists h|exists i|exists w|exists m|exists d];
    (split; [|lia]); rewrite ?Eh, ?Ei, ?Ew, ?Em, ?Ed; apply int_of_Z; lia.
Qed.

Lemma time_range_spec name cs values :
  Forall comparable cs -> calendar_range values ->
  let '(start, stop) := time_range name cs in
  num_leb start (time_value values name) && num_ltb (time_value values name) stop
    = forallb (comparison_holds (time_value values name)) cs.
Proof.
  intros Hcs Hv. destruct (domain_int name) as [H1 H2].
  destruct (narrow_fold cs _ _ _ H1 H2 Hcs) as (a & b & Ha & Hb & Hall).
  destruct (in_domain values name Hv) as (z & Hz & Hd). specialize (Hall _ z Hz).
  unfold time_range. destruct (fold_left narrow cs (DOMAINS name)) as [start stop]. cbn [fst snd] in *.
  rewrite (int_leb _ _ _ _ Ha Hz), (int_ltb _ _ _ _ Hz Hb), Hall.
  replace ((domain name).1 <=? z) with true by lia. by replace (z <? (domain name).2) with true by lia.
Qed.

(** ** Evaluation *)

Section evaluation.
Context `{Host}.
Context (rules : list CompiledRule) (context : BillingSimulationContext)
        (now : date) (headers : list (str * str)).
Abbreviation settles_to := (settles_to rules context now headers).

Lemma time_zone_trim zone : timeInBillingZone now (trim zone) = timeInBillingZone now zone.
Proof. unfold timeInBillingZone. by rewrite trim_trim. Qed.

Lemma time_zone_shown zone :
  timeInBillingZone now (if nonempty (trim zone) then trim zone else u "UTC") = timeInBillingZone now zone.
Proof.
  destruct (nonempty (trim zone)) eqn:En; [apply time_zone_trim|].
  unfold timeInBillingZone. by rewrite En.
Qed.

Lemma literal_settles v i s e : settles_to (time_ok now) (Literal v i s e) (literal_value v).
Proof. apply settles_node; [done|]. intros st Hst. by apply wp_ret. Qed.

Lemma time_settles name zone i s1 e1 rest s e values :
  timeInBillingZone now (trim zone) = Ok values ->
  settles_to (time_ok now) (Call (Fn_time name) (Literal (LString zone) i s1 e1 :: rest) s e)
    (VNumber (time_value values name)).
Proof.
  intros Hv. apply settles_node; [done|]. intros st Hst. cbn [evaluateNode call]. unfold string_.
  apply wp_bind, wp_bind. eapply wp_mono; [by apply literal_settles|]. intros w s2 [-> Hs2].
  cbn [literal_value]. apply wp_ret. unfold time_call. apply wp_bind, wp_get.
  destruct (assoc_get (trim zone) (timeValues s2)) as [values'|] eqn:Eg.
  - apply wp_ret. split; [|done]. apply Hs2 in Eg. cbn. congruence.
  - apply wp_bind, wp_lift. rewrite Hv. apply wp_bind, wp_modify, wp_ret. split; [done|].
    intros z w'. cbn [timeValues set_timeValues]. destruct (decide (trim zone = z)) as [<-|Hz].
    + rewrite assoc_get_set_eq. by intros [= <-].
    + rewrite assoc_get_set_ne by done. apply Hs2.
Qed.

Lemma comparison_settles part c values :
  timeComparison part = Some c -> timeInBillingZone now (cmp_timezone c) = Ok values ->
  settles_to (time_ok now) part (VBoolean (comparison_holds (time_value values (cmp_name c)) c)).
Proof.
  destruct part as [| | | |o l r s e|]; try done.
  destruct l as [| |f args s1 e1| | |]; try done. destruct f; try done.
  destruct args as [|[[zone| | |] i s2 e2| | | | |] rest]; try done.
  destruct r as [[|x| |] j s3 e3| | | | |]; try done. cbn [timeComparison].
  destruct (is_time_operator o) eqn:Eo; [|done]. destruct (num_is_integer x); [|done].
  intros [= <-]. cbn [cmp_timezone cmp_name cmp_value cmp_operator andb].
  rewrite time_zone_shown, <- time_zone_trim. intros Hv.
  apply settles_node; [done|]. intros st Hst. cbn [evaluateNode]. unfold binary, comparison_holds.
  destruct o; try discriminate Eo; cbn [cmp_operator cmp_value];
    (apply wp_bind; eapply wp_mono; [by apply time_settles|]; intros a s4 [Ha Hs4];
     apply wp_bind; eapply wp_mono; [by apply literal_settles|]; intros b s5 [Hb Hs5];
     unfold apply_binary; rewrite Ha, Hb; by apply wp_ret).
Qed.

Lemma comparisons_settle node cs name zone values :
  map_option timeComparison (flattenBinary node Op_and) = Some cs ->
  Forall (fun c => cmp_name c = name /\ cmp_timezone c = zone) cs ->
  timeInBillingZone now zone = Ok values ->
  settles_to (time_ok now) node (VBoolean (forallb (comparison_holds (time_value values name)) cs)).
Proof.
  intros Hcs Hall Hv.
  set (f := fun part => c ← timeComparison part;
    if bool_decide (cmp_name c = name /\ cmp_timezone c = zone) then Some c else None).
  apply (conjunction_settles rules context now headers (time_ok now) f); [done|..].
  - intros part c Hp. unfold f in Hp. apply bind_Some in Hp as (c' & Hc & Hp).
    case_bool_decide as Hb; [|done]. injection Hp as ->. destruct Hb as [<- <-].
    by apply comparison_settles.
  - apply map_option_Some in Hcs. apply map_option_Some. revert Hall.
    induction Hcs as [|part c parts cs Hc _ IH]; intros Hall; constructor.
    + unfold f. rewrite Hc. cbn. apply Forall_cons_iff in Hall as [Hh _]. by rewrite bool_decide_eq_true_2.
    + apply Forall_cons_iff in Hall as [_ Hall]. auto.
Qed.
End evaluation.

(** when a condition is a conjunction of comparisons of one time function in
    one zone, the range [describeTimeRange] shows is exact: where the condition
    evaluates, it holds just when the function's value at that time lies in the
    range from the shown start up to, and without, the shown end. *)
Theorem shown_time_range_is_exact `{HostLaws} compiled node now cs name zone values b :
  map_option timeComparison (flattenBinary node Op_and) = Some cs ->
  Forall (fun c => cmp_name c = name /\ cmp_timezone c = zone) cs -> Forall comparable cs ->
  timeInBillingZone now zone = Ok values ->
  evaluateBillingCondition compiled node now = Some b ->
  let '(start, stop) := time_range name cs in
  b = num_leb start (time_value values name) && num_ltb (time_value values name) stop.
Proof.
  intros Hcs Hall Hcomp Hv Hb. unfold evaluateBillingCondition, run in Hb.
  cbn [request_headers ctx_request fold_result mbind result_bind ctx_now default id] in Hb.
  pose proof (comparisons_settle (ce_requestRules compiled) (only_time now) now [] node cs name zone
    values Hcs Hall Hv (initial_state (ce_requestRules compiled)) ltac:(by intros z w)) as Hw.
  unfold wp, only_time in Hw. unfold id in Hb. destruct (evaluate _ _ _ _ _ _) as [[v s]|]; [|done].
  destruct Hw as [Hw _]. rewrite Hw in Hb. injection Hb as <-.
  pose proof (timeInBillingZone_spec now zone) as Hr. rewrite Hv in Hr.
  pose proof (time_range_spec name cs values Hcomp Hr) as Ht.
  by destruct (time_range name cs) as [start stop].
Qed.

Definition office_hours : str := u "hour('UTC') >= 9 && hour('UTC') <= 17 && hour('UTC') < 20".

Lemma shown_time_range_is_exact_witness : exists cs b values,
  map_option timeComparison (flattenBinary (ce_ast (compiled_text office_hours)) Op_and) = Some cs /\
  time_range Time_hour cs = (of_Z 9, of_Z 18) /\
  b = num_leb (of_Z 9) (time_value values Time_hour) && num_ltb (time_value values Time_hour) (of_Z 18).
Proof.
  succeeds (map_option timeComparison (flattenBinary (ce_ast (compiled_text office_hours)) Op_and)) cs Ec.
  succeeds (evaluateBillingCondition (H := two_zones) (compiled_text office_hours)
    (ce_ast (compiled_text office_hours)) (Some 0)) b Eb.
  destruct (timeInBillingZone (H := two_zones) (Some 0) (u "UTC")) as [values|] eqn:Ev; [|by vm_compute in Ev].
  pose proof (shown_time_range_is_exact (H := two_zones) (H0 := two_zones_laws) (compiled_text office_hours)
    (ce_ast (compiled_text office_hours)) (Some 0) cs Time_hour
    (u "UTC") values b Ec) as Hx.
  assert (Forall (fun c => cmp_name c = Time_hour /\ cmp_timezone c = u "UTC") cs /\ Forall comparable cs /\
    time_range Time_hour cs = (of_Z 9, of_Z 18)) as (H1 & H2 & H3).
  { vm_compute in Ec. injection Ec as <-. split; [by repeat constructor|]. split; [|by vm_compute].
    by apply comparables. }
  rewrite H3 in Hx. exists cs, b, values. split; [reflexivity|]. split; [exact H3|].
  exact (Hx H1 H2 Ev Eb).
Defined.
