(* ===== verification/RuleFacts.v ===== *)
(** * Request rules: printing and reading back

    Facts about the regular expression matcher, the round trip of the time
    conditions of the rule editor, and what the editor does not keep. *)

From Stdlib Require Import String.
From S2P Require Import Prelude JsNumber JsString JsText Ast Parser Compile Request.
From S2P Require Import BillingTime Runtime Structure Display Regex Json JsonFacts BillingExpr.
From S2P Require Import RuleEditor.

(** ** The matcher *)

(** The characters a pattern without back references can consume. *)
Fixpoint consumes (p : N -> Prop) (r : re) : Prop :=
  match r with
  | Eps => True
  | Chr q => forall x, q x = true -> p x
  | Seq a b | Alt a b => consumes p a /\ consumes p b
  | Star a | Group _ a => consumes p a
  | Back _ => False
  end.

Lemma run_re_consumes p r : consumes p r -> forall s c k m,
  run_re r s c k = Some m ->
  exists a rest c', s = a ++ rest /\ Forall p a /\ k rest c' = Some m.
Proof.
  induction r as [|q|a IHa b IHb|a IHa b IHb|a IHa|i a IHa|i]; cbn [consumes run_re];
    intros Hc s c k m Hm.
  - by exists [], s, c.
  - destruct s as [|x s]; [done|]. destruct (q x) eqn:Eq; [|done].
    exists [x], s, c. split_and!; [done| |done]. constructor; [by apply Hc|constructor].
  - destruct Hc as [Ha Hb]. apply IHa in Hm as (a1 & r1 & c1 & -> & H1 & Hm); [|done].
    apply IHb in Hm as (a2 & r2 & c2 & -> & H2 & Hm); [|done].
    exists (a1 ++ a2), r2, c2. rewrite app_assoc. split_and!; [done| |done]. by apply Forall_app.
  - destruct Hc as [Ha Hb]. destruct (run_re a s c k) as [m'|] eqn:Ea.
    + injection Hm as ->. by eapply IHa.
    + by eapply IHb.
  - revert Hm. generalize (length s). intros n. revert s c.
    induction n as [|n IHn]; intros s c Hm; [by exists [], s, c|].
    destruct (run_re a s c _) as [m'|] eqn:Ea.
    + injection Hm as ->. apply IHa in Ea as (a1 & r1 & c1 & -> & H1 & Hm); [|done].
      destruct (length r1 <? _)%nat; [|done]. apply IHn in Hm as (a2 & r2 & c2 & -> & H2 & Hm).
      exists (a1 ++ a2), r2, c2. rewrite app_assoc. split_and!; [done| |done]. by apply Forall_app.
    + by exists [], s, c.
  - apply IHa in Hm as (a1 & r1 & c1 & -> & H1 & Hm); [|done]. by eexists a1, r1, _.
  - done.
Qed.

Lemma test_all_consumes p r s : consumes p r -> test_all r s = true -> Forall p s.
Proof.
  unfold test_all, match_all. intros Hc Ht.
  destruct (run_re r s [] _) as [m|] eqn:Em; [|done].
  apply (run_re_consumes p r Hc) in Em as (a & rest & c & -> & Ha & Hk).
  destruct rest; [|done]. by rewrite app_nil_r.
Qed.

Section matcher.
Context (c : captures) (k : str -> captures -> option (str * captures)).

Lemma run_lit w rest : run_re (lit_chars w) (w ++ rest) c k = k rest c.
Proof. induction w as [|x w IH]; cbn; [done|]. by rewrite N.eqb_refl. Qed.

Lemma run_lit_other w s : starts_with s w = false -> run_re (lit_chars w) s c k = None.
Proof.
  revert s. induction w as [|x w IH]; intros s; cbn; [done|].
  destruct s as [|y s]; [done|]. destruct (N.eqb x y); cbn; [by apply IH|done].
Qed.

(** [rest] does not go on with a character of the class. *)
Definition stops (p : N -> bool) (rest : str) : Prop :=
  match rest with [] => True | x :: _ => p x = false end.

(** A repeated class takes the longest run when what follows the repetition
    cannot begin with a character of the class. *)
Lemma run_star p a rest :
  Forall (fun x => p x = true) a -> stops p rest ->
  (forall x s c', p x = true -> k (x :: s) c' = None) ->
  run_re (Star (Chr p)) (a ++ rest) c k = k rest c.
Proof.
  intros Ha Hr Hk. cbn [run_re].
  assert (forall n, (length a <= n)%nat ->
    (fix loop (n : nat) (s : str) (c : captures) : option (str * captures) :=
       match n with
       | O => k s c
       | S n =>
           match (match s with
                  | x :: s' => if p x then (fun s' c' =>
                      if (length s' <? length s)%nat then loop n s' c' else None) s' c else None
                  | [] => None end) with
           | Some m => Some m
           | None => k s c
           end
       end) n (a ++ rest) c = k rest c) as Hloop.
  { induction Ha as [|x a Hx Ha IH]; intros n Hn; cbn [app].
    - destruct n as [|n]; [done|]. destruct rest as [|y rest]; [done|]. cbn in Hr. by rewrite Hr.
    - destruct n as [|n]; [cbn in Hn; lia|]. rewrite Hx. cbv beta.
      replace (length (a ++ rest) <? _)%nat with true by (symmetry; apply Nat.ltb_lt; cbn; lia).
      rewrite IH by (cbn in Hn; lia). destruct (k rest c) eqn:Ek; [done|]. by apply Hk. }
  apply Hloop. rewrite length_app. lia.
Qed.
End matcher.

Lemma run_plus c k p a rest :
  a <> [] -> Forall (fun x => p x = true) a -> stops p rest ->
  (forall x s c', p x = true -> k (x :: s) c' = None) ->
  run_re (plus (Chr p)) (a ++ rest) c k = k rest c.
Proof.
  intros Hne Ha Hr Hk. destruct a as [|x a]; [done|]. apply Forall_cons_iff in Ha as [Hx Ha].
  unfold plus. cbn [app]. change (run_re (Seq (Chr p) (Star (Chr p))) (x :: a ++ rest) c k)
    with (if p x then run_re (Star (Chr p)) (a ++ rest) c k else None).
  rewrite Hx. by apply run_star.
Qed.

Lemma run_group_plus c k i p a rest :
  a <> [] -> Forall (fun x => p x = true) a -> stops p rest ->
  (forall x s c', p x = true -> k (x :: s) c' = None) ->
  run_re (Group i (plus (Chr p))) (a ++ rest) c k = k rest (assoc_set i a c).
Proof.
  intros Hne Ha Hr Hk. cbn [run_re].
  change (run_re (Group i (plus (Chr p))) (a ++ rest) c k) with
    (run_re (plus (Chr p)) (a ++ rest) c (fun s' c' =>
       k s' (assoc_set i (take (length (a ++ rest) - length s') (a ++ rest)) c'))).
  rewrite run_plus; [|done..|by intros; apply Hk].
  rewrite length_app. replace (length a + length rest - length rest)%nat with (length a) by lia.
  by rewrite take_app_length.
Qed.

Lemma run_back c k i t rest :
  assoc_get i c = Some t -> run_re (Back i) (t ++ rest) c k = k rest c.
Proof.
  intros Ht. cbn [run_re]. rewrite Ht. rewrite (proj2 (starts_with_app _ _)) by by exists rest.
  by rewrite drop_app_length.
Qed.

(** ** Numbers and names in printed conditions *)

Definition number_char (x : N) : bool := is_digit x || bool_decide (x ∈ u ".eE+-").

Lemma numeric_literal_chars s :
  is_numeric_literal s = true -> s <> [] /\ Forall (fun x => number_char x = true) s.
Proof.
  intros Hs. split; [by intros ->|]. eapply (test_all_consumes _ NUMERIC_LITERAL_REGEX); [|exact Hs].
  assert (forall x, is_digit x = true -> number_char x = true) as Hd
    by (intros x Hx; unfold number_char; by rewrite Hx).
  assert (forall y, y ∈ u ".eE+-" -> forall x, N.eqb y x = true -> number_char x = true) as Hl.
  { intros y Hy x ->%N.eqb_eq. unfold number_char. by rewrite (bool_decide_eq_true_2 _ Hy), orb_true_r. }
  assert (forall l : string, (forall x, x ∈ u l -> x ∈ u ".eE+-") -> forall x, bool_decide (x ∈ u l) = true ->
    number_char x = true) as Hc.
  { intros l Hin x Hx%bool_decide_eq_true. unfold number_char.
    by rewrite (bool_decide_eq_true_2 _ (Hin x Hx)), orb_true_r. }
  cbn [consumes NUMERIC_LITERAL_REGEX seqs fold_right opt alts plus lit lit_chars u]. unfold class, digit.
  repeat split; first
    [ exact Hd
    | refine (Hl _ _); by apply (bool_decide_unpack _)
    | refine (Hc _ _); intros x Hx;
      repeat (apply elem_of_cons in Hx as [->|Hx]; [by apply (bool_decide_unpack _)|]);
      by apply not_elem_of_nil in Hx ].
Qed.

Lemma number_not_space x : number_char x = true -> is_space x = false.
Proof.
  unfold number_char. intros [Hd|Hb]%orb_true_iff.
  - unfold is_digit, in_range in Hd. apply andb_true_iff in Hd as [H1%N.leb_le H2%N.leb_le].
    assert (x = 48 \/ x = 49 \/ x = 50 \/ x = 51 \/ x = 52 \/ x = 53 \/ x = 54 \/ x = 55 \/ x = 56 \/ x = 57)%N
      as Hx by lia.
    repeat (destruct Hx as [->|Hx]; [by vm_compute|]). by subst x.
  - apply bool_decide_eq_true in Hb.
    repeat (apply elem_of_cons in Hb as [->|Hb]; [by vm_compute|]). by apply not_elem_of_nil in Hb.
Qed.

Lemma trim_number s : is_numeric_literal s = true -> trim s = s.
Proof.
  intros [_ Hs]%numeric_literal_chars. apply trim_nonspace.
  eapply List.Forall_impl; [|exact Hs]. apply number_not_space.
Qed.

Lemma in_range_numeric f s : isTimeValueInRange f s = true -> is_numeric_literal s = true.
Proof. unfold isTimeValueInRange. by destruct (is_numeric_literal s). Qed.

(** Text that [JSON.stringify] prints as it is. *)
Definition plain_char (x : N) : bool :=
  negb (N.eqb x quote_char) && negb (N.eqb x backslash) && negb (N.ltb x 32)
  && negb (is_lead x) && negb (is_trail x).
Definition plain (s : str) : Prop := Forall (fun x => plain_char x = true) s.

Lemma json_string_plain s : plain s -> json_string s = quoted s.
Proof.
  intros Hs. unfold json_string. f_equal. induction Hs as [|x s Hx Hs IH]; [done|].
  unfold plain_char in Hx. rewrite !andb_true_iff, !negb_true_iff in Hx.
  destruct Hx as ((((Hq & Hb) & Hc) & Hl) & Ht). cbn [json_body]. rewrite Hl, Ht, IH.
  enough (json_escape x = [x]) as -> by done. apply N.ltb_ge in Hc.
  unfold json_escape. rewrite Hq, Hb.
  repeat (match goal with |- context [N.eqb x ?y] => destruct (N.eqb_spec x y); [lia|] end).
  by rewrite (proj2 (N.ltb_ge _ _) Hc).
Qed.

Lemma plain_not_quote s : plain s ->
  Forall (fun x => negb (bool_decide (x ∈ [quote_char])) = true) s.
Proof.
  intros Hs. eapply List.Forall_impl; [|exact Hs]. intros x Hx. cbn.
  unfold plain_char in Hx. rewrite !andb_true_iff, !negb_true_iff in Hx. destruct Hx as ((((Hq & _) & _) & _) & _).
  apply negb_true_iff, bool_decide_eq_false. intros ->%list_elem_of_singleton. by rewrite N.eqb_refl in Hq.
Qed.

(** ** Time conditions *)

(** [name("zone")] *)
Definition time_fn (f : TimeFunction) (zone : str) : str := time_text f ++ u "(" ++ quoted zone ++ u ")".

(** An alternative of literals on a text that begins with one of them. *)
Lemma run_alts c k ws w rest :
  (forall w', w' ∈ ws -> w' <> w -> starts_with (w ++ rest) w' = false) ->
  run_re (alts (map lit_chars ws)) (w ++ rest) c k =
  if bool_decide (w ∈ ws) then k rest c else None.
Proof.
  induction ws as [|x ws IH]; intros Hws.
  { rewrite bool_decide_eq_false_2 by apply not_elem_of_nil. cbn. by destruct (w ++ rest). }
  specialize (IH (fun w' Hw => Hws w' (list_elem_of_further _ _ _ Hw))).
  assert (run_re (lit_chars x) (w ++ rest) c k = if bool_decide (w = x) then k rest c else None) as Hx.
  { destruct (decide (w = x)) as [<-|Hwx].
    - rewrite bool_decide_eq_true_2 by done. apply run_lit.
    - rewrite bool_decide_eq_false_2 by done. apply run_lit_other, Hws; [left|done]. }
  assert (run_re (alts (map lit_chars (x :: ws))) (w ++ rest) c k =
    match run_re (lit_chars x) (w ++ rest) c k with
    | Some m => Some m
    | None => run_re (alts (map lit_chars ws)) (w ++ rest) c k end) as ->.
  { destruct ws as [|y ws]; [|done]. cbn [map alts]. cbn.
    destruct (run_re (lit_chars x) (w ++ rest) c k); [done|]. by destruct (w ++ rest). }
  rewrite Hx, IH. destruct (decide (w = x)) as [<-|Hwx].
  - rewrite (bool_decide_eq_true_2 (w = w)), (bool_decide_eq_true_2 (w ∈ w :: ws)) by (done || left).
    destruct (k rest c); [done|]. by destruct (bool_decide (w ∈ ws)).
  - rewrite (bool_decide_eq_false_2 (w = x)) by done.
    rewrite (bool_decide_ext (w ∈ x :: ws) (w ∈ ws)); [done|]. rewrite elem_of_cons. naive_solver.
Qed.

Lemma run_group c k i r w rest :
  (forall k', run_re r (w ++ rest) c k' = k' rest c) ->
  run_re (Group i r) (w ++ rest) c k = k rest (assoc_set i w c).
Proof.
  intros Hr. cbn [run_re]. rewrite Hr, length_app, Nat.add_sub. by rewrite take_app_length.
Qed.

Lemma run_time_name f rest c k :
  run_re time_name (time_text f ++ u "(" ++ rest) c k =
  k (u "(" ++ rest) (assoc_set 1%nat (time_text f) c).
Proof.
  apply run_group. intros k'. rewrite <- (map_map time_text lit_chars), run_alts.
  - rewrite bool_decide_eq_true_2; [done|]. by destruct f; apply (bool_decide_unpack _).
  - intros w' Hw Hne.
    repeat (apply elem_of_cons in Hw as [->|Hw]; [by destruct f|]). by apply not_elem_of_nil in Hw.
Qed.

Lemma run_seq a b s c k : run_re (Seq a b) s c k = run_re a s c (fun s' c' => run_re b s' c' k).
Proof. done. Qed.

Lemma run_quoted_arg i zone rest c k :
  plain zone -> zone <> [] ->
  run_re (quoted_arg i) (u "(" ++ quoted zone ++ u ")" ++ rest) c k = k rest (assoc_set i zone c).
Proof.
  intros Hz Hne.
  assert (u "(" ++ quoted zone ++ u ")" ++ rest = [40%N; 34%N] ++ zone ++ [34%N; 41%N] ++ rest) as ->
    by (unfold quoted; by rewrite <- !app_assoc).
  unfold quoted_arg, seqs. cbn [fold_right]. rewrite run_seq. unfold litq. rewrite run_lit, run_seq.
  unfold none_of. rewrite run_group_plus; [| |by apply plain_not_quote|done|].
  - rewrite run_seq. by rewrite (run_lit _ _ [34%N; 41%N]).
  - done.
  - intros x s c' Hx. rewrite run_seq. apply (run_lit_other _ _ [34%N; 41%N]). cbn [starts_with].
    apply negb_true_iff, bool_decide_eq_false in Hx.
    assert (N.eqb 34 x = false) as ->; [|done]. apply N.eqb_neq. intros <-. apply Hx. left.
Qed.

Lemma number_chars_eq : number_chars = plus (Chr number_char).
Proof. done. Qed.

Lemma run_number i v rest c k :
  v <> [] -> Forall (fun x => number_char x = true) v -> stops number_char rest ->
  (forall x s c', number_char x = true -> k (x :: s) c' = None) ->
  run_re (Group i number_chars) (v ++ rest) c k = k rest (assoc_set i v c).
Proof. rewrite number_chars_eq. apply run_group_plus. Qed.

(** A literal that begins with a space cannot follow inside a number. *)
Lemma lit_not_number w r c k x s : number_char x = true ->
  run_re (Seq (lit_chars (32%N :: w)) r) (x :: s) c k = None.
Proof.
  intros Hx. rewrite run_seq. apply run_lit_other. cbn [starts_with].
  destruct (N.eqb_spec 32 x) as [<-|]; [|done]. by vm_compute in Hx.
Qed.

Definition range_text (f : TimeFunction) (zone op s e : str) : str :=
  time_fn f zone ++ u " >= " ++ s ++ u " " ++ op ++ u " " ++ time_fn f zone ++ u " < " ++ e.

Lemma match_time_range f zone op s e :
  plain zone -> zone <> [] -> op ∈ [u "&&"; u "||"] ->
  is_numeric_literal s = true -> is_numeric_literal e = true ->
  match_all time_range_body (range_text f zone op s e) =
  Some [(1%nat, time_text f); (2%nat, zone); (3%nat, s); (4%nat, e)].
Proof.
  intros Hz Hne Hop [Hs1 Hs2]%numeric_literal_chars [He1 He2]%numeric_literal_chars.
  unfold match_all, range_text, time_fn, time_range_body, seqs. cbn [fold_right].
  rewrite <- !app_assoc. rewrite run_seq, run_time_name. cbn [assoc_set].
  rewrite run_seq, run_quoted_arg by done. rewrite run_seq. unfold lit. rewrite run_lit.
  rewrite run_seq, run_number; [|done..|by intros; apply (lit_not_number [])].
  rewrite run_seq, run_lit, run_seq.
  rewrite (run_alts _ _ [u "&&"; u "||"] op), (bool_decide_eq_true_2 _ Hop).
  2: { intros w' Hw Hne'. repeat (apply elem_of_cons in Hop as [->|Hop];
         [repeat (apply elem_of_cons in Hw as [->|Hw]; [done|]); by apply not_elem_of_nil in Hw|]).
       by apply not_elem_of_nil in Hop. }
  rewrite run_seq, run_lit, run_seq, run_back by done.
  change (u "(" ++ quoted zone ++ u ")" ++ u " < " ++ e)
    with ([40%N; 34%N] ++ (zone ++ [34%N]) ++ u ")" ++ u " < " ++ e).
  rewrite run_seq. unfold litq. rewrite (run_lit _ _ [40%N; 34%N]), <- app_assoc, run_seq, run_back by done.
  change ([34%N] ++ u ")" ++ u " < " ++ e) with ([34%N; 41%N] ++ u " < " ++ e).
  rewrite run_seq, (run_lit _ _ [34%N; 41%N]), run_seq, run_lit, run_seq.
  rewrite <- (app_nil_r e) at 1. rewrite run_number; done.
Qed.

Lemma time_text_of f : time_of_text (time_text f) = Some f.
Proof. by destruct f. Qed.

Definition compare_text (f : TimeFunction) (zone op v : str) : str :=
  time_fn f zone ++ u " " ++ op ++ u " " ++ v.

(** A single comparison is not a range. *)
Lemma compare_not_range f zone op v :
  plain zone -> zone <> [] -> op ∈ [u "=="; u ">="; u "<"] -> is_numeric_literal v = true ->
  match_all time_range_body (compare_text f zone op v) = None /\
  match_all time_range_parens (compare_text f zone op v) = None.
Proof.
  intros Hz Hne Hop [Hv1 Hv2]%numeric_literal_chars. unfold match_all, compare_text, time_fn.
  rewrite <- !app_assoc. split.
  - unfold time_range_body, seqs. cbn [fold_right]. rewrite run_seq, run_time_name, run_seq.
    rewrite run_quoted_arg by done. rewrite run_seq. unfold lit.
    repeat (apply elem_of_cons in Hop as [->|Hop]; [try (by rewrite run_lit_other)|]);
      [|by apply not_elem_of_nil in Hop].
    change (u " " ++ u ">=" ++ u " " ++ v) with (u " >= " ++ v). rewrite run_lit, run_seq.
    rewrite <- (app_nil_r v), run_number; [done..|by intros; apply (lit_not_number [])].
  - unfold time_range_parens, seqs. cbn [fold_right]. rewrite run_seq. unfold lit.
    rewrite run_lit_other; [done|]. by destruct f.
Qed.

Lemma match_time_compare f zone op v :
  plain zone -> zone <> [] -> op ∈ [u "=="; u ">="; u "<"] -> is_numeric_literal v = true ->
  match_all time_compare (compare_text f zone op v) =
  Some [(1%nat, time_text f); (2%nat, zone); (3%nat, op); (4%nat, v)].
Proof.
  intros Hz Hne Hop [Hv1 Hv2]%numeric_literal_chars.
  unfold match_all, compare_text, time_fn, time_compare, seqs. cbn [fold_right].
  rewrite <- !app_assoc. rewrite run_seq, run_time_name, run_seq, run_quoted_arg by done.
  rewrite run_seq. unfold lit. rewrite run_lit, run_seq, run_group.
  2: { intros k'. rewrite (run_alts _ _ [u "=="; u ">="; u "<"] op), (bool_decide_eq_true_2 _ Hop); [done|].
       intros w' Hw Hne'. repeat (apply elem_of_cons in Hop as [->|Hop];
         [repeat (apply elem_of_cons in Hw as [->|Hw]; [done|]); by apply not_elem_of_nil in Hw|]).
       by apply not_elem_of_nil in Hop. }
  rewrite run_seq, run_lit, run_seq. rewrite <- (app_nil_r v) at 1. rewrite run_number; done.
Qed.

(** ** The round trip *)

(** A condition as the editor holds it after reading an expression. *)
Inductive canonical : TimeCondition -> Prop :=
| canonical_range f zone s e :
    isTimeValueInRange f s = true -> isTimeValueInRange f e = true ->
    canonical {| tm_timeFunc := f; tm_timezone := zone; tm_mode := MATCH_RANGE; tm_value := [];
                 tm_rangeStart := s; tm_rangeEnd := e |}
| canonical_compare f zone mode v :
    mode ∈ [MATCH_EQ; MATCH_GTE; MATCH_LT] -> isTimeValueInRange f v = true ->
    canonical {| tm_timeFunc := f; tm_timezone := zone; tm_mode := mode; tm_value := v;
                 tm_rangeStart := []; tm_rangeEnd := [] |}.

Lemma normalize_time t :
  tm_timezone t <> [] -> tm_mode t ∈ [MATCH_EQ; MATCH_GTE; MATCH_LT; MATCH_RANGE] ->
  normalizeCondition (partial_of (OnTime t)) = OnTime t.
Proof.
  destruct t as [f zone mode v s e]. cbn [tm_timezone tm_mode]. intros Hz Hm.
  unfold normalizeCondition, partial_of. cbn [pc_source pc_timeFunc pc_timezone pc_mode pc_value
    pc_rangeStart pc_rangeEnd tm_timeFunc tm_timezone tm_mode tm_value tm_rangeStart tm_rangeEnd default].
  rewrite bool_decide_eq_true_2 by done. cbn [mbind option_bind]. rewrite time_text_of.
  destruct zone; [done|]. cbn [or_default].
  do 2 f_equal. repeat (apply elem_of_cons in Hm as [->|Hm]; [by vm_compute|]).
  by apply not_elem_of_nil in Hm.
Qed.

Lemma build_range f zone s e :
  plain zone -> isTimeValueInRange f s = true -> isTimeValueInRange f e = true ->
  exists op, op ∈ [u "&&"; u "||"] /\
    build_time {| tm_timeFunc := f; tm_timezone := zone; tm_mode := MATCH_RANGE; tm_value := [];
                  tm_rangeStart := s; tm_rangeEnd := e |} = range_text f zone op s e.
Proof.
  intros Hz Hs He. unfold build_time. cbn [tm_timeFunc tm_timezone tm_mode tm_rangeStart tm_rangeEnd].
  rewrite str_eqb_refl, json_string_plain by done.
  rewrite !trim_number by (by eapply in_range_numeric). rewrite Hs, He. cbn [negb orb].
  exists (if num_gtb (to_number s) (to_number e) then u "||" else u "&&").
  split; [case_match; rewrite !elem_of_cons; auto|]. by case_match.
Qed.

Definition mode_text (mode : str) : str :=
  if str_eqb mode MATCH_GTE then u ">=" else if str_eqb mode MATCH_LT then u "<" else u "==".

Lemma build_compare f zone mode v :
  plain zone -> isTimeValueInRange f v = true -> mode ∈ [MATCH_EQ; MATCH_GTE; MATCH_LT] ->
  build_time {| tm_timeFunc := f; tm_timezone := zone; tm_mode := mode; tm_value := v;
                tm_rangeStart := []; tm_rangeEnd := [] |} = compare_text f zone (mode_text mode) v.
Proof.
  intros Hz Hv Hm. unfold build_time. cbn [tm_timeFunc tm_timezone tm_mode tm_value].
  rewrite json_string_plain by done. rewrite (trim_number v), Hv by (by eapply in_range_numeric). cbn [negb].
  assert (str_eqb mode MATCH_RANGE = false) as -> by
    (repeat (apply elem_of_cons in Hm as [->|Hm]; [by vm_compute|]); by apply not_elem_of_nil in Hm).
  done.
Qed.

Lemma captured a b c d :
  let m := [(1%nat, a); (2%nat, b); (3%nat, c); (4%nat, d)] in
  text_of 1 m = a /\ text_of 2 m = b /\ text_of 3 m = c /\ text_of 4 m = d.
Proof. done. Qed.

(** a time condition the rule editor prints is read back as the same
    condition, for every time function, every mode, values in range and a time
    zone of plain characters: scalar comparisons stay scalar, and a range stays
    one range whether it crosses midnight or not. *)
Theorem time_condition_round_trip t :
  canonical t -> plain (tm_timezone t) -> tm_timezone t <> [] ->
  tryParseTimeCondition (buildTimeConditionExpr t) = Some (OnTime t).
Proof.
  intros Ht Hz Hne. unfold buildTimeConditionExpr.
  assert (tm_mode t ∈ [MATCH_EQ; MATCH_GTE; MATCH_LT; MATCH_RANGE]) as Hmode.
  { destruct Ht as [|f zone mode v Hm Hv]; cbn [tm_mode]; [by apply (bool_decide_unpack _)|].
    rewrite !elem_of_cons in *. tauto. }
  rewrite normalize_time by done. clear Hmode.
  destruct Ht as [f zone s e Hs He|f zone mode v Hm Hv]; cbn [tm_timezone] in Hz, Hne.
  - destruct (build_range f zone s e Hz Hs He) as (op & Hop & ->). unfold tryParseTimeCondition.
    rewrite match_time_range; [|done..|by eapply in_range_numeric|by eapply in_range_numeric].
    destruct (captured (time_text f) zone s e) as (-> & -> & -> & ->). rewrite time_text_of.
    cbn [mbind option_bind]. by rewrite Hs, He.
  - rewrite build_compare by done. unfold tryParseTimeCondition.
    assert (mode_text mode ∈ [u "=="; u ">="; u "<"]) as Hop.
    { repeat (apply elem_of_cons in Hm as [->|Hm]; [by apply (bool_decide_unpack _)|]).
      by apply not_elem_of_nil in Hm. }
    apply in_range_numeric in Hv as Hn.
    destruct (compare_not_range f zone (mode_text mode) v Hz Hne Hop Hn) as [-> ->].
    rewrite match_time_compare by done. cbn [mbind option_bind].
    destruct (captured (time_text f) zone (mode_text mode) v) as (-> & -> & -> & ->).
    rewrite time_text_of. cbn [mbind option_bind]. rewrite Hv. cbn [negb]. do 3 f_equal.
    repeat (apply elem_of_cons in Hm as [->|Hm]; [by vm_compute|]). by apply not_elem_of_nil in Hm.
Qed.

Definition overnight : TimeCondition :=
  {| tm_timeFunc := Time_hour; tm_timezone := u "Asia/Shanghai"; tm_mode := MATCH_RANGE;
     tm_value := []; tm_rangeStart := u "21"; tm_rangeEnd := u "6" |}.

Lemma time_condition_round_trip_witness :
  canonical overnight /\
  tryParseTimeCondition (buildTimeConditionExpr overnight) = Some (OnTime overnight).
Proof.
  assert (canonical overnight) as Hc by (apply canonical_range; by vm_compute).
  split; [exact Hc|]. apply (time_condition_round_trip overnight Hc); [|done].
  apply Forall_forall. intros x Hx. apply list_elem_of_In in Hx.
  repeat (apply elem_of_cons in Hx as [->|Hx]; [by vm_compute|]). by apply not_elem_of_nil in Hx.
Defined.

(** ** What the editor does not keep *)

Definition at_20_utc : BillingSimulationContext :=
  {| ctx_imageCount := None; ctx_tokens := Some [(u "p", VNumber (of_Z 10))];
     ctx_request := None; ctx_usage := None; ctx_now := Some (Some 72000000%Z) |}.

(** the rule editor can change a rule by opening it. A rule that holds from
    9 on or before 12, thus always, is read as the range from 9 to 12, and
    printed with [&&]: at 20 o'clock it no longer doubles the price. *)
Theorem reopened_rule_changes_the_price :
  let written := uq "(hour('UTC') >= 9 || hour('UTC') < 12 ? 2 : 1)" in
  let printed := uq "(hour('UTC') >= 9 && hour('UTC') < 12 ? 2 : 1)" in
  (groups ← tryParseRequestRuleExpr written; Ok (option_map buildRequestRuleExpr groups))
    = Ok (Some printed) /\
  cost_of_text (H := two_zones) (combineBillingExpr (u "tier('base', p * 3)") written) at_20_utc
    = Some (of_Z 60) /\
  cost_of_text (H := two_zones) (combineBillingExpr (u "tier('base', p * 3)") printed) at_20_utc
    = Some (of_Z 30).
Proof. cbv zeta. split; [|split]; vm_compute; reflexivity. Qed.

(** Reading rules can throw. A condition that looks like a text match but
    holds an escape that JSON does not have raises the error of [JSON.parse],
    which no caller up to [splitBillingExprAndRequestRules] catches. *)
Theorem unknown_escape_throws :
  exists message, splitBillingExprAndRequestRules
    (uq "tier('base', p * 3) * (has(header('x'), 'a\qb') ? 2 : 1)") = Throw (JsError message).
Proof. eexists. vm_compute. reflexivity. Qed.

Definition or_in_text : RequestRuleGroup :=
  {| rg_conditions := [OnRequest {| ph_source := From_param; ph_path := u "mode"; ph_mode := MATCH_EQ;
                                    ph_value := u "a || b" |};
                       OnRequest {| ph_source := From_header; ph_path := u "x-user";
                                    ph_mode := MATCH_EXISTS; ph_value := [] |}];
     rg_multiplier := u "2"; rg_conditionText := None; rg_matched := None |}.

(** the editor cannot always read what it printed. A value that contains
    the text of a disjunction makes the printer put the comparison in
    parentheses, in which the reader does not recognise it. *)
Theorem printed_rule_not_read_back :
  buildRequestRuleExpr [or_in_text]
    = uq "((param('mode') == 'a || b') && header('x-user') != '' ? 2 : 1)" /\
  tryParseRequestRuleExpr (buildRequestRuleExpr [or_in_text]) = Ok None.
Proof. split; vm_compute; reflexivity. Qed.
