(* ===== verification/TierFacts.v ===== *)
(** * The tier editor and the estimator

    What the estimator depends on, how it counts the input length, and inputs
    the tier editor does not keep. *)

From Stdlib Require Import String.
From S2P Require Import Prelude JsNumber JsString JsText Ast Parser Compile Request.
From S2P Require Import BillingTime Runtime RuntimeFacts Structure Display Regex Json.
From S2P Require Import BillingExpr Visual TierExpr.

(** ** The estimator *)

Lemma fold_set_get {V} (l : list (str * V)) k : forall m1 m2,
  assoc_get k m1 = assoc_get k m2 ->
  assoc_get k (fold_left (fun m e => assoc_set e.1 e.2 m) l m1) =
  assoc_get k (fold_left (fun m e => assoc_set e.1 e.2 m) l m2).
Proof.
  induction l as [|[k' v] l IH]; intros m1 m2 Hm; [done|]. cbn [fold_left fst snd]. apply IH.
  destruct (decide (k' = k)) as [->|Hne]; [by rewrite !assoc_get_set_eq|].
  by rewrite !assoc_get_set_ne.
Qed.

(** The estimated counts that do not depend on the extra fields. *)
Lemma estimated_base p c e1 e2 v :
  v ∉ map fst ESTIMATOR_VARS -> v <> Var_len ->
  assoc_get (variable_text v) (map (fun e => (e.1, VNumber e.2)) (buildEstimatorTokens p c e1)) =
  assoc_get (variable_text v) (map (fun e => (e.1, VNumber e.2)) (buildEstimatorTokens p c e2)).
Proof.
  intros Hv Hl. cbn in Hv. rewrite !not_elem_of_cons in Hv.
  destruct v; try done; by exfalso; naive_solver.
Qed.

Lemma uses_extra_spec exprStr compiled :
  compile exprStr = inl compiled -> exprUsesExtraVars exprStr = false -> nonempty exprStr = true ->
  forall v, v ∈ ce_variables compiled -> v ∉ map fst ESTIMATOR_VARS.
Proof.
  intros Hc Hu Hn v Hv Hin. unfold exprUsesExtraVars in Hu. rewrite Hn, Hc in Hu. cbn [negb] in Hu.
  apply list_elem_of_In, in_map_iff in Hin as (e & <- & He).
  apply not_true_iff_false in Hu. apply Hu. apply existsb_exists. exists e. split; [done|].
  by apply bool_decide_eq_true.
Qed.

Lemma estimator_agrees context p c e1 e2 now h (has_variable : BillingVariable -> Prop) has_call :
  (forall v, has_variable v -> (v ∉ map fst ESTIMATOR_VARS) /\ v <> Var_len) ->
  agrees (estimator_context context (buildEstimatorTokens p c e1))
    (estimator_context context (buildEstimatorTokens p c e2)) now now h h has_variable has_call.
Proof.
  intros Hv. constructor; try done.
  intros v Hm. destruct (Hv v Hm) as [Hx Hl].
  assert (token_of (estimator_context context (buildEstimatorTokens p c e1)) v =
          token_of (estimator_context context (buildEstimatorTokens p c e2)) v) as Ht.
  { unfold token_of, estimator_context. cbn [ctx_tokens]. f_equal.
    apply fold_set_get. by apply estimated_base. }
  by destruct v.
Qed.

(** the estimate of an expression that names neither the extra counts nor
    the input length does not change when the extra counts do: hiding their
    fields, as the editor does when [exprUsesExtraVars] is false, hides nothing
    that is charged for. *)
Theorem estimator_ignores_unused_counts `{Host} clock exprStr compiled p c e1 e2 context h :
  compile exprStr = inl compiled -> exprUsesExtraVars exprStr = false ->
  Var_len ∉ ce_variables compiled ->
  accepted (estimator_context context (buildEstimatorTokens p c e1)) h ->
  accepted (estimator_context context (buildEstimatorTokens p c e2)) h ->
  evalExprLocally clock exprStr p c e1 context = evalExprLocally clock exprStr p c e2 context.
Proof.
  intros Hc Hu Hlen H1 H2. unfold evalExprLocally.
  destruct (nonempty (trim exprStr)) eqn:Ht; [|done]. cbn [negb]. rewrite Hc.
  assert (nonempty exprStr = true) as Hn by (destruct exprStr; [done|done]).
  pose proof (uses_extra_spec exprStr compiled Hc Hu Hn) as Hx.
  apply compile_ready in Hc as [_ Hok].
  erewrite (evaluateCompiled_agrees compiled clock clock); [reflexivity|done|exact H1|exact H2|].
  apply estimator_agrees. intros v Hv. split; [by apply Hx|]. by intros ->.
Qed.

Definition no_extra : ExtraTokenValues :=
  {| cacheReadTokens := zero; cacheCreateTokens := zero; cacheCreate1hTokens := zero;
     imageTokens := zero; imageCacheTokens := zero; imageOutputTokens := zero;
     audioInputTokens := zero; audioOutputTokens := zero |}.
Definition some_images : ExtraTokenValues :=
  {| cacheReadTokens := zero; cacheCreateTokens := zero; cacheCreate1hTokens := zero;
     imageTokens := of_Z 700; imageCacheTokens := zero; imageOutputTokens := zero;
     audioInputTokens := zero; audioOutputTokens := zero |}.

Lemma estimator_ignores_unused_counts_witness :
  evalExprLocally (H := two_zones) 0 (u "tier('base', p * 2 + c * 3)") (of_Z 10) (of_Z 4) no_extra None
  = evalExprLocally (H := two_zones) 0 (u "tier('base', p * 2 + c * 3)") (of_Z 10) (of_Z 4) some_images None.
Proof.
  apply (estimator_ignores_unused_counts (H := two_zones) 0 _
    (compiled_text (u "tier('base', p * 2 + c * 3)")) _ _ _ _ _ []).
  - vm_compute. reflexivity.
  - vm_compute. reflexivity.
  - apply (bool_decide_unpack _). vm_compute. exact I.
  - split; vm_compute; reflexivity.
  - split; vm_compute; reflexivity.
Defined.

(** The estimator counts image and audio input in [len]: with 700 image
    tokens on top of 10 input tokens, the length is 710, although the counts
    the documentation sums ([p + cr + cc + cc1h]) make 10. *)
Theorem estimated_length_counts_media :
  assoc_get (u "len") (buildEstimatorTokens (of_Z 10) (of_Z 4) some_images) = Some (of_Z 710) /\
  num_add (num_add (num_add (of_Z 10) (cacheReadTokens some_images)) (cacheCreateTokens some_images))
    (cacheCreate1hTokens some_images) = of_Z 10.
Proof. split; vm_compute; reflexivity. Qed.

(** ** The tier editor *)

(** opening an expression in the tier editor can change its price. The
    pattern of a single tier takes the characters of [2-1] for one number, whose
    value is then [NaN], and the editor prints a price of 0 for it, while the
    expression itself is valid and charges [2 * p - 1]. *)
Theorem tier_editor_drops_a_price :
  cost_of_text (H := two_zones) (uq "tier('base', p * 2-1 + c * 3)") (tokens_context 10 0)
    = Some (of_Z 19) /\
  option_map generateExprFromVisualConfig (tryParseVisualConfig (uq "tier('base', p * 2-1 + c * 3)"))
    = Some (uq "tier('base', p * 0 + c * 3)").
Proof. split; vm_compute; reflexivity. Qed.

(** a label with a quotation mark breaks the printed expression: the tier
    editor writes the label between quotes as it is, and the result does not
    compile, while the same tier with a plain label does. *)
Theorem quoted_label_breaks_the_expression :
  is_ready (compile (generateExprFromVisualConfig
    [normalizeVisualTier (partial_tier (uq "5' disk") [] one one [])])) = false /\
  is_ready (compile (generateExprFromVisualConfig
    [normalizeVisualTier (partial_tier (u "disk") [] one one [])])) = true.
Proof. split; vm_compute; reflexivity. Qed.
