(* ===== verification/VisualFacts.v ===== *)
(** * An unedited document prints its source

    [parseVisualBillingDocument] and [serializeVisualBillingDocument]: reading
    an expression into a document and writing the document back gives the
    expression, character for character. *)

From Stdlib Require Import String.
From S2P Require Import Prelude JsNumber JsString JsText Ast Parser Compile Request.
From S2P Require Import BillingTime Runtime Structure Display Regex Visual.

#[local] Open Scope nat_scope.

(** ** Subtrees *)

Lemma tree_ok_in n d : tree_ok n -> d ∈ postorder n -> tree_ok d.
Proof.
  unfold tree_ok. rewrite !Forall_forall. setoid_rewrite <- list_elem_of_In.
  intros Hn Hd x Hx. eauto using postorder_trans.
Qed.

Lemma flatten_in o n d : d ∈ flattenBinary n o -> d ∈ postorder n.
Proof.
  revert d. induction n as [n IH] using node_children_ind. intros d Hd.
  destruct n as [| | | |o' l r s e|]; try (apply list_elem_of_singleton in Hd as ->; apply postorder_self).
  cbn [flattenBinary] in Hd. case_bool_decide.
  - cbn [children] in IH. rewrite !Forall_cons_iff in IH. destruct IH as (IHl & IHr & _).
    apply elem_of_app in Hd as [Hd|Hd]; [apply (postorder_child _ l)|apply (postorder_child _ r)];
      auto; cbn; rewrite !elem_of_cons; auto.
  - apply list_elem_of_singleton in Hd as ->. apply postorder_self.
Qed.

Lemma flatten_height o n d : d ∈ flattenBinary n o -> node_height d <= node_height n.
Proof.
  revert d. induction n as [n IH] using node_children_ind. intros d Hd.
  destruct n as [| | | |o' l r s e|]; try (by apply list_elem_of_singleton in Hd as ->).
  cbn [flattenBinary] in Hd. case_bool_decide; [|by apply list_elem_of_singleton in Hd as ->].
  cbn [children] in IH. rewrite !Forall_cons_iff in IH. destruct IH as (IHl & IHr & _).
  cbn [node_height]. apply elem_of_app in Hd as [Hd|Hd]; [apply IHl in Hd|apply IHr in Hd]; lia.
Qed.

(** The fuel of [readVisualCondition] is enough. *)
Lemma read_condition_fuel node : forall f g,
  node_height node < f -> node_height node < g -> read_condition f node = read_condition g node.
Proof.
  enough (forall h node f g, node_height node <= h -> node_height node < f -> node_height node < g ->
    read_condition f node = read_condition g node) as Hh by eauto.
  induction h as [|h IH]; intros n f g Hn Hf Hg;
    (destruct f as [|f]; [lia|]); (destruct g as [|g]; [lia|]).
  { destruct n; try done; cbn [node_height] in Hn; lia. }
  destruct n as [| | |o a s e|o l r s e|]; try done; cbn [node_height] in *.
  - destruct o; try done. cbn [read_condition]. f_equal. apply IH; lia.
  - assert (forall o', o = o' -> map_option (read_condition f) (flattenBinary (Binary o l r s e) o')
      = map_option (read_condition g) (flattenBinary (Binary o l r s e) o')) as Hmap.
    { intros o' ->. apply map_option_ext. intros d Hd. cbn [flattenBinary] in Hd.
      rewrite bool_decide_eq_true_2 in Hd by done.
      apply elem_of_app in Hd as [Hd|Hd]; apply flatten_height in Hd; apply IH; lia. }
    destruct o; try done; cbn [read_condition]; f_equal; by apply Hmap.
Qed.

(** ** Patches that change nothing *)

Definition inside (o n : ExpressionNode) : Prop :=
  node_start o <= node_start n /\ node_start n <= node_end n /\ node_end n <= node_end o.

Lemma postorder_inside n d : tree_ok n -> d ∈ postorder n -> inside n d.
Proof. intros Hn Hd. pose proof (postorder_span n d Hn Hd). unfold inside. lia. Qed.

Lemma child_inside n d : tree_ok n -> d ∈ children n -> inside n d.
Proof. intros Hn Hd. apply postorder_inside; [done|]. eauto using postorder_child, postorder_self. Qed.

Lemma take_slice (s : str) a b c : a <= b -> b <= c -> take (b - a) (slice s a c) = slice s a b.
Proof. intros Hab Hbc. unfold slice. rewrite take_take. f_equal. lia. Qed.
Lemma drop_slice (s : str) a b c : a <= b -> b <= c -> drop (b - a) (slice s a c) = slice s b c.
Proof.
  intros Hab Hbc. unfold slice. rewrite skipn_firstn_comm, drop_drop. f_equal; [lia|].
  f_equal. lia.
Qed.

Section identity.
Context (source : str).

Definition unchanged (o : ExpressionNode) (p : Patch) : Prop :=
  inside o (patch_node p) /\ patch_text p = span_text source (patch_node p).

Lemma insert_patch_forall (P : Patch -> Prop) p l : P p -> Forall P l -> Forall P (insert_patch p l).
Proof.
  intros Hp. induction 1 as [|q l Hq Hl IH]; cbn; [by repeat constructor|].
  case_match; repeat (constructor; try done).
Qed.
Lemma sort_patches_forall (P : Patch -> Prop) l : Forall P l -> Forall P (sort_patches l).
Proof. induction 1; cbn; [constructor|by apply insert_patch_forall]. Qed.

Lemma apply_patch_unchanged o p :
  unchanged o p -> apply_patch o (span_text source o) p = span_text source o.
Proof.
  intros [(H1 & H2 & H3) Ht]. unfold apply_patch, span_text in *. rewrite Ht.
  rewrite take_slice, drop_slice by lia.
  by rewrite slice_app, slice_app by lia.
Qed.

(** Patches with the text of their node leave the text as it is, in any order. *)
Lemma patchSource_unchanged o patches :
  Forall (unchanged o) patches -> patchSource source o patches = span_text source o.
Proof.
  intros Hp%sort_patches_forall. unfold patchSource. fold (span_text source o).
  induction Hp as [|p l Hp Hl IH]; [done|]. cbn. by rewrite apply_patch_unchanged.
Qed.
End identity.

(** ** Reading and writing *)

Section write_back.
Context `{Host} (source : str).

(** Written without an issue, a part has the text of the node it was read from. *)
Definition writes (w : written) (node : ExpressionNode) : Prop :=
  w.2 = [] -> w.1 = span_text source node.

Lemma same_node_refl n : same_node n n = true.
Proof. by apply bool_decide_eq_true. Qed.

(** A literal's number survives printing and reading. *)
Lemma literal_reread x i v :
  literal_ok (LNumber x) i -> parseNonNegativeNumber (number_to_string x) = Some v -> v = x.
Proof.
  intros (Hv & Hf & Hn & _). unfold parseNonNegativeNumber.
  destruct (negb _); [done|]. destruct x as [| |[] m e]; try done.
  rewrite to_number_to_string by done. case_match; [|done]. by intros [= <-].
Qed.

Lemma literal_text_kept x i s e text v :
  literal_ok (LNumber x) i -> parseNonNegativeNumber (number_to_string x) = Some v ->
  (if same_literal (Some v) (Literal (LNumber x) i s e)
   then span_text source (Literal (LNumber x) i s e) else text)
  = span_text source (Literal (LNumber x) i s e).
Proof.
  intros Hl Hp. rewrite (literal_reread x i v) by done. cbn [same_literal].
  destruct Hl as (_ & Hf & _). by rewrite num_eqb_refl.
Qed.

Lemma comparison_written o l x i s1 e1 s e probe timezone :
  tree_ok (Binary o l (Literal (LNumber x) i s1 e1) s e) -> read_probe l = Some (probe, timezone) ->
  let node := Binary o l (Literal (LNumber x) i s1 e1) s e in
  writes (write_comparison source (identity (u "condition-") node) probe timezone o
            (number_to_string x)) node.
Proof.
  intros Ht Hp node. unfold writes, write_comparison. cbn [fst snd identity or_node].
  intros Hi. fold node. cbn [node]. rewrite bool_decide_eq_true_2 by done. fold node.
  destruct (parseNonNegativeNumber (number_to_string x)) as [v|] eqn:Ev.
  2: { by unfold comparison_issues in Hi. }
  apply patchSource_unchanged. repeat apply List.Forall_cons; [| |by apply List.Forall_nil]; split.
  - apply child_inside; [done|]. left.
  - cbn [patch_node patch_text]. unfold probe_written.
    destruct l as [|w ? ?|f args ? ?| | |]; try done; cbn [read_probe] in Hp.
    + destruct (is_condition_variable w); [|done]. injection Hp as <- <-.
      by rewrite bool_decide_eq_true_2.
    + destruct f; try done. destruct args as [|[[zone| | |] ? ? ?| | | | |] rest]; try done.
      injection Hp as <- <-. rewrite bool_decide_eq_true_2 by done. cbn [is_text_literal].
      by rewrite (proj2 (str_eqb_eq _ _)).
  - apply child_inside; [done|]. right. left.
  - cbn [patch_node patch_text is_literal andb]. eapply literal_text_kept; [|exact Ev].
    assert (tree_ok (Literal (LNumber x) i s1 e1)) as Hl
      by (eapply tree_ok_sub; [exact Ht|right; left]).
    by destruct (tree_ok_node _ Hl) as (_ & _ & Hl').
Qed.

Lemma flat_map_nil {A B} (f : A -> list B) l : flat_map f l = [] -> Forall (fun x => f x = []) l.
Proof.
  induction l as [|x l IH]; cbn; [constructor|]. intros [H1 H2]%app_eq_nil. constructor; auto.
Qed.

(** What reading a condition promises to writing it. *)
Definition read_back (node : ExpressionNode) (c : VisualCondition) : Prop :=
  condition_origin c = Some node /\ writes (writeVisualCondition source c) node.

Lemma group_origins nodes cs :
  Forall2 read_back nodes cs ->
  forallb2 (fun n c => same_origin (condition_origin c) n) nodes cs = true.
Proof.
  induction 1 as [|n c ns cs [Ho _] _ IH]; [done|]. cbn. rewrite Ho, IH. cbn. by rewrite same_node_refl.
Qed.

Lemma group_patches o nodes cs :
  Forall2 read_back nodes cs -> Forall (inside o) nodes ->
  Forall (fun w : written => w.2 = []) (map (writeVisualCondition source) cs) ->
  Forall (unchanged source o)
    (zip_with (fun n t => {| patch_node := n; patch_text := t |}) nodes
       (map fst (map (writeVisualCondition source) cs))).
Proof.
  induction 1 as [|n c ns cs [_ Hw] _ IH]; cbn; [constructor|].
  intros [Hn Hns]%Forall_cons_iff [Hi His]%Forall_cons_iff.
  constructor; [|by apply IH]. split; [done|]. by apply Hw.
Qed.

Lemma group_written (all : bool) o l r s e cs :
  o = (if all then Op_and else Op_or) -> tree_ok (Binary o l r s e) ->
  Forall2 read_back (flattenBinary (Binary o l r s e) o) cs ->
  let node := Binary o l r s e in
  writes (writeVisualCondition source (VGroup all (identity (u "condition-") node) cs)) node.
Proof.
  intros Ho Ht Hcs node. unfold writes. cbn [writeVisualCondition fst snd]. intros Hi.
  apply app_eq_nil in Hi as [_ Hi]. apply flat_map_nil in Hi.
  cbn [identity or_node]. fold node. cbn [node]. rewrite <- Ho. rewrite bool_decide_eq_true_2 by done.
  fold node. rewrite group_origins by done. apply patchSource_unchanged, group_patches; [done| |done].
  apply Forall_forall. intros d Hd. apply postorder_inside; [done|].
  eapply flatten_in, list_elem_of_In, Hd.
Qed.

Lemma read_condition_back fuel : forall node c,
  tree_ok node -> read_condition fuel node = Some c -> read_back node c.
Proof.
  induction fuel as [|fuel IH]; intros node c Ht Hr; [done|].
  assert (forall o l r s e (all : bool) cs, node = Binary o l r s e ->
    o = (if all then Op_and else Op_or) ->
    map_option (read_condition fuel) (flattenBinary node o) = Some cs ->
    read_back node (VGroup all (identity (u "condition-") node) cs)) as Hgroup.
  { intros o l r s e all cs -> Ho Hm. split; [done|]. apply group_written; try done.
    eapply map_option_Forall2, Hm. intros d y Hd. apply IH.
    eapply tree_ok_in, flatten_in, Hd. done. }
  cbn [read_condition] in Hr. destruct node as [| | |o a s e|o l r s e|]; try discriminate Hr.
  - destruct o; try discriminate Hr. apply fmap_Some in Hr as (child & Hc & ->).
    apply IH in Hc as [Ho Hw]; [|eapply tree_ok_sub; [done|left]]. split; [done|].
    unfold writes in *. cbn [writeVisualCondition].
    destruct (writeVisualCondition source child) as [text issues]. cbn [fst snd identity or_node] in *.
    rewrite Ho. cbn [same_origin]. rewrite same_node_refl. intros Hi.
    apply patchSource_unchanged. constructor; [|by constructor]. split; [|by apply Hw].
    apply child_inside; [done|left].
  - clear IH. assert (is_comparison o = true ->
      match r with
      | Literal (LNumber v) _ _ _ =>
          '(probe, timezone) ← read_probe l;
          Some (VComparison (identity (u "condition-") (Binary o l r s e)) probe timezone o
                  (number_to_string v))
      | _ => None
      end = Some c -> read_back (Binary o l r s e) c) as Hcomp.
    { intros _ Hc. destruct r as [[|x| |] i s1 e1| | | | |]; try discriminate Hc.
      apply bind_Some in Hc as ([probe timezone] & Hp & [= <-]). split; [done|].
      by apply comparison_written. }
    destruct o; try (apply fmap_Some in Hr as (cs & Hm & ->); by eapply (Hgroup _ _ _ _ _ _ _ eq_refl));
      try (apply Hcomp; [done|exact Hr]); destruct r as [[]| | | | |]; discriminate Hr.
Qed.

Lemma read_price_spec term p :
  read_price term = Some p ->
  exists v x i s1 e1 s2 e2 s e, term = Binary Op_mul (Variable_ v s1 e1) (Literal (LNumber x) i s2 e2) s e
    /\ vp_origin p = Some term /\ vp_value p = number_to_string x.
Proof.
  destruct term as [| | | |o l r s e|]; try done. destruct o; try done.
  destruct l as [|v s1 e1| | | |]; try done. destruct r as [[|x| |] i s2 e2| | | | |]; try done.
  cbn. intros Hp. exists v, x, i, s1, e1, s2, e2, s, e.
  destruct v; try done; destruct (num_ltb x zero); try done; by injection Hp as <-.
Qed.

Lemma read_prices_spec terms : forall acc ps,
  read_prices terms acc = Some ps ->
  exists l, ps = acc ++ l /\ Forall2 (fun t p => read_price t = Some p) terms l.
Proof.
  induction terms as [|t terms IH]; cbn; intros acc ps.
  - intros [= <-]. exists []. by rewrite app_nil_r.
  - intros (p & Hp & Hr)%bind_Some. destruct (existsb _ acc); [done|].
    apply IH in Hr as (l & -> & Hl). exists (p :: l). rewrite <- app_assoc. split; [done|].
    by constructor.
Qed.

(** The patch of a price, if it has no issue. *)
Lemma price_patches o id term p :
  tree_ok term -> inside o term -> read_price term = Some p ->
  (write_price source id p).2 = [] -> Forall (unchanged source o) (write_price source id p).1.2.
Proof.
  intros Ht Ho Hp. apply read_price_spec in Hp as (v & x & i & s1 & e1 & s2 & e2 & s & e & -> & Hor & Hv).
  unfold write_price. rewrite Hor, Hv.
  destruct (parseNonNegativeNumber (number_to_string x)) as [y|] eqn:Ey; [|done]. intros _.
  cbn [fst snd]. constructor; [|by constructor]. 
  assert (tree_ok (Literal (LNumber x) i s2 e2)) as Hl
    by (eapply tree_ok_sub; [exact Ht|right; left]).
  destruct (tree_ok_node _ Hl) as (_ & _ & Hl'). split.
  - assert (inside (Binary Op_mul (Variable_ v s1 e1) (Literal (LNumber x) i s2 e2) s e)
      (Literal (LNumber x) i s2 e2)) as Hin by (apply child_inside; [done|right; left]).
    unfold inside in *. cbn [patch_node]. cbn in *. lia.
  - by eapply literal_text_kept.
Qed.

Lemma prices_patches o id terms ps :
  Forall2 (fun t p => read_price t = Some p) terms ps ->
  Forall (fun t => tree_ok t /\ inside o t) terms ->
  Forall (fun r => r.2 = []) (map (write_price source id) ps) ->
  Forall (unchanged source o) (flat_map (fun r => r.1.2) (map (write_price source id) ps)) /\
  forallb2 (fun term p => same_origin (vp_origin p) term) terms ps = true.
Proof.
  induction 1 as [|t p terms ps Hp Hps IH]; cbn [map flat_map forallb2]; [by split; [constructor|]|].
  intros [[Ht Ho] Hts]%Forall_cons_iff [Hi His]%Forall_cons_iff.
  destruct (IH Hts His) as [IH1 IH2]. split.
  - apply Forall_app. split; [|done]. by eapply price_patches.
  - rewrite IH2, andb_true_r. apply read_price_spec in Hp as (?&?&?&?&?&?&?&?&?&->&->&_).
    apply same_node_refl.
Qed.

Lemma label_unchanged o label i s e :
  inside o (Literal (LString label) i s e) ->
  unchanged source o {| patch_node := Literal (LString label) i s e;
    patch_text := label_written source (Literal (LString label) i s e) label |}.
Proof. intros Hi. split; [done|]. cbn. unfold label_written. cbn. by rewrite str_eqb_refl. Qed.

Lemma tokens_written label i s1 e1 body rest s e prices :
  let node := Call Fn_tier (Literal (LString label) i s1 e1 :: body :: rest) s e in
  tree_ok node -> read_prices (flattenBinary body Op_add) [] = Some prices ->
  writes (write_tokens source (identity (u "pricing-") node) label prices) node.
Proof.
  intros node Ht Hp. apply read_prices_spec in Hp as (l & -> & Hl). cbn [app].
  assert (tree_ok body /\ inside node body) as [Hb Hin].
  { split; [eapply tree_ok_sub|apply child_inside]; try exact Ht; right; left. }
  unfold writes, write_tokens. cbn [fst snd identity or_node]. fold node. cbn [node]. fold node.
  intros Hi. apply app_eq_nil in Hi as [_ Hi]. apply flat_map_nil in Hi.
  destruct (prices_patches node (or_id (identity (u "pricing-") node)) _ _ Hl) as [Hpatch ->];
    [|exact Hi|].
  { apply Forall_forall. intros d Hd%list_elem_of_In. apply flatten_in in Hd.
    split; [by eapply tree_ok_in|]. pose proof (postorder_inside _ _ Hb Hd). unfold inside in *. lia. }
  apply patchSource_unchanged. constructor; [|done]. apply label_unchanged.
  apply child_inside; [done|left].
Qed.

Lemma fixed_written label i s1 e1 x j s2 e2 rest2 s3 e3 rest s e :
  let node := Call Fn_tier (Literal (LString label) i s1 e1
                :: Call Fn_fixed (Literal (LNumber x) j s2 e2 :: rest2) s3 e3 :: rest) s e in
  tree_ok node ->
  writes (write_fixed source (identity (u "pricing-") node) label (number_to_string x)) node.
Proof.
  intros node Ht. unfold writes, write_fixed. cbn [fst snd identity or_node]. fold node.
  destruct (parseNonNegativeNumber (number_to_string x)) as [v|] eqn:Ev; [|done]. intros _.
  assert (tree_ok (Call Fn_fixed (Literal (LNumber x) j s2 e2 :: rest2) s3 e3)) as Hb
    by (eapply tree_ok_sub; [exact Ht|right; left]).
  assert (tree_ok (Literal (LNumber x) j s2 e2)) as Hx
    by (eapply tree_ok_sub; [exact Hb|left]).
  destruct (tree_ok_node _ Hx) as (_ & _ & Hx').
  cbn [node]. fold node. apply patchSource_unchanged. constructor; [|constructor; [|by constructor]].
  - apply label_unchanged, child_inside; [done|left].
  - split; [apply child_inside; [done|right; left]|]. cbn [patch_text patch_node].
    apply patchSource_unchanged. constructor; [|by constructor].
    split; [apply child_inside; [done|left]|]. cbn [patch_text patch_node].
    by eapply literal_text_kept.
Qed.

Lemma branch_written c y m s e vc vy vm :
  let node := Conditional c y m s e in
  tree_ok node -> writes (writeVisualCondition source vc) c ->
  writes (writeVisualPricing source vy) y -> writes (writeVisualPricing source vm) m ->
  writes (writeVisualPricing source (VBranch (identity (u "pricing-") node) vc vy vm)) node.
Proof.
  intros node Ht Hc Hy Hm. unfold writes in *. cbn [writeVisualPricing].
  destruct (writeVisualCondition source vc) as [tc ic], (writeVisualPricing source vy) as [ty iy],
    (writeVisualPricing source vm) as [tm im]. cbn [fst snd identity or_node] in *. fold node.
  intros [Hic [Hiy Him]%app_eq_nil]%app_eq_nil. cbn [node]. fold node. apply patchSource_unchanged.
  repeat (apply List.Forall_cons; [split; cbn [patch_text patch_node]; [apply child_inside; [done|]|auto]|]);
    [..|apply List.Forall_nil]; cbn [node children]; rewrite !elem_of_cons; auto.
Qed.

Lemma infer_sub n t c : infer n = Some t -> c ∈ children n -> exists t', infer c = Some t'.
Proof.
  rewrite infer_children. intros (ts & Hts & _)%bind_Some Hc.
  apply map_option_Some in Hts. apply list_elem_of_lookup in Hc as [k Hk].
  eapply Forall2_lookup_l in Hts as (t' & _ & Ht); [|exact Hk]. eauto.
Qed.

Lemma readVisualPricing_back node : forall t p,
  tree_ok node -> infer node = Some t -> readVisualPricing node = Some p ->
  writes (writeVisualPricing source p) node.
Proof.
  induction node as [node IH] using node_children_ind. intros t p Ht Hi Hr.
  destruct node as [| |f args s e| | |c y m s e]; try done.
  - destruct f; try done. destruct args as [|[[label| | |] i s1 e1| | | | |] [|body rest]]; try done.
    assert (forall o : option (list VisualPrice), o = read_prices (flattenBinary body Op_add) [] ->
      (prices ← o; Some (VTier (identity (u "pricing-")
         (Call Fn_tier (Literal (LString label) i s1 e1 :: body :: rest) s e))
         label prices Unit_token [])) = Some p ->
      writes (writeVisualPricing source p)
        (Call Fn_tier (Literal (LString label) i s1 e1 :: body :: rest) s e)) as Hp.
    { intros o -> Ho. apply bind_Some in Ho as (prices & Hp & [= <-]). by apply tokens_written. }
    cbn [readVisualPricing] in Hr.
    destruct body as [| |g bargs s3 e3| | |]; try (by eapply Hp). destruct g; try (by eapply Hp).
    destruct bargs as [|[v j s2 e2| | | | |] rest2]; try (by eapply Hp). clear Hp.
    injection Hr as <-. destruct (infer_sub _ _ (Call Fn_fixed (Literal v j s2 e2 :: rest2) s3 e3) Hi)
      as [tb Htb]; [right; left|].
    cbn [writeVisualPricing]. destruct v as [str_|x|b|]; [|by apply fixed_written|..].
    + rewrite infer_children in Htb. destruct rest2; cbn in Htb; [done|].
      apply bind_Some in Htb as (ts & Hts & Htb). cbn in Hts.
      apply bind_Some in Hts as (ys & _ & [= <-]). by destruct ys.
    + destruct b; by intros ?.
    + by intros ?.
  - cbn [readVisualPricing] in Hr. apply bind_Some in Hr as (vc & Hc & Hr).
    apply bind_Some in Hr as (vy & Hy & Hr). apply bind_Some in Hr as (vm & Hm & [= <-]).
    cbn [children] in IH. rewrite !Forall_cons_iff in IH. destruct IH as (_ & IHy & IHm & _).
    destruct (infer_sub _ _ y Hi) as [ty Hty]; [right; left|].
    destruct (infer_sub _ _ m Hi) as [tm Htm]; [right; right; left|].
    apply branch_written; [done|..].
    + eapply read_condition_back, Hc. eapply tree_ok_sub; [done|left].
    + eapply IHy; eauto. eapply tree_ok_sub; [done|right; left].
    + eapply IHm; eauto. eapply tree_ok_sub; [done|right; right; left].
Qed.
End write_back.

(** C5: a document read from an expression and not edited is written back as the
    expression it was read from, character for character: the printer reports
    no issue and reuses the source text of every part. *)
Theorem visual_document_round_trip `{Host} source document :
  parseVisualBillingDocument source = Some document ->
  serializeVisualBillingDocument document = inl source.
Proof.
  unfold parseVisualBillingDocument. destruct (compile source) as [c|] eqn:Ec; [|done].
  intros (root & Hr & Hs)%bind_Some.
  assert (document = {| doc_source := source; doc_root := root |}) as ->.
  { destruct (serializeVisualBillingDocument _); congruence. }
  destruct (serializeVisualBillingDocument _) as [text|] eqn:Et; [clear Hs|done].
  rewrite <- Et. unfold serializeVisualBillingDocument in *. cbn [doc_source doc_root] in *.
  pose proof Ec as Ec'. apply compile_ready in Ec' as [Hsrc Hok].
  destruct (co_typed _ Hok) as [t Hty].
  pose proof (readVisualPricing_back source (ce_ast c) t root (co_tree _ Hok) Hty Hr) as Hw.
  unfold writes in Hw. destruct (writeVisualPricing source root) as [body issues]. cbn [fst snd] in Hw.
  destruct issues; [|done]. rewrite Ec in *. rewrite Hw in * by done.
  pose proof (parse_spec source) as Hp. rewrite <- Hsrc, (co_parsed _ Hok), Hsrc in Hp.
  destruct Hp as [Htree Hend]. destruct (tree_ok_node _ Htree) as (Hlt & _).
  assert (take (node_start (ce_ast c)) source ++ span_text source (ce_ast c)
    ++ drop (node_end (ce_ast c)) source = source) as E.
  { unfold span_text. rewrite slice_from by lia. apply take_drop. }
  rewrite E in *. by rewrite Ec.
Qed.

Definition visual_source : str :=
  u " hour('UTC') >= 9 && hour('UTC') < 18 ?  tier('day' , p*2.50 + c * 1e1) : tier('night', fixed( 0.1 ))".

Lemma visual_document_round_trip_witness : exists document,
  parseVisualBillingDocument (H := two_zones) visual_source = Some document /\
  serializeVisualBillingDocument (H := two_zones) document = inl visual_source.
Proof.
  succeeds (parseVisualBillingDocument (H := two_zones) visual_source) document Ed.
  exists document. split; [done|]. by apply (visual_document_round_trip (H := two_zones)).
Defined.
