(* ===== verification/TaskFacts.v ===== *)
(** * Task pricing: rows, matrices and the charge

    The rows read off a task expression against the interpreter, the
    combinations of enum values, and the matrix editor. *)

From Stdlib Require Import String.
From S2P Require Import Prelude JsNumber JsString JsText Ast Parser Compile Request.
From S2P Require Import BillingTime Runtime RuntimeFacts FixedPrice Structure Display Regex.
From S2P Require Import Json BillingExpr TaskExpr PriceFacts DisplayFacts.

(** ** Conditions on the usage *)

(** The usage has a declared value for every enum field and a boolean for every
    boolean field of the schema. *)
Definition conforms (schema : BillingUsageSchema) (usage : list (str * value)) : Prop :=
  forall field f, assoc_get field schema = Some f ->
    (f_type f = Some F_boolean -> exists b, assoc_get field usage = Some (VBoolean b)) /\
    (f_type f <> Some F_boolean -> forall values, f_enum f = Some values ->
       exists s, assoc_get field usage = Some (VString s) /\ s ∈ values).

(** The text of a categorical usage value, as conditions show it. *)
Definition usage_text (usage : list (str * value)) (field : str) : option str :=
  match assoc_get field usage with
  | Some (VString s) => Some s
  | Some (VBoolean b) => Some (boolean_text b)
  | _ => None
  end.
Definition task_holds (usage : list (str * value)) (c : TaskCondition) : bool :=
  bool_decide (usage_text usage (tk_field c) = Some (tk_value c)).
Definition task_applies (usage : list (str * value)) (t : TaskTier) : bool :=
  forallb (task_holds usage) (task_conditions t).

Section chain.
Context `{Host}.
Context (rules : list CompiledRule) (context : BillingSimulationContext)
        (now : date) (headers : list (str * str)).
Context (schema : BillingUsageSchema) (includeBoolean : bool) (usage : list (str * value)).
Context (Husage : ctx_usage context = Some usage) (Hconf : conforms schema usage).
Abbreviation eval := (evaluate rules context now headers).
Abbreviation decides := (decides rules context now headers).
Abbreviation partially := (partially rules context now headers).
Abbreviation counts := (counts rules context now headers).

Lemma eval_usage field i s1 e1 rest s e :
  partially (Call Fn_u (Literal (LString field) i s1 e1 :: rest) s e)
    (fun m w m' => rv_value w = default VNull (assoc_get field usage) /\ m' = m).
Proof.
  intros st. apply (evaluate_partial rules context now headers (Call Fn_u _ s e)
    (fun m w m' => rv_value w = default VNull (assoc_get field usage) /\ m' = m)). clear st. intros st.
  cbn [evaluateNode call]. unfold string_. apply wp_bind, wp_bind.
  eapply wp_mono; [apply eval_literal|]. intros w s2 [-> Hm]. cbn [rv_value literal_value].
  apply wp_ret. rewrite Husage. by apply wp_ret.
Qed.

(** [u(field) == literal] compares with [===]. *)
Lemma eval_usage_equals field i s1 e1 rest s2 e2 v j s3 e3 s e :
  is_object (default VNull (assoc_get field usage)) = false ->
  decides (Binary Op_eq (Call Fn_u (Literal (LString field) i s1 e1 :: rest) s2 e2)
             (Literal v j s3 e3) s e)
    (strict_equal (default VNull (assoc_get field usage)) (literal_value v)).
Proof.
  intros Ho st. apply (evaluate_partial rules context now headers (Binary Op_eq _ _ s e)
    (fun m w m' => rv_value w = VBoolean (strict_equal (default VNull (assoc_get field usage))
       (literal_value v)) /\ m' = m)). clear st. intros st.
  cbn [evaluateNode binary]. apply wp_bind. eapply wp_mono; [apply eval_usage|].
  intros a s4 [Ha Hm1]. apply wp_bind. eapply wp_mono; [apply eval_literal|]. intros b s5 [-> Hm2].
  unfold apply_binary. cbn [rv_value bool_decide orb]. rewrite Ha, Ho.
  assert (is_object (literal_value v) = false) as -> by by destruct v.
  rewrite andb_false_r. apply wp_ret. split; [done|congruence].
Qed.

Lemma task_condition_decides part c reachable :
  task_condition schema includeBoolean part = Some (c, reachable) ->
  decides part (task_holds usage c) /\ (reachable = false -> task_holds usage c = false).
Proof.
  destruct part as [| | | |o l r s e|]; try done. destruct o; try done.
  destruct l as [| |f args s2 e2| | |]; try done. destruct f; try done.
  destruct args as [|[[field| | |] i s1 e1| | | | |] rest]; try done.
  destruct r as [v j s3 e3| | | | |]; try done. cbn [task_condition].
  destruct (assoc_get field schema) as [f|] eqn:Ef; cbn [mbind option_bind].
  2: { rewrite bool_decide_eq_false_2 by done. by destruct v. }
  destruct (Hconf field f Ef) as [Hb Hs].
  pose proof (eval_usage_equals field i s1 e1 rest s2 e2 v j s3 e3 s e) as Hd.
  case_bool_decide as Ht.
  - destruct v as [| |b|]; try done. destruct includeBoolean; [|done]. intros [= <- <-].
    split; [|done]. destruct (Hb Ht) as [b' Hg]. rewrite Hg in Hd. specialize (Hd eq_refl).
    enough (task_holds usage (TaskCond field (boolean_text b)) = eqb b' b) as -> by exact Hd.
    unfold task_holds, usage_text. cbn [tk_field tk_value]. rewrite Hg. by destruct b, b'.
  - destruct v as [str_| | |]; try done. destruct (f_enum f) as [values|] eqn:Een; [|done].
    intros [= <- <-]. destruct (Hs Ht values eq_refl) as (text & Hg & Hin). rewrite Hg in Hd.
    specialize (Hd eq_refl).
    assert (task_holds usage (TaskCond field str_) = str_eqb text str_) as Hh.
    { unfold task_holds, usage_text. cbn [tk_field tk_value]. rewrite Hg.
      apply eq_true_iff_eq. rewrite bool_decide_eq_true, str_eqb_eq. naive_solver. }
    rewrite Hh. split; [exact Hd|]. intros Hn. apply not_true_iff_false. rewrite str_eqb_eq.
    intros ->. apply not_true_iff_false in Hn. apply Hn. by apply one_of_In.
Qed.

Lemma taskConditions_decide node o :
  taskConditions schema includeBoolean node = Some o ->
  decides node (match o with
                | Unreachable => false
                | Conditions cs => forallb (task_holds usage) cs end).
Proof.
  unfold taskConditions. intros (l & Hl & [= <-])%bind_Some.
  assert (decides node (forallb (fun p : TaskCondition * bool => task_holds usage p.1) l)) as Hd.
  { apply (conjunction_decides rules context now headers (task_condition schema includeBoolean));
      [|done]. intros part [c r] Hp. by apply task_condition_decides in Hp as [Hp _]. }
  assert (Forall (fun p : TaskCondition * bool => p.2 = false -> task_holds usage p.1 = false) l) as Hall.
  { apply map_option_Some in Hl. clear Hd. induction Hl as [|part [c r] parts l Hp _ IH]; [constructor|].
    constructor; [|done]. by apply task_condition_decides in Hp as [_ Hp]. }
  clear Hl. destruct (forallb snd l) eqn:Er.
  - by rewrite forallb_map.
  - enough (forallb (fun p : TaskCondition * bool => task_holds usage p.1) l = false) as E by by rewrite E in Hd.
    clear Hd. induction Hall as [|[c r] l Hp _ IH]; [done|]. cbn in *.
    apply andb_false_iff in Er as [->|Er]; [by rewrite Hp|]. rewrite IH by done. apply andb_false_r.
Qed.

(** *** The amounts of a row *)

(** A term of a task price: a constant, or a price per unit of a usage field. *)
Definition task_entry : Type := number + str * number.
Definition constants (entries : list task_entry) : list number :=
  flat_map (fun e => match e with inl c => [c] | inr _ => [] end) entries.
Definition unit_prices (entries : list task_entry) : list (str * number) :=
  flat_map (fun e => match e with inl _ => [] | inr p => [p] end) entries.

Definition read_entry (term : ExpressionNode) : option task_entry :=
  match nonnegativePriceLiteral term with
  | Some literal => Some (inl literal)
  | None =>
      '(inner, scaled) ← unscaled term;
      p ← unit_price schema inner scaled;
      Some (inr p)
  end.

(** The usage times the price, per million for fields that count tokens. *)
Definition unit_amount (field : str) (price x : number) : Prop :=
  exists q p definition, assoc_get field usage = Some (VNumber q) /\ stands_for p price /\
    assoc_get field schema = Some definition /\
    if bool_decide (f_unit definition = Some U_token)
    then exists d, num_eqb d million = true /\ x = num_div (num_mul q p) d
    else x = num_mul q p.
Definition entry_amount (entry : task_entry) (x : number) : Prop :=
  match entry with
  | inl constant => stands_for x constant
  | inr (field, price) => unit_amount field price x
  end.

(** The cost of a row: its constant, if it has one, and its unit prices. *)
Definition task_cost (t : TaskTier) (x : number) : Prop :=
  exists entries, sum_of entry_amount entries x /\
    unit_prices entries = task_unitPrices t /\
    (constants entries = [task_constant t] \/ constants entries = [] /\ task_constant t = zero).

Lemma usage_counts field i s1 e1 rest s e :
  counts (Call Fn_u (Literal (LString field) i s1 e1 :: rest) s e)
    (fun x => assoc_get field usage = Some (VNumber x)).
Proof.
  intros st. eapply wp_mono; [apply eval_usage|]. intros w s' [Hw Hm]. split; [done|].
  rewrite Hw. intros x. destruct (assoc_get field usage); cbn; [by intros ->|done].
Qed.

Lemma unit_price_counts term scaled field price :
  unit_price schema term scaled = Some (field, price) ->
  exists definition, assoc_get field schema = Some definition /\
    bool_decide (f_unit definition = Some U_token) = scaled /\
    counts term (fun x => exists q p, assoc_get field usage = Some (VNumber q) /\
      stands_for p price /\ x = num_mul q p).
Proof.
  destruct term as [| | | |o l r s e|]; try done. destruct o; try done.
  destruct l as [| |f args s2 e2| | |]; try done. destruct f; try done.
  destruct args as [|[[name| | |] i s1 e1| | | | |] rest]; try done. cbn [unit_price].
  intros (x & Hx & Hr)%bind_Some. apply bind_Some in Hr as (d & Hd & Hr).
  destruct (f_type d) as [[]|]; try done. destruct (f_unit d) as [w|] eqn:Eu; [|done].
  destruct (eqb _ _) eqn:Eb; [|done]. injection Hr as <- <-. apply eqb_prop in Eb.
  exists d. split; [done|]. split.
  - rewrite Eu, <- Eb. apply bool_decide_ext. split; [by intros [= ->]|by intros ->].
  - apply price_literal_counts with (rules := rules) (context := context) (now := now)
      (headers := headers) in Hx.
    eapply counts_mono; [eapply (counts_binary rules context now headers Op_mul num_mul);
      [done|apply usage_counts|exact Hx]|].
    intros z (q & y & Hq & Hy & ->). eauto.
Qed.

Lemma entry_counts term entry : read_entry term = Some entry -> counts term (entry_amount entry).
Proof.
  unfold read_entry. destruct (nonnegativePriceLiteral term) as [c|] eqn:El.
  { intros [= <-]. by apply price_literal_counts. }
  intros ([inner scaled] & Hu & Hr)%bind_Some. apply bind_Some in Hr as ([field price] & Hp & [= <-]).
  apply unit_price_counts in Hp as (d & Hd & Hs & Hp).
  assert (inner = term /\ scaled = false \/ exists y i s1 e1 s e,
    scaled = true /\ num_eqb y million = true /\
    term = Binary Op_div inner (Literal (LNumber y) i s1 e1) s e) as Hcase.
  { destruct term as [| | | |o l r s e|]; try (injection Hu as <- <-; by left).
    destruct o; try (injection Hu as <- <-; by left). cbn [unscaled] in Hu.
    destruct r as [[|y| |] i s1 e1| | | | |]; try discriminate Hu.
    destruct (num_eqb y million) eqn:Ey; [|done]. injection Hu as <- <-. right. eauto 10. }
  destruct Hcase as [[-> ->]|(y & i & s1 & e1 & s & e & -> & Hy & ->)].
  - eapply counts_mono; [exact Hp|]. intros x (q & p & Hq & Hpp & ->). exists q, p, d.
    by rewrite Hs.
  - eapply counts_mono; [eapply (counts_binary rules context now headers Op_div num_div);
      [done|exact Hp|apply counts_literal]|].
    intros z (x & w & (q & p & Hq & Hpp & ->) & -> & ->). exists q, p, d. rewrite Hs. eauto 10.
Qed.

Lemma task_terms_entries terms : forall constant prices c ps,
  task_terms schema terms constant prices = Some (c, ps) ->
  exists entries, map_option read_entry terms = Some entries /\
    ps = prices ++ unit_prices entries /\
    (option_list constant ++ constants entries = [c] \/
     option_list constant ++ constants entries = [] /\ c = zero).
Proof.
  induction terms as [|term terms IH]; intros constant prices c ps; cbn [task_terms].
  { intros [= <- <-]. exists []. rewrite !app_nil_r. split; [done|]. split; [done|].
    destruct constant; [by left|by right]. }
  destruct (nonnegativePriceLiteral term) as [x|] eqn:El.
  - destruct constant; [done|]. intros (es & Hes & -> & Hc)%IH. exists (inl x :: es).
    cbn [map_option]. rewrite Hes. unfold read_entry. rewrite El. split; [done|].
    cbn in *. split; [done|]. left. by destruct Hc as [Hc|[Hc _]].
  - intros ([inner scaled] & Hu & Hr)%bind_Some. apply bind_Some in Hr as ([field p] & Hp & Hr).
    destruct (assoc_has field prices) eqn:Ea; [done|]. apply IH in Hr as (es & Hes & -> & Hc).
    exists (inr (field, p) :: es). cbn [map_option]. rewrite Hes. unfold read_entry.
    rewrite El, Hu. cbn [mbind option_bind]. rewrite Hp. split; [done|]. cbn. split; [|done].
    unfold assoc_has in Ea. destruct (assoc_get field prices) eqn:Eg; [done|].
    apply assoc_get_None in Eg. rewrite assoc_set_fst_fresh by done. by rewrite <- app_assoc.
Qed.

Definition charges_task (node : ExpressionNode) (Q : TaskTier -> Prop) : Prop :=
  partially node (fun m v m' => exists t, Q t /\
    (exists x, rv_value v = VNumber x /\ task_cost t x) /\ m' = (task_label t, m.1.2, m.2)).

Lemma taskTier_charges node cs t :
  taskTier schema node cs = Some t -> task_conditions t = cs /\ charges_task node (eq t).
Proof.
  destruct node as [| |f args s e| | |]; try done. destruct f; try done.
  destruct args as [|[[label| | |] i s1 e1| | | | |] [|body rest]]; try done. cbn [taskTier].
  intros ([constant prices] & Hterms & Ht)%bind_Some.
  assert (t = {| task_conditionText := None; task_label := label; task_conditions := cs;
                 task_constant := constant; task_unitPrices := prices |}) as -> by by destruct prices; [|injection Ht as <-].
  clear Ht. split; [done|]. intros st.
  apply (evaluate_partial rules context now headers (Call Fn_tier _ s e)
    (fun m v m' => exists t, _ = t /\
       (exists x, rv_value v = VNumber x /\ task_cost t x) /\ m' = (task_label t, m.1.2, m.2))).
  clear st. intros st.
  cbn [evaluateNode call]. unfold string_. apply wp_bind, wp_bind.
  eapply wp_mono; [apply eval_literal|]. intros w s2 [-> Hm1]. cbn [rv_value literal_value].
  apply wp_ret, wp_bind. apply task_terms_entries in Hterms as (es & Hes & Hps & Hc).
  eapply wp_mono; [eapply counts_numeric, flatten_counts; [apply entry_counts|exact Hes]|].
  intros v s3 [Hm2 Hv]. apply wp_bind, wp_modify, wp_ret. eexists. split; [done|]. split.
  - exists v.1. split; [done|]. exists es. by rewrite Hps.
  - cbn [task_label]. rewrite <- Hm1, <- Hm2. done.
Qed.

(** The first row whose conditions hold is the row charged. *)
Lemma task_chain_charges node : forall tiers,
  readTaskTierChain schema includeBoolean node = Some tiers ->
  charges_task node (fun t => List.find (task_applies usage) tiers = Some t).
Proof.
  induction node as [node IH] using node_children_ind. intros tiers Ht.
  assert (forall t, taskTier schema node [] = Some t -> tiers = [t] ->
    charges_task node (fun t => List.find (task_applies usage) tiers = Some t)) as Hlast.
  { intros t Hf ->. apply taskTier_charges in Hf as [Hc Hf].
    eapply partially_mono; [exact Hf|]. intros m v m' (t' & <- & Hx & Hm). exists t. split; [|done].
    cbn. unfold task_applies. by rewrite Hc. }
  destruct node as [| | | | |c y m s e];
    try (cbn [readTaskTierChain] in Ht; apply bind_Some in Ht as (fb & Hfb & [= <-]); by eapply Hlast).
  clear Hlast. cbn [readTaskTierChain] in Ht. apply bind_Some in Ht as (o & Ho & Ht).
  apply taskConditions_decide in Ho.
  cbn [children] in IH. rewrite !Forall_cons_iff in IH. destruct IH as (_ & _ & IHm & _).
  intros st. apply (evaluate_partial rules context now headers (Conditional c y m s e)
    (fun m0 v m' => exists t, List.find (task_applies usage) tiers = Some t /\
       (exists x, rv_value v = VNumber x /\ task_cost t x) /\ m' = (task_label t, m0.1.2, m0.2))).
  clear st. intros st.
  cbn [evaluateNode]. apply wp_bind. eapply wp_mono; [by apply decides_boolean|].
  intros b s1 [-> Hm1]. destruct o as [|cs].
  - specialize (IHm _ Ht). eapply wp_mono; [apply IHm|]. cbn beta. by rewrite Hm1.
  - apply bind_Some in Ht as (t & Hty & Ht). apply bind_Some in Ht as (ts & Hts & [= <-]).
    apply taskTier_charges in Hty as [Hc Hty]. specialize (IHm _ Hts).
    cbn [List.find]. change (task_applies usage t) with (forallb (task_holds usage) (task_conditions t)). rewrite Hc. destruct (forallb (task_holds usage) cs).
    + apply wp_bind. eapply wp_mono; [apply keeps_match_rule|]. intros [] s2 Hm2. cbn beta in Hm2.
      eapply wp_mono; [apply Hty|]. intros v s3 (t' & <- & Hx & Hm3). exists t. by rewrite Hm3, Hm2, Hm1.
    + eapply wp_mono; [apply IHm|]. cbn beta. by rewrite Hm1.
Qed.
End chain.

Lemma task_rows_charge `{Host} clock compiled context schema includeBoolean usage tiers r :
  readTaskTierChain schema includeBoolean (ce_ast compiled) = Some tiers ->
  ctx_usage context = Some usage -> conforms schema usage ->
  evaluateCompiled clock compiled context = inl r ->
  exists t, List.find (task_applies usage) tiers = Some t /\
    task_cost schema usage t (be_cost r) /\
    be_matchedTier r = task_label t /\ be_billingUnit r = Unit_token /\ be_fixedPrice r = None.
Proof.
  intros Ht Hu Hc (hs & v & s & Hv & Hcost & Hm)%evaluateCompiled_inv.
  pose proof (task_chain_charges (ce_requestRules compiled) context (now_of clock context) hs
    schema includeBoolean usage Hu Hc _ _ Ht (initial_state (ce_requestRules compiled))) as Hw.
  unfold wp in Hw. rewrite Hv, Hm in Hw. destruct Hw as (t & Hf & (x & Hx & Hp) & [= -> -> ->]).
  rewrite Hcost in Hx. injection Hx as <-. by exists t.
Qed.

(** C28: the rows of a task expression, in order, are the rows it charges by: a
    successful evaluation on a usage that conforms to the schema matched the
    tier of the first row whose conditions hold, branches on enum values that
    the schema does not declare left out, and the cost is the constant of the row
    and its unit prices times the usage, per million for fields that count
    tokens. *)
Theorem task_rows_hold_the_charge `{Host} clock compiled context schema includeBoolean usage tiers r :
  readTaskTierChain schema includeBoolean (ce_ast compiled) = Some tiers ->
  ctx_usage context = Some usage -> conforms schema usage ->
  evaluateCompiled clock compiled context = inl r ->
  exists t, List.find (task_applies usage) tiers = Some t /\
    task_cost schema usage t (be_cost r) /\
    be_matchedTier r = task_label t /\ be_billingUnit r = Unit_token /\ be_fixedPrice r = None.
Proof. apply task_rows_charge. Qed.

(** A field without texts. *)
Definition plain_field (type : option UsageFieldType) (unit_ : option BillingUsageUnit)
    (values : option (list str)) : BillingUsageFieldSchema :=
  {| f_type := type; f_unit := unit_; f_unitLabel := None; f_enum := values; f_enumLabels := None;
     f_description := None |}.

Definition video_schema : BillingUsageSchema :=
  [(u "quality", plain_field None None (Some [u "720p"; u "1080p"]));
   (u "seconds", plain_field (Some F_number) (Some U_second) None)].
Definition video_source : str :=
  u "u('quality') == '480p' ? tier('old', u('seconds') * 9) : u('quality') == '720p' ? tier('low', u('seconds') * 0.1) : tier('high', u('seconds') * 0.3 + 1)".
Definition video_usage : list (str * value) :=
  [(u "quality", VString (u "1080p")); (u "seconds", VNumber (of_Z 5))].

Lemma video_conforms : conforms video_schema video_usage.
Proof.
  intros field f Hf%assoc_get_In. apply elem_of_cons in Hf as [[= -> ->]|Hf].
  - split; [done|]. intros _ values [= <-]. exists (u "1080p"). split; [by vm_compute|right; left].
  - apply list_elem_of_singleton in Hf as [= -> ->]. split; done.
Qed.

Lemma task_rows_hold_the_charge_witness : exists tiers r t,
  readTaskTierChain video_schema false (ce_ast (compiled_text video_source)) = Some tiers /\
  evaluateCompiled (H := two_zones) 0 (compiled_text video_source) (usage_context video_usage) = inl r /\
  length tiers = 2%nat /\ List.find (task_applies video_usage) tiers = Some t /\
  be_matchedTier r = task_label t /\ task_label t = u "high".
Proof.
  succeeds (readTaskTierChain video_schema false (ce_ast (compiled_text video_source))) tiers Et.
  succeeds (evaluateCompiled (H := two_zones) 0 (compiled_text video_source)
    (usage_context video_usage)) r Er.
  destruct (task_rows_hold_the_charge (H := two_zones) 0 (compiled_text video_source)
    (usage_context video_usage) video_schema false video_usage tiers r Et eq_refl) as (t & Hf & _ & Hl & _);
    [|exact Er|].
  { apply video_conforms. }
  exists tiers, r, t. split; [reflexivity|]. split; [reflexivity|].
  split; [|split; [exact Hf|split; [exact Hl|]]].
  - apply (f_equal (option_map length)) in Et. vm_compute in Et. by injection Et.
  - rewrite <- Hl. vm_compute in Er. by injection Er as <-.
Defined.

(** ** Combinations of enum values *)

Section matrix.
Context `{Collation}.

Lemma insert_by_key_perm {A} (e : str * A) l : Permutation (insert_by_key e l) (e :: l).
Proof.
  induction l as [|d l IH]; cbn; [done|]. case_match; [done|]. rewrite IH. apply perm_swap.
Qed.
Lemma sort_by_key_perm {A} (l : list (str * A)) : Permutation (sort_by_key l) l.
Proof. induction l as [|e l IH]; cbn; [done|]. by rewrite insert_by_key_perm, IH. Qed.

Lemma filter_keys_nodup {A} (f : str * A -> bool) l : NoDup l.*1 -> NoDup (List.filter f l).*1.
Proof.
  induction l as [|e l IH]; cbn; [done|]. intros [Hn Hl]%list.NoDup_cons. destruct (f e); cbn; [|auto].
  apply list.NoDup_cons. split; [|auto]. intros Hin. apply Hn.
  apply list_elem_of_fmap in Hin as (d & -> & Hd). apply list_elem_of_fmap. exists d. split; [done|].
  apply list_elem_of_In in Hd. apply filter_In in Hd as [Hd _]. by apply list_elem_of_In.
Qed.

Lemma enum_fields_nodup schema : NoDup schema.*1 -> NoDup (getTaskEnumFields schema).*1.
Proof.
  intros Hs. unfold getTaskEnumFields. rewrite sort_by_key_perm. by apply filter_keys_nodup.
Qed.

Lemma enum_fields_elem schema e :
  e ∈ getTaskEnumFields schema <-> e ∈ schema /\ is_enum_field e.2 = true.
Proof.
  unfold getTaskEnumFields. rewrite sort_by_key_perm, !list_elem_of_In. apply filter_In.
Qed.

(** A combination has, field by field, one of the declared values. *)
Definition one_value (e : str * BillingUsageFieldSchema) (kv : str * str) : Prop :=
  kv.1 = e.1 /\ kv.2 ∈ default [] (f_enum e.2).
Definition is_combination (fields : list (str * BillingUsageFieldSchema)) (c : list (str * str)) : Prop :=
  Forall2 one_value fields c.

Lemma combination_keys fields c : is_combination fields c -> c.*1 = fields.*1.
Proof. induction 1 as [|e kv fields c [Hk _] _ IH]; cbn; [done|by rewrite Hk, IH]. Qed.

Definition extend (combinations : list (list (str * str))) (e : str * BillingUsageFieldSchema) :=
  flat_map (fun combination =>
    map (fun v => assoc_set e.1 v combination) (default [] (f_enum e.2))) combinations.

Lemma extend_elem e combinations c :
  Forall (fun a : list (str * str) => e.1 ∉ a.*1) combinations ->
  c ∈ extend combinations e <-> exists a v, a ∈ combinations /\ v ∈ default [] (f_enum e.2) /\
    c = a ++ [(e.1, v)].
Proof.
  intros Hall. unfold extend. rewrite list_elem_of_In, in_flat_map.
  rewrite Forall_forall in Hall. split.
  - intros (a & Ha & Hc). apply in_map_iff in Hc as (v & <- & Hv). exists a, v.
    rewrite !list_elem_of_In. split_and!; [done..|]. apply assoc_set_fst_fresh, Hall, Ha.
  - intros (a & v & Ha & Hv & ->). apply list_elem_of_In in Ha, Hv. exists a. split; [done|].
    apply in_map_iff. exists v. split; [|done]. apply assoc_set_fst_fresh, Hall, Ha.
Qed.

Lemma combinations_fold fields : forall combinations,
  NoDup fields.*1 ->
  Forall (fun a : list (str * str) => forall k, k ∈ fields.*1 -> k ∉ a.*1) combinations ->
  forall c, c ∈ fold_left extend fields combinations <->
    exists a b, a ∈ combinations /\ is_combination fields b /\ c = a ++ b.
Proof.
  induction fields as [|e fields IH]; intros combinations Hn Hall c; cbn [fold_left].
  - split; [intros Hc; exists c, []; split_and!; [done|constructor|by rewrite app_nil_r]|].
    intros (a & b & Ha & Hb & ->). inversion Hb. by rewrite app_nil_r.
  - cbn in Hn. apply list.NoDup_cons in Hn as [Hne Hn].
    assert (Forall (fun a : list (str * str) => e.1 ∉ a.*1) combinations) as He.
    { eapply List.Forall_impl; [|exact Hall]. cbn. intros a Ha. apply Ha. left. }
    rewrite IH; [|done|].
    + setoid_rewrite (extend_elem e combinations _ He). split.
      * intros (a' & b & (a & v & Ha & Hv & ->) & Hb & ->). exists a, ((e.1, v) :: b).
        rewrite <- app_assoc. split_and!; [done| |done]. by constructor.
      * intros (a & b' & Ha & Hb & ->). inversion Hb as [|? [k v] ? b [Hk Hv] Hb']; subst.
        cbn in Hk, Hv. subst k. exists (a ++ [(e.1, v)]), b. rewrite <- app_assoc. split_and!; eauto 10.
    + apply Forall_forall. intros a' Ha' k Hk. apply list_elem_of_In in Ha'.
      apply (extend_elem e combinations a' He) in Ha' as (a & v & Ha & _ & ->).
      rewrite Forall_forall in Hall. apply list_elem_of_In in Ha.
      rewrite fmap_app, not_elem_of_app. split; [apply (Hall a Ha); cbn; by right|].
      cbn. rewrite list_elem_of_singleton. intros ->. done.
Qed.

Lemma combinations_spec schema c :
  NoDup schema.*1 ->
  c ∈ getTaskEnumCombinations schema <-> is_combination (getTaskEnumFields schema) c.
Proof.
  intros Hs. unfold getTaskEnumCombinations. fold extend.
  rewrite combinations_fold; [|by apply enum_fields_nodup|].
  - split; [intros (a & b & Ha & Hb & ->)|intros Hc; exists [], c; by split_and!; [left|..]].
    by apply list_elem_of_singleton in Ha as ->.
  - constructor; [|constructor]. intros k _. apply not_elem_of_nil.
Qed.

Lemma extend_length combinations e :
  length (extend combinations e) = (length combinations * length (default [] (f_enum e.2)))%nat.
Proof.
  unfold extend. induction combinations as [|a l IH]; cbn; [done|].
  by rewrite length_app, length_map, IH.
Qed.

Lemma combinations_length fields : forall combinations,
  length (fold_left extend fields combinations) =
    (length combinations * foldr Nat.mul 1 (map (fun e : str * BillingUsageFieldSchema =>
       length (default [] (f_enum e.2))) fields))%nat.
Proof.
  induction fields as [|e fields IH]; intros combinations; cbn; [lia|].
  rewrite IH, extend_length. lia.
Qed.

Lemma extend_nodup e combinations :
  Forall (fun a : list (str * str) => e.1 ∉ a.*1) combinations ->
  NoDup (default [] (f_enum e.2)) -> NoDup combinations -> NoDup (extend combinations e).
Proof.
  intros Hall Hv. induction combinations as [|a l IH]; intros Hn; cbn; [constructor|].
  apply Forall_cons_iff in Hall as [Ha Hall]. apply list.NoDup_cons in Hn as [Hna Hn].
  apply list.NoDup_app. split_and!; [|  |by apply IH].
  - apply (NoDup_fmap_2_strong (fun v => assoc_set e.1 v a)); [|done]. intros v w _ _.
    rewrite !assoc_set_fst_fresh by done. intros [_ [= <-]]%app_inj_2; done.
  - intros c Hc Hc'. apply (extend_elem e l c Hall) in Hc' as (a' & w & Ha' & _ & ->).
    apply list_elem_of_fmap in Hc as (v & Hc & _). rewrite assoc_set_fst_fresh in Hc by done.
    apply app_inj_2 in Hc as [-> _]; done.
Qed.

Lemma combinations_nodup_fold fields : forall combinations,
  NoDup fields.*1 -> Forall (fun e : str * BillingUsageFieldSchema => NoDup (default [] (f_enum e.2))) fields ->
  Forall (fun a : list (str * str) => forall k, k ∈ fields.*1 -> k ∉ a.*1) combinations ->
  NoDup combinations -> NoDup (fold_left extend fields combinations).
Proof.
  induction fields as [|e fields IH]; intros combinations Hn Hv Hall Hc; cbn [fold_left]; [done|].
  cbn in Hn. apply list.NoDup_cons in Hn as [Hne Hn]. apply Forall_cons_iff in Hv as [Hve Hv].
  assert (Forall (fun a : list (str * str) => e.1 ∉ a.*1) combinations) as He.
  { eapply List.Forall_impl; [|exact Hall]. cbn. intros a Ha. apply Ha. left. }
  apply IH; [done|done| |by apply extend_nodup].
  apply Forall_forall. intros a' Ha' k Hk. apply list_elem_of_In in Ha'.
  apply (extend_elem e combinations a' He) in Ha' as (a & v & Ha & _ & ->).
  rewrite Forall_forall in Hall. apply list_elem_of_In in Ha.
  rewrite fmap_app, not_elem_of_app. split; [apply (Hall a Ha); cbn; by right|].
  cbn. rewrite list_elem_of_singleton. intros ->. done.
Qed.

(** Field names and the values of each field are distinct. *)
Definition proper_schema (schema : BillingUsageSchema) : Prop :=
  NoDup schema.*1 /\
  Forall (fun e : str * BillingUsageFieldSchema => NoDup (default [] (f_enum e.2))) schema.

Lemma combinations_nodup schema : proper_schema schema -> NoDup (getTaskEnumCombinations schema).
Proof.
  intros [Hn Hv]. apply combinations_nodup_fold.
  - by apply enum_fields_nodup.
  - apply Forall_forall. intros e He%list_elem_of_In. apply enum_fields_elem in He as [He _].
    rewrite Forall_forall in Hv. by apply Hv, list_elem_of_In.
  - constructor; [|constructor]. intros k _. apply not_elem_of_nil.
  - apply list.NoDup_singleton.
Qed.

(** ** The matrix editor *)

(** The sample has the values of a combination. *)
Definition sample_has (s : list (str * value)) (c : list (str * str)) : Prop :=
  forall k v, (k, v) ∈ c -> assoc_get k s = Some (VString v).

Lemma row_conditions_hold s c :
  forallb (sample_is s) (map (fun e => TaskCond e.1 e.2) (sort_by_key c)) = true <-> sample_has s c.
Proof.
  rewrite forallb_map, forallb_forall. unfold sample_has, sample_is. cbn [tk_field tk_value].
  assert (forall e, In e (sort_by_key c) <-> e ∈ c) as Hin.
  { intros e. by rewrite <- list_elem_of_In, sort_by_key_perm. }
  setoid_rewrite Hin. split.
  - intros Hall k v Hkv. specialize (Hall _ Hkv). cbn in Hall.
    destruct (assoc_get k s) as [[]|]; try done. apply str_eqb_eq in Hall as ->. done.
  - intros Hall [k v] Hkv. cbn. rewrite (Hall k v Hkv). apply str_eqb_refl.
Qed.

Lemma same_combination fields s c c' :
  is_combination fields c -> is_combination fields c' -> sample_has s c -> sample_has s c' -> c = c'.
Proof.
  intros Hc. revert c'. induction Hc as [|e [k v] fields c [Hk _] Hc IH]; intros c' Hc' Hs Hs';
    inversion Hc' as [|? [k' v'] ? c'' [Hk' _] Hc'']; subst; [done|].
  cbn in Hk, Hk'. subst k k'.
  assert (v = v') as <-.
  { pose proof (Hs _ _ (list_elem_of_here _ _)) as E1. pose proof (Hs' _ _ (list_elem_of_here _ _)) as E2.
    congruence. }
  f_equal. apply IH; [done|..]; intros k w Hkw; [apply Hs|apply Hs']; by right.
Qed.

(** The price fields of a tier and of a row agree on the number fields. *)
Definition same_price (x y : number) : Prop := x = y \/ num_eqb x y = true.
Definition price_in (prices : list (str * number)) (field : str) : number :=
  default zero (assoc_get field prices).
Definition priced_as (fields : list (str * BillingUsageFieldSchema)) (tier : TaskVisualTier)
    (constant : number) (prices : list (str * number)) : Prop :=
  same_price (tv_constant tier) constant /\
  Forall (fun e => same_price (price_in (tv_unitPrices tier) e.1) (price_in prices e.1)) fields.

Lemma prices_of_get fields prices field :
  field ∈ fields.*1 -> assoc_get field (prices_of fields prices) = Some (price_in prices field).
Proof.
  induction fields as [|e fields IH]; cbn; [by intros ?%not_elem_of_nil|].
  intros Hf. case_decide as Hd; [by rewrite Hd|]. apply elem_of_cons in Hf as [->|Hf]; [done|].
  by apply IH.
Qed.

Lemma prices_of_same fields prices :
  Forall (fun e => same_price (price_in (prices_of fields prices) e.1) (price_in prices e.1)) fields.
Proof.
  apply Forall_forall. intros e He%list_elem_of_In. left. unfold price_in at 1.
  rewrite prices_of_get; [done|]. apply list_elem_of_fmap. eauto.
Qed.

Lemma matrix_tiers_select numberFields fields s rows row :
  Forall (fun r => is_combination fields (mr_combination r)) rows ->
  NoDup (map mr_combination rows) -> row ∈ rows -> sample_has s (mr_combination row) ->
  exists tier, select_tier (matrix_tiers numberFields rows) s = Some tier /\
    priced_as numberFields tier (mr_constant row) (mr_unitPrices row).
Proof.
  induction rows as [|r rows IH]; [by intros _ _ ?%not_elem_of_nil|].
  intros [Hr Hrows]%Forall_cons_iff [Hnr Hn]%list.NoDup_cons Hin Hs.
  assert (forall cs, priced_as numberFields
    {| tv_label := taskMatrixRowLabel (mr_combination r); tv_conditions := cs;
       tv_constant := mr_constant r; tv_unitPrices := prices_of numberFields (mr_unitPrices r) |}
    (mr_constant r) (mr_unitPrices r)) as Hsame.
  { intros cs. split; [by left|apply prices_of_same]. }
  cbn [matrix_tiers]. destruct rows as [|r' rows].
  { apply list_elem_of_singleton in Hin as ->. eexists. split; [reflexivity|]. apply Hsame. }
  cbn [matrix_tiers select_tier]. cbn [tv_conditions].
  destruct (forallb (sample_is s) _) eqn:Ef.
  - apply row_conditions_hold in Ef. eexists. split; [reflexivity|].
    apply elem_of_cons in Hin as [->|Hin]; [apply Hsame|].
    exfalso. apply Hnr. rewrite Forall_forall in Hrows. pose proof Hin as Hin'. apply list_elem_of_In in Hin'.
    rewrite (same_combination fields s _ _ Hr (Hrows _ Hin') Ef Hs).
    apply list_elem_of_In. exact (in_map mr_combination (r' :: rows) row Hin').
  - apply elem_of_cons in Hin as [->|Hin].
    { apply row_conditions_hold in Hs. congruence. }
    by apply IH.
Qed.

Lemma matrix_select fields s rows row schema :
  getTaskNumberFields schema <> [] ->
  Forall (fun r => is_combination fields (mr_combination r)) rows ->
  NoDup (map mr_combination rows) -> row ∈ rows -> sample_has s (mr_combination row) ->
  exists tier, select_tier (taskMatrixToTiers rows schema) s = Some tier /\
    priced_as (getTaskNumberFields schema) tier (mr_constant row) (mr_unitPrices row).
Proof.
  intros Hf Hrows Hn Hin Hs. unfold taskMatrixToTiers.
  destruct (getTaskNumberFields schema) as [|f fs]; [done|]. clear Hf. set (numbers := f :: fs).
  destruct rows as [|first rows]; [by apply not_elem_of_nil in Hin|].
  destruct (is_uniform numbers first (first :: rows)) eqn:Eu.
  - eexists. split; [reflexivity|]. unfold is_uniform in Eu. rewrite forallb_forall in Eu.
    apply list_elem_of_In in Hin. specialize (Eu _ Hin). apply andb_true_iff in Eu as [Ec Ep].
    split; cbn [tv_constant tv_unitPrices].
    + right. rewrite num_eqb_sym. done.
    + apply Forall_forall. intros e He. rewrite forallb_forall in Ep. specialize (Ep e He).
      unfold price_in at 1. rewrite prices_of_get by (apply list_elem_of_In in He; apply list_elem_of_fmap; eauto).
      unfold price_in, same_number in *. cbn [default].
      destruct (assoc_get e.1 (mr_unitPrices row)), (assoc_get e.1 (mr_unitPrices first)); try done; cbn.
      * right. by rewrite num_eqb_sym.
      * by left.
  - by eapply matrix_tiers_select.
Qed.

(** Conditions of rows are on declared values of enum fields. *)
Definition declared (schema : BillingUsageSchema) (c : TaskCondition) : Prop :=
  exists f values, assoc_get (tk_field c) schema = Some f /\ f_type f <> Some F_boolean /\
    f_enum f = Some values /\ tk_value c ∈ values.

Lemma task_condition_declared schema part c :
  task_condition schema false part = Some (c, true) -> declared schema c.
Proof.
  destruct part as [| | | |o l r s e|]; try done. destruct o; try done.
  destruct l as [| |f args s2 e2| | |]; try done. destruct f; try done.
  destruct args as [|[[field| | |] i s1 e1| | | | |] rest]; try done.
  destruct r as [v j s3 e3| | | | |]; try done. cbn [task_condition].
  destruct (assoc_get field schema) as [f|] eqn:Ef; cbn [mbind option_bind].
  2: { rewrite bool_decide_eq_false_2 by done. by destruct v. }
  case_bool_decide as Ht; [by destruct v|]. destruct v as [str_| | |]; try done.
  destruct (f_enum f) as [values|] eqn:Een; [|done].
  destruct (one_of values str_) eqn:Eo; [|done]. intros [= <-]. apply one_of_In in Eo.
  by exists f, values.
Qed.

Lemma taskConditions_declared schema node cs :
  taskConditions schema false node = Some (Conditions cs) -> Forall (declared schema) cs.
Proof.
  unfold taskConditions. intros (l & Hl & Ho)%bind_Some.
  destruct (forallb snd l) eqn:Er; [|done]. injection Ho as <-.
  apply map_option_Some in Hl. revert Er. induction Hl as [|part [c r] parts l Hp _ IH]; [constructor|].
  cbn. intros [-> Er]%andb_true_iff. constructor; [|by apply IH]. by eapply task_condition_declared.
Qed.

Lemma task_terms_fields schema terms : forall constant prices r,
  Forall (fun p : str * number => exists f, assoc_get p.1 schema = Some f /\ is_number_field f = true) prices ->
  task_terms schema terms constant prices = Some r ->
  Forall (fun p : str * number => exists f, assoc_get p.1 schema = Some f /\ is_number_field f = true) r.2.
Proof.
  induction terms as [|term terms IH]; intros constant prices r Hp; cbn [task_terms]; [by intros [= <-]|].
  destruct (nonnegativePriceLiteral term) as [x|].
  - destruct constant; [done|]. by apply IH.
  - intros ([inner scaled] & _ & Hr)%bind_Some. apply bind_Some in Hr as ([field p] & Hu & Hr).
    destruct (assoc_has field prices) eqn:Eh; [done|]. eapply IH, Hr.
    rewrite assoc_set_fst_fresh.
    + apply Forall_app. split; [done|]. constructor; [|constructor]. cbn [fst].
      destruct inner as [| | | |o l q s e|]; try done. destruct o; try done.
      destruct l as [| |f args s2 e2| | |]; try done. destruct f; try done.
      destruct args as [|[[field'| | |] i s1 e1| | | | |] rest]; try done. cbn [unit_price] in Hu.
      apply bind_Some in Hu as (y & _ & Hu). apply bind_Some in Hu as (f & Hf & Hu).
      destruct (f_type f) as [[]|] eqn:Et; try done. destruct (f_unit f) as [unit_|] eqn:Eu; [|done].
      destruct (eqb _ _); [|done]. injection Hu as <- <-. exists f. split; [done|].
      unfold is_number_field. by rewrite Et, Eu.
    + unfold assoc_has in Eh. destruct (assoc_get field prices) eqn:Eg; [done|].
      by apply assoc_get_None.
Qed.

Lemma taskTier_fields schema node cs t :
  taskTier schema node cs = Some t -> task_conditions t = cs /\ getTaskNumberFields schema <> [].
Proof.
  destruct node as [| |f args s e| | |]; try done. destruct f; try done.
  destruct args as [|[[label| | |] i s1 e1| | | | |] [|body rest]]; try done. cbn [taskTier].
  intros ([constant prices] & Hterms & Ht)%bind_Some.
  apply task_terms_fields in Hterms; [|constructor]. cbn [snd] in Hterms.
  destruct prices as [|[field p] prices]; [done|]. injection Ht as <-. split; [done|].
  apply Forall_cons_iff in Hterms as [(f & Hf & Hn) _]. cbn [fst] in Hf.
  intros Hnil. assert ((field, f) ∈ getTaskNumberFields schema) as Hin.
  { unfold getTaskNumberFields. rewrite sort_by_key_perm, list_elem_of_In. apply filter_In.
    split; [|done]. by apply list_elem_of_In, assoc_get_In. }
  rewrite Hnil in Hin. by apply not_elem_of_nil in Hin.
Qed.

Lemma chain_declared schema node : forall tiers,
  readTaskTierChain schema false node = Some tiers ->
  Forall (fun t => Forall (declared schema) (task_conditions t)) tiers /\
  getTaskNumberFields schema <> [].
Proof.
  induction node as [node IH] using node_children_ind. intros tiers Ht.
  destruct node as [| | | | |c y m s e];
    try (cbn [readTaskTierChain] in Ht; apply bind_Some in Ht as (t & Hf & [= <-]);
         apply taskTier_fields in Hf as [Hc Hf]; split; [|done];
         constructor; [by rewrite Hc|constructor]).
  cbn [readTaskTierChain] in Ht. apply bind_Some in Ht as (o & Ho & Ht).
  cbn [children] in IH. rewrite !Forall_cons_iff in IH. destruct IH as (_ & _ & IHm & _).
  destruct o as [|cs]; [by apply IHm|].
  apply bind_Some in Ht as (t & Hty & Ht). apply bind_Some in Ht as (ts & Hts & [= <-]).
  apply taskTier_fields in Hty as [Hc Hn]. split; [|done].
  constructor; [|by apply IHm]. rewrite Hc. by eapply taskConditions_declared.
Qed.

(** For a conforming sample, a row covers its combination when its conditions hold. *)
Lemma covers_applies schema s c t :
  conforms schema s -> is_combination (getTaskEnumFields schema) c -> sample_has s c ->
  Forall (declared schema) (task_conditions t) ->
  covers c (task_conditions t) = task_applies s t.
Proof.
  intros Hconf Hc Hs Hd. unfold covers, task_applies.
  induction Hd as [|k ks (f & values & Hf & Hb & He & Hv) _ IH]; [done|].
  cbn [forallb]. rewrite IH. f_equal. clear IH.
  destruct (Hconf _ _ Hf) as [_ Hen]. destruct (Hen Hb values He) as (text & Ht & Hin).
  assert (tk_field k ∈ c.*1) as Hk.
  { rewrite (combination_keys _ _ Hc). apply list_elem_of_fmap. exists (tk_field k, f).
    split; [done|]. apply enum_fields_elem. split; [by apply assoc_get_In|].
    unfold is_enum_field. cbn [snd]. rewrite He. destruct values; [by apply not_elem_of_nil in Hin|done]. }
  destruct (assoc_get (tk_field k) c) as [v|] eqn:Eg.
  2: { apply assoc_get_None in Eg. done. }
  apply assoc_get_In, Hs in Eg as Hv'. rewrite Ht in Hv'. injection Hv' as ->.
  unfold task_holds, usage_text. by rewrite Ht.
Qed.

Lemma find_ext {A} (f g : A -> bool) l :
  Forall (fun x => f x = g x) l -> List.find f l = List.find g l.
Proof. induction 1 as [|x l Hx _ IH]; cbn; [done|]. by rewrite Hx, IH. Qed.

Lemma find_last {A} (f : A -> bool) l x : list.last l = Some x -> f x = true -> exists y, List.find f l = Some y.
Proof.
  induction l as [|a l IH]; [done|]. cbn [list.last List.find]. intros Hl Hx.
  destruct (f a) eqn:Ea; [eauto|]. destruct l as [|b l]; [by injection Hl as ->; congruence|]. auto.
Qed.

Lemma matrix_rows expression schema tiers rows :
  parseTaskTiersFromExpr expression schema false = Ok tiers ->
  tryParseTaskMatrixConfig expression schema = Ok (Some rows) ->
  exists fallback, list.last tiers = Some fallback /\ task_conditions fallback = [] /\
    rows = map (matrix_row (getTaskNumberFields schema) tiers fallback) (getTaskEnumCombinations schema).
Proof.
  intros Ht. unfold tryParseTaskMatrixConfig. destruct (negb (nonempty expression)); [done|].
  rewrite Ht. cbn [mbind result_bind]. intros [= Hr].
  destruct (list.last tiers) as [fb|]; [|done]. exists fb. split; [done|].
  destruct (task_conditions fb) eqn:Ec; [|done]. split; [done|].
  destruct (negb _); [done|]. by injection Hr as <-.
Qed.

Lemma parse_tiers_chain expression schema tiers :
  parseTaskTiersFromExpr expression schema false = Ok tiers -> tiers <> [] ->
  exists node, readTaskTierChain schema false node = Some tiers.
Proof.
  unfold parseTaskTiersFromExpr. intros Ht Hne.
  destruct (_ || _); [by injection Ht as <-|].
  apply result_bind_ok in Ht as ([billingExpr rules] & _ & [= <-]).
  destruct (compile billingExpr) as [c|]; [|done].
  destruct (readTaskTierChain schema false (ce_ast c)) as [l|] eqn:El; [by exists (ce_ast c)|done].
Qed.
End matrix.

(** C8: reading a task expression into the matrix editor and printing the matrix
    back keeps what every combination of enum values is charged: for a usage
    that conforms to the schema and has the values of a row, the tier selected
    among the printed ones has the constant and the unit prices of the first
    row of the expression whose conditions hold. *)
Theorem matrix_keeps_the_charge `{Collation} expression schema tiers rows row s :
  proper_schema schema ->
  parseTaskTiersFromExpr expression schema false = Ok tiers ->
  tryParseTaskMatrixConfig expression schema = Ok (Some rows) ->
  row ∈ rows -> conforms schema s -> sample_has s (mr_combination row) ->
  exists t tier, List.find (task_applies s) tiers = Some t /\
    select_tier (taskMatrixToTiers rows schema) s = Some tier /\
    priced_as (getTaskNumberFields schema) tier (task_constant t) (task_unitPrices t).
Proof.
  intros Hp Ht Hm Hin Hc Hs.
  destruct (matrix_rows _ _ _ _ Ht Hm) as (fallback & Hlast & Hfb & ->).
  destruct (parse_tiers_chain _ _ _ Ht) as [node Hnode]; [by intros ->|].
  destruct (chain_declared _ _ _ Hnode) as [Hd Hn].
  assert (forall c, c ∈ getTaskEnumCombinations schema <-> is_combination (getTaskEnumFields schema) c)
    as Hcomb by (intros c; apply combinations_spec, Hp).
  apply list_elem_of_fmap in Hin as (c & -> & Hcin). cbn [mr_combination matrix_row] in Hs.
  assert (List.find (fun t => covers c (task_conditions t)) tiers = List.find (task_applies s) tiers) as Hfind.
  { apply find_ext. eapply List.Forall_impl; [|exact Hd]. cbn. intros t Hd'.
    eapply covers_applies; try done. by apply Hcomb. }
  destruct (find_last (task_applies s) tiers fallback Hlast) as [t Hft].
  { unfold task_applies. by rewrite Hfb. }
  rewrite Hft in Hfind. exists t.
  destruct (matrix_select (getTaskEnumFields schema) s
    (map (matrix_row (getTaskNumberFields schema) tiers fallback) (getTaskEnumCombinations schema))
    (matrix_row (getTaskNumberFields schema) tiers fallback c) schema) as (tier & Hsel & Hpr).
  - done.
  - apply Forall_forall. intros r Hr%list_elem_of_In. apply list_elem_of_fmap in Hr as (c' & -> & Hc').
    by apply Hcomb.
  - rewrite map_map. cbn [mr_combination matrix_row]. rewrite map_id. by apply combinations_nodup.
  - apply list_elem_of_fmap. eauto.
  - done.
  - exists tier. split; [done|]. split; [done|].
    cbn [matrix_row mr_constant mr_unitPrices] in Hpr. rewrite Hfind in Hpr. cbn [default] in Hpr.
    destruct Hpr as [Hp1 Hp2]. split; [done|]. rewrite Forall_forall in Hp2 |- *. intros e He.
    specialize (Hp2 e He). unfold price_in at 2 in Hp2.
    rewrite prices_of_get in Hp2 by (apply list_elem_of_In in He; apply list_elem_of_fmap; eauto).
    exact Hp2.
Qed.

(** Code unit order stands for the host's collation. *)
Definition plain_collation : Collation := str_leb.

Lemma matrix_keeps_the_charge_witness : exists tiers rows row t tier,
  parseTaskTiersFromExpr video_source video_schema false = Ok tiers /\
  tryParseTaskMatrixConfig (H := plain_collation) video_source video_schema = Ok (Some rows) /\
  row ∈ rows /\ mr_combination row = [(u "quality", u "1080p")] /\
  List.find (task_applies video_usage) tiers = Some t /\
  select_tier (taskMatrixToTiers (H := plain_collation) rows video_schema) video_usage = Some tier /\
  priced_as (getTaskNumberFields (H := plain_collation) video_schema) tier (task_constant t)
    (task_unitPrices t).
Proof.
  destruct (parseTaskTiersFromExpr video_source video_schema false) as [tiers|] eqn:Et; [|by vm_compute in Et].
  destruct (tryParseTaskMatrixConfig (H := plain_collation) video_source video_schema) as [[rows|]|] eqn:Em;
    [|by vm_compute in Em..].
  destruct (rows !! 1%nat) as [row|] eqn:Er;
    [|exfalso; vm_compute in Em; injection Em as <-; by vm_compute in Er].
  assert (mr_combination row = [(u "quality", u "1080p")]) as Hc.
  { vm_compute in Em. injection Em as <-. vm_compute in Er. injection Er as <-. by vm_compute. }
  destruct (matrix_keeps_the_charge (H := plain_collation) video_source video_schema tiers rows row
    video_usage) as (t & tier & H1 & H2 & H3); [|exact Et|exact Em|..].
  - split; [|apply List.Forall_cons; [|apply List.Forall_cons; [|apply List.Forall_nil]]];
      apply (bool_decide_unpack _); by vm_compute.
  - by eapply list_elem_of_lookup_2.
  - apply video_conforms.
  - rewrite Hc. intros k v Hkv. apply list_elem_of_singleton in Hkv as [= -> ->]. by vm_compute.
  - exists tiers, rows, row, t, tier. split_and!; try reflexivity; [by eapply list_elem_of_lookup_2|exact Hc|exact H1|exact H2|exact H3].
Defined.

(** [getTaskEnumCombinations] lists every choice of one declared value per
    enum field, each choice once, so that their number is the product of the
    numbers of values. *)
Theorem combinations_are_the_choices `{Collation} schema :
  proper_schema schema ->
  (forall c, c ∈ getTaskEnumCombinations schema <-> is_combination (getTaskEnumFields schema) c) /\
  NoDup (getTaskEnumCombinations schema) /\
  length (getTaskEnumCombinations schema) =
    foldr Nat.mul 1%nat (map (fun e => length (default [] (f_enum e.2))) (getTaskEnumFields schema)).
Proof.
  intros Hp. split; [intros c; apply combinations_spec, Hp|]. split; [by apply combinations_nodup|].
  unfold getTaskEnumCombinations. fold extend. rewrite combinations_length. cbn [length]. lia.
Qed.

Lemma combinations_are_the_choices_witness :
  length (getTaskEnumCombinations (H := plain_collation) video_schema) = 2%nat /\
  NoDup (getTaskEnumCombinations (H := plain_collation) video_schema).
Proof.
  destruct (@combinations_are_the_choices plain_collation video_schema) as (_ & Hn & Hl).
  - split; [|apply List.Forall_cons; [|apply List.Forall_cons; [|apply List.Forall_nil]]];
      apply (bool_decide_unpack _); by vm_compute.
  - split; [rewrite Hl; vm_compute; reflexivity|exact Hn].
Defined.
