(* ===== verification/TaskTable.v ===== *)
(** * Rows of the price table

    [features/pricing/lib/task-matrix-display.ts] and
    [features/pricing/lib/breakdown-tier-match.ts]: the rows a task price table
    shows, and the row a settlement hit.  [null] and [undefined] texts are empty
    texts; a missing schema is [None]. *)

From Stdlib Require Import String.
From S2P Require Import Prelude JsNumber JsString JsText Ast Parser Compile Request BillingTime Runtime.
From S2P Require Import Display TaskDisplay Regex Json BillingExpr TaskExpr.

(** ** [task-matrix-display.ts] *)

Definition matrix_display_row `{Collation} (row : TaskMatrixRow) : TaskTier :=
  {| task_conditionText := None;
     task_label := taskMatrixRowLabel (mr_combination row);
     task_conditions := map (fun e => TaskCond e.1 e.2) (sort_by_key (mr_combination row));
     task_constant := mr_constant row;
     task_unitPrices := mr_unitPrices row |}.

Definition getTaskMatrixDisplayTiers `{Collation} (expression : str)
    (schema : option BillingUsageSchema) : outcome (option (list TaskTier)) :=
  match schema with
  | None => Ok None
  | Some schema =>
      match getTaskEnumFields schema with
      | [] => Ok None
      | _ =>
          matrix ← tryParseTaskMatrixConfig expression schema;
          Ok (option_map (map matrix_display_row) matrix)
      end
  end.

(** [fields.sort()]: code unit order. *)
Fixpoint insert_text (s : str) (l : list str) : list str :=
  match l with
  | [] => [s]
  | t :: l => if str_leb s t then s :: t :: l else t :: insert_text s l
  end.
Definition sort_texts (l : list str) : list str := foldr insert_text [] l.

(** The values a condition on the field can ask for; [None] for none. *)
Definition field_values (schema : BillingUsageSchema) (field : str) : option (list str) :=
  definition ← assoc_get field schema;
  if bool_decide (f_type definition = Some F_boolean) then Some [u "false"; u "true"]
  else f_enum definition.

(** One turn of the loop over the fields; [None] returns the tiers as they are. *)
Definition extend_conditions (schema : BillingUsageSchema)
    (combinations : list (list TaskCondition)) (field : str) : option (list (list TaskCondition)) :=
  values ← field_values schema field;
  if match values with [] => true | _ => false end
     || (256 <? length combinations * length values)%nat then None
  else Some (flat_map (fun combination =>
               map (fun v => combination ++ [TaskCond field v]) values) combinations).

Definition same_condition (a b : TaskCondition) : bool :=
  str_eqb (tk_field a) (tk_field b) && str_eqb (tk_value a) (tk_value b).

(** Every condition of the tier is one of the combination's. *)
Definition tier_covers (combination : list TaskCondition) (tier : TaskTier) : bool :=
  forallb (fun condition => existsb (fun v => same_condition v condition) combination)
    (task_conditions tier).

Definition with_conditions (conditions : list TaskCondition) (tier : TaskTier) : TaskTier :=
  {| task_conditionText := task_conditionText tier; task_label := task_label tier;
     task_conditions := conditions; task_constant := task_constant tier;
     task_unitPrices := task_unitPrices tier |}.

(** The fields the tiers have conditions on, each once, in order. *)
Definition condition_fields (tiers : list TaskTier) : list str :=
  sort_texts (fold_left (fun s x => set_add x s)
    (flat_map (fun tier => map tk_field (task_conditions tier)) tiers) []).

(** The rows when there are several tiers, the last one being [fallback]. *)
Definition explicit_fallback (schema : BillingUsageSchema) (tiers previous : list TaskTier)
    (fallback : TaskTier) : list TaskTier :=
  match fold_option (extend_conditions schema) [[]] (condition_fields previous) with
  | None => tiers
  | Some combinations =>
      match List.filter (fun combination => negb (existsb (tier_covers combination) previous))
              combinations with
      | [remaining] => previous ++ [with_conditions remaining fallback]
      | _ => tiers
      end
  end.

Definition getTaskPricingDisplayTiers (expression : str) (schema : option BillingUsageSchema)
  : outcome (list TaskTier) :=
  tiers ← parseTaskTiersFromExpr expression (default [] schema) true;
  match tiers, schema with
  | [], Some schema =>
      if nonempty expression then
        '(billingExpr, _) ← splitBillingExprAndRequestRules expression;
        rows ← readConditionalTaskPricing billingExpr schema;
        Ok (default [] rows)
      else Ok []
  | _, None => Ok tiers
  | _, Some schema =>
      match list.last tiers with
      | None => Ok tiers
      | Some fallback =>
          if (length tiers <? 2)%nat then Ok tiers
          else Ok (explicit_fallback schema tiers (removelast tiers) fallback)
      end
  end.

(** ** [breakdown-tier-match.ts] *)

#[export] Instance billing_unit_eq_dec : EqDecision BillingUnit.
Proof. solve_decision. Defined.

Inductive BreakdownMatchTier : Type :=
| TokenRow (tier : ParsedTier)
| TaskRow (tier : TaskTier).

Definition row_label (tier : BreakdownMatchTier) : str :=
  match tier with TokenRow t => pt_label t | TaskRow t => task_label t end.

(** [Record<string, string | number>] *)
Abbreviation UsageFacts := (list (str * value)).

Section breakdown.
Context `{Host}.

Definition tierMatchesNormalizedLabel (tier : BreakdownMatchTier) (normalized : str) : bool :=
  nonempty normalized && str_eqb (normalizeTierLabel (Some (row_label tier))) normalized.

Definition billing_unit_of (tier : ParsedTier) : BillingUnit := default Unit_token (pt_billingUnit tier).

(** [tier.fixedPrice !== fixedPrice] *)
Definition other_price (price : option number) (fixedPrice : number) : bool :=
  match price with Some x => negb (num_eqb x fixedPrice) | None => true end.

(** The first guard: the row is for another billing unit or fixed price. *)
Definition excluded (tier : BreakdownMatchTier) (billingUnit : option BillingUnit)
    (fixedPrice : option number) : bool :=
  match tier, billingUnit with
  | TokenRow t, Some unit_ =>
      negb (bool_decide (billing_unit_of t = unit_))
      || match unit_, fixedPrice with
         | Unit_request, Some price => other_price (pt_fixedPrice t) price
         | _, _ => false
         end
  | _, _ => false
  end.

(** [conditionText] is missing or empty. *)
Definition no_text (text : option str) : bool :=
  match text with Some text => negb (nonempty text) | None => true end.

(** [String(usageFacts?.[field]) === value] *)
Definition fact_is (facts : UsageFacts) (c : TaskCondition) : bool :=
  str_eqb (to_string (default VUndefined (assoc_get (tk_field c) facts))) (tk_value c).

Definition is_nil {A} (l : list A) : bool := match l with [] => true | _ => false end.

Definition isBreakdownTierMatched (tier : BreakdownMatchTier) (tiers : list BreakdownMatchTier)
    (matchedTierLabel : option str) (usageFacts : option UsageFacts)
    (billingUnit : option BillingUnit) (fixedPrice : option number) : bool :=
  if excluded tier billingUnit fixedPrice then false
  else
    let normalized := normalizeTierLabel matchedTierLabel in
    let same := List.filter (fun candidate => tierMatchesNormalizedLabel candidate normalized) tiers in
    if tierMatchesNormalizedLabel tier normalized then
      match tier with
      | TaskRow t =>
          if (1 <? length same)%nat then
            no_text (task_conditionText t)
            && match usageFacts with
               | Some facts => negb (is_nil (task_conditions t)) && forallb (fact_is facts) (task_conditions t)
               | None => false
               end
          else true
      | TokenRow _ => true
      end
    else if negb (is_nil same) then false
    else
      match usageFacts, tier with
      | Some facts, TaskRow t =>
          if is_nil (task_conditions t) || negb (no_text (task_conditionText t)) then false
          else forallb (fun c => assoc_has (tk_field c) facts && fact_is facts c) (task_conditions t)
      | _, _ => false
      end.
End breakdown.
