(* ===== verification/Currency.v ===== *)
(** * Currency texts

    [lib/currency.ts], with the configuration of [stores/system-config-store.ts].
    [Intl.NumberFormat] and [Math.pow] belong to the host: the class
    [NumberFormats].  The configuration the functions read from the store is an
    argument, [None] when the store has none; [null] and [undefined] amounts are
    [None]. *)

From Stdlib Require Import String.
From S2P Require Import Prelude JsNumber JsString JsText Ast Parser Compile Request.

(** ** Configuration *)

Inductive CurrencyDisplayType : Type := USD | CNY | TOKENS | CUSTOM.

Record CurrencyConfig : Type := {
  displayInCurrency : bool;
  quotaDisplayType : CurrencyDisplayType;
  quotaPerUnit : number;
  usdExchangeRate : number;
  customCurrencySymbol : str;
  customCurrencyExchangeRate : number;
}.

(** The symbol is U+00A4. *)
Definition DEFAULT_CURRENCY_CONFIG : CurrencyConfig :=
  {| displayInCurrency := true; quotaDisplayType := USD; quotaPerUnit := of_Z 500000;
     usdExchangeRate := one; customCurrencySymbol := [164%N]; customCurrencyExchangeRate := one |}.

Definition display_type_text (t : CurrencyDisplayType) : str :=
  match t with USD => u "USD" | CNY => u "CNY" | TOKENS => u "TOKENS" | CUSTOM => u "CUSTOM" end.
Definition DISPLAY_TYPE_VALUES : list CurrencyDisplayType := [USD; CNY; TOKENS; CUSTOM].

Definition isCurrencyDisplayType (v : value) : bool :=
  match v with VString s => one_of (map display_type_text DISPLAY_TYPE_VALUES) s | _ => false end.

Definition parseCurrencyDisplayType (v : value) (fallback : CurrencyDisplayType) : CurrencyDisplayType :=
  match v with
  | VString s => default fallback (find (fun t => str_eqb (display_type_text t) s) DISPLAY_TYPE_VALUES)
  | _ => fallback
  end.

(** [x && x > 0 ? x : other] *)
Definition positive_or (other x : number) : number := if num_gtb x zero then x else other.

Definition getConfig (stored : option CurrencyConfig) : CurrencyConfig :=
  let currency := default DEFAULT_CURRENCY_CONFIG stored in
  {| displayInCurrency := displayInCurrency currency;
     quotaDisplayType := quotaDisplayType currency;
     quotaPerUnit := positive_or (quotaPerUnit DEFAULT_CURRENCY_CONFIG) (quotaPerUnit currency);
     usdExchangeRate := positive_or (usdExchangeRate DEFAULT_CURRENCY_CONFIG) (usdExchangeRate currency);
     customCurrencyExchangeRate :=
       positive_or (customCurrencyExchangeRate DEFAULT_CURRENCY_CONFIG) (customCurrencyExchangeRate currency);
     customCurrencySymbol :=
       if nonempty (trim (customCurrencySymbol currency)) then trim (customCurrencySymbol currency)
       else customCurrencySymbol DEFAULT_CURRENCY_CONFIG |}.

Inductive DisplayMeta : Type :=
| Meta_currency (symbol currencyCode : str) (exchangeRate : number)
| Meta_custom (symbol : str) (exchangeRate : number)
| Meta_tokens (perUnit : number).

Definition dollars : DisplayMeta := Meta_currency (u "$") (u "USD") one.

(** The symbol of CNY is U+00A5. *)
Definition getDisplayMeta (config : CurrencyConfig) : DisplayMeta :=
  match quotaDisplayType config with
  | CNY => Meta_currency [165%N] (u "CNY") (usdExchangeRate config)
  | CUSTOM => Meta_custom (customCurrencySymbol config) (customCurrencyExchangeRate config)
  | TOKENS => Meta_tokens (quotaPerUnit config)
  | USD => dollars
  end.

Definition getBillingDisplayMeta (config : CurrencyConfig) : DisplayMeta :=
  match getDisplayMeta config with
  | Meta_tokens _ => dollars
  | meta => meta
  end.

(** ** Options *)

Record CurrencyFormatOptions : Type := {
  o_digitsLarge : option nat;
  o_digitsSmall : option nat;
  o_abbreviate : option bool;
  o_minimumNonZero : option number;
  o_compact : option bool;
  o_showSymbol : option bool;
  o_locale : option str;
}.

Record ResolvedCurrencyFormatOptions : Type := {
  digitsLarge : nat;
  digitsSmall : nat;
  abbreviate : bool;
  minimumNonZero : number;
  compact : bool;
  showSymbol : bool;
  locale : option str;
}.

Definition DEFAULT_FORMAT_OPTIONS : ResolvedCurrencyFormatOptions :=
  {| digitsLarge := 2; digitsSmall := 4; abbreviate := true; minimumNonZero := zero;
     compact := false; showSymbol := true; locale := None |}.

Definition mergeOptions (options : option CurrencyFormatOptions) : ResolvedCurrencyFormatOptions :=
  match options with
  | None => DEFAULT_FORMAT_OPTIONS
  | Some o =>
      {| digitsLarge := default (digitsLarge DEFAULT_FORMAT_OPTIONS) (o_digitsLarge o);
         digitsSmall := default (digitsSmall DEFAULT_FORMAT_OPTIONS) (o_digitsSmall o);
         abbreviate := default (abbreviate DEFAULT_FORMAT_OPTIONS) (o_abbreviate o);
         minimumNonZero := default (minimumNonZero DEFAULT_FORMAT_OPTIONS) (o_minimumNonZero o);
         compact := default (compact DEFAULT_FORMAT_OPTIONS) (o_compact o);
         showSymbol := default (showSymbol DEFAULT_FORMAT_OPTIONS) (o_showSymbol o);
         locale := match o_locale o with Some l => Some l | None => locale DEFAULT_FORMAT_OPTIONS end |}
  end.

(** The options of [Intl.NumberFormat]: the currency code, [None] for plain
    numbers; [minimumFractionDigits], when it is given. *)
Record IntlOptions : Type := {
  nf_locale : option str;
  nf_currency : option str;
  nf_compact : bool;
  nf_minimumFractionDigits : option nat;
  nf_maximumFractionDigits : nat;
}.

(** [new Intl.NumberFormat(...).format(x)] and [Math.pow(10, -digits)]. *)
Class NumberFormats : Type := {
  number_format : IntlOptions -> number -> str;
  power_of_ten : nat -> number;
}.

(** ** Plain numbers *)

(** The integer nearest to [m * 2^e * 10^digits]; of two, the larger. *)
Definition fixed_digits (m e : Z) (digits : nat) : Z :=
  (let n := m * 10 ^ Z.of_nat digits * 2 ^ pos e in
   let d := 2 ^ pos (- e) in
   (2 * n + d) / (2 * d))%Z.

(** [x.toFixed(digits)] *)
Definition to_fixed (x : number) (digits : nat) : str :=
  match x with
  | Finite neg m e =>
      if num_geb (num_abs x) (round_decimal false 1 21) then number_to_string x
      else
        let text := digits_of (fixed_digits m e digits) in
        let text := replicate (S digits - length text)%nat 48%N ++ text in
        let whole := take (length text - digits)%nat text in
        let fraction := drop (length text - digits)%nat text in
        (if num_ltb x zero then [minus_sign] else []) ++ whole
          ++ match digits with O => [] | _ => dot :: fraction end
  | _ => number_to_string x
  end.

Definition drop_zeros (s : str) : str := rev (drop_while (N.eqb 48) (rev s)).

(** The texts of numbers have at most one point. *)
Definition removeTrailingZeros (s : str) : str :=
  if negb (includes s [dot]) then s
  else
    let whole := take_while (fun c => negb (N.eqb c dot)) s in
    let fraction := tail (drop_while (fun c => negb (N.eqb c dot)) s) in
    let fraction := if forallb is_digit fraction then drop_zeros fraction else fraction in
    match fraction with [] => whole | _ => whole ++ dot :: fraction end.

Definition getFractionDigits (x : number) (large small : nat) : nat :=
  if num_geb (num_abs x) one then large else small.

Definition getCurrencyFractionDigits (x : number) (options : option CurrencyFormatOptions) : nat :=
  let merged := mergeOptions options in getFractionDigits x (digitsLarge merged) (digitsSmall merged).

Definition formatNumberWithSuffix (x : number) (large small : nat) (abbreviate_ : bool) : str :=
  if abbreviate_ && num_geb (num_abs x) (of_Z 1000) then
    removeTrailingZeros (to_fixed (num_div x (of_Z 1000)) 1) ++ u "k"
  else removeTrailingZeros (to_fixed x (getFractionDigits x large small)).

Section currency.
Context `{NumberFormats} (stored : option CurrencyConfig).

Definition adjustForMinimum (x : number) (digits : nat) (minimum : number) : number :=
  if num_eqb x zero then x
  else
    let threshold := if num_gtb minimum zero then minimum else power_of_ten digits in
    let abs := num_abs x in
    if num_gtb abs zero && num_ltb abs threshold then
      if num_gtb x zero then threshold else num_neg threshold
    else x.

Definition compact_tokens (o : ResolvedCurrencyFormatOptions) : IntlOptions :=
  {| nf_locale := locale o; nf_currency := None; nf_compact := true;
     nf_minimumFractionDigits := None; nf_maximumFractionDigits := 1 |}.
Definition amount_options (o : ResolvedCurrencyFormatOptions) (code : option str) (digits : nat)
  : IntlOptions :=
  {| nf_locale := locale o; nf_currency := code; nf_compact := compact o;
     nf_minimumFractionDigits := Some 0%nat;
     nf_maximumFractionDigits := if compact o then 1%nat else digits |}.

Definition formatCurrencyValue (x : number) (o : ResolvedCurrencyFormatOptions) (meta : DisplayMeta)
  : str :=
  let digits := getFractionDigits x (digitsLarge o) (digitsSmall o) in
  let adjustedValue := adjustForMinimum x digits (minimumNonZero o) in
  match meta with
  | Meta_tokens _ =>
      if compact o then number_format (compact_tokens o) x
      else formatNumberWithSuffix x (digitsLarge o) (digitsSmall o) (abbreviate o)
  | Meta_currency _ code _ =>
      if negb (showSymbol o) then number_format (amount_options o None digits) adjustedValue
      else number_format (amount_options o (Some code) digits) adjustedValue
  | Meta_custom symbol _ =>
      let decimal := number_format (amount_options o None digits) adjustedValue in
      if showSymbol o then symbol ++ u " " ++ decimal else decimal
  end.

Definition getCurrencyDisplay : CurrencyConfig * DisplayMeta :=
  let config := getConfig stored in (config, getDisplayMeta config).

(** [amount == null || Number.isNaN(amount)] *)
Definition given_amount (amount : option number) : option number :=
  match amount with Some NaN | None => None | Some x => Some x end.

Definition exchanged (x : number) (meta : DisplayMeta) : number :=
  match meta with
  | Meta_currency _ _ rate | Meta_custom _ rate => num_mul x rate
  | Meta_tokens _ => x
  end.

Definition formatCurrencyFromUSD (amountUSD : option number) (options : option CurrencyFormatOptions)
  : str :=
  match given_amount amountUSD with
  | None => u "-"
  | Some x =>
      let '(config, meta) := getCurrencyDisplay in
      let merged := mergeOptions options in
      match meta with
      | Meta_tokens _ =>
          let tokens := num_mul x (quotaPerUnit config) in
          if compact merged then number_format (compact_tokens merged) tokens
          else formatNumberWithSuffix tokens 0 (digitsSmall merged) (abbreviate merged)
      | _ => formatCurrencyValue (exchanged x meta) merged meta
      end
  end.

Definition formatBillingCurrencyFromUSD (amountUSD : option number)
    (options : option CurrencyFormatOptions) : str :=
  match given_amount amountUSD with
  | None => u "-"
  | Some x =>
      let '(config, _) := getCurrencyDisplay in
      let meta := getBillingDisplayMeta config in
      formatCurrencyValue (exchanged x meta) (mergeOptions options) meta
  end.

Definition formatQuotaWithCurrency (quota : option number) (options : option CurrencyFormatOptions)
  : str :=
  match given_amount quota with
  | None => u "-"
  | Some x =>
      let '(config, _) := getCurrencyDisplay in
      formatCurrencyFromUSD (Some (num_div x (quotaPerUnit config))) options
  end.

Definition getCurrencyLabel : str :=
  let '(config, meta) := getCurrencyDisplay in
  match meta with
  | Meta_tokens _ => u "Tokens"
  | _ =>
      match quotaDisplayType config with
      | CNY => u "CNY"
      | CUSTOM => match meta with Meta_custom symbol _ => symbol | _ => u "Custom" end
      | _ => u "USD"
      end
  end.

Definition isCurrencyDisplayEnabled : bool :=
  let '(_, meta) := getCurrencyDisplay in
  match meta with Meta_tokens _ => false | _ => true end.

Definition formatLocalCurrencyAmount (amount : option number) (options : option CurrencyFormatOptions)
  : str :=
  match given_amount amount with
  | None => u "-"
  | Some x =>
      let '(config, _) := getCurrencyDisplay in
      formatCurrencyValue x (mergeOptions options) (getBillingDisplayMeta config)
  end.
End currency.

(** The engine's [toFixed] on values whose binary form is not the decimal one. *)
Example to_fixed_rounds :
  map (fun t => to_fixed (to_number (u t)) 2) ["1.005"; "2.5"; "0.125"; "1e21"; "0"; "123.456"]%string =
  map u ["1.00"; "2.50"; "0.13"; "1e+21"; "0.00"; "123.46"]%string.
Proof. vm_compute. reflexivity. Qed.
Example trailing_zeros :
  map (fun t => removeTrailingZeros (u t)) ["1.50"; "2.00"; "300"; "0.010"; "1e+21"]%string =
  map u ["1.5"; "2"; "300"; "0.01"; "1e+21"]%string.
Proof. vm_compute. reflexivity. Qed.
