(* ===== verification/PricingModel.v ===== *)
(** * Models with prices

    [features/pricing/types.ts] and [constants.ts] (what the prices read of a
    model), [lib/model-helpers.ts], [lib/plugin-pricing.ts] and [lib/price.ts].
    Groups and ratios come from the server: a ratio is a JSON value. *)

From Stdlib Require Import String.
From S2P Require Import Prelude JsNumber JsString JsText Ast Parser Compile Request BillingTime Runtime.
From S2P Require Import Display Regex BillingExpr TierExpr TaskExpr Currency.

(** ** Data *)

Record BillingPluginVariant : Type := {
  pv_plugin_key : str;
  pv_billing_expr : str;
  pv_billing_mode : option str;
  pv_billing_usage_schema : BillingUsageSchema;
  pv_billing_usage_examples : option (list (str * list (str * value)));
}.

(** The fields of [PricingModel] that prices and the catalogue depend on;
    [model_description] is [description].  [enable_groups] is [None] when it is
    no array. *)
Record PricingModel : Type := {
  billing_plugin_variants : option (list BillingPluginVariant);
  model_name : str;
  model_description : option str;
  vendor_name : option str;
  quota_type : number;
  model_ratio : number;
  completion_ratio : number;
  model_price : option number;
  cache_ratio : option number;
  create_cache_ratio : option number;
  image_ratio : option number;
  audio_ratio : option number;
  audio_completion_ratio : option number;
  enable_groups : option (list str);
  tags : option str;
  supported_endpoint_types : option (list str);
  group_ratio : option (list (str * value));
  billing_mode : option str;
  billing_expr : option str;
  billing_usage_schema : option BillingUsageSchema;
  billing_usage_examples : option (list (str * list (str * value)));
}.

Inductive TokenUnit : Type := Per_M | Per_K.
Inductive PriceType : Type :=
| P_input | P_output | P_cache | P_create_cache | P_image | P_audio_input | P_audio_output.

Definition FILTER_ALL : str := u "all".
Definition EXCLUDED_GROUPS : list str := [[]; u "auto"].
Definition QUOTA_TOKEN : number := zero.
Definition QUOTA_REQUEST : number := one.
Definition TOKEN_UNIT_DIVISORS (t : TokenUnit) : number :=
  match t with Per_M => one | Per_K => of_Z 1000 end.

(** ** [model-helpers.ts] *)

Definition enabled_groups (model : PricingModel) : list str := default [] (enable_groups model).

Definition getAvailableGroups (model : PricingModel) (usableGroup : list (str * value)) : list str :=
  List.filter (fun g => one_of (enabled_groups model) g)
    (List.filter (fun g => negb (one_of EXCLUDED_GROUPS g)) (usableGroup.*1)).

(** [typeof ratio === 'number' && Number.isFinite(ratio)] *)
Definition finite_ratio (v : option value) : option number :=
  match v with Some (VNumber x) => if num_is_finite x then Some x else None | _ => None end.

Definition getConfiguredGroupRatio (groupRatio : list (str * value)) (group : str) : number :=
  default one (finite_ratio (assoc_get group groupRatio)).

(** The loop over the groups; [minRatio] starts at infinity. *)
Fixpoint min_ratio (groupRatio : list (str * value)) (groups : list str) (minRatio : number) : number :=
  match groups with
  | [] => minRatio
  | group :: groups =>
      min_ratio groupRatio groups
        (match finite_ratio (assoc_get group groupRatio) with
         | Some ratio => if num_ltb ratio minRatio then ratio else minRatio
         | None => minRatio
         end)
  end.

Definition getDisplayGroupRatio (model : PricingModel) (selectedGroup : option str) : number :=
  let groups := enabled_groups model in
  let groupRatio := default [] (group_ratio model) in
  let best :=
    match groups with
    | [] => one
    | _ =>
        let minRatio := min_ratio groupRatio groups (Infinite false) in
        if num_eqb minRatio (Infinite false) then one else minRatio
    end in
  match selectedGroup with
  | Some group =>
      if nonempty group && negb (str_eqb group FILTER_ALL) && one_of groups group
      then getConfiguredGroupRatio groupRatio group else best
  | None => best
  end.

(** The replacement text of [replaceAll]: [$$], [$&], [$`] and [$'] stand for a
    dollar, the match, the text before and the text after it. *)
Fixpoint expand_replacement (r matched before after : str) : str :=
  match r with
  | 36%N :: ((c :: rest) as t) =>
      let go := expand_replacement rest matched before after in
      if N.eqb c 36 then 36%N :: go
      else if N.eqb c 38 then matched ++ go
      else if N.eqb c 96 then before ++ go
      else if N.eqb c apostrophe then after ++ go
      else 36%N :: expand_replacement t matched before after
  | c :: t => c :: expand_replacement t matched before after
  | [] => []
  end.

(** [whole.replaceAll(pattern, r)]; [s] is the rest of [whole], of which [skip]
    characters belong to a match. *)
Fixpoint replace_all (whole pattern r s : str) (skip : nat) : str :=
  match s with
  | [] => []
  | c :: t =>
      match skip with
      | S skip => replace_all whole pattern r t skip
      | O =>
          if starts_with s pattern then
            expand_replacement r pattern (take (length whole - length s) whole) (drop (length pattern) s)
              ++ replace_all whole pattern r t (length pattern - 1)
          else c :: replace_all whole pattern r t O
      end
  end.

Definition replaceModelInPath (path modelName : str) : str :=
  replace_all path (u "{model}") modelName path 0.

Definition isTokenBasedModel (model : PricingModel) : bool := num_eqb (quota_type model) QUOTA_TOKEN.

(** ** [plugin-pricing.ts] *)

Definition is_plugin_start (c : N) : bool := is_lower c || is_digit c.
Definition is_plugin_char (c : N) : bool := is_plugin_start c || N.eqb c 95 || N.eqb c minus_sign.

(** [/^[a-z0-9][a-z0-9_-]{0,29}$/] *)
Definition is_plugin_key (s : str) : bool :=
  match s with
  | c :: rest => is_plugin_start c && forallb is_plugin_char rest && (length rest <=? 29)%nat
  | [] => false
  end.

Definition splitPluginBillingExprKey (key : str) : option (str * str) :=
  match position_of key (u "::") with
  | None | Some O => None
  | Some separator =>
      let plugin := take separator key in
      let model := drop (separator + 2) key in
      if negb (is_plugin_key plugin) || negb (nonempty (trim model)) then None
      else Some (plugin, model)
  end.

(** The visitor; [compatible] is the state. *)
Definition compatible_visitor (schema : BillingUsageSchema) (compatible : bool) (node : ExpressionNode)
  : outcome bool :=
  Ok (match node with
      | Call Fn_u (Literal (LString key) _ _ _ :: _) _ _ => compatible && assoc_has key schema
      | _ => compatible
      end).

Definition taskExpressionCompatible (expression : str) (schema : BillingUsageSchema)
  : outcome (option bool) :=
  if negb (nonempty (trim expression)) then Ok (Some false)
  else match compile expression with
       | inr _ => Ok None
       | inl compiled =>
           compatible ← visitExpression (compatible_visitor schema) (ce_ast compiled)
                          (negb (has_function Fn_fixed (ce_functions compiled)));
           Ok (Some compatible)
       end.

Definition is_mode (mode : option str) (text : str) : bool :=
  match mode with Some m => str_eqb m text | None => false end.

Definition withPluginPricing (model : PricingModel) (variant : BillingPluginVariant) : PricingModel :=
  {| billing_plugin_variants := None;
     model_name := model_name model; model_description := model_description model;
     vendor_name := vendor_name model; tags := tags model;
     supported_endpoint_types := supported_endpoint_types model;
     quota_type := if is_mode (pv_billing_mode variant) (u "ratio") then quota_type model else QUOTA_TOKEN;
     model_ratio := model_ratio model; completion_ratio := completion_ratio model;
     model_price := model_price model; cache_ratio := cache_ratio model;
     create_cache_ratio := create_cache_ratio model; image_ratio := image_ratio model;
     audio_ratio := audio_ratio model; audio_completion_ratio := audio_completion_ratio model;
     enable_groups := enable_groups model; group_ratio := group_ratio model;
     billing_mode := Some (default (u "tiered_expr") (pv_billing_mode variant));
     billing_expr := Some (pv_billing_expr variant);
     billing_usage_schema := Some (pv_billing_usage_schema variant);
     billing_usage_examples := pv_billing_usage_examples variant |}.

Definition pluginExpressionsEqual (left_ right_ : list (str * str)) : bool :=
  (length left_ =? length right_)%nat
  && forallb (fun key => bool_decide (assoc_get key right_ <> None)
                         && bool_decide (assoc_get key left_ = assoc_get key right_)) (left_.*1).

Definition pluginUsageSchema (model : option PricingModel) (pluginKey : option str)
  : option BillingUsageSchema :=
  let variant := model ≫= fun m =>
    List.find (fun item => bool_decide (Some (pv_plugin_key item) = pluginKey))
      (default [] (billing_plugin_variants m)) in
  match variant with
  | Some v => Some (pv_billing_usage_schema v)
  | None => model ≫= billing_usage_schema
  end.

(** ** [price.ts] *)

(** [Number.parseFloat(text)]: the longest prefix that is a number. *)
Definition parse_unsigned (neg : bool) (s : str) : number :=
  if starts_with s (u "Infinity") then Infinite neg
  else match scan_decimal s with Some (d, _) => decimal_number neg d | None => NaN end.
Definition parse_float (text : str) : number :=
  match trim_start text with
  | c :: t =>
      if N.eqb c minus_sign then parse_unsigned true t
      else if N.eqb c plus_sign then parse_unsigned false t
      else parse_unsigned false (c :: t)
  | [] => NaN
  end.

(** The pattern of [stripTrailingZeros]: a symbol, a number with commas, a suffix. *)
Definition PRICE_PATTERN : re :=
  seqs [Group 1 (Star (Chr (fun c => negb (is_digit c || N.eqb c minus_sign))));
        Group 2 (seqs [plus (Chr (fun c => is_digit c || N.eqb c minus_sign || N.eqb c 44));
                       opt (lit "."); Star digit]);
        Group 3 (opt (lit "k"))].

(** [s.replace(/\.?0+$/, '')]; without zeros at the end nothing is removed. *)
Definition drop_zero_tail (s : str) : str :=
  let kept := drop_zeros s in
  if (length kept =? length s)%nat then s
  else if ends_with kept [dot] then take (length kept - 1) kept else kept.

Definition stripTrailingZeros (formatted : str) : str :=
  match match_all PRICE_PATTERN formatted with
  | None => formatted
  | Some c =>
      let cleanNumber := List.filter (fun x => negb (N.eqb x 44)) (text_of 2 c) in
      let parsed := parse_float cleanNumber in
      match parsed with
      | NaN => formatted
      | _ =>
          let result := number_to_string parsed in
          let result := if includes result (u "e") then drop_zero_tail (to_fixed parsed 20) else result in
          text_of 1 c ++ result ++ text_of 3 c
      end
  end.

Definition hasRatio (v : option number) : bool :=
  match v with Some x => num_is_finite x | None => false end.

(** [hasRatio(v) ? base * Number(v) : NaN] *)
Definition times_ratio (base : number) (v : option number) : number :=
  match v with Some x => if num_is_finite x then num_mul base x else NaN | None => NaN end.

Definition calculateTokenPrice (model : PricingModel) (type : PriceType) (ratio : number) : number :=
  let base := num_mul (num_mul (model_ratio model) (of_Z 2)) ratio in
  match type with
  | P_input => base
  | P_output => num_mul base (completion_ratio model)
  | P_cache => times_ratio base (cache_ratio model)
  | P_create_cache => times_ratio base (create_cache_ratio model)
  | P_image => times_ratio base (image_ratio model)
  | P_audio_input => times_ratio base (audio_ratio model)
  | P_audio_output =>
      if hasRatio (audio_ratio model) && hasRatio (audio_completion_ratio model)
      then times_ratio (times_ratio base (audio_ratio model)) (audio_completion_ratio model) else NaN
  end.

Definition applyRechargeRate (price : number) (showWithRecharge : bool) (priceRate usdExchangeRate_ : number)
  : number :=
  if showWithRecharge then num_div (num_mul price priceRate) usdExchangeRate_ else price.

(** [{ showSymbol, digitsLarge, digitsSmall, abbreviate: false }] *)
Definition price_format (showSymbol_ : option bool) (small : nat) : CurrencyFormatOptions :=
  {| o_digitsLarge := Some 4%nat; o_digitsSmall := Some small; o_abbreviate := Some false;
     o_minimumNonZero := None; o_compact := None; o_showSymbol := showSymbol_; o_locale := None |}.

(** The recharge arguments of the formatting functions. *)
Record Recharge : Type := {
  showWithRecharge : bool;
  priceRate : number;
  exchangeRate : number;
}.
Definition recharged (r : Recharge) (price : number) : number :=
  applyRechargeRate price (showWithRecharge r) (priceRate r) (exchangeRate r).

Section prices.
Context `{NumberFormats} (stored : option CurrencyConfig).

Definition is_request_model (model : PricingModel) : bool := num_eqb (quota_type model) QUOTA_REQUEST.

Definition formatPrice (model : PricingModel) (type : PriceType) (tokenUnit : TokenUnit) (r : Recharge)
    (selectedGroup : option str) (showCurrencySymbol : bool) : str :=
  if is_request_model model then u "-"
  else
    let priceInUSD := calculateTokenPrice model type (getDisplayGroupRatio model selectedGroup) in
    let price := num_div (recharged r priceInUSD) (TOKEN_UNIT_DIVISORS tokenUnit) in
    formatBillingCurrencyFromUSD stored (Some price) (Some (price_format (Some showCurrencySymbol) 6)).

Definition formatGroupPrice (model : PricingModel) (group : str) (type : PriceType) (tokenUnit : TokenUnit)
    (r : Recharge) (groupRatio : list (str * value)) : str :=
  if is_request_model model then u "-"
  else
    let priceInUSD := calculateTokenPrice model type (getConfiguredGroupRatio groupRatio group) in
    let price := num_div (recharged r priceInUSD) (TOKEN_UNIT_DIVISORS tokenUnit) in
    formatBillingCurrencyFromUSD stored (Some price) (Some (price_format None 6)).

(** [model.model_price || 0] *)
Definition fixed_price_of (model : PricingModel) : number :=
  number_or_zero (default NaN (model_price model)).

Definition formatFixedPrice (model : PricingModel) (group : str) (r : Recharge)
    (groupRatio : list (str * value)) : str :=
  if negb (is_request_model model) then u "-"
  else
    let priceInUSD := num_mul (fixed_price_of model) (getConfiguredGroupRatio groupRatio group) in
    formatBillingCurrencyFromUSD stored (Some (recharged r priceInUSD)) (Some (price_format None 4)).

Definition formatRequestPrice (model : PricingModel) (r : Recharge) (selectedGroup : option str)
    (showCurrencySymbol : bool) : str :=
  if negb (is_request_model model) then u "-"
  else
    let priceInUSD := num_mul (fixed_price_of model) (getDisplayGroupRatio model selectedGroup) in
    formatBillingCurrencyFromUSD stored (Some (recharged r priceInUSD))
      (Some (price_format (Some showCurrencySymbol) 4)).
End prices.
