(* ===== verification/PricingOptions.v ===== *)
(** * Stored prices of models

    [features/model-pricing/pricing.ts] and [buildPricingChanges] of its [api.ts]:
    the eleven options that hold the prices of all models as JSON texts, the draft
    of one model, and the changes that are saved.  With them
    [system-settings/models/model-pricing-snapshots.ts] (the rows of the editor) and
    [safeJsonParse] of [system-settings/utils/json-parser.ts]. *)

From Stdlib Require Import String.
From S2P Require Import Prelude JsNumber JsString JsText Ast Request Json JsonText.
From S2P Require Import Display BillingExpr PricingModel.

#[local] Open Scope nat_scope.

(** ** Data *)

Inductive PricingKey : Type :=
| PK_ModelPrice | PK_ModelRatio | PK_CompletionRatio | PK_CacheRatio | PK_CreateCacheRatio
| PK_ImageRatio | PK_AudioRatio | PK_AudioCompletionRatio | PK_billing_mode | PK_billing_expr
| PK_plugin_billing_expr.
#[export] Instance pricing_key_eq_dec : EqDecision PricingKey.
Proof. solve_decision. Defined.

Definition PRICING_KEYS : list PricingKey :=
  [PK_ModelPrice; PK_ModelRatio; PK_CompletionRatio; PK_CacheRatio; PK_CreateCacheRatio; PK_ImageRatio;
   PK_AudioRatio; PK_AudioCompletionRatio; PK_billing_mode; PK_billing_expr; PK_plugin_billing_expr].

Definition key_text (key : PricingKey) : str :=
  match key with
  | PK_ModelPrice => u "ModelPrice"
  | PK_ModelRatio => u "ModelRatio"
  | PK_CompletionRatio => u "CompletionRatio"
  | PK_CacheRatio => u "CacheRatio"
  | PK_CreateCacheRatio => u "CreateCacheRatio"
  | PK_ImageRatio => u "ImageRatio"
  | PK_AudioRatio => u "AudioRatio"
  | PK_AudioCompletionRatio => u "AudioCompletionRatio"
  | PK_billing_mode => u "billing_setting.billing_mode"
  | PK_billing_expr => u "billing_setting.billing_expr"
  | PK_plugin_billing_expr => u "billing_setting.plugin_billing_expr"
  end.

(** [number | string] *)
Inductive Scalar : Type := SNumber (x : number) | SString (s : str).
Definition scalar_value (s : Scalar) : value := match s with SNumber x => VNumber x | SString s => VString s end.
(** [Number(s)] *)
Definition scalar_number (s : Scalar) : number := match s with SNumber x => x | SString s => to_number s end.
(** [a === b] *)
Definition scalar_eqb (a b : option Scalar) : bool :=
  match a, b with
  | None, None => true
  | Some (SNumber x), Some (SNumber y) => num_eqb x y
  | Some (SString s), Some (SString t) => str_eqb s t
  | _, _ => false
  end.

(** [PricingValues]: the fields of the first ten keys, and those of the last. *)
Record PricingValues : Type := {
  prices : list (PricingKey * Scalar);
  plugin_exprs : option (list (str * str));
}.
Definition no_values : PricingValues := {| prices := []; plugin_exprs := None |}.
Definition price_of (values : PricingValues) (key : PricingKey) : option Scalar := assoc_get key (prices values).

(** [PricingOptions]: a JSON text for each key. *)
Definition PricingOptions : Type := list (PricingKey * str).
(** [options[key] ?? '{}'] *)
Definition option_text (options : PricingOptions) (key : PricingKey) : str := default (u "{}") (assoc_get key options).

Inductive CacheWriteMode : Type := CW_none | CW_standard | CW_claude_ttl.

(** What the changes read of an entry. *)
Record ModelPricingEntry : Type := {
  me_model_name : str;
  me_version : str;
  me_configured : PricingValues;
  me_effective : PricingValues;
}.
Record ModelPricingConfig : Type := {
  mc_entries : list ModelPricingEntry;
  mc_options : PricingOptions;
  mc_empty_version : str;
}.
Record ModelPricingChange : Type := {
  ch_model_name : str;
  ch_expected_version : str;
  ch_pricing : PricingValues;
}.

(** [PricingMode] and the draft of a model ([ModelRatioData]); prices of videos, which
    the stored options do not have, are left out of it. *)
Inductive PricingMode : Type := M_per_token | M_per_request | M_per_video | M_tiered_expr.
#[export] Instance pricing_mode_eq_dec : EqDecision PricingMode.
Proof. solve_decision. Defined.

Record ModelRatioData : Type := {
  dr_name : str;
  dr_price : option str;
  dr_ratio : option str;
  dr_completionRatio : option str;
  dr_cacheRatio : option str;
  dr_createCacheRatio : option str;
  dr_imageRatio : option str;
  dr_audioRatio : option str;
  dr_audioCompletionRatio : option str;
  dr_billingMode : option PricingMode;
  dr_billingExpr : option str;
  dr_requestRuleExpr : option str;
  dr_pluginBillingExpr : option (list (str * str));
}.

(** [ModelPricingSnapshot], a row of the editor. *)
Record ModelPricingSnapshot : Type := {
  sn_name : str;
  sn_pluginBillingExpr : option (list (str * value));
  sn_price : option str;
  sn_ratio : option str;
  sn_cacheRatio : option str;
  sn_createCacheRatio : option str;
  sn_completionRatio : option str;
  sn_imageRatio : option str;
  sn_audioRatio : option str;
  sn_audioCompletionRatio : option str;
  sn_billingMode : option PricingMode;
  sn_billingExpr : option str;
  sn_requestRuleExpr : option str;
  sn_videoPrices : option (list (str * str));
  sn_hasConflict : bool;
}.

(** ** Objects read from JSON *)

Definition type_error : exn := JsError (u "TypeError").

Definition index_text (i : nat) : str := number_to_string (of_Z (Z.of_nat i)).

(** [name] is the index of an item: its decimal text, below [2^32 - 1]. *)
Definition array_index (name : str) : option nat :=
  let n := fold_left (fun n c => 10 * n + (c - 48))%N name 0%N in
  match name with
  | [] | 48%N :: _ :: _ => None
  | _ => if forallb is_digit name && N.ltb n 4294967295 then Some (N.to_nat n) else None
  end.

(** [Object.entries(v)] *)
Definition object_entries (v : value) : outcome (list (str * value)) :=
  match v with
  | VUndefined | VNull => Throw type_error
  | VBoolean _ | VNumber _ => Ok []
  | VString s => Ok (imap (fun i c => (index_text i, VString [c])) s)
  | VArray items => Ok (imap (fun i item => (index_text i, item)) items)
  | VObject fields => Ok fields
  end.

(** [v[name]] *)
Definition member (v : value) (name : str) : outcome value :=
  fields ← object_entries v; Ok (default VUndefined (assoc_get name fields)).

(** [delete v[name]] in strict mode; a deleted item of an array is a hole. *)
Definition delete_property (v : value) (name : str) : outcome value :=
  match v with
  | VUndefined | VNull => Throw type_error
  | VBoolean _ | VNumber _ => Ok v
  | VString s =>
      if str_eqb name (u "length") || match array_index name with Some i => i <? length s | None => false end
      then Throw type_error else Ok v
  | VArray items =>
      if str_eqb name (u "length") then Throw type_error
      else Ok (match array_index name with Some i => VArray (<[i := VUndefined]> items) | None => v end)
  | VObject fields => Ok (VObject (assoc_delete name fields))
  end.

(** [Object.defineProperty(v, name, ...)] of a plain property, and [v[name] = w] in
    strict mode.  A property of an array that is no index is not part of its text. *)
Definition define_property (v : value) (name : str) (w : value) : outcome value :=
  match v with
  | VObject fields => Ok (VObject (assoc_set name w fields))
  | VArray items =>
      if str_eqb name (u "length") then Throw type_error
      else Ok (match array_index name with
               | Some i => VArray (if i <? length items then <[i := w]> items
                                   else items ++ replicate (i - length items) VUndefined ++ [w])
               | None => v
               end)
  | _ => Throw type_error
  end.

(** [JSON.parse(text)] *)
Definition parse_json (text : str) : outcome value :=
  match json_parse text with Some v => Ok v | None => Throw (JsError (u "SyntaxError")) end.

Definition safeJsonParse (text : option str) (fallback : value) : value :=
  let trimmed := trim (default [] text) in
  if nonempty trimmed then default fallback (json_parse trimmed) else fallback.

(** ** The options of the server *)

(** [key => ...] of [pricingOptions]: older names of three options. *)
Definition option_value (values : list (str * value)) (key : PricingKey) : value :=
  let value := default VUndefined (assoc_get (key_text key) values) in
  let or_else (older : string) := if nullish value then default VUndefined (assoc_get (u older) values) else value in
  match key with
  | PK_billing_mode => or_else "BillingMode"%string
  | PK_billing_expr => or_else "BillingExpr"%string
  | PK_plugin_billing_expr => or_else "PluginBillingExpr"%string
  | _ => value
  end.

Definition pricingOptions (values : list (str * value)) : PricingOptions :=
  map (fun key => (key, match option_value values key with VString s => s | _ => u "{}" end)) PRICING_KEYS.

(** [modelPricingDisplay(entry)] of the entry's fields. *)
Definition is_one (s : Scalar) : bool := num_eqb (scalar_number s) one.

Definition modelPricingDisplay (name : str) (values : PricingValues) (usage_schema : option BillingUsageSchema)
    (configured : option PricingValues) (cache_write_mode : option CacheWriteMode) : PricingModel :=
  let plain key := scalar_number <$> price_of values key in
  let unless_one key := match price_of values key with
                        | Some s => if is_one s then None else Some (scalar_number s)
                        | None => None end in
  let text key := match price_of values key with Some (SString s) => Some s | _ => None end in
  {| billing_plugin_variants := None;
     model_name := name;
     model_description := None;
     vendor_name := None;
     quota_type :=
       if assoc_has PK_ModelPrice (prices values)
          && negb (scalar_eqb (price_of values PK_billing_mode) (Some (SString (u "tiered_expr"))))
       then one else zero;
     model_ratio := default NaN (plain PK_ModelRatio);
     completion_ratio := default NaN (plain PK_CompletionRatio);
     model_price := plain PK_ModelPrice;
     cache_ratio := unless_one PK_CacheRatio;
     create_cache_ratio :=
       if match cache_write_mode with Some CW_standard | Some CW_claude_ttl => true | _ => false end
          || match configured with Some c => assoc_has PK_CreateCacheRatio (prices c) | None => false end
       then plain PK_CreateCacheRatio else None;
     image_ratio := unless_one PK_ImageRatio;
     audio_ratio := plain PK_AudioRatio;
     audio_completion_ratio := plain PK_AudioCompletionRatio;
     enable_groups := Some [];
     tags := None;
     supported_endpoint_types := None;
     group_ratio := None;
     billing_mode := text PK_billing_mode;
     billing_expr := text PK_billing_expr;
     billing_usage_schema := usage_schema;
     billing_usage_examples := None |}.

(** ** Rows of the editor: [model-pricing-snapshots.ts] *)

Definition hasPricingValue (v : option str) : bool := match v with Some s => nonempty s | None => false end.

Definition isBasePricingUnset (snapshot : option ModelPricingSnapshot) : bool :=
  match snapshot with
  | None => true
  | Some s =>
      bool_decide (sn_billingMode s <> Some M_tiered_expr) && bool_decide (sn_billingMode s <> Some M_per_video)
      && negb (hasPricingValue (sn_price s)) && negb (hasPricingValue (sn_ratio s))
  end.

Record ModelPricingSnapshotInput : Type := {
  in_modelPrice : str;
  in_videoGenerationPrice : option str;
  in_modelRatio : str;
  in_cacheRatio : str;
  in_createCacheRatio : str;
  in_completionRatio : str;
  in_imageRatio : str;
  in_audioRatio : str;
  in_audioCompletionRatio : str;
  in_billingMode : str;
  in_billingExpr : str;
  in_pluginBillingExpr : option str;
}.

(** [safeJsonParse(text, { fallback: {} })] *)
Definition read_map (text : str) : value := safeJsonParse (Some text) (VObject []).

(** [map[name]?.toString() || ''] *)
Definition member_text (map : value) (name : str) : outcome str :=
  v ← member map name; Ok (if nullish v then [] else to_string v).

(** The loop over [Object.entries(pluginExprMap)]. *)
Definition add_plugin_expression (byModel : list (str * list (str * value))) (entry : str * value) :=
  match splitPluginBillingExprKey (fst entry) with
  | None => byModel
  | Some (plugin, model) =>
      assoc_set model (assoc_set plugin (snd entry) (default [] (assoc_get model byModel))) byModel
  end.

(** [Object.entries(videoPriceMap[name] || {}).map(([r, value]) => [r, value.toString()])] *)
Definition video_prices (videoPriceMap : value) (name : str) : outcome (list (str * str)) :=
  v ← member videoPriceMap name;
  fields ← object_entries (if truthy v then v else VObject []);
  map_result (fun '(resolution, price) =>
    if nullish price then Throw type_error else Ok (resolution, to_string price)) fields.

Definition snapshot_row (i : ModelPricingSnapshotInput) (byModel : list (str * list (str * value))) (name : str)
  : outcome ModelPricingSnapshot :=
  price ← member_text (read_map (in_modelPrice i)) name;
  videoPrices ← video_prices (read_map (default (u "{}") (in_videoGenerationPrice i))) name;
  ratio ← member_text (read_map (in_modelRatio i)) name;
  cache ← member_text (read_map (in_cacheRatio i)) name;
  createCache ← member_text (read_map (in_createCacheRatio i)) name;
  completion ← member_text (read_map (in_completionRatio i)) name;
  image ← member_text (read_map (in_imageRatio i)) name;
  audio ← member_text (read_map (in_audioRatio i)) name;
  audioCompletion ← member_text (read_map (in_audioCompletionRatio i)) name;
  modeForModel ← member (read_map (in_billingMode i)) name;
  let tiered := match modeForModel with VString s => str_eqb s (u "tiered_expr") | _ => false end in
  let others := existsb nonempty [ratio; completion; cache; createCache; image; audio; audioCompletion] in
  match videoPrices with
  | [] =>
      '(billingMode, billingExpr, requestRuleExpr, hasConflict) ←
        (if tiered then
           fullExpr ← member (read_map (in_billingExpr i)) name;
           text ← match fullExpr with VString s => Ok s | v => if truthy v then Throw type_error else Ok [] end;
           '(pureExpr, requestRuleExpr) ← splitBillingExprAndRequestRules text;
           Ok (M_tiered_expr, Some pureExpr, Some requestRuleExpr, false)
         else Ok (if nonempty price then M_per_request else M_per_token, None, None, nonempty price && others));
      Ok {| sn_name := name;
            sn_pluginBillingExpr := assoc_get name byModel;
            sn_price := Some price;
            sn_ratio := Some ratio;
            sn_cacheRatio := Some cache;
            sn_createCacheRatio := Some createCache;
            sn_completionRatio := Some completion;
            sn_imageRatio := Some image;
            sn_audioRatio := Some audio;
            sn_audioCompletionRatio := Some audioCompletion;
            sn_billingMode := Some billingMode;
            sn_billingExpr := billingExpr;
            sn_requestRuleExpr := requestRuleExpr;
            sn_videoPrices := None;
            sn_hasConflict := hasConflict |}
  | _ =>
      Ok {| sn_name := name;
            sn_pluginBillingExpr := None;
            sn_price := None;
            sn_ratio := None;
            sn_cacheRatio := None;
            sn_createCacheRatio := None;
            sn_completionRatio := None;
            sn_imageRatio := None;
            sn_audioRatio := None;
            sn_audioCompletionRatio := None;
            sn_billingMode := Some M_per_video;
            sn_billingExpr := None;
            sn_requestRuleExpr := None;
            sn_videoPrices := Some videoPrices;
            sn_hasConflict := tiered || nonempty price || others |}
  end.

Definition buildModelSnapshots (i : ModelPricingSnapshotInput) : outcome (list ModelPricingSnapshot) :=
  pluginEntries ← object_entries (read_map (default (u "{}") (in_pluginBillingExpr i)));
  let byModel := fold_left add_plugin_expression pluginEntries [] in
  keys ← map_result (fun text => entries ← object_entries (read_map text); Ok (entries.*1))
    [in_modelPrice i; default (u "{}") (in_videoGenerationPrice i); in_modelRatio i; in_cacheRatio i;
     in_createCacheRatio i; in_completionRatio i; in_imageRatio i; in_audioRatio i;
     in_audioCompletionRatio i; in_billingMode i; in_billingExpr i];
  let modelNames := fold_left (fun names name => set_add name names) (byModel.*1 ++ concat keys) [] in
  map_result (snapshot_row i byModel) modelNames.

(** ** The draft of a model *)

Definition pricingRows (options : PricingOptions) : outcome (list ModelPricingSnapshot) :=
  buildModelSnapshots
    {| in_modelPrice := option_text options PK_ModelPrice;
       in_videoGenerationPrice := None;
       in_modelRatio := option_text options PK_ModelRatio;
       in_cacheRatio := option_text options PK_CacheRatio;
       in_createCacheRatio := option_text options PK_CreateCacheRatio;
       in_completionRatio := option_text options PK_CompletionRatio;
       in_imageRatio := option_text options PK_ImageRatio;
       in_audioRatio := option_text options PK_AudioRatio;
       in_audioCompletionRatio := option_text options PK_AudioCompletionRatio;
       in_billingMode := option_text options PK_billing_mode;
       in_billingExpr := option_text options PK_billing_expr;
       in_pluginBillingExpr := Some (option_text options PK_plugin_billing_expr) |}.

Definition plugin_key_of (plugin name : str) : str := plugin ++ u "::" ++ name.

(** [Object.fromEntries(entries)] *)
Definition from_entries {V} (entries : list (str * V)) : list (str * V) :=
  fold_left (fun fields '(k, v) => assoc_set k v fields) entries [].

(** The options with the prices of one model. *)
Definition row_options (name : str) (values : PricingValues) : PricingOptions :=
  map (fun key =>
    (key, stringify (VObject
      match key with
      | PK_plugin_billing_expr =>
          from_entries (map (fun '(plugin, expression) => (plugin_key_of plugin name, VString expression))
                          (default [] (plugin_exprs values)))
      | _ => match price_of values key with None => [] | Some v => [(name, scalar_value v)] end
      end))) PRICING_KEYS.

Definition pricingRow (name : str) (values : PricingValues) : outcome ModelRatioData :=
  rows ← pricingRows (row_options name values);
  let row := List.find (fun entry => str_eqb (sn_name entry) name) rows in
  Ok {| dr_name := name;
        dr_price := row ≫= sn_price;
        dr_ratio := row ≫= sn_ratio;
        dr_completionRatio := row ≫= sn_completionRatio;
        dr_cacheRatio := row ≫= sn_cacheRatio;
        dr_createCacheRatio := row ≫= sn_createCacheRatio;
        dr_imageRatio := row ≫= sn_imageRatio;
        dr_audioRatio := row ≫= sn_audioRatio;
        dr_audioCompletionRatio := row ≫= sn_audioCompletionRatio;
        dr_billingMode := Some (if bool_decide (row ≫= sn_billingMode = Some M_tiered_expr) then M_tiered_expr
                                else if hasPricingValue (row ≫= sn_price) then M_per_request else M_per_token);
        dr_billingExpr := row ≫= sn_billingExpr;
        dr_requestRuleExpr := row ≫= sn_requestRuleExpr;
        dr_pluginBillingExpr := plugin_exprs values |}.

Definition pricingFieldMap : list ((ModelRatioData -> option str) * PricingKey) :=
  [(dr_price, PK_ModelPrice); (dr_ratio, PK_ModelRatio); (dr_completionRatio, PK_CompletionRatio);
   (dr_cacheRatio, PK_CacheRatio); (dr_createCacheRatio, PK_CreateCacheRatio); (dr_imageRatio, PK_ImageRatio);
   (dr_audioRatio, PK_AudioRatio); (dr_audioCompletionRatio, PK_AudioCompletionRatio)].

(** The prices the mode of a draft keeps. *)
Definition kept_in_mode (mode : option PricingMode) (key : PricingKey) : bool :=
  match mode with
  | Some M_tiered_expr => true
  | Some M_per_request => bool_decide (key = PK_ModelPrice)
  | _ => bool_decide (key <> PK_ModelPrice)
  end.

Definition invalid_price : exn := JsError (u "Enter a finite, non-negative price").

(** The turn of the loop over [pricingFieldMap]. *)
Definition draft_field (data : ModelRatioData) (values : list (PricingKey * Scalar))
    (entry : (ModelRatioData -> option str) * PricingKey) : outcome (list (PricingKey * Scalar)) :=
  match fst entry data with
  | None | Some [] => Ok values
  | Some text =>
      let x := to_number text in
      if negb (num_is_finite x) || num_ltb x zero then Throw invalid_price
      else Ok (if kept_in_mode (dr_billingMode data) (snd entry) then assoc_set (snd entry) (SNumber x) values
               else values)
  end.

Definition pricingFromDraft (data : ModelRatioData) : outcome PricingValues :=
  let tiered := bool_decide (dr_billingMode data = Some M_tiered_expr) in
  let mode := [(PK_billing_mode, SString (if tiered then u "tiered_expr" else u "ratio"))] in
  values ← fold_result (draft_field data) mode pricingFieldMap;
  Ok {| prices := if tiered then
                    assoc_set PK_billing_expr
                      (SString (combineBillingExpr (default [] (dr_billingExpr data)) (default [] (dr_requestRuleExpr data))))
                      values
                  else values;
        plugin_exprs := dr_pluginBillingExpr data |}.

(** ** Applying a draft *)

(** The body for the last key. *)
Definition replace_plugins (exprs : list (str * str)) (map : value) (name : str) : outcome value :=
  keys ← object_entries map;
  map ← fold_result (fun map variant =>
          if bool_decide (snd <$> splitPluginBillingExprKey variant = Some name)
          then delete_property map variant else Ok map) map (keys.*1);
  fold_result (fun map '(plugin, expression) =>
    define_property map (plugin_key_of plugin name) (VString expression)) map exprs.

(** The body for another key. *)
Definition replace_price (price : option Scalar) (map : value) (name : str) : outcome value :=
  map ← delete_property map name;
  match price with Some v => define_property map name (scalar_value v) | None => Ok map end.

Definition apply_key (values : PricingValues) (names : list str) (key : PricingKey) (text : str) : outcome str :=
  map ← parse_json text;
  map ← match key with
        | PK_plugin_billing_expr =>
            match plugin_exprs values with
            | None => Ok map
            | Some exprs => fold_result (replace_plugins exprs) map names
            end
        | _ => fold_result (replace_price (price_of values key)) map names
        end;
  Ok (stringify map).

Definition applyPricingValues (options : PricingOptions) (values : PricingValues) (names : list str)
  : outcome PricingOptions :=
  map_result (fun key => text ← apply_key values names key (option_text options key); Ok (key, text)) PRICING_KEYS.

Definition applyPricingDraft (options : PricingOptions) (data : ModelRatioData) (names : list str)
  : outcome PricingOptions :=
  values ← pricingFromDraft data;
  if bool_decide (names = [dr_name data]) then applyPricingValues options values names
  else
    let copied := {| prices := prices values; plugin_exprs := None |} in
    next ← applyPricingValues options copied names;
    if bool_decide (dr_name data ∈ names) then applyPricingValues next values [dr_name data] else Ok next.

(** ** The prices of each model *)

Definition not_an_object : exn := JsError (u "Pricing must be a JSON object").
Definition invalid_value : exn := JsError (u "Invalid pricing value").

Definition PricingMap : Type := list (str * PricingValues).
Definition values_of (models : PricingMap) (name : str) : PricingValues := default no_values (assoc_get name models).

(** The body of the loop over the entries of an option. *)
Definition add_entry (key : PricingKey) (models : PricingMap) (entry : str * value) : outcome PricingMap :=
  let (name, v) := entry in
  scalar ← match v with VNumber x => Ok (SNumber x) | VString s => Ok (SString s) | _ => Throw invalid_value end;
  match key with
  | PK_plugin_billing_expr =>
      match splitPluginBillingExprKey name, scalar with
      | Some (plugin, modelName), SString s =>
          let model := values_of models modelName in
          Ok (assoc_set modelName
                {| prices := prices model;
                   plugin_exprs := Some (assoc_set plugin s (default [] (plugin_exprs model))) |} models)
      | _, _ => Throw invalid_value
      end
  | _ =>
      let model := values_of models name in
      Ok (assoc_set name {| prices := assoc_set key scalar (prices model); plugin_exprs := plugin_exprs model |} models)
  end.

Definition add_option (options : PricingOptions) (models : PricingMap) (key : PricingKey) : outcome PricingMap :=
  map ← parse_json (option_text options key);
  match map with
  | VObject fields => fold_result (add_entry key) models fields
  | _ => Throw not_an_object
  end.

Definition pricingValuesByModel (options : PricingOptions) : outcome PricingMap :=
  fold_result (add_option options) [] PRICING_KEYS.

(** ** Prices synchronised from an upstream *)

Section sync.
(** [text.toUpperCase()] *)
Variable toUpperCase : str -> str.

(** [field.split('_').map(part => part.charAt(0).toUpperCase() + part.slice(1)).join('')] *)
Definition capitalise (part : str) : str := toUpperCase (take 1 part) ++ drop 1 part.
Definition field_key_text (field : str) : str := concat (map capitalise (split_char 95%N field [])).

(** The turn of the loop over the selected fields. *)
Definition select_field (fixed : bool) (next : list (PricingKey * Scalar)) (entry : str * Scalar)
  : list (PricingKey * Scalar) :=
  let (field, v) := entry in
  if str_eqb field (u "billing_mode") || str_eqb field (u "billing_expr") then next
  else if fixed && negb (str_eqb field (u "model_price")) then next
  else match List.find (fun key => str_eqb (key_text key) (field_key_text field)) PRICING_KEYS with
       | None | Some PK_plugin_billing_expr => next
       | Some key => assoc_set key v next
       end.

(** The expression that is selected, when it is. *)
Definition selected_expression (fields : list (str * Scalar)) : option str :=
  match assoc_get (u "billing_expr") fields with
  | Some (SString s) => if nonempty (trim s) then Some s else None
  | _ => None
  end.

Definition selected_values (fields : list (str * Scalar)) : PricingValues :=
  {| prices :=
       match selected_expression fields with
       | Some s => [(PK_billing_mode, SString (u "tiered_expr")); (PK_billing_expr, SString s)]
       | None => fold_left (select_field (assoc_has (u "model_price") fields)) fields
                   [(PK_billing_mode, SString (u "ratio"))]
       end;
     plugin_exprs := None |}.

Definition sync_model (options : PricingOptions) (selection : str * list (str * Scalar)) : outcome PricingOptions :=
  let (name, fields) := selection in
  row ← pricingRow name (selected_values fields);
  validated ← pricingFromDraft row;
  let validated := match selected_expression fields with
                   | Some s => {| prices := assoc_set PK_billing_expr (SString s) (prices validated);
                                  plugin_exprs := plugin_exprs validated |}
                   | None => validated
                   end in
  applyPricingValues options validated [name].

Definition applyPriceSyncSelections (options : PricingOptions) (selections : list (str * list (str * Scalar)))
  : outcome PricingOptions := fold_result sync_model options selections.
End sync.

(** ** The changes that are saved *)

(** [PRICING_KEYS.filter(...)] *)
Definition is_dirty (oldValues newValues : PricingValues) (key : PricingKey) : bool :=
  match key with
  | PK_plugin_billing_expr =>
      negb (pluginExpressionsEqual (default [] (plugin_exprs oldValues)) (default [] (plugin_exprs newValues)))
  | _ => negb (scalar_eqb (price_of oldValues key) (price_of newValues key))
  end.

(** [l[key] = v]; a field without value is left out of the text that is sent. *)
Definition put_key (key : PricingKey) (v : option Scalar) (l : list (PricingKey * Scalar)) : list (PricingKey * Scalar) :=
  match v with Some v => assoc_set key v l | None => assoc_delete key l end.

(** The body of the loop over [dirty]. *)
Definition take_dirty (newValues pricing : PricingValues) (key : PricingKey) : PricingValues :=
  match key with
  | PK_plugin_billing_expr => {| prices := prices pricing; plugin_exprs := plugin_exprs newValues |}
  | _ => {| prices := put_key key (price_of newValues key) (assoc_delete key (prices pricing));
            plugin_exprs := plugin_exprs pricing |}
  end.

Definition changed_pricing (configured oldValues newValues : PricingValues) : PricingValues :=
  let pricing := fold_left (take_dirty newValues) (List.filter (is_dirty oldValues newValues) PRICING_KEYS) configured in
  if scalar_eqb (price_of newValues PK_billing_mode) (Some (SString (u "tiered_expr"))) then
    {| prices := put_key PK_billing_expr (price_of newValues PK_billing_expr)
                   (assoc_set PK_billing_mode (SString (u "tiered_expr")) (prices pricing));
       plugin_exprs := plugin_exprs pricing |}
  else pricing.

(** [new Map(entries.map(...)).get(name)]: the last entry of the name. *)
Definition entry_of (snapshot : ModelPricingConfig) (name : str) : option ModelPricingEntry :=
  List.find (fun entry => str_eqb (me_model_name entry) name) (rev (mc_entries snapshot)).

Definition change_of (snapshot : ModelPricingConfig) (previous next : PricingMap) (name : str)
  : option ModelPricingChange :=
  let oldValues := values_of previous name in
  let newValues := values_of next name in
  if existsb (is_dirty oldValues newValues) PRICING_KEYS then
    let entry := entry_of snapshot name in
    Some {| ch_model_name := name;
            ch_expected_version := default (mc_empty_version snapshot) (me_version <$> entry);
            ch_pricing := changed_pricing (default no_values (me_configured <$> entry)) oldValues newValues |}
  else None.

Definition buildPricingChanges (snapshot : ModelPricingConfig) (before after : PricingOptions)
  : outcome (list ModelPricingChange) :=
  previous ← pricingValuesByModel before;
  next ← pricingValuesByModel after;
  Ok (omap (change_of snapshot previous next)
        (fold_left (fun names name => set_add name names) (previous.*1 ++ next.*1) [])).

(** ** Examples: the tests of the source *)

(** JSON written with single quotes. *)
Definition quotes (s : string) : str := map (fun c => if N.eqb c apostrophe then quote_char else c) (u s).
Definition options_of (l : list (string * string)) : PricingOptions :=
  pricingOptions (map (fun '(k, t) => (u k, VString (quotes t))) l).
Definition ascii_upper (s : str) : str := map (fun c => if is_lower c then (c - 32)%N else c) s.

Example zero_prices_are_kept :
  pricingFromDraft {| dr_name := u "example"; dr_price := None; dr_ratio := Some (u "0"); dr_completionRatio := Some (u "2");
    dr_cacheRatio := Some (u "0"); dr_createCacheRatio := Some (u "1.25"); dr_imageRatio := None; dr_audioRatio := None;
    dr_audioCompletionRatio := None; dr_billingMode := Some M_per_token; dr_billingExpr := None;
    dr_requestRuleExpr := None; dr_pluginBillingExpr := None |} =
  Ok {| prices := [(PK_billing_mode, SString (u "ratio")); (PK_ModelRatio, SNumber zero);
                   (PK_CompletionRatio, SNumber (of_Z 2)); (PK_CacheRatio, SNumber zero);
                   (PK_CreateCacheRatio, SNumber (to_number (u "1.25")))];
        plugin_exprs := None |}.
Proof. vm_compute. reflexivity. Qed.

Example fixed_price_clears_the_rest :
  applyPriceSyncSelections ascii_upper
    (options_of [("ModelRatio", "{'example':1}"); ("CreateCacheRatio", "{'example':1.25}");
                 ("BillingMode", "{'example':'tiered_expr'}"); ("BillingExpr", "{'example':'tier(0)'}")]%string)
    [(u "example", [(u "model_price", SNumber zero)])] =
  Ok (options_of [("ModelPrice", "{'example':0}"); ("BillingMode", "{'example':'ratio'}")]%string).
Proof. vm_compute. reflexivity. Qed.

Example source_and_target_of_a_copy :
  (next ← applyPricingDraft (options_of [("PluginBillingExpr", "{'alpha::source':'1','beta::target':'2'}")]%string)
     {| dr_name := u "source"; dr_price := None; dr_ratio := None; dr_completionRatio := None; dr_cacheRatio := None;
        dr_createCacheRatio := None; dr_imageRatio := None; dr_audioRatio := None; dr_audioCompletionRatio := None;
        dr_billingMode := Some M_tiered_expr; dr_billingExpr := Some (u "tier('base', u('seconds'))");
        dr_requestRuleExpr := None; dr_pluginBillingExpr := Some [(u "alpha", u "3")] |} [u "source"; u "target"];
   Ok (option_text next PK_plugin_billing_expr)) =
  Ok (quotes "{'beta::target':'2','alpha::source':'3'}").
Proof. vm_compute. reflexivity. Qed.

Example saved_edit :
  let options := options_of [("ModelPrice", "{'edited':1}"); ("BillingMode", "{'builtin':'tiered_expr'}");
                             ("BillingExpr", "{'builtin':'tier(0)'}")]%string in
  let entry name version prices := {| me_model_name := u name; me_version := u version;
    me_configured := {| prices := prices; plugin_exprs := None |}; me_effective := no_values |} in
  (after ← applyPricingValues options {| prices := [(PK_ModelPrice, SNumber (of_Z 2)); (PK_billing_mode, SString (u "ratio"))];
                                         plugin_exprs := None |} [u "edited"];
   buildPricingChanges {| mc_entries := [entry "edited" "v1" [(PK_ModelPrice, SNumber one)]; entry "builtin" "empty" []];
                          mc_options := options; mc_empty_version := u "empty" |}%string options after) =
  Ok [{| ch_model_name := u "edited"; ch_expected_version := u "v1";
         ch_pricing := {| prices := [(PK_ModelPrice, SNumber (of_Z 2)); (PK_billing_mode, SString (u "ratio"))];
                          plugin_exprs := None |} |}].
Proof. vm_compute. reflexivity. Qed.
