(* ===== verification/OptionFacts.v ===== *)
(** * Editing, synchronising and saving stored prices

    What [PricingOptions] does to the prices of each model. *)

From Stdlib Require Import String.
From stdpp Require Import sets.
From S2P Require Import Prelude JsNumber JsString JsText Ast Request Json JsonFacts JsonText.
From S2P Require Import BillingExpr PricingModel PricingOptions.

#[local] Open Scope nat_scope.

(** ** Keys of provider prices *)

Lemma plugin_key_no_colon plugin : is_plugin_key plugin = true -> forall c, c ∈ plugin -> c <> 58%N.
Proof.
  intros H c Hc ->. destruct plugin as [|d rest]; [done|]. cbn [is_plugin_key] in H.
  apply andb_true_iff in H as [[Hd Hr]%andb_true_iff _]. apply elem_of_cons in Hc as [<- |Hc]; [by vm_compute in Hd|].
  rewrite forallb_forall in Hr. apply list_elem_of_In, Hr in Hc. by vm_compute in Hc.
Qed.

Lemma position_plugin plugin rest : (forall c, c ∈ plugin -> c <> 58%N) ->
  position_of (plugin ++ u "::" ++ rest) (u "::") = Some (length plugin).
Proof.
  induction plugin as [|c plugin IH]; intros H; [done|]. cbn [app position_of].
  assert (starts_with (c :: plugin ++ u "::" ++ rest) (u "::") = false) as ->.
  { destruct (starts_with _ _) eqn:E; [|done]. apply starts_with_app in E as [t [= E _]]. by destruct (H c ltac:(left)). }
  rewrite IH; [done|]. intros d Hd. apply H. by right.
Qed.

Definition plugin_ok (plugin name : str) : bool := is_plugin_key plugin && nonempty (trim name).

Lemma split_plugin_key plugin name : plugin_ok plugin name = true ->
  splitPluginBillingExprKey (plugin_key_of plugin name) = Some (plugin, name).
Proof.
  intros [Hp Hn]%andb_true_iff. unfold splitPluginBillingExprKey, plugin_key_of.
  rewrite position_plugin by by apply plugin_key_no_colon. destruct plugin as [|c plugin]; [done|].
  set (p := c :: plugin) in *. change (length p) with (S (length plugin)). cbv iota beta.
  change (S (length plugin)) with (length p). rewrite take_app_length, drop_app.
  rewrite (drop_ge p) by lia. cbn [app].
  replace (length p + 2 - length p) with 2 by lia. change (drop 2 (u "::" ++ name)) with name.
  by rewrite Hp, Hn.
Qed.

Lemma split_plugin_inv key plugin name : splitPluginBillingExprKey key = Some (plugin, name) ->
  key = plugin_key_of plugin name /\ plugin_ok plugin name = true.
Proof.
  unfold splitPluginBillingExprKey, plugin_ok. destruct (position_of key (u "::")) as [n|] eqn:E; [|done].
  destruct n as [|n]; [done|]. destruct (negb _ || negb _) eqn:Eo; [done|]. intros [= <- <-].
  apply orb_false_iff in Eo as [Hp%negb_false_iff Hn%negb_false_iff]. split; [|by apply andb_true_iff].
  unfold plugin_key_of. change (S (n + 2)) with (S n + 2). clear Hp Hn.
  revert E. generalize (S n). clear n. induction key as [|c key IH]; intros n; cbn [position_of]; [done|].
  destruct (starts_with (c :: key) (u "::")) eqn:Es.
  - intros [= <-]. apply starts_with_app in Es as [t Et]. rewrite Et. done.
  - destruct (position_of key (u "::")) as [k|] eqn:Ek; [|done]. intros [= <-]. cbn [take drop Nat.add app].
    f_equal. by apply IH.
Qed.

(** ** Where a price is stored *)

(** The entry of an option that holds a price of a model; for the last key, the
    price of a provider. *)
Definition slot (key : PricingKey) (name plugin : str) : option str :=
  match key with
  | PK_plugin_billing_expr => if plugin_ok plugin name then Some (plugin_key_of plugin name) else None
  | _ => Some name
  end.
(** The price a reader finds. *)
Definition expression_of_plugin (models : PricingMap) (name plugin : str) : option str :=
  assoc_get plugin (default [] (plugin_exprs (values_of models name))).
Definition cell_of (values : PricingValues) (key : PricingKey) (plugin : str) : option value :=
  match key with
  | PK_plugin_billing_expr => VString <$> assoc_get plugin (default [] (plugin_exprs values))
  | _ => scalar_value <$> price_of values key
  end.
Definition cell (models : PricingMap) (key : PricingKey) (name plugin : str) : option value :=
  cell_of (values_of models name) key plugin.

Lemma slot_plugin_inj name plugin name' plugin' s :
  slot PK_plugin_billing_expr name plugin = Some s -> slot PK_plugin_billing_expr name' plugin' = Some s ->
  name = name' /\ plugin = plugin'.
Proof.
  cbn. destruct (plugin_ok plugin name) eqn:E; [|done]. destruct (plugin_ok plugin' name') eqn:E'; [|done].
  intros [= <-] [= Hs]. apply split_plugin_key in E, E'. rewrite Hs, E in E'. by injection E' as -> ->.
Qed.

(** Entries that can be read. *)
Definition scalar_ok (v : value) : Prop := match v with VNumber _ | VString _ => json_ok v | _ => False end.
Definition entry_ok (key : PricingKey) (entry : str * value) : Prop :=
  Forall code_unit (fst entry) /\ scalar_ok (snd entry) /\
  match key with
  | PK_plugin_billing_expr => is_Some (splitPluginBillingExprKey (fst entry)) /\ exists s, snd entry = VString s
  | _ => True
  end.

(** A step over a case of [PricingKey]: the last key and the others. *)
Lemma key_cases key : key = PK_plugin_billing_expr \/ key <> PK_plugin_billing_expr.
Proof. destruct (decide (key = PK_plugin_billing_expr)); tauto. Qed.

Lemma add_price_entry key models name v : key <> PK_plugin_billing_expr -> scalar_ok v ->
  exists scalar, scalar_value scalar = v /\ add_entry key models (name, v) =
    Ok (assoc_set name {| prices := assoc_set key scalar (prices (values_of models name));
                          plugin_exprs := plugin_exprs (values_of models name) |} models).
Proof.
  intros Hk Hv. destruct v as [| | |x|s| |]; try done; [exists (SNumber x)|exists (SString s)];
    (split; [done|]); by destruct key.
Qed.
Lemma price_cell models key name plugin : key <> PK_plugin_billing_expr ->
  cell models key name plugin = scalar_value <$> price_of (values_of models name) key.
Proof. by destruct key. Qed.
Lemma price_slot key name plugin : key <> PK_plugin_billing_expr -> slot key name plugin = Some name.
Proof. by destruct key. Qed.

Lemma values_of_set models n values name :
  values_of (assoc_set n values models) name = if decide (n = name) then values else values_of models name.
Proof. unfold values_of. rewrite assoc_get_set. by case_decide. Qed.

(** An entry is read into its slot and nowhere else. *)
Lemma add_entry_cell key models s v : entry_ok key (s, v) ->
  exists models', add_entry key models (s, v) = Ok models' /\ forall key' name plugin,
    cell models' key' name plugin =
      if decide (key' = key /\ slot key name plugin = Some s) then Some v else cell models key' name plugin.
Proof.
  intros (Hs & Hv & Hp). cbn [fst snd] in *. destruct (key_cases key) as [-> |Hk].
  - destruct Hp as [[[p n] Hsp] [t ->]]. cbn [add_entry mbind result_bind]. rewrite Hsp. eexists. split; [reflexivity|].
    apply split_plugin_inv in Hsp as [-> Hok]. assert (slot PK_plugin_billing_expr n p = Some (plugin_key_of p n)) as Hslot.
    { cbn [slot]. by rewrite Hok. }
    intros key' name plugin. destruct (key_cases key') as [-> |Hk'].
    + unfold cell. cbn [cell_of]. rewrite values_of_set. case_decide as En; cbn [plugin_exprs from_option id].
      * subst n. rewrite assoc_get_set. case_decide as Ep; [subst; by rewrite decide_True|].
        rewrite decide_False; [done|]. intros [_ H]. by destruct (slot_plugin_inj _ _ _ _ _ Hslot H).
      * rewrite decide_False; [done|]. intros [_ H]. by destruct (slot_plugin_inj _ _ _ _ _ Hslot H).
    + rewrite decide_False by tauto. rewrite !price_cell, values_of_set by done. case_decide; [by subst|done].
  - destruct (add_price_entry key models s v Hk Hv) as (scalar & Ev & ->). eexists. split; [reflexivity|].
    intros key' name plugin. rewrite price_slot by done. destruct (key_cases key') as [-> |Hk'].
    + rewrite decide_False by naive_solver. unfold cell. cbn [cell_of]. rewrite values_of_set.
      case_decide; [by subst|done].
    + rewrite !price_cell, values_of_set by done. unfold price_of. case_decide as En; cbn [prices].
      * subst s. rewrite assoc_get_set. case_decide as Ek; [subst key'; rewrite decide_True by done; by rewrite <- Ev|].
        rewrite decide_False by naive_solver. done.
      * rewrite decide_False by naive_solver. done.
Qed.

Lemma add_entries_cell key fields : forall models, NoDup fields.*1 -> Forall (entry_ok key) fields ->
  exists models', fold_result (add_entry key) models fields = Ok models' /\ forall key' name plugin,
    cell models' key' name plugin =
      if decide (key' = key)
      then match (s ← slot key name plugin; assoc_get s fields) with Some v => Some v | None => cell models key' name plugin end
      else cell models key' name plugin.
Proof.
  induction fields as [|[s v] fields IH]; intros models Hnd Hok.
  { exists models. split; [done|]. intros. case_decide; [|done]. by destruct (slot _ _ _). }
  cbn [fmap list_fmap fst] in Hnd. apply list.NoDup_cons in Hnd as [Hs Hnd]. apply Forall_cons_iff in Hok as [H0 Hok].
  destruct (add_entry_cell key models s v H0) as (models1 & E1 & C1). cbn [fold_result]. rewrite E1. cbn [mbind result_bind].
  destruct (IH models1 Hnd Hok) as (models2 & -> & C2). exists models2. split; [done|]. intros key' name plugin.
  rewrite C2. case_decide as Ek; [|rewrite C1, decide_False by tauto; done]. subst key'. rewrite C1.
  destruct (slot key name plugin) as [t|]; cbn [mbind option_bind]; [|by rewrite decide_False by naive_solver].
  cbn [assoc_get]. destruct (decide (s = t)) as [-> |Hne].
  - apply assoc_get_None in Hs. by rewrite Hs, decide_True.
  - case_match; [done|]. rewrite decide_False by naive_solver. done.
Qed.

(** ** Options that can be read *)

Definition fields_ok (key : PricingKey) (fields : list (str * value)) : Prop :=
  NoDup fields.*1 /\ Forall (entry_ok key) fields.
Definition stored (options : PricingOptions) (key : PricingKey) : list (str * value) :=
  match json_parse (option_text options key) with Some (VObject fields) => fields | _ => [] end.
Definition options_ok (options : PricingOptions) : Prop := forall key,
  json_parse (option_text options key) = Some (VObject (stored options key)) /\ fields_ok key (stored options key).

Lemma fields_json_ok key fields : fields_ok key fields -> json_ok (VObject fields).
Proof.
  intros [Hnd Hok]. apply json_ok_fields. split; [done|]. eapply List.Forall_impl; [|exact Hok].
  intros [s v] (Hs & Hv & _). split; [done|]. cbn [snd] in *. by destruct v.
Qed.

(** What an option holds for a price. *)
Definition held (options : PricingOptions) (key : PricingKey) (name plugin : str) : option value :=
  s ← slot key name plugin; assoc_get s (stored options key).

Lemma add_options_cell options keys : forall models, options_ok options -> NoDup keys ->
  exists models', fold_result (add_option options) models keys = Ok models' /\ forall key name plugin,
    cell models' key name plugin =
      if decide (key ∈ keys)
      then match held options key name plugin with Some v => Some v | None => cell models key name plugin end
      else cell models key name plugin.
Proof.
  induction keys as [|k keys IH]; intros models Hok Hnd.
  { exists models. split; [done|]. intros. by rewrite decide_False by apply not_elem_of_nil. }
  apply list.NoDup_cons in Hnd as [Hk Hnd]. destruct (Hok k) as [Ep [Hf1 Hf2]].
  destruct (add_entries_cell k (stored options k) models Hf1 Hf2) as (models1 & E1 & C1).
  destruct (IH models1 Hok Hnd) as (models2 & E2 & C2). exists models2. split.
  { assert (add_option options models k = Ok models1) as Ek by (unfold add_option, parse_json; by rewrite Ep).
    cbn [fold_result]. by rewrite Ek. }
  intros key name plugin. rewrite C2, C1. destruct (decide (key = k)) as [-> |Hne].
  - rewrite decide_False by done. rewrite decide_True by left. done.
  - destruct (decide (key ∈ keys)); [rewrite decide_True by (by right)|rewrite decide_False by (rewrite elem_of_cons; tauto)]; done.
Qed.

Lemma all_keys key : key ∈ PRICING_KEYS.
Proof. destruct key; apply (proj1 (bool_decide_eq_true _)); reflexivity. Qed.
Lemma keys_distinct : NoDup PRICING_KEYS.
Proof. apply (proj1 (bool_decide_eq_true _)). reflexivity. Qed.

Lemma read_options options : options_ok options -> exists models, pricingValuesByModel options = Ok models /\
  forall key name plugin, cell models key name plugin = held options key name plugin.
Proof.
  intros Hok. destruct (add_options_cell options PRICING_KEYS [] Hok keys_distinct) as (models & E & C).
  exists models. split; [done|]. intros key name plugin. rewrite C, decide_True by apply all_keys.
  destruct (held _ _ _ _); [done|]. by destruct key.
Qed.

(** ** Applying values *)

(** The price an edit gives; [None]: it leaves what there is. *)
Definition edited (values : PricingValues) (key : PricingKey) (plugin : str) : option (option value) :=
  match key with
  | PK_plugin_billing_expr => (fun exprs => VString <$> assoc_get plugin exprs) <$> plugin_exprs values
  | _ => Some (scalar_value <$> price_of values key)
  end.

Definition exprs_ok (exprs : list (str * str)) (name : str) : Prop :=
  forall plugin e, (plugin, e) ∈ exprs -> Forall code_unit e /\ plugin_ok plugin name = true.
Definition values_ok (values : PricingValues) (names : list str) : Prop :=
  (forall key v, key <> PK_plugin_billing_expr -> price_of values key = Some v -> scalar_ok (scalar_value v)) /\
  Forall (Forall code_unit) names /\
  forall exprs, plugin_exprs values = Some exprs -> NoDup exprs.*1 /\ forall name, name ∈ names -> exprs_ok exprs name.

Lemma replace_price_fields key price fields name :
  key <> PK_plugin_billing_expr -> fields_ok key fields -> Forall code_unit name ->
  (forall v, price = Some v -> scalar_ok (scalar_value v)) ->
  exists fields', replace_price price (VObject fields) name = Ok (VObject fields') /\ fields_ok key fields' /\
    forall s, assoc_get s fields' = if decide (name = s) then scalar_value <$> price else assoc_get s fields.
Proof.
  intros Hk [Hnd Hf] Hn Hp. unfold replace_price. cbn [delete_property mbind result_bind].
  pose proof (assoc_delete_NoDup name fields Hnd) as Hnd'.
  pose proof (assoc_delete_Forall (entry_ok key) name fields Hf) as Hf'.
  destruct price as [v|]; cbn [define_property]; eexists; (split; [reflexivity|]).
  - split; [split; [by apply assoc_set_NoDup|apply assoc_set_Forall; [|done]]|].
    + split; [done|]. split; [by apply Hp|]. by destruct key.
    + intros s. rewrite assoc_get_set, assoc_get_delete. by case_decide.
  - split; [done|]. intros s. by rewrite assoc_get_delete.
Qed.

Lemma replace_prices_fields key price names : forall fields,
  key <> PK_plugin_billing_expr -> fields_ok key fields -> Forall (Forall code_unit) names ->
  (forall v, price = Some v -> scalar_ok (scalar_value v)) ->
  exists fields', fold_result (replace_price price) (VObject fields) names = Ok (VObject fields') /\ fields_ok key fields' /\
    forall s, assoc_get s fields' = if decide (s ∈ names) then scalar_value <$> price else assoc_get s fields.
Proof.
  induction names as [|n names IH]; intros fields Hk Hf Hn Hp.
  { exists fields. split; [done|]. split; [done|]. intros s. by rewrite decide_False by apply not_elem_of_nil. }
  apply Forall_cons_iff in Hn as [Hn0 Hn].
  destruct (replace_price_fields key price fields n Hk Hf Hn0 Hp) as (f1 & E1 & H1 & C1).
  destruct (IH f1 Hk H1 Hn Hp) as (f2 & E2 & H2 & C2). exists f2. cbn [fold_result]. rewrite E1. split; [done|]. split; [done|].
  intros s. rewrite C2, C1. destruct (decide (s ∈ names)); [by rewrite decide_True by (by right)|].
  destruct (decide (n = s)) as [-> |]; [by rewrite decide_True by left|]. rewrite decide_False; [done|]. rewrite elem_of_cons. naive_solver.
Qed.

(** *** The prices of providers *)

Abbreviation plugin_fields_ok := (fields_ok PK_plugin_billing_expr).
Definition model_of (variant : str) : option str := snd <$> splitPluginBillingExprKey variant.

Lemma model_of_slot name plugin s : slot PK_plugin_billing_expr name plugin = Some s -> model_of s = Some name.
Proof.
  cbn [slot]. destruct (plugin_ok plugin name) eqn:E; [|done]. intros [= <-]. unfold model_of. by rewrite (split_plugin_key _ _ E).
Qed.

Lemma delete_variants name keys : forall fields, plugin_fields_ok fields ->
  exists fields', fold_result (fun map variant => if bool_decide (model_of variant = Some name)
                                                  then delete_property map variant else Ok map) (VObject fields) keys =
    Ok (VObject fields') /\ plugin_fields_ok fields' /\
    forall s, assoc_get s fields' = if decide (s ∈ keys /\ model_of s = Some name) then None else assoc_get s fields.
Proof.
  induction keys as [|k keys IH]; intros fields Hf.
  { exists fields. split; [done|]. split; [done|]. intros s. rewrite decide_False; [done|]. intros [H _]. by apply not_elem_of_nil in H. }
  cbn [fold_result]. case_bool_decide as Ek; cbn [delete_property mbind result_bind].
  - destruct (IH (assoc_delete k fields)) as (f1 & E1 & H1 & C1).
    { destruct Hf. split; [by apply assoc_delete_NoDup|by apply assoc_delete_Forall]. }
    exists f1. split; [done|]. split; [done|]. intros s. rewrite C1, assoc_get_delete.
    destruct (decide (k = s)) as [-> |]; [rewrite (decide_True (P := s ∈ s :: keys /\ _)) by (by split; [left|]); by case_decide|].
    repeat case_decide; try done; rewrite elem_of_cons in *; naive_solver.
  - destruct (IH fields Hf) as (f1 & E1 & H1 & C1). exists f1. split; [done|]. split; [done|]. intros s. rewrite C1.
    repeat case_decide; try done; rewrite elem_of_cons in *; naive_solver.
Qed.

Lemma define_variants name exprs : forall fields, plugin_fields_ok fields -> NoDup exprs.*1 -> Forall code_unit name ->
  exprs_ok exprs name ->
  exists fields', fold_result (fun map '(plugin, expression) =>
      define_property map (plugin_key_of plugin name) (VString expression)) (VObject fields) exprs =
    Ok (VObject fields') /\ plugin_fields_ok fields' /\
    (forall s, model_of s <> Some name -> assoc_get s fields' = assoc_get s fields) /\
    forall plugin, assoc_get (plugin_key_of plugin name) fields' =
      match assoc_get plugin exprs with Some e => Some (VString e) | None => assoc_get (plugin_key_of plugin name) fields end.
Proof.
  induction exprs as [|[p e] exprs IH]; intros fields Hf Hnd Hn He; [by exists fields|].
  cbn [fmap list_fmap fst] in Hnd. apply list.NoDup_cons in Hnd as [Hp Hnd].
  destruct (He p e ltac:(left)) as [Hcu Hok]. pose proof (split_plugin_key p name Hok) as Hsp.
  assert (Forall code_unit p) as Hpu.
  { apply andb_true_iff in Hok as [Hok _]. apply List.Forall_forall. intros c Hc. destruct p as [|d p]; [done|].
    cbn [is_plugin_key] in Hok. apply andb_true_iff in Hok as [[Hd Hr]%andb_true_iff _]. rewrite forallb_forall in Hr.
    assert (is_plugin_char c = true) as Hpc.
    { destruct Hc as [-> |Hc]; [|by apply Hr]. unfold is_plugin_char. by rewrite Hd. }
    unfold is_plugin_char, is_plugin_start, is_lower, is_digit, in_range, minus_sign in Hpc. unfold code_unit.
    rewrite !orb_true_iff, !andb_true_iff, !N.leb_le, !N.eqb_eq in Hpc. lia. }
  cbn [fold_result define_property mbind result_bind].
  destruct (IH (assoc_set (plugin_key_of p name) (VString e) fields)) as (f1 & E1 & H1 & C1 & D1); [|done|done| |].
  { destruct Hf as [Hf1 Hf2]. split; [by apply assoc_set_NoDup|]. apply assoc_set_Forall; [|done]. split; [|split; [done|]].
    - cbn [fst]. unfold plugin_key_of. rewrite !List.Forall_app. split; [done|]. split; [|done]. by repeat constructor.
    - cbn [fst snd]. rewrite Hsp. eauto. }
  { intros p' e' H. apply He. by right. }
  exists f1. split; [done|]. split; [done|]. split.
  - intros s Hs. rewrite C1, assoc_get_set_ne; [done| |done]. intros <-. apply Hs. unfold model_of. by rewrite Hsp.
  - intros plugin. rewrite D1, assoc_get_set. cbn [assoc_get]. destruct (decide (p = plugin)) as [-> |Hne].
    + apply assoc_get_None in Hp. by rewrite Hp, decide_True.
    + rewrite decide_False; [done|]. unfold plugin_key_of. intros E. apply Hne. by apply app_inv_tail in E.
Qed.

Lemma replace_plugins_fields exprs fields name : plugin_fields_ok fields -> NoDup exprs.*1 -> Forall code_unit name ->
  exprs_ok exprs name ->
  exists fields', replace_plugins exprs (VObject fields) name = Ok (VObject fields') /\ plugin_fields_ok fields' /\
    forall name' plugin s, slot PK_plugin_billing_expr name' plugin = Some s ->
      assoc_get s fields' = if decide (name' = name) then VString <$> assoc_get plugin exprs else assoc_get s fields.
Proof.
  intros Hf Hnd Hn He. destruct (delete_variants name fields.*1 fields Hf) as (f1 & E1 & H1 & C1).
  destruct (define_variants name exprs f1 H1 Hnd Hn He) as (f2 & E2 & H2 & C2 & D2). exists f2.
  unfold replace_plugins. cbn [object_entries mbind result_bind]. setoid_rewrite E1. cbn [mbind result_bind]. split; [done|].
  split; [done|]. intros name' plugin s Hs. pose proof (model_of_slot _ _ _ Hs) as Hm. case_decide as En.
  - subst name'. assert (s = plugin_key_of plugin name) as ->. { cbn [slot] in Hs. by destruct (plugin_ok plugin name); simplify_eq. }
    rewrite D2. destruct (assoc_get plugin exprs); [done|]. rewrite C1. case_decide as Ed; [done|].
    apply assoc_get_None. tauto.
  - rewrite C2 by congruence. rewrite C1, decide_False; [done|]. intros [_ H]. congruence.
Qed.

Lemma replace_all_plugins exprs names : forall fields, plugin_fields_ok fields -> NoDup exprs.*1 ->
  Forall (Forall code_unit) names -> (forall name, name ∈ names -> exprs_ok exprs name) ->
  exists fields', fold_result (replace_plugins exprs) (VObject fields) names = Ok (VObject fields') /\
    plugin_fields_ok fields' /\
    forall name plugin s, slot PK_plugin_billing_expr name plugin = Some s ->
      assoc_get s fields' = if decide (name ∈ names) then VString <$> assoc_get plugin exprs else assoc_get s fields.
Proof.
  induction names as [|n names IH]; intros fields Hf Hnd Hn He.
  { exists fields. split; [done|]. split; [done|]. intros. by rewrite decide_False by apply not_elem_of_nil. }
  apply Forall_cons_iff in Hn as [Hn0 Hn].
  destruct (replace_plugins_fields exprs fields n Hf Hnd Hn0 (He n ltac:(left))) as (f1 & E1 & H1 & C1).
  destruct (IH f1 H1 Hnd Hn) as (f2 & E2 & H2 & C2); [intros m Hm; apply He; by right|].
  exists f2. cbn [fold_result]. rewrite E1. split; [done|]. split; [done|]. intros name plugin s Hs.
  rewrite (C2 _ _ _ Hs), (C1 _ _ _ Hs). destruct (decide (name ∈ names)); [by rewrite decide_True by (by right)|].
  destruct (decide (name = n)) as [-> |]; [by rewrite decide_True by left|]. rewrite decide_False; [done|]. rewrite elem_of_cons. tauto.
Qed.

(** *** All options *)

Lemma apply_key_fields values names key fields text : values_ok values names ->
  json_parse text = Some (VObject fields) -> fields_ok key fields ->
  exists fields', apply_key values names key text = Ok (stringify (VObject fields')) /\ fields_ok key fields' /\
    forall name plugin s, slot key name plugin = Some s -> assoc_get s fields' =
      match edited values key plugin with
      | Some v => if decide (name ∈ names) then v else assoc_get s fields
      | None => assoc_get s fields
      end.
Proof.
  intros (Hv & Hn & He) Ep Hf. unfold apply_key, parse_json. rewrite Ep. cbn [mbind result_bind].
  destruct (key_cases key) as [-> |Hk].
  - cbn [edited]. destruct (plugin_exprs values) as [exprs|]; [|by exists fields]. destruct (He exprs eq_refl) as [Hnd Hx].
    destruct (replace_all_plugins exprs names fields Hf Hnd Hn Hx) as (f1 & E1 & H1 & C1). exists f1. by rewrite E1.
  - destruct (replace_prices_fields key (price_of values key) names fields Hk Hf Hn (fun v => Hv key v Hk)) as (f1 & E1 & H1 & C1).
    exists f1. assert (edited values key = fun _ => Some (scalar_value <$> price_of values key)) as -> by by destruct key.
    split; [destruct key; try done; by rewrite E1|]. split; [done|]. intros name plugin s Hs.
    rewrite price_slot in Hs by done. injection Hs as <-. apply C1.
Qed.

Lemma map_result_keys f keys : (forall key, key ∈ keys -> exists text, f key = Ok text) ->
  exists texts : PricingOptions, map_result (fun key => text ← f key; Ok (key, text)) keys = (Ok texts : outcome _) /\
    forall key text, key ∈ keys -> f key = Ok text -> assoc_get key texts = Some text.
Proof.
  induction keys as [|k keys IH]; intros H.
  { exists []. split; [done|]. intros key text Hin. by apply not_elem_of_nil in Hin. }
  destruct (H k ltac:(left)) as [t Et]. destruct IH as (texts & E & G); [intros key Hk; apply H; by right|].
  exists ((k, t) :: texts). cbn [map_result]. rewrite Et. cbn [mbind result_bind]. rewrite E. split; [done|].
  intros key text Hin Ek. cbn [assoc_get]. case_decide as Ed; [subst; congruence|]. apply G; [|done].
  apply elem_of_cons in Hin as [-> |Hin]; [done|done].
Qed.

Lemma apply_values_held options values names : options_ok options -> values_ok values names ->
  exists next, applyPricingValues options values names = Ok next /\ options_ok next /\
    forall key name plugin, held next key name plugin =
      match edited values key plugin with
      | Some v => if decide (name ∈ names /\ slot key name plugin <> None) then v else held options key name plugin
      | None => held options key name plugin
      end.
Proof.
  intros Hok Hv. set (f key := apply_key values names key (option_text options key)).
  assert (forall key, exists fields', f key = Ok (stringify (VObject fields')) /\ fields_ok key fields' /\
    forall name plugin s, slot key name plugin = Some s -> assoc_get s fields' =
      match edited values key plugin with
      | Some v => if decide (name ∈ names) then v else assoc_get s (stored options key)
      | None => assoc_get s (stored options key) end) as H.
  { intros key. destruct (Hok key) as [Ep Hf]. by apply apply_key_fields. }
  destruct (map_result_keys f PRICING_KEYS) as (next & En & Hn).
  { intros key _. destruct (H key) as (f' & E & _). eauto. }
  exists next. split; [exact En|].
  assert (forall key fields', f key = Ok (stringify (VObject fields')) -> fields_ok key fields' ->
    json_parse (option_text next key) = Some (VObject fields')) as Hp.
  { intros key f' E Hf'. unfold option_text. rewrite (Hn key _ (all_keys key) E). cbn [default].
    apply json_parse_text. by eapply fields_json_ok. }
  split.
  - intros key. destruct (H key) as (f' & E & Hf' & _). unfold stored. rewrite (Hp key f' E Hf'). done.
  - intros key name plugin. destruct (H key) as (f' & E & Hf' & C). unfold held, stored at 1. rewrite (Hp key f' E Hf').
    destruct (slot key name plugin) as [s|] eqn:Es; cbn [mbind option_bind].
    + rewrite (C _ _ _ Es). destruct (edited values key plugin); [|done]. repeat case_decide; naive_solver.
    + destruct (edited values key plugin); [|done]. rewrite decide_False; [done|]. naive_solver.
Qed.

(** ** What an edit does to each model *)

Lemma scalar_value_inj (a b : option Scalar) : scalar_value <$> a = scalar_value <$> b -> a = b.
Proof. destruct a as [[]|], b as [[]|]; cbn; intros; by simplify_eq. Qed.
Lemma string_value_inj (a b : option str) : VString <$> a = VString <$> b -> a = b.
Proof. destruct a, b; cbn; intros; by simplify_eq. Qed.

(** [after] is [before] with the prices [values] for the models [names]; their
    providers change for the models [owners]. *)
Definition edits (values : PricingValues) (names owners : list str) (before after : PricingMap) : Prop := forall name,
  (forall key, key <> PK_plugin_billing_expr ->
     price_of (values_of after name) key =
     price_of (if decide (name ∈ names) then values else values_of before name) key) /\
  forall plugin, expression_of_plugin after name plugin =
    match plugin_exprs values with
    | Some exprs => if decide (name ∈ owners) then assoc_get plugin exprs else expression_of_plugin before name plugin
    | None => expression_of_plugin before name plugin
    end.

(** The same of the stored options. *)
Definition held_edits (values : PricingValues) (names owners : list str) (options next : PricingOptions) : Prop :=
  forall key name plugin, held next key name plugin =
    match edited values key plugin with
    | Some v => if decide (name ∈ (if decide (key = PK_plugin_billing_expr) then owners else names)) then v
                else held options key name plugin
    | None => held options key name plugin
    end.

Lemma slot_of_expr values names exprs name plugin e : values_ok values names -> plugin_exprs values = Some exprs ->
  name ∈ names -> assoc_get plugin exprs = Some e -> slot PK_plugin_billing_expr name plugin <> None.
Proof.
  intros (_ & _ & H) Ex Hn He. destruct (H exprs Ex) as [_ Hx]. apply assoc_get_In in He.
  destruct (Hx name Hn plugin e He) as [_ Hok]. cbn [slot]. by rewrite Hok.
Qed.

Lemma apply_values_edits options values names : options_ok options -> values_ok values names ->
  exists next, applyPricingValues options values names = Ok next /\ options_ok next /\ held_edits values names names options next.
Proof.
  intros Hok Hv. destruct (apply_values_held options values names Hok Hv) as (next & E & Hok' & C).
  exists next. split; [done|]. split; [done|]. intros key name plugin. rewrite C.
  replace (if decide (key = PK_plugin_billing_expr) then names else names) with names by by case_decide.
  destruct (edited values key plugin) as [v|] eqn:Ed; [|done]. destruct (decide (name ∈ names)) as [Hn|Hn];
    [|by rewrite decide_False by tauto].
  destruct (slot key name plugin) as [s|] eqn:Es; [by rewrite decide_True by done|]. rewrite decide_False by tauto.
  unfold held. rewrite Es. cbn [mbind option_bind]. destruct (key_cases key) as [-> |Hk]; [|by rewrite price_slot in Es].
  cbn [edited] in Ed. destruct (plugin_exprs values) as [exprs|] eqn:Ex; [|done]. injection Ed as <-.
  destruct (assoc_get plugin exprs) as [e|] eqn:Eg; [|done]. by destruct (slot_of_expr values names exprs name plugin e Hv Ex Hn Eg).
Qed.

Lemma held_edits_read values names owners options next : options_ok options -> options_ok next ->
  held_edits values names owners options next ->
  exists before after, pricingValuesByModel options = Ok before /\ pricingValuesByModel next = Ok after /\
    edits values names owners before after.
Proof.
  intros Hok Hok' H. destruct (read_options options Hok) as (before & Eb & Cb). destruct (read_options next Hok') as (after & Ea & Ca).
  exists before, after. split; [done|]. split; [done|]. intros name. split.
  - intros key Hk. apply scalar_value_inj. specialize (H key name []). rewrite <- Ca, <- Cb, !price_cell in H by done.
    rewrite H, decide_False by done. replace (edited values key []) with (Some (scalar_value <$> price_of values key)) by by destruct key.
    by destruct (decide (name ∈ names)).
  - intros plugin. apply string_value_inj. specialize (H PK_plugin_billing_expr name plugin). rewrite <- Ca, <- Cb in H.
    unfold cell in H. cbn [cell_of edited] in H. unfold expression_of_plugin. rewrite H, decide_True by done. destruct (plugin_exprs values); cbn [fmap option_fmap option_map]; [|done].
    by destruct (decide (name ∈ owners)).
Qed.

(** The models that get the provider prices of a draft. *)
Definition owners_of (data : ModelRatioData) (names : list str) : list str := List.filter (str_eqb (dr_name data)) names.

Lemma draft_held_edits options data names values :
  options_ok options -> pricingFromDraft data = Ok values -> values_ok values [dr_name data] ->
  Forall (Forall code_unit) names ->
  exists next, applyPricingDraft options data names = Ok next /\ options_ok next /\
    held_edits values names (owners_of data names) options next.
Proof.
  intros Hok Ev Hv Hn. set (owners := owners_of data names).
  assert (forall name, name ∈ owners <-> name ∈ names /\ name = dr_name data) as Howners.
  { intros name. unfold owners, owners_of. rewrite !list_elem_of_In, filter_In, str_eqb_eq. intuition congruence. }
  unfold applyPricingDraft. rewrite Ev. cbn [mbind result_bind]. case_bool_decide as En.
  { subst names. destruct (apply_values_edits options values _ Hok Hv) as (next & E & Hok' & H). exists next. split; [done|].
    split; [done|]. intros key name plugin. rewrite H. destruct (edited values key plugin); [|done].
    destruct (decide (key = PK_plugin_billing_expr)); [|done]. specialize (Howners name). rewrite list_elem_of_singleton in Howners.
    repeat case_decide; try done; rewrite list_elem_of_singleton in *; naive_solver. }
  set (copied := {| prices := prices values; plugin_exprs := None |}).
  assert (values_ok copied names) as Hc by (destruct Hv as (Hv & _); by split; [exact Hv|]).
  destruct (apply_values_edits options copied names Hok Hc) as (mid & E1 & Hok1 & H1). rewrite E1. cbn [mbind result_bind].
  assert (forall key plugin, edited copied key plugin =
    if decide (key = PK_plugin_billing_expr) then None else edited values key plugin) as Hed by by intros [].
  case_bool_decide as Hin.
  - destruct (apply_values_edits mid values _ Hok1 Hv) as (next & E2 & Hok2 & H2). exists next. split; [done|]. split; [done|].
    intros key name plugin. rewrite H2, H1, Hed. destruct (edited values key plugin); [|by case_decide].
    specialize (Howners name). repeat case_decide; try done; rewrite list_elem_of_singleton in *; naive_solver.
  - exists mid. split; [done|]. split; [done|]. intros key name plugin. rewrite H1, Hed.
    destruct (edited values key plugin); [|by case_decide]. specialize (Howners name). repeat case_decide; naive_solver.
Qed.

(** C9: applying the draft of a model to a list of models succeeds, keeps the options
    readable, and gives exactly these models the prices of the draft; the provider
    prices of the draft go to the model itself only, and no other price of any model
    changes. *)
Theorem draft_edits_the_named_models options data names values :
  options_ok options -> pricingFromDraft data = Ok values -> values_ok values [dr_name data] ->
  Forall (Forall code_unit) names ->
  exists next before after, applyPricingDraft options data names = Ok next /\ options_ok next /\
    pricingValuesByModel options = Ok before /\ pricingValuesByModel next = Ok after /\
    edits values names (owners_of data names) before after.
Proof.
  intros Hok Ev Hv Hn. destruct (draft_held_edits options data names values Hok Ev Hv Hn) as (next & E & Hok' & H).
  destruct (held_edits_read _ _ _ options next Hok Hok' H) as (before & after & H'). by exists next, before, after.
Qed.

(** ** Checking options *)

Definition unitsb (s : str) : bool := forallb (fun c => N.ltb c 65536) s.
Definition entry_okb (key : PricingKey) (entry : str * value) : bool :=
  unitsb (fst entry) &&
  match snd entry with VNumber x => json_number_ok x | VString s => unitsb s | _ => false end &&
  match key, splitPluginBillingExprKey (fst entry), snd entry with
  | PK_plugin_billing_expr, Some _, VString _ => true
  | PK_plugin_billing_expr, _, _ => false
  | _, _, _ => true
  end.
Definition options_okb (options : PricingOptions) : bool :=
  forallb (fun key => match json_parse (option_text options key) with
                      | Some (VObject fields) => bool_decide (NoDup fields.*1) && forallb (entry_okb key) fields
                      | _ => false
                      end) PRICING_KEYS.

Lemma unitsb_spec s : unitsb s = true -> Forall code_unit s.
Proof. unfold unitsb. rewrite forallb_forall, List.Forall_forall. intros H c Hc. by apply N.ltb_lt, H. Qed.

Lemma entry_okb_spec key entry : entry_okb key entry = true -> entry_ok key entry.
Proof.
  destruct entry as [s v]. unfold entry_okb, entry_ok. cbn [fst snd]. intros [[H1 H2]%andb_true_iff H3]%andb_true_iff.
  split; [by apply unitsb_spec|]. split; [destruct v; try done; by apply unitsb_spec|].
  destruct key; try done. destruct (splitPluginBillingExprKey s) as [p|]; [|done]. destruct v; try done. by split; eexists.
Qed.

Lemma options_okb_spec options : options_okb options = true -> options_ok options.
Proof.
  intros H key. unfold options_okb in H. rewrite forallb_forall in H. specialize (H key (proj1 (list_elem_of_In _ _) (all_keys key))).
  unfold stored. destruct (json_parse (option_text options key)) as [[| | | | | |fields]|]; try done.
  apply andb_true_iff in H as [Hnd%bool_decide_eq_true Hf]. split; [done|]. split; [done|]. apply List.Forall_forall. intros entry Hin.
  rewrite forallb_forall in Hf. by apply entry_okb_spec, Hf.
Qed.

Definition values_okb (values : PricingValues) (names : list str) : bool :=
  forallb (fun p => match snd p with SNumber x => json_number_ok x | SString s => unitsb s end) (prices values) &&
  forallb unitsb names &&
  match plugin_exprs values with
  | Some exprs => bool_decide (NoDup exprs.*1) &&
      forallb (fun '(plugin, e) => unitsb e && forallb (plugin_ok plugin) names) exprs
  | None => true
  end.
Lemma values_okb_spec values names : values_okb values names = true -> values_ok values names.
Proof.
  intros [[H1 H2]%andb_true_iff H3]%andb_true_iff. rewrite forallb_forall in H1, H2. split; [|split].
  - intros key v _ E. apply assoc_get_In, list_elem_of_In, H1 in E. cbn [snd] in E. destruct v; [done|by apply unitsb_spec].
  - apply List.Forall_forall. intros name Hn. by apply unitsb_spec, H2.
  - intros exprs Ex. rewrite Ex in H3. apply andb_true_iff in H3 as [Hnd%bool_decide_eq_true Hx]. split; [done|].
    intros name Hn plugin e Hin. rewrite forallb_forall in Hx. apply list_elem_of_In, Hx in Hin. apply andb_true_iff in Hin as [He Hp].
    split; [by apply unitsb_spec|]. rewrite forallb_forall in Hp. by apply Hp, list_elem_of_In.
Qed.

Definition sample_options : PricingOptions :=
  options_of [("ModelPrice", "{'kept':0.5,'edited':1}"); ("ModelRatio", "{'edited':2.5,'copy':1}");
              ("BillingMode", "{'builtin':'tiered_expr'}"); ("BillingExpr", "{'builtin':'tier(0)'}");
              ("PluginBillingExpr", "{'alpha::edited':'1','beta::copy':'2'}")]%string.
Definition sample_draft : ModelRatioData :=
  {| dr_name := u "edited"; dr_price := Some (u "2"); dr_ratio := Some (u "7"); dr_completionRatio := None; dr_cacheRatio := None;
     dr_createCacheRatio := None; dr_imageRatio := None; dr_audioRatio := None; dr_audioCompletionRatio := None;
     dr_billingMode := Some M_per_request; dr_billingExpr := None; dr_requestRuleExpr := None;
     dr_pluginBillingExpr := Some [(u "gamma", u "3")] |}.
Definition sample_names : list str := [u "edited"; u "copy"].
Definition sample_values : PricingValues :=
  {| prices := [(PK_billing_mode, SString (u "ratio")); (PK_ModelPrice, SNumber (of_Z 2))];
     plugin_exprs := Some [(u "gamma", u "3")] |}.

Lemma draft_edits_the_named_models_witness :
  options_okb sample_options = true /\ pricingFromDraft sample_draft = Ok sample_values /\
  exists next before after, applyPricingDraft sample_options sample_draft sample_names = Ok next /\ options_ok next /\
    pricingValuesByModel sample_options = Ok before /\ pricingValuesByModel next = Ok after /\
    edits sample_values sample_names (owners_of sample_draft sample_names) before after.
Proof.
  assert (options_okb sample_options = true) as H1 by (vm_compute; reflexivity).
  assert (pricingFromDraft sample_draft = Ok sample_values) as H2 by (vm_compute; reflexivity).
  assert (values_okb sample_values [dr_name sample_draft] = true) as H3 by (vm_compute; reflexivity).
  assert (Forall (Forall code_unit) sample_names) as H4 by (repeat constructor; by vm_compute).
  split; [exact H1|]. split; [exact H2|].
  exact (draft_edits_the_named_models sample_options sample_draft sample_names sample_values
           (options_okb_spec _ H1) H2 (values_okb_spec _ _ H3) H4).
Defined.
