(* ===== verification/SaveFacts.v ===== *)
(** * What is saved of an edit

    [buildPricingChanges] sends the models whose prices differ, with the new prices. *)

From Stdlib Require Import String.
From stdpp Require Import sets.
From S2P Require Import Prelude JsNumber JsString JsText Ast Compile Request Json JsonFacts JsonText.
From S2P Require Import PricingModel PricingOptions OptionFacts.

#[local] Open Scope nat_scope.

(** ** Equal prices *)

Lemma canonical_exponents m e n f : valid (Finite false m e) = true -> valid (Finite false n f) = true -> (e < f)%Z ->
  (m < n * 2 ^ (f - e))%Z.
Proof.
  cbn [valid]. intros Hm Hn Hlt. rewrite !andb_true_iff, !orb_true_iff, !Z.leb_le, Z.eqb_eq, Z.ltb_lt in *.
  assert (2 <= 2 ^ (f - e))%Z by (change 2%Z with (2 ^ 1)%Z at 1; apply Z.pow_le_mono_r; lia).
  assert (2 ^ 52 <= n)%Z by lia. assert (m < 2 ^ 53)%Z by lia. change (2 ^ 53)%Z with (2 ^ 52 * 2)%Z in *. nia.
Qed.

Lemma num_eqb_canonical x y : json_number_ok x = true -> json_number_ok y = true -> num_eqb x y = true -> x = y.
Proof.
  destruct x as [|s|s m e], y as [|t|t n f]; try done. unfold json_number_ok, num_eqb, num_compare.
  intros [Hx Hs]%andb_true_iff [Hy Ht]%andb_true_iff.
  change (valid (Finite s m e)) with (valid (Finite false m e)) in Hx. change (valid (Finite t n f)) with (valid (Finite false n f)) in Hy.
  pose proof (valid_nonneg _ _ _ Hx) as Hm. pose proof (valid_nonneg _ _ _ Hy) as Hn. destruct (_ ?= _)%Z eqn:E; try done. intros _.
  apply Z.compare_eq in E.
  apply (f_equal Z.abs) in E as Ea. rewrite !Z.abs_mul in Ea.
  assert (Z.abs (signed s m) = m) as Em by (unfold signed; destruct s; lia).
  assert (Z.abs (signed t n) = n) as En by (unfold signed; destruct t; lia).
  rewrite Em, En, !(Z.abs_eq (2 ^ _)) in Ea by (apply Z.pow_nonneg; lia).
  destruct (Z.lt_trichotomy e f) as [Hlt|[-> |Hlt]].
  - pose proof (canonical_exponents m e n f Hx Hy Hlt). rewrite (Z.min_l e f) in Ea by lia. rewrite Z.sub_diag in Ea. lia.
  - rewrite Z.min_id, Z.sub_diag in E. unfold signed in E. destruct s, t; try (f_equal; lia);
      assert (m = 0%Z /\ n = 0%Z) as [-> ->] by lia; done.
  - pose proof (canonical_exponents n f m e Hy Hx Hlt). rewrite (Z.min_r e f) in Ea by lia. rewrite Z.sub_diag in Ea. lia.
Qed.

Definition price_fine (p : option Scalar) : Prop := forall v, p = Some v -> scalar_ok (scalar_value v).

Lemma scalar_eqb_spec a b : price_fine a -> price_fine b -> scalar_eqb a b = true <-> a = b.
Proof.
  intros Ha Hb. destruct a as [[x|s]|], b as [[y|t]|]; cbn [scalar_eqb]; try by split.
  - pose proof (Ha _ eq_refl) as Hx. pose proof (Hb _ eq_refl) as Hy. cbn in Hx, Hy. split.
    + intros E. by rewrite (num_eqb_canonical x y Hx Hy E).
    + intros [= ->]. apply num_eqb_refl. by destruct y.
  - rewrite str_eqb_eq. split; [by intros ->|by intros [= ->]].
Qed.

Lemma length_of_keys {V W} (l : list (str * V)) (r : list (str * W)) : NoDup l.*1 -> NoDup r.*1 ->
  (forall p, p ∈ l.*1 <-> p ∈ r.*1) -> length l = length r.
Proof.
  intros Hl Hr H. rewrite <- (length_fmap fst l), <- (length_fmap fst r). apply Permutation_length.
  by apply NoDup_Permutation.
Qed.

Lemma expressions_equal_spec (l r : list (str * str)) : NoDup l.*1 -> NoDup r.*1 ->
  pluginExpressionsEqual l r = true <-> forall plugin, assoc_get plugin l = assoc_get plugin r.
Proof.
  intros Hl Hr. unfold pluginExpressionsEqual. rewrite andb_true_iff, Nat.eqb_eq, forallb_forall. split.
  - intros [Hlen H] plugin. destruct (assoc_get plugin l) as [e|] eqn:E.
    + specialize (H plugin). rewrite andb_true_iff, !bool_decide_eq_true in H. rewrite <- E. apply H.
      apply list_elem_of_In, list_elem_of_fmap. exists (plugin, e). split; [done|by apply assoc_get_In].
    + symmetry. apply assoc_get_None. intros Hin. apply assoc_get_None in E. apply E.
      assert (incl r.*1 l.*1) as Hincl.
      { apply NoDup_length_incl; [by apply NoDup_ListNoDup|by rewrite !length_fmap, Hlen|].
        intros p Hp. specialize (H p Hp). rewrite andb_true_iff, !bool_decide_eq_true in H. destruct H as [H _].
        destruct (assoc_get p r) as [e|] eqn:Er; [|done]. apply list_elem_of_In, list_elem_of_fmap. exists (p, e).
        split; [done|by apply assoc_get_In]. }
      by apply list_elem_of_In, Hincl, list_elem_of_In.
  - intros H. assert (forall p, p ∈ l.*1 <-> p ∈ r.*1) as Hk.
    { intros p. pose proof (assoc_get_None p l) as Hpl. pose proof (assoc_get_None p r) as Hpr. rewrite H in Hpl.
      destruct (decide (p ∈ l.*1)), (decide (p ∈ r.*1)); tauto. }
    split; [by apply length_of_keys|]. intros p Hp. apply list_elem_of_In in Hp. rewrite andb_true_iff, !bool_decide_eq_true.
    split; [|by apply H]. intros E. apply assoc_get_None in E. by apply E, Hk.
Qed.

(** ** Values that are read *)

Definition values_fine (values : PricingValues) : Prop :=
  (forall key, key <> PK_plugin_billing_expr -> price_fine (price_of values key)) /\ NoDup (default [] (plugin_exprs values)).*1.

Lemma add_entry_NoDup key models entry models' : add_entry key models entry = Ok models' ->
  (forall name, NoDup (default [] (plugin_exprs (values_of models name))).*1) ->
  forall name, NoDup (default [] (plugin_exprs (values_of models' name))).*1.
Proof.
  intros E H name. destruct entry as [s v]. unfold add_entry in E.
  destruct (match v with VNumber x => Ok (SNumber x) | VString s => Ok (SString s) | _ => Throw invalid_value end) as [scalar|]; [|done].
  cbn [mbind result_bind] in E. destruct (key_cases key) as [-> |Hk].
  - destruct (splitPluginBillingExprKey s) as [[p n]|]; [|done]. destruct scalar; [done|]. injection E as <-.
    rewrite values_of_set. case_decide; [|apply H]. cbn [plugin_exprs from_option id]. by apply assoc_set_NoDup.
  - assert (models' = assoc_set s {| prices := assoc_set key scalar (prices (values_of models s));
                                     plugin_exprs := plugin_exprs (values_of models s) |} models) as ->
      by (destruct key; by simplify_eq).
    rewrite values_of_set. case_decide; [|apply H]. apply H.
Qed.

Lemma read_invariant (P : PricingMap -> Prop) options models : P [] ->
  (forall key m entry m', add_entry key m entry = Ok m' -> P m -> P m') -> pricingValuesByModel options = Ok models -> P models.
Proof.
  intros H0 H E. refine (fold_result_invariant P _ _ _ _ _ E H0). intros m key m' Em. unfold add_option in Em.
  destruct (parse_json _) as [[]|]; try done. cbn in Em. refine (fold_result_invariant P _ _ _ _ _ Em). intros a b a'. apply H.
Qed.

Lemma read_values_fine options models name : options_ok options -> pricingValuesByModel options = Ok models ->
  values_fine (values_of models name).
Proof.
  intros Hok E. split.
  - intros key Hk v Ev. destruct (read_options options Hok) as (models' & E' & C). rewrite E in E'. injection E' as <-.
    specialize (C key name []). rewrite price_cell, Ev in C by done. unfold held in C. rewrite price_slot in C by done.
    cbn in C. symmetry in C. apply assoc_get_In in C. destruct (Hok key) as [_ [_ Hf]]. rewrite List.Forall_forall in Hf.
    apply list_elem_of_In, Hf in C. by destruct C as (_ & C & _).
  - revert name. refine (read_invariant (fun m => forall n, NoDup (default [] (plugin_exprs (values_of m n))).*1) _ _ _ _ E).
    + intros n. apply NoDup_nil_2.
    + intros key m entry m' Em Hm. by eapply add_entry_NoDup.
Qed.

(** ** Dirty prices *)

(** The price is the same, that of every provider for the last key. *)
Definition same_price (oldValues newValues : PricingValues) (key : PricingKey) : Prop :=
  forall plugin, cell_of oldValues key plugin = cell_of newValues key plugin.

Lemma dirty_spec oldValues newValues key : values_fine oldValues -> values_fine newValues ->
  is_dirty oldValues newValues key = false <-> same_price oldValues newValues key.
Proof.
  intros [Hp1 Hn1] [Hp2 Hn2]. unfold same_price. destruct (key_cases key) as [-> |Hk].
  - cbn [is_dirty cell_of]. rewrite negb_false_iff, expressions_equal_spec by done. split; [by intros H plugin; rewrite H|].
    intros H plugin. apply string_value_inj, H.
  - replace (is_dirty oldValues newValues key) with (negb (scalar_eqb (price_of oldValues key) (price_of newValues key))) by by destruct key.
    replace (cell_of oldValues key) with (fun _ : str => scalar_value <$> price_of oldValues key) by by destruct key.
    replace (cell_of newValues key) with (fun _ : str => scalar_value <$> price_of newValues key) by by destruct key.
    rewrite negb_false_iff, scalar_eqb_spec by auto. split; [by intros ->|]. intros H. apply scalar_value_inj, (H []).
Qed.

(** ** The price that is sent *)

Lemma price_of_put key key' v l plugins :
  price_of {| prices := put_key key v l; plugin_exprs := plugins |} key' =
  if decide (key = key') then v else assoc_get key' l.
Proof. unfold price_of, put_key. cbn [prices]. destruct v; [apply assoc_get_set|apply assoc_get_delete]. Qed.

Lemma take_dirty_cell newValues pricing k key plugin :
  cell_of (take_dirty newValues pricing k) key plugin =
  if decide (k = key) then cell_of newValues key plugin else cell_of pricing key plugin.
Proof.
  destruct (key_cases k) as [-> |Hk].
  - cbn [take_dirty]. case_decide as E; [by subst|]. by destruct key.
  - replace (take_dirty newValues pricing k) with
      {| prices := put_key k (price_of newValues k) (assoc_delete k (prices pricing)); plugin_exprs := plugin_exprs pricing |}
      by by destruct k.
    destruct (key_cases key) as [-> |Hkey]; [by rewrite decide_False|].
    assert (forall values, cell_of values key plugin = scalar_value <$> price_of values key) as Hc by (intros; by destruct key).
    rewrite !Hc, price_of_put, assoc_get_delete. repeat case_decide; by subst.
Qed.

Lemma take_all_dirty newValues keys : forall pricing key plugin,
  cell_of (fold_left (take_dirty newValues) keys pricing) key plugin =
  if decide (key ∈ keys) then cell_of newValues key plugin else cell_of pricing key plugin.
Proof.
  induction keys as [|k keys IH]; intros pricing key plugin; cbn [fold_left].
  { by rewrite decide_False by apply not_elem_of_nil. }
  rewrite IH, take_dirty_cell. destruct (decide (key ∈ keys)); [by rewrite decide_True by by right|].
  destruct (decide (k = key)) as [-> |]; [by rewrite decide_True by left|]. rewrite decide_False; [done|].
  rewrite elem_of_cons. naive_solver.
Qed.

Definition is_tiered (values : PricingValues) : bool :=
  scalar_eqb (price_of values PK_billing_mode) (Some (SString (u "tiered_expr"))).

(** A tiered price is sent with its mode and its expression. *)
Definition sent_with_tiers (newValues : PricingValues) (key : PricingKey) : bool :=
  is_tiered newValues && bool_decide (key ∈ [PK_billing_mode; PK_billing_expr]).

Lemma changed_cell configured oldValues newValues key plugin :
  cell_of (changed_pricing configured oldValues newValues) key plugin =
  if is_dirty oldValues newValues key || sent_with_tiers newValues key
  then cell_of newValues key plugin else cell_of configured key plugin.
Proof.
  unfold changed_pricing, sent_with_tiers. fold (is_tiered newValues).
  set (pricing := fold_left _ _ configured).
  assert (cell_of pricing key plugin = if is_dirty oldValues newValues key then cell_of newValues key plugin
                                       else cell_of configured key plugin) as Hp.
  { unfold pricing. rewrite take_all_dirty. case_decide as H; rewrite list_elem_of_In, filter_In, <- list_elem_of_In in H.
    - destruct H as [_ ->]. done.
    - destruct (is_dirty oldValues newValues key); [|done]. destruct H. split; [apply all_keys|done]. }
  destruct (is_tiered newValues) eqn:Et; [|by rewrite orb_false_r]. cbn [andb].
  assert (price_of newValues PK_billing_mode = Some (SString (u "tiered_expr"))) as Hm.
  { unfold is_tiered in Et. destruct (price_of newValues PK_billing_mode) as [[]|]; try done. cbn [scalar_eqb] in Et.
    apply str_eqb_eq in Et. by subst. }
  destruct (key_cases key) as [-> |Hk]; [by rewrite bool_decide_eq_false_2, orb_false_r by (rewrite !elem_of_cons; set_solver)|].
  assert (forall values, cell_of values key plugin = scalar_value <$> price_of values key) as Hc by (intros; by destruct key).
  rewrite Hc in Hp |- *. rewrite !Hc in *. rewrite price_of_put, assoc_get_set.
  destruct (decide (PK_billing_expr = key)) as [<- |]; [by rewrite orb_true_r|].
  destruct (decide (PK_billing_mode = key)) as [<- |]; [by rewrite orb_true_r, Hm|].
  rewrite bool_decide_eq_false_2, orb_false_r; [done|]. rewrite !elem_of_cons. intros [?|[?|?%not_elem_of_nil]]; congruence.
Qed.

(** ** The changes *)

Lemma values_of_absent models name : name ∉ models.*1 -> values_of models name = no_values.
Proof. intros H%assoc_get_None. unfold values_of. by rewrite H. Qed.

Lemma change_of_spec snapshot before after name :
  values_fine (values_of before name) -> values_fine (values_of after name) ->
  match change_of snapshot before after name with
  | Some change => ch_model_name change = name /\
      ~ (forall key, same_price (values_of before name) (values_of after name) key)
  | None => forall key, same_price (values_of before name) (values_of after name) key
  end.
Proof.
  intros Hb Ha. unfold change_of. destruct (existsb _ _) eqn:E.
  - split; [done|]. intros H. apply existsb_exists in E as (key & _ & E). specialize (H key). apply dirty_spec in H; [|done..]. congruence.
  - intros key. apply dirty_spec; [done..|]. destruct (is_dirty _ _ key) eqn:Ek; [|done]. rewrite <- E. symmetry.
    apply existsb_exists. exists key. split; [apply list_elem_of_In, all_keys|done].
Qed.

Lemma omap_names snapshot before after names : (forall name, values_fine (values_of before name)) ->
  (forall name, values_fine (values_of after name)) -> NoDup names ->
  NoDup (ch_model_name <$> omap (change_of snapshot before after) names) /\
  forall name, name ∈ (ch_model_name <$> omap (change_of snapshot before after) names) <->
    name ∈ names /\ ~ (forall key, same_price (values_of before name) (values_of after name) key).
Proof.
  intros Hb Ha. induction names as [|n names IH]; intros Hnd.
  { split; [apply NoDup_nil_2|]. intros name. rewrite !elem_of_nil. tauto. }
  apply list.NoDup_cons in Hnd as [Hn Hnd]. destruct (IH Hnd) as [IH1 IH2].
  pose proof (change_of_spec snapshot before after n (Hb n) (Ha n)) as Hc. cbn [omap list_omap].
  destruct (change_of snapshot before after n) as [change|].
  - destruct Hc as [Ec Hc]. cbn [fmap list_fmap]. rewrite Ec. split.
    + apply list.NoDup_cons. split; [|done]. intros H%IH2. tauto.
    + intros name. rewrite !elem_of_cons, IH2. split; [intros [-> |[? ?]]; tauto|]. intros [[-> |?] ?]; tauto.
  - split; [done|]. intros name. rewrite IH2, elem_of_cons. split; [tauto|]. intros [[-> |?] ?]; tauto.
Qed.

Lemma saved_changes snapshot options next before after : options_ok options -> options_ok next ->
  pricingValuesByModel options = Ok before -> pricingValuesByModel next = Ok after ->
  exists changes, buildPricingChanges snapshot options next = Ok changes /\ NoDup (ch_model_name <$> changes) /\
    (forall name, name ∈ (ch_model_name <$> changes) <->
       ~ (forall key, same_price (values_of before name) (values_of after name) key)) /\
    forall change, change ∈ changes -> ch_pricing change =
      changed_pricing (default no_values (me_configured <$> entry_of snapshot (ch_model_name change)))
        (values_of before (ch_model_name change)) (values_of after (ch_model_name change)).
Proof.
  intros Hok Hok' Eb Ea. unfold buildPricingChanges. rewrite Eb, Ea. cbn [mbind result_bind].
  set (names := fold_left _ _ []). eexists. split; [reflexivity|].
  assert (NoDup names) as Hnd by by apply fold_set_add_NoDup, NoDup_nil_2.
  destruct (omap_names snapshot before after names) as [H1 H2]; [intros; by apply (read_values_fine options)|intros; by apply (read_values_fine next)|done|].
  split; [done|]. split.
  - intros name. rewrite H2. split; [tauto|]. intros H. split; [|done]. unfold names. rewrite fold_set_add_elem.
    right. apply elem_of_app. destruct (decide (name ∈ before.*1)); [by left|]. destruct (decide (name ∈ after.*1)); [by right|].
    destruct H. intros key plugin. by rewrite !values_of_absent.
  - intros change (name & _ & E)%list_elem_of_omap. unfold change_of in E. destruct (existsb _ _); [|done]. by injection E as <-.
Qed.

(** C10: a draft that is applied and saved: the changes that are sent are those of named
    models whose prices differ, one for each.  Of such a model, prices that change
    are sent as the draft leaves them, and prices that do not change are sent as
    they are configured, with one exception ([sent_with_tiers]): a model whose
    billing mode is tiered is always sent with the mode and the expression the
    options show, whatever is configured.  Where the configuration is what the
    options show, the prices that are sent are those of the draft. *)
Theorem saved_draft_reaches_only_its_models snapshot options data names values :
  options_ok options -> pricingFromDraft data = Ok values -> values_ok values [dr_name data] ->
  Forall (Forall code_unit) names ->
  exists next changes before after, applyPricingDraft options data names = Ok next /\
    pricingValuesByModel options = Ok before /\ pricingValuesByModel next = Ok after /\
    buildPricingChanges snapshot options next = Ok changes /\ NoDup (ch_model_name <$> changes) /\
    (forall name, name ∈ (ch_model_name <$> changes) <->
       ~ (forall key, same_price (values_of before name) (values_of after name) key)) /\
    forall change, change ∈ changes ->
      let name := ch_model_name change in
      let configured := default no_values (me_configured <$> entry_of snapshot name) in
      name ∈ names /\
      (forall key, same_price (values_of before name) (values_of after name) key ->
         sent_with_tiers (values_of after name) key = false -> same_price configured (ch_pricing change) key) /\
      (forall key, ~ same_price (values_of before name) (values_of after name) key \/
                   sent_with_tiers (values_of after name) key = true ->
         same_price (values_of after name) (ch_pricing change) key) /\
      ((forall key, same_price configured (values_of before name) key) -> forall key, key <> PK_plugin_billing_expr ->
         price_of (ch_pricing change) key = price_of values key).
Proof.
  intros Hok Ev Hv Hn. destruct (draft_held_edits options data names values Hok Ev Hv Hn) as (next & E & Hok' & H).
  destruct (held_edits_read _ _ _ options next Hok Hok' H) as (before & after & Eb & Ea & Hed).
  destruct (saved_changes snapshot options next before after Hok Hok' Eb Ea) as (changes & Ec & Hnd & Hnames & Hp).
  exists next, changes, before, after. split_and!; [done..|]. intros change Hin name configured.
  assert (~ forall key, same_price (values_of before name) (values_of after name) key) as Hd.
  { apply Hnames, list_elem_of_fmap. eauto. }
  pose proof (fun key => dirty_spec _ _ key (read_values_fine options before name Hok Eb) (read_values_fine next after name Hok' Ea)) as Hs.
  assert (name ∈ names) as Hname.
  { destruct (decide (name ∈ names)) as [|Hno]; [done|]. destruct Hd. intros key plugin. destruct (Hed name) as [Hed1 Hed2].
    rewrite decide_False in Hed1 by done. destruct (key_cases key) as [-> |Hk].
    - cbn [cell_of]. f_equal. specialize (Hed2 plugin). unfold expression_of_plugin in Hed2. rewrite Hed2.
      destruct (plugin_exprs values); [|done]. rewrite decide_False; [done|]. unfold owners_of.
      rewrite list_elem_of_In, filter_In, <- list_elem_of_In. tauto.
    - change (cell before key name plugin = cell after key name plugin). by rewrite !price_cell, Hed1. }
  specialize (Hp change Hin). fold name configured in Hp. split; [done|]. split; [|split].
  - intros key Hkey Ht plugin. apply Hs in Hkey. by rewrite Hp, changed_cell, Hkey, Ht.
  - intros key Hkey plugin. rewrite Hp, changed_cell. destruct (is_dirty _ _ key) eqn:Edirty; [done|].
    apply Hs in Edirty. by destruct Hkey as [Hkey| ->].
  - intros Hc key Hk. apply scalar_value_inj. destruct (Hed name) as [Hed1 _]. specialize (Hed1 key Hk). rewrite decide_True in Hed1 by done.
    assert (forall v, cell_of v key [] = scalar_value <$> price_of v key) as Hcell by (intros; by destruct key).
    rewrite <- !Hcell, Hp, changed_cell, !Hcell, <- Hed1. destruct (is_dirty _ _ key) eqn:Edirty; [done|]. cbn [orb].
    apply Hs in Edirty. specialize (Edirty []). specialize (Hc key []). rewrite !Hcell in Edirty, Hc. rewrite Hc, Edirty.
    by destruct (sent_with_tiers _ _).
Qed.

Definition sample_snapshot : ModelPricingConfig :=
  {| mc_entries := [{| me_model_name := u "edited"; me_version := u "v1";
       me_configured := {| prices := [(PK_ModelPrice, SNumber one); (PK_ModelRatio, SNumber (to_number (u "2.5")))];
                           plugin_exprs := Some [(u "alpha", u "1")] |};
       me_effective := no_values |}];
     mc_options := sample_options; mc_empty_version := u "empty" |}.

Lemma saved_draft_reaches_only_its_models_witness :
  options_okb sample_options = true /\ pricingFromDraft sample_draft = Ok sample_values /\
  exists next changes before after, applyPricingDraft sample_options sample_draft sample_names = Ok next /\
    pricingValuesByModel sample_options = Ok before /\ pricingValuesByModel next = Ok after /\
    buildPricingChanges sample_snapshot sample_options next = Ok changes /\ NoDup (ch_model_name <$> changes).
Proof.
  assert (options_okb sample_options = true) as H1 by (vm_compute; reflexivity).
  assert (pricingFromDraft sample_draft = Ok sample_values) as H2 by (vm_compute; reflexivity).
  assert (values_okb sample_values [dr_name sample_draft] = true) as H3 by (vm_compute; reflexivity).
  assert (Forall (Forall code_unit) sample_names) as H4 by (repeat constructor; by vm_compute).
  split; [exact H1|]. split; [exact H2|].
  destruct (saved_draft_reaches_only_its_models sample_snapshot sample_options sample_draft sample_names sample_values
              (options_okb_spec _ H1) H2 (values_okb_spec _ _ H3) H4)
    as (next & changes & before & after & E1 & E2 & E3 & E4 & Hnd & _).
  exists next, changes, before, after. split_and!; assumption.
Defined.

(** The exception happens: the ratio of a model with a built-in expression is
    edited, nothing is configured for the model, and the expression that is only
    shown is sent with the ratio. *)
Definition built_in_options (ratio : string) : PricingOptions :=
  options_of [("CacheRatio", ratio); ("BillingMode", "{'builtin':'tiered_expr'}"); ("BillingExpr", "{'builtin':'tier(0)'}")]%string.

Example shown_expression_is_sent :
  match buildPricingChanges sample_snapshot (built_in_options "{}") (built_in_options "{'builtin':2}") with
  | Ok changes => map (fun change => (ch_model_name change, prices (ch_pricing change))) changes =
      [(u "builtin", [(PK_CacheRatio, SNumber (of_Z 2)); (PK_billing_mode, SString (u "tiered_expr"));
                      (PK_billing_expr, SString (u "tier(0)"))])]
  | Throw _ => False
  end.
Proof. vm_compute. reflexivity. Qed.
