(* ===== verification/SyncFacts.v ===== *)
(** * Drafts and synchronised prices

    The row of a model read back as a draft, what a draft may hold, and the prices an
    upstream selection leaves. *)

From Stdlib Require Import String.
From stdpp Require Import sets.
From S2P Require Import Prelude JsNumber JsString JsText Ast Compile Request Json JsonFacts JsonText.
From S2P Require Import BillingExpr PricingModel PricingOptions OptionFacts SaveFacts.

#[local] Open Scope nat_scope.

(** ** Drafts *)

Definition field_valid (text : option str) : bool :=
  match text with
  | None | Some [] => true
  | Some t => num_is_finite (to_number t) && negb (num_ltb (to_number t) zero)
  end.

Lemma draft_field_ok data acc entry : field_valid (fst entry data) = true ->
  draft_field data acc entry = Ok match fst entry data with
    | None | Some [] => acc
    | Some t => if kept_in_mode (dr_billingMode data) (snd entry)
                then assoc_set (snd entry) (SNumber (to_number t)) acc else acc
    end.
Proof.
  unfold field_valid, draft_field. destruct (fst entry data) as [[|c t]|]; [done| |done].
  intros [-> H%negb_true_iff]%andb_true_iff. by rewrite H.
Qed.
Lemma draft_field_invalid data acc entry : field_valid (fst entry data) = false ->
  draft_field data acc entry = Throw invalid_price.
Proof.
  unfold field_valid, draft_field. destruct (fst entry data) as [[|c t]|]; [done| |done]. intros H.
  apply andb_false_iff in H as [-> |H%negb_false_iff]; [done|]. by rewrite H, orb_true_r.
Qed.

Lemma draft_fields_invalid data l : forall acc, forallb (fun entry => field_valid (fst entry data)) l = false ->
  fold_result (draft_field data) acc l = Throw invalid_price.
Proof.
  induction l as [|entry l IH]; intros acc; [done|]. cbn [forallb fold_result].
  destruct (field_valid (fst entry data)) eqn:E; [|by rewrite (draft_field_invalid data acc entry E)].
  rewrite (draft_field_ok data acc entry E). cbn [andb mbind result_bind]. apply IH.
Qed.

(** The prices a draft gives to a key. *)
Definition draft_price (data : ModelRatioData) (text : option str) (key : PricingKey) : option Scalar :=
  match text with
  | None | Some [] => None
  | Some t => if kept_in_mode (dr_billingMode data) key then Some (SNumber (to_number t)) else None
  end.

Lemma draft_fields data l : forall acc, forallb (fun entry => field_valid (fst entry data)) l = true -> NoDup l.*2 ->
  exists values, fold_result (draft_field data) acc l = Ok values /\
    (forall key, key ∉ l.*2 -> assoc_get key values = assoc_get key acc) /\
    forall field key, (field, key) ∈ l -> assoc_get key values =
      match draft_price data (field data) key with Some v => Some v | None => assoc_get key acc end.
Proof.
  induction l as [|[f k] l IH]; intros acc Hv Hnd.
  { exists acc. split; [done|]. split; [done|]. intros field key H. by apply not_elem_of_nil in H. }
  cbn [forallb fst] in Hv. apply andb_true_iff in Hv as [H0 Hv]. cbn [fmap list_fmap snd] in Hnd.
  apply list.NoDup_cons in Hnd as [Hk Hnd]. cbn [fold_result]. rewrite (draft_field_ok data acc (f, k) H0). cbn [mbind result_bind fst snd].
  set (acc1 := match f data with Some [] => acc | Some _ => _ | None => acc end).
  assert (forall key, assoc_get key acc1 =
    if decide (k = key) then match draft_price data (f data) key with Some v => Some v | None => assoc_get key acc end
    else assoc_get key acc) as H1.
  { intros key. unfold acc1, draft_price. destruct (f data) as [[|c t]|]; [by case_decide| |by case_decide].
    destruct (decide (k = key)) as [-> |Hne]; destruct (kept_in_mode _ _); rewrite ?assoc_get_set_eq; try done.
    by rewrite assoc_get_set_ne. }
  destruct (IH acc1 Hv Hnd) as (values & E & Hout & Hin). exists values. split; [exact E|]. split.
  - intros key Hkey. cbn [fmap list_fmap snd] in Hkey. rewrite not_elem_of_cons in Hkey. destruct Hkey as [Hne Hkey].
    rewrite (Hout key Hkey), H1, decide_False; [done|congruence].
  - intros field key [[= -> ->]|H]%elem_of_cons.
    + rewrite (Hout k Hk), H1. by rewrite decide_True.
    + rewrite (Hin field key H), H1, decide_False; [done|]. intros ->. apply Hk, list_elem_of_fmap. by exists (field, key).
Qed.

Definition draft_valid (data : ModelRatioData) : bool := forallb (fun entry => field_valid (fst entry data)) pricingFieldMap.

Definition draft_tiered (data : ModelRatioData) : bool := bool_decide (dr_billingMode data = Some M_tiered_expr).

Lemma draft_spec data :
  match pricingFromDraft data with
  | Ok values => draft_valid data = true /\ plugin_exprs values = dr_pluginBillingExpr data /\
      (forall field key, (field, key) ∈ pricingFieldMap -> price_of values key = draft_price data (field data) key) /\
      price_of values PK_billing_mode = Some (SString (if draft_tiered data then u "tiered_expr" else u "ratio")) /\
      price_of values PK_billing_expr =
        (if draft_tiered data
         then Some (SString (combineBillingExpr (default [] (dr_billingExpr data)) (default [] (dr_requestRuleExpr data))))
         else None)
  | Throw e => draft_valid data = false /\ e = invalid_price
  end.
Proof.
  unfold pricingFromDraft. fold (draft_tiered data). set (mode := [(PK_billing_mode, _)]). destruct (draft_valid data) eqn:E;
    [|by rewrite (draft_fields_invalid data pricingFieldMap mode E)].
  destruct (draft_fields data pricingFieldMap mode E) as (values & -> & Hout & Hin).
  { apply (proj1 (bool_decide_eq_true _)). reflexivity. }
  assert (forall key, key ∈ [PK_billing_mode; PK_billing_expr] -> key ∉ pricingFieldMap.*2) as Hkeys.
  { intros key Hk H. rewrite !elem_of_cons in Hk. destruct Hk as [-> |[-> |Hk%not_elem_of_nil]]; [..|done];
      revert H; apply (proj1 (bool_decide_eq_true _)); reflexivity. }
  assert (assoc_get PK_billing_mode values = assoc_get PK_billing_mode mode) as Hm by (apply Hout, Hkeys; left).
  assert (assoc_get PK_billing_expr values = None) as He by (apply Hout, Hkeys; right; left).
  cbn [mbind result_bind]. split; [done|]. split; [done|]. unfold price_of. cbn [prices]. split.
  - intros field key H. assert (key ∈ pricingFieldMap.*2) as Hkey by (apply list_elem_of_fmap; by exists (field, key)).
    assert (key <> PK_billing_mode) as Hne1 by (intros ->; by apply (Hkeys PK_billing_mode ltac:(left))).
    assert (key <> PK_billing_expr) as Hne2 by (intros ->; by apply (Hkeys PK_billing_expr ltac:(right; left))).
    replace (assoc_get key (if draft_tiered data then _ else values)) with (assoc_get key values)
      by (destruct (draft_tiered data); by rewrite ?assoc_get_set_ne).
    rewrite (Hin field key H). destruct (draft_price _ _ _); [done|]. unfold mode. cbn [assoc_get]. by rewrite decide_False.
  - destruct (draft_tiered data); [|done]. by rewrite assoc_get_set_ne, assoc_get_set_eq.
Qed.

(** C35: a draft is accepted exactly when every price in it, used by its mode or not, is
    empty or a finite number that is not negative; it then gives the prices of its
    mode, and otherwise it is refused with the message of the editor. *)
Theorem drafts_are_validated data :
  match pricingFromDraft data with
  | Ok values => draft_valid data = true /\ plugin_exprs values = dr_pluginBillingExpr data /\
      forall field key, (field, key) ∈ pricingFieldMap -> price_of values key = draft_price data (field data) key
  | Throw e => draft_valid data = false /\ e = invalid_price
  end.
Proof. pose proof (draft_spec data) as H. destruct (pricingFromDraft data); tauto. Qed.

(** ** The row of a model *)

Lemma read_object fields : json_ok (VObject fields) -> read_map (stringify (VObject fields)) = VObject fields.
Proof.
  intros Hok. assert (trim (stringify (VObject fields)) = stringify (VObject fields)) as Ht.
  { apply (trimmed_ends _ 123%N 125%N); [done..|]. right. eexists. reflexivity. }
  unfold read_map, safeJsonParse. cbn [from_option id]. rewrite Ht, (json_parse_text _ Hok). done.
Qed.

(** The text of a price in a row. *)
Definition price_text (p : option Scalar) : str := match p with Some v => to_string (scalar_value v) | None => [] end.

Lemma row_option_text name values key : key <> PK_plugin_billing_expr ->
  option_text (row_options name values) key =
  stringify (VObject match price_of values key with None => [] | Some v => [(name, scalar_value v)] end).
Proof. by destruct key. Qed.
Lemma row_option_fields name values key : key <> PK_plugin_billing_expr -> Forall code_unit name -> price_fine (price_of values key) ->
  read_map (option_text (row_options name values) key) =
  VObject match price_of values key with None => [] | Some v => [(name, scalar_value v)] end.
Proof.
  intros Hk Hn Hp. rewrite row_option_text by done. apply read_object, json_ok_fields.
  destruct (price_of values key) as [v|]; [|split; [apply NoDup_nil_2|by apply List.Forall_nil]].
  split; [by apply list.NoDup_singleton|]. constructor; [|by constructor]. split; [done|].
  specialize (Hp v eq_refl). cbn [snd]. by destruct v.
Qed.

Section row.
Variables (name : str) (values : PricingValues).
Hypothesis name_ok : Forall code_unit name.
Hypothesis prices_fine : forall key, price_fine (price_of values key).
Hypothesis no_plugins : plugin_exprs values = None.

Abbreviation text key := (option_text (row_options name values) key).

Lemma row_member key : key <> PK_plugin_billing_expr ->
  member (read_map (text key)) name = Ok (default VUndefined (scalar_value <$> price_of values key)).
Proof.
  intros Hk. rewrite row_option_fields by done. unfold member. cbn [object_entries mbind result_bind].
  destruct (price_of values key); [|done]. cbn [assoc_get]. by rewrite decide_True.
Qed.
Lemma row_member_text key : key <> PK_plugin_billing_expr ->
  member_text (read_map (text key)) name = Ok (price_text (price_of values key)).
Proof. intros Hk. unfold member_text. rewrite row_member by done. by destruct (price_of values key) as [[]|]. Qed.
Lemma row_keys key : key <> PK_plugin_billing_expr ->
  (entries ← object_entries (read_map (text key)); Ok (entries.*1)) =
  (Ok (match price_of values key with None => [] | Some _ => [name] end) : outcome (list str)).
Proof. intros Hk. rewrite row_option_fields by done. by destruct (price_of values key). Qed.

(** The input the row is built from. *)
Definition row_input : ModelPricingSnapshotInput :=
  {| in_modelPrice := text PK_ModelPrice; in_videoGenerationPrice := None; in_modelRatio := text PK_ModelRatio;
     in_cacheRatio := text PK_CacheRatio; in_createCacheRatio := text PK_CreateCacheRatio;
     in_completionRatio := text PK_CompletionRatio; in_imageRatio := text PK_ImageRatio; in_audioRatio := text PK_AudioRatio;
     in_audioCompletionRatio := text PK_AudioCompletionRatio; in_billingMode := text PK_billing_mode;
     in_billingExpr := text PK_billing_expr; in_pluginBillingExpr := Some (text PK_plugin_billing_expr) |}.

(** The expression the row reads. *)
Definition row_expression : outcome str :=
  match price_of values PK_billing_expr with
  | Some (SString s) => Ok s
  | Some (SNumber x) => if num_truthy x then Throw type_error else Ok []
  | None => Ok []
  end.
(** How the row shows the mode and the expression. *)
Definition row_mode : outcome (PricingMode * option str * option str * bool) :=
  let price := price_text (price_of values PK_ModelPrice) in
  if is_tiered values then
    full ← row_expression;
    '(pure, rules) ← splitBillingExprAndRequestRules full;
    Ok (M_tiered_expr, Some pure, Some rules, false)
  else Ok (if nonempty price then M_per_request else M_per_token, None, None,
           nonempty price && existsb (fun key => nonempty (price_text (price_of values key)))
             [PK_ModelRatio; PK_CompletionRatio; PK_CacheRatio; PK_CreateCacheRatio; PK_ImageRatio; PK_AudioRatio; PK_AudioCompletionRatio]).

Lemma snapshot_row_eq : snapshot_row row_input [] name =
  ('(mode, expr, rules, conflict) ← row_mode;
   Ok {| sn_name := name; sn_pluginBillingExpr := None;
         sn_price := Some (price_text (price_of values PK_ModelPrice));
         sn_ratio := Some (price_text (price_of values PK_ModelRatio));
         sn_cacheRatio := Some (price_text (price_of values PK_CacheRatio));
         sn_createCacheRatio := Some (price_text (price_of values PK_CreateCacheRatio));
         sn_completionRatio := Some (price_text (price_of values PK_CompletionRatio));
         sn_imageRatio := Some (price_text (price_of values PK_ImageRatio));
         sn_audioRatio := Some (price_text (price_of values PK_AudioRatio));
         sn_audioCompletionRatio := Some (price_text (price_of values PK_AudioCompletionRatio));
         sn_billingMode := Some mode; sn_billingExpr := expr; sn_requestRuleExpr := rules;
         sn_videoPrices := None; sn_hasConflict := conflict |}).
Proof.
  unfold snapshot_row, row_input.
  cbn [in_modelPrice in_videoGenerationPrice in_modelRatio in_cacheRatio in_createCacheRatio in_completionRatio in_imageRatio
       in_audioRatio in_audioCompletionRatio in_billingMode in_billingExpr].
  assert (video_prices (read_map (default (u "{}") None)) name = Ok []) as -> by done.
  rewrite !row_member_text by done. cbn [mbind result_bind]. rewrite !row_member by done. cbn [mbind result_bind].
  unfold row_mode, row_expression, is_tiered. destruct (price_of values PK_billing_mode) as [[x|s]|]; cbn [fmap option_fmap option_map from_option id scalar_value scalar_eqb].
  - done.
  - destruct (str_eqb s (u "tiered_expr")); [|done]. cbn [mbind result_bind].
    destruct (price_of values PK_billing_expr) as [[x|e]|]; cbn [fmap option_fmap option_map from_option id scalar_value truthy]; done.
  - done.
Qed.

Hypothesis some_price : exists key v, key <> PK_plugin_billing_expr /\ price_of values key = Some v.

Lemma row_names : fold_left (fun names name => set_add name names)
    (concat (map (fun key => match price_of values key with None => [] | Some _ => [name] end)
      [PK_ModelPrice; PK_ModelRatio; PK_CacheRatio; PK_CreateCacheRatio; PK_CompletionRatio; PK_ImageRatio; PK_AudioRatio;
       PK_AudioCompletionRatio; PK_billing_mode; PK_billing_expr])) [] = [name].
Proof.
  set (keys := [PK_ModelPrice; _; _; _; _; _; _; _; _; _]).
  set (l := concat _). assert (forall x, x ∈ l -> x = name) as Hl.
  { intros x. unfold l. rewrite list_elem_of_In, in_concat. intros (y & (key & <- & _)%in_map_iff & Hx).
    destruct (price_of values key); [|done]. by destruct Hx as [<- |[]]. }
  assert (name ∈ l) as Hin.
  { destruct some_price as (key & v & Hk & Ev). unfold l. rewrite list_elem_of_In, in_concat. exists [name].
    split; [|by left]. apply in_map_iff. exists key. rewrite Ev. split; [done|]. destruct key; try done; cbn; tauto. }
  pose proof (fold_set_add_NoDup l [] ltac:(apply NoDup_nil_2)) as Hnd. pose proof (fold_set_add_elem l []) as He.
  destruct (fold_left _ l []) as [|a [|b r]].
  - destruct (He name) as [_ H]. exfalso. eapply not_elem_of_nil, H. by right.
  - f_equal. apply Hl. destruct (proj1 (He a) ltac:(left)) as [H|H]; [by apply not_elem_of_nil in H|done].
  - exfalso. apply list.NoDup_cons in Hnd as [Ha _]. apply Ha. assert (a = b) as ->; [|left].
    assert (forall x, x ∈ a :: b :: r -> x = name) as Hx.
    { intros x Hx. apply He in Hx as [Hx|Hx]; [by apply not_elem_of_nil in Hx|by apply Hl]. }
    rewrite (Hx a ltac:(left)), (Hx b ltac:(right; left)). done.
Qed.

Lemma pricingRow_eq : pricingRow name values =
  ('(mode, expr, rules, conflict) ← row_mode;
   Ok {| dr_name := name;
         dr_price := Some (price_text (price_of values PK_ModelPrice));
         dr_ratio := Some (price_text (price_of values PK_ModelRatio));
         dr_completionRatio := Some (price_text (price_of values PK_CompletionRatio));
         dr_cacheRatio := Some (price_text (price_of values PK_CacheRatio));
         dr_createCacheRatio := Some (price_text (price_of values PK_CreateCacheRatio));
         dr_imageRatio := Some (price_text (price_of values PK_ImageRatio));
         dr_audioRatio := Some (price_text (price_of values PK_AudioRatio));
         dr_audioCompletionRatio := Some (price_text (price_of values PK_AudioCompletionRatio));
         dr_billingMode := Some mode; dr_billingExpr := expr; dr_requestRuleExpr := rules;
         dr_pluginBillingExpr := None |}).
Proof.
  assert (pricingRows (row_options name values) = (row ← snapshot_row row_input [] name; Ok [row])) as E.
  { unfold pricingRows, buildModelSnapshots. fold row_input. cbn [in_pluginBillingExpr row_input from_option id].
    assert (text PK_plugin_billing_expr = u "{}") as ->.
    { change (text PK_plugin_billing_expr) with (stringify (VObject (from_entries
        (map (fun '(plugin, expression) => (plugin_key_of plugin name, VString expression)) (default [] (plugin_exprs values)))))).
      by rewrite no_plugins. }
    assert (object_entries (read_map (u "{}")) = Ok []) as -> by done. cbn [mbind result_bind fold_left].
    cbn [in_modelPrice in_videoGenerationPrice in_modelRatio in_cacheRatio in_createCacheRatio in_completionRatio in_imageRatio
         in_audioRatio in_audioCompletionRatio in_billingMode in_billingExpr row_input from_option].
    cbn [map_result]. rewrite !row_keys by done. cbn [mbind result_bind].
    assert (object_entries (read_map (u "{}")) = Ok []) as -> by done. cbn [mbind result_bind].
    pose proof row_names as Hn. cbn [map concat app fmap list_fmap] in Hn |- *. rewrite Hn. done. }
  unfold pricingRow. rewrite E, snapshot_row_eq. unfold row_mode. destruct (is_tiered values).
  - destruct row_expression as [full|]; [|done]. cbn [mbind result_bind].
    destruct (splitBillingExprAndRequestRules full) as [[pure rules]|]; [|done]. cbn [mbind result_bind List.find sn_name].
    by rewrite (proj2 (str_eqb_eq name name) eq_refl), no_plugins.
  - cbn [mbind result_bind List.find sn_name]. rewrite (proj2 (str_eqb_eq name name) eq_refl), no_plugins.
    destruct (nonempty (price_text (price_of values PK_ModelPrice))) eqn:En;
      cbn [mbind option_bind sn_price sn_billingMode hasPricingValue]; by rewrite En.
Qed.
End row.

(** ** Selections of an upstream *)

(** The field of an upstream for each price. *)
Definition PRICE_FIELDS : list (str * PricingKey) :=
  [(u "model_price", PK_ModelPrice); (u "model_ratio", PK_ModelRatio); (u "completion_ratio", PK_CompletionRatio);
   (u "cache_ratio", PK_CacheRatio); (u "create_cache_ratio", PK_CreateCacheRatio); (u "image_ratio", PK_ImageRatio);
   (u "audio_ratio", PK_AudioRatio); (u "audio_completion_ratio", PK_AudioCompletionRatio)].

Lemma field_by_name field key field' key' : (field, key) ∈ PRICE_FIELDS -> (field', key') ∈ PRICE_FIELDS ->
  field = field' <-> key = key'.
Proof.
  intros H H'. assert (NoDup PRICE_FIELDS.*1 /\ NoDup PRICE_FIELDS.*2) as [H1 H2].
  { split; apply (proj1 (bool_decide_eq_true _)); reflexivity. }
  split; intros E.
  - by injection (NoDup_fmap_elem fst _ _ _ H1 H H' E).
  - by injection (NoDup_fmap_elem snd _ _ _ H2 H H' E).
Qed.

Definition known_field (field : str) : Prop :=
  field ∈ PRICE_FIELDS.*1 \/ field = u "billing_mode" \/ field = u "billing_expr".

Section selection.
Variable toUpperCase : str -> str.
(** Letters of ASCII. *)
Hypothesis upper_ascii : forall c, is_lower c = true -> toUpperCase [c] = [(c - 32)%N].

(** The price an entry of the selection may set. *)
Definition taken (fixed : bool) (key : PricingKey) : bool := negb fixed || bool_decide (key = PK_ModelPrice).

Lemma select_price fixed next field key v : (field, key) ∈ PRICE_FIELDS ->
  select_field toUpperCase fixed next (field, v) = if taken fixed key then assoc_set key v next else next.
Proof.
  intros H. assert (field_key_text toUpperCase field = key_text key) as E.
  { unfold PRICE_FIELDS in H. repeat (apply elem_of_cons in H as [[= -> ->]|H];
      [unfold field_key_text; set (parts := split_char _ _ _); vm_compute in parts; subst parts; unfold capitalise;
       cbn [map take drop]; rewrite !upper_ascii by done; reflexivity|]). by apply not_elem_of_nil in H. }
  unfold select_field, taken. rewrite E. clear E. unfold PRICE_FIELDS in H.
  repeat (apply elem_of_cons in H as [[= -> ->]|H]; [by destruct fixed|]). by apply not_elem_of_nil in H.
Qed.

Lemma select_other fixed next field v : field = u "billing_mode" \/ field = u "billing_expr" ->
  select_field toUpperCase fixed next (field, v) = next.
Proof. by intros [-> | ->]. Qed.

Lemma select_fields fixed fields : forall next, NoDup fields.*1 -> Forall known_field fields.*1 ->
  (forall key, key ∉ PRICE_FIELDS.*2 ->
     assoc_get key (fold_left (select_field toUpperCase fixed) fields next) = assoc_get key next) /\
  forall field key, (field, key) ∈ PRICE_FIELDS ->
    assoc_get key (fold_left (select_field toUpperCase fixed) fields next) =
    match assoc_get field fields with
    | Some v => if taken fixed key then Some v else assoc_get key next
    | None => assoc_get key next
    end.
Proof.
  induction fields as [|[f v] fields IH]; intros next Hnd Hk; [by split|]. cbn [fmap list_fmap fst] in Hnd, Hk.
  apply list.NoDup_cons in Hnd as [Hf Hnd]. apply Forall_cons_iff in Hk as [Hf' Hk]. cbn [fold_left].
  destruct Hf' as [([f0 k] & -> & Hin)%list_elem_of_fmap|Hf'].
  - cbn [fst] in *. rewrite (select_price fixed next f0 k v Hin). set (next1 := if taken fixed k then _ else next).
    destruct (IH next1 Hnd Hk) as [IH1 IH2]. split.
    + intros key Hkey. rewrite (IH1 key Hkey). unfold next1. destruct (taken fixed k); [|done]. apply assoc_get_set_ne.
      intros <-. apply Hkey, list_elem_of_fmap. by exists (f0, k).
    + intros field key H. rewrite (IH2 field key H). cbn [assoc_get]. unfold next1. pose proof (field_by_name f0 k field key Hin H) as Hiff.
      destruct (decide (f0 = field)) as [E|E].
      * assert (k = key) as -> by tauto. subst f0. apply assoc_get_None in Hf. rewrite Hf.
        destruct (taken fixed key); [apply assoc_get_set_eq|done].
      * assert (k <> key) by tauto. destruct (taken fixed k); rewrite ?assoc_get_set_ne by done; done.
  - rewrite select_other by done. destruct (IH next Hnd Hk) as [IH1 IH2]. split; [done|]. intros field key H.
    rewrite (IH2 field key H). cbn [assoc_get]. rewrite decide_False; [done|]. intros ->.
    assert (field ∈ PRICE_FIELDS.*1) as Hin by (apply list_elem_of_fmap; by exists (field, key)). revert Hin.
    destruct Hf' as [-> | ->]; apply (proj1 (bool_decide_eq_true _)); reflexivity.
Qed.

(** *** Valid selections *)

Definition number_valid (x : number) : bool := json_number_ok x && negb (num_ltb x zero).
Definition price_valid (v : Scalar) : bool :=
  match v with SNumber x => number_valid x | SString s => nonempty s && number_valid (to_number s) end.

Lemma number_valid_text x : number_valid x = true -> nonempty (number_to_string x) = true /\ to_number (number_to_string x) = x.
Proof.
  intros [Hj Hn%negb_true_iff]%andb_true_iff. destruct (number_text_head x Hj) as (c & l & E & _). split; [by rewrite E|].
  destruct x as [|neg|neg m e]; [done..|]. cbn [json_number_ok] in Hj. apply andb_true_iff in Hj as [Hv Hz].
  pose proof (valid_nonneg _ _ _ Hv) as Hm. destruct neg; [|by apply to_number_to_string]. exfalso.
  apply negb_true_iff, andb_false_iff in Hz as [Hz|Hz]; [done|]. apply Z.eqb_neq in Hz.
  unfold num_ltb, num_compare, zero, signed in Hn. destruct (_ ?= _)%Z eqn:Ec; [|done|].
  - apply Z.compare_eq in Ec. assert (0 < 2 ^ (e - Z.min e (-1074)))%Z by (apply Z.pow_pos_nonneg; lia). nia.
  - apply Z.compare_gt_iff in Ec. assert (0 < 2 ^ (e - Z.min e (-1074)))%Z by (apply Z.pow_pos_nonneg; lia). nia.
Qed.

Lemma price_valid_text v : price_valid v = true ->
  nonempty (price_text (Some v)) = true /\ to_number (price_text (Some v)) = scalar_number v /\ number_valid (scalar_number v) = true.
Proof.
  destruct v as [x|s]; cbn [price_valid price_text scalar_value to_string scalar_number].
  - intros H. by destruct (number_valid_text x H).
  - by intros [H1 H2]%andb_true_iff.
Qed.

(** The prices of a model after the synchronisation of a selection. *)
Definition synchronised (fields : list (str * Scalar)) (key : PricingKey) : option Scalar :=
  match selected_expression fields with
  | Some s =>
      match key with
      | PK_billing_mode => Some (SString (u "tiered_expr"))
      | PK_billing_expr => Some (SString s)
      | _ => None
      end
  | None =>
      match key with
      | PK_billing_mode => Some (SString (u "ratio"))
      | _ =>
          if taken (assoc_has (u "model_price") fields) key
          then '(field, _) ← List.find (fun p => bool_decide (snd p = key)) PRICE_FIELDS;
               (fun v => SNumber (scalar_number v)) <$> assoc_get field fields
          else None
      end
  end.

(** A selection: known fields, and an expression that can be split or valid prices. *)
Definition selection_ok (selection : str * list (str * Scalar)) : Prop :=
  let (name, fields) := selection in
  Forall code_unit name /\ NoDup fields.*1 /\ Forall known_field fields.*1 /\
  match selected_expression fields with
  | Some s => Forall code_unit s /\ exists r, splitBillingExprAndRequestRules s = Ok r
  | None => forall field v, (field, v) ∈ fields -> field ∈ PRICE_FIELDS.*1 -> price_valid v = true /\ scalar_ok (scalar_value v)
  end.

Lemma synchronised_price fields field key : selected_expression fields = None -> (field, key) ∈ PRICE_FIELDS ->
  synchronised fields key =
  if taken (assoc_has (u "model_price") fields) key then (fun v => SNumber (scalar_number v)) <$> assoc_get field fields else None.
Proof.
  intros E H. unfold synchronised. rewrite E. clear E. unfold PRICE_FIELDS in H.
  repeat (apply elem_of_cons in H as [[= -> ->]|H]; [done|]). by apply not_elem_of_nil in H.
Qed.

(** The draft of a row gives back a valid price. *)
Lemma draft_price_text data p key : (forall v, p = Some v -> price_valid v = true) ->
  field_valid (Some (price_text p)) = true /\
  draft_price data (Some (price_text p)) key =
    if kept_in_mode (dr_billingMode data) key then (fun v => SNumber (scalar_number v)) <$> p else None.
Proof.
  intros H. destruct p as [v|]; [|split; [done|]; by destruct (kept_in_mode _ _)].
  destruct (price_valid_text v (H v eq_refl)) as (Hne & En & Hv). unfold field_valid, draft_price.
  destruct (price_text (Some v)) as [|c t]; [done|]. rewrite En. apply andb_true_iff in Hv as [Hj ->]. rewrite andb_true_r.
  split; [by destruct (scalar_number v)|done].
Qed.

Lemma price_key_cases key : key <> PK_plugin_billing_expr ->
  key = PK_billing_mode \/ key = PK_billing_expr \/ exists field, (field, key) ∈ PRICE_FIELDS.
Proof.
  destruct key; intros H; try done; try (by left); try (by right; left); right; right; unfold PRICE_FIELDS; eexists; by repeat (left || right).
Qed.

Lemma row_draft name values mode expr rules conflict : Forall code_unit name -> (forall key, price_fine (price_of values key)) ->
  plugin_exprs values = None -> price_of values PK_billing_mode <> None ->
  (forall field key v, (field, key) ∈ PRICE_FIELDS -> price_of values key = Some v -> price_valid v = true) ->
  row_mode values = Ok (mode, expr, rules, conflict) ->
  exists validated, (row ← pricingRow name values; pricingFromDraft row) = Ok validated /\ plugin_exprs validated = None /\
    price_of validated PK_billing_mode =
      Some (SString (if bool_decide (mode = M_tiered_expr) then u "tiered_expr" else u "ratio")) /\
    (mode <> M_tiered_expr -> price_of validated PK_billing_expr = None) /\
    forall field key, (field, key) ∈ PRICE_FIELDS ->
      price_of validated key =
      if kept_in_mode (Some mode) key then (fun v => SNumber (scalar_number v)) <$> price_of values key else None.
Proof.
  intros Hn Hf Hp Hm Hv Er. rewrite (pricingRow_eq name values Hn Hf Hp), Er.
  2: { destruct (price_of values PK_billing_mode) as [v|] eqn:E; [|done]. by exists PK_billing_mode, v. }
  cbn [mbind result_bind]. set (data := Build_ModelRatioData _ _ _ _ _ _ _ _ _ _ _ _ _).
  assert (forall f key, (f, key) ∈ pricingFieldMap -> f data = Some (price_text (price_of values key)) /\
    forall v, price_of values key = Some v -> price_valid v = true) as Hfields.
  { intros f key H. cbn in H.
    repeat (apply elem_of_cons in H as [[= -> ->]|H]; [split; [done|]; intros v; eapply Hv; by repeat (left || right)|]).
    by apply not_elem_of_nil in H. }
  assert (draft_valid data = true) as Hvalid.
  { apply forallb_forall. intros [f key] Hin. apply list_elem_of_In in Hin. destruct (Hfields f key Hin) as [E Hval].
    cbn [fst]. rewrite E. apply (draft_price_text data _ key Hval). }
  pose proof (draft_spec data) as Hs. destruct (pricingFromDraft data) as [validated|]; [|destruct Hs; congruence].
  destruct Hs as (_ & Hplug & Hprices & Hmode & Hexpr). exists validated. split; [done|]. split; [done|].
  assert (draft_tiered data = bool_decide (mode = M_tiered_expr)) as Et by (by destruct mode). rewrite Et in Hmode, Hexpr.
  split; [done|]. split; [intros Hne; by rewrite bool_decide_eq_false_2 in Hexpr|].
  intros field key H. assert (exists f, (f, key) ∈ pricingFieldMap) as [f Hin].
  { unfold PRICE_FIELDS in H. repeat (apply elem_of_cons in H as [[= -> ->]|H]; [eexists; by repeat (left || right)|]).
    by apply not_elem_of_nil in H. }
  destruct (Hfields f key Hin) as [E Hval]. rewrite (Hprices f key Hin), E. apply (draft_price_text data _ key Hval).
Qed.

(** *** One model *)

Lemma selected_prices fields : selected_expression fields = None -> NoDup fields.*1 -> Forall known_field fields.*1 ->
  let values := selected_values toUpperCase fields in
  price_of values PK_billing_mode = Some (SString (u "ratio")) /\ price_of values PK_billing_expr = None /\
  price_of values PK_plugin_billing_expr = None /\
  forall field key, (field, key) ∈ PRICE_FIELDS -> price_of values key =
    if taken (assoc_has (u "model_price") fields) key then assoc_get field fields else None.
Proof.
  intros E Hnd Hk values. unfold values, selected_values, price_of. rewrite E. cbn [prices].
  set (fixed := assoc_has _ _). destruct (select_fields fixed fields [(PK_billing_mode, SString (u "ratio"))] Hnd Hk) as [H1 H2].
  assert (forall key, key ∈ [PK_billing_mode; PK_billing_expr; PK_plugin_billing_expr] -> key ∉ PRICE_FIELDS.*2) as Hout.
  { intros key H. rewrite !elem_of_cons in H. destruct H as [-> |[-> |[-> |H%not_elem_of_nil]]]; [..|done];
      apply (proj1 (bool_decide_eq_true _)); reflexivity. }
  rewrite !H1 by (apply Hout; by repeat (left || right)). split_and!; [done..|]. intros field key H. rewrite (H2 field key H).
  assert (assoc_get key [(PK_billing_mode, SString (u "ratio"))] = None) as ->; [|by destruct (assoc_get field fields), (taken fixed key)].
  cbn [assoc_get]. rewrite decide_False; [done|]. intros <-. apply (Hout PK_billing_mode ltac:(left)), list_elem_of_fmap. by exists (field, PK_billing_mode).
Qed.

(** The values an upstream selection is checked against. *)
Definition sync_prices (fields : list (str * Scalar)) (validated : PricingValues) : Prop :=
  plugin_exprs validated = None /\
  forall key, key <> PK_plugin_billing_expr -> price_of validated key = synchronised fields key.

Lemma validate_expression name fields s : Forall code_unit name -> selected_expression fields = Some s -> Forall code_unit s ->
  (exists r, splitBillingExprAndRequestRules s = Ok r) ->
  exists validated, (row ← pricingRow name (selected_values toUpperCase fields); pricingFromDraft row) = Ok validated /\
    sync_prices fields {| prices := assoc_set PK_billing_expr (SString s) (prices validated); plugin_exprs := plugin_exprs validated |}.
Proof.
  intros Hn Es Hs [[pure rules] Er]. set (values := selected_values toUpperCase fields).
  assert (values = {| prices := [(PK_billing_mode, SString (u "tiered_expr")); (PK_billing_expr, SString s)]; plugin_exprs := None |}) as Ev.
  { unfold values, selected_values. by rewrite Es. }
  destruct (row_draft name values M_tiered_expr (Some pure) (Some rules) false Hn) as (validated & E & Hp & Hm & _ & Hprices);
    rewrite ?Ev; try done.
  - intros key v. destruct key; cbn; try done; intros [= <-]; [by repeat constructor|done].
  - intros field key v H. unfold PRICE_FIELDS in H. repeat (apply elem_of_cons in H as [[= -> ->]|H]; [done|]). by apply not_elem_of_nil in H.
  - rewrite <- Ev. assert (is_tiered values = true) as Et by by rewrite Ev. assert (row_expression values = Ok s) as Ex by by rewrite Ev.
    unfold row_mode. rewrite Et, Ex. cbn [mbind result_bind]. by rewrite Er.
  - rewrite Ev in E. exists validated. split; [done|]. split; [done|]. intros key Hk. unfold price_of, synchronised. rewrite Es. cbn [prices].
    rewrite assoc_get_set. destruct (price_key_cases key Hk) as [-> |[-> |[field H]]]; [exact Hm|done|].
    fold (price_of validated key). rewrite (Hprices field key H), Ev. cbn [kept_in_mode].
    unfold PRICE_FIELDS in H. repeat (apply elem_of_cons in H as [[= -> ->]|H]; [done|]). by apply not_elem_of_nil in H.
Qed.

Lemma validate_prices name fields : Forall code_unit name -> selected_expression fields = None -> NoDup fields.*1 ->
  Forall known_field fields.*1 ->
  (forall field v, (field, v) ∈ fields -> field ∈ PRICE_FIELDS.*1 -> price_valid v = true /\ scalar_ok (scalar_value v)) ->
  exists validated, (row ← pricingRow name (selected_values toUpperCase fields); pricingFromDraft row) = Ok validated /\
    sync_prices fields validated.
Proof.
  intros Hn Es Hnd Hk Hv. set (values := selected_values toUpperCase fields). set (fixed := assoc_has (u "model_price") fields).
  destruct (selected_prices fields Es Hnd Hk) as (Hm & He & Hpl & Hp). fold values fixed in Hm, He, Hpl, Hp.
  assert (forall field key v, (field, key) ∈ PRICE_FIELDS -> price_of values key = Some v ->
    price_valid v = true /\ scalar_ok (scalar_value v)) as Hvalid.
  { intros field key v H E. rewrite (Hp field key H) in E. destruct (taken fixed key); [|done]. apply assoc_get_In in E.
    apply (Hv field v E), list_elem_of_fmap. by exists (field, key). }
  assert ((u "model_price", PK_ModelPrice) ∈ PRICE_FIELDS) as Hmp by left.
  assert (nonempty (price_text (price_of values PK_ModelPrice)) = fixed) as Hfixed.
  { pose proof (Hp _ _ Hmp) as E. unfold taken in E. rewrite bool_decide_eq_true_2, orb_true_r in E by done. rewrite E. unfold fixed, assoc_has.
    destruct (assoc_get (u "model_price") fields) as [v|] eqn:Ev; [|done].
    apply price_valid_text. eapply Hvalid; [exact Hmp|exact E]. }
  destruct (row_draft name values (if fixed then M_per_request else M_per_token) None None
    (fixed && existsb (fun key => nonempty (price_text (price_of values key)))
       [PK_ModelRatio; PK_CompletionRatio; PK_CacheRatio; PK_CreateCacheRatio; PK_ImageRatio; PK_AudioRatio; PK_AudioCompletionRatio]) Hn)
    as (validated & E & Hpv & Hmv & Hev & Hprices).
  - intros key v E. destruct (key_cases key) as [-> |Hkey]; [congruence|].
    destruct (price_key_cases key Hkey) as [-> |[-> |[field H]]]; [|congruence|by eapply Hvalid].
    rewrite Hm in E. injection E as <-. by repeat constructor.
  - unfold values, selected_values. done.
  - by rewrite Hm.
  - intros field key v H Ev. by eapply Hvalid.
  - unfold row_mode, is_tiered. rewrite Hm, Hfixed. done.
  - exists validated. split; [done|]. split; [done|]. intros key Hkey.
    destruct (price_key_cases key Hkey) as [-> |[-> |[field H]]].
    + rewrite Hmv. unfold synchronised. rewrite Es. by destruct fixed.
    + rewrite Hev by (by destruct fixed). unfold synchronised. rewrite Es. by destruct (taken _ _).
    + rewrite (synchronised_price fields field key Es H), (Hprices field key H), (Hp field key H). fold fixed.
      destruct fixed eqn:Ef; unfold taken; cbn [kept_in_mode negb orb]; [by destruct (bool_decide (key = PK_ModelPrice))|].
      destruct (decide (key = PK_ModelPrice)) as [-> |Hne]; [|by rewrite bool_decide_eq_true_2].
      unfold fixed, assoc_has in Ef. assert (field = u "model_price") as -> by by apply (field_by_name _ _ _ _ H Hmp).
      by destruct (assoc_get (u "model_price") fields).
Qed.

Lemma synchronised_ok fields key v : selection_ok ([], fields) -> synchronised fields key = Some v -> scalar_ok (scalar_value v).
Proof.
  intros (_ & Hnd & Hk & Hsel). unfold synchronised. destruct (selected_expression fields) as [s|].
  - destruct key; try done; intros [= <-]; [by repeat constructor|]. by destruct Hsel.
  - destruct (decide (key = PK_billing_mode)) as [-> |Hne]; [intros [= <-]; by repeat constructor|]. intros E.
    assert (exists field, field ∈ PRICE_FIELDS.*1 /\ (fun v => SNumber (scalar_number v)) <$> assoc_get field fields = Some v) as (field & Hf & Ev).
    { destruct key; try done; (destruct (taken _ _); [|done]); try done;
        (eexists; split; [|exact E]; by repeat (left || right)). }
    apply fmap_Some in Ev as (w & Hw & ->). apply assoc_get_In in Hw. destruct (Hsel field w Hw Hf) as [Hv _].
    apply price_valid_text in Hv as (_ & _ & Hv). by apply andb_true_iff in Hv as [Hv _].
Qed.

Lemma sync_model_held options name fields : options_ok options -> selection_ok (name, fields) ->
  exists next, sync_model toUpperCase options (name, fields) = Ok next /\ options_ok next /\ forall key n plugin,
    held next key n plugin = if decide (n = name /\ key <> PK_plugin_billing_expr) then scalar_value <$> synchronised fields key
                             else held options key n plugin.
Proof.
  intros Hok Hsel. pose proof Hsel as (Hn & Hnd & Hk & Hs).
  assert (exists validated, sync_model toUpperCase options (name, fields) = applyPricingValues options validated [name] /\
    sync_prices fields validated) as (validated & -> & Hp & Hv).
  { unfold sync_model. destruct (selected_expression fields) as [s|] eqn:Es.
    - destruct Hs as [Hs1 Hs2]. destruct (validate_expression name fields s Hn Es Hs1 Hs2) as (validated & E & H).
      eexists. split; [|exact H]. destruct (pricingRow _ _); [|done]. cbn [mbind result_bind] in E |- *. by rewrite E.
    - destruct (validate_prices name fields Hn Es Hnd Hk Hs) as (validated & E & H).
      exists validated. split; [|done]. destruct (pricingRow _ _); [|done]. cbn [mbind result_bind] in E |- *. by rewrite E. }
  destruct (apply_values_edits options validated [name] Hok) as (next & E & Hok' & H).
  { split; [|split; [by constructor|by rewrite Hp]]. intros key v Hkey Ev. rewrite (Hv key Hkey) in Ev. by eapply synchronised_ok. }
  exists next. split; [done|]. split; [done|]. intros key n plugin. rewrite H. destruct (key_cases key) as [-> |Hkey].
  - cbn [edited]. rewrite Hp. cbn. rewrite decide_False; [done|]. tauto.
  - replace (edited validated key plugin) with (Some (scalar_value <$> price_of validated key)) by by destruct key.
    rewrite (decide_False (P := key = _)) by done. rewrite (Hv key Hkey).
    destruct (decide (n ∈ [name])) as [Hin|Hin]; rewrite list_elem_of_singleton in Hin; [by rewrite decide_True|]. rewrite decide_False; tauto.
Qed.
End selection.

Lemma sync_held toUpperCase selections : (forall c, is_lower c = true -> toUpperCase [c] = [(c - 32)%N]) ->
  forall options, options_ok options -> NoDup selections.*1 -> Forall selection_ok selections ->
  exists next, applyPriceSyncSelections toUpperCase options selections = Ok next /\ options_ok next /\ forall key name plugin,
    held next key name plugin =
      match (if decide (key = PK_plugin_billing_expr) then None else assoc_get name selections) with
      | Some fields => scalar_value <$> synchronised fields key
      | None => held options key name plugin
      end.
Proof.
  intros Hup. unfold applyPriceSyncSelections. induction selections as [|[n fields] selections IH]; intros options Hok Hnd Hsel.
  { exists options. split; [done|]. split; [done|]. intros. by case_decide. }
  cbn [fmap list_fmap fst] in Hnd. apply list.NoDup_cons in Hnd as [Hn Hnd]. apply Forall_cons_iff in Hsel as [H0 Hsel].
  destruct (sync_model_held toUpperCase Hup options n fields Hok H0) as (mid & E1 & Hok1 & H1).
  destruct (IH mid Hok1 Hnd Hsel) as (next & E2 & Hok2 & H2). exists next. cbn [fold_result]. rewrite E1. cbn [mbind result_bind].
  split; [done|]. split; [done|]. intros key name plugin. rewrite H2, H1. cbn [assoc_get].
  destruct (decide (key = PK_plugin_billing_expr)) as [Ek|Ek]; [rewrite decide_False by tauto; done|].
  destruct (decide (n = name)) as [-> |Hne].
  - apply assoc_get_None in Hn. by rewrite Hn, decide_True.
  - rewrite decide_False by naive_solver. done.
Qed.

(** C11: synchronising prices with valid selections succeeds and leaves each selected
    model with exactly the selected prices: an expression in tiered mode, the fixed
    price, or the ratios, with every older price of it removed; its provider prices
    and the prices of other models stay. *)
Theorem synchronised_prices_are_the_selected toUpperCase options selections :
  (forall c, is_lower c = true -> toUpperCase [c] = [(c - 32)%N]) ->
  options_ok options -> NoDup selections.*1 -> Forall selection_ok selections ->
  exists next before after, applyPriceSyncSelections toUpperCase options selections = Ok next /\ options_ok next /\
    pricingValuesByModel options = Ok before /\ pricingValuesByModel next = Ok after /\ forall name,
    (forall key, key <> PK_plugin_billing_expr -> price_of (values_of after name) key =
       match assoc_get name selections with
       | Some fields => synchronised fields key
       | None => price_of (values_of before name) key
       end) /\
    forall plugin, expression_of_plugin after name plugin = expression_of_plugin before name plugin.
Proof.
  intros Hup Hok Hnd Hsel. destruct (sync_held toUpperCase selections Hup options Hok Hnd Hsel) as (next & E & Hok' & H).
  destruct (read_options options Hok) as (before & Eb & Cb). destruct (read_options next Hok') as (after & Ea & Ca).
  exists next, before, after. split_and!; [done..|]. intros name. split.
  - intros key Hk. apply scalar_value_inj. specialize (H key name []). rewrite <- Ca, <- Cb, !price_cell, decide_False in H by done.
    rewrite H. by destruct (assoc_get name selections).
  - intros plugin. apply string_value_inj. specialize (H PK_plugin_billing_expr name plugin). rewrite <- Ca, <- Cb, decide_True in H by done.
    exact H.
Qed.

Lemma valid_fields (fields : list (str * Scalar)) :
  forallb (fun p => price_valid (snd p) && match snd p with SNumber _ => true | SString s => unitsb s end) fields = true ->
  forall field v, (field, v) ∈ fields -> field ∈ PRICE_FIELDS.*1 -> price_valid v = true /\ scalar_ok (scalar_value v).
Proof.
  rewrite forallb_forall. intros H field v Hin _. apply list_elem_of_In, H in Hin. cbn [snd] in Hin.
  apply andb_true_iff in Hin as [Hv Hu]. split; [done|]. destruct v; [|by apply unitsb_spec]. by apply andb_true_iff in Hv as [Hv _].
Qed.

Definition sample_selections : list (str * list (str * Scalar)) :=
  [(u "edited", [(u "model_ratio", SNumber (of_Z 3)); (u "completion_ratio", SString (u "1.5"))]);
   (u "builtin", [(u "billing_mode", SString (u "tiered_expr")); (u "billing_expr", SString (u "tier(p * 2)"))]);
   (u "kept", [(u "model_price", SNumber zero); (u "model_ratio", SNumber one)])].

Lemma synchronised_prices_are_the_selected_witness :
  options_okb sample_options = true /\ Forall selection_ok sample_selections /\
  exists next before after, applyPriceSyncSelections ascii_upper sample_options sample_selections = Ok next /\ options_ok next /\
    pricingValuesByModel sample_options = Ok before /\ pricingValuesByModel next = Ok after /\ forall name,
    (forall key, key <> PK_plugin_billing_expr -> price_of (values_of after name) key =
       match assoc_get name sample_selections with
       | Some fields => synchronised fields key
       | None => price_of (values_of before name) key
       end) /\
    forall plugin, expression_of_plugin after name plugin = expression_of_plugin before name plugin.
Proof.
  assert (options_okb sample_options = true) as H1 by (vm_compute; reflexivity).
  assert (NoDup sample_selections.*1) as H2 by (apply (proj1 (bool_decide_eq_true _)); vm_compute; reflexivity).
  assert (Forall selection_ok sample_selections) as H3.
  { repeat apply List.Forall_cons; [| | |apply List.Forall_nil];
      (split; [by apply unitsb_spec|split; [apply (proj1 (bool_decide_eq_true _)); vm_compute; reflexivity|split]]);
      try (repeat apply List.Forall_cons; try apply List.Forall_nil;
           first [left; apply (proj1 (bool_decide_eq_true _)); vm_compute; reflexivity | right; left; reflexivity | right; right; reflexivity]).
    all: match goal with |- context [selected_expression ?f] =>
           let x := eval vm_compute in (selected_expression f) in replace (selected_expression f) with x by (vm_compute; reflexivity)
         end; cbv iota beta.
    - apply valid_fields. vm_compute. reflexivity.
    - split; [by apply unitsb_spec|]. eexists. vm_compute. reflexivity.
    - apply valid_fields. vm_compute. reflexivity. }
  split; [exact H1|]. split; [exact H3|].
  apply (synchronised_prices_are_the_selected ascii_upper sample_options sample_selections); [|by apply options_okb_spec|exact H2|exact H3].
  intros c Hc. unfold ascii_upper. cbn [map]. by rewrite Hc.
Defined.
