(* ===== verification/DynamicPrice.v ===== *)
(** * Prices of models billed by expressions

    [features/pricing/lib/dynamic-price.ts].  The labels of units and the
    descriptions of schema fields, which entries only carry, are left out.
    [billing_plugin_variants] of a variant's model is [undefined]: a function
    that calls itself on the variants calls its [own_...] part here. *)

From Stdlib Require Import String.
From S2P Require Import Prelude JsNumber JsString JsText Ast Parser Compile Request BillingTime Runtime.
From S2P Require Import Display TaskDisplay Regex Json BillingExpr TierExpr TaskExpr TaskTable.
From S2P Require Import Currency PricingModel.

(** ** Data *)

Record DynamicPriceOptions : Type := {
  dp_tokenUnit : TokenUnit;
  dp_showCurrencySymbol : option bool;
  dp_showRechargePrice : option bool;
  dp_priceRate : option number;
  dp_usdExchangeRate : option number;
  dp_groupRatioMultiplier : option number;
  dp_usageSchema : option BillingUsageSchema;
  dp_now : option date;
}.

Inductive DynamicPriceLabelKind : Type := Label_i18n | Label_schema.

Inductive EntryUnit : Type := E_usage (unit_ : BillingUsageUnit) | E_request | E_image.
(** [unit: 'token'] of chat prices and of usage fields is the same text. *)
Definition E_token : EntryUnit := E_usage U_token.

#[export] Instance entry_unit_eq_dec : EqDecision EntryUnit.
Proof. solve_decision. Defined.

Record DynamicPriceEntry : Type := {
  de_key : str;
  de_field : str;
  de_label : str;
  de_shortLabel : str;
  de_labelKind : DynamicPriceLabelKind;
  de_value : number;
  de_formatted : str;
  de_formattedRange : option str;
  de_minValue : option number;
  de_maxValue : option number;
  de_unit : EntryUnit;
  de_unitLabel : option LocalizedText;
  de_description : option LocalizedText;
  de_variable : option BillingVar;
}.

Abbreviation DynamicPricingTier := BreakdownMatchTier.

Record DynamicPricingSummary : Type := {
  ds_tiers : list DynamicPricingTier;
  ds_tier : option DynamicPricingTier;
  ds_tierCount : nat;
  ds_hasRequestRules : bool;
  ds_isSpecialExpression : bool;
  ds_rawExpression : str;
  ds_entries : list DynamicPriceEntry;
  ds_primaryEntries : list DynamicPriceEntry;
  ds_secondaryEntries : list DynamicPriceEntry;
  ds_isTaskUsage : bool;
  ds_isTimePricing : option bool;
  ds_isMixedBilling : option bool;
  ds_providerCount : option nat;
  ds_hasUnconfiguredProviders : option bool;
}.

(** ** Labels of units *)

Definition getTaskUsageQuantityUnitLabelKey (unit_ : option BillingUsageUnit) : str :=
  match unit_ with
  | Some U_second => u "s" | Some U_token => u "token (unit)" | Some U_credit => u "credit"
  | _ => u "unit"
  end.
Definition getTaskUsagePriceUnitLabelKey (unit_ : option BillingUsageUnit) : str :=
  match unit_ with
  | Some U_second => u "second" | Some U_token => u "1M token" | Some U_credit => u "credit"
  | _ => u "unit"
  end.
Definition getDynamicPriceUnitLabelKey (entry : DynamicPriceEntry) : option str :=
  match de_unit entry with
  | E_usage U_second => Some (u "s")
  | E_usage U_count => Some (u "unit")
  | E_usage U_credit => Some (u "credit")
  | E_usage U_token => match de_variable entry with None => Some (u "1M token") | Some _ => None end
  | E_request => Some (u "request")
  | E_image => Some (u "image")
  end.

Definition PRIMARY_DYNAMIC_FIELDS : list str := [u "inputPrice"; u "outputPrice"].
Definition is_primary (entry : DynamicPriceEntry) : bool := one_of PRIMARY_DYNAMIC_FIELDS (de_field entry).

(** ** Kinds of models *)

Definition own_variants (model : PricingModel) : list BillingPluginVariant :=
  default [] (billing_plugin_variants model).
Definition expression_of (model : PricingModel) : str := default [] (billing_expr model).

Definition isDynamicPricingModel (model : PricingModel) : bool :=
  match own_variants model with
  | [] => is_mode (billing_mode model) (u "tiered_expr") && nonempty (expression_of model)
  | variants =>
      existsb (fun v => negb (is_mode (pv_billing_mode v) (u "ratio")) && nonempty (pv_billing_expr v))
        variants
  end.

Definition hasTaskUsageSchema (model : PricingModel) : bool :=
  match default [] (billing_usage_schema model) with [] => false | _ => true end.
Definition isTaskUsagePricingModel (model : PricingModel) : bool :=
  is_mode (billing_mode model) (u "tiered_expr") && hasTaskUsageSchema model.

Definition own_unconfigured (model : PricingModel) : bool :=
  negb (num_eqb (quota_type model) QUOTA_REQUEST) && hasTaskUsageSchema model
  && negb (isDynamicPricingModel model).
Definition unconfigured_variant (model : PricingModel) (v : BillingPluginVariant) : bool :=
  if is_mode (pv_billing_mode v) (u "ratio") then own_unconfigured (withPluginPricing model v)
  else negb (nonempty (pv_billing_expr v)).
Definition isUnconfiguredTaskUsageModel (model : PricingModel) : bool :=
  match own_variants model with
  | [] => own_unconfigured model
  | variants => forallb (unconfigured_variant model) variants
  end.

Definition getDynamicDisplayGroupRatio (model : PricingModel) (selectedGroup : option str) : number :=
  getDisplayGroupRatio model selectedGroup.

Section dynamic_price.
Context `{Host} `{Collation} `{NumberFormats} (stored : option CurrencyConfig) (clock : Z).

Definition getTaskPricingUnit (model : PricingModel) : option BillingUsageUnit :=
  match getTaskNumberFields (default [] (billing_usage_schema model)) with
  | e :: _ => f_unit e.2
  | [] => None
  end.

(** ** Formatting *)

Definition recharge_of (options : DynamicPriceOptions) : Recharge :=
  {| showWithRecharge := default false (dp_showRechargePrice options);
     priceRate := default one (dp_priceRate options);
     exchangeRate := default one (dp_usdExchangeRate options) |}.
Definition dynamic_format (options : DynamicPriceOptions) : CurrencyFormatOptions :=
  price_format (Some (default true (dp_showCurrencySymbol options))) 6.

Definition formatDynamicUnitPrice (valuePerMillionTokens : number) (options : DynamicPriceOptions) : str :=
  let priceUSD := num_div (num_mul valuePerMillionTokens (default one (dp_groupRatioMultiplier options)))
                    (TOKEN_UNIT_DIVISORS (dp_tokenUnit options)) in
  formatBillingCurrencyFromUSD stored (Some (recharged (recharge_of options) priceUSD))
    (Some (dynamic_format options)).

Definition formatTaskUsageUnitPrice (valuePerUnit : number) (options : DynamicPriceOptions) : str :=
  let priceUSD := num_mul valuePerUnit (default one (dp_groupRatioMultiplier options)) in
  formatBillingCurrencyFromUSD stored (Some (recharged (recharge_of options) priceUSD))
    (Some (dynamic_format options)).

(** [`${format(min)} – ${format(max)}`] with U+2013, unless they are equal. *)
Definition format_range (options : DynamicPriceOptions) (min max : number) : option str :=
  if num_eqb min max then None
  else Some (formatTaskUsageUnitPrice min options ++ [32; 8211; 32]%N ++ formatTaskUsageUnitPrice max options).

(** ** Tiers *)

Definition own_pricing_tiers (model : PricingModel) : outcome (list DynamicPricingTier) :=
  if negb (isDynamicPricingModel model) then Ok []
  else
    '(billingExpr, _) ← splitBillingExprAndRequestRules (expression_of model);
    if isTaskUsagePricingModel model then
      tiers ← getTaskPricingDisplayTiers billingExpr (billing_usage_schema model);
      Ok (map TaskRow tiers)
    else
      tiers ← parseTiersFromExpr billingExpr;
      Ok (map TokenRow tiers).

Definition getDynamicPricingTiers (model : PricingModel) : outcome (list DynamicPricingTier) :=
  match own_variants model with
  | [] => own_pricing_tiers model
  | variants =>
      tiers ← map_result (fun v => own_pricing_tiers (withPluginPricing model v)) variants;
      Ok (concat tiers)
  end.

Definition own_request_rules (model : PricingModel) : outcome bool :=
  if negb (isDynamicPricingModel model) then Ok false
  else
    '(_, requestRuleExpr) ← splitBillingExprAndRequestRules (expression_of model);
    rules ← tryParseRequestRuleExpr requestRuleExpr;
    Ok (match rules with
        | Some (_ :: _) => true
        | _ => match compile (expression_of model) with
               | inl compiled => negb (is_nil (ce_requestRules compiled))
               | inr _ => false
               end
        end).

(** [variants.some(...)] stops at the first variant with rules. *)
Fixpoint any_request_rules (model : PricingModel) (variants : list BillingPluginVariant) : outcome bool :=
  match variants with
  | [] => Ok false
  | v :: variants =>
      found ← own_request_rules (withPluginPricing model v);
      if (found : bool) then Ok true else any_request_rules model variants
  end.

Definition hasDynamicRequestRules (model : PricingModel) : outcome bool :=
  match own_variants model with
  | [] => own_request_rules model
  | variants => any_request_rules model variants
  end.

(** ** Entries *)

(** [Number.isFinite(value) && value >= 0] *)
Definition shown_value (v : option number) : option number :=
  match v with
  | Some x => if negb (num_is_finite x) || num_ltb x zero then None else Some x
  | None => None
  end.

Definition plain_entry key field label shortLabel kind value formatted unit_ variable : DynamicPriceEntry :=
  {| de_key := key; de_field := field; de_label := label; de_shortLabel := shortLabel;
     de_labelKind := kind; de_value := value; de_formatted := formatted; de_formattedRange := None;
     de_minValue := None; de_maxValue := None; de_unit := unit_; de_unitLabel := None;
     de_variable := variable; de_description := None |}.

(** [{ ...e, unitLabel, description }] *)
Definition with_texts (unitLabel description : option LocalizedText) (e : DynamicPriceEntry)
  : DynamicPriceEntry :=
  {| de_key := de_key e; de_field := de_field e; de_label := de_label e; de_shortLabel := de_shortLabel e;
     de_labelKind := de_labelKind e; de_value := de_value e; de_formatted := de_formatted e;
     de_formattedRange := de_formattedRange e; de_minValue := de_minValue e;
     de_maxValue := de_maxValue e; de_unit := de_unit e; de_unitLabel := unitLabel;
     de_variable := de_variable e; de_description := description |}.

Definition fixed_entry (options : DynamicPriceOptions) (imageCount : bool) (price : number)
  : DynamicPriceEntry :=
  plain_entry (u "fixed") (u "fixedPrice")
    (if imageCount then u "Price per image" else u "Price per request")
    (if imageCount then u "Per image" else u "Per-call") Label_i18n price
    (formatTaskUsageUnitPrice price options) (if imageCount then E_image else E_request) None.

Definition usage_entry (options : DynamicPriceOptions) (tier : TaskTier)
    (e : str * BillingUsageFieldSchema) : option DynamicPriceEntry :=
  value ← shown_value (assoc_get e.1 (task_unitPrices tier));
  unit_ ← f_unit e.2;
  Some (with_texts (f_unitLabel e.2) (f_description e.2)
          (plain_entry e.1 e.1 e.1 e.1 Label_schema value (formatTaskUsageUnitPrice value options)
             (E_usage unit_) None)).

Definition constant_entry (options : DynamicPriceOptions) (constant : number) : DynamicPriceEntry :=
  plain_entry (u "constant") (u "constant") (u "Additional charge") (u "Additional charge") Label_i18n
    constant (formatTaskUsageUnitPrice constant options) E_request None.

Definition task_entries (options : DynamicPriceOptions) (schema : BillingUsageSchema) (tier : TaskTier)
  : list DynamicPriceEntry :=
  omap (usage_entry options tier) (getTaskNumberFields schema)
  ++ (if num_gtb (task_constant tier) zero then [constant_entry options (task_constant tier)] else []).

Definition token_entry (options : DynamicPriceOptions) (tier : ParsedTier) (variable : BillingVar)
  : option DynamicPriceEntry :=
  field ← bv_field variable;
  value ← shown_value (assoc_get field (pt_fields tier));
  if bool_decide (bv_key variable = Var_cr) && negb (num_eqb value zero)
     && match assoc_get (u "inputPrice") (pt_fields tier) with
        | Some input => num_eqb value input
        | None => false
        end
  then None
  else
    let five_minutes := bool_decide (bv_key variable = Var_cc)
                        && assoc_has (u "cacheCreate1hPrice") (pt_fields tier) in
    Some (plain_entry (variable_text (bv_key variable)) field
            (if five_minutes then u "Cache Creation (5m)" else bv_label variable)
            (if five_minutes then u "Cache Write (5m)" else bv_shortLabel variable)
            Label_i18n value (formatDynamicUnitPrice value options) E_token (Some variable)).

(** [.sort] by a test, which is stable: the entries with the test come first. *)
Definition sort_first (first : DynamicPriceEntry -> bool) (l : list DynamicPriceEntry)
  : list DynamicPriceEntry :=
  List.filter first l ++ List.filter (fun e => negb (first e)) l.

Definition token_entries (options : DynamicPriceOptions) (tier : ParsedTier) : list DynamicPriceEntry :=
  sort_first is_primary (omap (token_entry options tier) BILLING_PRICING_VARS).

Definition getDynamicPriceEntries (tier : option DynamicPricingTier) (options : DynamicPriceOptions)
  : list DynamicPriceEntry :=
  match tier with
  | None => []
  | Some (TokenRow t) =>
      match pt_billingUnit t, pt_fixedPrice t with
      | Some Unit_request, Some price => [fixed_entry options (pt_imageCount t) price]
      | _, _ => token_entries options t
      end
  | Some (TaskRow t) =>
      match dp_usageSchema options with
      | Some schema => task_entries options schema t
      | None => []
      end
  end.

(** ** Price ranges *)

Definition with_range (options : DynamicPriceOptions) (range : number * number) (e : DynamicPriceEntry)
  : DynamicPriceEntry :=
  {| de_key := de_key e; de_field := de_field e; de_label := de_label e; de_shortLabel := de_shortLabel e;
     de_labelKind := de_labelKind e; de_value := de_value e; de_formatted := de_formatted e;
     de_formattedRange := format_range options range.1 range.2;
     de_minValue := Some range.1; de_maxValue := Some range.2;
     de_unit := de_unit e; de_unitLabel := de_unitLabel e; de_variable := de_variable e;
     de_description := de_description e |}.

(** The loop over the tiers for one field. *)
Fixpoint price_range (field : str) (tiers : list DynamicPricingTier) (min max : number)
  : number * number :=
  match tiers with
  | [] => (min, max)
  | TaskRow t :: tiers =>
      match shown_value (assoc_get field (task_unitPrices t)) with
      | Some value => price_range field tiers (num_min min value) (num_max max value)
      | None => price_range field tiers min max
      end
  | TokenRow _ :: tiers => price_range field tiers min max
  end.

Definition priceRanges (schema : BillingUsageSchema) (tiers : list DynamicPricingTier)
  : list (str * (number * number)) :=
  fold_left (fun ranges e =>
    let '(min, max) := price_range e.1 tiers (Infinite false) (Infinite true) in
    if num_is_finite min && num_is_finite max then assoc_set e.1 (min, max) ranges else ranges)
    (getTaskNumberFields schema) [].

Definition ranged_entries (options : DynamicPriceOptions) (ranges : list (str * (number * number)))
    (entries : list DynamicPriceEntry) : list DynamicPriceEntry :=
  map (fun e => match assoc_get (de_field e) ranges with
                | Some range => with_range options range e
                | None => e end) entries.

(** ** Summaries *)

Definition is_charge (e : DynamicPriceEntry) : bool :=
  match de_unit e with E_request | E_image => true | E_usage _ => false end.
Definition is_request_tier (t : DynamicPricingTier) : bool :=
  match t with TokenRow t => bool_decide (pt_billingUnit t = Some Unit_request) | TaskRow _ => false end.
Definition is_token_tier (t : DynamicPricingTier) : bool :=
  match t with TokenRow t => negb (bool_decide (pt_billingUnit t = Some Unit_request)) | TaskRow _ => false end.

Definition with_schema (schema : option BillingUsageSchema) (options : DynamicPriceOptions)
  : DynamicPriceOptions :=
  {| dp_tokenUnit := dp_tokenUnit options; dp_showCurrencySymbol := dp_showCurrencySymbol options;
     dp_showRechargePrice := dp_showRechargePrice options; dp_priceRate := dp_priceRate options;
     dp_usdExchangeRate := dp_usdExchangeRate options;
     dp_groupRatioMultiplier := dp_groupRatioMultiplier options; dp_usageSchema := schema;
     dp_now := dp_now options |}.

(** The entries of a summary before ranges, and whether token and request tiers
    are mixed. *)
Definition summary_entries (model : PricingModel) (options : DynamicPriceOptions) (isTaskUsage : bool)
    (summaryTiers : list DynamicPricingTier) (tier : option DynamicPricingTier)
  : list DynamicPriceEntry * bool :=
  let entries := getDynamicPriceEntries tier (with_schema (billing_usage_schema model) options) in
  if isTaskUsage then (entries, false)
  else
    match List.find is_token_tier summaryTiers, List.find is_request_tier summaryTiers with
    | Some tokenTier, Some requestTier =>
        (getDynamicPriceEntries (Some tokenTier) options
         ++ getDynamicPriceEntries (Some requestTier) options, true)
    | _, _ => (entries, false)
    end.

Definition own_summary (model : PricingModel) (options : DynamicPriceOptions)
  : outcome (option DynamicPricingSummary) :=
  if negb (isDynamicPricingModel model) then Ok None
  else
    tiers ← own_pricing_tiers model;
    let isTaskUsage := isTaskUsagePricingModel model in
    '(baseExpression, _) ← splitBillingExprAndRequestRules (expression_of model);
    timeTiers ← (if isTaskUsage then Ok None
                 else getCurrentTimePricingTiers baseExpression (default (Some clock) (dp_now options)));
    let summaryTiers := match timeTiers with Some l => map TokenRow l | None => tiers end in
    let tier := if isTaskUsage then list.last summaryTiers else head summaryTiers in
    let '(entries, isMixedBilling) := summary_entries model options isTaskUsage summaryTiers tier in
    let entries :=
      if isTaskUsage
      then ranged_entries options (priceRanges (default [] (billing_usage_schema model)) tiers) entries
      else entries in
    hasRequestRules ← own_request_rules model;
    Ok (Some
      {| ds_tiers := tiers; ds_tier := tier; ds_tierCount := length tiers;
         ds_hasRequestRules := hasRequestRules;
         ds_isSpecialExpression := nonempty (trim (expression_of model)) && is_nil tiers;
         ds_rawExpression := expression_of model;
         ds_entries := entries;
         ds_primaryEntries :=
           if isTaskUsage then List.filter (fun e => negb (is_charge e)) entries
           else List.filter (fun e => is_charge e || is_primary e) entries;
         ds_secondaryEntries :=
           if isTaskUsage then List.filter is_charge entries
           else List.filter (fun e => negb (is_charge e) && negb (is_primary e)) entries;
         ds_isTaskUsage := isTaskUsage;
         ds_isTimePricing := Some (match timeTiers with Some _ => true | None => false end);
         ds_isMixedBilling := if isMixedBilling then Some true else None;
         ds_providerCount := None; ds_hasUnconfiguredProviders := None |}).

(** *** Several providers *)

(** [`${entry.field}:${entry.unit}`] *)
Definition unit_text (unit_ : EntryUnit) : str :=
  match unit_ with
  | E_usage U_second => u "second" | E_usage U_count => u "count" | E_usage U_token => u "token"
  | E_usage U_credit => u "credit" | E_request => u "request" | E_image => u "image"
  end.
Definition range_key (e : DynamicPriceEntry) : str := de_field e ++ u ":" ++ unit_text (de_unit e).

Record ProviderRange : Type := { rng_entry : DynamicPriceEntry; rng_min : number; rng_max : number }.

Definition with_key (key : str) (e : DynamicPriceEntry) : DynamicPriceEntry :=
  {| de_key := key; de_field := de_field e; de_label := de_label e; de_shortLabel := de_shortLabel e;
     de_labelKind := de_labelKind e; de_value := de_value e; de_formatted := de_formatted e;
     de_formattedRange := de_formattedRange e; de_minValue := de_minValue e;
     de_maxValue := de_maxValue e; de_unit := de_unit e; de_unitLabel := de_unitLabel e;
     de_variable := de_variable e; de_description := de_description e |}.

(** [!label || (typeof label === 'object' && Object.keys(label).length === 0)] *)
Definition no_label (label : option LocalizedText) : bool :=
  match label with
  | None => true
  | Some (Text s) => negb (nonempty s)
  | Some (Texts texts) => is_nil texts
  end.

(** The first entry of a key, with the first unit label that says something. *)
Definition merged_entry (range : option ProviderRange) (key : str) (entry : DynamicPriceEntry)
  : DynamicPriceEntry :=
  let merged := match range with Some r => rng_entry r | None => with_key key entry end in
  if no_label (de_unitLabel merged)
  then with_texts (de_unitLabel entry) (de_description merged) merged else merged.

(** One turn of the loop over the entries of the providers. *)
Definition add_range (ranges : list (str * ProviderRange)) (entry : DynamicPriceEntry)
  : list (str * ProviderRange) :=
  let key := range_key entry in
  let range := assoc_get key ranges in
  assoc_set key
    {| rng_entry := merged_entry range key entry;
       rng_min := num_min (match range with Some r => rng_min r | None => Infinite false end)
                    (default (de_value entry) (de_minValue entry));
       rng_max := num_max (match range with Some r => rng_max r | None => Infinite true end)
                    (default (de_value entry) (de_maxValue entry)) |} ranges.

Definition ranged_entry (options : DynamicPriceOptions) (r : ProviderRange) : DynamicPriceEntry :=
  let e := rng_entry r in
  {| de_key := de_key e; de_field := de_field e; de_label := de_label e; de_shortLabel := de_shortLabel e;
     de_labelKind := de_labelKind e; de_value := rng_min r;
     de_formatted := formatTaskUsageUnitPrice (rng_min r) options;
     de_formattedRange := format_range options (rng_min r) (rng_max r);
     de_minValue := Some (rng_min r); de_maxValue := Some (rng_max r);
     de_unit := de_unit e; de_unitLabel := de_unitLabel e; de_variable := de_variable e;
     de_description := de_description e |}.

Definition per_call_entries (model : PricingModel) (options : DynamicPriceOptions)
    (variants : list BillingPluginVariant) : list DynamicPriceEntry :=
  match model_price model with
  | Some price =>
      if num_eqb (quota_type model) QUOTA_REQUEST
         && existsb (fun v => is_mode (pv_billing_mode v) (u "ratio")) variants
      then [plain_entry (u "modelPrice") (u "modelPrice") (u "Price per request") (u "Per-call") Label_i18n
              price (formatTaskUsageUnitPrice price options) E_request None]
      else []
  | None => []
  end.

Definition is_provider_primary (e : DynamicPriceEntry) : bool :=
  negb (is_charge e) || str_eqb (de_field e) (u "modelPrice").

Definition provider_entries (options : DynamicPriceOptions) (entries : list (list DynamicPriceEntry))
  : list DynamicPriceEntry :=
  map (fun e => ranged_entry options e.2) (fold_left add_range (concat entries) []).

Definition providers_summary (model : PricingModel) (options : DynamicPriceOptions)
    (variants : list BillingPluginVariant) : outcome DynamicPricingSummary :=
  found ← map_result (fun v => own_summary (withPluginPricing model v) options) variants;
  let summaries := omap (M := list) (fun s => s) found in
  let perCallEntries := per_call_entries model options variants in
  let entries := provider_entries options (map ds_entries summaries ++ [perCallEntries]) in
  let primaryKeys := flat_map (fun s => map range_key (take 1 (ds_primaryEntries s))) summaries in
  let primary := sort_first (fun e => one_of primaryKeys (de_key e))
                   (List.filter is_provider_primary entries) in
  let tiers := flat_map ds_tiers summaries in
  Ok {| ds_tiers := tiers;
        ds_tier := match summaries with s :: _ => ds_tier s | [] => None end;
        ds_tierCount := length tiers;
        ds_hasRequestRules := existsb ds_hasRequestRules summaries;
        ds_isSpecialExpression :=
          is_nil perCallEntries && negb (is_nil summaries) && forallb ds_isSpecialExpression summaries;
        ds_rawExpression := match summaries with s :: _ => ds_rawExpression s | [] => [] end;
        ds_entries := entries;
        ds_primaryEntries := primary;
        ds_secondaryEntries := List.filter (fun e => negb (is_provider_primary e)) entries;
        ds_isTaskUsage := true;
        ds_isTimePricing := None; ds_isMixedBilling := None;
        ds_providerCount := if (2 <=? length variants)%nat then Some (length variants) else None;
        ds_hasUnconfiguredProviders := Some (existsb (unconfigured_variant model) variants) |}.

Definition getDynamicPricingSummary (model : PricingModel) (options : DynamicPriceOptions)
  : outcome (option DynamicPricingSummary) :=
  match own_variants model with
  | [] => own_summary model options
  | variants => summary ← providers_summary model options variants; Ok (Some summary)
  end.

(** ** The example on a card *)

Definition own_example_price (model : PricingModel) (options : DynamicPriceOptions)
  : outcome (option (str * str)) :=
  if negb (isTaskUsagePricingModel model) then Ok None
  else
    match billing_usage_schema model, billing_usage_examples model with
    | Some schema, Some ((label, facts) :: _) =>
        '(billingExpr, _) ← splitBillingExprAndRequestRules (expression_of model);
        config ← tryParseTaskVisualConfig billingExpr schema;
        Ok (config ← config;
            result ← evaluateTaskVisualConfig clock config facts schema;
            Some (label, formatTaskUsageUnitPrice (pr_total result) options))
    | _, _ => Ok None
    end.

Definition getCardExamplePrice (model : PricingModel) (options : DynamicPriceOptions)
  : outcome (option (str * str)) :=
  match own_variants model with
  | [] => own_example_price model options
  | variants =>
      match List.find (fun v => nonempty (pv_billing_expr v)) variants with
      | Some v => own_example_price (withPluginPricing model v) options
      | None => Ok None
      end
  end.
End dynamic_price.
