(* ===== verification/JsArray.v ===== *)
(** * Order: numbers and arrays

    Comparison, minimum and maximum of the numbers of [JsNumber], and the sign of a
    difference, which comparison functions return.

    [Array.prototype.sort] with a comparison function: stable, for any consistent
    comparison, and what a sorted array is; [localeCompare]; sets in the order of
    insertion. *)

From Stdlib Require Import Sorting.Sorted Sorting.Permutation.
From S2P Require Import Prelude JsNumber JsString Ast Compile TaskExpr.

(** ** The order of finite numbers *)

Lemma num_compare_scaled s m e t n f k : (k <= e)%Z -> (k <= f)%Z ->
  num_compare (Finite s m e) (Finite t n f) =
  Some (signed s m * 2 ^ (e - k) ?= signed t n * 2 ^ (f - k))%Z.
Proof.
  intros He Hf. cbn. f_equal. set (j := Z.min e f). assert (k <= j)%Z as Hk by (unfold j; lia).
  assert (0 < 2 ^ (j - k))%Z as Hp by (apply pow2_pos; lia).
  replace (e - k)%Z with ((e - j) + (j - k))%Z by lia. replace (f - k)%Z with ((f - j) + (j - k))%Z by lia.
  rewrite !pow2_split by (unfold j; lia). rewrite !Z.mul_assoc. by apply Zmult_compare_compat_r, Z.lt_gt.
Qed.

(** [x <= y] for numbers that are not [NaN]. *)
Definition le (x y : number) : Prop := num_leb x y = true.

Definition numeric (x : number) : bool := match x with NaN => false | _ => true end.

Lemma le_trans x y z : numeric y = true -> le x y -> le y z -> le x z.
Proof.
  unfold le, num_leb. destruct x as [|[]|s m e], y as [|[]|t n f], z as [|[]|v p g]; try done.
  set (k := Z.min e (Z.min f g)). intros _.
  rewrite !(num_compare_scaled _ _ _ _ _ _ k) by (unfold k; lia).
  repeat match goal with |- context [(?a ?= ?b)%Z] => destruct (Z.compare_spec a b) end; try done; lia.
Qed.

Lemma le_refl x : numeric x = true -> le x x.
Proof. destruct x as [|[]|s m e]; try done. intros _. unfold le, num_leb. by rewrite num_compare_refl. Qed.

Lemma lt_le x y : num_ltb x y = true -> le x y.
Proof. unfold le, num_leb, num_ltb. by destruct (num_compare x y) as [[]|]. Qed.

Lemma le_total x y : numeric x = true -> numeric y = true -> num_ltb x y = false -> le y x.
Proof.
  intros Hx Hy. unfold le, num_leb, num_ltb. rewrite (num_compare_sym x y).
  destruct (num_compare x y) as [[]|] eqn:E; try done. by destruct x as [|[]|], y as [|[]|].
Qed.

Lemma min_spec x y : numeric x = true -> numeric y = true ->
  le (num_min x y) x /\ le (num_min x y) y /\ (num_min x y = x \/ num_min x y = y).
Proof.
  intros Hx Hy. unfold num_min. pose proof (le_refl x Hx). pose proof (le_refl y Hy).
  assert (num_compare x y = Some Lt \/ num_compare x y = Some Eq -> le x y) as H1.
  { unfold le, num_leb. by intros [-> | ->]. }
  assert (num_compare x y = Some Gt \/ num_compare x y = Some Eq -> le y x) as H2.
  { unfold le, num_leb. rewrite (num_compare_sym x y). by intros [-> | ->]. }
  destruct (num_compare x y) as [[]|] eqn:E; [destruct (num_negative x)| | |]; auto 10.
  by destruct x as [|[]|], y as [|[]|].
Qed.

Lemma max_spec x y : numeric x = true -> numeric y = true ->
  le x (num_max x y) /\ le y (num_max x y) /\ (num_max x y = x \/ num_max x y = y).
Proof.
  intros Hx Hy. unfold num_max. pose proof (le_refl x Hx). pose proof (le_refl y Hy).
  assert (num_compare x y = Some Lt \/ num_compare x y = Some Eq -> le x y) as H1.
  { unfold le, num_leb. by intros [-> | ->]. }
  assert (num_compare x y = Some Gt \/ num_compare x y = Some Eq -> le y x) as H2.
  { unfold le, num_leb. rewrite (num_compare_sym x y). by intros [-> | ->]. }
  destruct (num_compare x y) as [[]|] eqn:E; [destruct (num_negative x)| | |]; auto 10.
  by destruct x as [|[]|], y as [|[]|].
Qed.

Lemma min_numeric x y : numeric x = true -> numeric y = true -> numeric (num_min x y) = true.
Proof. intros Hx Hy. by destruct (min_spec x y Hx Hy) as (_ & _ & [-> | ->]). Qed.
Lemma max_numeric x y : numeric x = true -> numeric y = true -> numeric (num_max x y) = true.
Proof. intros Hx Hy. by destruct (max_spec x y Hx Hy) as (_ & _ & [-> | ->]). Qed.

Lemma finite_numeric x : num_is_finite x = true -> numeric x = true.
Proof. by destruct x. Qed.

#[local] Open Scope Z_scope.

(** ** The sign of a difference *)

Lemma round_positive neg n d : 0 < n -> 0 < d -> below n d (-1074) ->
  round neg n d = Infinite neg \/ exists m e, round neg n d = Finite neg m e /\ 0 < m.
Proof.
  intros Hn Hd Hb. pose proof (round_quotient_bounds n d Hn Hd) as [Hq Hor]. cbn zeta in Hq, Hor.
  unfold round. destruct (Z.eqb_spec n 0); [lia|]. set (e := round_exponent n d) in *.
  assert (1 <= quotient n d e) as H1.
  { destruct Hor as [?| ->]; [lia|]. apply (below_quotient n d (-1074) 0); [lia..|]. done. }
  pose proof (round_div_even_bounds (n * 2 ^ pos (- e)) (d * 2 ^ pos e)) as Hr.
  fold (quotient n d e) in Hr.
  assert (0 < round_div_even (n * 2 ^ pos (- e)) (d * 2 ^ pos e)) as Hp.
  { enough (quotient n d e <= round_div_even (n * 2 ^ pos (- e)) (d * 2 ^ pos e)) by lia.
    apply Hr; [|by apply divisor_pos]. apply Z.mul_nonneg_nonneg; [lia|]. apply Z.pow_nonneg. lia. }
  destruct (_ =? 2 ^ 53); destruct (971 <? _); eauto 6. right. eexists _, _. split; [done|]. lia.
Qed.

Lemma valid_exponent s m e : valid (Finite s m e) = true -> -1074 <= e.
Proof. unfold valid. rewrite !andb_true_iff. intros ((((_ & _) & H%Z.leb_le) & _) & _). done. Qed.

Lemma scaled_below z k : 0 < z -> -1074 <= k -> below (z * 2 ^ pos k) (2 ^ pos (- k)) (-1074).
Proof.
  intros Hz Hk. apply below_mono with (k := k); [apply pow2_pos; unfold pos; lia|done|].
  unfold below. assert (0 < 2 ^ pos k) by (apply pow2_pos; unfold pos; lia).
  assert (0 < 2 ^ pos (- k)) by (apply pow2_pos; unfold pos; lia). nia.
Qed.

(** The difference of two numbers never rounds to zero: its sign is their order. *)
Lemma sub_compare x y : valid x = true -> valid y = true -> num_is_finite x = true -> num_is_finite y = true ->
  num_compare (num_sub x y) zero = num_compare x y.
Proof.
  destruct x as [|[]|s m e], y as [|[]|t n f]; try done. intros Hx%valid_exponent Hy%valid_exponent _ _.
  set (k := Z.min e f). rewrite (num_compare_scaled s m e t n f k) by (unfold k; lia).
  unfold num_sub, num_neg, num_add. fold k.
  replace (signed (negb t) n) with (- signed t n) by (unfold signed; destruct t; cbn; lia).
  set (a := signed s m * 2 ^ (e - k)). set (b := signed t n * 2 ^ (f - k)).
  replace (a + - signed t n * 2 ^ (f - k)) with (a - b) by (unfold b; lia).
  destruct (Z.eqb_spec (a - b) 0) as [E|E].
  { replace b with a by lia. rewrite Z.compare_refl. by destruct (s && negb t). }
  unfold round_scaled.
  destruct (round_positive (a - b <? 0) (Z.abs (a - b) * 2 ^ pos k) (2 ^ pos (- k))) as [->|(m' & e' & -> & Hm)].
  - apply Z.mul_pos_pos; [lia|]. apply pow2_pos. unfold pos. lia.
  - apply pow2_pos. unfold pos. lia.
  - apply scaled_below; unfold k; lia.
  - destruct (Z.ltb_spec (a - b) 0), (Z.compare_spec a b); done || lia.
  - unfold zero. rewrite (num_compare_scaled _ _ _ _ _ _ (Z.min (-1074) e')) by lia.
    assert (0 < 2 ^ (e' - Z.min (-1074) e')) by (apply pow2_pos; lia).
    destruct (Z.ltb_spec (a - b) 0), (Z.compare_spec a b); cbn [signed]; try lia;
      match goal with |- context [(?x ?= ?y)] => destruct (Z.compare_spec x y) end; done || nia.
Qed.

Lemma sub_positive x y : valid x = true -> valid y = true -> num_is_finite x = true -> num_is_finite y = true ->
  num_gtb (num_sub x y) zero = num_gtb x y.
Proof. intros. unfold num_gtb, num_ltb. rewrite (num_compare_sym _ zero), (num_compare_sym x y). by rewrite sub_compare. Qed.

#[local] Open Scope nat_scope.

(** ** Comparisons *)

(** The sign of what a comparison function returns; [NaN] counts as 0. *)
Definition sign_of (x : number) : comparison :=
  if num_ltb x zero then Lt else if num_ltb zero x then Gt else Eq.

(** [c || d] of two comparison results. *)
Definition or_compare (c d : comparison) : comparison := match c with Eq => d | _ => c end.

(** [compare(x, y) > 0] *)
Definition positive (c : comparison) : bool := match c with Gt => true | _ => false end.

(** [a.localeCompare(b)] *)
Definition localeCompare `{Collation} (a b : str) : comparison :=
  if locale_leb a b then (if locale_leb b a then Eq else Lt) else Gt.

(** ** Sets *)

(** [new Set(l)] *)
Definition set_of {A} `{EqDecision A} (l : list A) : list A := fold_left (fun s x => set_add x s) l [].

Lemma set_of_snoc {A} `{EqDecision A} (l : list A) x : set_of (l ++ [x]) = set_add x (set_of l).
Proof. unfold set_of. by rewrite fold_left_app. Qed.
Lemma elem_of_set_of {A} `{EqDecision A} (l : list A) x : x ∈ set_of l <-> x ∈ l.
Proof. unfold set_of. rewrite fold_set_add_elem. pose proof (not_elem_of_nil x). tauto. Qed.
Lemma set_of_NoDup {A} `{EqDecision A} (l : list A) : NoDup (set_of l).
Proof. unfold set_of. apply fold_set_add_NoDup, NoDup_nil_2. Qed.

(** The keys of a map are such a set. *)
Lemma assoc_set_keys {K V} `{EqDecision K} (m : list (K * V)) k v : (assoc_set k v m).*1 = set_add k m.*1.
Proof.
  unfold set_add. induction m as [|[k' v'] m IH]; [by rewrite bool_decide_eq_false_2 by apply not_elem_of_nil|]. cbn [assoc_set]. destruct (decide (k' = k)) as [->|Ek].
  - cbn [fmap list_fmap fst]. rewrite bool_decide_eq_true_2 by (by left). done.
  - cbn [fmap list_fmap fst]. rewrite IH. case_bool_decide as Hin.
    + rewrite bool_decide_eq_true_2; [done|]. by right.
    + rewrite bool_decide_eq_false_2; [done|]. intros [->|?]%elem_of_cons; done.
Qed.

(** ** Sorting *)

(** [after x y] says that [compare(x, y)] is positive. *)
Fixpoint insert_after {A} (after : A -> A -> bool) (x : A) (l : list A) : list A :=
  match l with
  | [] => [x]
  | y :: l => if after x y then y :: insert_after after x l else x :: y :: l
  end.
Definition sort_after {A} (after : A -> A -> bool) (l : list A) : list A := foldr (insert_after after) [] l.

(** [l.sort(compare)] *)
Definition sort_by {A} (compare : A -> A -> comparison) (l : list A) : list A :=
  sort_after (fun x y => positive (compare x y)) l.

Section sorting.
Context {A : Type} (after : A -> A -> bool).

Lemma insert_after_perm x l : Permutation (insert_after after x l) (x :: l).
Proof.
  induction l as [|y l IH]; cbn; [done|]. destruct (after x y); [|done]. rewrite IH. apply perm_swap.
Qed.
Lemma sort_after_perm l : Permutation (sort_after after l) l.
Proof. induction l as [|x l IH]; cbn; [done|]. fold (sort_after after l). by rewrite insert_after_perm, IH. Qed.

(** Elements the comparison does not tell apart keep their order. *)
Lemma sort_after_stable (p : A -> bool) l :
  (forall x y, x ∈ l -> y ∈ l -> p x = true -> p y = true -> after x y = false) ->
  List.filter p (sort_after after l) = List.filter p l.
Proof.
  induction l as [|x l IH]; intros Hp; cbn; [done|]. fold (sort_after after l).
  rewrite <- IH by (intros; apply Hp; by try right).
  assert (forall y, y ∈ sort_after after l -> p x = true -> p y = true -> after x y = false) as Hx.
  { intros y Hy. rewrite sort_after_perm in Hy. apply Hp; [by left|by right]. }
  clear IH Hp. induction (sort_after after l) as [|y k IH]; cbn; [done|].
  destruct (after x y) eqn:E; [|done]. cbn. rewrite IH by (intros; apply Hx; [by right|done|done]).
  destruct (p x) eqn:Ex, (p y) eqn:Ey; try done. rewrite Hx in E; [done|by left|done|done].
Qed.

Context (good : A -> Prop) (R : A -> A -> Prop).
Hypothesis after_R : forall x y, good x -> good y -> if after x y then R y x else R x y.
Hypothesis R_trans : forall x y z, good x -> good y -> good z -> R x y -> R y z -> R x z.

Lemma insert_after_sorted x l : good x -> Forall good l ->
  StronglySorted R l -> StronglySorted R (insert_after after x l).
Proof.
  intros Hx Hl Hs. induction Hs as [|y l Hs IH Hy]; cbn; [by repeat constructor|].
  apply Forall_cons_iff in Hl as [Gy Gl]. pose proof (after_R x y Hx Gy) as Ha. destruct (after x y).
  - constructor; [by apply IH|]. apply Forall_forall. intros z Hz.
    rewrite insert_after_perm in Hz. destruct Hz as [<-|Hz]; [done|].
    rewrite Forall_forall in Hy. by apply Hy.
  - constructor; [by constructor|]. constructor; [done|]. apply Forall_forall. intros z Hz.
    rewrite Forall_forall in Hy, Gl. eapply R_trans; eauto.
Qed.

Lemma sort_after_sorted l : Forall good l -> StronglySorted R (sort_after after l).
Proof.
  induction 1 as [|x l Hx Hl IH]; cbn; [constructor|]. fold (sort_after after l).
  apply insert_after_sorted; [done| |done]. by rewrite sort_after_perm.
Qed.
End sorting.

Lemma sort_by_perm {A} (compare : A -> A -> comparison) l : Permutation (sort_by compare l) l.
Proof. apply sort_after_perm. Qed.

(** A function the comparison does not notice can be applied before or after. *)
Lemma sort_by_map {A B} (f : A -> B) (compare : A -> A -> comparison) (compare' : B -> B -> comparison) l :
  (forall x y, compare' (f x) (f y) = compare x y) -> sort_by compare' (map f l) = map f (sort_by compare l).
Proof.
  intros Hc. unfold sort_by, sort_after. induction l as [|x l IH]; [done|]. cbn [map foldr]. rewrite IH. clear IH.
  induction (foldr _ [] l) as [|y k IH]; [done|]. cbn [map insert_after]. rewrite Hc.
  destruct (positive (compare x y)); [|done]. cbn [map]. by rewrite IH.
Qed.
