(* ===== verification/Catalog.v ===== *)
(** * The catalogue of models

    [lib/localized-text.ts], [features/pricing/lib/task-price-display.ts] and
    [features/pricing/lib/filters.ts]: the texts of task prices, and the search,
    filters and orders of the list of models. *)

From Stdlib Require Import String.
From S2P Require Import Prelude JsNumber JsArray JsString JsText Ast Parser Compile Request BillingTime Runtime.
From S2P Require Import Display TaskDisplay Regex Json BillingExpr TierExpr TaskExpr ConditionDisplay TaskTable.
From S2P Require Import Currency PricingModel DynamicPrice.

(** ** [localized-text.ts] *)

(** [s.replaceAll('_', '-')] *)
Definition hyphens (s : str) : str := map (fun c => if N.eqb c 95 then minus_sign else c) s.

Section localized_text.
Context `{Host} `{Collation}.

(** [key.trim().replaceAll('_', '-').toLowerCase()] *)
Definition locale_tag (key : str) : str := toLowerCase (hyphens (trim key)).

(** [if (tag && !keys.includes(tag)) keys.push(tag)] *)
Definition add_tag (tag : str) (keys : list str) : list str :=
  if nonempty tag && negb (one_of keys tag) then keys ++ [tag] else keys.

Definition localeFallbackKeys (language : str) : list str :=
  let normalized := locale_tag language in
  let named tag := str_eqb normalized (u tag) in
  let keys := add_tag normalized [] in
  let keys := if named "zhcn"%string then add_tag (u "zh-cn") keys else keys in
  let keys := if named "zhtw"%string then add_tag (u "zh-tw") keys else keys in
  let keys :=
    if includes normalized [minus_sign] then
      add_tag (take_while (fun c => negb (N.eqb c minus_sign)) normalized) keys
    else if named "zhcn"%string || named "zhtw"%string then add_tag (u "zh") keys
    else keys in
  add_tag (u "en") keys.

(** The loop over the entries of the map. *)
Definition localized_texts (value : list (str * str)) : list (str * str) :=
  fold_left (fun texts e =>
    if negb (nonempty (trim e.2)) then texts
    else
      let locale := locale_tag e.1 in
      if negb (nonempty locale) then texts else assoc_set locale e.2 texts) value [].

(** The first candidate with a text. *)
Fixpoint first_text (candidates : list str) (texts : list (str * str)) : option str :=
  match candidates with
  | [] => None
  | candidate :: candidates =>
      match assoc_get candidate texts with
      | Some hit => Some hit
      | None => first_text candidates texts
      end
  end.

Definition resolveLocalizedText (value : option LocalizedText) (language : str) : str :=
  match value with
  | None => []
  | Some (Text s) => s
  | Some (Texts value) =>
      let texts := localized_texts value in
      match first_text (localeFallbackKeys language) texts with
      | Some hit => hit
      | None =>
          match sort_by_key texts with
          | (firstKey, _) :: _ => if nonempty firstKey then default [] (assoc_get firstKey texts) else []
          | [] => []
          end
      end
  end.

(** ** [task-price-display.ts] *)

(** [x || y] on texts *)
Definition text_or (x y : str) : str := if nonempty x then x else y.

Definition taskPriceLabel (description : option LocalizedText) (field language : str) : str :=
  let localized :=
    match description with
    | Some (Texts texts) =>
        Some (Texts (assoc_set (u "en") (text_or (trim (default [] (assoc_get (u "en") texts))) field) texts))
    | _ => description
    end in
  text_or (resolveLocalizedText localized language) field.

Definition taskEnumLabel (definition : option BillingUsageFieldSchema) (value language : str) : str :=
  taskPriceLabel ((definition ≫= f_enumLabels) ≫= assoc_get value) value language.

Definition taskUsageUnitLabel (definition : option BillingUsageFieldSchema) (language fallback : str) : str :=
  match definition with
  | Some d =>
      if negb (bool_decide (f_unit d = Some U_count)) then fallback
      else text_or (resolveLocalizedText (f_unitLabel d) language) fallback
  | None => fallback
  end.

(** [' · '], with U+00B7 *)
Definition middle_dot : str := [32; 183; 32]%N.

Section conditions.
Context `{Locale}.

Definition condition_label (schema : BillingUsageSchema) (language : str) (c : TaskCondition) : str :=
  let definition := assoc_get (tk_field c) schema in
  let label := taskPriceLabel (definition ≫= f_description) (tk_field c) language in
  if bool_decide ((definition ≫= f_type) = Some F_boolean) then
    label ++ u ": " ++ translate (if str_eqb (tk_value c) (u "true") then u "Yes" else u "No") []
  else
    let optionLabel := taskEnumLabel definition (tk_value c) language in
    if negb (str_eqb optionLabel (tk_value c)) then optionLabel else label ++ u ": " ++ optionLabel.

Definition taskPricingConditions (conditions : list TaskCondition) (schema : BillingUsageSchema)
    (language : str) : str :=
  join middle_dot (map (condition_label schema language) conditions).

Definition taskTierConditions (tier : TaskTier) (schema : BillingUsageSchema) (language : str) : str :=
  let usage := taskPricingConditions (task_conditions tier) schema language in
  let time :=
    match task_conditionText tier with
    | Some text => if nonempty text then default text (formatBillingCondition text) else []
    | None => []
    end in
  join middle_dot (List.filter nonempty [usage; time]).
End conditions.
End localized_text.

Definition hasSimpleTaskPricing (model : PricingModel) : outcome bool :=
  match billing_usage_schema model with
  | None => Ok false
  | Some schema =>
      if negb (is_mode (billing_mode model) (u "tiered_expr")) || negb (nonempty (expression_of model))
      then Ok false
      else
        '(billingExpr, requestRuleExpr) ← splitBillingExprAndRequestRules (expression_of model);
        if nonempty (trim requestRuleExpr) then Ok false
        else
          tiers ← getTaskPricingDisplayTiers billingExpr (Some schema);
          Ok (match tiers with [tier] => no_text (task_conditionText tier) | _ => false end)
  end.

(** The visitor; [missingUsageMetadata] is the state. *)
Definition metadata_visitor (schema : option BillingUsageSchema) (missing : bool) (node : ExpressionNode)
  : outcome bool :=
  Ok (match node with
      | Call Fn_u args _ _ =>
          match schema, args with
          | Some schema, Literal (LString key) _ _ _ :: _ => missing || negb (assoc_has key schema)
          | _, _ => true
          end
      | _ => missing
      end).

Definition pricingDisplayFallbackKey (expression : str) (schema : option BillingUsageSchema) : outcome str :=
  missing ← (match compile expression with
             | inl compiled => visitExpression (metadata_visitor schema) (ce_ast compiled) false
             | inr _ => Ok false
             end);
  Ok (if (missing : bool)
      then u "Task usage metadata is unavailable. Pricing details cannot be displayed."
      else u "This expression cannot be expanded into a price table. View the original expression below.").

(** ** [filters.ts] *)

Definition SORT_NAME : str := u "name".
Definition SORT_PRICE_LOW : str := u "price-low".
Definition SORT_PRICE_HIGH : str := u "price-high".
Definition QUOTA_TYPES_ALL : str := u "all".
Definition QUOTA_TYPES_TOKEN : str := u "token".
Definition QUOTA_TYPES_TASK : str := u "task".
Definition ENDPOINT_TYPES_ALL : str := u "all".

(** [[,;|\s]] *)
Definition is_tag_separator (c : N) : bool := bool_decide (c ∈ u ",;|") || is_space c.

(** [s.split(/[,;|\s]+/)]; [piece] is the text since the last separator, reversed;
    [fresh] says that the last character was a separator. *)
Fixpoint split_tags (s piece : str) (fresh : bool) : list str :=
  match s with
  | [] => [rev piece]
  | c :: s =>
      if is_tag_separator c then
        if fresh then split_tags s [] true else rev piece :: split_tags s [] true
      else split_tags s (c :: piece) false
  end.

(** A run of separators at the start leaves an empty first piece, as in the
    middle: [fresh] is false at the start. *)
Definition parseTags (tagsString : option str) : list str :=
  match tagsString with
  | None => []
  | Some s => if negb (nonempty s) then [] else List.filter nonempty (map trim (split_tags s [] false))
  end.

Section filters.
Context `{Host} `{Collation}.

(** [text?.toLowerCase().includes(lowerQuery)] *)
Definition mentions (lowerQuery : str) (text : option str) : bool :=
  match text with Some s => includes (toLowerCase s) lowerQuery | None => false end.

Definition filterBySearch (models : list PricingModel) (query : str) : list PricingModel :=
  if negb (nonempty query) then models
  else
    let lowerQuery := toLowerCase query in
    List.filter (fun m =>
      mentions lowerQuery (Some (model_name m)) || mentions lowerQuery (model_description m)
      || mentions lowerQuery (tags m) || mentions lowerQuery (vendor_name m)) models.

Definition filterByVendor (models : list PricingModel) (vendor : str) : list PricingModel :=
  if str_eqb vendor FILTER_ALL then models
  else List.filter (fun m => bool_decide (vendor_name m = Some vendor)) models.

Definition filterByGroup (models : list PricingModel) (group : str) : list PricingModel :=
  if str_eqb group FILTER_ALL then models
  else List.filter (fun m => one_of (default [] (enable_groups m)) group) models.

Definition filterByQuotaType (models : list PricingModel) (quotaType : str) : list PricingModel :=
  if str_eqb quotaType QUOTA_TYPES_ALL then models
  else if str_eqb quotaType QUOTA_TYPES_TASK then List.filter hasTaskUsageSchema models
  else
    let targetType := if str_eqb quotaType QUOTA_TYPES_TOKEN then QUOTA_TOKEN else QUOTA_REQUEST in
    List.filter (fun m => num_eqb (quota_type m) targetType && negb (hasTaskUsageSchema m)) models.

Definition filterByEndpointType (models : list PricingModel) (endpointType : str) : list PricingModel :=
  if str_eqb endpointType ENDPOINT_TYPES_ALL then models
  else List.filter (fun m => one_of (default [] (supported_endpoint_types m)) endpointType) models.

Definition getModelPrice (model : PricingModel) : number :=
  if num_eqb (quota_type model) zero then model_ratio model else fixed_price_of model.

(** The comparisons of [sortModels]. *)
Definition name_after (a b : PricingModel) : bool := negb (locale_leb (model_name a) (model_name b)).
Definition dearer (a b : PricingModel) : bool :=
  num_gtb (num_sub (getModelPrice a) (getModelPrice b)) zero.
Definition cheaper (a b : PricingModel) : bool :=
  num_gtb (num_sub (getModelPrice b) (getModelPrice a)) zero.

Definition sortModels (models : list PricingModel) (sortBy : str) : list PricingModel :=
  if str_eqb sortBy SORT_NAME then sort_after name_after models
  else if str_eqb sortBy SORT_PRICE_LOW then sort_after dearer models
  else if str_eqb sortBy SORT_PRICE_HIGH then sort_after cheaper models
  else models.

Definition extractAllTags (models : list PricingModel) : list str :=
  let tagSet := fold_left (fun s m =>
    fold_left (fun s tag => set_add (toLowerCase tag) s) (parseTags (tags m)) s) models [] in
  map fst (sort_by_key (map (fun tag => (tag, tt)) tagSet)).

Definition filterByTag (models : list PricingModel) (tag : str) : list PricingModel :=
  if str_eqb tag FILTER_ALL then models
  else
    let tagLower := toLowerCase tag in
    List.filter (fun m => one_of (map toLowerCase (parseTags (tags m))) tagLower) models.

Record Filters : Type := {
  fl_search : str;
  fl_vendor : str;
  fl_group : str;
  fl_quotaType : str;
  fl_endpointType : str;
  fl_tag : str;
  fl_sortBy : str;
}.

Definition filterAndSortModels (models : list PricingModel) (filters : Filters) : list PricingModel :=
  let result := filterBySearch models (fl_search filters) in
  let result := filterByVendor result (fl_vendor filters) in
  let result := filterByGroup result (fl_group filters) in
  let result := filterByQuotaType result (fl_quotaType filters) in
  let result := filterByEndpointType result (fl_endpointType filters) in
  let result := filterByTag result (fl_tag filters) in
  sortModels result (fl_sortBy filters).
End filters.
