(* ===== verification/ChatMessage.v ===== *)
(** * Messages of the playground

    [features/playground/types.ts] and [features/playground/lib/message]: messages
    with their versions and timings, the reasoning between [<think>] tags, the
    chunks of a streamed answer, the settling of answers and the operations on a
    conversation; and [lib/streaming/payload-builder.ts].

    A function that reads the clock takes [clock], whose [k]-th value is the [k]-th
    [Date.now()] of the call; a function that makes identifiers takes them as
    arguments ([nanoid]). *)

From Stdlib Require Import String.
From S2P Require Import Prelude JsNumber JsString JsText Ast Request Json.

#[local] Open Scope nat_scope.

(** ** Types and constants *)

Inductive MessageRole : Type := Role_user | Role_assistant | Role_system.
Inductive MessageStatus : Type := Status_loading | Status_streaming | Status_complete | Status_error.

#[export] Instance MessageRole_eq_dec : EqDecision MessageRole.
Proof. solve_decision. Defined.
#[export] Instance MessageStatus_eq_dec : EqDecision MessageStatus.
Proof. solve_decision. Defined.

Record MessageVersion : Type := Version { v_id : str; v_content : str }.

Record Reasoning : Type := {
  r_content : str;
  r_duration : number;
  r_startedAt : option number;
  r_completedAt : option number;
  r_durationMs : option number;
}.

(** A field with [?] is an option; [errorCode] can also be [null]. *)
Record Message : Type := {
  m_key : str;
  m_from : MessageRole;
  m_versions : list MessageVersion;
  m_createdAt : option number;
  m_startedAt : option number;
  m_completedAt : option number;
  m_durationMs : option number;
  m_sources : option (list (str * str));
  m_reasoning : option Reasoning;
  m_isReasoningStreaming : option bool;
  m_isReasoningComplete : option bool;
  m_isContentComplete : option bool;
  m_status : option MessageStatus;
  m_errorCode : option (option str);
}.

Record ErrorMessages : Type := {
  API_REQUEST_ERROR : str;
  NETWORK_ERROR : str;
  PARSE_ERROR : str;
  STREAM_START_ERROR : str;
  CONNECTION_CLOSED : str;
  INTERRUPTED : str;
}.
Definition ERROR_MESSAGES : ErrorMessages := {|
  API_REQUEST_ERROR := u "Request error occurred";
  NETWORK_ERROR := u "Network connection failed or server not responding";
  PARSE_ERROR := u "Error parsing response data";
  STREAM_START_ERROR := u "Error establishing connection";
  CONNECTION_CLOSED := u "Connection closed";
  INTERRUPTED := u "Generation was interrupted";
|}.

(** *** [{ ...message, field: value }] *)

Definition with_versions (l : list MessageVersion) (m : Message) : Message :=
  {| m_key := m_key m; m_from := m_from m; m_versions := l; m_createdAt := m_createdAt m;
     m_startedAt := m_startedAt m; m_completedAt := m_completedAt m; m_durationMs := m_durationMs m;
     m_sources := m_sources m; m_reasoning := m_reasoning m;
     m_isReasoningStreaming := m_isReasoningStreaming m; m_isReasoningComplete := m_isReasoningComplete m;
     m_isContentComplete := m_isContentComplete m; m_status := m_status m; m_errorCode := m_errorCode m |}.
Definition with_createdAt (t : option number) (m : Message) : Message :=
  {| m_key := m_key m; m_from := m_from m; m_versions := m_versions m; m_createdAt := t;
     m_startedAt := m_startedAt m; m_completedAt := m_completedAt m; m_durationMs := m_durationMs m;
     m_sources := m_sources m; m_reasoning := m_reasoning m;
     m_isReasoningStreaming := m_isReasoningStreaming m; m_isReasoningComplete := m_isReasoningComplete m;
     m_isContentComplete := m_isContentComplete m; m_status := m_status m; m_errorCode := m_errorCode m |}.
Definition with_timing (started completed duration : number) (m : Message) : Message :=
  {| m_key := m_key m; m_from := m_from m; m_versions := m_versions m; m_createdAt := m_createdAt m;
     m_startedAt := Some started; m_completedAt := Some completed; m_durationMs := Some duration;
     m_sources := m_sources m; m_reasoning := m_reasoning m;
     m_isReasoningStreaming := m_isReasoningStreaming m; m_isReasoningComplete := m_isReasoningComplete m;
     m_isContentComplete := m_isContentComplete m; m_status := m_status m; m_errorCode := m_errorCode m |}.
Definition with_reasoning (r : option Reasoning) (m : Message) : Message :=
  {| m_key := m_key m; m_from := m_from m; m_versions := m_versions m; m_createdAt := m_createdAt m;
     m_startedAt := m_startedAt m; m_completedAt := m_completedAt m; m_durationMs := m_durationMs m;
     m_sources := m_sources m; m_reasoning := r;
     m_isReasoningStreaming := m_isReasoningStreaming m; m_isReasoningComplete := m_isReasoningComplete m;
     m_isContentComplete := m_isContentComplete m; m_status := m_status m; m_errorCode := m_errorCode m |}.
Definition with_streaming (b : bool) (m : Message) : Message :=
  {| m_key := m_key m; m_from := m_from m; m_versions := m_versions m; m_createdAt := m_createdAt m;
     m_startedAt := m_startedAt m; m_completedAt := m_completedAt m; m_durationMs := m_durationMs m;
     m_sources := m_sources m; m_reasoning := m_reasoning m;
     m_isReasoningStreaming := Some b; m_isReasoningComplete := m_isReasoningComplete m;
     m_isContentComplete := m_isContentComplete m; m_status := m_status m; m_errorCode := m_errorCode m |}.
Definition with_status (s : MessageStatus) (m : Message) : Message :=
  {| m_key := m_key m; m_from := m_from m; m_versions := m_versions m; m_createdAt := m_createdAt m;
     m_startedAt := m_startedAt m; m_completedAt := m_completedAt m; m_durationMs := m_durationMs m;
     m_sources := m_sources m; m_reasoning := m_reasoning m;
     m_isReasoningStreaming := m_isReasoningStreaming m; m_isReasoningComplete := m_isReasoningComplete m;
     m_isContentComplete := m_isContentComplete m; m_status := Some s; m_errorCode := m_errorCode m |}.
Definition with_errorCode (e : option str) (m : Message) : Message :=
  {| m_key := m_key m; m_from := m_from m; m_versions := m_versions m; m_createdAt := m_createdAt m;
     m_startedAt := m_startedAt m; m_completedAt := m_completedAt m; m_durationMs := m_durationMs m;
     m_sources := m_sources m; m_reasoning := m_reasoning m;
     m_isReasoningStreaming := m_isReasoningStreaming m; m_isReasoningComplete := m_isReasoningComplete m;
     m_isContentComplete := m_isContentComplete m; m_status := m_status m; m_errorCode := Some e |}.

(** ** [message-utils.ts] *)

Definition createMessageVersion (id content : str) : MessageVersion := Version id content.

Definition getCurrentVersion (message : Message) : MessageVersion :=
  match m_versions message with version :: _ => version | [] => Version (u "default") [] end.

Definition getMessageContent (message : Message) : str := v_content (getCurrentVersion message).

Definition hasMessageContent (message : Message) : bool := nonempty (trim (getMessageContent message)).

Definition updateCurrentVersionContent (message : Message) (content : str) : Message :=
  with_versions [Version (v_id (getCurrentVersion message)) content] message.

Definition createUserMessage (key id content : str) (createdAt : number) : Message :=
  {| m_key := key; m_from := Role_user; m_versions := [createMessageVersion id content];
     m_createdAt := Some createdAt; m_startedAt := None; m_completedAt := None; m_durationMs := None;
     m_sources := None; m_reasoning := None; m_isReasoningStreaming := None;
     m_isReasoningComplete := None; m_isContentComplete := None; m_status := None; m_errorCode := None |}.

Definition createLoadingAssistantMessage (key id : str) (startedAt : number) : Message :=
  {| m_key := key; m_from := Role_assistant; m_versions := [createMessageVersion id []];
     m_createdAt := Some startedAt; m_startedAt := Some startedAt; m_completedAt := None;
     m_durationMs := None; m_sources := None; m_reasoning := None; m_isReasoningStreaming := Some false;
     m_isReasoningComplete := Some false; m_isContentComplete := Some false;
     m_status := Some Status_loading; m_errorCode := None |}.

Inductive ContentPart : Type := Part_text (text : str) | Part_image (url : str).
Inductive MessageContent : Type := Content_text (text : str) | Content_parts (parts : list ContentPart).

Definition buildMessageContent (text : str) (imageUrls : list str) : MessageContent :=
  match List.filter (fun url => nonempty (trim url)) imageUrls with
  | [] => Content_text text
  | validImages => Content_parts (Part_text text :: map (fun url => Part_image (trim url)) validImages)
  end.

Definition getTextContent (content : MessageContent) : str :=
  match content with
  | Content_text text => text
  | Content_parts parts =>
      match List.find (fun part => match part with Part_text _ => true | Part_image _ => false end) parts with
      | Some (Part_text text) => text
      | _ => []
      end
  end.

Record ChatCompletionMessage : Type := { cm_role : MessageRole; cm_content : str }.

Definition formatMessageForAPI (message : Message) : ChatCompletionMessage :=
  {| cm_role := m_from message; cm_content := v_content (getCurrentVersion message) |}.

Definition isValidMessage (message : Message) : bool :=
  match m_versions message with
  | [] => false
  | _ => negb (bool_decide (m_from message = Role_assistant) && negb (hasMessageContent message))
  end.

(** ** [message-reasoning-utils.ts] *)

Record ParsedThinkTags : Type := Parsed {
  visibleContent : str;
  think_reasoning : str;
  hasUnclosedTag : bool;
}.

Definition open_tag : str := u "<think>".
Definition close_tag : str := u "</think>".

(** The loop, on the text from [currentPos] on. *)
Fixpoint think_loop (fuel : nat) (rest : str) (visibleParts reasoningParts : list str)
  : list str * list str * bool :=
  match fuel with
  | O => (visibleParts, reasoningParts, false)
  | S fuel =>
      match position_of rest open_tag with
      | None => (if nonempty rest then visibleParts ++ [rest] else visibleParts, reasoningParts, false)
      | Some openPos =>
          let visibleParts := if 0 <? openPos then visibleParts ++ [take openPos rest] else visibleParts in
          let inner := drop (openPos + 7) rest in
          match position_of inner close_tag with
          | None => (visibleParts, reasoningParts ++ [inner], true)
          | Some closePos =>
              think_loop fuel (drop (closePos + 8) inner) visibleParts (reasoningParts ++ [take closePos inner])
          end
      end
  end.

Definition parseThinkTags (content : str) : ParsedThinkTags :=
  if negb (includes content open_tag) then Parsed content [] false
  else
    let '(visibleParts, reasoningParts, hasUnclosedTag) := think_loop (S (length content)) content [] [] in
    Parsed (trim (join [] visibleParts)) (trim (join [10; 10]%N reasoningParts)) hasUnclosedTag.

(** ** [message-timing-utils.ts] *)

(** [Math.max(0, completedAt - startedAt)] *)
Definition elapsed (startedAt completedAt : number) : number := num_max zero (num_sub completedAt startedAt).

Definition completeAssistantTiming (message : Message) (completedAt : number) : Message :=
  if negb (bool_decide (m_from message = Role_assistant)) then message
  else
    let startedAt := default (default completedAt (m_createdAt message)) (m_startedAt message) in
    with_timing startedAt completedAt (elapsed startedAt completedAt) message.

Definition startReasoningTiming (message : Message) (startedAt : number) : Reasoning :=
  match m_reasoning message with
  | Some r =>
      {| r_content := r_content r; r_duration := r_duration r;
         r_startedAt := Some (default startedAt (r_startedAt r));
         r_completedAt := r_completedAt r; r_durationMs := r_durationMs r |}
  | None =>
      {| r_content := []; r_duration := zero; r_startedAt := Some startedAt;
         r_completedAt := None; r_durationMs := None |}
  end.

Definition completeReasoningTiming (message : Message) (completedAt : number) : Message :=
  match m_reasoning message with
  | Some r =>
      match r_durationMs r with
      | Some _ => message
      | None =>
          let startedAt := default (default completedAt (m_startedAt message)) (r_startedAt r) in
          let durationMs := elapsed startedAt completedAt in
          with_reasoning
            (Some {| r_content := r_content r; r_duration := num_ceil (num_div durationMs (of_Z 1000));
                     r_startedAt := Some startedAt; r_completedAt := Some completedAt;
                     r_durationMs := Some durationMs |}) message
      end
  | None => message
  end.

(** [{ ...reasoning, content }] *)
Definition with_reasoning_content (content : str) (r : Reasoning) : Reasoning :=
  {| r_content := content; r_duration := r_duration r; r_startedAt := r_startedAt r;
     r_completedAt := r_completedAt r; r_durationMs := r_durationMs r |}.

(** ** [message-streaming-utils.ts] *)

Abbreviation Clock := (nat -> number).

Definition processStreamingContent (clock : Clock) (message : Message) (contentChunk : str) : Message :=
  let fullContent := v_content (getCurrentVersion message) ++ contentChunk in
  match m_reasoning message, includes fullContent open_tag with
  | None, false => with_streaming false (updateCurrentVersionContent message fullContent)
  | _, _ =>
      let parsed := parseThinkTags fullContent in
      let finalReasoning :=
        if nonempty (think_reasoning parsed)
        then Some (with_reasoning_content (think_reasoning parsed) (startReasoningTiming message (clock 0)))
        else m_reasoning message in
      with_streaming (hasUnclosedTag parsed)
        (with_reasoning finalReasoning (updateCurrentVersionContent message fullContent))
  end.

Inductive StreamChunkType : Type := Chunk_reasoning | Chunk_content.

Definition getAppendableChunk (currentContent chunk : str) : str :=
  if negb (nonempty currentContent) || negb (starts_with chunk currentContent) then chunk
  else drop (length currentContent) chunk.

Definition applyStreamingChunk (clock : Clock) (message : Message) (type : StreamChunkType) (chunk : str)
  : Message :=
  if bool_decide (m_status message = Some Status_error) then message
  else
    match type with
    | Chunk_reasoning =>
        let reasoning := startReasoningTiming message (clock 0) in
        let appendableChunk := getAppendableChunk (r_content reasoning) chunk in
        with_status Status_streaming (with_streaming true
          (with_reasoning (Some (with_reasoning_content (r_content reasoning ++ appendableChunk) reasoning)) message))
    | Chunk_content =>
        let appendableChunk := getAppendableChunk (v_content (getCurrentVersion message)) chunk in
        let contentMessage := processStreamingContent clock message appendableChunk in
        with_status Status_streaming
          (match m_isReasoningStreaming contentMessage with
           | Some true => contentMessage
           | _ => completeReasoningTiming contentMessage (clock 1)
           end)
    end.

(** [a || b] for optional texts. *)
Definition or_text (a : option str) (b : str) : str :=
  match a with Some t => if nonempty t then t else b | None => b end.

Definition finalizeMessage (clock : Clock) (message : Message) (apiReasoningContent : option str) : Message :=
  let content := v_content (getCurrentVersion message) in
  let parsedThinkTags := if includes content open_tag then Some (parseThinkTags content) else None in
  let visible := default content (visibleContent <$> parsedThinkTags) in
  let finalReasoning :=
    or_text apiReasoningContent (or_text (r_content <$> m_reasoning message)
      (or_text (think_reasoning <$> parsedThinkTags) [])) in
  let finalized :=
    with_streaming false
      (with_reasoning
         (if nonempty finalReasoning
          then Some (with_reasoning_content finalReasoning (startReasoningTiming message (clock 0)))
          else None)
         (updateCurrentVersionContent message visible)) in
  completeReasoningTiming finalized (clock 1).

Definition completeAssistantMessage (clock : Clock) (message : Message) : Message :=
  completeAssistantTiming (with_status Status_complete (finalizeMessage clock message None)) (clock 2).

Definition isAssistantMessageFinal (message : Message) : bool :=
  match m_status message with Some (Status_complete | Status_error) => true | _ => false end.

Definition isAssistantMessagePending (message : Message) : bool :=
  match m_status message with Some (Status_loading | Status_streaming) => true | _ => false end.

Definition isPendingAssistantMessage (message : Message) : bool :=
  bool_decide (m_from message = Role_assistant) && isAssistantMessagePending message.

(** A choice of a response, [message] being optional. *)
Record ChatCompletionChoice : Type := { ch_content : option str; ch_reasoning_content : option str }.
Abbreviation ChatCompletionResponse := (list ChatCompletionChoice).

Definition hasChatCompletionChoice (response : ChatCompletionResponse) : bool :=
  match response with [] => false | _ => true end.

Definition applyChatCompletionChoice (clock : Clock) (message : Message) (choice : ChatCompletionChoice) : Message :=
  completeAssistantTiming
    (with_status Status_complete
       (finalizeMessage clock (updateCurrentVersionContent message (or_text (ch_content choice) []))
          (ch_reasoning_content choice))) (clock 2).

Definition applyChatCompletionResponse (clock : Clock) (message : Message) (response : ChatCompletionResponse)
  : option Message :=
  match response with [] => None | choice :: _ => Some (applyChatCompletionChoice clock message choice) end.

(** The last message that is pending, with what surrounds it. *)
Fixpoint last_pending (messages : list Message) : option (list Message * Message * list Message) :=
  match messages with
  | [] => None
  | message :: messages =>
      match last_pending messages with
      | Some (before, target, after) => Some (message :: before, target, after)
      | None => if isPendingAssistantMessage message then Some ([], message, messages) else None
      end
  end.

(** [t] translates; the settled message takes the place of the stuck one. *)
Definition sanitizeMessagesOnLoad (t : str -> str) (clock : Clock) (messages : list Message) : list Message :=
  match last_pending messages with
  | None => messages
  | Some (before, target, after) =>
      let finalized := finalizeMessage clock target None in
      let hasReasoning :=
        match m_reasoning finalized with Some r => nonempty (trim (r_content r)) | None => false end in
      let sanitized :=
        if hasMessageContent finalized || hasReasoning
        then completeAssistantTiming (with_streaming false (with_status Status_complete finalized)) (clock 2)
        else completeAssistantTiming
               (with_streaming false (with_status Status_error
                  (updateCurrentVersionContent finalized
                     (t (API_REQUEST_ERROR ERROR_MESSAGES) ++ u ": " ++ t (INTERRUPTED ERROR_MESSAGES))))) (clock 2) in
      before ++ sanitized :: after
  end.
