(* ===== verification/ChatConversation.v ===== *)
(** * Conversations of the playground

    Operations on the list of messages ([conversation-message-utils.ts],
    [message-update-utils.ts]), what a message shows ([message-content-utils.ts],
    [message-error-utils.ts], [message-action-utils.ts], [message-editor-utils.ts]),
    the request sent for a conversation ([payload-builder.ts]) and the reading of
    its answer ([stream-utils.ts], [request-error-utils.ts]). *)

From Stdlib Require Import String.
From S2P Require Import Prelude JsNumber JsString JsText Ast Request Json ChatMessage.

#[local] Open Scope nat_scope.

(** ** [message-update-utils.ts] *)

(** The last message of the list, with what is before it: [messages.at(-1)]. *)
Definition unsnoc (messages : list Message) : option (list Message * Message) :=
  match rev messages with [] => None | message :: before => Some (rev before, message) end.

Definition updateLastAssistantMessage (messages : list Message) (updater : Message -> Message) : list Message :=
  match unsnoc messages with
  | Some (before, message) =>
      if bool_decide (m_from message = Role_assistant) then before ++ [updater message] else messages
  | None => messages
  end.

Definition updateAssistantMessageWithError (clock : Clock) (messages : list Message) (errorMessage : str)
    (errorCode : option str) (title : str) : list Message :=
  updateLastAssistantMessage messages (fun message =>
    completeAssistantTiming
      (with_errorCode (match errorCode with Some c => if nonempty c then Some c else None | None => None end)
         (with_streaming false (with_status Status_error
            (updateCurrentVersionContent message (title ++ u ": " ++ errorMessage))))) (clock 0)).

(** ** [conversation-message-utils.ts] *)

Definition has_key (key : str) (message : Message) : bool := str_eqb (m_key message) key.

(** [messages.findIndex(message => message.key === messageKey)] *)
Fixpoint find_key (messages : list Message) (messageKey : str) : option nat :=
  match messages with
  | [] => None
  | message :: messages => if has_key messageKey message then Some 0 else S <$> find_key messages messageKey
  end.

(** The identifiers of the two new messages and of their versions. *)
Record PairIds : Type := { user_key : str; user_version : str; answer_key : str; answer_version : str }.

Definition appendUserMessagePair (ids : PairIds) (submittedAt : number) (messages : list Message) (content : str)
  : list Message :=
  messages ++ [createUserMessage (user_key ids) (user_version ids) content submittedAt;
               createLoadingAssistantMessage (answer_key ids) (answer_version ids) submittedAt].

Definition createRegeneratedMessages (key id : str) (now : number) (messages : list Message) (messageKey : str)
  : option (list Message) :=
  messageIndex ← find_key messages messageKey;
  message ← messages !! messageIndex;
  Some (take (if bool_decide (m_from message = Role_user) then S messageIndex else messageIndex) messages
        ++ [createLoadingAssistantMessage key id now]).

Definition removeMessageByKey (messages : list Message) (messageKey : str) : list Message :=
  List.filter (fun message => negb (has_key messageKey message)) messages.

(** Reading a message behind the end throws. *)
Definition getPreviousUserMessage (messages : list Message) (beforeIndex : nat) : outcome (option Message) :=
  if length messages <? beforeIndex then Throw undefined_property
  else Ok (List.find (fun message => bool_decide (m_from message = Role_user)) (rev (take beforeIndex messages))).

Record ApplyMessageEditResult : Type := { ed_messages : list Message; shouldSend : bool }.

Definition applyMessageEdit (key id : str) (submittedAt : number) (messages : list Message) (messageKey content : str)
    (shouldSubmit : bool) : option ApplyMessageEditResult :=
  messageIndex ← find_key messages messageKey;
  let updatedMessages :=
    map (fun message =>
           if has_key messageKey message
           then with_createdAt (if shouldSubmit then Some submittedAt else m_createdAt message)
                  (updateCurrentVersionContent message content)
           else message) messages in
  edited ← updatedMessages !! messageIndex;
  if negb shouldSubmit || negb (bool_decide (m_from edited = Role_user))
  then Some {| ed_messages := updatedMessages; shouldSend := false |}
  else Some {| ed_messages := take (S messageIndex) updatedMessages
                                ++ [createLoadingAssistantMessage key id submittedAt];
               shouldSend := true |}.

Definition getEditingMessageContent (messages : list Message) (editingKey : option str) : str :=
  match editingKey with
  | Some key =>
      if nonempty key
      then match List.find (has_key key) messages with Some message => getMessageContent message | None => [] end
      else []
  | None => []
  end.

Record ChatMessageRenderState : Type := { alwaysShowActions : bool; render_content : str; isEditing : bool }.

Definition getChatMessageRenderState (messages : list Message) (message : Message) (messageIndex : nat)
    (editingKey : option str) : ChatMessageRenderState :=
  {| alwaysShowActions := (S messageIndex =? length messages) && bool_decide (m_from message = Role_assistant);
     render_content := getMessageContent message;
     isEditing := bool_decide (editingKey = Some (m_key message)) |}.

(** ** [message-content-utils.ts] *)

Record MessageContentState : Type := {
  displayContent : str;
  hasSources : bool;
  isAssistant : bool;
  showLoader : bool;
  showMessageContent : bool;
  state_sources : list (str * str);
  (** [Some content] when [hasReasoning]. *)
  reasoningContent : option str;
}.

Definition reasoning_streams (message : Message) : bool :=
  match m_isReasoningStreaming message with Some b => b | None => false end.

Definition shouldShowMessageLoader (message : Message) (isAssistant : bool) (versionContent : str) : bool :=
  isAssistant && negb (reasoning_streams message)
  && match m_status message with
     | Some Status_loading => true
     | Some Status_streaming => negb (nonempty versionContent)
     | _ => false
     end.

Definition shouldShowMessageContent (message : Message) (versionContent : str) : bool :=
  (bool_decide (m_from message = Role_user) || negb (reasoning_streams message)) && nonempty versionContent.

Definition getDisplayContent (message : Message) (versionContent : str) : str :=
  if negb (bool_decide (m_from message = Role_assistant)) then versionContent
  else if negb (includes versionContent open_tag) then versionContent
  else visibleContent (parseThinkTags versionContent).

Definition getMessageContentState (message : Message) (versionContent : str) : MessageContentState :=
  let assistant := bool_decide (m_from message = Role_assistant) in
  let sources := default [] (m_sources message) in
  {| displayContent := getDisplayContent message versionContent;
     hasSources := match sources with [] => false | _ => true end;
     isAssistant := assistant;
     showLoader := shouldShowMessageLoader message assistant versionContent;
     showMessageContent := shouldShowMessageContent message versionContent;
     state_sources := sources;
     reasoningContent :=
       match m_reasoning message with
       | Some r => if assistant && nonempty (r_content r) then Some (r_content r) else None
       | None => None
       end |}.

(** ** [message-error-utils.ts], [message-action-utils.ts], [message-editor-utils.ts] *)

Definition MODEL_PRICE_ERROR_CODE : str := u "model_price_error".
Definition FALLBACK_ERROR_CONTENT : str := u "An unknown error occurred".

Record MessageErrorState : Type := { error_content : str; is_model_price : bool; showSettingsLink : bool }.

Definition isErrorMessage (message : Message) : bool := bool_decide (m_status message = Some Status_error).

Definition getMessageErrorState (message : Message) (isAdmin : bool) : option MessageErrorState :=
  if negb (isErrorMessage message) then None
  else
    let isModelPriceError := bool_decide (m_errorCode message = Some (Some MODEL_PRICE_ERROR_CODE)) in
    Some {| error_content := or_text (Some (getMessageContent message)) FALLBACK_ERROR_CONTENT;
            is_model_price := isModelPriceError; showSettingsLink := isModelPriceError && isAdmin |}.

Record MessageActionState : Type := {
  action_content : str; hasContent : bool; action_isAssistant : bool; isLoading : bool; isUser : bool;
}.

Definition getMessageActionState (message : Message) : MessageActionState :=
  {| action_content := getMessageContent message; hasContent := hasMessageContent message;
     action_isAssistant := bool_decide (m_from message = Role_assistant);
     isLoading := isAssistantMessagePending message;
     isUser := bool_decide (m_from message = Role_user) |}.

Record MessageEditorState : Type := { canSave : bool; hasChanged : bool; showSaveAndSubmit : bool }.

Definition getMessageEditorState (message : Message) (editText originalText : str) : MessageEditorState :=
  let changed := negb (str_eqb editText originalText) in
  {| canSave := nonempty (trim editText) && changed; hasChanged := changed;
     showSaveAndSubmit := bool_decide (m_from message = Role_user) |}.

(** ** [payload-builder.ts] *)

Record PlaygroundConfig : Type := {
  cf_model : str; cf_group : str; cf_temperature : number; cf_top_p : number; cf_max_tokens : number;
  cf_frequency_penalty : number; cf_presence_penalty : number; cf_seed : option number; cf_stream : bool;
}.

Record ParameterEnabled : Type := {
  on_temperature : bool; on_top_p : bool; on_max_tokens : bool;
  on_frequency_penalty : bool; on_presence_penalty : bool; on_seed : bool;
}.

Record ChatCompletionRequest : Type := {
  rq_model : str; rq_group : str; rq_messages : list ChatCompletionMessage; rq_stream : bool;
  rq_temperature : option number; rq_top_p : option number; rq_max_tokens : option number;
  rq_frequency_penalty : option number; rq_presence_penalty : option number; rq_seed : option number;
}.

Definition when {A} (b : bool) (x : A) : option A := if b then Some x else None.

Definition buildChatCompletionPayload (messages : list Message) (config : PlaygroundConfig)
    (parameterEnabled : ParameterEnabled) : ChatCompletionRequest :=
  {| rq_model := cf_model config; rq_group := cf_group config;
     rq_messages := map formatMessageForAPI (List.filter isValidMessage messages);
     rq_stream := cf_stream config;
     rq_temperature := when (on_temperature parameterEnabled) (cf_temperature config);
     rq_top_p := when (on_top_p parameterEnabled) (cf_top_p config);
     rq_max_tokens := when (on_max_tokens parameterEnabled) (cf_max_tokens config);
     rq_frequency_penalty := when (on_frequency_penalty parameterEnabled) (cf_frequency_penalty config);
     rq_presence_penalty := when (on_presence_penalty parameterEnabled) (cf_presence_penalty config);
     rq_seed := if on_seed parameterEnabled then cf_seed config else None |}.

(** ** [stream-utils.ts] *)

Record ErrorDetails : Type := { errorCode : option str; errorMessage : str }.

(** The fields of an error payload are texts, as its type says. *)
Definition parseStreamErrorDetails (data : option str) : ErrorDetails :=
  let fallbackMessage := or_text data (API_REQUEST_ERROR ERROR_MESSAGES) in
  let plain := {| errorCode := None; errorMessage := fallbackMessage |} in
  match data with
  | None | Some [] => plain
  | Some text =>
      match json_parse text with
      | None => plain
      | Some parsed =>
          {| errorCode := as_text (field (field parsed "error") "code");
             errorMessage := or_text (as_text (field (field parsed "error") "message")) fallbackMessage |}
      end
  end.

(** [choices?.[0]] *)
Definition first_choice (choices : value) : value :=
  match choices with
  | VArray (choice :: _) => choice
  | VObject _ => field choices "0"
  | _ => VUndefined
  end.

(** The updates of a message, with the text as the message has it; [None]: the
    parser throws. *)
Definition parseStreamMessageUpdates (data : str) : option (list (StreamChunkType * value)) :=
  match json_parse data with
  | None | Some VNull => None
  | Some chunk =>
      let delta := field (first_choice (field chunk "choices")) "delta" in
      let reasoning := field delta "reasoning_content" in
      let content := field delta "content" in
      Some ((if truthy reasoning then [(Chunk_reasoning, reasoning)] else [])
            ++ (if truthy content then [(Chunk_content, content)] else []))
  end.

Definition isStreamDoneMessage (data : str) : bool := str_eqb data (u "[DONE]").
Definition isStreamClosedReadyState (readyState : option Z) : bool := bool_decide (readyState = Some 2%Z).

(** [source] has the status [status]. *)
Definition getStreamReadyStateError (eventReadyState status : option Z) : option str :=
  match eventReadyState, status with
  | Some readyState, Some status =>
      if (2 <=? readyState)%Z && negb (status =? 200)%Z
      then Some (u "HTTP " ++ number_to_string (of_Z status) ++ u ": " ++ CONNECTION_CLOSED ERROR_MESSAGES)
      else None
  | _, _ => None
  end.

(** ** [request-error-utils.ts] *)

Definition parseRequestErrorDetails (error : value) : ErrorDetails :=
  let data := field (field error "response") "data" in
  {| errorCode := as_text (field (field data "error") "code");
     errorMessage :=
       or_text (as_text (field data "message"))
         (or_text (as_text (field error "message")) (API_REQUEST_ERROR ERROR_MESSAGES)) |}.
