(* ===== verification/ChatStorage.v ===== *)
(** * Stored messages of the playground

    [features/playground/lib/storage/storage.ts]: what is kept of a conversation,
    how it is cut to size and repaired when it is loaded, and when it is written
    back.  The schema of the messages (a library) and their JSON text are
    parameters. *)

From Stdlib Require Import String.
From S2P Require Import Prelude JsNumber JsString JsText Ast Request Regex Json ChatMessage.

#[local] Open Scope nat_scope.

(** ** Limits ([storage-schema.ts]) *)

Definition MAX_STORED_MESSAGES : nat := 100.
Definition MAX_STORED_MESSAGES_BYTES : Z := 1048576.
Definition MAX_LOADED_MESSAGES_CHARS : Z := 120000.
Definition MAX_LOADED_MESSAGE_CHARS : Z := 40000.
Definition MIN_PREFIX_COLLAPSE_LENGTH : Z := 2000.
Definition MIN_REPEATED_SECTION_COUNT : nat := 3.
Definition TRUNCATED_CONTENT_SUFFIX : str := [10; 10]%N ++ u "[...]".

(** [s.length], as a binary number. *)
Definition size (s : str) : Z := Z.of_nat (length s).

(** ** Cutting *)

Definition trimMessages (messages : list Message) : list Message :=
  if length messages <=? MAX_STORED_MESSAGES then messages
  else drop (length messages - MAX_STORED_MESSAGES) messages.

Definition getMessageSize (message : Message) : Z :=
  let versionsSize := fold_left (fun total version => (total + size (v_content version))%Z) (m_versions message) 0%Z in
  let reasoningSize := match m_reasoning message with Some r => size (r_content r) | None => 0%Z end in
  (versionsSize + reasoningSize)%Z.

Definition truncateText (text : str) (maxLength : Z) : str :=
  if (size text <=? maxLength)%Z then text
  else if (maxLength <=? size TRUNCATED_CONTENT_SUFFIX)%Z then take (Z.to_nat maxLength) text
  else take (Z.to_nat (maxLength - size TRUNCATED_CONTENT_SUFFIX)) text ++ TRUNCATED_CONTENT_SUFFIX.

(** ** Repeated sections *)

Record SectionOccurrence : Type := { heading : str; heading_index : nat }.

Definition line_terminator (c : N) : bool := bool_decide (c ∈ [10; 13; 8232; 8233]%N).

(** [/^#{2,6}\s+\d+\.\s+.+$/gm] behind its [^]; [$] is checked at the end. *)
Definition SECTION_HEADING_LINE_PATTERN : re :=
  let hash := lit "#" in
  seqs [hash; hash; opt (Seq hash (opt (Seq hash (opt (Seq hash (opt hash))))));
        plus space; plus digit; lit "."; plus space; plus any].
Definition at_line_end (s : str) : bool :=
  match s with [] => true | c :: _ => line_terminator c end.
Definition match_heading (s : str) : option str :=
  fst <$> run_re SECTION_HEADING_LINE_PATTERN s [] (fun s c => if at_line_end s then Some (s, c) else None).

(** [text.matchAll(...)] from [index] on; [line_start]: [^] holds here. *)
Fixpoint section_loop (fuel : nat) (line_start : bool) (index : nat) (s : str) : list SectionOccurrence :=
  match fuel, s with
  | O, _ | _, [] => []
  | S fuel, c :: s' =>
      match (if line_start then match_heading s else None) with
      | Some rest =>
          let n := length s - length rest in
          {| heading := take n s; heading_index := index |} :: section_loop fuel false (index + n) rest
      | None => section_loop fuel (line_terminator c) (S index) s'
      end
  end.
Definition getSectionOccurrences (text : str) : list SectionOccurrence :=
  section_loop (length text) true 0 text.

Definition getHeadingCounts (occurrences : list SectionOccurrence) : list (str * nat) :=
  fold_left (fun counts occurrence =>
    assoc_set (heading occurrence) (S (default 0 (assoc_get (heading occurrence) counts))) counts) occurrences [].

(** From the last occurrence to the first: where each repeated heading comes last. *)
Fixpoint last_repeated (headingCounts : list (str * nat)) (seenHeadings : list str)
    (occurrences : list SectionOccurrence) : list nat :=
  match occurrences with
  | [] => []
  | occurrence :: occurrences =>
      let count := default 0 (assoc_get (heading occurrence) headingCounts) in
      if (count <? MIN_REPEATED_SECTION_COUNT) || one_of seenHeadings (heading occurrence)
      then last_repeated headingCounts seenHeadings occurrences
      else heading_index occurrence
             :: last_repeated headingCounts (heading occurrence :: seenHeadings) occurrences
  end.

Definition findLastRepeatedSectionRunStart (text : str) : option nat :=
  let occurrences := getSectionOccurrences text in
  match last_repeated (getHeadingCounts occurrences) [] (rev occurrences) with
  | [] => None
  | index :: indexes => Some (fold_left Nat.min indexes index)
  end.

Definition collapseRepeatedSectionSnapshots (text : str) : str :=
  if (size text <? MIN_PREFIX_COLLAPSE_LENGTH)%Z then text
  else match findLastRepeatedSectionRunStart text with
       | None => text
       | Some lastRepeatedRunStart => drop lastRepeatedRunStart text
       end.

(** ** Repairing a message *)

Definition normalized_version (version : MessageVersion) : MessageVersion * bool :=
  let collapsedContent := collapseRepeatedSectionSnapshots (v_content version) in
  let content := truncateText collapsedContent MAX_LOADED_MESSAGE_CHARS in
  if str_eqb content (v_content version) && str_eqb collapsedContent (v_content version) then (version, false)
  else (Version (v_id version) content, true).

(** The message with its texts cut, when that changes one; the flag says so. *)
Definition normalized_texts (message : Message) : Message * bool :=
  let versions := map normalized_version (m_versions message) in
  let reasoning :=
    (fun r => with_reasoning_content (truncateText (r_content r) MAX_LOADED_MESSAGE_CHARS) r) <$> m_reasoning message in
  let changed :=
    existsb snd versions
    || negb (bool_decide ((r_content <$> reasoning) = (r_content <$> m_reasoning message))) in
  if changed then (with_reasoning reasoning (with_versions (map fst versions) message), true) else (message, false).

(** [normalized.reasoning?.content.trim()] is not empty. *)
Definition has_reasoning (message : Message) : bool :=
  match m_reasoning message with Some r => nonempty (trim (r_content r)) | None => false end.

(** The second component: the result is another object. *)
Definition normalizeStoredMessageForLoad (clock : Clock) (message : Message) : Message * bool :=
  let '(normalized, changed) := normalized_texts message in
  if negb (isAssistantMessagePending normalized) then (normalized, changed)
  else if negb (hasMessageContent normalized) && negb (has_reasoning normalized) then (normalized, changed)
  else
    let completedAt :=
      match m_completedAt normalized, m_reasoning normalized ≫= r_completedAt,
            m_startedAt normalized, m_createdAt normalized with
      | Some t, _, _, _ | None, Some t, _, _ | None, None, Some t, _ | None, None, None, Some t => t
      | None, None, None, None => clock 2
      end in
    (completeAssistantTiming
       (with_streaming false (with_status Status_complete (finalizeMessage clock normalized None))) completedAt, true).

(** The loop from the last message to the first; [result] has the first kept
    message first, as after its [reverse]. *)
Fixpoint size_loop (totalSize : Z) (result : list Message) (messages : list Message) : list Message :=
  match messages with
  | [] => result
  | message :: messages =>
      let messageSize := getMessageSize message in
      if match result with [] => false | _ => (MAX_LOADED_MESSAGES_CHARS <? totalSize + messageSize)%Z end then result
      else size_loop (totalSize + messageSize)%Z (message :: result) messages
  end.
Definition trimMessagesByContentSize (messages : list Message) : list Message := size_loop 0 [] (rev messages).

(** ** Loading and saving *)

Section storage.
  (** [schema]: [messagesSchema.parse] of a read value, [None] when it throws;
      [conforms]: the same check of messages in memory; [encode]: the text
      [JSON.stringify({ version, data })]; [accepts]: [setItem] does not throw. *)
  Context (schema : value -> option (list Message)) (conforms : list Message -> bool)
    (encode : list Message -> str) (accepts : str -> bool) (t : str -> str).

Definition unwrapStoredValue (v : value) : value :=
    match v with
    | VObject fields =>
        match assoc_get (u "version") fields, assoc_get (u "data") fields with
        | Some _, Some data => data
        | _, _ => v
        end
    | _ => v
    end.

  (** The stored text of the messages after the call. *)
Definition saveMessages (stored : option str) (messages : list Message) : option str :=
    let trimmed := trimMessages messages in
    if conforms trimmed && accepts (encode trimmed) then Some (encode trimmed) else stored.

  (** What [loadMessages] returns for accepted messages, before it saves them; the
      message at position [i] is normalized with the clock [clocks i]. *)
Definition repaired (clocks : nat -> Clock) (clock : Clock) (parsed : list Message) : list Message :=
    let normalized := imap (fun i message => fst (normalizeStoredMessageForLoad (clocks i) message)) parsed in
    sanitizeMessagesOnLoad t clock (trimMessagesByContentSize (trimMessages normalized)).

  (** Returns the messages and the stored text.  [trimMessagesByContentSize] makes
      a new array, so that the condition of the save always holds. *)
Definition loadMessages (clocks : nat -> Clock) (clock : Clock) (stored : option str)
    : option (list Message) * option str :=
    match stored with
    | None | Some [] => (None, stored)
    | Some saved =>
        if (MAX_STORED_MESSAGES_BYTES <? size saved)%Z then (None, None)
        else
          match json_parse saved with
          | None => (None, stored)
          | Some v =>
              if negb (truthy v) then (None, stored)
              else
                match schema (unwrapStoredValue v) with
                | None => (None, stored)
                | Some parsed =>
                    let sanitized := repaired clocks clock parsed in
                    (Some sanitized, saveMessages stored sanitized)
                end
          end
    end.
End storage.
