(* ===== verification/ChatSession.v ===== *)
(** * A chat of the playground: requests, streams and the conversation

    [hooks/use-stream-request.ts] (the controller of the event source),
    [hooks/use-chat-handler.ts] (generations, buffered chunks, timers, aborts) and
    [hooks/use-playground-conversation.ts] as one state machine.  An [async]
    function is cut at its [await]; headers, events of a source, answers, timers
    and renders come as events in any order.

    A state update of React that is given as a function is queued and runs at the
    next render, or at once when no update is queued and React computes it eagerly;
    [env_eager] says which, for the event at hand.  Such a function reads the
    generation when it runs. *)

From Stdlib Require Import String.
From S2P Require Import Prelude JsNumber JsString JsText Ast Request Json ChatMessage ChatConversation.

#[local] Open Scope nat_scope.

(** ** State *)

(** An event source with the generation of the controller that made it, the
    generation its callbacks pass to the chat handler, and the [completed] flag of
    its listeners. *)
Record Source : Type := {
  so_generation : nat;
  so_chat : nat;
  so_completed : bool;
  so_closed : bool;
}.

Record PendingStreamChunks : Type := {
  p_generation : nat;
  p_content : str;
  p_reasoning : str;
}.

(** A request without stream under way, with the state of its abort signal. *)
Record Call : Type := { ca_generation : nat; ca_aborted : bool }.

(** The functions given to [onMessageUpdate], and arrays given to
    [updateMessages]. *)
Inductive Update : Type :=
| U_replace (messages : list Message)
| U_remove (key : str)
| U_flush (generation : nat) (reasoning content : str)
| U_complete (generation : nat)
| U_error (generation : nat) (error : str) (code : option str) (title : str)
| U_response (generation : nat) (response : ChatCompletionResponse)
| U_stop (idleGeneration : nat).

Record Chat : Type := {
  (** [createStreamRequestController]; [source] is a position of [sources], [waiting]
      has the sends that wait for headers with both their generations *)
  source : option nat;
  generation : nat;
  sources : list Source;
  waiting : list (nat * nat);
  isStreaming : bool;
  (** [useChatHandler] *)
  requestGeneration : nat;
  pendingChunks : PendingStreamChunks;
  flushTimer : option nat;
  isRequesting : bool;
  abortController : option nat;
  calls : list Call;
  (** the requests sent *)
  sent : list ChatCompletionRequest;
  (** React: the rendered messages and the queued updates *)
  messages : list Message;
  queue : list Update;
  mounted : bool;
}.

Definition no_chunks (generation : nat) : PendingStreamChunks :=
  {| p_generation := generation; p_content := []; p_reasoning := [] |}.

Definition initial_chat (loaded : list Message) : Chat :=
  {| source := None; generation := 0; sources := []; waiting := []; isStreaming := false;
     requestGeneration := 0; pendingChunks := no_chunks 0; flushTimer := None; isRequesting := false;
     abortController := None; calls := []; sent := []; messages := loaded; queue := []; mounted := true |}.

(** *** Assignments *)

Definition set_stream (source_ : option nat) (generation_ : nat) (sources_ : list Source)
    (waiting_ : list (nat * nat)) (streaming : bool) (c : Chat) : Chat :=
  {| source := source_; generation := generation_; sources := sources_; waiting := waiting_;
     isStreaming := streaming; requestGeneration := requestGeneration c; pendingChunks := pendingChunks c;
     flushTimer := flushTimer c; isRequesting := isRequesting c; abortController := abortController c;
     calls := calls c; sent := sent c; messages := messages c; queue := queue c; mounted := mounted c |}.
Definition set_handler (generation_ : nat) (pending : PendingStreamChunks) (timer : option nat)
    (requesting : bool) (c : Chat) : Chat :=
  {| source := source c; generation := generation c; sources := sources c; waiting := waiting c;
     isStreaming := isStreaming c; requestGeneration := generation_; pendingChunks := pending;
     flushTimer := timer; isRequesting := requesting; abortController := abortController c;
     calls := calls c; sent := sent c; messages := messages c; queue := queue c; mounted := mounted c |}.
Definition set_calls (controller : option nat) (calls_ : list Call) (c : Chat) : Chat :=
  {| source := source c; generation := generation c; sources := sources c; waiting := waiting c;
     isStreaming := isStreaming c; requestGeneration := requestGeneration c; pendingChunks := pendingChunks c;
     flushTimer := flushTimer c; isRequesting := isRequesting c; abortController := controller;
     calls := calls_; sent := sent c; messages := messages c; queue := queue c; mounted := mounted c |}.
Definition add_sent (payload : ChatCompletionRequest) (c : Chat) : Chat :=
  {| source := source c; generation := generation c; sources := sources c; waiting := waiting c;
     isStreaming := isStreaming c; requestGeneration := requestGeneration c; pendingChunks := pendingChunks c;
     flushTimer := flushTimer c; isRequesting := isRequesting c; abortController := abortController c;
     calls := calls c; sent := sent c ++ [payload]; messages := messages c; queue := queue c; mounted := mounted c |}.
Definition set_messages (messages_ : list Message) (queue_ : list Update) (c : Chat) : Chat :=
  {| source := source c; generation := generation c; sources := sources c; waiting := waiting c;
     isStreaming := isStreaming c; requestGeneration := requestGeneration c; pendingChunks := pendingChunks c;
     flushTimer := flushTimer c; isRequesting := isRequesting c; abortController := abortController c;
     calls := calls c; sent := sent c; messages := messages_; queue := queue_; mounted := mounted c |}.
Definition unmounted (c : Chat) : Chat :=
  {| source := source c; generation := generation c; sources := sources c; waiting := waiting c;
     isStreaming := isStreaming c; requestGeneration := requestGeneration c; pendingChunks := pendingChunks c;
     flushTimer := flushTimer c; isRequesting := isRequesting c; abortController := abortController c;
     calls := calls c; sent := sent c; messages := messages c; queue := queue c; mounted := false |}.

Definition set_requesting (b : bool) (c : Chat) : Chat :=
  set_handler (requestGeneration c) (pendingChunks c) (flushTimer c) b c.

(** ** Updates of the messages *)

(** What the surroundings of an event decide: settings, eagerness and the clock of
    the [k]-th update that runs. *)
Record Env : Type := {
  env_config : PlaygroundConfig;
  env_enabled : ParameterEnabled;
  env_eager : bool;
  env_clock : nat -> Clock;
}.

(** The updater of [flushStreamUpdates]. *)
Definition apply_chunks (clock : Clock) (reasoning content : str) (message : Message) : Message :=
  let updatedMessage :=
    if nonempty reasoning then applyStreamingChunk clock message Chunk_reasoning reasoning else message in
  if nonempty content then applyStreamingChunk (fun k => clock (S (S k))) updatedMessage Chunk_content content
  else updatedMessage.

(** [current] is [requestGenerationRef.current] when the update runs. *)
Definition run_update (current : nat) (clock : Clock) (update : Update) (prev : list Message) : list Message :=
  let guarded (g : nat) (next : list Message) := if negb (g =? current) then prev else next in
  match update with
  | U_replace next => next
  | U_remove key => removeMessageByKey prev key
  | U_flush g reasoning content =>
      guarded g (updateLastAssistantMessage prev (apply_chunks clock reasoning content))
  | U_complete g =>
      guarded g (updateLastAssistantMessage prev (fun message =>
        if isAssistantMessageFinal message then message else completeAssistantMessage clock message))
  | U_error g error code title => guarded g (updateAssistantMessageWithError clock prev error code title)
  | U_response g response =>
      guarded g (updateLastAssistantMessage prev (fun message =>
        default message (applyChatCompletionResponse clock message response)))
  | U_stop g =>
      guarded g (updateLastAssistantMessage prev (fun message =>
        if isAssistantMessagePending message then completeAssistantMessage clock message else message))
  end.

Fixpoint run_updates (current : nat) (clocks : nat -> Clock) (updates : list Update) (prev : list Message)
  : list Message :=
  match updates with
  | [] => prev
  | update :: updates =>
      run_updates current (fun k => clocks (S k)) updates (run_update current (clocks 0) update prev)
  end.

(** [setMessages(updater)] *)
Definition onMessageUpdate (env : Env) (update : Update) (c : Chat) : Chat :=
  if env_eager env && match queue c with [] => true | _ => false end
  then set_messages (messages c)
         [U_replace (run_update (requestGeneration c) (env_clock env 0) update (messages c))] c
  else set_messages (messages c) (queue c ++ [update]) c.

Definition render (env : Env) (c : Chat) : Chat :=
  set_messages (run_updates (requestGeneration c) (env_clock env) (queue c) (messages c)) [] c.

(** ** [use-chat-handler.ts] *)

Definition discardPendingStreamUpdates (generation_ : nat) (c : Chat) : Chat :=
  set_handler (requestGeneration c) (no_chunks generation_) None (isRequesting c) c.

Definition flushStreamUpdates (env : Env) (generation_ : nat) (c : Chat) : Chat :=
  if negb (generation_ =? requestGeneration c) then c
  else
    let c := set_handler (requestGeneration c) (pendingChunks c) None (isRequesting c) c in
    let chunks := pendingChunks c in
    if negb (p_generation chunks =? generation_) then c
    else if negb (nonempty (p_reasoning chunks)) && negb (nonempty (p_content chunks)) then c
    else onMessageUpdate env (U_flush generation_ (p_reasoning chunks) (p_content chunks))
           (set_handler (requestGeneration c) (no_chunks generation_) (flushTimer c) (isRequesting c) c).

Definition scheduleStreamFlush (generation_ : nat) (c : Chat) : Chat :=
  if negb (generation_ =? requestGeneration c) then c
  else match flushTimer c with
       | Some _ => c
       | None => set_handler (requestGeneration c) (pendingChunks c) (Some generation_) (isRequesting c) c
       end.

(** [None]: [nextChunk] is not a text and has no [startsWith]. *)
Definition mergePendingStreamChunk (currentChunk : str) (nextChunk : value) : option str :=
  if negb (nonempty currentChunk) then Some (to_string nextChunk)
  else match nextChunk with
       | VString next => Some (if starts_with next currentChunk then next else currentChunk ++ next)
       | _ => None
       end.

Definition handleStreamUpdate (generation_ : nat) (type : StreamChunkType) (chunk : value) (c : Chat)
  : option Chat :=
  if negb (generation_ =? requestGeneration c) || negb (p_generation (pendingChunks c) =? generation_) then Some c
  else
    let chunks := pendingChunks c in
    chunks ←
      match type with
      | Chunk_reasoning =>
          merged ← mergePendingStreamChunk (p_reasoning chunks) chunk;
          Some {| p_generation := p_generation chunks; p_content := p_content chunks; p_reasoning := merged |}
      | Chunk_content =>
          merged ← mergePendingStreamChunk (p_content chunks) chunk;
          Some {| p_generation := p_generation chunks; p_content := merged; p_reasoning := p_reasoning chunks |}
      end;
    Some (scheduleStreamFlush generation_
            (set_handler (requestGeneration c) chunks (flushTimer c) (isRequesting c) c)).

Definition handleStreamComplete (env : Env) (generation_ : nat) (c : Chat) : Chat :=
  if negb (generation_ =? requestGeneration c) then c
  else onMessageUpdate env (U_complete generation_) (set_requesting false (flushStreamUpdates env generation_ c)).

Definition KNOWN_ERROR_MESSAGES : list str :=
  [API_REQUEST_ERROR ERROR_MESSAGES; NETWORK_ERROR ERROR_MESSAGES; PARSE_ERROR ERROR_MESSAGES;
   STREAM_START_ERROR ERROR_MESSAGES; CONNECTION_CLOSED ERROR_MESSAGES; INTERRUPTED ERROR_MESSAGES].

Definition abort_call (controller : option nat) (l : list Call) : list Call :=
  match controller with
  | Some g => map (fun call => if ca_generation call =? g
                               then {| ca_generation := g; ca_aborted := true |} else call) l
  | None => l
  end.

Section chat.
  (** The translation. *)
  Context (t : str -> str).

Definition getDisplayError (error : str) : str :=
    if one_of KNOWN_ERROR_MESSAGES error then t error
    else if ends_with error (u ": " ++ CONNECTION_CLOSED ERROR_MESSAGES)
    then take (length error - length (CONNECTION_CLOSED ERROR_MESSAGES)) error ++ t (CONNECTION_CLOSED ERROR_MESSAGES)
    else error.

Definition handleStreamError (env : Env) (generation_ : nat) (error : str) (code : option str) (c : Chat) : Chat :=
    if negb (generation_ =? requestGeneration c) then c
    else onMessageUpdate env
           (U_error generation_ (getDisplayError error) code (t (API_REQUEST_ERROR ERROR_MESSAGES)))
           (set_requesting false (flushStreamUpdates env generation_ c)).

(** *** [use-stream-request.ts] *)

Definition close_source (i : nat) (l : list Source) : list Source :=
    alter (fun s => {| so_generation := so_generation s; so_chat := so_chat s;
                       so_completed := so_completed s; so_closed := true |}) i l.
Definition complete_source (i : nat) (l : list Source) : list Source :=
    alter (fun s => {| so_generation := so_generation s; so_chat := so_chat s;
                       so_completed := true; so_closed := so_closed s |}) i l.

  (** [previousSource?.close()] *)
Definition close_previous (c : Chat) : list Source :=
    match source c with Some i => close_source i (sources c) | None => sources c end.

Definition closeActiveSource (i : nat) (c : Chat) : Chat :=
    if bool_decide (source c = Some i)
    then set_stream None (generation c) (close_source i (sources c)) (waiting c) false c
    else set_stream (source c) (generation c) (close_source i (sources c)) (waiting c) (isStreaming c) c.

  (** [send] up to its [await]. *)
Definition send (chat_generation : nat) (c : Chat) : Chat :=
    let requestGeneration := S (generation c) in
    set_stream None requestGeneration (close_previous c) (waiting c ++ [(requestGeneration, chat_generation)]) false c.

  (** [isCurrent() && !completed], with the source. *)
Definition current_source (i : nat) (c : Chat) : option Source :=
    s ← sources c !! i;
    if (generation c =? so_generation s) && bool_decide (source c = Some i) && negb (so_completed s)
    then Some s else None.

Definition mark_completed (i : nat) (c : Chat) : Chat :=
    set_stream (source c) (generation c) (complete_source i (sources c)) (waiting c) (isStreaming c) c.

Definition handleError (env : Env) (i : nat) (error : str) (code : option str) (c : Chat) : Chat :=
    match current_source i c with
    | None => c
    | Some s => closeActiveSource i (handleStreamError env (so_chat s) error code (mark_completed i c))
    end.

  (** [send] behind its [await]: headers or the message of the error ([None]: not an
      [Error]); [starts]: [stream()] does not throw. *)
Definition on_headers (env : Env) (g : nat) (answer : result (option str) unit) (starts : bool) (c : Chat)
    : option Chat :=
    '(_, chat_generation) ← List.find (fun w => fst w =? g) (waiting c);
    let c := set_stream (source c) (generation c) (sources c)
               (List.filter (fun w => negb (fst w =? g)) (waiting c)) (isStreaming c) c in
    if negb (generation c =? g) then Some c
    else
      match answer with
      | Throw message =>
          Some (handleStreamError env chat_generation (default (STREAM_START_ERROR ERROR_MESSAGES) message) None c)
      | Ok _ =>
          let i := length (sources c) in
          let s := {| so_generation := g; so_chat := chat_generation; so_completed := false; so_closed := false |} in
          let c := set_stream (Some i) (generation c) (sources c ++ [s]) (waiting c) true c in
          Some (if starts then c else handleError env i (STREAM_START_ERROR ERROR_MESSAGES) None c)
      end.

  (** The loop over the updates of a message; the flag says that one threw. *)
Fixpoint on_updates (g : nat) (updates : list (StreamChunkType * value)) (c : Chat) : Chat * bool :=
    match updates with
    | [] => (c, false)
    | (type, chunk) :: updates =>
        match handleStreamUpdate g type chunk c with
        | Some c => on_updates g updates c
        | None => (c, true)
        end
    end.

  (** The listeners of a source. *)
Definition on_message (env : Env) (i : nat) (data : str) (c : Chat) : Chat :=
    match current_source i c with
    | None => c
    | Some s =>
        if isStreamDoneMessage data
        then handleStreamComplete env (so_chat s) (closeActiveSource i (mark_completed i c))
        else
          match parseStreamMessageUpdates data with
          | None => handleError env i (PARSE_ERROR ERROR_MESSAGES) None c
          | Some updates =>
              let '(c, threw) := on_updates (so_chat s) updates c in
              if threw then handleError env i (PARSE_ERROR ERROR_MESSAGES) None c else c
          end
    end.

Definition on_source_error (env : Env) (i : nat) (readyState : option Z) (data : option str) (c : Chat) : Chat :=
    match current_source i c with
    | None => c
    | Some _ =>
        if negb (isStreamClosedReadyState readyState)
        then let details := parseStreamErrorDetails data in
             handleError env i (errorMessage details) (errorCode details) c
        else c
    end.

Definition on_readystate (env : Env) (i : nat) (readyState status : option Z) (c : Chat) : Chat :=
    match current_source i c with
    | None => c
    | Some _ =>
        match getStreamReadyStateError readyState status with
        | Some error => handleError env i error None c
        | None => c
        end
    end.

Definition cancel (notify : bool) (c : Chat) : Chat :=
    set_stream None (S (generation c)) (close_previous c) (waiting c) (if notify then false else isStreaming c) c.

Definition isGenerating (c : Chat) : bool := isStreaming c || isRequesting c.

(** *** Sending and stopping *)

Definition sendStreamingChat (env : Env) (ms : list Message) (c : Chat) : Chat :=
    let g := S (requestGeneration c) in
    let c := set_calls None (abort_call (abortController c) (calls c)) c in
    let c := set_handler g (no_chunks g) None true c in
    send g (add_sent (buildChatCompletionPayload ms (env_config env) (env_enabled env)) c).

Definition sendNonStreamingChat (env : Env) (ms : list Message) (c : Chat) : Chat :=
    let g := S (requestGeneration c) in
    let c := cancel true (set_handler g (pendingChunks c) (flushTimer c) (isRequesting c) c) in
    let c := discardPendingStreamUpdates g c in
    let c := set_calls (Some g) (abort_call (abortController c) (calls c) ++ [{| ca_generation := g; ca_aborted := false |}]) c in
    set_requesting true (add_sent (buildChatCompletionPayload ms (env_config env) (env_enabled env)) c).

Definition sendChat (env : Env) (ms : list Message) (c : Chat) : Chat :=
    if cf_stream (env_config env) then sendStreamingChat env ms c else sendNonStreamingChat env ms c.

  (** The end of a request without stream: its [finally] clause. *)
Definition finally_ (g : nat) (c : Chat) : Chat :=
    if requestGeneration c =? g then set_requesting false (set_calls None (calls c) c) else c.

  (** The answer, or the error, of the request of generation [g]. *)
Definition on_answer (env : Env) (g : nat) (answer : result value ChatCompletionResponse) (c : Chat) : option Chat :=
    call ← List.find (fun call => ca_generation call =? g) (calls c);
    let c := set_calls (abortController c) (List.filter (fun call => negb (ca_generation call =? g)) (calls c)) c in
    Some (finally_ g
      (if ca_aborted call || negb (requestGeneration c =? g) then c
       else
         match answer with
         | Ok response =>
             if negb (hasChatCompletionChoice response)
             then handleStreamError env g (API_REQUEST_ERROR ERROR_MESSAGES) None c
             else onMessageUpdate env (U_response g response) c
         | Throw error =>
             let details := parseRequestErrorDetails error in
             handleStreamError env g (errorMessage details) (errorCode details) c
         end)).

Definition stopGeneration (env : Env) (c : Chat) : Chat :=
    let stoppedGeneration := requestGeneration c in
    let c := flushStreamUpdates env stoppedGeneration c in
    let idleGeneration := S stoppedGeneration in
    let c := set_handler idleGeneration (no_chunks idleGeneration) None (isRequesting c) c in
    let c := cancel true c in
    let c := set_calls None (abort_call (abortController c) (calls c)) c in
    onMessageUpdate env (U_stop idleGeneration) (set_requesting false c).

  (** Both clean-up functions. *)
Definition unmount (c : Chat) : Chat :=
    let c := cancel false c in
    let c := set_handler (S (requestGeneration c)) (pendingChunks c) (flushTimer c) (isRequesting c) c in
    unmounted (set_calls None (abort_call (abortController c) (calls c)) c).

(** *** [use-playground-conversation.ts] *)

Definition submit (env : Env) (ms : list Message) (c : Chat) : Chat :=
    sendChat env ms (onMessageUpdate env (U_replace ms) c).

Definition handleSendMessage (env : Env) (ids : PairIds) (now : number) (text : str) (c : Chat) : Chat :=
    submit env (appendUserMessagePair ids now (messages c) text) c.

Definition handleRegenerateMessage (env : Env) (key id : str) (now : number) (messageKey : str) (c : Chat) : Chat :=
    match createRegeneratedMessages key id now (messages c) messageKey with
    | None => c
    | Some next => submit env next c
    end.

Definition applyEdit (env : Env) (key id : str) (now : number) (editingMessageKey : option str) (newContent : str)
      (shouldSubmit : bool) (c : Chat) : Chat :=
    match editingMessageKey with
    | None | Some [] => c
    | Some messageKey =>
        match applyMessageEdit key id now (messages c) messageKey newContent shouldSubmit with
        | None => c
        | Some edit =>
            let c := onMessageUpdate env (U_replace (ed_messages edit)) c in
            if shouldSend edit then sendChat env (ed_messages edit) c else c
        end
    end.

Definition handleDeleteMessage (env : Env) (key : str) (c : Chat) : Chat := onMessageUpdate env (U_remove key) c.

(** ** Events *)

Inductive event : Type :=
  | Ev_send (ids : PairIds) (now : number) (text : str)
  | Ev_regenerate (key id : str) (now : number) (messageKey : str)
  | Ev_edit (key id : str) (now : number) (editingMessageKey : option str) (newContent : str) (shouldSubmit : bool)
  | Ev_delete (key : str)
  | Ev_stop
  | Ev_unmount
  | Ev_render
  | Ev_headers (g : nat) (answer : result (option str) unit) (starts : bool)
  | Ev_message (i : nat) (data : str)
  | Ev_source_error (i : nat) (readyState : option Z) (data : option str)
  | Ev_readystate (i : nat) (readyState status : option Z)
  | Ev_timer
  | Ev_answer (g : nat) (answer : result value ChatCompletionResponse).

  (** What the mounted page can do itself. *)
Definition of_page (e : event) : bool :=
    match e with
    | Ev_send _ _ _ | Ev_regenerate _ _ _ _ | Ev_edit _ _ _ _ _ _ | Ev_delete _ | Ev_stop | Ev_unmount | Ev_render => true
    | _ => false
    end.

  (** [None]: the event cannot happen. *)
Definition handle (env : Env) (e : event) (c : Chat) : option Chat :=
    if of_page e && negb (mounted c) then None
    else
      match e with
      | Ev_send ids now text => Some (handleSendMessage env ids now text c)
      | Ev_regenerate key id now messageKey => Some (handleRegenerateMessage env key id now messageKey c)
      | Ev_edit key id now messageKey content submit => Some (applyEdit env key id now messageKey content submit c)
      | Ev_delete key => Some (handleDeleteMessage env key c)
      | Ev_stop => Some (stopGeneration env c)
      | Ev_unmount => Some (unmount c)
      | Ev_render => Some (render env c)
      | Ev_headers g answer starts => on_headers env g answer starts c
      | Ev_message i data => _ ← sources c !! i; Some (on_message env i data c)
      | Ev_source_error i readyState data => _ ← sources c !! i; Some (on_source_error env i readyState data c)
      | Ev_readystate i readyState status => _ ← sources c !! i; Some (on_readystate env i readyState status c)
      | Ev_timer => g ← flushTimer c; Some (flushStreamUpdates env g c)
      | Ev_answer g answer => on_answer env g answer c
      end.

Inductive reachable : Chat -> Prop :=
  | reach_start loaded : reachable (initial_chat loaded)
  | reach_step env e c c' : reachable c -> handle env e c = Some c' -> reachable c'.

Inductive steps : Chat -> list event -> Chat -> Prop :=
  | steps_nil c : steps c [] c
  | steps_cons env e es c c1 c2 : handle env e c = Some c1 -> steps c1 es c2 -> steps c (e :: es) c2.
End chat.
