(* ===== verification/AuthSession.v ===== *)
(** * The login session of the client

    [stores/auth-store.ts], [lib/auth-session.ts], [lib/auth-session-sync.ts] and
    [lib/session-hint.ts].  The module state of the client is the record
    [Client]; an [async] function is cut at its [await]s, and the events that
    resume it can come in any order with the other operations on the session.
    The network, the clock, the browser lock and the timer are the sources of
    those events. *)

From Stdlib Require Import String.
From S2P Require Import Prelude JsNumber JsString JsText Request Json.

#[local] Open Scope nat_scope.

(** ** Data *)

(** [user] keeps all fields of the object; the checked ones are also given. *)
Record AuthUser : Type := {
  au_id : number;
  au_username : str;
  au_role : number;
  au_profile : list (str * value);
}.
Record LoginSession : Type := {
  ls_sid : str;
  ls_current : bool;
  ls_login_method : str;
  ls_ip : str;
  ls_user_agent : str;
  ls_created_at : number;
  ls_last_active_at : number;
  ls_expires_at : number;
}.
Record AuthBundle : Type := {
  ab_access_token : str;
  ab_token_type : str;
  ab_access_expires_at : number;
  ab_user : AuthUser;
  ab_session : LoginSession;
}.
Record AuthTokenRotation : Type := {
  ar_access_token : str;
  ar_token_type : str;
  ar_access_expires_at : number;
  ar_session : LoginSession;
}.
Inductive AuthBootstrapState : Type := Idle | Checking | Complete.
#[export] Instance bootstrap_eq_dec : EqDecision AuthBootstrapState.
Proof. solve_decision. Defined.

Record PendingLoginVerification : Type := {
  pl_challenge : value;
  pl_redirectTo : option str;
}.

Record AuthStore : Type := {
  user : option AuthUser;
  accessToken : option str;
  accessExpiresAt : option number;
  session : option LoginSession;
  pendingLoginVerification : option PendingLoginVerification;
  bootstrapState : AuthBootstrapState;
}.

(** ** The store *)

Definition initial_store : AuthStore :=
  {| user := None; accessToken := None; accessExpiresAt := None; session := None;
     pendingLoginVerification := None; bootstrapState := Idle |}.

Definition setBundle (bundle : AuthBundle) (s : AuthStore) : AuthStore :=
  {| user := Some (ab_user bundle); accessToken := Some (ab_access_token bundle);
     accessExpiresAt := Some (ab_access_expires_at bundle); session := Some (ab_session bundle);
     pendingLoginVerification := None; bootstrapState := Complete |}.

(** [a?.id === b?.id] *)
Definition same_id (a b : option AuthUser) : bool :=
  match a, b with
  | Some a, Some b => num_eqb (au_id a) (au_id b)
  | None, None => true
  | _, _ => false
  end.

Definition setUser (u : option AuthUser) (s : AuthStore) : AuthStore :=
  {| user := u; accessToken := accessToken s; accessExpiresAt := accessExpiresAt s; session := session s;
     pendingLoginVerification := if same_id (user s) u then pendingLoginVerification s else None;
     bootstrapState := bootstrapState s |}.

Definition setPendingLoginVerification (p : option PendingLoginVerification) (s : AuthStore) : AuthStore :=
  {| user := user s; accessToken := accessToken s; accessExpiresAt := accessExpiresAt s;
     session := session s; pendingLoginVerification := p; bootstrapState := bootstrapState s |}.

Definition setBootstrapState (b : AuthBootstrapState) (s : AuthStore) : AuthStore :=
  {| user := user s; accessToken := accessToken s; accessExpiresAt := accessExpiresAt s;
     session := session s; pendingLoginVerification := pendingLoginVerification s; bootstrapState := b |}.

Definition reset (b : AuthBootstrapState) (s : AuthStore) : AuthStore :=
  {| user := None; accessToken := None; accessExpiresAt := None; session := None;
     pendingLoginVerification := None; bootstrapState := b |}.

(** ** Checks of received values *)

(** The type guards return what they check. *)
Definition isAuthUser (v : value) : option AuthUser :=
  id ← as_number (field v "id");
  username ← as_string (field v "username");
  role ← as_number (field v "role");
  if num_is_integer id && num_gtb id zero then
    Some {| au_id := id; au_username := username; au_role := role;
            au_profile := match v with VObject fields => fields | _ => [] end |}
  else None.

Definition isLoginSession (v : value) : option LoginSession :=
  sid ← as_text (field v "sid");
  current ← as_boolean (field v "current");
  method_ ← as_string (field v "login_method");
  ip ← as_string (field v "ip");
  agent ← as_string (field v "user_agent");
  created ← as_number (field v "created_at");
  active ← as_number (field v "last_active_at");
  expires ← as_number (field v "expires_at");
  Some {| ls_sid := sid; ls_current := current; ls_login_method := method_; ls_ip := ip;
          ls_user_agent := agent; ls_created_at := created; ls_last_active_at := active;
          ls_expires_at := expires |}.

(** Token, type and expiry. *)
Definition hasValidTokenFields (v : value) : option (str * str * number) :=
  token ← as_text (field v "access_token");
  type ← as_text (field v "token_type");
  expires ← as_number (field v "access_expires_at");
  if num_is_finite expires && num_gtb expires zero then Some (token, type, expires) else None.

Definition isAuthBundle (v : value) : option AuthBundle :=
  '(token, type, expires) ← hasValidTokenFields v;
  user_ ← isAuthUser (field v "user");
  session_ ← isLoginSession (field v "session");
  Some {| ab_access_token := token; ab_token_type := type; ab_access_expires_at := expires;
          ab_user := user_; ab_session := session_ |}.

Definition isAuthTokenRotation (v : value) : option AuthTokenRotation :=
  '(token, type, expires) ← hasValidTokenFields v;
  session_ ← isLoginSession (field v "session");
  if str_eqb type (u "Bearer") && ls_current session_ then
    Some {| ar_access_token := token; ar_token_type := type; ar_access_expires_at := expires;
            ar_session := session_ |}
  else None.

(** ** Messages between tabs *)

Inductive SyncKind : Type := Sync_authenticated | Sync_signed_out.

(** What another tab sees: source, nonce and time are added on the way. *)
Record SyncEvent : Type := SyncMessage { se_kind : SyncKind; se_sid : str }.

Definition publishAuthSessionEvent (kind : SyncKind) (sid : str) (events : list SyncEvent) : list SyncEvent :=
  if nonempty sid then events ++ [SyncMessage kind sid] else events.

Definition isAuthSessionSyncEvent (v : value) : option SyncEvent :=
  kind ← as_string (field v "kind");
  sid ← as_text (field v "sid");
  _ ← as_string (field v "source");
  _ ← as_string (field v "nonce");
  _ ← as_number (field v "timestamp");
  if str_eqb kind (u "authenticated") then Some (SyncMessage Sync_authenticated sid)
  else if str_eqb kind (u "signed_out") then Some (SyncMessage Sync_signed_out sid)
  else None.

(** The filter of [subscribeAuthSessionEvents]: messages of other tabs, at most a
    minute old. *)
Definition deliver (source : str) (now : number) (v : value) : option SyncEvent :=
  event ← isAuthSessionSyncEvent v;
  from ← as_string (field v "source");
  timestamp ← as_number (field v "timestamp");
  if negb (str_eqb from source) && num_ltb (num_abs (num_sub now timestamp)) (of_Z 60000)
  then Some event else None.

(** ** The hint cookie *)

Definition SESSION_HINT_COOKIE_NAME : str := u "new_api_has_session".

Fixpoint read_parts (name : str) (parts : list str) : option str :=
  match parts with
  | [] => None
  | part :: parts =>
      if negb (existsb (N.eqb 61) part) then read_parts name parts
      else
        let before := take_while (fun c => negb (N.eqb c 61)) part in
        if negb (str_eqb (trim before) name) then read_parts name parts
        else Some (trim (drop (S (length before)) part))
  end.
Definition readCookie (cookieHeader name : str) : option str :=
  read_parts name (split_char 59 cookieHeader []).

(** [document] is [None] where it is not defined. *)
Definition hasSessionHint (document : option str) : bool :=
  match document with
  | None => true
  | Some cookie => match readCookie cookie SESSION_HINT_COOKIE_NAME with Some _ => true | None => false end
  end.

(** ** Refreshing the session *)

Record AuthRefreshHTTPResponse : Type := {
  rs_status : Z;
  rs_data : value;
  rs_error : value;
}.

Inductive RefreshError : Type := Superseded | Refused (error : value).

Inductive RefreshOutcome : Type :=
| Authenticated (bundle : AuthBundle)
| Anonymous
| Transient (error : RefreshError)
| OutOfSync (code : str).

Definition refreshRaceDelays : list Z := [80; 200; 500]%Z.

(** Where a refresh waits: for the browser lock, for the answer to its request,
    for a delay before the request of [raceAttempt], or, with its outcome, for
    the reaction that forgets the promise. *)
Inductive Phase : Type :=
| Waiting_lock
| Requested (raceAttempt : nat) (allowMismatchRetry : bool)
| Sleeping (delay : Z) (raceAttempt : nat) (allowMismatchRetry : bool)
| Settling (outcome : RefreshOutcome).

(** The refresh behind [refreshPromise]. *)
Record Refresh : Type := { rf_epoch : nat; rf_phase : Phase }.

(** The module state, and what leaves the client: messages to other tabs and
    refresh requests with the session they expect. *)
Record Client : Type := {
  store : AuthStore;
  authEpoch : nat;
  refreshPromise : option Refresh;
  published : list SyncEvent;
  requests : list (option str);
}.

Definition initial_client : Client :=
  {| store := initial_store; authEpoch := 0; refreshPromise := None; published := []; requests := [] |}.

Definition with_store (f : AuthStore -> AuthStore) (c : Client) : Client :=
  {| store := f (store c); authEpoch := authEpoch c; refreshPromise := refreshPromise c;
     published := published c; requests := requests c |}.
Definition with_refresh (r : option Refresh) (c : Client) : Client :=
  {| store := store c; authEpoch := authEpoch c; refreshPromise := r;
     published := published c; requests := requests c |}.

Definition current_sid (c : Client) : option str := ls_sid <$> session (store c).

Definition applyAuthBundle (bundle : AuthBundle) (synchronizeTabs : bool) (c : Client) : Client :=
  {| store := setBundle bundle (store c); authEpoch := S (authEpoch c); refreshPromise := refreshPromise c;
     published :=
       if synchronizeTabs && negb (bool_decide (current_sid c = Some (ls_sid (ab_session bundle))))
       then publishAuthSessionEvent Sync_authenticated (ls_sid (ab_session bundle)) (published c)
       else published c;
     requests := requests c |}.

(** [throw new AuthRotationError(message)] is [Throw message]. *)
Definition applyAuthRotation (v : value) (c : Client) : result str Client :=
  match isAuthTokenRotation v with
  | None => Throw (u "Invalid authentication rotation response")
  | Some rotation =>
      match user (store c), session (store c) with
      | Some user_, Some session_ =>
          if negb (str_eqb (ls_sid (ar_session rotation)) (ls_sid session_))
          then Throw (u "Authentication rotation session mismatch")
          else Ok (applyAuthBundle
                     {| ab_access_token := ar_access_token rotation; ab_token_type := ar_token_type rotation;
                        ab_access_expires_at := ar_access_expires_at rotation;
                        ab_session := ar_session rotation; ab_user := user_ |} false c)
      | _, _ => Throw (u "Authentication rotation has no active session")
      end
  end.

Definition clearAuthentication (synchronizeTabs : bool) (b : AuthBootstrapState) (c : Client) : Client :=
  {| store := reset b (store c); authEpoch := S (authEpoch c); refreshPromise := refreshPromise c;
     published :=
       match synchronizeTabs, current_sid c with
       | true, Some sid => publishAuthSessionEvent Sync_signed_out sid (published c)
       | _, _ => published c
       end;
     requests := requests c |}.

(** *** The runner of [createRefreshRunner], with the runtime of [runRefresh] *)

(** [isCurrent] *)
Definition is_current (epoch : nat) (c : Client) : bool := authEpoch c =? epoch.

Definition at_phase (epoch : nat) (phase : Phase) (c : Client) : Client :=
  with_refresh (Some {| rf_epoch := epoch; rf_phase := phase |}) c.
Definition settle (epoch : nat) (outcome : RefreshOutcome) (c : Client) : Client :=
  at_phase epoch (Settling outcome) c.

(** [run(raceAttempt, allowMismatchRetry)] up to its request. *)
Definition run (epoch : nat) (raceAttempt : nat) (allowMismatchRetry : bool) (c : Client) : Client :=
  if negb (is_current epoch c) then settle epoch (Transient Superseded) c
  else
    at_phase epoch (Requested raceAttempt allowMismatchRetry)
      {| store := store c; authEpoch := authEpoch c; refreshPromise := refreshPromise c;
         published := published c; requests := requests c ++ [current_sid c] |}.

(** [runtime.clear] *)
Definition runtime_clear (synchronizeTabs : bool) (b : option AuthBootstrapState) (c : Client) : Client :=
  if negb synchronizeTabs && bool_decide (b = Some Idle) then with_store (reset Idle) c
  else clearAuthentication synchronizeTabs (default Complete b) c.

(** [typeof responseData?.code === 'string' ? responseData.code : undefined] *)
Definition response_code (data : value) : option str := as_string (field data "code").
Definition is_code (code : option str) (text : string) : bool := bool_decide (code = Some (u text)).

(** [v === true] *)
Definition strictly_true (v : value) : bool := match v with VBoolean b => b | _ => false end.

(** [run] from the answer on. *)
Definition on_response (epoch : nat) (raceAttempt : nat) (allowMismatchRetry : bool)
    (response : AuthRefreshHTTPResponse) (c : Client) : Client :=
  if negb (is_current epoch c) then settle epoch (Transient Superseded) c
  else
    let data := rs_data response in
    let code := response_code data in
    let conflict := (rs_status response =? 409)%Z in
    match strictly_true (field data "success"), isAuthBundle (field data "data") with
    | true, Some bundle => settle epoch (Authenticated bundle) (applyAuthBundle bundle false c)
    | _, _ =>
        if conflict && is_code code "AUTH_REFRESH_RACE" then
          match refreshRaceDelays !! raceAttempt with
          | Some delay => at_phase epoch (Sleeping delay (S raceAttempt) allowMismatchRetry) c
          | None => settle epoch (OutOfSync (u "AUTH_REFRESH_RACE")) (runtime_clear false None c)
          end
        else if conflict && is_code code "AUTH_SESSION_MISMATCH" then
          if allowMismatchRetry then run epoch 0 false (runtime_clear false (Some Idle) c)
          else settle epoch (OutOfSync (u "AUTH_SESSION_MISMATCH")) (runtime_clear false None c)
        else if (rs_status response =? 401)%Z then settle epoch Anonymous (runtime_clear true None c)
        else if (rs_status response =? 0)%Z || (500 <=? rs_status response)%Z || (rs_status response =? 429)%Z
        then settle epoch (Transient (Refused (if nullish (rs_error response) then data else rs_error response)))
               (with_store (setBootstrapState Idle) c)
        else settle epoch (OutOfSync (default (u "AUTH_INVALID_REFRESH_RESPONSE") code))
               (runtime_clear false None c)
    end.

(** [refreshAuthentication] and [performRefreshWithBrowserLock]: the promise of a
    refresh under way is shared; [locks] says that the browser has locks. *)
Definition refreshAuthentication (locks : bool) (c : Client) : Client :=
  match refreshPromise c with
  | Some _ => c
  | None =>
      if locks then at_phase (authEpoch c) Waiting_lock c else run (authEpoch c) 0 true c
  end.

(** *** Callers *)

(** [Math.floor(Date.now() / 1000)]; [now] is in milliseconds. *)
Definition seconds (now : Z) : number := of_Z (now / 1000)%Z.

(** [!token]: missing or empty; [!expires]: missing, zero or not a number. *)
Definition present_text (t : option str) : option str := t ≫= fun s => if nonempty s then Some s else None.
Definition present_number (x : option number) : option number :=
  x ≫= fun n => if num_eqb n zero then None else match n with NaN => None | _ => Some n end.

Definition currentValidAuthBundle (now : Z) (s : AuthStore) : option AuthBundle :=
  user_ ← user s;
  token ← present_text (accessToken s);
  expires ← present_number (accessExpiresAt s);
  session_ ← session s;
  if num_leb expires (seconds now) then None
  else Some {| ab_access_token := token; ab_token_type := u "Bearer"; ab_access_expires_at := expires;
               ab_user := user_; ab_session := session_ |}.

(** [None]: the caller waits for the refresh. *)
Definition resolveAuthentication (locks : bool) (now : Z) (c : Client) : Client * option RefreshOutcome :=
  match currentValidAuthBundle now (store c) with
  | Some bundle => (with_store (setBootstrapState Complete) c, Some (Authenticated bundle))
  | None =>
      let hasStaleSession :=
        match user (store c), session (store c) with Some _, Some _ => true | _, _ => false end in
      if bool_decide (bootstrapState (store c) = Complete) && negb hasStaleSession then (c, Some Anonymous)
      else (refreshAuthentication locks (with_store (setBootstrapState Checking) c), None)
  end.

Definition bootstrapAuthentication (locks : bool) (now : Z) (document : option str) (c : Client)
  : Client * option RefreshOutcome :=
  match currentValidAuthBundle now (store c), hasSessionHint document, user (store c), session (store c) with
  | None, false, None, None => (c, Some Anonymous)
  | _, _, _, _ => resolveAuthentication locks now c
  end.

Definition getCommonHeaders (s : AuthStore) : list (str * str) :=
  (u "Content-Type", u "application/json")
  :: match present_text (accessToken s) with
     | Some token => [(u "Authorization", u "Bearer " ++ token)]
     | None => []
     end.

(** A token that lives longer than [limit]. *)
Definition token_until (limit : number) (s : AuthStore) : bool :=
  match present_text (accessToken s), present_number (accessExpiresAt s) with
  | Some _, Some expires => num_gtb expires limit
  | _, _ => false
  end.

(** [getFreshAuthHeaders] before the refresh: the headers, when the token lives for
    another minute. *)
Definition fresh_headers (now : Z) (c : Client) : option (list (str * str)) :=
  if token_until (num_add (seconds now) (of_Z 60)) (store c) then Some (getCommonHeaders (store c)) else None.

(** And after it; the thrown messages are the keys of the translation. *)
Definition headers_after (now : Z) (outcome : RefreshOutcome) (c : Client) : result str (list (str * str)) :=
  match outcome with
  | Authenticated _ => Ok (getCommonHeaders (store c))
  | _ =>
      if token_until (seconds now) (store c) then Ok (getCommonHeaders (store c))
      else match outcome with
           | Transient _ => Throw (u "Request failed")
           | _ => Throw (u "Session expired!")
           end
  end.

(** ** The client as a state machine *)

Inductive event : Type :=
| Ev_lock
| Ev_response (response : AuthRefreshHTTPResponse)
| Ev_timer
| Ev_settled
| Ev_refresh
| Ev_resolve (now : Z)
| Ev_bootstrap (now : Z) (document : option str)
| Ev_login (bundle : value) (synchronizeTabs : bool)
| Ev_rotation (rotation : value)
| Ev_clear (synchronizeTabs : bool) (b : AuthBootstrapState)
| Ev_setUser (u : AuthUser)
| Ev_setPending (p : option PendingLoginVerification).

(** The events that resume the refresh. *)
Definition resumes (e : event) : bool :=
  match e with Ev_lock | Ev_response _ | Ev_timer => true | _ => false end.

(** [None]: nothing waits for the event. *)
Definition handle (locks : bool) (e : event) (c : Client) : option Client :=
  match e with
  | Ev_lock =>
      match refreshPromise c with
      | Some {| rf_epoch := epoch; rf_phase := Waiting_lock |} => Some (run epoch 0 true c)
      | _ => None
      end
  | Ev_response response =>
      match refreshPromise c with
      | Some {| rf_epoch := epoch; rf_phase := Requested attempt retry |} =>
          Some (on_response epoch attempt retry response c)
      | _ => None
      end
  | Ev_timer =>
      match refreshPromise c with
      | Some {| rf_epoch := epoch; rf_phase := Sleeping _ attempt retry |} => Some (run epoch attempt retry c)
      | _ => None
      end
  | Ev_settled =>
      match refreshPromise c with
      | Some {| rf_phase := Settling _ |} => Some (with_refresh None c)
      | _ => None
      end
  | Ev_refresh => Some (refreshAuthentication locks c)
  | Ev_resolve now => Some (resolveAuthentication locks now c).1
  | Ev_bootstrap now document => Some (bootstrapAuthentication locks now document c).1
  | Ev_login v synchronizeTabs =>
      bundle ← isAuthBundle v; Some (applyAuthBundle bundle synchronizeTabs c)
  | Ev_rotation v => Some (match applyAuthRotation v c with Ok c => c | Throw _ => c end)
  | Ev_clear synchronizeTabs b => Some (clearAuthentication synchronizeTabs b c)
  | Ev_setUser user_ => Some (with_store (setUser (Some user_)) c)
  | Ev_setPending p => Some (with_store (setPendingLoginVerification p) c)
  end.

Definition step (locks : bool) (c : Client) (e : event) (c' : Client) : Prop := handle locks e c = Some c'.

Inductive steps (locks : bool) : Client -> list event -> Client -> Prop :=
| steps_nil c : steps locks c [] c
| steps_cons c e c' es c'' : step locks c e c' -> steps locks c' es c'' -> steps locks c (e :: es) c''.

Definition reachable (locks : bool) (c : Client) : Prop := exists es, steps locks initial_client es c.
