(* ===== verification/StatusRules.v ===== *)
(** * Rules on HTTP status codes

    [lib/http-status-code-rules.ts]: a text of codes and ranges, merged into
    disjoint ranges and printed again.  The input is the text of the form.
    Codes are integers: a text of digits above 599 is refused however large it
    is, so [parseInt] is the value of the digits. *)

From Stdlib Require Import String.
From S2P Require Import Prelude JsNumber JsString JsText.

#[local] Open Scope Z_scope.

Record StatusCodeRange : Type := Range { start : Z; stop : Z }.

Record ParsedHttpStatusCodeRules : Type := {
  ok : bool;
  ranges : list StatusCodeRange;
  tokens : list str;
  normalized : str;
  invalidTokens : list str;
}.

(** [typeof s === 'string' && /^\d+$/.test(s)] *)
Definition isNumber (s : str) : bool := nonempty s && forallb is_digit s.

Definition isValidCode (code : Z) : bool := (100 <=? code) && (code <=? 599).

Definition parseToken (token : str) : option StatusCodeRange :=
  let cleaned := List.filter (fun c => negb (is_space c)) (trim token) in
  if negb (nonempty cleaned) then None
  else if existsb (N.eqb minus_sign) cleaned then
    match split_char minus_sign cleaned [] with
    | a :: b :: _ =>
        if negb (isNumber a) || negb (isNumber b) then None
        else
          let start := digits_value a in
          let stop := digits_value b in
          if negb (isValidCode start) || negb (isValidCode stop) || (stop <? start) then None
          else Some (Range start stop)
    | _ => None
    end
  else if negb (isNumber cleaned) then None
  else
    let code := digits_value cleaned in
    if negb (isValidCode code) then None else Some (Range code code).

(** The comparison of the sort: [a] comes before [b] or stays before it. *)
Definition range_leb (a b : StatusCodeRange) : bool :=
  if negb (start a =? start b) then start a - start b <=? 0 else stop a - stop b <=? 0.
Fixpoint insert_range (r : StatusCodeRange) (l : list StatusCodeRange) : list StatusCodeRange :=
  match l with
  | [] => [r]
  | d :: l => if range_leb r d then r :: d :: l else d :: insert_range r l
  end.
Definition sort_ranges (l : list StatusCodeRange) : list StatusCodeRange := foldr insert_range [] l.

(** One turn of the reduction; [merged] has its last range first. *)
Definition merge_step (merged : list StatusCodeRange) (current : StatusCodeRange) : list StatusCodeRange :=
  match merged with
  | [] => [current]
  | last :: rest =>
      if stop last + 1 <? start current then current :: merged
      else Range (start last) (Z.max (stop last) (stop current)) :: rest
  end.
Definition mergeRanges (ranges : list StatusCodeRange) : list StatusCodeRange :=
  rev (fold_left merge_step (sort_ranges ranges) []).

Definition code_text (code : Z) : str := number_to_string (of_Z code).
Definition range_text (r : StatusCodeRange) : str :=
  if start r =? stop r then code_text (start r) else code_text (start r) ++ [minus_sign] ++ code_text (stop r).

(** [raw.replace(/[，]/g, ',').split(',').map((s) => s.trim()).filter(Boolean)] *)
Definition full_width_comma : N := 65292.
Definition segments_of (raw : str) : list str :=
  let sanitized := map (fun c => if N.eqb c full_width_comma then 44%N else c) raw in
  List.filter nonempty (map trim (split_char 44 sanitized [])).

Definition parseHttpStatusCodeRules (input : str) : ParsedHttpStatusCodeRules :=
  let raw := trim input in
  if negb (nonempty raw) then
    {| ok := true; ranges := []; tokens := []; normalized := []; invalidTokens := [] |}
  else
    let segments := segments_of raw in
    let parsed := omap parseToken segments in
    let invalid := List.filter (fun s => match parseToken s with None => true | Some _ => false end) segments in
    match invalid with
    | _ :: _ => {| ok := false; ranges := []; tokens := []; normalized := raw; invalidTokens := invalid |}
    | [] =>
        let merged := mergeRanges parsed in
        let tokens := map range_text merged in
        {| ok := true; ranges := merged; tokens := tokens; normalized := join (u ",") tokens;
           invalidTokens := [] |}
    end.

(** ** What the rules say *)

Definition within (code : Z) (r : StatusCodeRange) : Prop := start r <= code <= stop r.
Definition covers (code : Z) (l : list StatusCodeRange) : Prop := exists r, r ∈ l /\ within code r.

(** The codes a text asks for: those of its tokens. *)
Definition asks (input : str) (code : Z) : Prop :=
  exists segment r, segment ∈ segments_of (trim input) /\ parseToken segment = Some r /\ within code r.

(** Ranges of codes in order, with a gap between each two. *)
Definition proper (r : StatusCodeRange) : Prop := 100 <= start r <= stop r /\ stop r <= 599.
Fixpoint apart (l : list StatusCodeRange) : Prop :=
  match l with
  | a :: ((b :: _) as l') => stop a + 1 < start b /\ apart l'
  | _ => True
  end.

Lemma parseToken_proper s r : parseToken s = Some r -> proper r.
Proof.
  unfold parseToken, isValidCode, proper. intros H. repeat case_match; try discriminate H; injection H as <-; cbn;
    repeat match goal with
    | E : _ || _ = false |- _ => apply orb_false_iff in E as [? ?]
    | E : negb _ = false |- _ => apply negb_false_iff in E
    | E : _ && _ = true |- _ => apply andb_true_iff in E as [? ?]
    end; lia.
Qed.

(** ** Sorting *)

Definition starts_before (a b : StatusCodeRange) : Prop := start a <= start b.

Lemma insert_range_elem r l x : x ∈ insert_range r l <-> x = r \/ x ∈ l.
Proof.
  induction l as [|d l IH]; cbn; [by rewrite list_elem_of_singleton, elem_of_nil; tauto|].
  destruct (range_leb r d); rewrite !elem_of_cons, ?IH; tauto.
Qed.
Lemma sort_ranges_elem l x : x ∈ sort_ranges l <-> x ∈ l.
Proof.
  induction l as [|r l IH]; cbn; [done|]. fold (sort_ranges l). by rewrite insert_range_elem, IH, elem_of_cons.
Qed.

Lemma range_leb_starts a b : range_leb a b = true -> start a <= start b.
Proof. unfold range_leb. destruct (Z.eqb_spec (start a) (start b)); cbn; lia. Qed.
Lemma range_leb_false a b : range_leb a b = false -> start b <= start a.
Proof. unfold range_leb. destruct (Z.eqb_spec (start a) (start b)); cbn; lia. Qed.

(** The head starts first. *)
Fixpoint in_order (l : list StatusCodeRange) : Prop :=
  match l with [] => True | r :: l => (forall x, x ∈ l -> start r <= start x) /\ in_order l end.

Lemma insert_range_order r l : in_order l -> in_order (insert_range r l).
Proof.
  induction l as [|d l IH]; cbn; [by intros _; split; [intros x ?%elem_of_nil|]|]. intros [Hd Hl].
  destruct (range_leb r d) eqn:E; cbn.
  - apply range_leb_starts in E. split; [|done]. intros x [->|Hx]%elem_of_cons; [done|]. specialize (Hd x Hx). lia.
  - apply range_leb_false in E. split; [|by apply IH]. intros x [->|Hx]%insert_range_elem; [done|by apply Hd].
Qed.
Lemma sort_ranges_order l : in_order (sort_ranges l).
Proof. induction l as [|r l IH]; cbn; [done|]. by apply insert_range_order. Qed.

(** ** Merging *)

Lemma covers_nil code : ~ covers code [].
Proof. by intros (r & Hr%elem_of_nil & _). Qed.
Lemma covers_cons code r l : covers code (r :: l) <-> within code r \/ covers code l.
Proof.
  unfold covers. split.
  - intros (x & [->|Hx]%elem_of_cons & Hw); [by left|right; by exists x].
  - intros [Hw|(x & Hx & Hw)]; [exists r; split; [by left|done]|exists x; split; [by right|done]].
Qed.
Lemma covers_rev code l : covers code (rev l) <-> covers code l.
Proof. unfold covers. setoid_rewrite list_elem_of_In. setoid_rewrite <- in_rev. done. Qed.

(** The same as [apart], last range first. *)
Fixpoint apart_rev (l : list StatusCodeRange) : Prop :=
  match l with
  | a :: ((b :: _) as l') => stop b + 1 < start a /\ apart_rev l'
  | _ => True
  end.

Lemma apart_snoc l a b : apart (l ++ [a]) -> stop a + 1 < start b -> apart ((l ++ [a]) ++ [b]).
Proof.
  induction l as [|x l IH]; cbn; [done|]. destruct l as [|y l]; cbn in *.
  - intros [? _] ?. done.
  - intros [? ?] ?. split; [done|]. by apply IH.
Qed.
Lemma apart_of_rev l : apart_rev l -> apart (rev l).
Proof.
  induction l as [|a l IH]; [done|]. destruct l as [|b l]; [done|]. intros [Hab Hl].
  cbn [rev] in *. by apply apart_snoc; [apply IH|].
Qed.

Record merge_ok (merged seen : list StatusCodeRange) : Prop := {
  merge_apart : apart_rev merged;
  merge_proper : Forall proper merged;
  merge_covers : forall code, covers code merged <-> covers code seen;
  merge_last : forall last, head merged = Some last -> exists r, r ∈ seen /\ start last = start r;
}.

Lemma merge_step_ok merged seen r : merge_ok merged seen -> proper r ->
  (forall x, x ∈ seen -> start x <= start r) -> merge_ok (merge_step merged r) (r :: seen).
Proof.
  intros [Ha Hp Hc Hl] Hr Hs. unfold merge_step. destruct merged as [|last rest].
  { split; [done|by constructor| |].
    - intros code. rewrite !covers_cons, Hc. tauto.
    - intros x [= <-]. exists r. split; [by left|done]. }
  destruct (Hl last eq_refl) as (x & Hx & Ex). specialize (Hs x Hx).
  apply List.Forall_cons_iff in Hp as [Hlast Hp]. destruct (Z.ltb_spec (stop last + 1) (start r)) as [Hgap|Hno].
  - split; [done|constructor; [done|by constructor]| |].
    + intros code. rewrite (covers_cons code r), (covers_cons code r seen), Hc. tauto.
    + intros y [= <-]. exists r. split; [by left|done].
  - unfold proper in *. split.
    + destruct rest as [|b rest]; [done|]. by destruct Ha.
    + constructor; [unfold proper; cbn [start stop]; lia|done].
    + intros code. rewrite (covers_cons code r seen), <- Hc, !covers_cons. unfold within. cbn [start stop]. split.
      * intros [?|?]; [|tauto]. destruct (Z.le_gt_cases code (stop last)); [right; left; lia|left; lia].
      * intros [?|[?|?]]; [left; lia|left; lia|by right].
    + intros y [= <-]. exists x. split; [by right|done].
Qed.

Lemma merge_all l : forall merged seen, merge_ok merged seen -> Forall proper l -> in_order l ->
  (forall x y, x ∈ seen -> y ∈ l -> start x <= start y) -> 
  exists all, merge_ok (fold_left merge_step l merged) all /\ forall x, x ∈ all <-> x ∈ seen \/ x ∈ l.
Proof.
  induction l as [|r l IH]; intros merged seen Hm Hp Ho Hs; cbn.
  { exists seen. split; [done|]. intros x. rewrite elem_of_nil. tauto. }
  apply List.Forall_cons_iff in Hp as [Hr Hp]. destruct Ho as [Hfirst Ho].
  destruct (IH (merge_step merged r) (r :: seen)) as (all & Hall & Helem); [|done|done| |].
  - apply merge_step_ok; [done|done|]. intros x Hx. apply Hs; [done|by left].
  - intros x y [->|Hx]%elem_of_cons Hy; [by apply Hfirst|]. apply Hs; [done|by right].
  - exists all. split; [done|]. intros x. rewrite Helem, !elem_of_cons. tauto.
Qed.

Lemma mergeRanges_spec l : Forall proper l ->
  apart (mergeRanges l) /\ Forall proper (mergeRanges l) /\
  forall code, covers code (mergeRanges l) <-> covers code l.
Proof.
  intros Hl. unfold mergeRanges.
  destruct (merge_all (sort_ranges l) [] []) as (all & [Ha Hp Hc _] & Helem).
  - split; [done|constructor|done|done].
  - apply List.Forall_forall. intros x Hx. rewrite List.Forall_forall in Hl.
    apply Hl, list_elem_of_In, sort_ranges_elem. by apply list_elem_of_In.
  - apply sort_ranges_order.
  - by intros x y ?%elem_of_nil.
  - split; [by apply apart_of_rev|]. split; [by apply Forall_rev|].
    intros code. rewrite covers_rev, Hc. unfold covers. setoid_rewrite Helem.
    setoid_rewrite sort_ranges_elem. setoid_rewrite elem_of_nil. naive_solver.
Qed.

(** ** Ranges with gaps are determined by the codes they cover *)

Lemma apart_after a l : apart (a :: l) -> Forall proper l -> forall x, x ∈ l -> stop a + 1 < start x.
Proof.
  revert a. induction l as [|b l IH]; intros a Ha Hp x; [by intros ?%elem_of_nil|].
  destruct Ha as [Hab Hb]. apply List.Forall_cons_iff in Hp as [Hpb Hp].
  intros [->|Hx]%elem_of_cons; [done|]. specialize (IH b Hb Hp x Hx). unfold proper in Hpb. lia.
Qed.

Lemma apart_unique l1 : forall l2, apart l1 -> apart l2 -> Forall proper l1 -> Forall proper l2 ->
  (forall code, covers code l1 <-> covers code l2) -> l1 = l2.
Proof.
  assert (forall a l, proper a -> covers (start a) (a :: l)) as Hhead.
  { intros a l Ha. rewrite covers_cons. left. unfold within, proper in *. lia. }
  assert (forall a l code, apart (a :: l) -> Forall proper l -> covers code (a :: l) ->
    within code a \/ stop a + 1 < code) as Hcases.
  { intros a l code Ha Hl [Hw|(x & Hx & Hw)]%covers_cons; [by left|right].
    pose proof (apart_after _ _ Ha Hl x Hx). unfold within in Hw. lia. }
  induction l1 as [|a l1 IH]; intros [|b l2] H1 H2 P1 P2 Hc; [done| | |].
  - apply List.Forall_cons_iff in P2 as [Pb _]. destruct (covers_nil (start b)). apply Hc. by apply Hhead.
  - apply List.Forall_cons_iff in P1 as [Pa _]. destruct (covers_nil (start a)). apply Hc. by apply Hhead.
  - apply List.Forall_cons_iff in P1 as [Pa P1], P2 as [Pb P2].
    pose proof (Hcases b l2 (start a) H2 P2 (proj1 (Hc _) (Hhead a l1 Pa))) as C1.
    pose proof (Hcases a l1 (start b) H1 P1 (proj2 (Hc _) (Hhead b l2 Pb))) as C2.
    assert (covers (stop a) (a :: l1)) as Ca by (apply covers_cons; left; unfold within, proper in *; lia).
    assert (covers (stop b) (b :: l2)) as Cb by (apply covers_cons; left; unfold within, proper in *; lia).
    apply Hc in Ca. apply Hc in Cb. apply (Hcases b l2 _ H2 P2) in Ca. apply (Hcases a l1 _ H1 P1) in Cb.
    assert (~ (stop b < stop a)) as N1.
    { intros Hlt. assert (covers (stop b + 1) (a :: l1)) as C.
      { apply covers_cons. left. unfold within, proper in *. lia. }
      apply Hc in C. apply (Hcases b l2 _ H2 P2) in C. unfold within in *. lia. }
    assert (~ (stop a < stop b)) as N2.
    { intros Hlt. assert (covers (stop a + 1) (b :: l2)) as C.
      { apply covers_cons. left. unfold within, proper in *. lia. }
      apply Hc in C. apply (Hcases a l1 _ H1 P1) in C. unfold within in *. lia. }
    assert (a = b) as <-.
    { destruct a as [sa ea], b as [sb eb]. unfold within, proper in *. cbn in *. f_equal; lia. }
    f_equal. apply IH; [by destruct l1; [|destruct H1]|by destruct l2; [|destruct H2]|done|done|].
    assert (forall l, apart (a :: l) -> Forall proper l -> forall code,
      covers code l <-> covers code (a :: l) /\ ~ within code a) as Htail.
    { intros l Hl Pl code. rewrite covers_cons. split; [|tauto]. intros Hcov. split; [by right|].
      destruct Hcov as (x & Hx & Hw). pose proof (apart_after _ _ Hl Pl x Hx). unfold within in *. lia. }
    intros code. rewrite (Htail l1), (Htail l2) by done. by rewrite Hc.
Qed.

(** ** Printing and reading again *)

Definition code_readable (code : Z) : bool :=
  isNumber (code_text code) && (digits_value (code_text code) =? code).
Lemma codes_readable : forallb code_readable (map Z.of_nat (seq 100 500)) = true.
Proof. vm_compute. reflexivity. Qed.

Lemma code_text_spec code : 100 <= code <= 599 ->
  isNumber (code_text code) = true /\ digits_value (code_text code) = code.
Proof.
  intros Hc. pose proof codes_readable as H. rewrite forallb_forall in H.
  specialize (H code). rewrite in_map_iff in H. unfold code_readable in H.
  destruct (andb_prop _ _ (H ltac:(exists (Z.to_nat code); split; [lia|apply in_seq; lia]))) as [H1 H2].
  split; [done|lia].
Qed.

Lemma split_char_none c s piece : Forall (fun x => x <> c) s -> split_char c s piece = [rev piece ++ s].
Proof.
  intros H. revert piece. induction H as [|x s Hx Hs IH]; intros piece; cbn; [by rewrite app_nil_r|].
  destruct (N.eqb_spec x c); [done|]. rewrite IH. cbn. by rewrite <- app_assoc.
Qed.
Lemma split_char_first c s rest piece : Forall (fun x => x <> c) s ->
  split_char c (s ++ c :: rest) piece = (rev piece ++ s) :: split_char c rest [].
Proof.
  intros H. revert piece. induction H as [|x s Hx Hs IH]; intros piece; cbn.
  - by rewrite N.eqb_refl, app_nil_r.
  - destruct (N.eqb_spec x c); [done|]. rewrite IH. cbn. by rewrite <- app_assoc.
Qed.
Lemma split_join c l : l <> [] -> Forall (fun s => Forall (fun x => x <> c) s) l ->
  split_char c (join [c] l) [] = l.
Proof.
  intros Hl H. destruct H as [|s l Hs H]; [done|]. clear Hl. revert s Hs.
  induction H as [|t l Ht H IH]; intros s Hs; [cbn; by rewrite split_char_none|].
  change (join [c] (s :: t :: l)) with (s ++ c :: join [c] (t :: l)).
  rewrite split_char_first by done. f_equal. by apply IH.
Qed.

(** The characters of a printed range. *)
Definition rule_char (c : N) : bool := is_digit c || N.eqb c minus_sign.

Lemma rule_char_spec c : rule_char c = true ->
  is_space c = false /\ c <> 44%N /\ N.eqb c full_width_comma = false.
Proof.
  unfold rule_char, is_digit, in_range. rewrite orb_true_iff, andb_true_iff, !N.leb_le, N.eqb_eq.
  intros H. assert (45 <= c <= 57)%N as Hc by (unfold minus_sign in H; lia).
  split; [|split; [lia|apply N.eqb_neq; unfold full_width_comma; lia]].
  unfold is_space, in_range. repeat (apply orb_false_iff; split);
    rewrite ?andb_false_iff, ?N.leb_gt, ?N.eqb_neq; lia.
Qed.

Lemma is_number_chars s : isNumber s = true -> s <> [] /\ Forall (fun c => is_digit c = true) s.
Proof.
  unfold isNumber. rewrite andb_true_iff. intros [Hs Hd]. split; [by destruct s|].
  apply List.Forall_forall. by rewrite forallb_forall in Hd.
Qed.

Lemma digit_not_minus s : Forall (fun c => is_digit c = true) s -> Forall (fun x => x <> minus_sign) s.
Proof. apply List.Forall_impl. intros c Hc ->. discriminate Hc. Qed.

Lemma range_text_chars r : proper r -> range_text r <> [] /\ Forall (fun c => rule_char c = true) (range_text r).
Proof.
  intros Hr. unfold range_text, proper in *. destruct (code_text_spec (start r)) as [H1 _]; [lia|].
  destruct (code_text_spec (stop r)) as [H2 _]; [lia|].
  apply is_number_chars in H1 as [Hn1 H1], H2 as [Hn2 H2].
  assert (forall s, Forall (fun c => is_digit c = true) s -> Forall (fun c => rule_char c = true) s) as Hd.
  { intros s. apply List.Forall_impl. intros c Hc. unfold rule_char. by rewrite Hc. }
  destruct (_ =? _); [split; [done|by apply Hd]|]. split; [by destruct (code_text (start r))|].
  apply Forall_app. split; [by apply Hd|]. constructor; [done|by apply Hd].
Qed.

Lemma filter_keeps {A} (p : A -> bool) l : Forall (fun x => p x = true) l -> List.filter p l = l.
Proof. induction 1 as [|x l Hx H IH]; cbn; [done|]. by rewrite Hx, IH. Qed.

Lemma parse_range_text r : proper r -> parseToken (range_text r) = Some r.
Proof.
  intros Hr. destruct (range_text_chars r Hr) as [Hne Hch]. unfold parseToken.
  assert (Forall (fun c => is_space c = false) (range_text r)) as Hsp.
  { eapply List.Forall_impl; [|exact Hch]. intros c Hc. by apply rule_char_spec. }
  rewrite trim_nonspace by done. rewrite filter_keeps.
  2: { eapply List.Forall_impl; [|exact Hsp]. intros c Hc. cbn. by rewrite Hc. }
  destruct (range_text r) as [|c0 t0] eqn:Et; [done|]. cbn [nonempty negb]. rewrite <- Et. clear Et c0 t0 Hne Hch Hsp.
  unfold proper in Hr. unfold range_text.
  destruct (code_text_spec (start r)) as [N1 V1]; [lia|]. destruct (code_text_spec (stop r)) as [N2 V2]; [lia|].
  pose proof (is_number_chars _ N1) as [_ D1]. pose proof (is_number_chars _ N2) as [_ D2].
  assert (forall code, 100 <= code <= 599 -> isValidCode code = true) as Hv.
  { intros code Hc. unfold isValidCode. lia. }
  destruct (Z.eqb_spec (start r) (stop r)) as [E|E].
  - assert (existsb (N.eqb minus_sign) (code_text (start r)) = false) as ->.
    { apply not_true_is_false. intros (c & Hc & Em)%existsb_exists.
      apply digit_not_minus in D1. rewrite List.Forall_forall in D1. apply (D1 c Hc). by apply N.eqb_eq in Em. }
    rewrite N1, V1, Hv by lia. cbn. destruct r; cbn in *. by subst.
  - assert (existsb (N.eqb minus_sign) (code_text (start r) ++ [minus_sign] ++ code_text (stop r)) = true) as ->.
    { apply existsb_exists. exists minus_sign. split; [apply in_or_app; right; by left|apply N.eqb_refl]. }
    cbn [app]. rewrite split_char_first by by apply digit_not_minus. cbn [rev app].
    rewrite split_char_none by by apply digit_not_minus. cbn [rev app].
    rewrite N1, N2, V1, V2, !Hv by lia. cbn [negb orb]. destruct (Z.ltb_spec (stop r) (start r)); [lia|].
    by destruct r.
Qed.

(** ** The rules of a text *)

Lemma parse_ok_cases input : ok (parseHttpStatusCodeRules input) = true ->
  let parsed := omap parseToken (segments_of (trim input)) in
  parseHttpStatusCodeRules input =
    {| ok := true; ranges := mergeRanges parsed; tokens := map range_text (mergeRanges parsed);
       normalized := join (u ",") (map range_text (mergeRanges parsed)); invalidTokens := [] |}.
Proof.
  unfold parseHttpStatusCodeRules. cbn zeta. destruct (trim input) as [|c raw] eqn:E; [done|].
  cbn [nonempty negb]. by destruct (List.filter _ _).
Qed.

Lemma parsed_proper segments : Forall proper (omap parseToken segments).
Proof.
  apply List.Forall_forall. intros r Hr. apply list_elem_of_In, list_elem_of_omap in Hr as (s & _ & Hs).
  by eapply parseToken_proper.
Qed.

Lemma asks_parsed input code : asks input code <-> covers code (omap parseToken (segments_of (trim input))).
Proof.
  unfold asks, covers. setoid_rewrite list_elem_of_omap. naive_solver.
Qed.

(** The text of ranges with gaps is read as these ranges. *)
Lemma printed_segments l : Forall proper l ->
  segments_of (trim (join (u ",") (map range_text l))) = map range_text l /\
  Forall (fun c => is_space c = false) (join (u ",") (map range_text l)).
Proof.
  intros Hl. assert (Forall (fun s => s <> [] /\ Forall (fun c => rule_char c = true) s) (map range_text l)) as Ht.
  { apply List.Forall_map. eapply List.Forall_impl; [|exact Hl]. apply range_text_chars. }
  generalize dependent (map range_text l). intros ts Ht. clear Hl l.
  assert (Forall (fun c => is_space c = false /\ N.eqb c full_width_comma = false) (join (u ",") ts)) as Hjoin.
  { induction Ht as [|s ts [_ Hs] Ht IH]; [constructor|].
    assert (Forall (fun c => is_space c = false /\ N.eqb c full_width_comma = false) s) as Hs'.
    { eapply List.Forall_impl; [|exact Hs]. intros c Hc. destruct (rule_char_spec c Hc) as (? & _ & ?). done. }
    destruct ts as [|t ts]; [done|]. change (join (u ",") (s :: t :: ts)) with (s ++ 44%N :: join (u ",") (t :: ts)).
    apply Forall_app. split; [done|]. constructor; [done|exact IH]. }
  split.
  2: { eapply List.Forall_impl; [|exact Hjoin]. by intros c [? _]. }
  rewrite trim_nonspace by (eapply List.Forall_impl; [|exact Hjoin]; by intros c [? _]).
  unfold segments_of. cbn zeta.
  rewrite (map_ext_in (fun c => if N.eqb c full_width_comma then 44%N else c) id).
  2: { intros c Hc. rewrite List.Forall_forall in Hjoin. destruct (Hjoin c Hc) as [_ E]. by rewrite E. }
  rewrite map_id. destruct ts as [|t ts]; [done|]. change (u ",") with [44%N]. rewrite split_join; [|done|].
  2: { eapply List.Forall_impl; [|exact Ht]. intros s [_ Hs]. eapply List.Forall_impl; [|exact Hs].
       intros c Hc. by apply rule_char_spec. }
  rewrite (map_ext_in trim id).
  2: { intros s Hs. rewrite List.Forall_forall in Ht. destruct (Ht s Hs) as [_ Hc]. apply trim_nonspace.
       eapply List.Forall_impl; [|exact Hc]. intros c Hcc. by apply rule_char_spec. }
  rewrite map_id. apply filter_keeps. eapply List.Forall_impl; [|exact Ht]. intros s [Hs _]. by destruct s.
Qed.

Lemma omap_printed l : Forall proper l -> omap parseToken (map range_text l) = l.
Proof.
  induction 1 as [|r l Hr Hl IH]; [done|]. cbn [map]. unfold omap in *. cbn [list_omap].
  rewrite parse_range_text by done. by rewrite IH.
Qed.

Lemma none_invalid l : Forall proper l ->
  List.filter (fun s => match parseToken s with None => true | Some _ => false end) (map range_text l) = [].
Proof. induction 1 as [|r l Hr Hl IH]; [done|]. cbn. by rewrite parse_range_text. Qed.

(** Ranges with gaps are merged into themselves. *)
Lemma merge_apart_id l : apart l -> Forall proper l -> mergeRanges l = l.
Proof.
  intros Ha Hp. destruct (mergeRanges_spec l Hp) as (Ha' & Hp' & Hc). by apply apart_unique.
Qed.

Lemma reread l : apart l -> Forall proper l ->
  parseHttpStatusCodeRules (join (u ",") (map range_text l)) =
    {| ok := true; ranges := l; tokens := map range_text l; normalized := join (u ",") (map range_text l);
       invalidTokens := [] |}.
Proof.
  intros Ha Hp. destruct (printed_segments l Hp) as [Hseg Hsp]. unfold parseHttpStatusCodeRules. cbn zeta.
  rewrite Hseg, none_invalid, omap_printed, merge_apart_id by done.
  destruct l as [|r l]; [done|]. rewrite trim_nonspace by done.
  destruct (join (u ",") (map range_text (r :: l))) as [|c s] eqn:E; [|done].
  exfalso. apply List.Forall_cons_iff in Hp as [Hr _]. destruct (range_text_chars r Hr) as [Hne _].
  cbn [map] in E. destruct (map range_text l) as [|t ts]; [done|].
  change (join (u ",") (range_text r :: t :: ts)) with (range_text r ++ 44%N :: join (u ",") (t :: ts)) in E.
  by destruct (range_text r).
Qed.

(** C36: status code rules have a canonical text.  Accepted rules cover exactly the
    codes of their tokens, as ranges of codes between 100 and 599 in order with a
    gap between each two; the normalized text is accepted and gives the same
    rules; and two accepted texts have the same normalized text exactly when they
    ask for the same codes. *)
Theorem status_rules_are_canonical input input' :
  let p := parseHttpStatusCodeRules input in
  let p' := parseHttpStatusCodeRules input' in
  ok p = true -> ok p' = true ->
  (forall code, covers code (ranges p) <-> asks input code) /\
  apart (ranges p) /\ Forall proper (ranges p) /\
  parseHttpStatusCodeRules (normalized p) = p /\
  (normalized p = normalized p' <-> forall code, asks input code <-> asks input' code).
Proof.
  intros p p' Hok Hok'. unfold p, p'.
  rewrite (parse_ok_cases input Hok), (parse_ok_cases input' Hok'). cbn [ranges normalized].
  destruct (mergeRanges_spec _ (parsed_proper (segments_of (trim input)))) as (Ha & Hp & Hc).
  destruct (mergeRanges_spec _ (parsed_proper (segments_of (trim input')))) as (Ha' & Hp' & Hc').
  setoid_rewrite asks_parsed. split; [exact Hc|]. split; [done|]. split; [done|]. split; [by apply reread|].
  setoid_rewrite <- Hc. setoid_rewrite <- Hc'. split.
  - intros E. pose proof (reread _ Ha Hp) as R. rewrite E, (reread _ Ha' Hp') in R.
    injection R as E1 _. by rewrite E1.
  - intros E. by rewrite (apart_unique _ _ Ha Ha' Hp Hp' E).
Qed.

Lemma status_rules_are_canonical_witness :
  normalized (parseHttpStatusCodeRules (u " 500-510, 429,502 - 599 ,428")) = u "428-429,500-599" /\
  (forall code, asks (u " 500-510, 429,502 - 599 ,428") code <-> asks (u "428-429,500-599") code).
Proof.
  split; [vm_compute; reflexivity|].
  destruct (status_rules_are_canonical (u " 500-510, 429,502 - 599 ,428") (u "428-429,500-599"))
    as (_ & _ & _ & _ & H).
  - vm_compute. reflexivity.
  - vm_compute. reflexivity.
  - apply H. vm_compute. reflexivity.
Defined.

(** A token with more than two parts is read as its first two. *)
Lemma third_part_is_ignored :
  normalized (parseHttpStatusCodeRules (u "200-299-abc")) = u "200-299" /\
  ok (parseHttpStatusCodeRules (u "200-299-abc")) = true.
Proof. vm_compute. split; reflexivity. Qed.
