(* ===== verification/AdvancedCustom.v ===== *)
(** * Routes of a custom channel

    [features/channels/lib/advanced-custom.ts]: the routes an administrator configures
    for a channel of the type "advanced custom", their normal form, defaults and
    templates, the replacement of routes in the editor, and their validation.  A
    configuration is its typed value of [features/channels/types.ts]; its JSON text is
    in RouteText. *)

From Stdlib Require Import String.
From S2P Require Import Prelude JsString.

#[local] Open Scope nat_scope.

(** ** Data *)

Record AdvancedCustomRouteAuth : Type := {
  au_type : option str;
  au_name : option str;
  au_value : option str;
}.
Record AdvancedCustomRoute : Type := {
  rt_incoming_path : option str;
  rt_upstream_path : option str;
  rt_converter : option str;
  rt_models : option (list str);
  rt_auth : option AdvancedCustomRouteAuth;
  rt_pass_through_body_enabled : option bool;
}.
Record AdvancedCustomConfig : Type := { advanced_routes : option (list AdvancedCustomRoute) }.

Record AdvancedCustomValidationError : Type := {
  ve_message : str;
  ve_routeIndex : option nat;
}.

(** [o || fallback], [o?.trim() || ''] *)
Definition or_else (o : option str) (fallback : str) : str :=
  match o with Some (c :: s) => c :: s | _ => fallback end.
Definition trimmed_text (o : option str) : str := trim (default [] o).

Definition ADVANCED_CUSTOM_MODEL_LIST_PATH : str := u "/v1/models".
Definition ADVANCED_CUSTOM_MODEL_LIST_LABEL : str := u "OpenAI Models".
Definition ADVANCED_CUSTOM_BALANCE_PATH : str := u "/v1/dashboard/billing/credit_grants".
Definition ADVANCED_CUSTOM_BALANCE_LABEL : str := u "Balance Query".

(** Converters with label and short label. *)
Definition ADVANCED_CUSTOM_CONVERTER_OPTIONS : list (str * str * str) :=
  [(u "none", u "Native forwarding", u "Native forwarding");
   (u "anthropic_messages_to_openai_chat_completions", u "Anthropic Messages to OpenAI Chat", u "To OpenAI Chat");
   (u "openai_chat_completions_to_anthropic_messages", u "OpenAI Chat to Anthropic Messages", u "To Anthropic Messages");
   (u "openai_chat_completions_to_openai_responses", u "OpenAI Chat to OpenAI Responses", u "To OpenAI Responses");
   (u "openai_responses_to_openai_chat_completions", u "OpenAI Responses to OpenAI Chat", u "To OpenAI Chat");
   (u "openai_responses_to_gemini_generate_content", u "OpenAI Responses to Gemini Generate Content",
    u "To Gemini Generate Content");
   (u "gemini_generate_content_to_openai_chat_completions", u "Gemini Generate Content to OpenAI Chat", u "To OpenAI Chat");
   (u "openai_chat_completions_to_gemini_generate_content", u "OpenAI Chat to Gemini Generate Content",
    u "To Gemini Generate Content")].

Definition ADVANCED_CUSTOM_AUTH_MODE_OPTIONS : list (str * str) :=
  [(u "default", u "Default Bearer"); (u "none", u "No Auth"); (u "header", u "Header"); (u "query", u "Query")].

Definition ADVANCED_CUSTOM_INCOMING_PATH_OPTIONS : list (str * str) :=
  [(u "/v1/chat/completions", u "OpenAI Chat");
   (u "/v1/responses", u "OpenAI Responses");
   (u "/v1/responses/compact", u "OpenAI Responses Compact");
   (u "/v1/alpha/search", u "Codex Alpha Search");
   (u "/v1/embeddings", u "OpenAI Embeddings");
   (u "/v1/images/generations", u "OpenAI Image Generations");
   (u "/v1/images/edits", u "OpenAI Image Edits");
   (u "/v1/completions", u "OpenAI Completions");
   (u "/v1/audio/speech", u "OpenAI Audio Speech");
   (u "/v1/audio/transcriptions", u "OpenAI Audio Transcriptions");
   (u "/v1/audio/translations", u "OpenAI Audio Translations");
   (u "/v1/rerank", u "Rerank");
   (u "/v1/realtime", u "OpenAI Realtime");
   (u "/v1/messages", u "Claude Messages");
   (u "/v1beta/models/{model}:generateContent", u "Gemini Generate Content");
   (u "/v1beta/models/{model}:embedContent", u "Gemini Embed Content");
   (u "/v1beta/models/{model}:batchEmbedContents", u "Gemini Batch Embed Contents")].

Definition ADVANCED_CUSTOM_ROUTE_SUMMARY_LABELS : list (str * str) :=
  [(u "/v1/chat/completions", u "OpenAI Chat");
   (ADVANCED_CUSTOM_MODEL_LIST_PATH, ADVANCED_CUSTOM_MODEL_LIST_LABEL);
   (ADVANCED_CUSTOM_BALANCE_PATH, ADVANCED_CUSTOM_BALANCE_LABEL)].

Definition ADVANCED_CUSTOM_MODEL_REGEX_PREFIX : str := u "re:".
Inductive AdvancedCustomModelRuleKind : Type := Rule_exact | Rule_regex.

Definition openAIChatPath : str := u "/v1/chat/completions".
Definition openAIResponsesPath : str := u "/v1/responses".
Definition claudeMessagesPath : str := u "/v1/messages".
Definition geminiGenerateContentPath : str := u "/v1beta/models/{model}:generateContent".

Definition bearerHeaderAuth : AdvancedCustomRouteAuth :=
  {| au_type := Some (u "header"); au_name := Some (u "Authorization"); au_value := Some (u "Bearer {api_key}") |}.
Definition apiKeyHeaderAuth : AdvancedCustomRouteAuth :=
  {| au_type := Some (u "header"); au_name := Some (u "x-api-key"); au_value := Some (u "{api_key}") |}.
Definition geminiQueryAuth : AdvancedCustomRouteAuth :=
  {| au_type := Some (u "query"); au_name := Some (u "key"); au_value := Some (u "{api_key}") |}.

(** ** Templates *)

Definition native_route (auth : AdvancedCustomRouteAuth) (path : string) : AdvancedCustomRoute :=
  {| rt_incoming_path := Some (u path); rt_upstream_path := Some (u path); rt_converter := Some (u "none");
     rt_models := None; rt_auth := Some auth; rt_pass_through_body_enabled := None |}.

Definition createOpenAINativeRoutes : list AdvancedCustomRoute :=
  map (native_route bearerHeaderAuth)
    ["/v1/chat/completions"; "/v1/completions"; "/v1/responses"; "/v1/responses/compact"; "/v1/embeddings";
     "/v1/images/generations"; "/v1/images/edits"; "/v1/audio/speech"; "/v1/audio/transcriptions";
     "/v1/audio/translations"; "/v1/realtime"]%string.
Definition createClaudeNativeRoutes : list AdvancedCustomRoute := [native_route apiKeyHeaderAuth "/v1/messages"].
Definition createGeminiNativeRoutes : list AdvancedCustomRoute :=
  map (native_route geminiQueryAuth)
    ["/v1beta/models/{model}:generateContent"; "/v1beta/models/{model}:embedContent";
     "/v1beta/models/{model}:batchEmbedContents"]%string.
Definition createGatewayNativeRoutes : list AdvancedCustomRoute :=
  map (native_route bearerHeaderAuth) ["/v1/alpha/search"; "/v1/rerank"]%string.

Definition ADVANCED_CUSTOM_TEMPLATE_OPTIONS : list (str * str * list AdvancedCustomRoute) :=
  [(u "all_protocols", u "All routes",
    createOpenAINativeRoutes ++ createClaudeNativeRoutes ++ createGeminiNativeRoutes ++ createGatewayNativeRoutes);
   (u "openai_only", u "OpenAI only", createOpenAINativeRoutes);
   (u "claude_only", u "Claude only", createClaudeNativeRoutes);
   (u "gemini_only", u "Gemini only", createGeminiNativeRoutes)].

(** The clone is the value itself. *)
Definition getAdvancedCustomTemplateConfig (templateKey : str) : AdvancedCustomConfig :=
  {| advanced_routes :=
       snd <$> match List.find (fun option => str_eqb (fst (fst option)) templateKey) ADVANCED_CUSTOM_TEMPLATE_OPTIONS with
               | Some template => Some template
               | None => head ADVANCED_CUSTOM_TEMPLATE_OPTIONS
               end |}.

(** ** Normal form *)

Definition getAdvancedCustomRouteUpstreamPath (route : AdvancedCustomRoute) : str := trim (or_else (rt_upstream_path route) []).

Definition normalizeAdvancedCustomRouteModels (models : option (list str)) : list str :=
  List.filter nonempty (map trim (default [] models)).

Definition normalizeAdvancedCustomRoute (route : AdvancedCustomRoute) : AdvancedCustomRoute :=
  let models := normalizeAdvancedCustomRouteModels (rt_models route) in
  {| rt_incoming_path := Some (or_else (rt_incoming_path route) []);
     rt_upstream_path := Some (getAdvancedCustomRouteUpstreamPath route);
     rt_converter := Some (or_else (rt_converter route) (u "none"));
     rt_models := match models with [] => None | _ => Some models end;
     rt_auth := (fun a => {| au_type := au_type a; au_name := Some (or_else (au_name a) []);
                             au_value := Some (or_else (au_value a) []) |}) <$> rt_auth route;
     rt_pass_through_body_enabled := match rt_pass_through_body_enabled route with Some true => Some true | _ => None end |}.

(** The routes of the normalized configuration. *)
Definition normalized_routes (config : AdvancedCustomConfig) : list AdvancedCustomRoute :=
  map normalizeAdvancedCustomRoute (default [] (advanced_routes config)).
Definition normalizeAdvancedCustomConfig (config : AdvancedCustomConfig) : AdvancedCustomConfig :=
  {| advanced_routes := Some (normalized_routes config) |}.

Definition parseAdvancedCustomRouteModels (value : str) : list str :=
  fold_left (fun seen model => if bool_decide (model ∈ seen) then seen else seen ++ [model])
    (List.filter nonempty (map trim (split_char 44%N value []))) [].

(** ** Routes in the editor *)

Definition isAdvancedCustomManagementPath (path : str) : bool :=
  str_eqb path ADVANCED_CUSTOM_MODEL_LIST_PATH || str_eqb path ADVANCED_CUSTOM_BALANCE_PATH.
Definition incoming (route : AdvancedCustomRoute) : str := trimmed_text (rt_incoming_path route).
Definition is_management (route : AdvancedCustomRoute) : bool := isAdvancedCustomManagementPath (incoming route).

Definition getAdvancedCustomManagementRoute (config : AdvancedCustomConfig) (path : str) : option AdvancedCustomRoute :=
  List.find (fun route => bool_decide (trim <$> rt_incoming_path route = Some path)) (normalized_routes config).

(** [l.findIndex(f)] *)
Fixpoint find_index {A} (f : A -> bool) (l : list A) : option nat :=
  match l with
  | [] => None
  | x :: l => if f x then Some 0 else S <$> find_index f l
  end.

Definition management_route (path : str) (route : AdvancedCustomRoute) : AdvancedCustomRoute :=
  {| rt_incoming_path := Some path; rt_upstream_path := Some (or_else (rt_upstream_path route) []);
     rt_converter := Some (u "none"); rt_models := Some []; rt_auth := rt_auth route;
     rt_pass_through_body_enabled := None |}.

Definition replaceAdvancedCustomManagementRoute (config : AdvancedCustomConfig) (path : str)
    (route : option AdvancedCustomRoute) : AdvancedCustomConfig :=
  let routes := normalized_routes config in
  let index := find_index (fun candidate => bool_decide (trim <$> rt_incoming_path candidate = Some path)) routes in
  {| advanced_routes := Some
       match route, index with
       | None, Some i => take i routes ++ drop (S i) routes
       | None, None => routes
       | Some route, Some i => <[i := management_route path route]> routes
       | Some route, None => routes ++ [management_route path route]
       end |}.

Definition replaceAdvancedCustomForwardingRoutes (config : AdvancedCustomConfig)
    (forwardingRoutes : list AdvancedCustomRoute) : AdvancedCustomConfig :=
  let routes := normalized_routes config in
  {| advanced_routes := Some
       match find_index (fun route => negb (is_management route)) routes with
       | None => List.filter is_management routes ++ forwardingRoutes
       | Some first =>
           List.filter is_management (take first routes) ++ forwardingRoutes
             ++ List.filter is_management (drop first routes)
       end |}.

Definition createAdvancedCustomRoute : AdvancedCustomRoute :=
  {| rt_incoming_path := Some openAIChatPath; rt_upstream_path := Some openAIChatPath; rt_converter := Some (u "none");
     rt_models := None; rt_auth := None; rt_pass_through_body_enabled := None |}.
Definition createAdvancedCustomConfig : AdvancedCustomConfig := {| advanced_routes := Some [createAdvancedCustomRoute] |}.
Definition createAdvancedCustomManagementRoute (path : str) : AdvancedCustomRoute :=
  {| rt_incoming_path := Some path; rt_upstream_path := Some path; rt_converter := Some (u "none");
     rt_models := Some []; rt_auth := None; rt_pass_through_body_enabled := None |}.

(** ** Converters *)

Definition isAdvancedCustomConverter (converter : str) : bool :=
  existsb (fun option => str_eqb (fst (fst option)) converter) ADVANCED_CUSTOM_CONVERTER_OPTIONS.

Definition is_converter (names : list string) (converter : str) : bool :=
  existsb (fun name => str_eqb converter (u name)) names.

Definition isConverterPathAllowed (incomingPath converter : str) : bool :=
  if str_eqb converter (u "none") then true
  else if str_eqb incomingPath (u "/v1/alpha/search") then false
  else if str_eqb converter (u "anthropic_messages_to_openai_chat_completions") then str_eqb incomingPath (u "/v1/messages")
  else if is_converter ["openai_chat_completions_to_anthropic_messages"; "openai_chat_completions_to_openai_responses";
                        "openai_chat_completions_to_gemini_generate_content"]%string converter
  then str_eqb incomingPath (u "/v1/chat/completions")
  else if str_eqb converter (u "openai_responses_to_openai_chat_completions") then str_eqb incomingPath (u "/v1/responses")
  else if str_eqb converter (u "openai_responses_to_gemini_generate_content") then str_eqb incomingPath (u "/v1/responses")
  else includes incomingPath (u ":generateContent") || includes incomingPath (u ":streamGenerateContent").

Definition isAdvancedCustomIncomingPathAllowed (incomingPath converter : str) : bool := isConverterPathAllowed incomingPath converter.
Definition isAdvancedCustomPassThroughAllowed (converter : str) : bool := str_eqb converter (u "none").

Definition getAdvancedCustomIncomingPathOptions (converter : str) : list (str * str) :=
  List.filter (fun option => isConverterPathAllowed (fst option) converter) ADVANCED_CUSTOM_INCOMING_PATH_OPTIONS.
Definition getDefaultAdvancedCustomIncomingPath (converter : str) : str :=
  or_else (fst <$> head (getAdvancedCustomIncomingPathOptions converter)) (u "/v1/chat/completions").
Definition getAdvancedCustomConverterOptions (incomingPath : str) : list (str * str * str) :=
  List.filter (fun option => str_eqb (fst (fst option)) (u "none") || isConverterPathAllowed (trim incomingPath) (fst (fst option)))
    ADVANCED_CUSTOM_CONVERTER_OPTIONS.
Definition getAdvancedCustomIncomingPathLabel (value : str) : str :=
  or_else (snd <$> List.find (fun option => str_eqb (fst option) value) ADVANCED_CUSTOM_INCOMING_PATH_OPTIONS) value.

Definition getAdvancedCustomNativeAuth (incomingPath : str) : AdvancedCustomRouteAuth :=
  if str_eqb incomingPath claudeMessagesPath then apiKeyHeaderAuth
  else if existsb (fun part => includes incomingPath (u part))
            [":generateContent"; ":streamGenerateContent"; ":embedContent"; ":batchEmbedContents"]%string
  then geminiQueryAuth else bearerHeaderAuth.

(** The upstream path and the authentication of a converter. *)
Definition getAdvancedCustomConverterDefaults (converter incomingPath : str) : str * AdvancedCustomRouteAuth :=
  let normalizedIncomingPath := or_else (Some (trim incomingPath)) (getDefaultAdvancedCustomIncomingPath converter) in
  if str_eqb converter (u "none") then (normalizedIncomingPath, getAdvancedCustomNativeAuth normalizedIncomingPath)
  else if is_converter ["anthropic_messages_to_openai_chat_completions"; "gemini_generate_content_to_openai_chat_completions";
                        "openai_responses_to_openai_chat_completions"]%string converter
  then (openAIChatPath, bearerHeaderAuth)
  else if str_eqb converter (u "openai_chat_completions_to_openai_responses") then (openAIResponsesPath, bearerHeaderAuth)
  else if str_eqb converter (u "openai_chat_completions_to_anthropic_messages") then (claudeMessagesPath, apiKeyHeaderAuth)
  else if is_converter ["openai_chat_completions_to_gemini_generate_content";
                        "openai_responses_to_gemini_generate_content"]%string converter
  then (geminiGenerateContentPath, geminiQueryAuth)
  else (or_else (Some normalizedIncomingPath) openAIChatPath, getAdvancedCustomNativeAuth normalizedIncomingPath).

Definition getAdvancedCustomUpstreamPathPlaceholder (converter : str) (incomingPath : option str) : str :=
  fst (getAdvancedCustomConverterDefaults converter (default (getDefaultAdvancedCustomIncomingPath converter) incomingPath)).

(** ** Authentication *)

Definition getAdvancedCustomAuthMode (route : AdvancedCustomRoute) : str :=
  or_else (rt_auth route ≫= au_type) (u "default").

Definition buildAdvancedCustomAuth (mode : str) (previousAuth : option AdvancedCustomRouteAuth)
  : option AdvancedCustomRouteAuth :=
  if str_eqb mode (u "default") then None
  else if str_eqb mode (u "none") then Some {| au_type := Some (u "none"); au_name := None; au_value := None |}
  else if str_eqb mode (u "header") then
    Some {| au_type := Some (u "header"); au_name := Some (or_else (previousAuth ≫= au_name) (u "Authorization"));
            au_value := Some (or_else (previousAuth ≫= au_value) (u "Bearer {api_key}")) |}
  else
    Some {| au_type := Some (u "query"); au_name := Some (or_else (previousAuth ≫= au_name) (u "api_key"));
            au_value := Some (or_else (previousAuth ≫= au_value) (u "{api_key}")) |}.

Definition validateRouteAuth (auth : option AdvancedCustomRouteAuth) : option string :=
  match auth with
  | None => None
  | Some a =>
      let is_type (t : string) := bool_decide (au_type a = Some (u t)) in
      if is_type "none"%string then None
      else if negb (is_type "header"%string) && negb (is_type "query"%string) then Some "Auth type is invalid"%string
      else if negb (nonempty (trimmed_text (au_name a))) then Some "Auth name is required"%string
      else if negb (nonempty (trimmed_text (au_value a))) then Some "Auth value is required"%string
      else None
  end.

(** ** Validation *)

Definition getAdvancedCustomModelRuleKind (modelRule : str) : AdvancedCustomModelRuleKind :=
  if starts_with modelRule ADVANCED_CUSTOM_MODEL_REGEX_PREFIX then Rule_regex else Rule_exact.
Definition getAdvancedCustomRegexModelPattern (modelRule : str) : str :=
  drop (length ADVANCED_CUSTOM_MODEL_REGEX_PREFIX) modelRule.

(** The rules of a path seen so far: the route without rules, and the route of each rule. *)
Record PathModels : Type := { catchAllIndex : option nat; path_models : list (str * nat) }.
Definition no_path_models : PathModels := {| catchAllIndex := None; path_models := [] |}.

(** The variables of the loop over the routes. *)
Record Validation : Type := {
  routeModelsByPath : list (str * PathModels);
  modelListRouteIndex : option nat;
  balanceRouteIndex : option nat;
}.
Definition validation_start : Validation :=
  {| routeModelsByPath := []; modelListRouteIndex := None; balanceRouteIndex := None |}.

(** A step of the validation: an error ends it. *)
Abbreviation validated := (result AdvancedCustomValidationError).
Definition route_error (index : nat) (message : str) : AdvancedCustomValidationError :=
  {| ve_message := message; ve_routeIndex := Some index |}.
(** [if (c) return { routeIndex: index, message }] *)
Definition refuse (c : bool) (index : nat) (message : string) : validated unit := throw_when c (route_error index (u message)).

Definition is_empty_regex (model : str) : bool :=
  match getAdvancedCustomModelRuleKind model with
  | Rule_regex => negb (nonempty (getAdvancedCustomRegexModelPattern model))
  | Rule_exact => false
  end.

(** The loop over the rules of a route; [seen] are the rules before. *)
Fixpoint add_models (index : nat) (seen : list str) (models : list str) (rules : list (str * nat))
  : validated (list (str * nat)) :=
  match models with
  | [] => Ok rules
  | model :: models =>
      _ ← refuse (is_empty_regex model) index "Model regex cannot be empty";
      _ ← refuse (bool_decide (model ∈ seen)) index "Duplicate model in route models";
      _ ← refuse (assoc_has model rules) index "Route models must be unique for the same incoming path";
      add_models index (model :: seen) models (assoc_set model index rules)
  end.

Definition validateAdvancedCustomRouteModels (index : nat) (incomingPath : str) (models : list str)
    (byPath : list (str * PathModels)) : validated (list (str * PathModels)) :=
  let state := default no_path_models (assoc_get incomingPath byPath) in
  match models with
  | [] =>
      _ ← refuse (match catchAllIndex state with Some _ => true | None => false end) index
            "Only one catch-all route is allowed for the same incoming path";
      Ok (assoc_set incomingPath {| catchAllIndex := Some index; path_models := path_models state |} byPath)
  | _ =>
      _ ← refuse (match catchAllIndex state with Some _ => true | None => false end) index
            "Catch-all route must be last for the same incoming path";
      rules ← add_models index [] models (path_models state);
      Ok (assoc_set incomingPath {| catchAllIndex := catchAllIndex state; path_models := rules |} byPath)
  end.

Section validate.
(** [new URL(value)]: its host and protocol; [None]: it throws. *)
Variable URL : str -> option (str * str).

Definition isFullHttpURLOrAbsolutePath (value : str) : bool :=
  if starts_with value (u "/") then negb (starts_with value (u "//"))
  else match URL value with
       | Some (host, protocol) => nonempty host && (str_eqb protocol (u "http:") || str_eqb protocol (u "https:"))
       | None => false
       end.

(** The checks of a management route. *)
Definition check_management (index : nat) (route : AdvancedCustomRoute) (v : Validation) : validated Validation :=
  let isModelListRoute := str_eqb (incoming route) ADVANCED_CUSTOM_MODEL_LIST_PATH in
  let existingIndex := if isModelListRoute then modelListRouteIndex v else balanceRouteIndex v in
  let routeLabel := if isModelListRoute then u "OpenAI Models" else u "Balance Query" in
  let error (before after : string) := route_error index (u before ++ routeLabel ++ u after) in
  _ ← throw_when (match existingIndex with Some _ => true | None => false end) (error "Only one " " route is allowed")%string;
  _ ← throw_when (match normalizeAdvancedCustomRouteModels (rt_models route) with [] => false | _ => true end)
        (error EmptyString " route does not support client model rules")%string;
  _ ← throw_when (negb (str_eqb (or_else (rt_converter route) (u "none")) (u "none")))
        (error EmptyString " route must use native forwarding")%string;
  _ ← throw_when (includes (getAdvancedCustomRouteUpstreamPath route) (u "{model}"))
        (error EmptyString " upstream path must not contain {model}")%string;
  _ ← throw_when (default false (rt_pass_through_body_enabled route))
        (error EmptyString " route does not support pass-through")%string;
  Ok (if isModelListRoute
      then {| routeModelsByPath := routeModelsByPath v; modelListRouteIndex := Some index; balanceRouteIndex := balanceRouteIndex v |}
      else {| routeModelsByPath := routeModelsByPath v; modelListRouteIndex := modelListRouteIndex v; balanceRouteIndex := Some index |}).

(** The body of the loop over the routes. *)
Definition check_route (v : Validation) (entry : nat * AdvancedCustomRoute) : validated Validation :=
  let (index, route) := entry in
  let incomingPath := incoming route in
  let upstreamPath := getAdvancedCustomRouteUpstreamPath route in
  let converter := or_else (rt_converter route) (u "none") in
  let routeModels := normalizeAdvancedCustomRouteModels (rt_models route) in
  _ ← refuse (negb (nonempty incomingPath)) index "Incoming path is required";
  _ ← refuse (negb (starts_with incomingPath (u "/"))) index "Incoming path must start with /";
  _ ← refuse (includes incomingPath (u "?")) index "Incoming path must not include query";
  v ← (if isAdvancedCustomManagementPath incomingPath then check_management index route v else Ok v);
  byPath ← validateAdvancedCustomRouteModels index incomingPath routeModels (routeModelsByPath v);
  _ ← refuse (negb (nonempty upstreamPath)) index "Upstream path is required";
  _ ← refuse (negb (isFullHttpURLOrAbsolutePath upstreamPath)) index
        "Upstream path must be a full URL or a path starting with /";
  _ ← refuse (negb (isAdvancedCustomConverter converter)) index "Converter is not registered";
  _ ← refuse (negb (isConverterPathAllowed incomingPath converter)) index "Converter does not match incoming path";
  _ ← refuse (default false (rt_pass_through_body_enabled route) && negb (isAdvancedCustomPassThroughAllowed converter)) index
        "Pass-through requires native forwarding";
  _ ← match validateRouteAuth (rt_auth route) with
      | Some message => Throw (route_error index (u message))
      | None => Ok tt
      end;
  Ok {| routeModelsByPath := byPath; modelListRouteIndex := modelListRouteIndex v; balanceRouteIndex := balanceRouteIndex v |}.

(** The routes with their indices. *)
Definition indexed (routes : list AdvancedCustomRoute) : list (nat * AdvancedCustomRoute) := imap (fun i route => (i, route)) routes.

(** [None]: the configuration is valid. *)
Definition validateAdvancedCustomConfig (config : option AdvancedCustomConfig) : option AdvancedCustomValidationError :=
  match config with
  | None => Some {| ve_message := u "Advanced custom configuration is required"; ve_routeIndex := None |}
  | Some config =>
      match normalized_routes config with
      | [] => Some {| ve_message := u "Advanced custom configuration requires at least one route"; ve_routeIndex := None |}
      | routes =>
          match fold_result check_route validation_start (indexed routes) with
          | Ok _ => None
          | Throw e => Some e
          end
      end
  end.

Definition hasValidAdvancedCustomModelListRoute (config : option AdvancedCustomConfig) : bool :=
  match config, validateAdvancedCustomConfig config with
  | Some config, None =>
      existsb (fun route => bool_decide (trim <$> rt_incoming_path route = Some ADVANCED_CUSTOM_MODEL_LIST_PATH))
        (normalized_routes config)
  | _, _ => false
  end.
End validate.

Definition advancedCustomConfigUsesRelativeUpstreamPath (config : option AdvancedCustomConfig) : bool :=
  match config with
  | None => false
  | Some config => existsb (fun route => starts_with (getAdvancedCustomRouteUpstreamPath route) (u "/")) (normalized_routes config)
  end.

Definition getAdvancedCustomRouteSummaryLabel (route : AdvancedCustomRoute) : option str :=
  let incomingPath := incoming route in
  if negb (nonempty incomingPath) then None
  else Some (or_else (assoc_get incomingPath ADVANCED_CUSTOM_ROUTE_SUMMARY_LABELS) (getAdvancedCustomIncomingPathLabel incomingPath)).

(** *** Examples *)

Definition no_url : str -> option (str * str) := fun _ => None.

Example templates_are_valid :
  forallb (fun '(key, _, _) =>
    match validateAdvancedCustomConfig no_url (Some (getAdvancedCustomTemplateConfig key)) with None => true | Some _ => false end)
    ADVANCED_CUSTOM_TEMPLATE_OPTIONS = true.
Proof. vm_compute. reflexivity. Qed.

Example defaults_are_allowed :
  forallb (fun '(converter, _, _) =>
    isConverterPathAllowed (getDefaultAdvancedCustomIncomingPath converter) converter
    && isFullHttpURLOrAbsolutePath no_url (getAdvancedCustomUpstreamPathPlaceholder converter None))
    ADVANCED_CUSTOM_CONVERTER_OPTIONS = true.
Proof. vm_compute. reflexivity. Qed.
