(* ===== verification/RouteFacts.v ===== *)
(** * The routes of a custom channel are decided and edited as meant *)

From Stdlib Require Import String.
From stdpp Require Import sets.
From S2P Require Import Prelude JsString AdvancedCustom.

#[local] Open Scope nat_scope.

(** ** What a valid configuration is *)

(** The rules of a route; a route without rules takes every model. *)
Definition rules_of (route : AdvancedCustomRoute) : list str := normalizeAdvancedCustomRouteModels (rt_models route).
Definition converter_of (route : AdvancedCustomRoute) : str := or_else (rt_converter route) (u "none").
Definition passes_through (route : AdvancedCustomRoute) : bool := default false (rt_pass_through_body_enabled route).

(** A route that lists models or converts cannot answer a management request. *)
Definition management_fine (route : AdvancedCustomRoute) : Prop :=
  rules_of route = [] /\ converter_of route = u "none" /\ passes_through route = false /\
  includes (getAdvancedCustomRouteUpstreamPath route) (u "{model}") = false.

Section spec.
Variable URL : str -> option (str * str).

Record route_fine (route : AdvancedCustomRoute) : Prop := {
  fine_path : nonempty (incoming route) = true;
  fine_absolute : starts_with (incoming route) (u "/") = true;
  fine_query : includes (incoming route) (u "?") = false;
  fine_management : is_management route = true -> management_fine route;
  fine_rules : NoDup (rules_of route) /\ forall rule, rule ∈ rules_of route -> is_empty_regex rule = false;
  fine_upstream : nonempty (getAdvancedCustomRouteUpstreamPath route) = true /\
                  isFullHttpURLOrAbsolutePath URL (getAdvancedCustomRouteUpstreamPath route) = true;
  fine_converter : isAdvancedCustomConverter (converter_of route) = true /\
                   isConverterPathAllowed (incoming route) (converter_of route) = true;
  fine_pass_through : passes_through route = true -> converter_of route = u "none";
  fine_auth : validateRouteAuth (rt_auth route) = None;
}.

(** A request of the later route is not taken by the earlier one. *)
Definition route_before (earlier later : AdvancedCustomRoute) : Prop :=
  incoming earlier = incoming later ->
  rules_of earlier <> [] /\ forall rule, rule ∈ rules_of earlier -> rule ∉ rules_of later.

Definition routes_valid (routes : list AdvancedCustomRoute) : Prop :=
  Forall route_fine routes /\
  forall i j earlier later, i < j -> routes !! i = Some earlier -> routes !! j = Some later -> route_before earlier later.

Lemma routes_valid_snoc routes route : routes_valid (routes ++ [route]) <->
  routes_valid routes /\ route_fine route /\ forall earlier, earlier ∈ routes -> route_before earlier route.
Proof.
  unfold routes_valid. rewrite List.Forall_app, Forall_cons_iff. split.
  - intros [[Hf [Hr _]] Hp]. split; [split; [done|]|split; [done|]].
    + intros i j a b Hij Ha Hb. apply (Hp i j a b Hij); by apply lookup_app_l_Some.
    + intros a [i Ha]%list_elem_of_lookup. apply (Hp i (length routes) a route); [by apply lookup_lt_Some in Ha|by apply lookup_app_l_Some|].
      by rewrite lookup_app_r, Nat.sub_diag.
  - intros ([Hf Hp] & Hr & He). split; [by split; [|split; [|constructor]]|]. intros i j a b Hij Ha Hb.
    apply lookup_app_Some in Hb as [Hb|[Hj Hb]].
    + apply (Hp i j a b Hij); [|done]. apply lookup_lt_Some in Hb. rewrite lookup_app_l in Ha by lia. done.
    + apply list_lookup_singleton_Some in Hb as [Hj' <-]. apply He. rewrite lookup_app_l in Ha by lia. by apply list_elem_of_lookup_2 in Ha.
Qed.
End spec.

(** ** The loop *)

Lemma refuse_bind {A} c index message (k : validated A) :
  (_ ← refuse c index message; k) = if c then Throw (route_error index (u message)) else k.
Proof. by destruct c. Qed.

(** Rules of one route. *)
Lemma add_models_spec index models : forall seen rules,
  match add_models index seen models rules with
  | Ok rules' => (NoDup models /\ forall m, m ∈ models -> is_empty_regex m = false /\ (m ∉ seen) /\ assoc_has m rules = false) /\
      forall m, assoc_has m rules' = true <-> m ∈ models \/ assoc_has m rules = true
  | Throw e => ve_routeIndex e = Some index /\
      ~ (NoDup models /\ forall m, m ∈ models -> is_empty_regex m = false /\ (m ∉ seen) /\ assoc_has m rules = false)
  end.
Proof.
  induction models as [|m models IH]; intros seen rules; cbn [add_models].
  { split; [split; [apply NoDup_nil_2|]|]; [intros m Hm; by apply not_elem_of_nil in Hm|]. intros m. rewrite elem_of_nil. tauto. }
  rewrite !refuse_bind. destruct (is_empty_regex m) eqn:E1.
  { split; [done|]. intros [_ H]. destruct (H m ltac:(left)) as [H' _]. congruence. }
  case_bool_decide as E2.
  { split; [done|]. intros [_ H]. destruct (H m ltac:(left)) as (_ & H' & _). done. }
  destruct (assoc_has m rules) eqn:E3.
  { split; [done|]. intros [_ H]. destruct (H m ltac:(left)) as (_ & _ & H'). congruence. }
  specialize (IH (m :: seen) (assoc_set m index rules)).
  assert (forall x, assoc_has x (assoc_set m index rules) = if decide (m = x) then true else assoc_has x rules) as Hset.
  { intros x. unfold assoc_has. rewrite assoc_get_set. by case_decide. }
  destruct (add_models _ _ _ _) as [rules'|e].
  - destruct IH as [[Hnd Hm] Hk]. split; [split|].
    + apply list.NoDup_cons. split; [|done]. intros Hin. destruct (Hm m Hin) as (_ & H & _). apply H. left.
    + intros x [-> |Hx]%elem_of_cons; [done|]. destruct (Hm x Hx) as (H1 & H2 & H3). rewrite not_elem_of_cons in H2.
      rewrite Hset in H3. case_decide; [done|]. tauto.
    + intros x. rewrite Hk, Hset, elem_of_cons. case_decide; subst; intuition congruence.
  - destruct IH as [Hi IH]. split; [done|]. intros [Hnd Hm]. apply list.NoDup_cons in Hnd as [Hin Hnd]. apply IH. split; [done|].
    intros x Hx. destruct (Hm x ltac:(by right)) as (H1 & H2 & H3). rewrite Hset, decide_False by congruence.
    split; [done|]. split; [|done]. rewrite not_elem_of_cons. split; [congruence|done].
Qed.

(** What the loop has recorded of the routes before. *)
Definition path_state (byPath : list (str * PathModels)) (path : str) : PathModels := default no_path_models (assoc_get path byPath).
Definition paths_ok (routes : list AdvancedCustomRoute) (byPath : list (str * PathModels)) : Prop := forall path,
  (catchAllIndex (path_state byPath path) <> None <->
     exists route, route ∈ routes /\ incoming route = path /\ rules_of route = []) /\
  forall rule, assoc_has rule (path_models (path_state byPath path)) = true <->
     exists route, route ∈ routes /\ incoming route = path /\ rule ∈ rules_of route.
Definition used (routes : list AdvancedCustomRoute) (path : str) : Prop :=
  exists route, route ∈ routes /\ incoming route = path.
Definition state_ok (routes : list AdvancedCustomRoute) (v : Validation) : Prop :=
  paths_ok routes (routeModelsByPath v) /\
  (modelListRouteIndex v <> None <-> used routes ADVANCED_CUSTOM_MODEL_LIST_PATH) /\
  (balanceRouteIndex v <> None <-> used routes ADVANCED_CUSTOM_BALANCE_PATH).

Lemma start_ok : state_ok [] validation_start.
Proof.
  assert (forall P : AdvancedCustomRoute -> Prop, ~ exists route, route ∈ [] /\ P route) as Hno.
  { intros P (route & H & _). by apply not_elem_of_nil in H. }
  split; [|split; cbn; (split; [done|]); intros H; by apply Hno in H].
  intros path. split; cbn; [|intros rule]; (split; [done|]); intros H; by apply Hno in H.
Qed.

Lemma path_state_set byPath path state path' :
  path_state (assoc_set path state byPath) path' = if decide (path = path') then state else path_state byPath path'.
Proof. unfold path_state. rewrite assoc_get_set. by case_decide. Qed.

Definition rules_fine (route : AdvancedCustomRoute) : Prop :=
  NoDup (rules_of route) /\ forall rule, rule ∈ rules_of route -> is_empty_regex rule = false.
Definition after_all (routes : list AdvancedCustomRoute) (route : AdvancedCustomRoute) : Prop :=
  forall earlier, earlier ∈ routes -> route_before earlier route.

Lemma snoc_exists routes route (P : AdvancedCustomRoute -> Prop) :
  (exists r, r ∈ routes ++ [route] /\ P r) <-> (exists r, r ∈ routes /\ P r) \/ P route.
Proof.
  split.
  - intros (r & [H|H%list_elem_of_singleton]%elem_of_app & Hr); [left; by exists r|right; by subst].
  - intros [(r & H & Hr)|H]; [exists r|exists route]; (split; [|done]); apply elem_of_app; [by left|right; by left].
Qed.

Lemma check_models index routes route byPath : paths_ok routes byPath ->
  match validateAdvancedCustomRouteModels index (incoming route) (rules_of route) byPath with
  | Ok byPath' => rules_fine route /\ after_all routes route /\ paths_ok (routes ++ [route]) byPath'
  | Throw e => ve_routeIndex e = Some index /\ ~ (rules_fine route /\ after_all routes route)
  end.
Proof.
  intros Hok. unfold validateAdvancedCustomRouteModels. fold (path_state byPath (incoming route)).
  destruct (Hok (incoming route)) as [Hc Hr]. set (st := path_state byPath (incoming route)) in *.
  destruct (catchAllIndex st) as [i|] eqn:Ec.
  { destruct Hc as [Hc _]. destruct (Hc ltac:(done)) as (r & Hin & Hp & Hn).
    assert (~ after_all routes route) as Hno. { intros H. by destruct (H r Hin Hp) as [H' _]. }
    destruct (rules_of route); rewrite refuse_bind; (split; [done|]); tauto. }
  assert (forall r, r ∈ routes -> incoming r = incoming route -> rules_of r <> []) as Hne.
  { intros r Hin Hp Hn. destruct Hc as [_ Hc]. apply Hc; [|done]. by exists r. }
  assert (forall b (rs : list (str * nat)), (b = None <-> rules_of route <> []) ->
    (forall rule, assoc_has rule rs = true <-> rule ∈ rules_of route \/ assoc_has rule (path_models st) = true) ->
    paths_ok (routes ++ [route]) (assoc_set (incoming route) {| catchAllIndex := b; path_models := rs |} byPath)) as Hset.
  { intros b rs Hb Hrs path. rewrite path_state_set. destruct (Hok path) as [Hcp Hrp]. split.
    - rewrite (snoc_exists routes route (fun r => incoming r = path /\ rules_of r = [])). case_decide as Ep.
      + subst path. cbn [catchAllIndex]. fold st in Hcp. rewrite Ec in Hcp. destruct b, (rules_of route); naive_solver.
      + rewrite Hcp. naive_solver.
    - intros rule. rewrite (snoc_exists routes route (fun r => incoming r = path /\ rule ∈ rules_of r)). case_decide as Ep.
      + subst path. cbn [path_models]. rewrite Hrs, Hr. naive_solver.
      + rewrite Hrp. naive_solver. }
  destruct (rules_of route) as [|m models] eqn:Em; rewrite refuse_bind.
  - cbn [mbind result_bind]. split; [|split].
    + unfold rules_fine. rewrite Em. split; [apply NoDup_nil_2|]. intros rule H. by apply not_elem_of_nil in H.
    + intros r Hin Hp. split; [by apply Hne|]. rewrite Em. intros rule _. apply not_elem_of_nil.
    + apply Hset; [naive_solver|]. intros rule. rewrite elem_of_nil. tauto.
  - rewrite <- Em in *. pose proof (add_models_spec index (rules_of route) [] (path_models st)) as Hs.
    assert ((forall x, x ∈ rules_of route -> is_empty_regex x = false /\ (x ∉ []) /\ assoc_has x (path_models st) = false) <->
      (forall x, x ∈ rules_of route -> is_empty_regex x = false) /\ after_all routes route) as Hiff.
    { split.
      - intros H. split; [intros x Hx; by apply H|]. intros r Hin Hp. split; [by apply Hne|]. intros x Hx1 Hx2.
        destruct (H x Hx2) as (_ & _ & H'). assert (assoc_has x (path_models st) = true); [|congruence]. apply Hr. by exists r.
      - intros [H1 H2] x Hx. split; [by apply H1|]. split; [apply not_elem_of_nil|]. destruct (assoc_has x (path_models st)) eqn:E; [|done].
        apply Hr in E as (r & Hin & Hp & Hx'). by destruct (H2 r Hin Hp) as [_ H3]; destruct (H3 x Hx'). }
    destruct (add_models _ _ _ _) as [rs|e]; cbn [mbind result_bind].
    + destruct Hs as [[Hnd Hm] Hk]. apply Hiff in Hm as [Hm Hafter]. split; [done|]. split; [done|]. apply Hset; [|done].
      rewrite Em. naive_solver.
    + destruct Hs as [Hi Hs]. split; [done|]. intros [[Hnd Hm] Hafter]. apply Hs. split; [done|]. by apply Hiff.
Qed.

Lemma throw_bind {A} c (e : AdvancedCustomValidationError) (k : validated A) :
  (_ ← throw_when c e; k) = if c then Throw e else k.
Proof. by destruct c. Qed.

Lemma management_cases route : is_management route = true ->
  incoming route = ADVANCED_CUSTOM_MODEL_LIST_PATH \/
  incoming route = ADVANCED_CUSTOM_BALANCE_PATH /\ str_eqb (incoming route) ADVANCED_CUSTOM_MODEL_LIST_PATH = false.
Proof.
  unfold is_management, isAdvancedCustomManagementPath. intros [H|H]%orb_true_iff; apply str_eqb_eq in H; [by left|right].
  split; [done|]. rewrite H. by vm_compute.
Qed.

Lemma used_snoc routes route path : used (routes ++ [route]) path <-> used routes path \/ incoming route = path.
Proof. apply (snoc_exists routes route (fun r => incoming r = path)). Qed.

(** The recorded indices after a route. *)
Lemma check_management_spec index routes route v : state_ok routes v -> is_management route = true ->
  match check_management index route v with
  | Ok v' => management_fine route /\ ~ used routes (incoming route) /\ routeModelsByPath v' = routeModelsByPath v /\
      (modelListRouteIndex v' <> None <-> used (routes ++ [route]) ADVANCED_CUSTOM_MODEL_LIST_PATH) /\
      (balanceRouteIndex v' <> None <-> used (routes ++ [route]) ADVANCED_CUSTOM_BALANCE_PATH)
  | Throw e => ve_routeIndex e = Some index /\ ~ (management_fine route /\ ~ used routes (incoming route))
  end.
Proof.
  intros (_ & Hm & Hb) Hman. unfold check_management, management_fine. fold (rules_of route) (converter_of route) (passes_through route).
  set (existing := if str_eqb (incoming route) _ then modelListRouteIndex v else balanceRouteIndex v).
  assert (existing <> None <-> used routes (incoming route)) as He.
  { unfold existing. destruct (management_cases route Hman) as [-> |[E ->]]; [exact Hm|by rewrite E]. }
  rewrite !throw_bind. destruct existing as [i|]; [split; [done|]; naive_solver|].
  destruct (rules_of route) as [|m ms]; [|split; [done|]; by intros [(H & _) _]].
  destruct (str_eqb (converter_of route) (u "none")) eqn:Ec; cbn [negb];
    [apply str_eqb_eq in Ec|split; [done|]; intros [(_ & H & _) _]; rewrite H in Ec; by vm_compute in Ec].
  destruct (includes _ _) eqn:Ei; [split; [done|]; by intros [(_ & _ & _ & H) _]|].
  destruct (passes_through route) eqn:Ep; [split; [done|]; by intros [(_ & _ & H & _) _]|].
  split; [done|]. split; [naive_solver|]. rewrite !used_snoc.
  assert (ADVANCED_CUSTOM_MODEL_LIST_PATH <> ADVANCED_CUSTOM_BALANCE_PATH) as Hne by by vm_compute.
  destruct (management_cases route Hman) as [E|[E E']].
  - rewrite (proj2 (str_eqb_eq _ _) E). cbn [routeModelsByPath modelListRouteIndex balanceRouteIndex]. split; [done|]. split.
    + split; [intros _; by right|done].
    + rewrite Hb. split; [by left|]. intros [H|H]; [done|congruence].
  - rewrite E'. cbn [routeModelsByPath modelListRouteIndex balanceRouteIndex]. split; [done|]. split.
    + rewrite Hm. split; [by left|]. intros [H|H]; [done|congruence].
    + split; [intros _; by right|done].
Qed.

Section loop.
Variable URL : str -> option (str * str).

(** The checks behind those of the path and the rules. *)
Definition tail_fine (route : AdvancedCustomRoute) : Prop :=
  (nonempty (getAdvancedCustomRouteUpstreamPath route) = true /\
   isFullHttpURLOrAbsolutePath URL (getAdvancedCustomRouteUpstreamPath route) = true) /\
  (isAdvancedCustomConverter (converter_of route) = true /\
   isConverterPathAllowed (incoming route) (converter_of route) = true) /\
  (passes_through route = true -> converter_of route = u "none") /\
  validateRouteAuth (rt_auth route) = None.

Lemma check_tail {A} index route (k : A) :
  match (_ ← refuse (negb (nonempty (getAdvancedCustomRouteUpstreamPath route))) index "Upstream path is required";
         _ ← refuse (negb (isFullHttpURLOrAbsolutePath URL (getAdvancedCustomRouteUpstreamPath route))) index
               "Upstream path must be a full URL or a path starting with /";
         _ ← refuse (negb (isAdvancedCustomConverter (converter_of route))) index "Converter is not registered";
         _ ← refuse (negb (isConverterPathAllowed (incoming route) (converter_of route))) index "Converter does not match incoming path";
         _ ← refuse (passes_through route && negb (isAdvancedCustomPassThroughAllowed (converter_of route))) index
               "Pass-through requires native forwarding";
         _ ← match validateRouteAuth (rt_auth route) with Some m => Throw (route_error index (u m)) | None => Ok tt end;
         Ok k) with
  | Ok x => x = k /\ tail_fine route
  | Throw e => ve_routeIndex e = Some index /\ ~ tail_fine route
  end.
Proof.
  rewrite !refuse_bind. unfold tail_fine, isAdvancedCustomPassThroughAllowed.
  destruct (nonempty _); cbn [negb]; [|split; [done|]; naive_solver].
  destruct (isFullHttpURLOrAbsolutePath _ _); cbn [negb]; [|split; [done|]; naive_solver].
  destruct (isAdvancedCustomConverter _); cbn [negb]; [|split; [done|]; naive_solver].
  destruct (isConverterPathAllowed _ _); cbn [negb]; [|split; [done|]; naive_solver].
  destruct (passes_through route && negb _) eqn:Ep.
  { apply andb_true_iff in Ep as [E1 E2%negb_true_iff]. split; [done|]. intros (_ & _ & H & _). rewrite (H E1) in E2. by vm_compute in E2. }
  assert (passes_through route = true -> converter_of route = u "none") as Hp.
  { intros H. rewrite H in Ep. cbn [andb] in Ep. apply negb_false_iff in Ep. by apply str_eqb_eq. }
  destruct (validateRouteAuth (rt_auth route)); cbn [mbind result_bind]; [split; [done|]; naive_solver|]. done.
Qed.

Lemma fine_split route : route_fine URL route <->
  nonempty (incoming route) = true /\ starts_with (incoming route) (u "/") = true /\ includes (incoming route) (u "?") = false /\
  (is_management route = true -> management_fine route) /\ rules_fine route /\ tail_fine route.
Proof. unfold rules_fine, tail_fine. split; [intros []; tauto|]. intros. constructor; tauto. Qed.

Lemma check_route_spec index routes route v : state_ok routes v -> Forall (route_fine URL) routes ->
  match check_route URL v (index, route) with
  | Ok v' => state_ok (routes ++ [route]) v' /\ route_fine URL route /\ after_all routes route
  | Throw e => ve_routeIndex e = Some index /\ ~ (route_fine URL route /\ after_all routes route)
  end.
Proof.
  intros Hst Hfine. unfold check_route. fold (converter_of route) (passes_through route) (rules_of route) (is_management route).
  rewrite (refuse_bind (negb (nonempty _))), (refuse_bind (negb (starts_with _ _))), (refuse_bind (includes _ (u "?"))).
  pose proof (fine_split route) as Hsplit.
  destruct (nonempty (incoming route)) eqn:E1; cbn [negb]; [|split; [done|]; rewrite Hsplit; intros [(? & ? & ? & _) _]; congruence].
  destruct (starts_with (incoming route) (u "/")) eqn:E2; cbn [negb]; [|split; [done|]; rewrite Hsplit; intros [(? & ? & ? & _) _]; congruence].
  destruct (includes (incoming route) (u "?")) eqn:E3; [split; [done|]; rewrite Hsplit; intros [(? & ? & ? & _) _]; congruence|].
  set (m := if is_management route then check_management index route v else Ok v).
  assert (match m with
    | Ok v' => (is_management route = true -> management_fine route) /\ routeModelsByPath v' = routeModelsByPath v /\
        (modelListRouteIndex v' <> None <-> used (routes ++ [route]) ADVANCED_CUSTOM_MODEL_LIST_PATH) /\
        (balanceRouteIndex v' <> None <-> used (routes ++ [route]) ADVANCED_CUSTOM_BALANCE_PATH)
    | Throw e => ve_routeIndex e = Some index /\ ~ ((is_management route = true -> management_fine route) /\ after_all routes route)
    end) as Hm.
  { unfold m. destruct (is_management route) eqn:Em.
    - pose proof (check_management_spec index routes route v Hst Em) as H. destruct (check_management _ _ _) as [v'|e]; [tauto|].
      destruct H as [Hi H]. split; [done|]. intros [Hf Hafter]. apply H. split; [by apply Hf|]. intros (r & Hin & Hp).
      rewrite List.Forall_forall in Hfine. pose proof (Hfine r (proj1 (list_elem_of_In _ _) Hin)) as Hr.
      destruct (fine_management _ _ Hr) as [Hrules _]; [unfold is_management; by rewrite Hp|]. by destruct (Hafter r Hin Hp).
    - destruct Hst as (_ & H1 & H2). split; [done|]. split; [done|]. rewrite !used_snoc, H1, H2.
      unfold is_management, isAdvancedCustomManagementPath in Em. apply orb_false_iff in Em as [Em1 Em2].
      assert (incoming route <> ADVANCED_CUSTOM_MODEL_LIST_PATH) by (intros E; apply str_eqb_eq in E; congruence).
      assert (incoming route <> ADVANCED_CUSTOM_BALANCE_PATH) by (intros E; apply str_eqb_eq in E; congruence). tauto. }
  destruct m as [v1|e]; cbn [mbind result_bind]; [|destruct Hm; split; [done|]; tauto]. destruct Hm as (Hmf & Hby & Hml & Hbal).
  rewrite Hby. pose proof (check_models index routes route _ (proj1 Hst)) as Hmod.
  destruct (validateAdvancedCustomRouteModels _ _ _ _) as [byPath|e]; cbn [mbind result_bind]; [|destruct Hmod; split; [done|]; tauto].
  destruct Hmod as (Hrf & Hafter & Hpaths). set (k := Build_Validation _ _ _). pose proof (check_tail index route k) as Ht.
  destruct (refuse _ _ _ ≫= _) as [x|e]; [|destruct Ht; split; [done|]; tauto]. destruct Ht as [-> Ht]. split; [done|]. tauto.
Qed.

Lemma check_routes rest : forall routes v, state_ok routes v -> routes_valid URL routes ->
  match fold_result (check_route URL) v (imap (fun i route => (length routes + i, route)) rest) with
  | Ok _ => routes_valid URL (routes ++ rest)
  | Throw e => exists i, ve_routeIndex e = Some (length routes + i) /\ i < length rest /\
      routes_valid URL (routes ++ take i rest) /\ ~ routes_valid URL (routes ++ take (S i) rest)
  end.
Proof.
  induction rest as [|route rest IH]; intros routes v Hst Hv; [cbn; by rewrite app_nil_r|].
  cbn [imap fold_result]. rewrite Nat.add_0_r. pose proof (check_route_spec (length routes) routes route v Hst (proj1 Hv)) as Hs.
  destruct (check_route URL v (length routes, route)) as [v'|e]; cbn [mbind result_bind].
  - destruct Hs as (Hst' & Hf & Ha). assert (routes_valid URL (routes ++ [route])) as Hv' by (by apply routes_valid_snoc).
    specialize (IH (routes ++ [route]) v' Hst' Hv'). rewrite length_app in IH. cbn [length] in IH.
    assert (forall l, (routes ++ [route]) ++ l = routes ++ route :: l) as Happ by (intros; by rewrite <- app_assoc).
    replace (imap _ rest) with (imap (fun (i : nat) (r : AdvancedCustomRoute) => (length routes + 1 + i, r)) rest)
      by (apply imap_ext; intros; cbn; f_equal; lia).
    destruct (fold_result _ _ _) as [v''|e].
    + by rewrite Happ in IH.
    + destruct IH as (i & Hi & Hl & H1 & H2). exists (S i). rewrite !Happ in H1, H2. cbn [length take] in *.
      split; [by rewrite Hi; f_equal; lia|]. split; [lia|]. done.
  - destruct Hs as [Hi Hs]. exists 0. rewrite Nat.add_0_r. split; [done|]. cbn [length take]. split; [lia|].
    rewrite app_nil_r. split; [done|]. rewrite routes_valid_snoc. intros (_ & Hf & Ha). by apply Hs.
Qed.
End loop.

(** C18: validation decides what a configuration may be: it accepts exactly the non-empty
    lists of routes in which every route is well formed, no rule of a path is listed
    twice, and a route without rules is the last of its path; otherwise it names the
    first route that makes the list invalid. *)
Theorem route_validation_decides URL config :
  let routes := normalized_routes config in
  match validateAdvancedCustomConfig URL (Some config) with
  | None => routes <> [] /\ routes_valid URL routes
  | Some e =>
      match ve_routeIndex e with
      | None => routes = []
      | Some i => i < length routes /\ routes_valid URL (take i routes) /\ ~ routes_valid URL (take (S i) routes)
      end
  end.
Proof.
  unfold validateAdvancedCustomConfig. destruct (normalized_routes config) as [|r rs] eqn:E; [done|].
  assert (routes_valid URL []) as H0 by (split; [by apply List.Forall_nil|]; intros i j a b _ H; by rewrite lookup_nil in H).
  pose proof (check_routes URL (r :: rs) [] validation_start start_ok H0) as H. cbn [length app] in H.
  change (imap _ (r :: rs)) with (indexed (r :: rs)) in H. destruct (fold_result _ _ _) as [v|e]; [done|].
  destruct H as (i & -> & Hl & H1 & H2). done.
Qed.

(** ** Edits *)

Lemma find_index_spec {A} (f : A -> bool) l :
  match find_index f l with
  | Some i => exists before x after, l = before ++ x :: after /\ length before = i /\ f x = true /\ forallb (fun y => negb (f y)) before = true
  | None => forallb (fun y => negb (f y)) l = true
  end.
Proof.
  induction l as [|y l IH]; [done|]. cbn [find_index forallb]. destruct (f y) eqn:E; [by exists [], y, l|].
  destruct (find_index f l) as [i|]; [|exact IH]. destruct IH as (before & x & after & -> & <- & Hx & Hb).
  exists (y :: before), x, after. cbn [app length forallb]. by rewrite E, Hb.
Qed.

Lemma filter_holds {A} (f : A -> bool) l : forallb f l = true -> List.filter f l = l.
Proof. induction l as [|x l IH]; [done|]. cbn. destruct (f x); [|done]. intros H. by rewrite IH. Qed.
Lemma filter_none {A} (f : A -> bool) l : forallb (fun x => negb (f x)) l = true -> List.filter f l = [].
Proof. induction l as [|x l IH]; [done|]. cbn. destruct (f x); [done|]. apply IH. Qed.
Lemma filter_filter_same {A} (f : A -> bool) l : List.filter f (List.filter f l) = List.filter f l.
Proof. apply filter_holds, forallb_forall. by intros x [_ H]%filter_In. Qed.
Lemma filter_filter_neg {A} (f : A -> bool) l : List.filter (fun x => negb (f x)) (List.filter f l) = [].
Proof. apply filter_none, forallb_forall. intros x [_ H]%filter_In. by rewrite H. Qed.
Lemma find_first {A} (f : A -> bool) before x after : forallb (fun y => negb (f y)) before = true -> f x = true ->
  List.find f (before ++ x :: after) = Some x.
Proof. induction before as [|y before IH]; cbn; [by intros _ ->|]. destruct (f y); [done|]. apply IH. Qed.

Definition routes_of (config : AdvancedCustomConfig) : list AdvancedCustomRoute := default [] (advanced_routes config).
Definition has_path (path : str) (route : AdvancedCustomRoute) : bool := bool_decide (trim <$> rt_incoming_path route = Some path).
Definition other_path (path : str) (route : AdvancedCustomRoute) : bool := negb (has_path path route).

Lemma normalize_path path route : has_path path (normalizeAdvancedCustomRoute route) =
  bool_decide (trim (or_else (rt_incoming_path route) []) = path).
Proof. unfold has_path. cbn. apply bool_decide_ext. split; [by intros [= ->]|by intros ->]. Qed.
Lemma normalize_keeps_path path route : is_Some (rt_incoming_path route) ->
  has_path path (normalizeAdvancedCustomRoute route) = has_path path route.
Proof.
  intros [p Hp]. rewrite normalize_path. unfold has_path. rewrite Hp. cbn [or_else]. apply bool_decide_ext.
  destruct p; cbn [fmap option_fmap option_map]; (split; [by intros ->|by intros [= ->]]).
Qed.

Lemma normalized_has_path config : Forall (fun route => is_Some (rt_incoming_path route)) (normalized_routes config).
Proof. apply List.Forall_forall. intros r (r0 & <- & _)%in_map_iff. by eexists. Qed.

(** The forwarding routes. *)
Lemma forwarding_edit config forwarding : forallb (fun route => negb (is_management route)) forwarding = true ->
  let next := routes_of (replaceAdvancedCustomForwardingRoutes config forwarding) in
  List.filter is_management next = List.filter is_management (normalized_routes config) /\
  List.filter (fun route => negb (is_management route)) next = forwarding.
Proof.
  intros Hf next. unfold next, replaceAdvancedCustomForwardingRoutes, routes_of. cbn [advanced_routes from_option id].
  set (routes := normalized_routes config). destruct (find_index _ routes) as [first|].
  - rewrite !List.filter_app, !filter_filter_same, !filter_filter_neg, (filter_none _ _ Hf), (filter_holds _ _ Hf), app_nil_r.
    cbn [app]. split; [|done]. by rewrite <- List.filter_app, take_drop.
  - by rewrite !List.filter_app, filter_filter_same, filter_filter_neg, (filter_none _ _ Hf), (filter_holds _ _ Hf), app_nil_r.
Qed.

(** A management route. *)
Lemma management_edit config path route : trim path = path ->
  let next := replaceAdvancedCustomManagementRoute config path (Some route) in
  getAdvancedCustomManagementRoute next path = Some (normalizeAdvancedCustomRoute (management_route path route)) /\
  List.filter (other_path path) (routes_of next) = List.filter (other_path path) (normalized_routes config).
Proof.
  intros Hp next. unfold next, replaceAdvancedCustomManagementRoute, routes_of. cbn [advanced_routes from_option id].
  set (routes := normalized_routes config). set (m := management_route path route).
  change (fun candidate => bool_decide (trim <$> rt_incoming_path candidate = Some path)) with (has_path path).
  assert (has_path path m = true) as Hm by (unfold has_path; cbn; rewrite Hp; by apply bool_decide_eq_true).
  assert (other_path path m = false) as Hom by (unfold other_path; by rewrite Hm).
  assert (has_path path (normalizeAdvancedCustomRoute m) = true) as Hm' by by rewrite normalize_keeps_path.
  pose proof (find_index_spec (has_path path) routes) as Hs. pose proof (normalized_has_path config) as Hsome. fold routes in Hsome.
  assert (forall l, Forall (fun r => is_Some (rt_incoming_path r)) l -> forallb (fun r => negb (has_path path r)) l = true ->
    forallb (fun r => negb (has_path path r)) (map normalizeAdvancedCustomRoute l) = true) as Hnorm.
  { intros l Hl. induction Hl as [|r l Hr _ IH]; [done|]. cbn [map forallb]. rewrite normalize_keeps_path by done.
    intros [-> H]%andb_true_iff. by apply IH. }
  unfold getAdvancedCustomManagementRoute, normalized_routes. cbn [advanced_routes].
  change (fun route => bool_decide (trim <$> rt_incoming_path route = Some path)) with (has_path path).
  destruct (find_index (has_path path) routes) as [i|]; cbn [from_option id].
  - destruct Hs as (before & x & after & E & <- & Hx & Hb). rewrite E in *. rewrite insert_app_r_alt by lia.
    rewrite ?Nat.sub_diag. cbn [insert list_insert]. apply List.Forall_app in Hsome as [Hsb _]. split.
    + rewrite map_app. cbn [map]. apply find_first; [by apply Hnorm|done].
    + rewrite !List.filter_app. cbn [List.filter].
      assert (other_path path x = false) as -> by (unfold other_path; by rewrite Hx). by rewrite Hom.
  - split; [rewrite map_app; apply find_first; [by apply Hnorm|done]|].
    rewrite List.filter_app. cbn [List.filter]. by rewrite Hom, app_nil_r.
Qed.

Lemma management_removal config path :
  let next := replaceAdvancedCustomManagementRoute config path None in
  List.filter (other_path path) (routes_of next) = List.filter (other_path path) (normalized_routes config) /\
  length (List.filter (has_path path) (routes_of next)) = length (List.filter (has_path path) (normalized_routes config)) - 1.
Proof.
  intros next. unfold next, replaceAdvancedCustomManagementRoute, routes_of. cbn [advanced_routes from_option id].
  set (routes := normalized_routes config).
  change (fun candidate => bool_decide (trim <$> rt_incoming_path candidate = Some path)) with (has_path path).
  pose proof (find_index_spec (has_path path) routes) as Hs. destruct (find_index (has_path path) routes) as [i|].
  - destruct Hs as (before & x & after & -> & <- & Hx & Hb). assert (other_path path x = false) as Hox by (unfold other_path; by rewrite Hx).
    rewrite take_app_length. replace (drop (S (length before)) (before ++ x :: after)) with after
      by (rewrite (cons_middle x before after), (assoc_L (++)), drop_app_length'; [done|rewrite length_app; cbn; lia]).
    rewrite !List.filter_app. cbn [List.filter]. rewrite Hox, Hx, (filter_none _ _ Hb). split; [done|]. cbn. lia.
  - rewrite (filter_none _ _ Hs). done.
Qed.

(** an edit of the routes changes what it is meant to: replacing the forwarding routes
    keeps the management routes in their order and leaves the given ones; a management
    route that is set is found again, one that is removed is gone, and the routes of
    other paths stay. *)
Theorem route_edits_are_local config :
  (forall forwarding, forallb (fun route => negb (is_management route)) forwarding = true ->
     let next := routes_of (replaceAdvancedCustomForwardingRoutes config forwarding) in
     List.filter is_management next = List.filter is_management (normalized_routes config) /\
     List.filter (fun route => negb (is_management route)) next = forwarding) /\
  (forall path route, trim path = path ->
     let next := replaceAdvancedCustomManagementRoute config path (Some route) in
     getAdvancedCustomManagementRoute next path = Some (normalizeAdvancedCustomRoute (management_route path route)) /\
     List.filter (other_path path) (routes_of next) = List.filter (other_path path) (normalized_routes config)) /\
  forall path,
    let next := replaceAdvancedCustomManagementRoute config path None in
    List.filter (other_path path) (routes_of next) = List.filter (other_path path) (normalized_routes config) /\
    length (List.filter (has_path path) (routes_of next)) = length (List.filter (has_path path) (normalized_routes config)) - 1.
Proof.
  split; [apply forwarding_edit|]. split; [intros path route; apply management_edit|apply management_removal].
Qed.

(** A configuration with both kinds of routes. *)
Definition sample_config : AdvancedCustomConfig :=
  {| advanced_routes := Some (createAdvancedCustomManagementRoute ADVANCED_CUSTOM_MODEL_LIST_PATH :: createOpenAINativeRoutes) |}.

Lemma route_edits_are_local_witness :
  validateAdvancedCustomConfig no_url (Some sample_config) = None /\
  List.filter (fun route => negb (is_management route))
    (routes_of (replaceAdvancedCustomForwardingRoutes sample_config createClaudeNativeRoutes)) = createClaudeNativeRoutes.
Proof.
  assert (forallb (fun route => negb (is_management route)) createClaudeNativeRoutes = true) as H by (vm_compute; reflexivity).
  split; [vm_compute; reflexivity|]. exact (proj2 (proj1 (route_edits_are_local sample_config) createClaudeNativeRoutes H)).
Defined.
