(* ===== verification/ModelMapping.v ===== *)
(** * Models and model mappings of a channel

    [features/channels/lib/model-mapping-validation.ts], [model-mapping-rules.ts] and
    [model-naming-patterns.ts]: the list of models of a channel as a text, the mapping from
    request names to upstream names as a JSON text, the pairs a naming rule derives, their
    merge into the mapping, and the naming patterns found in an upstream list. *)

From Stdlib Require Import String.
From S2P Require Import Prelude JsNumber JsArray JsString JsText Ast Request Json JsonText TaskExpr PricingModel.

#[local] Open Scope nat_scope.

(** ** [model-mapping-validation.ts] *)

Definition comma : N := 44.
Definition trimmed_names (names : list str) : list str := List.filter nonempty (map trim names).

Definition parseModelsString (modelsStr : str) : list str :=
  if nonempty modelsStr then trimmed_names (split_char comma modelsStr []) else [].
Definition formatModelsArray (models : list str) : str := join [comma] (set_of (trimmed_names models)).
Definition normalizeModelName (model : str) : str := trim model.

(** A key that is an array index: the decimal text of a number below [2^32 - 1]. *)
Definition is_index (key : str) : bool :=
  match key with
  | [] => false
  | c :: rest => forallb is_digit key && (negb (N.eqb c 48) || negb (nonempty rest)) && (digits_value key <? 4294967295)%Z
  end.
Definition index_order {V} (a b : str * V) : comparison := (digits_value a.1 ?= digits_value b.1)%Z.

(** [Object.entries(object)]: the indices in ascending order, then the other keys in the
    order they were added. *)
Definition index_entries {V} (object : list (str * V)) : list (str * V) :=
  sort_by index_order (List.filter (fun e => is_index e.1) object).
Definition text_entries {V} (object : list (str * V)) : list (str * V) :=
  List.filter (fun e => negb (is_index e.1)) object.
Definition own_entries {V} (object : list (str * V)) : list (str * V) := index_entries object ++ text_entries object.

(** [object[key] = value] for a text: an assignment to [__proto__] adds no key. *)
Definition proto_key : str := u "__proto__".
Definition put_entry (object : list (str * str)) (e : str * str) : list (str * str) :=
  if str_eqb e.1 proto_key then object else assoc_set e.1 e.2 object.

(** [JSON.parse(text)] when it is an object, neither [null] nor an array. *)
Definition parse_object (text : str) : option (list (str * value)) :=
  match json_parse text with Some (VObject fields) => Some fields | _ => None end.

Definition extractMappingSourceModels (modelMapping : str) : list str :=
  let trimmed := trim modelMapping in
  if negb (nonempty trimmed) then []
  else match parse_object trimmed with
       | Some parsed => set_of (trimmed_names (map fst (own_entries parsed)))
       | None => []
       end.

(** [typeof value === 'string' ? value.trim() : undefined], without the empty ones *)
Definition redirect_name (v : value) : option str :=
  match v with VString s => if nonempty (trim s) then Some (trim s) else None | _ => None end.
Definition extractRedirectModels (modelMapping : str) : list str :=
  let trimmed := trim modelMapping in
  if negb (nonempty trimmed) then []
  else match parse_object trimmed with
       | Some parsed => set_of (omap redirect_name (map snd (own_entries parsed)))
       | None => []
       end.

Definition hasModelConfigChanged (currentModels : list str) (currentModelMapping : str) (initialModels : list str)
    (initialModelMapping : str) : bool :=
  if (length initialModels =? 0) && negb (nonempty initialModelMapping) then true
  else if negb (length currentModels =? length initialModels) then true
  else if existsb (fun e : str * str => negb (str_eqb e.1 e.2)) (combine currentModels initialModels) then true
  else negb (str_eqb (trim currentModelMapping) (trim initialModelMapping)).

Definition findMissingModelsInMapping (modelMapping : str) (currentModels : list str) : list str :=
  if negb (nonempty modelMapping) || negb (nonempty (trim modelMapping)) then []
  else match parse_object modelMapping with
       | None => []
       | Some parsedMapping =>
           let modelSet := set_of (map normalizeModelName currentModels) in
           set_of (List.filter (fun key => nonempty key && negb (bool_decide (key ∈ modelSet)))
             (map normalizeModelName (map fst (own_entries parsedMapping))))
       end.

(** The error, [None] when the mapping is valid. *)
Definition validateModelMappingJson (modelMapping : str) : option str :=
  if negb (nonempty modelMapping) || negb (nonempty (trim modelMapping)) then None
  else match json_parse modelMapping with
       | None => Some (u "Model mapping must be valid JSON format")
       | Some (VObject parsed) =>
           if existsb (fun f => match snd f with VString _ => false | _ => true end) parsed
           then Some (u "Model mapping values must be strings") else None
       | Some _ => Some (u "Model mapping must be a valid JSON object")
       end.

Definition findExposedTargetModels (modelMapping : str) (currentModels : list str) : list str :=
  match extractRedirectModels modelMapping with
  | [] => []
  | redirectModels =>
      let modelSet := set_of (map normalizeModelName currentModels) in
      List.filter (fun model => bool_decide (normalizeModelName model ∈ modelSet)) redirectModels
  end.

Record ModelCategories : Type := {
  normalizedCurrentModels : list str;
  normalizedRedirectModels : list str;
  classificationSet : list str;
  redirectOnlySet : list str;
}.
Definition categorizeModelsWithRedirect (currentModels redirectModels : list str) : ModelCategories :=
  let current := set_of (List.filter nonempty (map normalizeModelName currentModels)) in
  let redirect := set_of (List.filter nonempty (map normalizeModelName redirectModels)) in
  {| normalizedCurrentModels := current; normalizedRedirectModels := redirect;
     classificationSet := set_of (current ++ redirect);
     redirectOnlySet := set_of (List.filter (fun m => negb (bool_decide (m ∈ current))) redirect) |}.

(** ** [model-mapping-rules.ts] *)

Record ModelMappingPair : Type := { mp_from : str; mp_to : str }.
Inductive ModelMappingDirection : Type := D_upstream | D_request.
Inductive ModelMappingRule : Type :=
| R_strip_prefix (values : str)
| R_strip_suffix (values : str)
| R_add_prefix (value : str)
| R_add_suffix (value : str)
| R_replace (find replaceWith : str).
Record ModelMappingDerivation : Type := {
  md_pairs : list ModelMappingPair;
  md_unchanged : list str;
  md_conflicts : list str;
}.

Definition rule_affixes (rule : ModelMappingRule) : list str :=
  match rule with
  | R_strip_prefix values | R_strip_suffix values => trimmed_names (split_char comma values [])
  | _ => []
  end.

(** [derived] of a model, before it is trimmed. *)
Definition derive_name (rule : ModelMappingRule) (affixes : list str) (model : str) : str :=
  match rule with
  | R_strip_prefix _ =>
      match List.find (starts_with model) affixes with Some prefix => drop (length prefix) model | None => model end
  | R_strip_suffix _ =>
      match List.find (ends_with model) affixes with
      | Some suffix => take (length model - length suffix) model
      | None => model
      end
  | R_add_prefix value => value ++ model
  | R_add_suffix value => model ++ value
  | R_replace find replaceWith => if nonempty find then replace_all model find replaceWith model 0 else model
  end.

Definition make_pair (direction : ModelMappingDirection) (model derived : str) : ModelMappingPair :=
  match direction with
  | D_upstream => {| mp_from := derived; mp_to := model |}
  | D_request => {| mp_from := model; mp_to := derived |}
  end.

(** What the loop keeps: [seen], [requestNames] and [result]. *)
Record DeriveState : Type := { ds_seen : list str; ds_requestNames : list str; ds_result : ModelMappingDerivation }.

Definition derive_step (direction : ModelMappingDirection) (rule : ModelMappingRule) (affixes : list str)
    (state : DeriveState) (raw : str) : DeriveState :=
  let model := trim raw in
  let result := ds_result state in
  if negb (nonempty model) || bool_decide (model ∈ ds_seen state) then state
  else
    let seen := set_add model (ds_seen state) in
    let derived := trim (derive_name rule affixes model) in
    if negb (nonempty derived) || str_eqb derived model then
      {| ds_seen := seen; ds_requestNames := ds_requestNames state;
         ds_result := {| md_pairs := md_pairs result; md_unchanged := md_unchanged result ++ [model];
                         md_conflicts := md_conflicts result |} |}
    else
      let pair := make_pair direction model derived in
      if bool_decide (mp_from pair ∈ ds_requestNames state) then
        {| ds_seen := seen; ds_requestNames := ds_requestNames state;
           ds_result := {| md_pairs := md_pairs result; md_unchanged := md_unchanged result;
                           md_conflicts := md_conflicts result ++ [model] |} |}
      else
        {| ds_seen := seen; ds_requestNames := set_add (mp_from pair) (ds_requestNames state);
           ds_result := {| md_pairs := md_pairs result ++ [pair]; md_unchanged := md_unchanged result;
                           md_conflicts := md_conflicts result |} |}.

Definition deriveModelMappingPairs (models : list str) (direction : ModelMappingDirection) (rule : ModelMappingRule)
  : ModelMappingDerivation :=
  ds_result (fold_left (derive_step direction rule (rule_affixes rule)) models
    {| ds_seen := []; ds_requestNames := [];
       ds_result := {| md_pairs := []; md_unchanged := []; md_conflicts := [] |} |}).

(** The mapping of an object whose values are all texts. *)
Definition text_field (f : str * value) : option (str * str) :=
  match snd f with VString s => Some (fst f, s) | _ => None end.
Definition read_mapping (trimmed : str) : option (list (str * str)) :=
  if nonempty trimmed then
    fields ← parse_object trimmed;
    entries ← map_option text_field (own_entries fields);
    Some (fold_left put_entry entries [])
  else Some [].

Definition mapping_value (mapping : list (str * str)) : value := VObject (map (fun e => (fst e, VString (snd e))) (own_entries mapping)).

Definition mergeModelMappingPairs (current : str) (pairs : list ModelMappingPair) : option str :=
  mapping ← read_mapping (trim current);
  match fold_left (fun mapping pair => put_entry mapping (mp_from pair, mp_to pair)) pairs mapping with
  | [] => Some []
  | mapping => Some (stringify_indented 0 (mapping_value mapping))
  end.

(** ** [model-naming-patterns.ts] *)

Record ModelNamingSuggestion : Type := { sg_id : str; sg_rule : ModelMappingRule; sg_models : list str }.

Definition MAX_SUGGESTIONS : nat := 3.
Definition RELAY_SUFFIXES : list str := [u "-all"; u "-latest"; u "-ca"].
Definition MIN_PREFIX_MATCHES : nat := 2.

(** [/-\d{4}-\d{2}-\d{2}$/.exec(model)?.[0]]: the last eleven characters *)
Definition date_shape : list bool := [false; true; true; true; true; false; true; true; false; true; true].
Definition DATE_SUFFIX (model : str) : option str :=
  let suffix := drop (length model - 11) model in
  if (length suffix =? 11) && forallb (fun e : bool * N => if e.1 then is_digit e.2 else N.eqb e.2 45) (combine date_shape suffix)
  then Some suffix else None.

Section patterns.
Context `{Collation}.

(** A suggestion with the number of its models whose other name is known. *)
Definition suggestion : Type := ModelNamingSuggestion * nat.

Definition verified_count (known : list str) (strip : str -> str) (matched : list str) : nat :=
  length (List.filter (fun model => bool_decide (strip model ∈ known)) matched).

Definition suffix_suggestion (known matched : list str) (suffix : str) : suggestion :=
  ({| sg_id := u "strip-suffix:" ++ suffix; sg_rule := R_strip_suffix suffix; sg_models := matched |},
   verified_count known (fun model => take (length model - length suffix) model) matched).
Definition suffix_matches (candidates : list str) (suffix : str) : list str :=
  List.filter (fun model => ends_with model suffix && (length suffix <? length model)) candidates.

Definition relay_suggestions (candidates known : list str) : list suggestion :=
  omap (fun suffix =>
    match suffix_matches candidates suffix with
    | [] => None
    | matched => Some (suffix_suggestion known matched suffix)
    end) RELAY_SUFFIXES.
Definition date_suggestions (candidates known : list str) : list suggestion :=
  map (fun suffix => suffix_suggestion known (suffix_matches candidates suffix) suffix) (set_of (omap DATE_SUFFIX candidates)).

(** The part of a name up to its first slash, when there is text on both sides. *)
Definition vendor_prefix (model : str) : option str :=
  slash ← position_of model (u "/");
  if (0 <? slash) && (slash <? length model - 1) then Some (take (slash + 1) model) else None.
Definition prefix_suggestions (candidates known : list str) : list suggestion :=
  omap (fun prefix =>
    let matched := List.filter (fun model => starts_with model prefix) candidates in
    let verified := verified_count known (drop (length prefix)) matched in
    if (verified =? 0) && (length matched <? MIN_PREFIX_MATCHES) then None
    else Some ({| sg_id := u "strip-prefix:" ++ prefix; sg_rule := R_strip_prefix prefix; sg_models := matched |}, verified))
    (set_of (omap vendor_prefix candidates)).

Definition dotted_suggestions (candidates known : list str) : list suggestion :=
  match List.filter (fun model => includes model (u ".") && bool_decide (replace_all model (u ".") (u "-") model 0 ∈ known)) candidates with
  | [] => []
  | dotted => [({| sg_id := u "replace:.:-"; sg_rule := R_replace (u ".") (u "-"); sg_models := dotted |}, length dotted)]
  end.

Definition suggestion_order (a b : suggestion) : comparison :=
  or_compare (Nat.compare (length (sg_models b.1)) (length (sg_models a.1)))
    (or_compare (Nat.compare b.2 a.2) (localeCompare (sg_id a.1) (sg_id b.1))).

Definition naming_candidates (models knownModels : list str) : list str :=
  set_of (List.filter (fun model => nonempty model && negb (bool_decide (model ∈ set_of (trimmed_names knownModels)))) (map trim models)).

Definition detectModelNamingPatterns (models knownModels : list str) : list ModelNamingSuggestion :=
  let known := set_of (trimmed_names knownModels) in
  let candidates := naming_candidates models knownModels in
  map fst (take MAX_SUGGESTIONS (sort_by suggestion_order
    (relay_suggestions candidates known ++ date_suggestions candidates known ++
     prefix_suggestions candidates known ++ dotted_suggestions candidates known))).

Fixpoint findVerifiedAlias (model : str) (suggestions : list ModelNamingSuggestion) (knownModels : list str)
  : option ModelMappingPair :=
  match suggestions with
  | [] => None
  | s :: rest =>
      match (if bool_decide (model ∈ sg_models s)
             then head (md_pairs (deriveModelMappingPairs [model] D_upstream (sg_rule s))) else None) with
      | Some p => if bool_decide (mp_from p ∈ set_of knownModels) then Some p
                     else findVerifiedAlias model rest knownModels
      | None => findVerifiedAlias model rest knownModels
      end
  end.
End patterns.
