(* ===== verification/ChannelModels.v ===== *)
(** * The models of a channel form and the checks before it is sent

    [features/channels/lib/upstream-update-utils.ts] and [status-code-risk-guard.ts], and
    the model selection and the submit handler of
    [components/drawers/channel-mutate-drawer.tsx]. *)

From Stdlib Require Import String.
From S2P Require Import Prelude JsNumber JsArray JsString JsText Ast Request Json JsonText TaskExpr PricingModel ModelMapping.

#[local] Open Scope nat_scope.

(** ** [upstream-update-utils.ts] *)

(** [String(model || '').trim()] *)
Definition model_text (model : value) : str := trim (if truthy model then to_string model else []).
Definition normalizeModelList (models : list value) : list str := set_of (List.filter nonempty (map model_text models)).

Definition hasNormalizedModel (models : list str) (model : str) : bool :=
  let normalized := trim model in
  if negb (nonempty normalized) then false else existsb (fun item => str_eqb (trim item) normalized) models.

Definition toggleNormalizedModel (models : list str) (model : str) : list str :=
  let normalized := trim model in
  if negb (nonempty normalized) then models
  else if hasNormalizedModel models normalized then List.filter (fun item => negb (str_eqb (trim item) normalized)) models
  else models ++ [normalized].

Definition select_step (next : list str) (model : str) : list str :=
  let normalized := trim model in
  if negb (nonempty normalized) || hasNormalizedModel next normalized then next else next ++ [normalized].
Definition applyNormalizedCategorySelection (selected categoryModels : list str) (isChecked : bool) : list str :=
  if isChecked then fold_left select_step categoryModels selected
  else let categorySet := set_of (trimmed_names categoryModels) in
       List.filter (fun model => negb (bool_decide (trim model ∈ categorySet))) selected.

Definition isNormalizedCategorySelected (selected categoryModels : list str) : bool :=
  (0 <? length categoryModels) && forallb (hasNormalizedModel selected) categoryModels.

(** The lists of the callers hold texts. *)
Definition normalize_texts (models : list str) : list str := normalizeModelList (map VString models).
Definition syncManualModelSelectionWithIgnoredList (originModels nextModels ignoredModels : list str) : list str :=
  let nextSet := normalize_texts nextModels in
  List.filter (fun model => negb (bool_decide (model ∈ nextSet)))
    (set_of (normalize_texts ignoredModels ++ normalize_texts originModels)).

Record UpstreamUpdateMeta : Type := {
  um_enabled : bool;
  pendingAddModels : list str;
  pendingRemoveModels : list str;
}.
(** [normalizeModelList(list || [])], which throws when the list has no [map]. *)
Definition normalize_field (list : value) : option (Datatypes.list str) :=
  if truthy list then match list with VArray items => Some (normalizeModelList items) | _ => None end
  else Some [].
(** The settings are an object already, or a text; an array is an object without the fields. *)
Definition parsed_settings (settings : value) : value :=
  match settings with
  | VObject fields => settings
  | VString text => default VNull (json_parse text)
  | _ => VNull
  end.
Definition parseUpstreamUpdateMeta (settings : value) : option UpstreamUpdateMeta :=
  match parsed_settings settings with
  | (VObject _ | VArray _) as parsed =>
      add ← normalize_field (field parsed "upstream_model_update_last_detected_models");
      remove ← normalize_field (field parsed "upstream_model_update_last_removed_models");
      Some {| um_enabled := match field parsed "upstream_model_update_check_enabled" with VBoolean b => b | _ => false end;
              pendingAddModels := add; pendingRemoveModels := remove |}
  | _ => Some {| um_enabled := false; pendingAddModels := []; pendingRemoveModels := [] |}
  end.

(** ** [status-code-risk-guard.ts] *)

Definition NON_REDIRECTABLE_STATUS_CODES : list Z := [504; 524]%Z.

(** [/^[1-5]\d{2}$/.test(text)], and the number it denotes *)
Definition status_code (text : str) : option Z :=
  match text with
  | [a; b; c] => if (49 <=? a)%N && (a <=? 53)%N && is_digit b && is_digit c then Some (digits_value text) else None
  | _ => None
  end.
Definition parseStatusCodeKey (rawKey : str) : option Z := status_code (trim rawKey).
Definition in_code_range (code : Z) : option Z := if (100 <=? code)%Z && (code <=? 599)%Z then Some code else None.
Definition parseStatusCodeMappingTarget (rawValue : value) : option Z :=
  match rawValue with
  | VNumber x => if num_is_integer x then in_code_range (num_to_Z x) else None
  | VString s => code ← status_code (trim s); in_code_range code
  | _ => None
  end.

(** The entries of a mapping text that is an object. *)
Definition code_entries (statusCodeMappingStr : str) : list (str * value) :=
  if nonempty (trim statusCodeMappingStr) then default [] (own_entries <$> parse_object statusCodeMappingStr) else [].
Definition arrow : str := u " " ++ [8594%N] ++ u " ".

Definition collectInvalidStatusCodeEntries (statusCodeMappingStr : str) : list str :=
  omap (fun e => match parseStatusCodeKey (fst e), parseStatusCodeMappingTarget (snd e) with
                 | Some _, Some _ => None
                 | _, _ => Some (fst e ++ arrow ++ to_string (snd e))
                 end) (code_entries statusCodeMappingStr).

Definition risky_mapping (e : str * value) : option str :=
  fromCode ← parseStatusCodeKey (fst e);
  toCode ← parseStatusCodeMappingTarget (snd e);
  if negb (bool_decide (fromCode ∈ NON_REDIRECTABLE_STATUS_CODES)) then None
  else if (fromCode =? toCode)%Z then None
  else Some (digits_of fromCode ++ u " -> " ++ digits_of toCode).
Definition collectDisallowedStatusCodeRedirects (statusCodeMappingStr : str) : list str :=
  sort_after (fun a b => str_ltb b a) (set_of (omap risky_mapping (code_entries statusCodeMappingStr))).

Definition collectNewDisallowedStatusCodeRedirects (originalStr currentStr : str) : list str :=
  match collectDisallowedStatusCodeRedirects currentStr with
  | [] => []
  | currentRisky =>
      let originalRiskySet := set_of (collectDisallowedStatusCodeRedirects originalStr) in
      List.filter (fun mapping => negb (bool_decide (mapping ∈ originalRiskySet))) currentRisky
  end.

(** ** The drawer: selecting models *)

(** The two fields of the form that a selection writes. *)
Record ModelFields : Type := { mf_models : str; mf_ignored : str }.

Definition applyModelSelection (initialModels : list str) (form : ModelFields) (nextModels : list str) : ModelFields :=
  let normalized := formatModelsArray nextModels in
  let nextIgnored := syncManualModelSelectionWithIgnoredList initialModels (parseModelsString normalized)
    (parseModelsString (mf_ignored form)) in
  {| mf_models := normalized; mf_ignored := join [comma] nextIgnored |}.

Definition updateModels (initialModels currentModelsArray : list str) (form : ModelFields) (newModels : list str) (merge : bool)
  : ModelFields :=
  let finalModels := if merge then formatModelsArray (currentModelsArray ++ newModels) else formatModelsArray newModels in
  applyModelSelection initialModels form (parseModelsString finalModels).

(** ** The drawer: submitting *)

Inductive MissingModelsAction : Type := MA_cancel | MA_submit | MA_add.

(** The fields the handler reads or writes. *)
Record ChannelFormData : Type := {
  fd_key : option str;
  fd_status_code_mapping : option str;
  fd_model_mapping : option str;
  fd_fields : ModelFields;
}.
Definition with_fields (data : ChannelFormData) (fields : ModelFields) : ChannelFormData :=
  {| fd_key := fd_key data; fd_status_code_mapping := fd_status_code_mapping data;
     fd_model_mapping := fd_model_mapping data; fd_fields := fields |}.

(** What the drawer knows when the form is sent, and the answers to its two questions. *)
Record DrawerState : Type := {
  dr_isEditing : bool;
  dr_loaded : bool;
  dr_providerTarget : bool;
  dr_canEditSensitive : bool;
  dr_sensitiveLocked : bool;
  dr_dirtyFields : str -> bool;
  initialModels : list str;
  initialModelMapping : str;
  initialStatusCodeMapping : str;
  confirmStatusCodeRisk : list str -> bool;
  confirmMissingModelMappings : list str -> MissingModelsAction;
}.

Definition SENSITIVE_FORM_FIELDS : list str := map u
  ["type"; "base_url"; "key"; "openai_organization"; "other"; "key_mode"; "param_override"; "header_override"; "settings";
   "setting"; "advanced_custom"; "is_enterprise_account"; "vertex_key_type"; "aws_key_type"; "azure_responses_version";
   "force_format"; "thinking_to_content"; "proxy"; "http_protocol"; "http2_connection_shards"; "pass_through_body_enabled";
   "responses_websocket_enabled"; "system_prompt"; "system_prompt_override"; "allow_service_tier"; "disable_store";
   "allow_safety_identifier"; "allow_include_obfuscation"; "allow_inference_geo"; "allow_speed"; "claude_beta_query";
   "ollama_openai_chat"; "disable_task_polling_sleep"; "upstream_model_update_check_enabled";
   "upstream_model_update_auto_sync_enabled"; "upstream_model_update_ignored_models"]%string.

(** What the handler ends with. *)
Inductive SubmitOutcome : Type :=
| SO_nothing
| SO_error (field message : str)
| SO_denied
| SO_sent (data : ChannelFormData).

Definition given_text (o : option str) : str := default [] o.

(** The second half of the handler: the model mapping and the models. *)
Definition submit_models (state : DrawerState) (data : ChannelFormData) : SubmitOutcome :=
  let modelMappingValue := given_text (fd_model_mapping data) in
  let hasModelMapping := nonempty (trim modelMappingValue) in
  match (if hasModelMapping then validateModelMappingJson modelMappingValue else None) with
  | Some error => SO_error (u "model_mapping") error
  | None =>
      let normalizedModels := parseModelsString (mf_models (fd_fields data)) in
      if negb hasModelMapping then SO_sent data
      else
        let missingModels := findMissingModelsInMapping modelMappingValue normalizedModels in
        if (0 <? length missingModels)
           && hasModelConfigChanged normalizedModels modelMappingValue (initialModels state) (initialModelMapping state)
        then
          match confirmMissingModelMappings state missingModels with
          | MA_cancel => SO_nothing
          | MA_submit => SO_sent data
          | MA_add =>
              let updatedModels := set_of (normalizedModels ++ missingModels) in
              SO_sent (with_fields data (applyModelSelection (initialModels state) (fd_fields data) updatedModels))
          end
        else SO_sent data
  end.

Definition onSubmit (state : DrawerState) (data : ChannelFormData) : SubmitOutcome :=
  if dr_isEditing state && negb (dr_loaded state) then SO_nothing
  else if negb (dr_isEditing state) && (negb (dr_providerTarget state) || negb (dr_canEditSensitive state)) then SO_nothing
  else if negb (dr_isEditing state) && negb (nonempty (trim (given_text (fd_key data)))) then
    SO_error (u "key") (u "API key is required")
  else if dr_sensitiveLocked state && existsb (dr_dirtyFields state) SENSITIVE_FORM_FIELDS then SO_denied
  else
    let codes := given_text (fd_status_code_mapping data) in
    if negb (nonempty (trim codes)) then submit_models state data
    else
      match collectInvalidStatusCodeEntries codes with
      | (_ :: _) as invalidEntries =>
          SO_error (u "status_code_mapping") (u "Invalid status code mapping entries: " ++ join (u ", ") invalidEntries)
      | [] =>
          match collectNewDisallowedStatusCodeRedirects (initialStatusCodeMapping state) codes with
          | [] => submit_models state data
          | riskyRedirects => if confirmStatusCodeRisk state riskyRedirects then submit_models state data else SO_nothing
          end
      end.
