(* ===== verification/MappingFacts.v ===== *)
(** * Model mappings keep their entries

    What the naming rules derive, what a merge leaves in the mapping, and that the models a
    mapping needs can be added. *)

From Stdlib Require Import String Sorting.Permutation Sorting.Sorted.
From stdpp Require Import sets.
From S2P Require Import Prelude JsNumber JsArray JsString JsText Ast Request Json JsonFacts JsonText TaskExpr PricingModel.
From S2P Require Import StatusRules ModelMapping.

#[local] Open Scope nat_scope.

(** ** The text of a mapping *)

Definition entry_units (e : str * str) : Prop := Forall code_unit e.1 /\ Forall code_unit e.2.

(** ** The order of the keys *)

Lemma own_entries_perm {V} (object : list (str * V)) : Permutation (own_entries object) object.
Proof.
  unfold own_entries, index_entries, text_entries. rewrite sort_by_perm.
  induction object as [|e l IH]; [done|]. cbn [List.filter]. destruct (is_index e.1); cbn [negb app]; [by rewrite IH|].
  by rewrite <- Permutation_middle, IH.
Qed.

Lemma keys_perm {V} (l k : list (str * V)) : Permutation l k -> Permutation l.*1 k.*1.
Proof. by apply Permutation_map. Qed.

Lemma own_entries_NoDup {V} (object : list (str * V)) : NoDup object.*1 -> NoDup (own_entries object).*1.
Proof. by rewrite (keys_perm _ _ (own_entries_perm object)). Qed.

(** A list the comparison finds in order is left alone. *)
Lemma sort_in_order {V} (l : list (str * V)) :
  StronglySorted (fun a b => (digits_value a.1 <= digits_value b.1)%Z) l -> sort_by index_order l = l.
Proof.
  intros Hs. induction Hs as [|a l Hs IH Hall]; [done|]. unfold sort_by, sort_after in IH |- *. cbn [foldr]. rewrite IH.
  destruct l as [|b l]; [done|]. apply Forall_cons_iff in Hall as [Hab _]. cbn [insert_after]. unfold positive, index_order.
  by destruct (Z.compare_spec (digits_value a.1) (digits_value b.1)); [| |lia].
Qed.

Lemma index_entries_sorted {V} (object : list (str * V)) :
  StronglySorted (fun a b => (digits_value a.1 <= digits_value b.1)%Z) (index_entries object).
Proof.
  unfold index_entries, sort_by. apply (sort_after_sorted _ (fun _ => True)).
  - intros a b _ _. unfold positive, index_order. destruct (Z.compare_spec (digits_value a.1) (digits_value b.1)); lia.
  - intros a b c _ _ _. lia.
  - by apply List.Forall_forall.
Qed.

Lemma keep_all {A} (f : A -> bool) (l : list A) : (forall x, x ∈ l -> f x = true) -> List.filter f l = l.
Proof. intros Hf. induction l as [|x l IH]; [done|]. cbn. rewrite Hf by (by left). f_equal. apply IH. intros y Hy. apply Hf. by right. Qed.
Lemma keep_none {A} (f : A -> bool) (l : list A) : (forall x, x ∈ l -> f x = false) -> List.filter f l = [].
Proof. intros Hf. induction l as [|x l IH]; [done|]. cbn. rewrite Hf by (by left). apply IH. intros y Hy. apply Hf. by right. Qed.

Lemma elem_filter {A} (f : A -> bool) (l : list A) x : x ∈ List.filter f l <-> x ∈ l /\ f x = true.
Proof. rewrite !list_elem_of_In. apply filter_In. Qed.

Lemma elem_index_entries {V} (object : list (str * V)) e : e ∈ index_entries object -> is_index e.1 = true.
Proof. unfold index_entries. rewrite sort_by_perm, elem_filter. by intros [_ ?]. Qed.

(** Writing the keys out in their order does not change the order. *)
Lemma own_entries_idem {V} (object : list (str * V)) : own_entries (own_entries object) = own_entries object.
Proof.
  unfold own_entries. f_equal.
  - unfold index_entries at 1. rewrite List.filter_app. fold (index_entries object).
    rewrite keep_all by apply elem_index_entries.
    rewrite keep_none, app_nil_r, sort_in_order; [done|apply index_entries_sorted|].
    intros e [_ He]%elem_filter. by apply negb_true_iff.
  - unfold text_entries at 1. rewrite List.filter_app, keep_none, app_nil_l.
    + apply keep_all. by intros e [_ He]%elem_filter.
    + intros e He%elem_index_entries. by rewrite He.
Qed.

(** ** The text of a mapping *)

Definition no_proto (mapping : list (str * str)) : Prop := proto_key ∉ mapping.*1.
Definition as_values (mapping : list (str * str)) : list (str * value) := map (fun e => (e.1, VString e.2)) mapping.

Lemma as_values_keys mapping : (as_values mapping).*1 = mapping.*1.
Proof.
  unfold as_values. change (map ?f mapping) with (f <$> mapping). by rewrite <- list_fmap_compose.
Qed.

Lemma own_as_values mapping : own_entries (as_values mapping) = as_values (own_entries mapping).
Proof.
  unfold own_entries, as_values. rewrite map_app. f_equal.
  - unfold index_entries. rewrite <- (sort_by_map (fun e => (e.1, VString e.2)) index_order index_order) by done. f_equal.
    induction mapping as [|e l IH]; [done|]. cbn. destruct (is_index e.1); [cbn; by rewrite IH|done].
  - unfold text_entries. induction mapping as [|e l IH]; [done|]. cbn. destruct (is_index e.1); [done|cbn; by rewrite IH].
Qed.

Lemma as_values_ok mapping : NoDup mapping.*1 -> Forall entry_units mapping -> json_ok (VObject (as_values mapping)).
Proof.
  intros Hnd He. apply json_ok_fields. rewrite as_values_keys. split; [done|].
  rewrite List.Forall_forall in *. intros f (e & <- & Hin)%in_map_iff. by apply He.
Qed.

Lemma put_entries_id l : forall before, NoDup (before ++ l).*1 -> no_proto l -> fold_left put_entry l before = before ++ l.
Proof.
  unfold no_proto. induction l as [|[k v] l IH]; intros before Hnd Hpr; [by rewrite app_nil_r|]. cbn [fold_left]. unfold put_entry at 2. cbn [fst snd].
  destruct (str_eqb k proto_key) eqn:Ek; [apply str_eqb_eq in Ek as ->; destruct Hpr; by left|]. rewrite assoc_set_fst_fresh.
  - rewrite IH; [by rewrite <- app_assoc|by rewrite <- app_assoc|]. intros Hin. apply Hpr. by right.
  - rewrite fmap_app in Hnd. apply list.NoDup_app in Hnd as (_ & Hd & _). intros Hin. apply (Hd k Hin). by left.
Qed.

Lemma text_fields mapping : map_option text_field (as_values mapping) = Some mapping.
Proof. induction mapping as [|[k s] l IH]; [done|]. unfold as_values in *. cbn [map map_option text_field fst snd]. rewrite IH. done. Qed.

Lemma object_text_ends fields : fields <> [] -> let text := stringify_indented 0 (VObject (as_values fields)) in
  nonempty text = true /\ trim text = text.
Proof.
  intros Hne. destruct fields as [|[k s] l]; [done|]. cbn [as_values map stringify_indented bracketed]. split; [reflexivity|].
  match goal with |- trim (u "{" ++ ?b) = _ => set (body := b) end.
  assert (exists m, body = m ++ u "}") as [m ->] by (subst body; rewrite !app_assoc; eexists; reflexivity).
  change (u "{" ++ m ++ u "}") with (123%N :: m ++ [125%N]). apply (trimmed_ends _ 123 125); [done|done|]. right. by exists m.
Qed.

Lemma own_entries_nil {V} (object : list (str * V)) : own_entries object = [] -> object = [].
Proof. intros E. apply Permutation_nil. rewrite <- E. apply own_entries_perm. Qed.

(** A mapping that is written is read back with its keys in their order. *)
Lemma read_mapping_text mapping : mapping <> [] -> NoDup mapping.*1 -> no_proto mapping -> Forall entry_units mapping ->
  let text := stringify_indented 0 (mapping_value mapping) in
  nonempty text = true /\ trim text = text /\ json_parse text = Some (VObject (as_values (own_entries mapping))) /\
  read_mapping (trim text) = Some (own_entries mapping).
Proof.
  intros Hne Hnd Hpr He text.
  destruct (object_text_ends (own_entries mapping)) as [Ht Htrim]; [by intros ?%own_entries_nil|].
  assert (json_parse text = Some (VObject (as_values (own_entries mapping)))) as Hp.
  { apply json_parse_indented, as_values_ok; [by apply own_entries_NoDup|]. by rewrite own_entries_perm. }
  split; [done|split; [done|split; [done|]]]. change (trim text = text) in Htrim. rewrite Htrim. unfold read_mapping.
  change (nonempty text = true) in Ht. rewrite Ht. unfold parse_object. rewrite Hp. cbn [mbind option_bind].
  rewrite own_as_values, own_entries_idem, text_fields. cbn [mbind option_bind]. rewrite put_entries_id; [done|by apply own_entries_NoDup|].
  unfold no_proto in *. by rewrite (keys_perm _ _ (own_entries_perm mapping)).
Qed.

(** ** Merging *)

Lemma put_entries_NoDup entries mapping : NoDup mapping.*1 -> NoDup (fold_left put_entry entries mapping).*1.
Proof.
  revert mapping. induction entries as [|e entries IH]; intros m Hm; [done|]. cbn [fold_left]. apply IH.
  unfold put_entry. destruct (str_eqb _ _); [done|by apply assoc_set_NoDup].
Qed.

Lemma put_entries_no_proto entries mapping : no_proto mapping -> no_proto (fold_left put_entry entries mapping).
Proof.
  revert mapping. induction entries as [|e entries IH]; intros m Hm; [done|]. cbn [fold_left]. apply IH.
  unfold put_entry. destruct (str_eqb e.1 proto_key) eqn:E; [done|]. unfold no_proto. rewrite assoc_set_keys.
  unfold set_add. destruct (bool_decide _); [done|]. rewrite elem_of_app, list_elem_of_singleton. intros [?|Ep]; [done|].
  by rewrite <- Ep, str_eqb_refl in E.
Qed.

Lemma put_entries_units entries mapping : Forall entry_units mapping -> Forall entry_units entries ->
  Forall entry_units (fold_left put_entry entries mapping).
Proof.
  revert mapping. induction entries as [|e entries IH]; intros m Hm Hp; [done|]. apply Forall_cons_iff in Hp as [H1 Hp].
  cbn [fold_left]. apply IH; [|done]. unfold put_entry. destruct (str_eqb _ _); [done|]. apply assoc_set_Forall; [|done]. by destruct e.
Qed.

Lemma read_mapping_good trimmed mapping : read_mapping trimmed = Some mapping -> NoDup mapping.*1 /\ no_proto mapping.
Proof.
  unfold read_mapping. destruct (nonempty trimmed); [|intros [= <-]; split; [apply NoDup_nil_2|apply not_elem_of_nil]].
  destruct (parse_object trimmed) as [fields|]; [|done]. cbn [mbind option_bind].
  destruct (map_option text_field (own_entries fields)) as [entries|]; [|done]. cbn [mbind option_bind]. intros [= <-].
  split; [apply put_entries_NoDup, NoDup_nil_2|apply put_entries_no_proto, not_elem_of_nil].
Qed.

(** The upstream name the last of the pairs gives to a request name. *)
Definition last_pair (pairs : list ModelMappingPair) (name : str) : option str :=
  mp_to <$> List.find (fun p => str_eqb (mp_from p) name) (rev pairs).

Definition put_pair (mapping : list (str * str)) (pair : ModelMappingPair) : list (str * str) :=
  put_entry mapping (mp_from pair, mp_to pair).
Definition pair_entry (p : ModelMappingPair) : str * str := (mp_from p, mp_to p).

Lemma put_pairs_entries pairs mapping : fold_left put_pair pairs mapping = fold_left put_entry (map pair_entry pairs) mapping.
Proof. revert mapping. induction pairs as [|p pairs IH]; intros m; [done|]. apply IH. Qed.

Lemma put_pairs_get pairs mapping name : name <> proto_key -> assoc_get name (fold_left put_pair pairs mapping) =
  match last_pair pairs name with Some to_ => Some to_ | None => assoc_get name mapping end.
Proof.
  intros Hn. unfold last_pair. induction pairs as [|p pairs IH] using rev_ind; [done|].
  rewrite fold_left_app, rev_app_distr. cbn [fold_left rev app List.find]. unfold put_pair at 1, put_entry. cbn [fst snd].
  destruct (str_eqb (mp_from p) proto_key) eqn:Epr.
  - destruct (str_eqb (mp_from p) name) eqn:Ep; [|exact IH]. apply str_eqb_eq in Ep, Epr. congruence.
  - rewrite assoc_get_set. destruct (decide (mp_from p = name)) as [<-|E]; [by rewrite str_eqb_refl|].
    destruct (str_eqb (mp_from p) name) eqn:Ep; [by apply str_eqb_eq in Ep|exact IH].
Qed.

(** The keys that are not indices, in their order. *)
Definition text_name (name : str) : bool := negb (is_index name) && negb (str_eqb name proto_key).

Lemma filter_set_add (f : str -> bool) x l :
  List.filter f (set_add x l) = if f x then set_add x (List.filter f l) else List.filter f l.
Proof.
  unfold set_add. destruct (bool_decide (x ∈ l)) eqn:E.
  - apply bool_decide_eq_true in E. destruct (f x) eqn:Ef; [|done]. rewrite bool_decide_eq_true_2; [done|by apply elem_filter].
  - apply bool_decide_eq_false in E. rewrite List.filter_app. cbn [List.filter]. destruct (f x); [|by rewrite app_nil_r].
    rewrite bool_decide_eq_false_2; [done|]. by intros [? _]%elem_filter.
Qed.

Lemma put_entries_names entries mapping :
  List.filter text_name (fold_left put_entry entries mapping).*1 =
  fold_left (fun names name => set_add name names) (List.filter text_name entries.*1) (List.filter text_name mapping.*1).
Proof.
  revert mapping. induction entries as [|e entries IH]; intros m; [done|]. cbn [fold_left fmap list_fmap List.filter].
  rewrite IH. unfold put_entry. destruct (str_eqb e.1 proto_key) eqn:Epr.
  - unfold text_name at 3. by rewrite Epr, andb_false_r.
  - rewrite assoc_set_keys, filter_set_add. by destruct (text_name e.1).
Qed.

Lemma texts_only (k : list (str * str)) :
  existsb (fun f => match snd f with VString _ => false | _ => true end) (as_values k) = false.
Proof. induction k as [|x k IH]; [done|]. exact IH. Qed.

(** What a merge writes is read back as the merged mapping. *)
Lemma merge_reads_back current pairs mapping text :
  read_mapping (trim current) = Some mapping -> Forall entry_units mapping ->
  Forall (fun p => entry_units (pair_entry p)) pairs -> mergeModelMappingPairs current pairs = Some text ->
  read_mapping (trim text) = Some (own_entries (fold_left put_pair pairs mapping)) /\ validateModelMappingJson text = None.
Proof.
  intros Hm Hu Hp. unfold mergeModelMappingPairs. rewrite Hm. cbn [mbind option_bind].
  change (fun mapping pair => put_entry mapping (mp_from pair, mp_to pair)) with put_pair.
  destruct (read_mapping_good _ _ Hm) as [Hnd Hpr].
  apply (put_entries_NoDup (map pair_entry pairs)) in Hnd. apply (put_entries_no_proto (map pair_entry pairs)) in Hpr.
  apply (put_entries_units (map pair_entry pairs)) in Hu; [|by apply Forall_map].
  rewrite <- put_pairs_entries in Hnd, Hpr, Hu. set (merged := fold_left put_pair pairs mapping) in *.
  intros Et. destruct (decide (merged = [])) as [E0|Hne]; [rewrite E0 in Et; by injection Et as <-; rewrite E0|].
  assert (text = stringify_indented 0 (mapping_value merged)) as -> by (by destruct merged; [|congruence]). clear Et.
  destruct (read_mapping_text merged Hne Hnd Hpr Hu) as (Ht & Htrim & Ho & Hr). split; [exact Hr|].
  unfold validateModelMappingJson. cbv zeta in Htrim, Ht. rewrite Htrim, Ht. cbn [negb orb]. cbv zeta in Ho. rewrite Ho. by rewrite texts_only.
Qed.

(** The merge answers whenever the mapping can be read. *)
Lemma merge_answers current pairs : mergeModelMappingPairs current pairs = None <-> read_mapping (trim current) = None.
Proof.
  unfold mergeModelMappingPairs. destruct (read_mapping (trim current)) as [m|]; [|done]. cbn [mbind option_bind].
  split; [|done]. by destruct (fold_left _ pairs m).
Qed.

(** ** Deriving *)

Section derive.
Context (direction : ModelMappingDirection) (rule : ModelMappingRule).

(** The name of the selected side, and the name the rule gives to it. *)
Definition own_name (p : ModelMappingPair) : str := match direction with D_upstream => mp_to p | D_request => mp_from p end.
Definition renamed (model : str) : str := trim (derive_name rule (rule_affixes rule) model).
Definition changed (model : str) : Prop := renamed model <> [] /\ renamed model <> model.
Definition pair_of (model : str) : ModelMappingPair := make_pair direction model (renamed model).

Lemma own_name_pair model : own_name (pair_of model) = model.
Proof. unfold own_name, pair_of. by destruct direction. Qed.

Record derived (processed : list str) (state : DeriveState) : Prop := {
  dv_seen : ds_seen state = set_of (trimmed_names processed);
  dv_parts : Permutation (map own_name (md_pairs (ds_result state)) ++ md_unchanged (ds_result state) ++ md_conflicts (ds_result state))
               (ds_seen state);
  dv_names : ds_requestNames state = map mp_from (md_pairs (ds_result state)) /\ NoDup (ds_requestNames state);
  dv_pairs : forall p, p ∈ md_pairs (ds_result state) -> p = pair_of (own_name p) /\ changed (own_name p);
  dv_unchanged : forall m, m ∈ md_unchanged (ds_result state) -> ~ changed m;
  dv_conflicts : forall m, m ∈ md_conflicts (ds_result state) ->
    changed m /\ mp_from (pair_of m) ∈ map mp_from (md_pairs (ds_result state));
}.

Lemma trimmed_names_snoc l x : trimmed_names (l ++ [x]) = trimmed_names l ++ if nonempty (trim x) then [trim x] else [].
Proof. unfold trimmed_names. rewrite map_app, List.filter_app. cbn [map List.filter]. by destruct (nonempty (trim x)). Qed.

Lemma changed_dec model :
  negb (nonempty (trim (derive_name rule (rule_affixes rule) model))) || str_eqb (trim (derive_name rule (rule_affixes rule) model)) model
    = false <-> changed model.
Proof.
  unfold changed. fold (renamed model). rewrite orb_false_iff, negb_false_iff.
  rewrite <- (not_true_iff_false (str_eqb _ _)), str_eqb_eq. destruct (renamed model); cbn [nonempty]; naive_solver.
Qed.

Lemma derive_step_ok processed state raw : derived processed state ->
  derived (processed ++ [raw]) (derive_step direction rule (rule_affixes rule) state raw).
Proof.
  intros [Hs Hp [Hn Hnd] Hpairs Hun Hco]. unfold derive_step.
  destruct (nonempty (trim raw)) eqn:Ene; cbn [negb orb]; [|split; try done; by rewrite trimmed_names_snoc, Ene, app_nil_r].
  destruct (bool_decide (trim raw ∈ ds_seen state)) eqn:Eseen.
  { split; try done. rewrite trimmed_names_snoc, Ene, set_of_snoc, <- Hs. unfold set_add. by rewrite Eseen. }
  assert (set_add (trim raw) (ds_seen state) = set_of (trimmed_names (processed ++ [raw]))) as Hset
    by (by rewrite trimmed_names_snoc, Ene, set_of_snoc, Hs).
  assert (Permutation (set_add (trim raw) (ds_seen state)) (trim raw :: ds_seen state)) as Hadd
    by (unfold set_add; rewrite Eseen; symmetry; apply Permutation_cons_append).
  destruct (negb _ || str_eqb _ _) eqn:Ech.
  - assert (~ changed (trim raw)) as Hch by (rewrite <- changed_dec; by rewrite Ech).
    split; cbn [ds_seen ds_requestNames ds_result md_pairs md_unchanged md_conflicts]; try done.
    + rewrite Hadd, <- Hp. rewrite <- !app_assoc, !app_assoc. rewrite <- app_assoc. symmetry. apply Permutation_middle.
    + intros m [Hm|Hm]%elem_of_app; [by apply Hun|]. by apply list_elem_of_singleton in Hm as ->.
  - apply changed_dec in Ech.
    change (make_pair direction (trim raw) (trim (derive_name rule (rule_affixes rule) (trim raw)))) with (pair_of (trim raw)).
    destruct (bool_decide (mp_from (pair_of (trim raw)) ∈ ds_requestNames state)) eqn:Ere.
    + split; cbn [ds_seen ds_requestNames ds_result md_pairs md_unchanged md_conflicts]; try done.
      * rewrite Hadd, <- Hp, !app_assoc. symmetry. rewrite <- app_assoc. apply Permutation_cons_append.
      * intros m [Hm|Hm]%elem_of_app; [by apply Hco|]. apply list_elem_of_singleton in Hm as ->. split; [done|].
        apply bool_decide_eq_true in Ere. by rewrite Hn in Ere.
    + split; cbn [ds_seen ds_requestNames ds_result md_pairs md_unchanged md_conflicts]; try done.
      * rewrite Hadd, <- Hp, map_app, <- !app_assoc. cbn [map app]. rewrite own_name_pair.
        symmetry. apply Permutation_middle.
      * unfold set_add. rewrite Ere, map_app, Hn. split; [done|]. apply bool_decide_eq_false in Ere.
        apply list.NoDup_app. rewrite <- Hn. split; [done|]. split; [|apply list.NoDup_singleton].
        intros x Hx ->%list_elem_of_singleton. done.
      * intros p [Hin|Hin]%elem_of_app; [by apply Hpairs|]. apply list_elem_of_singleton in Hin as ->.
        by rewrite own_name_pair.
      * intros m Hm. destruct (Hco m Hm) as [? ?]. split; [done|]. rewrite map_app. apply elem_of_app. by left.
Qed.

Lemma derive_ok models : derived models (fold_left (derive_step direction rule (rule_affixes rule)) models
  {| ds_seen := []; ds_requestNames := []; ds_result := {| md_pairs := []; md_unchanged := []; md_conflicts := [] |} |}).
Proof.
  induction models as [|m models IH] using rev_ind; [|rewrite fold_left_app; by apply derive_step_ok].
  split; cbn; try done; try (intros ? []%not_elem_of_nil). split; [done|apply NoDup_nil_2].
Qed.
End derive.

Lemma last_pair_found pairs p : p ∈ pairs -> NoDup (map mp_from pairs) -> last_pair pairs (mp_from p) = Some (mp_to p).
Proof.
  intros Hin Hnd. unfold last_pair. assert (p ∈ rev pairs) as Hr by (rewrite list_elem_of_In, <- in_rev; by apply list_elem_of_In).
  assert (NoDup (map mp_from (rev pairs))) as Hd by (by rewrite map_rev, <- Permutation_rev).
  clear Hin Hnd. induction (rev pairs) as [|q l IH]; [by apply not_elem_of_nil in Hr|]. cbn [List.find map] in *.
  apply list.NoDup_cons in Hd as [Hq Hd]. apply elem_of_cons in Hr as [<-|Hr]; [by rewrite str_eqb_refl|].
  destruct (str_eqb (mp_from q) (mp_from p)) eqn:E; [|by apply IH]. apply str_eqb_eq in E. destruct Hq. rewrite E.
  by apply (list_elem_of_fmap_2 mp_from).
Qed.

Lemma last_pair_none pairs name : name ∉ map mp_from pairs -> last_pair pairs name = None.
Proof.
  intros Hn. unfold last_pair. destruct (List.find _ (rev pairs)) as [q|] eqn:E; [|done].
  apply find_some in E as [Hin Eq]. apply str_eqb_eq in Eq as <-. destruct Hn. apply (list_elem_of_fmap_2 mp_from).
  apply list_elem_of_In. by rewrite in_rev.
Qed.

(** C21: A naming rule and a merge reach exactly the selected models.  The pairs, the
    unchanged and the conflicting models divide the selected names, each once; a pair
    joins a model to the trimmed name the rule gives it, which differs from it; no two
    pairs share a request name, and a conflict is a model whose request name has a pair.
    A merge into a mapping that can be read answers with a valid mapping, which gives
    each pair's request name its upstream name, leaves every other request name as it
    was, keeps the request names that are not array indices in their positions and
    appends the new ones.  Only [__proto__], which an assignment does not add, is lost. *)
Theorem derived_pairs_reach_the_mapping models direction rule current mapping :
  let d := deriveModelMappingPairs models direction rule in
  read_mapping (trim current) = Some mapping -> Forall entry_units mapping ->
  Forall (fun p => entry_units (pair_entry p)) (md_pairs d) ->
  Permutation (map (own_name direction) (md_pairs d) ++ md_unchanged d ++ md_conflicts d) (set_of (trimmed_names models)) /\
  (forall p, p ∈ md_pairs d -> p = pair_of direction rule (own_name direction p) /\ changed rule (own_name direction p)) /\
  (forall m, m ∈ md_unchanged d -> ~ changed rule m) /\
  (forall m, m ∈ md_conflicts d -> changed rule m /\ mp_from (pair_of direction rule m) ∈ map mp_from (md_pairs d)) /\
  NoDup (map mp_from (md_pairs d)) /\
  exists text merged, mergeModelMappingPairs current (md_pairs d) = Some text /\
    validateModelMappingJson text = None /\ read_mapping (trim text) = Some (own_entries merged) /\
    (forall p, p ∈ md_pairs d -> mp_from p <> proto_key -> assoc_get (mp_from p) merged = Some (mp_to p)) /\
    (forall name, name ∉ map mp_from (md_pairs d) -> name <> proto_key -> assoc_get name merged = assoc_get name mapping) /\
    List.filter text_name merged.*1 =
      fold_left (fun names name => set_add name names) (List.filter text_name (map mp_from (md_pairs d)))
        (List.filter text_name mapping.*1).
Proof.
  intros d Hm Hu Hp. destruct (derive_ok direction rule models) as [Hs Hparts [Hn Hnd] Hpairs Hun Hco].
  fold (deriveModelMappingPairs models direction rule) in Hparts, Hn, Hpairs, Hun, Hco. fold d in Hparts, Hn, Hpairs, Hun, Hco.
  rewrite Hs in Hparts. rewrite Hn in Hnd. split; [done|]. split; [done|]. split; [done|]. split; [done|]. split; [done|].
  destruct (mergeModelMappingPairs current (md_pairs d)) as [text|] eqn:E; [|apply merge_answers in E; congruence].
  destruct (merge_reads_back _ _ _ _ Hm Hu Hp E) as [Hr Hv].
  exists text, (fold_left put_pair (md_pairs d) mapping). split; [done|]. split; [done|]. split; [done|]. split; [|split].
  - intros p Hin Hpr. by rewrite put_pairs_get, (last_pair_found _ p).
  - intros name Hin Hpr. by rewrite put_pairs_get, last_pair_none.
  - rewrite put_pairs_entries, put_entries_names. f_equal. f_equal. change (map ?f ?l) with (f <$> l). by rewrite <- list_fmap_compose.
Qed.

Definition sample_mapping : str := uq "{ 'gpt-4': 'old', 'mini': 'gpt-4o-mini' }".
Definition sample_models : list str := [u " openai/gpt-4 "; u "openai/gpt-5"; u "azure/gpt-4"; u "o3"; u "openai/gpt-5"].

Lemma derived_pairs_reach_the_mapping_witness :
  exists text merged,
    mergeModelMappingPairs sample_mapping
      (md_pairs (deriveModelMappingPairs sample_models D_upstream (R_strip_prefix (u "openai/, azure/")))) = Some text /\
    read_mapping (trim text) = Some (own_entries merged) /\ assoc_get (u "gpt-5") merged = Some (u "openai/gpt-5") /\
    assoc_get (u "mini") merged = Some (u "gpt-4o-mini").
Proof.
  pose proof (derived_pairs_reach_the_mapping sample_models D_upstream (R_strip_prefix (u "openai/, azure/")) sample_mapping
    [(u "gpt-4", u "old"); (u "mini", u "gpt-4o-mini")]) as T. cbv zeta in T.
  assert (read_mapping (trim sample_mapping) = Some [(u "gpt-4", u "old"); (u "mini", u "gpt-4o-mini")]) as H1 by (vm_compute; reflexivity).
  assert (Forall entry_units [(u "gpt-4", u "old"); (u "mini", u "gpt-4o-mini")]) as H2 by (repeat constructor; vm_compute; reflexivity).
  assert (md_pairs (deriveModelMappingPairs sample_models D_upstream (R_strip_prefix (u "openai/, azure/"))) =
    [{| mp_from := u "gpt-4"; mp_to := u "openai/gpt-4" |}; {| mp_from := u "gpt-5"; mp_to := u "openai/gpt-5" |}]) as Ed
    by (vm_compute; reflexivity).
  rewrite Ed in T |- *.
  assert (Forall (fun p => entry_units (pair_entry p))
    [{| mp_from := u "gpt-4"; mp_to := u "openai/gpt-4" |}; {| mp_from := u "gpt-5"; mp_to := u "openai/gpt-5" |}]) as H3
    by (repeat constructor; vm_compute; reflexivity).
  destruct (T H1 H2 H3) as (_ & _ & _ & _ & _ & text & merged & Et & _ & Hr & Hpairs & Hother & _).
  exists text, merged. split; [exact Et|]. split; [exact Hr|]. split.
  - apply (Hpairs {| mp_from := u "gpt-5"; mp_to := u "openai/gpt-5" |}); [right; left|vm_compute; discriminate].
  - rewrite Hother; [vm_compute; reflexivity| |vm_compute; discriminate].
    intros Hin. apply list_elem_of_In in Hin. destruct Hin as [Hin|[Hin|[]]]; vm_compute in Hin; discriminate.
Defined.

(** [mergeModelMappingPairs] says that new pairs are appended: a request name that is an
    array index comes before the existing names. *)
Example index_names_come_first :
  mergeModelMappingPairs (uq "{'gpt-4': 'old'}") [{| mp_from := u "7"; mp_to := u "seven" |}] =
  Some (u "{" ++ [10%N] ++ uq "  '7': 'seven'," ++ [10%N] ++ uq "  'gpt-4': 'old'" ++ [10%N] ++ u "}").
Proof. vm_compute. reflexivity. Qed.
