(* ===== verification/ChannelFacts.v ===== *)
(** * What a channel form sends

    The selection of models as sets of names, the texts that carry them, and the checks a
    form has passed when it is sent. *)

From Stdlib Require Import String.
From stdpp Require Import sets.
From S2P Require Import Prelude JsNumber JsArray JsString JsText Ast Request Json JsonText TaskExpr PricingModel.
From S2P Require Import StatusRules ModelMapping MappingFacts ChannelModels.

#[local] Open Scope nat_scope.

(** ** Selections are sets of names *)

Lemma nonempty_ne (l : str) : nonempty l = true <-> l <> [].
Proof. by destruct l. Qed.
Lemma nonempty_nil (l : str) : nonempty l = false <-> l = [].
Proof. by destruct l. Qed.

(** The names a list of models stands for. *)
Definition named (models : list str) (name : str) : Prop := name <> [] /\ exists item, item ∈ models /\ trim item = name.

Lemma has_spec models model : hasNormalizedModel models model = true <-> named models (trim model).
Proof.
  unfold hasNormalizedModel, named. rewrite <- nonempty_ne. destruct (nonempty (trim model)); cbn [negb]; [|naive_solver].
  rewrite existsb_exists. split.
  - intros (item & Hin & E%str_eqb_eq). split; [done|]. exists item. by rewrite list_elem_of_In.
  - intros [_ (item & Hin & E)]. exists item. rewrite <- list_elem_of_In. split; [done|]. by apply str_eqb_eq.
Qed.

Lemma named_app l k name : named (l ++ k) name <-> named l name \/ named k name.
Proof. unfold named. setoid_rewrite elem_of_app. naive_solver. Qed.
Lemma named_single x name : named [x] name <-> name <> [] /\ trim x = name.
Proof. unfold named. setoid_rewrite list_elem_of_singleton. naive_solver. Qed.
Lemma named_nil name : ~ named [] name.
Proof. intros (_ & item & Hin & _). by apply not_elem_of_nil in Hin. Qed.
Lemma named_filter (p : str -> bool) (q : str -> Prop) l name : (forall x, p x = true <-> q (trim x)) ->
  named (List.filter p l) name <-> named l name /\ q name.
Proof.
  intros Hp. unfold named. setoid_rewrite elem_filter. split.
  - intros (Hn & item & [Hin Hi] & <-). apply Hp in Hi. naive_solver.
  - intros [(Hn & item & Hin & <-) Hq]. apply Hp in Hq. naive_solver.
Qed.
Lemma named_trimmed l name : name ∈ trimmed_names l <-> named l name.
Proof.
  unfold trimmed_names, named. rewrite elem_filter, nonempty_ne, list_elem_of_In, in_map_iff. setoid_rewrite list_elem_of_In. naive_solver.
Qed.

Lemma toggle_named models model name :
  named (toggleNormalizedModel models model) name <->
  if decide (name = trim model /\ name <> []) then ~ named models name else named models name.
Proof.
  unfold toggleNormalizedModel. destruct (nonempty (trim model)) eqn:En; cbn [negb].
  2: { apply nonempty_nil in En. rewrite decide_False by naive_solver. done. }
  apply nonempty_ne in En. destruct (hasNormalizedModel models (trim model)) eqn:Eh.
  - apply has_spec in Eh. rewrite trim_trim in Eh. rewrite (named_filter _ (fun x => x <> trim model)).
    + destruct (decide _) as [[-> _]|Hne]; [naive_solver|]. split; [naive_solver|]. intros Hn. split; [done|]. intros ->. naive_solver.
    + intros x. by rewrite negb_true_iff, <- (not_true_iff_false (str_eqb _ _)), str_eqb_eq.
  - apply not_true_iff_false in Eh. rewrite has_spec, trim_trim in Eh. rewrite named_app, named_single, trim_trim.
    destruct (decide _) as [[-> _]|Hne]; naive_solver.
Qed.

Lemma select_named category selected name :
  named (fold_left select_step category selected) name <-> named selected name \/ named category name.
Proof.
  revert selected. induction category as [|m category IH]; intros selected; cbn [fold_left].
  { pose proof (named_nil name). tauto. }
  rewrite IH. clear IH. change (m :: category) with ([m] ++ category). rewrite named_app, named_single. unfold select_step.
  destruct (nonempty (trim m)) eqn:En; cbn [negb orb]; [|apply nonempty_nil in En; naive_solver].
  apply nonempty_ne in En. destruct (hasNormalizedModel selected (trim m)) eqn:Eh.
  - apply has_spec in Eh. rewrite trim_trim in Eh. naive_solver.
  - rewrite named_app, named_single, trim_trim. tauto.
Qed.

Lemma deselect_named category selected name :
  named (applyNormalizedCategorySelection selected category false) name <-> named selected name /\ ~ named category name.
Proof.
  unfold applyNormalizedCategorySelection. rewrite (named_filter _ (fun x => x ∉ set_of (trimmed_names category))).
  - by rewrite elem_of_set_of, named_trimmed.
  - intros x. by rewrite negb_true_iff, bool_decide_eq_false.
Qed.

Lemma category_selected selected category :
  isNormalizedCategorySelected selected category = true <-> category <> [] /\ Forall (fun m => named selected (trim m)) category.
Proof.
  unfold isNormalizedCategorySelected. rewrite andb_true_iff, Nat.ltb_lt, forallb_forall, List.Forall_forall.
  setoid_rewrite has_spec. destruct category; cbn [length]; split; intros [H ?]; (split; [|done]); [lia|done|done|lia].
Qed.

(** The selection of models is a set of trimmed names.  Toggling a model changes
    whether its own name is selected and no other; checking a category selects its names
    beside the selected ones and unchecking it removes exactly them; a category that has
    been checked counts as selected exactly when it is not empty and has no blank name,
    and one that has been unchecked never does. *)
Theorem selection_is_a_set_of_names selected category model name : name <> [] -> trim name = name ->
  hasNormalizedModel (toggleNormalizedModel selected model) name =
    xorb (bool_decide (trim model = name)) (hasNormalizedModel selected name) /\
  hasNormalizedModel (applyNormalizedCategorySelection selected category true) name =
    hasNormalizedModel selected name || hasNormalizedModel category name /\
  hasNormalizedModel (applyNormalizedCategorySelection selected category false) name =
    hasNormalizedModel selected name && negb (hasNormalizedModel category name) /\
  isNormalizedCategorySelected (applyNormalizedCategorySelection selected category true) category =
    bool_decide (category <> []) && forallb (fun m => nonempty (trim m)) category /\
  isNormalizedCategorySelected (applyNormalizedCategorySelection selected category false) category = false.
Proof.
  intros Hne Ht. split_and!.
  - apply eq_true_iff_eq. rewrite has_spec, Ht, toggle_named. destruct (decide _) as [[-> _]|Hd].
    + rewrite bool_decide_eq_true_2 by done. rewrite xorb_true_l, negb_true_iff, <- (not_true_iff_false (hasNormalizedModel _ _)).
      by rewrite has_spec, Ht.
    + rewrite bool_decide_eq_false_2 by naive_solver. by rewrite xorb_false_l, has_spec, Ht.
  - apply eq_true_iff_eq. rewrite orb_true_iff, !has_spec, Ht. apply select_named.
  - apply eq_true_iff_eq. rewrite andb_true_iff, negb_true_iff, <- (not_true_iff_false (hasNormalizedModel category _)).
    rewrite !has_spec, Ht. apply deselect_named.
  - apply eq_true_iff_eq. rewrite category_selected, andb_true_iff, bool_decide_eq_true, forallb_forall, List.Forall_forall.
    apply and_iff_compat_l. setoid_rewrite nonempty_ne. split; [intros H m Hm; by apply (H m Hm)|]. intros H m Hm.
    apply select_named. right. split; [by apply H|]. exists m. by rewrite list_elem_of_In.
  - apply not_true_iff_false. rewrite category_selected. intros [Hc Hall]. destruct category as [|m category]; [done|].
    apply Forall_cons_iff in Hall as [Hm _]. apply deselect_named in Hm as [Hm Hn]. apply Hn. destruct Hm as [Hm _].
    split; [done|]. exists m. split; [by left|done].
Qed.

(** ** The texts that carry the models *)

Definition no_comma (s : str) : Prop := Forall (fun c => c <> comma) s.
(** A name as a list of models holds it. *)
Definition model_name (s : str) : Prop := trim s = s /\ s <> [] /\ no_comma s.

Lemma split_char_clean c s piece : Forall (fun x => x <> c) piece -> Forall (fun p => Forall (fun x => x <> c) p) (split_char c s piece).
Proof.
  revert piece. induction s as [|x s IH]; intros piece Hp; cbn [split_char]; [repeat constructor; by apply Forall_rev|].
  destruct (N.eqb_spec x c); [constructor; [by apply Forall_rev|by apply IH, List.Forall_nil]|]. apply IH. by constructor.
Qed.

Lemma no_comma_trim s : no_comma s -> no_comma (trim s).
Proof. destruct (trim_split s) as (a & b & E & _). unfold no_comma. rewrite E at 1. rewrite !List.Forall_app. tauto. Qed.

Lemma trimmed_names_good l : Forall (fun x => no_comma (trim x)) l -> Forall model_name (trimmed_names l).
Proof.
  intros H. apply List.Forall_forall. intros s Hs. apply list_elem_of_In, elem_filter in Hs as [Hs Hn].
  apply list_elem_of_In, in_map_iff in Hs as (x & <- & Hx). rewrite List.Forall_forall in H.
  split; [apply trim_trim|]. split; [by apply nonempty_ne|by apply H].
Qed.

Lemma parse_good text : Forall model_name (parseModelsString text).
Proof.
  unfold parseModelsString. destruct (nonempty text); [|constructor]. apply trimmed_names_good.
  eapply List.Forall_impl; [|apply split_char_clean, List.Forall_nil]. apply no_comma_trim.
Qed.

Lemma trimmed_names_id l : Forall model_name l -> trimmed_names l = l.
Proof.
  unfold trimmed_names. induction 1 as [|s l (Ht & Hn & _) H IH]; [done|]. cbn [map List.filter]. rewrite Ht.
  by rewrite (proj2 (nonempty_ne s) Hn), IH.
Qed.

Lemma parse_join l : Forall model_name l -> parseModelsString (join [comma] l) = l.
Proof.
  intros H. destruct (decide (l = [])) as [->|Hne]; [done|]. unfold parseModelsString.
  assert (nonempty (join [comma] l) = true) as ->.
  { destruct H as [|s l (_ & Hs & _) _]; [done|]. by destruct s, l. }
  rewrite split_join; [by apply trimmed_names_id|done|]. eapply List.Forall_impl; [|exact H]. by intros s (_ & _ & ?).
Qed.

Lemma set_of_Forall (P : str -> Prop) l : Forall P l -> Forall P (set_of l).
Proof. rewrite !List.Forall_forall. intros H x Hx. apply H. rewrite <- list_elem_of_In in Hx |- *. by rewrite <- elem_of_set_of. Qed.

(** Reading the models that were written gives the names, each once. *)
Lemma parse_format l : Forall (fun x => no_comma (trim x)) l -> parseModelsString (formatModelsArray l) = set_of (trimmed_names l).
Proof. intros H. by apply parse_join, set_of_Forall, trimmed_names_good. Qed.

Lemma normalize_names l : normalize_texts l = set_of (trimmed_names l).
Proof.
  unfold normalize_texts, normalizeModelList, trimmed_names. f_equal. f_equal. rewrite map_map. apply map_ext. intros s.
  unfold model_text. cbn [truthy to_string]. by destruct s.
Qed.

Lemma elem_ignored origin next ignored name :
  name ∈ syncManualModelSelectionWithIgnoredList origin next ignored <->
  (named ignored name \/ named origin name) /\ ~ named next name.
Proof.
  unfold syncManualModelSelectionWithIgnoredList. rewrite elem_filter, negb_true_iff, bool_decide_eq_false, elem_of_set_of, elem_of_app.
  by rewrite !normalize_names, !elem_of_set_of, !named_trimmed.
Qed.

Lemma elem_trimmed_names_good l name : Forall model_name l -> named l name <-> name ∈ l.
Proof. intros H. by rewrite <- named_trimmed, trimmed_names_id. Qed.

(** What a selection leaves in the form. *)
Lemma selection_fields initial form next :
  Forall model_name initial -> Forall (fun x => no_comma (trim x)) next ->
  let form' := applyModelSelection initial form next in
  parseModelsString (mf_models form') = set_of (trimmed_names next) /\
  forall name, name ∈ parseModelsString (mf_ignored form') <->
    (name ∈ parseModelsString (mf_ignored form) \/ name ∈ initial) /\ name ∉ trimmed_names next.
Proof.
  intros Hi Hn form'. split; [by apply parse_format|]. intros name. unfold form', applyModelSelection. cbn [mf_ignored].
  rewrite (parse_format next Hn).
  assert (Forall model_name (set_of (trimmed_names next))) as Hg by (by apply set_of_Forall, trimmed_names_good).
  rewrite parse_join.
  - rewrite elem_ignored, !elem_trimmed_names_good by (done || apply parse_good). by rewrite elem_of_set_of.
  - apply List.Forall_forall. intros s Hs. apply list_elem_of_In, elem_ignored in Hs as [Hs _].
    rewrite !elem_trimmed_names_good in Hs by (done || apply parse_good). pose proof (parse_good (mf_ignored form)) as Hp.
    rewrite List.Forall_forall in Hp, Hi. rewrite !list_elem_of_In in Hs. destruct Hs; auto.
Qed.

(** ** Submitting *)

Lemma elem_missing mapping models name :
  name ∈ findMissingModelsInMapping mapping models <->
  nonempty mapping = true /\ nonempty (trim mapping) = true /\
  exists parsed, parse_object mapping = Some parsed /\ name ∈ trimmed_names (map fst (own_entries parsed)) /\ name ∉ map trim models.
Proof.
  unfold findMissingModelsInMapping. destruct (nonempty mapping); cbn [negb orb]; [|pose proof (not_elem_of_nil name); naive_solver].
  destruct (nonempty (trim mapping)); cbn [negb]; [|pose proof (not_elem_of_nil name); naive_solver].
  destruct (parse_object mapping) as [parsed|]; [|pose proof (not_elem_of_nil name); naive_solver].
  rewrite elem_of_set_of, elem_filter, andb_true_iff, negb_true_iff, bool_decide_eq_false, elem_of_set_of.
  unfold trimmed_names. setoid_rewrite elem_filter. change normalizeModelName with trim. naive_solver.
Qed.

(** Adding the missing models leaves none missing. *)
Lemma missing_added mapping models models' :
  (forall name, name ∈ models -> trim name = name) ->
  (forall name, name ∈ models \/ name ∈ findMissingModelsInMapping mapping models -> name ∈ models') ->
  findMissingModelsInMapping mapping models' = [].
Proof.
  intros Ht Hall. destruct (findMissingModelsInMapping mapping models') as [|name l] eqn:E; [done|]. exfalso.
  assert (name ∈ findMissingModelsInMapping mapping models') as Hin by (rewrite E; by left).
  apply elem_missing in Hin as (H1 & H2 & parsed & Hp & Hn & Hni). apply Hni.
  assert (trim name = name) as Et.
  { apply elem_filter in Hn as [Hn _]. apply list_elem_of_In, in_map_iff in Hn as (x & <- & _). apply trim_trim. }
  rewrite <- Et. apply (list_elem_of_fmap_2 trim). apply Hall. destruct (decide (name ∈ models)) as [|Hm]; [by left|]. right.
  apply elem_missing. split; [done|]. split; [done|]. exists parsed. split; [done|]. split; [done|].
  intros Hi. apply list_elem_of_In, in_map_iff in Hi as (x & Ex & Hx). apply list_elem_of_In in Hx. apply Hm.
  by rewrite <- Ex, (Ht x Hx).
Qed.

(** What the second half of the handler has checked. *)
Lemma submit_models_sent state data sent : submit_models state data = SO_sent sent ->
  let mapping := given_text (fd_model_mapping data) in
  let models := parseModelsString (mf_models (fd_fields data)) in
  let missing := findMissingModelsInMapping mapping models in
  validateModelMappingJson mapping = None /\
  ((sent = data /\ (missing = [] \/ hasModelConfigChanged models mapping (initialModels state) (initialModelMapping state) = false
                    \/ confirmMissingModelMappings state missing = MA_submit)) \/
   (confirmMissingModelMappings state missing = MA_add /\ missing <> [] /\
    sent = with_fields data (applyModelSelection (initialModels state) (fd_fields data) (set_of (models ++ missing))))).
Proof.
  unfold submit_models. set (mapping := given_text (fd_model_mapping data)).
  set (models := parseModelsString (mf_models (fd_fields data))). intros Hs. cbv zeta.
  destruct (nonempty (trim mapping)) eqn:Em; cbn [negb] in Hs.
  2: { split; [unfold validateModelMappingJson; by rewrite Em, orb_true_r|]. left. split; [congruence|]. left.
       unfold findMissingModelsInMapping. by rewrite Em, orb_true_r. }
  destruct (validateModelMappingJson mapping); [done|]. split; [done|].
  set (missing := findMissingModelsInMapping mapping models) in *. destruct missing as [|n ns] eqn:E; cbn [length Nat.ltb Nat.leb andb] in Hs.
  { left. split; [congruence|by left]. }
  destruct (hasModelConfigChanged _ _ _ _) eqn:Eh; [|left; split; [congruence|auto]].
  destruct (confirmMissingModelMappings state (n :: ns)) eqn:Ec; [done| |].
  - left. split; [congruence|auto].
  - right. split; [done|]. split; [done|]. congruence.
Qed.

Lemma set_of_id (l : list str) : NoDup l -> set_of l = l.
Proof.
  induction l as [|x l IH] using rev_ind; intros Hnd; [done|]. apply list.NoDup_app in Hnd as (Hl & Hx & _).
  rewrite set_of_snoc, IH by done. unfold set_add. rewrite bool_decide_eq_false_2; [done|]. intros Hin. apply (Hx x Hin). by left.
Qed.

Lemma missing_names mapping models : Forall no_comma (findMissingModelsInMapping mapping models) ->
  Forall model_name (findMissingModelsInMapping mapping models).
Proof.
  rewrite !List.Forall_forall. intros Hc name Hin. pose proof (Hc name Hin) as Hn. apply list_elem_of_In, elem_missing in Hin.
  destruct Hin as (_ & _ & parsed & _ & Hin & _). apply elem_filter in Hin as [Hin Hne].
  apply list_elem_of_In, in_map_iff in Hin as (x & <- & _). split; [apply trim_trim|]. split; [by apply nonempty_ne|done].
Qed.

(** The models of the channel after the missing ones were added. *)
Lemma added_models initial form mapping :
  let models := parseModelsString (mf_models form) in
  let missing := findMissingModelsInMapping mapping models in
  Forall model_name initial -> Forall no_comma missing ->
  let form' := applyModelSelection initial form (set_of (models ++ missing)) in
  parseModelsString (mf_models form') = set_of (models ++ missing) /\
  findMissingModelsInMapping mapping (parseModelsString (mf_models form')) = [] /\
  forall name, name ∈ parseModelsString (mf_ignored form') <->
    (name ∈ parseModelsString (mf_ignored form) \/ name ∈ initial) /\ (name ∉ models) /\ (name ∉ missing).
Proof.
  intros models missing Hi Hc form'.
  assert (Forall model_name (set_of (models ++ missing))) as Hg
    by (apply set_of_Forall, List.Forall_app; split; [apply parse_good|by apply missing_names]).
  destruct (selection_fields initial form (set_of (models ++ missing)) Hi) as [Hm Hign].
  { eapply List.Forall_impl; [|exact Hg]. intros s (Ht & _ & ?). by rewrite Ht. }
  rewrite trimmed_names_id in Hm, Hign by done. rewrite (set_of_id _ (set_of_NoDup _)) in Hm. change (mf_models form') with
    (mf_models (applyModelSelection initial form (set_of (models ++ missing)))). rewrite Hm. split; [done|]. split.
  - apply (missing_added mapping models).
    + intros name Hin. pose proof (parse_good (mf_models form)) as Hp. rewrite List.Forall_forall in Hp. by apply Hp, list_elem_of_In.
    + intros name Hin. by apply elem_of_set_of, elem_of_app.
  - intros name. unfold form'. rewrite Hign, elem_of_set_of, elem_of_app. tauto.
Qed.

(** C20: A form that is sent has passed every check, and is the form that was filled in but
    for the models the user agreed to add.  A new channel has a provider, the right to set
    it up and a key; no sensitive field was changed behind a lock; every status code entry
    can be read, and every new redirect of a code that must not be redirected was
    confirmed; the model mapping is an object of texts.  The models it maps from are among
    the channel's, or the configuration did not change, or the user sent the form without
    them; or the user had them added: then the models are the old ones followed by the
    missing ones, none is missing, and the ignored models are exactly the ignored and the
    initial ones that are not selected, when no missing name has a comma in it. *)
Theorem sent_forms_have_passed_the_checks state data sent initialText :
  initialModels state = parseModelsString initialText -> onSubmit state data = SO_sent sent ->
  let mapping := given_text (fd_model_mapping data) in
  let codes := given_text (fd_status_code_mapping data) in
  let models := parseModelsString (mf_models (fd_fields data)) in
  let missing := findMissingModelsInMapping mapping models in
  let risky := collectNewDisallowedStatusCodeRedirects (initialStatusCodeMapping state) codes in
  (if dr_isEditing state then dr_loaded state = true
   else dr_providerTarget state = true /\ dr_canEditSensitive state = true /\ trim (given_text (fd_key data)) <> []) /\
  (dr_sensitiveLocked state = true -> Forall (fun field => dr_dirtyFields state field = false) SENSITIVE_FORM_FIELDS) /\
  collectInvalidStatusCodeEntries codes = [] /\ (risky = [] \/ confirmStatusCodeRisk state risky = true) /\
  validateModelMappingJson mapping = None /\
  ((sent = data /\ (missing = [] \/ hasModelConfigChanged models mapping (initialModels state) (initialModelMapping state) = false
                    \/ confirmMissingModelMappings state missing = MA_submit)) \/
   (confirmMissingModelMappings state missing = MA_add /\
    (fd_key sent, fd_status_code_mapping sent, fd_model_mapping sent) = (fd_key data, fd_status_code_mapping data, fd_model_mapping data) /\
    (Forall no_comma missing ->
       parseModelsString (mf_models (fd_fields sent)) = set_of (models ++ missing) /\
       findMissingModelsInMapping mapping (parseModelsString (mf_models (fd_fields sent))) = [] /\
       forall name, name ∈ parseModelsString (mf_ignored (fd_fields sent)) <->
         (name ∈ parseModelsString (mf_ignored (fd_fields data)) \/ name ∈ initialModels state) /\
         (name ∉ models) /\ (name ∉ missing)))).
Proof.
  intros Hi Hs mapping codes models missing risky. unfold onSubmit in Hs.
  destruct (dr_isEditing state && negb (dr_loaded state)) eqn:E1; [done|].
  destruct (negb (dr_isEditing state) && _) eqn:E2; [done|].
  destruct (negb (dr_isEditing state) && _) eqn:E3 in Hs; [done|].
  destruct (dr_sensitiveLocked state && _) eqn:E4; [done|]. fold codes in Hs.
  assert (collectInvalidStatusCodeEntries codes = [] /\ (risky = [] \/ confirmStatusCodeRisk state risky = true) /\
          submit_models state data = SO_sent sent) as (Hc & Hr & Hm).
  { destruct (nonempty (trim codes)) eqn:Ec; cbn [negb] in Hs.
    - destruct (collectInvalidStatusCodeEntries codes); [|done]. split; [done|]. fold risky in Hs.
      destruct risky as [|r rs]; [by auto|]. destruct (confirmStatusCodeRisk state (r :: rs)); [by auto|done].
    - assert (code_entries codes = []) as Hce by (unfold code_entries; by rewrite Ec). unfold risky.
      unfold collectNewDisallowedStatusCodeRedirects, collectDisallowedStatusCodeRedirects, collectInvalidStatusCodeEntries.
      rewrite Hce. split; [done|]. split; [by left|done]. }
  destruct (submit_models_sent _ _ _ Hm) as [Hv Hcases]. split; [|split; [|split; [done|split; [done|split; [done|]]]]].
  - destruct (dr_isEditing state); cbn [negb andb] in *; [by destruct (dr_loaded state)|].
    destruct (dr_providerTarget state), (dr_canEditSensitive state); try done. split; [done|]. split; [done|].
    apply nonempty_ne. by apply negb_false_iff.
  - intros El. rewrite El in E4. cbn [andb] in E4. apply List.Forall_forall. intros f Hf. apply not_true_iff_false. intros Ed.
    enough (existsb (dr_dirtyFields state) SENSITIVE_FORM_FIELDS = true) by congruence. apply existsb_exists. by exists f.
  - destruct Hcases as [Hcases|(Ha & _ & ->)]; [by left|right]. split; [done|]. split; [done|]. intros Hnc.
    apply (added_models (initialModels state) (fd_fields data) mapping); [|done]. rewrite Hi. apply parse_good.
Qed.

(** ** Examples *)

Lemma selection_is_a_set_of_names_witness :
  hasNormalizedModel (toggleNormalizedModel [u " gpt-4 "; u "o3"] (u "gpt-4")) (u "gpt-4") = false /\
  isNormalizedCategorySelected (applyNormalizedCategorySelection [u "o3"] [u "gpt-4"; u " o3"] true) [u "gpt-4"; u " o3"] = true.
Proof.
  pose proof (selection_is_a_set_of_names [u " gpt-4 "; u "o3"] [u "gpt-4"; u " o3"] (u "gpt-4") (u "gpt-4")) as T.
  pose proof (selection_is_a_set_of_names [u "o3"] [u "gpt-4"; u " o3"] (u "gpt-4") (u "gpt-4")) as S.
  assert (u "gpt-4" <> []) as H1 by (vm_compute; discriminate). assert (trim (u "gpt-4") = u "gpt-4") as H2 by (vm_compute; reflexivity).
  destruct (T H1 H2) as [-> _]. destruct (S H1 H2) as (_ & _ & _ & -> & _). split; vm_compute; reflexivity.
Defined.

Definition sample_drawer (answer : MissingModelsAction) : DrawerState := {|
  dr_isEditing := true; dr_loaded := true; dr_providerTarget := true; dr_canEditSensitive := false; dr_sensitiveLocked := true;
  dr_dirtyFields := fun field => str_eqb field (u "models"); initialModels := parseModelsString (u "gpt-4,o3");
  initialModelMapping := []; initialStatusCodeMapping := uq "{'504': 500}";
  confirmStatusCodeRisk := fun risky => bool_decide (risky = [u "524 -> 502"]);
  confirmMissingModelMappings := fun _ => answer |}.
Definition sample_form (mapping : string) : ChannelFormData := {|
  fd_key := None; fd_status_code_mapping := Some (uq "{'524': '502', '504': 500, '400': 401}");
  fd_model_mapping := Some (uq mapping); fd_fields := {| mf_models := u "gpt-4, gpt-4"; mf_ignored := u "mini" |} |}.
Definition sent_fields (outcome : SubmitOutcome) : option ModelFields :=
  match outcome with SO_sent data => Some (fd_fields data) | _ => None end.

Example submit_adds_the_missing_models :
  sent_fields (onSubmit (sample_drawer MA_add) (sample_form "{'mini': 'gpt-4o-mini'}")) =
  Some {| mf_models := u "gpt-4,mini"; mf_ignored := u "o3" |}.
Proof. vm_compute. reflexivity. Qed.

Lemma sent_forms_have_passed_the_checks_witness : exists sent,
  onSubmit (sample_drawer MA_add) (sample_form "{'mini': 'gpt-4o-mini'}") = SO_sent sent /\
  findMissingModelsInMapping (uq "{'mini': 'gpt-4o-mini'}") (parseModelsString (mf_models (fd_fields sent))) = [].
Proof.
  destruct (onSubmit (sample_drawer MA_add) (sample_form "{'mini': 'gpt-4o-mini'}")) as [| | |sent] eqn:E;
    [vm_compute in E; discriminate..|].
  exists sent. split; [reflexivity|].
  destruct (sent_forms_have_passed_the_checks (sample_drawer MA_add) (sample_form "{'mini': 'gpt-4o-mini'}") sent (u "gpt-4,o3")
    ltac:(reflexivity) E) as (_ & _ & _ & _ & _ & [[_ Hc]|(_ & _ & Hm)]).
  - exfalso. destruct Hc as [Hc|[Hc|Hc]]; vm_compute in Hc; discriminate.
  - apply Hm. match goal with |- Forall _ ?names => replace names with [u "mini"] by (vm_compute; reflexivity) end.
    repeat constructor; vm_compute; discriminate.
Defined.

(** A mapped name with a comma in it stays missing: the models are sent as a text divided
    by commas. *)
Example comma_names_stay_missing :
  let mapping := uq "{'gpt,4': 'x'}" in
  match sent_fields (onSubmit (sample_drawer MA_add) (sample_form "{'gpt,4': 'x'}")) with
  | Some fields => (mf_models fields, findMissingModelsInMapping mapping (parseModelsString (mf_models fields))) =
                     (u "gpt-4,gpt,4", [u "gpt,4"])
  | None => False
  end.
Proof. vm_compute. reflexivity. Qed.
