(* ===== verification/RouteText.v ===== *)
(** * The text of a custom channel's routes

    [parseAdvancedCustomConfig], [stringifyAdvancedCustomConfig] and [getAdvancedCustomStats]
    of [features/channels/lib/advanced-custom.ts].  A text can hold anything, so the normal
    form of what was parsed is a function on JSON values; on the values of typed
    configurations it is the normal form of AdvancedCustom. *)

From Stdlib Require Import String.
From S2P Require Import Prelude JsNumber JsArray JsString JsText Ast Request Json JsonFacts JsonText.
From S2P Require Import TaskExpr PricingModel AdvancedCustom RouteFacts ModelMapping MappingFacts.

#[local] Open Scope nat_scope.

(** ** The normal form of a parsed value; [None]: it throws *)

(** [v || fallback] *)
Definition value_or (v : value) (fallback : str) : value := if truthy v then v else VString fallback.

(** [(route.upstream_path || '').trim()] *)
Definition trimmed_value (v : value) : option value :=
  match value_or v [] with VString s => Some (VString (trim s)) | _ => None end.

Definition normalize_models_value (models : value) : option (list str) :=
  match models with
  | VArray items => trimmed ← map_option (fun m => trim <$> as_string m) items; Some (List.filter nonempty trimmed)
  | _ => Some []
  end.

(** Absent fields are left out. *)
Definition some_field (name : string) (o : option value) : list (str * value) :=
  match o with Some v => [(u name, v)] | None => [] end.
Definition defined (v : value) : option value := match v with VUndefined => None | _ => Some v end.

Definition normalize_auth_value (auth : value) : value :=
  VObject (some_field "type" (defined (field auth "type")) ++
           [(u "name", value_or (field auth "name") []); (u "value", value_or (field auth "value") [])]).

Definition normalize_route_value (route : value) : option value :=
  if nullish route then None
  else
    upstream ← trimmed_value (field route "upstream_path");
    models ← normalize_models_value (field route "models");
    let auth := field route "auth" in
    Some (VObject ([(u "incoming_path", value_or (field route "incoming_path") []);
                    (u "upstream_path", upstream);
                    (u "converter", value_or (field route "converter") (u "none"))] ++
      (match models with [] => [] | _ => [(u "models", VArray (map VString models))] end) ++
      (match field route "pass_through_body_enabled" with
       | VBoolean true => [(u "pass_through_body_enabled", VBoolean true)] | _ => [] end) ++
      (if truthy auth then [(u "auth", normalize_auth_value auth)] else []))).

Definition normalize_config_value (config : value) : option value :=
  routes ← match field config "advanced_routes" with
           | VArray routes => map_option normalize_route_value routes
           | _ => Some []
           end;
  Some (VObject [(u "advanced_routes", VArray routes)]).

Definition parseAdvancedCustomConfig (text : option str) : option value :=
  let text := default [] text in
  if negb (nonempty (trim text)) then None
  else match json_parse text with
       | Some (VObject fields) => normalize_config_value (VObject fields)
       | _ => None
       end.

(** ** Typed configurations as values *)

Definition text_value (o : option str) : option value := VString <$> o.
Definition auth_value (auth : AdvancedCustomRouteAuth) : value :=
  VObject (some_field "type" (text_value (au_type auth)) ++ some_field "name" (text_value (au_name auth)) ++
           some_field "value" (text_value (au_value auth))).
Definition route_value (route : AdvancedCustomRoute) : value :=
  VObject (some_field "incoming_path" (text_value (rt_incoming_path route)) ++
           some_field "upstream_path" (text_value (rt_upstream_path route)) ++
           some_field "converter" (text_value (rt_converter route)) ++
           some_field "models" ((fun models => VArray (map VString models)) <$> rt_models route) ++
           some_field "pass_through_body_enabled" (VBoolean <$> rt_pass_through_body_enabled route) ++
           some_field "auth" (auth_value <$> rt_auth route)).
Definition config_value (config : AdvancedCustomConfig) : value :=
  VObject (some_field "advanced_routes" ((fun routes => VArray (map route_value routes)) <$> advanced_routes config)).

Definition stringifyAdvancedCustomConfig (config : AdvancedCustomConfig) : str :=
  stringify_indented 0 (config_value (normalizeAdvancedCustomConfig config)).

(** The typed configuration of a value; [None]: a field has another type. *)
Definition typed_field {A} (read : value -> option A) (v : value) : option (option A) :=
  match v with VUndefined => Some None | _ => x ← read v; Some (Some x) end.
Definition typed_auth (v : value) : option AdvancedCustomRouteAuth :=
  match v with
  | VObject _ =>
      type_ ← typed_field as_string (field v "type");
      name ← typed_field as_string (field v "name");
      value_ ← typed_field as_string (field v "value");
      Some {| au_type := type_; au_name := name; au_value := value_ |}
  | _ => None
  end.
Definition typed_list {A} (read : value -> option A) (v : value) : option (list A) :=
  match v with VArray items => map_option read items | _ => None end.
Definition typed_route (v : value) : option AdvancedCustomRoute :=
  match v with
  | VObject _ =>
      incoming_path ← typed_field as_string (field v "incoming_path");
      upstream_path ← typed_field as_string (field v "upstream_path");
      converter ← typed_field as_string (field v "converter");
      models ← typed_field (typed_list as_string) (field v "models");
      auth ← typed_field typed_auth (field v "auth");
      pass ← typed_field as_boolean (field v "pass_through_body_enabled");
      Some {| rt_incoming_path := incoming_path; rt_upstream_path := upstream_path; rt_converter := converter;
              rt_models := models; rt_auth := auth; rt_pass_through_body_enabled := pass |}
  | _ => None
  end.
Definition typed_config (v : value) : option AdvancedCustomConfig :=
  match v with
  | VObject _ => routes ← typed_field (typed_list typed_route) (field v "advanced_routes"); Some {| advanced_routes := routes |}
  | _ => None
  end.

(** ** Statistics *)

Record AdvancedCustomStats : Type := { st_routeCount : nat; st_valid : bool; st_routeTypeLabels : list str }.

(** [None]: the configuration in the text is not of its type. *)
Definition getAdvancedCustomStats (URL : str -> option (str * str)) (text : option str) : option AdvancedCustomStats :=
  match parseAdvancedCustomConfig text with
  | None => Some {| st_routeCount := 0; st_valid := false; st_routeTypeLabels := [] |}
  | Some parsed =>
      config ← typed_config parsed;
      let normalized := normalizeAdvancedCustomConfig config in
      let routes := normalized_routes config in
      Some {| st_routeCount := length routes;
              st_valid := match validateAdvancedCustomConfig URL (Some normalized) with None => true | Some _ => false end;
              st_routeTypeLabels :=
                fold_left (fun labels route =>
                  match getAdvancedCustomRouteSummaryLabel route with
                  | Some label => if negb (nonempty label) || bool_decide (label ∈ labels) then labels else labels ++ [label]
                  | None => labels
                  end) routes [] |}
  end.

(** ** The value of a configuration *)

Definition given (o : option value) : value := default VUndefined o.

Lemma route_fields r :
  field (route_value r) "incoming_path" = given (text_value (rt_incoming_path r)) /\
  field (route_value r) "upstream_path" = given (text_value (rt_upstream_path r)) /\
  field (route_value r) "converter" = given (text_value (rt_converter r)) /\
  field (route_value r) "models" = given ((fun models => VArray (map VString models)) <$> rt_models r) /\
  field (route_value r) "pass_through_body_enabled" = given (VBoolean <$> rt_pass_through_body_enabled r) /\
  field (route_value r) "auth" = given (auth_value <$> rt_auth r).
Proof. destruct r as [[] [] [] [] [] []]; split_and!; reflexivity. Qed.
Lemma auth_fields a :
  field (auth_value a) "type" = given (text_value (au_type a)) /\ field (auth_value a) "name" = given (text_value (au_name a)) /\
  field (auth_value a) "value" = given (text_value (au_value a)).
Proof. destruct a as [[] [] []]; split_and!; reflexivity. Qed.

Lemma value_or_text o fallback : value_or (given (text_value o)) fallback = VString (or_else o fallback).
Proof. by destruct o as [[|c s]|]. Qed.
Lemma trimmed_value_text o : trimmed_value (given (text_value o)) = Some (VString (trim (or_else o []))).
Proof. unfold trimmed_value. by rewrite value_or_text. Qed.
Lemma defined_text o : defined (given (text_value o)) = text_value o.
Proof. by destruct o. Qed.

Lemma map_option_map {A B C} (f : B -> option C) (g : A -> B) (h : A -> C) l : (forall x, x ∈ l -> f (g x) = Some (h x)) ->
  map_option f (map g l) = Some (map h l).
Proof.
  induction l as [|x l IH]; intros H; [done|]. cbn [map map_option]. rewrite H by (by left). cbn [mbind option_bind].
  rewrite IH; [done|]. intros y Hy. apply H. by right.
Qed.

Lemma models_value o : normalize_models_value (given ((fun models => VArray (map VString models)) <$> o)) =
  Some (normalizeAdvancedCustomRouteModels o).
Proof.
  destruct o as [models|]; [|done]. change (given _) with (VArray (map VString models)). unfold normalize_models_value.
  by rewrite (map_option_map _ VString trim).
Qed.

Lemma auth_value_normal a : normalize_auth_value (auth_value a) =
  auth_value {| au_type := au_type a; au_name := Some (or_else (au_name a) []); au_value := Some (or_else (au_value a) []) |}.
Proof.
  unfold normalize_auth_value. destruct (auth_fields a) as (-> & -> & ->). rewrite !value_or_text, defined_text. reflexivity.
Qed.

(** On typed values the normal form of a parsed route is that of the route. *)
Lemma route_value_normal r : normalize_route_value (route_value r) = Some (route_value (normalizeAdvancedCustomRoute r)).
Proof.
  unfold normalize_route_value. change (nullish (route_value r)) with false. cbv iota.
  destruct (route_fields r) as (-> & -> & -> & -> & -> & ->). rewrite trimmed_value_text. cbn [mbind option_bind].
  rewrite models_value. cbn [mbind option_bind]. rewrite !value_or_text. unfold normalizeAdvancedCustomRoute.
  cbv zeta. unfold route_value at 1. cbn [rt_incoming_path rt_upstream_path rt_converter rt_models rt_auth rt_pass_through_body_enabled].
  f_equal. f_equal. unfold getAdvancedCustomRouteUpstreamPath. cbn [text_value fmap option_fmap option_map some_field app].
  do 3 f_equal. f_equal; [by destruct (normalizeAdvancedCustomRouteModels _)|]. f_equal.
  - by destruct (rt_pass_through_body_enabled r) as [[]|].
  - destruct (rt_auth r) as [a|]; [|done]. change (given (auth_value <$> Some a)) with (auth_value a). change (truthy (auth_value a)) with true.
    cbv iota. by rewrite auth_value_normal.
Qed.

Lemma config_value_normal c : normalize_config_value (config_value c) = Some (config_value (normalizeAdvancedCustomConfig c)).
Proof.
  destruct c as [[routes|]]; [|reflexivity]. unfold normalize_config_value.
  change (field (config_value _) "advanced_routes") with (VArray (map route_value routes)). cbv iota.
  rewrite (map_option_map _ route_value (fun r => route_value (normalizeAdvancedCustomRoute r))) by (intros; apply route_value_normal).
  cbn [mbind option_bind]. unfold normalizeAdvancedCustomConfig, normalized_routes, config_value. cbn. by rewrite map_map.
Qed.

Lemma or_else_idem o fallback : or_else (Some (or_else o fallback)) fallback = or_else o fallback.
Proof. destruct o as [[|c s]|]; cbn; try done; by destruct fallback. Qed.

Lemma trimmed_names_idem l : trimmed_names (trimmed_names l) = trimmed_names l.
Proof.
  unfold trimmed_names. induction l as [|m l IH]; [done|]. cbn [map List.filter]. destruct (nonempty (trim m)) eqn:E; [|done].
  cbn [map List.filter]. by rewrite trim_trim, E, IH.
Qed.
Lemma normal_models_idem o : normalizeAdvancedCustomRouteModels (Some (normalizeAdvancedCustomRouteModels o)) = normalizeAdvancedCustomRouteModels o.
Proof. apply (trimmed_names_idem (default [] o)). Qed.

Lemma route_normal_idem r : normalizeAdvancedCustomRoute (normalizeAdvancedCustomRoute r) = normalizeAdvancedCustomRoute r.
Proof.
  unfold normalizeAdvancedCustomRoute at 1. cbv zeta.
  cbn [normalizeAdvancedCustomRoute rt_incoming_path rt_upstream_path rt_converter rt_models rt_auth rt_pass_through_body_enabled].
  unfold getAdvancedCustomRouteUpstreamPath at 1. cbn [normalizeAdvancedCustomRoute rt_upstream_path].
  rewrite !or_else_idem. unfold normalizeAdvancedCustomRoute. f_equal.
  - unfold getAdvancedCustomRouteUpstreamPath. f_equal. assert (forall s, or_else (Some s) [] = s) as -> by (by intros []). apply trim_trim.
  - destruct (normalizeAdvancedCustomRouteModels (rt_models r)) as [|m l] eqn:E; [done|].
    by rewrite <- E, normal_models_idem, E.
  - destruct (rt_auth r) as [a|]; [|done]. cbn [fmap option_fmap option_map au_type au_name au_value]. by rewrite !or_else_idem.
  - by destruct (rt_pass_through_body_enabled r) as [[]|].
Qed.

Lemma config_normal_idem c : normalizeAdvancedCustomConfig (normalizeAdvancedCustomConfig c) = normalizeAdvancedCustomConfig c.
Proof.
  unfold normalizeAdvancedCustomConfig at 1. f_equal. f_equal.
  change (normalized_routes (normalizeAdvancedCustomConfig c)) with (map normalizeAdvancedCustomRoute (normalized_routes c)).
  unfold normalizeAdvancedCustomConfig, normalized_routes. rewrite map_map. do 2 f_equal. apply map_ext. apply route_normal_idem.
Qed.

(** ** Typed values are read back *)

Lemma typed_text o : typed_field as_string (given (text_value o)) = Some o.
Proof. by destruct o. Qed.

Lemma typed_auth_value a : typed_auth (auth_value a) = Some a.
Proof.
  unfold typed_auth. change (auth_value a) with (VObject (some_field "type" (text_value (au_type a)) ++
    some_field "name" (text_value (au_name a)) ++ some_field "value" (text_value (au_value a)))) at 1. cbv iota.
  destruct (auth_fields a) as (-> & -> & ->). rewrite !typed_text. by destruct a.
Qed.

Lemma typed_route_value r : typed_route (route_value r) = Some r.
Proof.
  assert (exists fields, route_value r = VObject fields) as [fields Ef] by (eexists; reflexivity).
  unfold typed_route. rewrite Ef. cbv iota. rewrite <- Ef. destruct (route_fields r) as (-> & -> & -> & -> & -> & ->).
  rewrite !typed_text. cbn [mbind option_bind].
  assert (typed_field (typed_list as_string) (given ((fun models => VArray (map VString models)) <$> rt_models r)) = Some (rt_models r)) as ->.
  { destruct (rt_models r) as [models|]; [|done]. change (given _) with (VArray (map VString models)).
    unfold typed_field, typed_list. by rewrite (map_option_map _ VString id), map_id. }
  assert (typed_field typed_auth (given (auth_value <$> rt_auth r)) = Some (rt_auth r)) as ->.
  { destruct (rt_auth r) as [a|]; [|done]. change (given _) with (auth_value a). unfold typed_field.
    by rewrite typed_auth_value. }
  assert (typed_field as_boolean (given (VBoolean <$> rt_pass_through_body_enabled r)) = Some (rt_pass_through_body_enabled r)) as ->
    by (by destruct (rt_pass_through_body_enabled r)).
  by destruct r.
Qed.

Lemma typed_config_value c : typed_config (config_value c) = Some c.
Proof.
  destruct c as [[routes|]]; [|reflexivity]. unfold typed_config, config_value. cbn [advanced_routes fmap option_fmap option_map some_field].
  cbv iota. change (field _ "advanced_routes") with (VArray (map route_value routes)). unfold typed_field, typed_list.
  rewrite (map_option_map _ route_value id) by (intros; apply typed_route_value). by rewrite map_id.
Qed.

(** ** The text *)

Definition text_units (o : option str) : Prop := Forall code_unit (default [] o).
Definition auth_units (a : AdvancedCustomRouteAuth) : Prop :=
  text_units (au_type a) /\ text_units (au_name a) /\ text_units (au_value a).
Definition route_units (r : AdvancedCustomRoute) : Prop :=
  text_units (rt_incoming_path r) /\ text_units (rt_upstream_path r) /\ text_units (rt_converter r) /\
  Forall (Forall code_unit) (default [] (rt_models r)) /\ (forall a, rt_auth r = Some a -> auth_units a).
(** The texts of a configuration consist of code units. *)
Definition config_units (c : AdvancedCustomConfig) : Prop := Forall route_units (default [] (advanced_routes c)).

(** The text of a string literal. *)
Lemma literal_units name : Forall code_unit (u name).
Proof.
  unfold u. induction (list_ascii_of_string name) as [|a l IH]; [constructor|]. constructor; [|exact IH].
  unfold code_unit. pose proof (Ascii.N_ascii_bounded a). lia.
Qed.

Lemma some_field_ok name o : (forall v, o = Some v -> json_ok v) -> Forall field_ok (some_field name o).
Proof. intros Ho. destruct o as [v|]; [|constructor]. constructor; [|constructor]. split; [apply literal_units|]. by apply Ho. Qed.
Lemma text_value_ok o : text_units o -> forall v, text_value o = Some v -> json_ok v.
Proof. intros Ho v Hv. destruct o as [s|]; [|done]. by injection Hv as <-. Qed.

Lemma some_field_keys name o rest names : sublist rest.*1 names -> sublist (some_field name o ++ rest).*1 (u name :: names).
Proof. intros H. destruct o; cbn [some_field app fmap list_fmap fst]; [by apply sublist_skip|by apply sublist_cons]. Qed.
Lemma last_field_keys name o : sublist (some_field name o).*1 [u name].
Proof. rewrite <- (app_nil_r (some_field name o)). by apply some_field_keys. Qed.

(** The keys of a value are among names that differ. *)
Ltac distinct_keys :=
  eapply sublist_NoDup; [|repeat first [apply last_field_keys | apply some_field_keys]];
  apply (bool_decide_unpack _); vm_compute; exact I.

Lemma auth_value_ok a : auth_units a -> json_ok (auth_value a).
Proof.
  intros (Ht & Hn & Hv). apply json_ok_fields. split.
  - distinct_keys.
  - rewrite !List.Forall_app. split_and!; (apply some_field_ok; by apply text_value_ok).
Qed.

Lemma texts_ok l : Forall (Forall code_unit) l -> json_ok (VArray (map VString l)).
Proof. cbn [json_ok]. induction 1 as [|s l Hs _ IH]; [exact I|]. split; [exact Hs|exact IH]. Qed.

Lemma route_value_ok r : route_units r -> json_ok (route_value r).
Proof.
  intros (Hi & Hu & Hc & Hm & Ha). apply json_ok_fields. split.
  - distinct_keys.
  - rewrite !List.Forall_app. split_and!; apply some_field_ok.
    + exact (text_value_ok _ Hi).
    + exact (text_value_ok _ Hu).
    + exact (text_value_ok _ Hc).
    + intros v Hv. destruct (rt_models r) as [l|]; [|done]. injection Hv as <-. by apply texts_ok.
    + intros v Hv. destruct (rt_pass_through_body_enabled r); [|done]. by injection Hv as <-.
    + intros v Hv. destruct (rt_auth r) as [a|]; [|done]. injection Hv as <-. by apply auth_value_ok, Ha.
Qed.

Lemma config_value_ok c : config_units c -> json_ok (config_value c).
Proof.
  intros Hc. apply json_ok_fields. destruct c as [[routes|]]; cbn [config_value some_field fmap option_fmap option_map advanced_routes].
  - split; [apply list.NoDup_singleton|]. constructor; [|constructor]. split; [apply literal_units|]. change (Forall route_units routes) in Hc. cbn [fst snd json_ok].
    induction Hc as [|r l Hr _ IH]; [exact I|]. split; [by apply route_value_ok|exact IH].
  - split; [apply NoDup_nil_2|constructor].
Qed.

Lemma trim_units s : Forall code_unit s -> Forall code_unit (trim s).
Proof. destruct (trim_split s) as (a & b & E & _). intros H. rewrite E in H. rewrite !List.Forall_app in H. tauto. Qed.
Lemma or_else_units o fallback : text_units o -> Forall code_unit fallback -> Forall code_unit (or_else o fallback).
Proof. by destruct o as [[|c s]|]. Qed.

Lemma normal_route_units r : route_units r -> route_units (normalizeAdvancedCustomRoute r).
Proof.
  intros (Hi & Hu & Hc & Hm & Ha). unfold route_units, normalizeAdvancedCustomRoute. cbv zeta.
  cbn [rt_incoming_path rt_upstream_path rt_converter rt_models rt_auth]. split_and!.
  - by apply or_else_units; [|constructor].
  - by apply trim_units, or_else_units; [|constructor].
  - apply or_else_units; [done|]. apply literal_units.
  - assert (Forall (Forall code_unit) (normalizeAdvancedCustomRouteModels (rt_models r))) as Hn.
    { unfold normalizeAdvancedCustomRouteModels. induction Hm as [|m l Hm _ IH]; [constructor|]. cbn [map List.filter].
      destruct (nonempty (trim m)); [constructor; [by apply trim_units|exact IH]|exact IH]. }
    by destruct (normalizeAdvancedCustomRouteModels (rt_models r)).
  - intros a Hr. destruct (rt_auth r) as [b|]; [|done]. injection Hr as <-. destruct (Ha b eq_refl) as (H1 & H2 & H3).
    split_and!; [done|by apply or_else_units; [|constructor]..].
Qed.

Lemma config_text_ends c : let text := stringifyAdvancedCustomConfig c in nonempty (trim text) = true.
Proof.
  unfold stringifyAdvancedCustomConfig, config_value, normalizeAdvancedCustomConfig.
  cbn [advanced_routes fmap option_fmap option_map some_field u].
  match goal with |- nonempty (trim (stringify_indented 0 ?v)) = true => set (w := v) end.
  cbv zeta. unfold trim. assert (exists m, stringify_indented 0 w = 123%N :: m ++ [125%N]) as [m ->].
  { subst w. cbn [stringify_indented]. unfold bracketed. eexists. rewrite !app_assoc. cbn [app]. reflexivity. }
  fold (trim (123%N :: m ++ [125%N])). rewrite (trimmed_ends (123%N :: m ++ [125%N]) 123 125); [done|done|done|]. right. by exists m.
Qed.

Definition label_step (labels : list str) (route : AdvancedCustomRoute) : list str :=
  match getAdvancedCustomRouteSummaryLabel route with
  | Some label => if negb (nonempty label) || bool_decide (label ∈ labels) then labels else labels ++ [label]
  | None => labels
  end.

Lemma label_steps routes labels : NoDup labels -> NoDup (fold_left label_step routes labels) /\
  forall label, label ∈ fold_left label_step routes labels <->
    label ∈ labels \/ (label <> [] /\ exists route, route ∈ routes /\ getAdvancedCustomRouteSummaryLabel route = Some label).
Proof.
  revert labels. induction routes as [|r routes IH]; intros labels Hnd; cbn [fold_left].
  { split; [done|]. intros label. split; [by left|]. intros [?|(_ & r & Hr & _)]; [done|by apply not_elem_of_nil in Hr]. }
  assert (NoDup (label_step labels r) /\ forall label, label ∈ label_step labels r <->
    label ∈ labels \/ (label <> [] /\ getAdvancedCustomRouteSummaryLabel r = Some label)) as [Hs He].
  { unfold label_step. destruct (getAdvancedCustomRouteSummaryLabel r) as [l|]; [|naive_solver].
    destruct (negb (nonempty l) || bool_decide (l ∈ labels)) eqn:E.
    - split; [done|]. intros label. split; [by left|]. intros [?|[Hne Hl]]; [done|]. injection Hl as ->.
      apply orb_true_iff in E as [E|E]; [by destruct label|by apply bool_decide_eq_true in E].
    - apply orb_false_iff in E as [En El]. apply bool_decide_eq_false in El. split.
      + apply list.NoDup_app. split; [done|]. split; [|apply list.NoDup_singleton]. by intros x Hx ->%list_elem_of_singleton.
      + intros label. rewrite elem_of_app, list_elem_of_singleton. split; [|naive_solver]. intros [Hl| ->]; [by left|right].
        split; [by destruct l|done]. }
  destruct (IH _ Hs) as [H1 H2]. split; [done|]. intros label. rewrite H2, He. setoid_rewrite elem_of_cons. naive_solver.
Qed.

(** C22: The text of a configuration holds its normal form.  Parsing what [stringify] wrote
    succeeds and gives the value of the normalized configuration; that value has the types
    of a configuration, and writing the normalized configuration again gives the same text.
    The statistics read from the text count the routes, call it valid exactly when the
    validation of the configuration finds no error, and list the label of every route, each
    once. *)
Theorem route_texts_are_read_back URL config : config_units config ->
  let text := stringifyAdvancedCustomConfig config in
  let normal := normalizeAdvancedCustomConfig config in
  parseAdvancedCustomConfig (Some text) = Some (config_value normal) /\ typed_config (config_value normal) = Some normal /\
  stringifyAdvancedCustomConfig normal = text /\
  exists stats, getAdvancedCustomStats URL (Some text) = Some stats /\
    st_routeCount stats = length (default [] (advanced_routes config)) /\
    (st_valid stats = true <-> validateAdvancedCustomConfig URL (Some config) = None) /\
    NoDup (st_routeTypeLabels stats) /\
    forall label, label ∈ st_routeTypeLabels stats <->
      label <> [] /\ exists route, route ∈ normalized_routes config /\ getAdvancedCustomRouteSummaryLabel route = Some label.
Proof.
  intros Hu text normal.
  assert (config_units normal) as Hn.
  { change (Forall route_units (map normalizeAdvancedCustomRoute (default [] (advanced_routes config)))). unfold config_units in Hu.
    induction Hu; cbn [map]; constructor; [by apply normal_route_units|done]. }
  assert (parseAdvancedCustomConfig (Some text) = Some (config_value normal)) as Hp.
  { unfold parseAdvancedCustomConfig. change (default [] (Some text)) with text. cbv zeta.
    pose proof (config_text_ends config) as Ht. cbv zeta in Ht. fold text in Ht. rewrite Ht. cbn [negb]. unfold text, stringifyAdvancedCustomConfig. fold normal.
    rewrite json_parse_indented by (by apply config_value_ok). change (normalize_config_value (config_value normal) = Some (config_value normal)).
    rewrite config_value_normal. unfold normal. by rewrite config_normal_idem. }
  split; [done|]. split; [apply typed_config_value|]. split.
  { unfold text, stringifyAdvancedCustomConfig, normal. by rewrite config_normal_idem. }
  assert (normalized_routes normal = normalized_routes config) as Hnr.
  { pose proof (config_normal_idem config) as E. unfold normalizeAdvancedCustomConfig at 1 in E. fold normal in E.
    assert (advanced_routes normal = Some (normalized_routes normal)) as E2 by (by rewrite <- E at 1).
    unfold normal in E2 at 1. cbn [advanced_routes normalizeAdvancedCustomConfig] in E2. congruence. }
  unfold getAdvancedCustomStats. rewrite Hp, typed_config_value. cbn [mbind option_bind]. eexists. split; [reflexivity|].
  cbn [st_routeCount st_valid st_routeTypeLabels]. rewrite Hnr. split; [unfold normalized_routes; apply length_map|]. split.
  - unfold normal. rewrite config_normal_idem. fold normal. unfold validateAdvancedCustomConfig. rewrite Hnr.
    by destruct (match normalized_routes config with [] => _ | _ => _ end).
  - change (fun labels route => match getAdvancedCustomRouteSummaryLabel route with _ => _ end) with label_step.
    destruct (label_steps (normalized_routes config) [] NoDup_nil_2) as [H1 H2]. split; [done|]. intros label. rewrite H2.
    pose proof (not_elem_of_nil label). naive_solver.
Qed.

(** ** Examples *)

Lemma route_texts_are_read_back_witness :
  exists stats, getAdvancedCustomStats no_url (Some (stringifyAdvancedCustomConfig (getAdvancedCustomTemplateConfig (u "claude_only")))) =
    Some stats /\ st_routeCount stats = 1 /\ st_valid stats = true.
Proof.
  pose proof (route_texts_are_read_back no_url (getAdvancedCustomTemplateConfig (u "claude_only"))) as T.
  assert (config_units (getAdvancedCustomTemplateConfig (u "claude_only"))) as H.
  { change (Forall route_units [native_route apiKeyHeaderAuth "/v1/messages"]). constructor; [|constructor].
    split; [apply literal_units|]. split; [apply literal_units|]. split; [apply literal_units|]. split; [constructor|].
    intros a Ha. injection Ha as <-. split; [apply literal_units|]. split; apply literal_units. }
  destruct (T H) as (_ & _ & _ & stats & Hs & Hc & Hv & _). exists stats. split; [exact Hs|]. split.
  - rewrite Hc. vm_compute. reflexivity.
  - apply Hv. vm_compute. reflexivity.
Defined.

(** A text whose path is a number is accepted as a configuration, though it is none. *)
Example mistyped_paths_are_accepted :
  let text := uq "{'advanced_routes': [{'incoming_path': 5, 'upstream_path': ' /v1 '}]}" in
  match parseAdvancedCustomConfig (Some text) with
  | Some parsed => typed_config parsed = None /\
      match field parsed "advanced_routes" with
      | VArray [route] => num_to_Z <$> as_number (field route "incoming_path") = Some 5%Z /\ field route "upstream_path" = VString (u "/v1")
      | _ => False
      end
  | None => False
  end.
Proof. vm_compute. repeat split. Qed.

(** What has no [trim] makes the normal form throw, and the text is refused. *)
Example other_texts_are_refused :
  map (fun text => parseAdvancedCustomConfig (Some (uq text)))
    ["{'advanced_routes': [{'upstream_path': 5}]}"; "{'advanced_routes': [{'models': [null]}]}"; "{'advanced_routes': [null]}"; "[]"; "{"]%string =
  [None; None; None; None; None].
Proof. vm_compute. reflexivity. Qed.
