(* ===== verification/ChannelForm.v ===== *)
(** * The form of a channel

    [features/channels/lib/channel-form.ts] with [channel-plugin-extensions.ts],
    [responses-websocket.ts] and the sets of types of [constants.ts]: the values of the
    form, the checks of its schema, how a stored channel fills the form, and what the form
    sends.  A field that the form takes from a JSON text is a value of any type; fields
    that are not set are [undefined]. *)

From Stdlib Require Import String.
From S2P Require Import Prelude JsNumber JsArray JsString JsText Ast Request BillingTime Json JsonText TaskExpr PricingModel.
From S2P Require Import AdvancedCustom RouteText ModelMapping.

#[local] Open Scope nat_scope.

(** ** Types of channels *)

Definition CHANNEL_TYPE_OLLAMA : Z := 4.
Definition CHANNEL_TYPE_SUB2API : Z := 59.
Definition CHANNEL_TYPE_NEW_API : Z := 60.
Definition CHANNEL_TYPE_TASK_PLUGIN : Z := 61.
Definition CHANNEL_TYPE_VLLM : Z := 62.
Definition CHANNEL_TYPE_SGLANG : Z := 63.
Definition CHANNEL_TYPE_ADVANCED_CUSTOM : Z := 58.

Definition one_type (types : list Z) (t : Z) : bool := existsb (Z.eqb t) types.
Definition MODEL_FETCHABLE_TYPES : list Z :=
  [1; 4; 14; 17; 20; 23; 24; 25; 26; 27; 31; 34; 35; 40; 42; 43; 47; 48; 57; 58; 59; 60; CHANNEL_TYPE_VLLM; CHANNEL_TYPE_SGLANG]%Z.
Definition FIELD_PASSTHROUGH_TYPES : list Z :=
  [1; 14; 57; 58; 59; CHANNEL_TYPE_NEW_API; CHANNEL_TYPE_VLLM; CHANNEL_TYPE_SGLANG]%Z.
Definition OPENAI_FIELD_PASSTHROUGH_TYPES : list Z :=
  [1; 57; 58; 59; CHANNEL_TYPE_NEW_API; CHANNEL_TYPE_VLLM; CHANNEL_TYPE_SGLANG]%Z.
Definition CLAUDE_FIELD_PASSTHROUGH_TYPES : list Z :=
  [14; 58; 59; CHANNEL_TYPE_NEW_API; CHANNEL_TYPE_VLLM; CHANNEL_TYPE_SGLANG]%Z.
Definition RESPONSES_WEBSOCKET_CHANNEL_TYPES : list Z :=
  [1; 57; CHANNEL_TYPE_ADVANCED_CUSTOM; CHANNEL_TYPE_SUB2API; CHANNEL_TYPE_NEW_API]%Z.
Definition supportsResponsesWebSocket (channelType : Z) : bool := one_type RESPONSES_WEBSOCKET_CHANNEL_TYPES channelType.

(** ** Values *)

(** [v === true], [String(v || '')], [v?.trim() || ''], which throws on other types *)
Definition is_true (v : value) : bool := match v with VBoolean b => b | _ => false end.
Definition text_or_empty (v : value) : str := if truthy v then to_string v else [].
Definition trim_or_empty (v : value) : option str :=
  match v with VUndefined | VNull => Some [] | VString s => Some (trim s) | _ => None end.
(** [v || false] *)
Definition or_false (v : value) : value := if truthy v then v else VBoolean false.
(** [Number(v)] of a JSON value *)
Definition value_number (v : value) : number :=
  match v with
  | VUndefined => NaN
  | VNull => zero
  | VBoolean b => if b then one else zero
  | VNumber x => x
  | _ => to_number (to_string v)
  end.

(** The form.  The fields up to [cf_other] are those of the channel, the others are kept in
    its two JSON texts. *)
Record ChannelFormValues : Type := {
  cf_name : str;
  cf_type : Z;
  cf_base_url : option str;
  cf_key : str;
  cf_openai_organization : option str;
  cf_models : str;
  cf_group : list str;
  cf_model_mapping : option str;
  cf_priority : option number;
  cf_weight : option number;
  cf_test_model : option str;
  cf_auto_ban : option number;
  cf_status : number;
  cf_status_code_mapping : option str;
  cf_tag : option str;
  cf_remark : option str;
  cf_setting : option str;
  cf_param_override : option str;
  cf_header_override : option str;
  cf_settings : option str;
  cf_other : option str;
  cf_multi_key_mode : option str;
  cf_multi_key_type : option str;
  cf_batch_add_set_key_prefix_2_name : option bool;
  cf_key_mode : option str;
  cf_task_plugin_key : value;
  cf_task_extend_plugin_keys : list str;
  cf_force_format : value;
  cf_thinking_to_content : value;
  cf_proxy : value;
  cf_http_protocol : value;
  cf_http2_connection_shards : value;
  cf_pass_through_body_enabled : value;
  cf_responses_websocket_enabled : value;
  cf_system_prompt : value;
  cf_system_prompt_override : value;
  cf_is_enterprise_account : value;
  cf_vertex_key_type : value;
  cf_aws_key_type : value;
  cf_azure_responses_version : value;
  cf_allow_service_tier : value;
  cf_disable_store : value;
  cf_allow_safety_identifier : value;
  cf_allow_include_obfuscation : value;
  cf_allow_inference_geo : value;
  cf_allow_speed : value;
  cf_claude_beta_query : value;
  cf_ollama_openai_chat : value;
  cf_disable_task_polling_sleep : value;
  cf_upstream_model_update_check_enabled : value;
  cf_upstream_model_update_auto_sync_enabled : value;
  cf_upstream_model_update_ignored_models : value;
  cf_advanced_custom : option str;
}.

(** ** Protocol and connections *)

Section form.
Context `{Host}.

Definition HTTP_PROTOCOL_AUTO : str := u "auto".
Definition HTTP_PROTOCOL_HTTP1 : str := u "http1".
Definition MAX_HTTP2_CONNECTION_SHARDS : number := of_Z 8.

Definition normalizeHttpProtocol (v : value) : str :=
  if str_eqb (toLowerCase (trim (text_or_empty v))) HTTP_PROTOCOL_HTTP1 then HTTP_PROTOCOL_HTTP1 else HTTP_PROTOCOL_AUTO.

Definition normalizeHttp2ConnectionShards (v : value) : value :=
  if nullish v then VNumber one
  else
    let x := value_number v in
    if match v with VNumber x => negb (num_eqb x x) || num_eqb x zero | _ => false end then VNumber one
    else if num_ltb x one then VNumber one
    else if num_ltb MAX_HTTP2_CONNECTION_SHARDS x then VNumber MAX_HTTP2_CONNECTION_SHARDS
    else v.

(** ** Default values *)

Definition CHANNEL_FORM_DEFAULT_VALUES : ChannelFormValues := {|
  cf_name := []; cf_type := 1; cf_base_url := Some []; cf_key := []; cf_openai_organization := Some []; cf_models := [];
  cf_group := [u "default"]; cf_model_mapping := Some []; cf_priority := Some zero; cf_weight := Some zero; cf_test_model := Some [];
  cf_auto_ban := Some one; cf_status := one; cf_status_code_mapping := Some []; cf_tag := Some []; cf_remark := Some [];
  cf_setting := Some []; cf_param_override := Some []; cf_header_override := Some []; cf_settings := Some (u "{}"); cf_other := Some [];
  cf_multi_key_mode := Some (u "single"); cf_multi_key_type := Some (u "random"); cf_batch_add_set_key_prefix_2_name := Some false;
  cf_key_mode := Some (u "append"); cf_task_plugin_key := VString []; cf_task_extend_plugin_keys := [];
  cf_force_format := VBoolean false; cf_thinking_to_content := VBoolean false; cf_proxy := VString [];
  cf_http_protocol := VString HTTP_PROTOCOL_AUTO; cf_http2_connection_shards := VNumber one;
  cf_pass_through_body_enabled := VBoolean false; cf_responses_websocket_enabled := VBoolean false;
  cf_system_prompt := VString []; cf_system_prompt_override := VBoolean false; cf_is_enterprise_account := VBoolean false;
  cf_vertex_key_type := VString (u "json"); cf_aws_key_type := VString (u "ak_sk"); cf_azure_responses_version := VString [];
  cf_allow_service_tier := VBoolean false; cf_disable_store := VBoolean false; cf_allow_safety_identifier := VBoolean false;
  cf_allow_include_obfuscation := VBoolean false; cf_allow_inference_geo := VBoolean false; cf_allow_speed := VBoolean false;
  cf_claude_beta_query := VBoolean false; cf_ollama_openai_chat := VBoolean false; cf_disable_task_polling_sleep := VBoolean false;
  cf_upstream_model_update_check_enabled := VBoolean false; cf_upstream_model_update_auto_sync_enabled := VBoolean false;
  cf_upstream_model_update_ignored_models := VString []; cf_advanced_custom := Some [] |}.

(** ** Task plugins *)

Definition readTaskExtendPluginKeys (channelType : Z) (setting : value) : list str :=
  if negb (Z.eqb channelType CHANNEL_TYPE_NEW_API) || negb (truthy setting) then []
  else
    let keys := match field setting "task_extend_plugin_keys" with
                | VArray items => omap (fun key => s ← as_string key; if nonempty (trim s) then Some s else None) items
                | _ => []
                end in
    let single := match field setting "task_plugin_key" with VString s => trim s | _ => [] end in
    set_of (if nonempty single then single :: keys else keys).

(** ** A stored channel in the form *)

Record Channel : Type := {
  ch_type : Z;
  ch_openai_organization : option str;
  ch_test_model : option str;
  ch_status : number;
  ch_name : str;
  ch_weight : option number;
  ch_base_url : option str;
  ch_other : str;
  ch_models : str;
  ch_group : str;
  ch_model_mapping : option str;
  ch_status_code_mapping : option str;
  ch_priority : option number;
  ch_auto_ban : option number;
  ch_tag : option str;
  ch_setting : option str;
  ch_param_override : option str;
  ch_header_override : option str;
  ch_remark : str;
  ch_multi_key_mode : option str;
  ch_settings : str;
}.

(** [groups.split(',')], trimmed, without empty ones *)
Definition parseGroups (groups : str) : list str := if nonempty groups then trimmed_names (split_char comma groups []) else [].
Definition formatGroups (groups : list str) : str := join [comma] groups.
Definition parseModels (models : str) : list str := if nonempty models then trimmed_names (split_char comma models []) else [].
Definition formatModels (models : list str) : str := join [comma] models.

(** [JSON.parse(text)] when the text is not empty; reading a field of [null] throws. *)
Definition parsed_text (text : str) : option value :=
  if nonempty text then match json_parse text with Some VNull | None => None | Some v => Some v end else None.

Record ExtraSettings : Type := {
  ex_task_plugin_key : value;
  ex_task_extend_plugin_keys : list str;
  ex_force_format : value;
  ex_thinking_to_content : value;
  ex_proxy : value;
  ex_http_protocol : value;
  ex_http2_connection_shards : value;
  ex_pass_through_body_enabled : value;
  ex_responses_websocket_enabled : value;
  ex_system_prompt : value;
  ex_system_prompt_override : value;
}.
Definition default_extra : ExtraSettings := {|
  ex_task_plugin_key := VString []; ex_task_extend_plugin_keys := []; ex_force_format := VBoolean false;
  ex_thinking_to_content := VBoolean false; ex_proxy := VString []; ex_http_protocol := VString HTTP_PROTOCOL_AUTO;
  ex_http2_connection_shards := VNumber one; ex_pass_through_body_enabled := VBoolean false;
  ex_responses_websocket_enabled := VBoolean false; ex_system_prompt := VString []; ex_system_prompt_override := VBoolean false |}.
Definition read_extra (channelType : Z) (setting : str) : ExtraSettings :=
  match parsed_text setting with
  | None => default_extra
  | Some parsed =>
      let protocol := normalizeHttpProtocol (field parsed "http_protocol") in
      let shards := normalizeHttp2ConnectionShards (field parsed "http2_connection_shards") in
      {| ex_task_plugin_key := value_or (field parsed "task_plugin_key") [];
         ex_task_extend_plugin_keys := readTaskExtendPluginKeys channelType parsed;
         ex_force_format := or_false (field parsed "force_format");
         ex_thinking_to_content := or_false (field parsed "thinking_to_content");
         ex_proxy := value_or (field parsed "proxy") [];
         ex_http_protocol := VString protocol;
         ex_http2_connection_shards := if str_eqb protocol HTTP_PROTOCOL_HTTP1 then VNumber one else shards;
         ex_pass_through_body_enabled := or_false (field parsed "pass_through_body_enabled");
         ex_responses_websocket_enabled := VBoolean (is_true (field parsed "responses_websocket_enabled"));
         ex_system_prompt := value_or (field parsed "system_prompt") [];
         ex_system_prompt_override := or_false (field parsed "system_prompt_override") |}
  end.

(** The flags and texts of the [settings] text; its last statement may throw. *)
Definition read_flag (parsed : option value) (name : string) : value :=
  VBoolean (match parsed with Some v => is_true (field v name) | None => false end).
Definition read_text (parsed : option value) (name : string) (fallback : str) : value :=
  match parsed with Some v => value_or (field v name) fallback | None => VString fallback end.
Definition read_ignored (parsed : option value) : value :=
  VString (match parsed with
           | Some v => match field v "upstream_model_update_ignored_models" with VArray items => to_string (VArray items) | _ => [] end
           | None => []
           end).
Definition read_advanced_custom (parsed : option value) : str :=
  match parsed with
  | Some v => let config := field v "advanced_custom" in
              if truthy config then default [] (stringify_indented 0 <$> normalize_config_value config) else []
  | None => []
  end.

Definition transformChannelToFormDefaults (channel : Channel) : ChannelFormValues :=
  let extra := read_extra (ch_type channel) (default [] (ch_setting channel)) in
  let parsed := parsed_text (ch_settings channel) in
  {| cf_name := ch_name channel; cf_type := ch_type channel; cf_base_url := Some (or_else (ch_base_url channel) []);
     cf_key := []; cf_openai_organization := Some (or_else (ch_openai_organization channel) []);
     cf_models := ch_models channel; cf_group := parseGroups (or_else (Some (ch_group channel)) (u "default"));
     cf_model_mapping := Some (or_else (ch_model_mapping channel) []);
     cf_priority := Some (match ch_priority channel with Some x => if num_truthy x then x else zero | None => zero end);
     cf_weight := Some (match ch_weight channel with Some x => if num_truthy x then x else zero | None => zero end);
     cf_test_model := Some (or_else (ch_test_model channel) []);
     cf_auto_ban := Some (default one (ch_auto_ban channel)); cf_status := ch_status channel;
     cf_status_code_mapping := Some (or_else (ch_status_code_mapping channel) []); cf_tag := Some (or_else (ch_tag channel) []);
     cf_remark := Some (ch_remark channel); cf_setting := Some (or_else (ch_setting channel) []);
     cf_param_override := Some (or_else (ch_param_override channel) []);
     cf_header_override := Some (or_else (ch_header_override channel) []);
     cf_settings := Some (or_else (Some (ch_settings channel)) (u "{}")); cf_other := Some (ch_other channel);
     cf_multi_key_mode := Some (u "single"); cf_multi_key_type := Some (or_else (ch_multi_key_mode channel) (u "random"));
     cf_batch_add_set_key_prefix_2_name := Some false; cf_key_mode := Some (u "append");
     cf_task_plugin_key := ex_task_plugin_key extra; cf_task_extend_plugin_keys := ex_task_extend_plugin_keys extra;
     cf_force_format := ex_force_format extra; cf_thinking_to_content := ex_thinking_to_content extra;
     cf_proxy := ex_proxy extra; cf_http_protocol := ex_http_protocol extra;
     cf_http2_connection_shards := ex_http2_connection_shards extra;
     cf_pass_through_body_enabled := ex_pass_through_body_enabled extra;
     cf_responses_websocket_enabled := ex_responses_websocket_enabled extra;
     cf_system_prompt := ex_system_prompt extra; cf_system_prompt_override := ex_system_prompt_override extra;
     cf_is_enterprise_account := read_flag parsed "openrouter_enterprise";
     cf_vertex_key_type := read_text parsed "vertex_key_type" (u "json");
     cf_aws_key_type := read_text parsed "aws_key_type" (u "ak_sk");
     cf_azure_responses_version := read_text parsed "azure_responses_version" [];
     cf_allow_service_tier := read_flag parsed "allow_service_tier"; cf_disable_store := read_flag parsed "disable_store";
     cf_allow_safety_identifier := read_flag parsed "allow_safety_identifier";
     cf_allow_include_obfuscation := read_flag parsed "allow_include_obfuscation";
     cf_allow_inference_geo := read_flag parsed "allow_inference_geo"; cf_allow_speed := read_flag parsed "allow_speed";
     cf_claude_beta_query := read_flag parsed "claude_beta_query"; cf_ollama_openai_chat := read_flag parsed "ollama_openai_chat";
     cf_disable_task_polling_sleep := read_flag parsed "disable_task_polling_sleep";
     cf_upstream_model_update_check_enabled := read_flag parsed "upstream_model_update_check_enabled";
     cf_upstream_model_update_auto_sync_enabled := read_flag parsed "upstream_model_update_auto_sync_enabled";
     cf_upstream_model_update_ignored_models := read_ignored parsed;
     cf_advanced_custom := Some (read_advanced_custom parsed) |}.

(** ** What the form sends *)

(** The object of the [setting] text, and the fields that are left out when they have their
    defaults. *)
Definition setting_base (formData : ChannelFormValues) (task_plugin_key : value) (proxy : str) : list (str * value) :=
  [(u "task_plugin_key", task_plugin_key);
   (u "task_extend_plugin_keys",
    if Z.eqb (cf_type formData) CHANNEL_TYPE_NEW_API && (0 <? length (cf_task_extend_plugin_keys formData))
    then VArray (map VString (cf_task_extend_plugin_keys formData)) else VUndefined);
   (u "force_format", or_false (cf_force_format formData));
   (u "thinking_to_content", or_false (cf_thinking_to_content formData));
   (u "proxy", VString proxy);
   (u "pass_through_body_enabled",
    VBoolean (negb (Z.eqb (cf_type formData) CHANNEL_TYPE_ADVANCED_CUSTOM) && is_true (cf_pass_through_body_enabled formData)));
   (u "responses_websocket_enabled",
    VBoolean (supportsResponsesWebSocket (cf_type formData) && is_true (cf_responses_websocket_enabled formData)));
   (u "system_prompt", value_or (cf_system_prompt formData) []);
   (u "system_prompt_override", or_false (cf_system_prompt_override formData))].
Definition setting_tail (formData : ChannelFormValues) : list (str * value) :=
  let protocol := normalizeHttpProtocol (cf_http_protocol formData) in
  let http1 := str_eqb protocol HTTP_PROTOCOL_HTTP1 in
  let shards := if http1 then VNumber one else normalizeHttp2ConnectionShards (cf_http2_connection_shards formData) in
  if http1 then [(u "http_protocol", VString HTTP_PROTOCOL_HTTP1)]
  else if num_ltb one (value_number shards) then [(u "http2_connection_shards", shards)]
  else [].
(** [None]: what should be a text has no [trim]. *)
Definition setting_object (formData : ChannelFormValues) : option (list (str * value)) :=
  task_plugin_key ← (if Z.eqb (cf_type formData) CHANNEL_TYPE_TASK_PLUGIN
                     then VString <$> trim_or_empty (cf_task_plugin_key formData) else Some VUndefined);
  proxy ← trim_or_empty (cf_proxy formData);
  Some (setting_base formData task_plugin_key proxy ++ setting_tail formData).
Definition buildSettingJSON (formData : ChannelFormValues) : option str :=
  (fun settingObj => stringify (VObject settingObj)) <$> setting_object formData.

(** The fields of the [settings] text that depend on the type: a value that is set, or a
    key that is removed. *)
Definition flag_when (keep : bool) (v : value) : option value := if keep then Some (VBoolean (is_true v)) else None.
Definition settings_fields (formData : ChannelFormValues) : list (str * option value) :=
  let type := cf_type formData in
  let openai := one_type OPENAI_FIELD_PASSTHROUGH_TYPES type in
  let claude := one_type CLAUDE_FIELD_PASSTHROUGH_TYPES type in
  [(u "vertex_key_type", if Z.eqb type 41 then Some (value_or (cf_vertex_key_type formData) (u "json")) else None);
   (u "azure_responses_version",
    if Z.eqb type 3 && truthy (cf_azure_responses_version formData) then Some (cf_azure_responses_version formData) else None);
   (u "openrouter_enterprise", flag_when (Z.eqb type 20) (cf_is_enterprise_account formData));
   (u "aws_key_type", if Z.eqb type 33 then Some (value_or (cf_aws_key_type formData) (u "ak_sk")) else None);
   (u "allow_service_tier", flag_when (one_type FIELD_PASSTHROUGH_TYPES type) (cf_allow_service_tier formData));
   (u "disable_store", flag_when openai (cf_disable_store formData));
   (u "allow_safety_identifier", flag_when openai (cf_allow_safety_identifier formData));
   (u "allow_include_obfuscation", flag_when openai (cf_allow_include_obfuscation formData));
   (u "allow_inference_geo", flag_when (openai || claude) (cf_allow_inference_geo formData));
   (u "allow_speed", flag_when claude (cf_allow_speed formData));
   (u "claude_beta_query", flag_when (Z.eqb type 14) (cf_claude_beta_query formData));
   (u "ollama_openai_chat", flag_when (Z.eqb type CHANNEL_TYPE_OLLAMA) (cf_ollama_openai_chat formData));
   (u "disable_task_polling_sleep", flag_when true (cf_disable_task_polling_sleep formData))].

(** [settingsObj[key] = value], or [delete settingsObj[key]] *)
Definition set_field (settingsObj : list (str * value)) (e : str * option value) : list (str * value) :=
  match e.2 with Some v => assoc_set e.1 v settingsObj | None => assoc_delete e.1 settingsObj end.

(** The fields of upstream model updates. *)
Definition update_fields (formData : ChannelFormValues) (settingsObj : list (str * value)) : list (str * value) :=
  let enabled := is_true (cf_upstream_model_update_check_enabled formData) in
  let detected := default VUndefined (assoc_get (u "upstream_model_update_last_detected_models") settingsObj) in
  let checked := default VUndefined (assoc_get (u "upstream_model_update_last_check_time") settingsObj) in
  let settingsObj := assoc_set (u "upstream_model_update_check_enabled") (VBoolean enabled) settingsObj in
  let settingsObj := assoc_set (u "upstream_model_update_auto_sync_enabled")
    (VBoolean (enabled && is_true (cf_upstream_model_update_auto_sync_enabled formData))) settingsObj in
  let settingsObj := assoc_set (u "upstream_model_update_ignored_models")
    (VArray (map VString (set_of (trimmed_names
       (split_char comma (text_or_empty (cf_upstream_model_update_ignored_models formData)) []))))) settingsObj in
  let settingsObj := if match detected with VArray _ => negb enabled | _ => true end
    then assoc_set (u "upstream_model_update_last_detected_models") (VArray []) settingsObj else settingsObj in
  match checked with
  | VNumber _ => settingsObj
  | _ => assoc_set (u "upstream_model_update_last_check_time") (VNumber zero) settingsObj
  end.

(** The object the form starts from; [None]: the text holds no object, which the schema
    refuses. *)
Definition stored_settings (formData : ChannelFormValues) : option (list (str * value)) :=
  let text := default [] (cf_settings formData) in
  if nonempty text && negb (str_eqb text (u "{}")) then
    match json_parse text with
    | Some (VObject fields) => Some fields
    | Some _ => None
    | None => Some []
    end
  else Some [].

Definition settings_object (formData : ChannelFormValues) : option (list (str * value)) :=
  settingsObj ← stored_settings formData;
  let settingsObj := fold_left set_field (settings_fields formData) settingsObj in
  let settingsObj := if one_type MODEL_FETCHABLE_TYPES (cf_type formData) then update_fields formData settingsObj else settingsObj in
  Some (if Z.eqb (cf_type formData) CHANNEL_TYPE_ADVANCED_CUSTOM
        then match parseAdvancedCustomConfig (cf_advanced_custom formData) with
             | Some advancedCustomConfig => assoc_set (u "advanced_custom") advancedCustomConfig settingsObj
             | None => settingsObj
             end
        else assoc_delete (u "advanced_custom") settingsObj).
Definition buildSettingsJSON (formData : ChannelFormValues) : option str :=
  (fun settingsObj => stringify (VObject settingsObj)) <$> settings_object formData.

(** [String(value || '').trim().replace(/\/+$/, '')] *)
Definition strip_slashes (s : str) : str := rev (drop_while (N.eqb 47) (rev s)).
Definition normalizeBaseUrl (text : option str) : str := strip_slashes (trim (or_else text [])).

(** [text || null], [x || null], [x ?? fallback] *)
Definition text_or_null (o : option str) : value := match o with Some (c :: s) => VString (c :: s) | _ => VNull end.
Definition number_or_null (o : option number) : value :=
  match o with Some x => if num_truthy x then VNumber x else VNull | None => VNull end.
Definition number_else (o : option number) (fallback : number) : value := VNumber (default fallback o).
(** Empty texts become [null]. *)
Definition clean_up (channel : list (str * value)) : list (str * value) :=
  map (fun e : str * value => match e.2 with VString [] => (e.1, VNull) | _ => e end) channel.

Record CreatePayload : Type := {
  cp_mode : str;
  cp_multi_key_mode : option str;
  cp_batch_add_set_key_prefix_2_name : option bool;
  cp_channel : list (str * value);
}.

Definition transformFormDataToCreatePayload (formData : ChannelFormValues) : option CreatePayload :=
  setting ← buildSettingJSON formData;
  settings ← buildSettingsJSON formData;
  let mode := or_else (cf_multi_key_mode formData) (u "single") in
  let channel :=
    [(u "name", VString (cf_name formData)); (u "type", VNumber (of_Z (cf_type formData)));
     (u "base_url", text_or_null (Some (normalizeBaseUrl (cf_base_url formData)))); (u "key", VString (cf_key formData));
     (u "openai_organization", text_or_null (cf_openai_organization formData)); (u "models", VString (cf_models formData));
     (u "group", VString (formatGroups (cf_group formData))); (u "model_mapping", text_or_null (cf_model_mapping formData));
     (u "priority", number_or_null (cf_priority formData)); (u "weight", number_or_null (cf_weight formData));
     (u "test_model", text_or_null (cf_test_model formData)); (u "auto_ban", number_else (cf_auto_ban formData) one);
     (u "status", VNumber (cf_status formData)); (u "status_code_mapping", text_or_null (cf_status_code_mapping formData));
     (u "tag", text_or_null (cf_tag formData)); (u "remark", VString (or_else (cf_remark formData) []));
     (u "setting", VString setting); (u "param_override", text_or_null (cf_param_override formData));
     (u "header_override", text_or_null (cf_header_override formData)); (u "settings", VString settings);
     (u "other", VString (or_else (cf_other formData) []))] in
  Some {| cp_mode := mode;
          cp_multi_key_mode := if str_eqb mode (u "multi_to_single") then cf_multi_key_type formData else None;
          cp_batch_add_set_key_prefix_2_name := if str_eqb mode (u "batch") then cf_batch_add_set_key_prefix_2_name formData else None;
          cp_channel := clean_up channel |}.

(** The nullable fields an update sends as explicit empty texts. *)
Definition explicit_texts (formData : ChannelFormValues) : list (str * str) :=
  [(u "base_url", normalizeBaseUrl (cf_base_url formData)); (u "openai_organization", or_else (cf_openai_organization formData) []);
   (u "test_model", or_else (cf_test_model formData) []); (u "tag", or_else (cf_tag formData) []);
   (u "remark", or_else (cf_remark formData) []); (u "model_mapping", or_else (cf_model_mapping formData) []);
   (u "status_code_mapping", or_else (cf_status_code_mapping formData) []); (u "param_override", or_else (cf_param_override formData) []);
   (u "header_override", or_else (cf_header_override formData) [])].

Definition transformFormDataToUpdatePayload (formData : ChannelFormValues) (channelId : number) : option (list (str * value)) :=
  setting ← buildSettingJSON formData;
  settings ← buildSettingsJSON formData;
  let payload :=
    [(u "id", VNumber channelId); (u "name", VString (cf_name formData)); (u "type", VNumber (of_Z (cf_type formData)));
     (u "base_url", text_or_null (Some (normalizeBaseUrl (cf_base_url formData))));
     (u "openai_organization", text_or_null (cf_openai_organization formData)); (u "models", VString (cf_models formData));
     (u "group", VString (formatGroups (cf_group formData))); (u "model_mapping", text_or_null (cf_model_mapping formData));
     (u "priority", number_else (cf_priority formData) zero); (u "weight", number_else (cf_weight formData) zero);
     (u "test_model", text_or_null (cf_test_model formData)); (u "auto_ban", number_else (cf_auto_ban formData) one);
     (u "status_code_mapping", text_or_null (cf_status_code_mapping formData));
     (u "tag", text_or_null (cf_tag formData)); (u "remark", VString (or_else (cf_remark formData) []));
     (u "setting", VString setting); (u "param_override", text_or_null (cf_param_override formData));
     (u "header_override", text_or_null (cf_header_override formData)); (u "settings", VString settings);
     (u "other", VString (or_else (cf_other formData) []))] in
  let payload := if nonempty (trim (cf_key formData)) then assoc_set (u "key") (VString (cf_key formData)) payload else payload in
  Some (fold_left (fun payload e => assoc_set (fst e) (VString (snd e)) payload) (explicit_texts formData) (clean_up payload)).

(** ** The schema *)

(** [JSON.parse] of an optional text: [None] when it throws, [Some None] without text. *)
Definition parseOptionalJson (text : option str) : option (option value) :=
  let text := default [] text in
  if negb (nonempty (trim text)) then Some None else v ← json_parse text; Some (Some v).
Definition isJsonObjectValue (v : value) : bool := match v with VObject _ => true | _ => false end.
(** A check of what an optional text holds, when it holds something. *)
Definition optional_json (check : value -> bool) (text : option str) : bool :=
  match parseOptionalJson text with None => false | Some None => true | Some (Some v) => check v end.

(** [validateJSON] and [validateModelMapping] *)
Definition validateJSON (text : str) : bool :=
  if negb (nonempty text) || negb (nonempty (trim text)) then true else match json_parse text with Some _ => true | None => false end.
Definition validateModelMapping (text : str) : bool :=
  if negb (nonempty text) || negb (nonempty (trim text)) then true else validateJSON text.

Definition isOptionalJsonObject : option str -> bool := optional_json isJsonObjectValue.
Definition isOptionalModelMapping : option str -> bool :=
  optional_json (fun parsed => match parsed with
    | VObject fields => forallb (fun f => match snd f with VString _ => true | _ => false end) fields
    | _ => false
    end).
Definition status_number (x : number) : bool := num_is_integer x && num_leb (of_Z 100) x && num_leb x (of_Z 599).
Definition isOptionalStatusCodeMapping : option str -> bool :=
  optional_json (fun parsed => match parsed with
    | VObject fields => forallb (fun f => status_number (to_number (fst f)) && status_number (value_number (snd f))) fields
    | _ => false
    end).
Definition nonblank_text (v : value) : bool := match v with VString s => nonempty (trim s) | _ => false end.
Definition isCodexCredential : option str -> bool :=
  optional_json (fun parsed => isJsonObjectValue parsed && nonblank_text (field parsed "access_token") && nonblank_text (field parsed "account_id")).
Definition isVertexJsonKey : option str -> bool :=
  optional_json (fun parsed => match parsed with VArray items => forallb isJsonObjectValue items | _ => isJsonObjectValue parsed end).

Definition SUPPORTED_PROXY_PROTOCOLS : list str := map u ["http:"; "https:"; "socks5:"; "socks5h:"]%string.

(** The URL parsers of the browser: protocol, host name and port, and what the routes use. *)
Context (URL : str -> option (str * str * str)) (route_URL : str -> option (str * str)).

Definition isOptionalProxyURL (v : value) : bool :=
  let trimmedValue := text_or_empty (match v with VString s => VString (trim s) | _ => VUndefined end) in
  if negb (nonempty trimmedValue) then true
  else match position_of trimmedValue (u "://") with
       | None | Some O => false
       | Some schemeSeparatorIndex =>
           let authorityAndSuffix := drop (schemeSeparatorIndex + 3) trimmedValue in
           let suffix := drop_while (fun c => negb (bool_decide (c ∈ u "/?#"))) authorityAndSuffix in
           if nonempty suffix && negb (str_eqb suffix (u "/")) then false
           else match URL trimmedValue with
                | Some (protocol, hostname, port) =>
                    bool_decide (protocol ∈ SUPPORTED_PROXY_PROTOCOLS) && nonempty hostname && negb (str_eqb port (u "0"))
                | None => false
                end
       end.

(** A path and a message; the checks of types are those of [ChannelFormValues]. *)
Definition issue_when (c : bool) (path message : string) : list (str * str) := if c then [(u path, u message)] else [].
Definition no_text (o : option str) : bool := negb (nonempty (trim (default [] o))).

Definition field_issues (data : ChannelFormValues) : list (str * str) :=
  issue_when (negb (nonempty (cf_name data))) "name" "Channel name is required" ++
  issue_when (Z.ltb (cf_type data) 0) "type" "Channel type is required" ++
  issue_when (negb (nonempty (cf_models data))) "models" "Models are required" ++
  issue_when (length (cf_group data) =? 0) "group" "Group is required" ++
  issue_when (negb (isOptionalModelMapping (cf_model_mapping data))) "model_mapping"
    "Model mapping must be a JSON object with string values" ++
  issue_when (negb (isOptionalStatusCodeMapping (cf_status_code_mapping data))) "status_code_mapping"
    "Status code mapping must use valid HTTP status codes" ++
  issue_when (255 <? length (default [] (cf_remark data))) "remark" "Remark must be less than 255 characters" ++
  issue_when (negb (isOptionalJsonObject (cf_setting data))) "setting" "Invalid JSON format" ++
  issue_when (negb (isOptionalJsonObject (cf_param_override data))) "param_override" "Invalid JSON format" ++
  issue_when (negb (isOptionalJsonObject (cf_header_override data))) "header_override" "Invalid JSON format" ++
  issue_when (negb (isOptionalJsonObject (cf_settings data))) "settings" "Invalid JSON format" ++
  issue_when (negb (isOptionalProxyURL (cf_proxy data))) "proxy"
    "Proxy address must use HTTP, HTTPS, SOCKS5, or SOCKS5H and include a valid host".

Definition BASE_URL_TYPES : list Z :=
  [3; 8; 36; 45; CHANNEL_TYPE_NEW_API; CHANNEL_TYPE_TASK_PLUGIN; CHANNEL_TYPE_VLLM; CHANNEL_TYPE_SGLANG]%Z.
Definition OTHER_TYPES : list Z := [3; 18; 21; 39; 41; 49]%Z.
Definition batch_mode (data : ChannelFormValues) : bool :=
  match cf_multi_key_mode data with Some ((_ :: _) as mode) => negb (str_eqb mode (u "single")) | _ => false end.
Definition is_text (v : value) (s : string) : bool := match v with VString t => str_eqb t (u s) | _ => false end.

Definition refine_advanced_custom (data : ChannelFormValues) (config : option AdvancedCustomConfig) : list (str * str) :=
  match validateAdvancedCustomConfig route_URL config with
  | Some error => [(u "advanced_custom", ve_message error)]
  | None => []
  end ++
  issue_when (advancedCustomConfigUsesRelativeUpstreamPath config && no_text (cf_base_url data)) "base_url"
    "Base URL is required when an advanced route uses an upstream path" ++
  issue_when (is_true (cf_upstream_model_update_check_enabled data) && negb (hasValidAdvancedCustomModelListRoute route_URL config))
    "upstream_model_update_check_enabled" "OpenAI Models route is required to enable upstream model checks".

(** [None]: the routes in the text are not of their types. *)
Definition superRefine (data : ChannelFormValues) : option (list (str * str)) :=
  let type := cf_type data in
  advanced ← (if Z.eqb type CHANNEL_TYPE_ADVANCED_CUSTOM then
                config ← match parseAdvancedCustomConfig (cf_advanced_custom data) with
                         | Some parsed => config ← typed_config parsed; Some (Some config)
                         | None => Some None
                         end;
                Some (refine_advanced_custom data config)
              else Some []);
  let http1 := str_eqb (normalizeHttpProtocol (cf_http_protocol data)) HTTP_PROTOCOL_HTTP1 in
  let shards := if nullish (cf_http2_connection_shards data) then one else value_number (cf_http2_connection_shards data) in
  Some (issue_when (one_type BASE_URL_TYPES type && no_text (cf_base_url data)) "base_url" "Base URL is required for this channel type" ++
    issue_when (Z.eqb type CHANNEL_TYPE_TASK_PLUGIN && negb (nonblank_text (cf_task_plugin_key data))) "task_plugin_key"
      "Task plugin is required" ++
    advanced ++
    issue_when (one_type OTHER_TYPES type && no_text (cf_other data)) "other" "This channel type requires additional configuration" ++
    (if Z.eqb type 57 then
       issue_when (batch_mode data) "multi_key_mode" "Codex channels do not support batch creation" ++
       issue_when (negb (no_text (Some (cf_key data))) && negb (isCodexCredential (Some (cf_key data)))) "key"
         "Codex credential must be a JSON object with access_token and account_id"
     else []) ++
    issue_when (Z.eqb type 41 && is_text (cf_vertex_key_type data) "json" && negb (no_text (Some (cf_key data)))
                && negb (isVertexJsonKey (Some (cf_key data)))) "key" "Vertex AI service account key must be valid JSON" ++
    issue_when (Z.eqb type 41 && is_text (cf_vertex_key_type data) "api_key" && batch_mode data) "multi_key_mode"
      "Vertex AI API Key mode does not support batch creation" ++
    issue_when (num_ltb shards one || num_ltb MAX_HTTP2_CONNECTION_SHARDS shards) "http2_connection_shards"
      "HTTP/2 connection shards must be between 1 and 8" ++
    issue_when (http1 && num_ltb one shards) "http2_connection_shards"
      "HTTP/2 connection shards must be 1 when HTTP/1.1 is selected").
End form.
