(* ===== verification/ChannelFormFacts.v ===== *)
(** * A saved channel fills its form again

    The two JSON texts of a channel are stable: reading them into the form and writing
    them again gives the same texts, keys the form does not know are kept, and what is
    sent on creation and on update. *)

From Stdlib Require Import String.
From stdpp Require Import sets.
From S2P Require Import Prelude JsNumber JsArray JsString JsText Ast Request BillingTime Json JsonFacts JsonText TaskExpr PricingModel.
From S2P Require Import StatusRules AdvancedCustom RouteText ModelMapping MappingFacts ChannelModels ChannelFacts ChannelForm.

#[local] Open Scope nat_scope.

(** ** Objects whose fields are set and removed *)

Abbreviation object := (list (str * value)).

Lemma assoc_set_same (k : str) (v : value) (obj : object) : assoc_get k obj = Some v -> assoc_set k v obj = obj.
Proof.
  induction obj as [|[k' v'] l IH]; [done|]. cbn [assoc_get assoc_set]. destruct (decide (k' = k)) as [->|]; [by intros [= ->]|].
  intros E. by rewrite IH.
Qed.
Lemma assoc_delete_absent (k : str) (obj : object) : assoc_get k obj = None -> assoc_delete k obj = obj.
Proof.
  unfold assoc_delete. induction obj as [|[k' v'] l IH]; [done|]. cbn [assoc_get List.filter fst].
  destruct (decide (k' = k)) as [->|Hne]; [done|]. intros E. rewrite bool_decide_eq_true_2 by done. by rewrite IH.
Qed.

Lemma set_field_get e k obj : assoc_get k (set_field obj e) = if decide (e.1 = k) then e.2 else assoc_get k obj.
Proof.
  unfold set_field. destruct e as [k' [v|]]; cbn [fst snd]; [by rewrite assoc_get_set|]. rewrite assoc_get_delete. done.
Qed.
Lemma set_field_same e obj : assoc_get e.1 obj = e.2 -> set_field obj e = obj.
Proof. unfold set_field. destruct e as [k [v|]]; cbn [fst snd]; [apply assoc_set_same|apply assoc_delete_absent]. Qed.
Lemma set_field_ok e obj : (forall v, e.2 = Some v -> field_ok (e.1, v)) -> json_ok (VObject obj) -> json_ok (VObject (set_field obj e)).
Proof.
  rewrite !json_ok_fields. intros He [Hnd Hf]. unfold set_field. destruct (e.2) as [v|] eqn:E.
  - split; [by apply assoc_set_NoDup|]. by apply assoc_set_Forall; [apply He|].
  - split; [by apply assoc_delete_NoDup|]. by apply assoc_delete_Forall.
Qed.

(** Fields that are set in turn. *)
Lemma set_fields_other k fields obj : k ∉ fields.*1 -> assoc_get k (fold_left set_field fields obj) = assoc_get k obj.
Proof.
  revert obj. induction fields as [|e fields IH]; intros obj Hk; [done|]. cbn [fold_left]. rewrite IH.
  - rewrite set_field_get, decide_False; [done|]. intros <-. apply Hk. by left.
  - intros Hin. apply Hk. by right.
Qed.
Lemma set_fields_get k o fields obj : NoDup fields.*1 -> (k, o) ∈ fields -> assoc_get k (fold_left set_field fields obj) = o.
Proof.
  revert obj. induction fields as [|e fields IH]; intros obj Hnd Hin; [by apply not_elem_of_nil in Hin|].
  cbn [fmap list_fmap] in Hnd. apply list.NoDup_cons in Hnd as [He Hnd]. cbn [fold_left]. apply elem_of_cons in Hin as [<-|Hin]; [|by apply IH].
  rewrite set_fields_other by done. rewrite set_field_get. cbn [fst snd]. by rewrite decide_True.
Qed.
Lemma set_fields_same fields obj : (forall k o, (k, o) ∈ fields -> assoc_get k obj = o) -> fold_left set_field fields obj = obj.
Proof.
  induction fields as [|[k o] fields IH]; intros H; [done|]. cbn [fold_left]. rewrite set_field_same by (apply (H k o); by left).
  apply IH. intros k' o' Hin. apply H. by right.
Qed.
Lemma set_fields_ok fields obj : (forall k v, (k, Some v) ∈ fields -> field_ok (k, v)) -> json_ok (VObject obj) ->
  json_ok (VObject (fold_left set_field fields obj)).
Proof.
  revert obj. induction fields as [|[k o] fields IH]; intros obj H Hok; [done|]. cbn [fold_left]. apply IH.
  - intros k' v Hin. apply H. by right.
  - apply set_field_ok; [|done]. cbn [fst snd]. intros v ->. apply H. by left.
Qed.

(** ** Fields that are not set are not written *)

Definition is_defined (f : str * value) : bool := match f.2 with VUndefined => false | _ => true end.

Lemma stringify_defined obj : stringify (VObject obj) = stringify (VObject (List.filter is_defined obj)).
Proof.
  cbn [stringify]. do 3 f_equal. induction obj as [|[k v] l IH]; [done|]. cbn [List.filter is_defined snd].
  destruct v; cbn; try (by f_equal); exact IH.
Qed.

Lemma defined_get k obj : NoDup obj.*1 ->
  default VUndefined (assoc_get k (List.filter is_defined obj)) = default VUndefined (assoc_get k obj).
Proof.
  induction obj as [|[k' v] l IH]; intros Hnd; [done|]. cbn [fmap list_fmap fst] in Hnd. apply list.NoDup_cons in Hnd as [Hk Hnd].
  cbn [List.filter]. destruct (is_defined (k', v)) eqn:E; cbn [assoc_get]; destruct (decide (k' = k)) as [->|]; try done; try by apply IH.
  assert (v = VUndefined) as -> by (by destruct v). rewrite IH by done. rewrite (proj2 (assoc_get_None k l) Hk). done.
Qed.

Lemma defined_keys obj : NoDup obj.*1 -> NoDup (List.filter is_defined obj).*1.
Proof.
  induction obj as [|[k v] l IH]; intros Hnd; [done|]. cbn [fmap list_fmap fst] in Hnd. apply list.NoDup_cons in Hnd as [Hk Hnd].
  cbn [List.filter]. destruct (is_defined (k, v)); [|by apply IH]. cbn [fmap list_fmap fst]. apply list.NoDup_cons. split; [|by apply IH].
  intros Hin. apply Hk. apply list_elem_of_fmap in Hin as (f & -> & Hf). apply elem_filter in Hf as [Hf _]. by apply (list_elem_of_fmap_2 fst).
Qed.

Definition written_ok (f : str * value) : Prop := f.2 = VUndefined \/ field_ok f.

(** What is written of an object is read with the same fields. *)
Lemma object_reads_back obj : NoDup obj.*1 -> Forall written_ok obj ->
  parsed_text (stringify (VObject obj)) = Some (VObject (List.filter is_defined obj)) /\
  forall name, field (VObject (List.filter is_defined obj)) name = field (VObject obj) name.
Proof.
  intros Hnd Hf. split.
  - unfold parsed_text. change (nonempty (stringify (VObject obj))) with true. cbv iota. rewrite stringify_defined, json_parse_text; [done|].
    apply json_ok_fields. split; [by apply defined_keys|]. rewrite List.Forall_forall in *. intros f [Hin Hd]%filter_In.
    destruct (Hf f Hin) as [E|?]; [|done]. unfold is_defined in Hd. by rewrite E in Hd.
  - intros name. cbn [field]. by apply defined_get.
Qed.

(** ** The normal form of a stored configuration *)

Lemma value_or_idem v fallback : value_or (value_or v fallback) fallback = value_or v fallback.
Proof. unfold value_or. destruct (truthy v) eqn:E; [by rewrite E|]. by destruct fallback. Qed.

(** A route in normal form. *)
Definition normal_route (inc : value) (up : str) (conv : value) (models : option (list str)) (pass : option unit) (auth : option value) : value :=
  VObject ([(u "incoming_path", inc); (u "upstream_path", VString up); (u "converter", conv)] ++
           some_field "models" ((fun l => VArray (map VString l)) <$> models) ++
           some_field "pass_through_body_enabled" ((fun _ => VBoolean true) <$> pass) ++ some_field "auth" auth).

Lemma normal_route_fields inc up conv models pass auth : let r := normal_route inc up conv models pass auth in
  field r "incoming_path" = inc /\ field r "upstream_path" = VString up /\ field r "converter" = conv /\
  field r "models" = given ((fun l => VArray (map VString l)) <$> models) /\
  field r "pass_through_body_enabled" = given ((fun _ => VBoolean true) <$> pass) /\ field r "auth" = given auth.
Proof. destruct models, pass, auth; split_and!; reflexivity. Qed.

(** Models that were trimmed, none of them empty. *)
Definition clean_models (o : option (list str)) : Prop :=
  match o with Some l => l <> [] /\ trimmed_names l = l | None => True end.

Lemma normal_auth_idem a : normalize_auth_value (normalize_auth_value a) = normalize_auth_value a.
Proof.
  unfold normalize_auth_value at 1.
  assert (field (normalize_auth_value a) "type" = field a "type" /\ field (normalize_auth_value a) "name" = value_or (field a "name") [] /\
          field (normalize_auth_value a) "value" = value_or (field a "value") []) as (-> & -> & ->).
  { unfold normalize_auth_value. destruct (field a "type"); split_and!; reflexivity. }
  by rewrite !value_or_idem.
Qed.

Lemma normalize_models_clean v l : normalize_models_value v = Some l -> trimmed_names l = l.
Proof.
  unfold normalize_models_value. destruct v as [| | | | |items|]; try (intros E; by injection E as <-).
  destruct (map_option _ items) as [ts|] eqn:Em; [|done]. cbn [mbind option_bind]. intros E. injection E as <-.
  assert (Forall (fun s => trim s = s) ts) as Hts.
  { apply map_option_Some in Em. clear -Em. induction Em as [|x y l k Hx _ IH]; constructor; [|done].
    destruct x; cbn in Hx; try done. injection Hx as <-. apply trim_trim. }
  unfold trimmed_names. clear -Hts. induction Hts as [|s l Hs _ IH]; [done|]. cbn [List.filter].
  destruct (nonempty s) eqn:En; [|done]. cbn [map List.filter]. by rewrite Hs, En, IH.
Qed.

Lemma route_value_shape r r' : normalize_route_value r = Some r' -> exists inc up conv models pass auth,
  r' = normal_route inc up conv models pass auth /\ value_or inc [] = inc /\ trim up = up /\ value_or conv (u "none") = conv /\
  clean_models models /\ (forall a, auth = Some a -> normalize_auth_value a = a /\ truthy a = true).
Proof.
  unfold normalize_route_value. destruct (nullish r); [done|]. unfold trimmed_value.
  destruct (value_or (field r "upstream_path") []) as [| | | |up| |] eqn:Eu; try done. cbn [mbind option_bind].
  destruct (normalize_models_value (field r "models")) as [models|] eqn:Em; [|done]. cbn [mbind option_bind]. intros E.
  apply normalize_models_clean in Em.
  exists (value_or (field r "incoming_path") []), (trim up), (value_or (field r "converter") (u "none")),
    (match models with [] => None | _ => Some models end), (if is_true (field r "pass_through_body_enabled") then Some tt else None),
    (if truthy (field r "auth") then Some (normalize_auth_value (field r "auth")) else None).
  split.
  - injection E as <-. unfold normal_route. cbn [app]. do 4 f_equal. f_equal; [by destruct models|].
    f_equal; [by destruct (field r "pass_through_body_enabled") as [| |[]| | | |]|by destruct (truthy _)].
  - split; [apply value_or_idem|]. split; [apply trim_trim|]. split; [apply value_or_idem|]. split; [by destruct models|].
    intros a Ha. destruct (truthy (field r "auth")); [|done]. injection Ha as <-. split; [apply normal_auth_idem|done].
Qed.

Lemma normal_route_idem inc up conv models pass auth : value_or inc [] = inc -> trim up = up -> value_or conv (u "none") = conv ->
  clean_models models -> (forall a, auth = Some a -> normalize_auth_value a = a /\ truthy a = true) ->
  normalize_route_value (normal_route inc up conv models pass auth) = Some (normal_route inc up conv models pass auth).
Proof.
  intros Hi Hu Hc Hm Ha. unfold normalize_route_value. change (nullish (normal_route _ _ _ _ _ _)) with false. cbv iota.
  destruct (normal_route_fields inc up conv models pass auth) as (-> & -> & -> & -> & -> & ->).
  assert (trimmed_value (VString up) = Some (VString up)) as ->.
  { unfold trimmed_value, value_or. cbn [truthy]. destruct up; [done|]. cbn [nonempty]. by rewrite Hu. }
  cbn [mbind option_bind]. rewrite models_value. cbn [mbind option_bind]. rewrite Hi, Hc.
  assert (match normalizeAdvancedCustomRouteModels models with [] => []
          | _ :: _ => [(u "models", VArray (map VString (normalizeAdvancedCustomRouteModels models)))] end =
          some_field "models" ((fun l => VArray (map VString l)) <$> models)) as ->.
  { unfold normalizeAdvancedCustomRouteModels. destruct models as [l|]; [|done]. destruct Hm as [Hne Hm]. change (default [] (Some l)) with l.
    unfold trimmed_names in Hm. rewrite Hm. by destruct l. }
  assert ((if truthy (given auth) then [(u "auth", normalize_auth_value (given auth))] else []) = some_field "auth" auth) as ->.
  { destruct auth as [a|]; [|done]. destruct (Ha a eq_refl) as [E Et]. change (given (Some a)) with a. by rewrite Et, E. }
  by destruct pass.
Qed.

Lemma normalize_config_idem v w : normalize_config_value v = Some w -> normalize_config_value w = Some w.
Proof.
  unfold normalize_config_value. destruct (match field v "advanced_routes" with VArray _ => _ | _ => _ end) as [routes|] eqn:E; [|done].
  cbn [mbind option_bind]. intros Hw. injection Hw as <-. change (field (VObject [(u "advanced_routes", VArray routes)]) "advanced_routes") with (VArray routes).
  cbv iota. assert (map_option normalize_route_value routes = Some routes) as ->; [|done].
  assert (exists l, map_option normalize_route_value l = Some routes) as [l El].
  { destruct (field v "advanced_routes"); try (injection E as <-; by exists []). by eexists. }
  apply map_option_Some in El. apply map_option_Some. clear -El. induction El as [|r r' l routes Hr _ IH]; constructor; [|done].
  apply route_value_shape in Hr as (inc & up & conv & models & pass & auth & -> & ? & ? & ? & ? & ?). by apply normal_route_idem.
Qed.

(** ** The [setting] text *)

Definition form_text (v : value) : Prop := v = VUndefined \/ exists s, v = VString s /\ Forall code_unit s.
Definition form_flag (v : value) : Prop := v = VUndefined \/ exists b, v = VBoolean b.

(** Lower case letters and digits are in lower case. *)
Definition lower_char (c : N) : bool := is_lower c || is_digit c.
Class LowerLaws `{Host} : Prop := lower_plain : forall s, forallb lower_char s = true -> toLowerCase s = s.

Lemma or_false_idem v : or_false (or_false v) = or_false v.
Proof. unfold or_false. destruct (truthy v) eqn:E; [by rewrite E|done]. Qed.
Lemma or_false_flag b : or_false (VBoolean b) = VBoolean b.
Proof. by destruct b. Qed.
Lemma flag_written v : form_flag v -> exists b, or_false v = VBoolean b.
Proof. intros [->|[b ->]]; [by exists false|exists b; apply or_false_flag]. Qed.
Lemma text_written v fallback : form_text v -> Forall code_unit fallback -> exists s, value_or v fallback = VString s /\ Forall code_unit s.
Proof.
  intros [->|(s & -> & Hs)] Hf; [by exists fallback|]. unfold value_or. cbn [truthy]. destruct (nonempty s); [by exists s|by exists fallback].
Qed.
Lemma text_trimmed v : form_text v -> exists s, trim_or_empty v = Some s /\ trim s = s /\ Forall code_unit s.
Proof.
  intros [->|(s & -> & Hs)]; [by exists []|]. exists (trim s). split; [done|]. split; [apply trim_trim|by apply trim_units].
Qed.
Lemma value_or_text_empty s : value_or (VString s) [] = VString s.
Proof. by destruct s. Qed.

Section setting.
Context `{Host} {laws : LowerLaws}.

Lemma lower_http1 : toLowerCase HTTP_PROTOCOL_HTTP1 = HTTP_PROTOCOL_HTTP1.
Proof. apply laws. reflexivity. Qed.
Lemma protocol_cases v : normalizeHttpProtocol v = HTTP_PROTOCOL_HTTP1 \/ normalizeHttpProtocol v = HTTP_PROTOCOL_AUTO.
Proof. unfold normalizeHttpProtocol. destruct (str_eqb _ _); auto. Qed.
Lemma protocol_plain s : trim s = s -> forallb lower_char s = true ->
  normalizeHttpProtocol (VString s) = if str_eqb s HTTP_PROTOCOL_HTTP1 then HTTP_PROTOCOL_HTTP1 else HTTP_PROTOCOL_AUTO.
Proof.
  intros Ht Hs. unfold normalizeHttpProtocol. replace (text_or_empty (VString s)) with s by (by destruct s). by rewrite Ht, (laws s Hs).
Qed.
Lemma protocol_none : normalizeHttpProtocol VUndefined = HTTP_PROTOCOL_AUTO.
Proof. unfold normalizeHttpProtocol. change (trim (text_or_empty VUndefined)) with (@nil N). by rewrite (laws [] eq_refl). Qed.
Lemma protocol_http1 : normalizeHttpProtocol (VString HTTP_PROTOCOL_HTTP1) = HTTP_PROTOCOL_HTTP1.
Proof. by rewrite protocol_plain. Qed.
Lemma protocol_auto : normalizeHttpProtocol (VString HTTP_PROTOCOL_AUTO) = HTTP_PROTOCOL_AUTO.
Proof. by rewrite protocol_plain. Qed.

Lemma shards_idem v : normalizeHttp2ConnectionShards (normalizeHttp2ConnectionShards v) = normalizeHttp2ConnectionShards v.
Proof.
  unfold normalizeHttp2ConnectionShards at 2 3. destruct (nullish v) eqn:En; [by vm_compute|].
  destruct (match v with VNumber x => _ | _ => _ end) eqn:E1; [by vm_compute|].
  destruct (num_ltb (value_number v) one) eqn:E2; [by vm_compute|].
  destruct (num_ltb MAX_HTTP2_CONNECTION_SHARDS (value_number v)) eqn:E3; [by vm_compute|].
  unfold normalizeHttp2ConnectionShards. by rewrite En, E1, E2, E3.
Qed.

(** The three ways the object ends. *)
Inductive tail_of : list (str * value) -> value -> value -> Prop :=
| tail_http1 : tail_of [(u "http_protocol", VString HTTP_PROTOCOL_HTTP1)] (VString HTTP_PROTOCOL_HTTP1) VUndefined
| tail_shards v : tail_of [(u "http2_connection_shards", v)] VUndefined v
| tail_none : tail_of [] VUndefined VUndefined.

Lemma setting_fields f tp px tail protocol shards : tail_of tail protocol shards ->
  let r := VObject (setting_base f tp px ++ tail) in
  field r "task_plugin_key" = tp /\
  field r "task_extend_plugin_keys" = (if Z.eqb (cf_type f) CHANNEL_TYPE_NEW_API && (0 <? length (cf_task_extend_plugin_keys f))
    then VArray (map VString (cf_task_extend_plugin_keys f)) else VUndefined) /\
  field r "force_format" = or_false (cf_force_format f) /\ field r "thinking_to_content" = or_false (cf_thinking_to_content f) /\
  field r "proxy" = VString px /\
  field r "pass_through_body_enabled" = VBoolean (negb (Z.eqb (cf_type f) CHANNEL_TYPE_ADVANCED_CUSTOM) && is_true (cf_pass_through_body_enabled f)) /\
  field r "responses_websocket_enabled" = VBoolean (supportsResponsesWebSocket (cf_type f) && is_true (cf_responses_websocket_enabled f)) /\
  field r "system_prompt" = value_or (cf_system_prompt f) [] /\ field r "system_prompt_override" = or_false (cf_system_prompt_override f) /\
  field r "http_protocol" = protocol /\ field r "http2_connection_shards" = shards.
Proof. intros [| |]; cbv zeta; repeat (split; [reflexivity|]); reflexivity. Qed.

(** The values the schema lets through, as far as the [setting] text uses them. *)
Record typed_setting (f : ChannelFormValues) : Prop := {
  tf_plugin : form_text (cf_task_plugin_key f);
  tf_keys : NoDup (cf_task_extend_plugin_keys f);
  tf_key : Forall (fun k => nonempty (trim k) = true /\ Forall code_unit k) (cf_task_extend_plugin_keys f);
  tf_force : form_flag (cf_force_format f);
  tf_thinking : form_flag (cf_thinking_to_content f);
  tf_proxy : form_text (cf_proxy f);
  tf_shards : cf_http2_connection_shards f = VUndefined \/ exists x, cf_http2_connection_shards f = VNumber x /\ json_number_ok x = true;
  tf_prompt : form_text (cf_system_prompt f);
  tf_override : form_flag (cf_system_prompt_override f);
}.

Definition is_http1 (f : ChannelFormValues) : bool := str_eqb (normalizeHttpProtocol (cf_http_protocol f)) HTTP_PROTOCOL_HTTP1.
(** The connections of a form that can have several. *)
Definition form_shards (f : ChannelFormValues) : value :=
  if is_http1 f then VNumber one else normalizeHttp2ConnectionShards (cf_http2_connection_shards f).
Definition written_protocol (f : ChannelFormValues) : value := if is_http1 f then VString HTTP_PROTOCOL_HTTP1 else VUndefined.
Definition written_shards (f : ChannelFormValues) : value :=
  if is_http1 f then VUndefined else if num_ltb one (value_number (form_shards f)) then form_shards f else VUndefined.

Lemma tail_shape f : tail_of (setting_tail f) (written_protocol f) (written_shards f).
Proof.
  unfold setting_tail, written_protocol, written_shards, form_shards. fold (is_http1 f). destruct (is_http1 f); [constructor|].
  cbv zeta. destruct (num_ltb _ _); constructor.
Qed.

Lemma shards_written f : typed_setting f -> json_ok (form_shards f).
Proof.
  intros Hf. unfold form_shards. destruct (is_http1 f); [by vm_compute|].
  destruct (tf_shards f Hf) as [->|(x & -> & Hx)]; [by vm_compute|]. unfold normalizeHttp2ConnectionShards. cbn [nullish value_number].
  destruct (_ || _); [by vm_compute|]. destruct (num_ltb x one); [by vm_compute|]. destruct (num_ltb _ x); [by vm_compute|exact Hx].
Qed.

Lemma setting_keys f tp px : NoDup (setting_base f tp px ++ setting_tail f).*1.
Proof.
  destruct (tail_shape f); rewrite fmap_app; cbn [setting_base fmap list_fmap fst app]; apply (bool_decide_unpack _); vm_compute; exact I.
Qed.

(** The plugin of the text, when the type has one. *)
Definition plugin_of (f : ChannelFormValues) (tp : value) : Prop :=
  if Z.eqb (cf_type f) CHANNEL_TYPE_TASK_PLUGIN then exists s, tp = VString s /\ trim s = s /\ Forall code_unit s else tp = VUndefined.

Lemma setting_written f : typed_setting f -> exists tp px,
  setting_object f = Some (setting_base f tp px ++ setting_tail f) /\ plugin_of f tp /\ trim_or_empty (cf_proxy f) = Some px /\ trim px = px /\
  Forall written_ok (setting_base f tp px ++ setting_tail f).
Proof.
  intros Hf. destruct (text_trimmed _ (tf_proxy f Hf)) as (px & Epx & Htpx & Hpx).
  destruct (text_trimmed _ (tf_plugin f Hf)) as (pk & Epk & Htpk & Hpk).
  exists (if Z.eqb (cf_type f) CHANNEL_TYPE_TASK_PLUGIN then VString pk else VUndefined), px. split; [|split; [|split; [done|split; [done|]]]].
  - unfold setting_object. rewrite Epk, Epx. by destruct (Z.eqb (cf_type f) CHANNEL_TYPE_TASK_PLUGIN).
  - unfold plugin_of. destruct (Z.eqb (cf_type f) CHANNEL_TYPE_TASK_PLUGIN); [by exists pk|done].
  - destruct (flag_written _ (tf_force f Hf)) as [b1 E1]. destruct (flag_written _ (tf_thinking f Hf)) as [b2 E2].
    destruct (flag_written _ (tf_override f Hf)) as [b3 E3]. destruct (text_written _ [] (tf_prompt f Hf)) as (s & E4 & Hs); [constructor|].
    apply List.Forall_app. split.
    + unfold setting_base. rewrite E1, E2, E3, E4.
      assert (forall name v, v = VUndefined \/ json_ok v -> written_ok (u name, v)) as Hw.
      { intros name v [->|Hv]; [by left|right]. split; [apply literal_units|exact Hv]. }
      repeat (apply List.Forall_cons; [apply Hw|]); [..|constructor]; try (right; exact I); try (right; assumption).
      * destruct (Z.eqb _ _); [right; exact Hpk|by left].
      * destruct (_ && _); [right|by left]. apply texts_ok. eapply List.Forall_impl; [|exact (tf_key f Hf)]. by intros k [_ ?].
    + pose proof (shards_written f Hf) as Hsh. unfold setting_tail. fold (is_http1 f). fold (form_shards f).
      assert (forall name v, json_ok v -> Forall written_ok [(u name, v)]) as Hw.
      { intros name v Hv. apply List.Forall_cons; [right; split; [apply literal_units|exact Hv]|apply List.Forall_nil]. }
      destruct (is_http1 f) eqn:Eh; [apply Hw, literal_units|]. destruct (num_ltb _ _); [|apply List.Forall_nil]. exact (Hw _ _ Hsh).
Qed.

(** The keys of plugins that are read back. *)
Lemma plugin_keys_read l : Forall (fun k => nonempty (trim k) = true /\ Forall code_unit k) l ->
  omap (fun key => s ← as_string key; if nonempty (trim s) then Some s else None) (map VString l) = l.
Proof.
  induction 1 as [|k l [Hk _] _ IH]; [done|]. cbn [map omap list_omap as_string mbind option_bind]. rewrite Hk. by f_equal.
Qed.

Definition read_keys (f : ChannelFormValues) : list str :=
  if Z.eqb (cf_type f) CHANNEL_TYPE_NEW_API then cf_task_extend_plugin_keys f else [].

Lemma extend_keys_read f tp px : typed_setting f -> plugin_of f tp ->
  forall r, (forall name, field r name = field (VObject (setting_base f tp px ++ setting_tail f)) name) -> truthy r = true ->
  readTaskExtendPluginKeys (cf_type f) r = read_keys f.
Proof.
  intros Hf Hp r Hr Ht. unfold readTaskExtendPluginKeys, read_keys. rewrite Ht. cbn [negb]. rewrite orb_false_r.
  destruct (Z.eqb (cf_type f) CHANNEL_TYPE_NEW_API) eqn:Et; [|done]. cbn [negb]. rewrite !Hr.
  destruct (setting_fields f tp px _ _ _ (tail_shape f)) as (-> & -> & _). rewrite Et. cbn [andb].
  assert (tp = VUndefined) as -> by (unfold plugin_of in Hp; apply Z.eqb_eq in Et; by rewrite Et in Hp). cbn [nonempty].
  destruct (cf_task_extend_plugin_keys f) as [|k l] eqn:Ek; [done|]. change (0 <? length (k :: l)) with true. cbv iota.
  rewrite <- Ek. rewrite plugin_keys_read by apply Hf. apply set_of_id, Hf.
Qed.

(** What the form shows of a saved [setting] text. *)
Definition shown_extra (f : ChannelFormValues) (tp : value) (px : str) : ExtraSettings := {|
  ex_task_plugin_key := value_or tp []; ex_task_extend_plugin_keys := read_keys f;
  ex_force_format := or_false (cf_force_format f); ex_thinking_to_content := or_false (cf_thinking_to_content f);
  ex_proxy := VString px; ex_http_protocol := VString (normalizeHttpProtocol (cf_http_protocol f));
  ex_http2_connection_shards := if num_ltb one (value_number (form_shards f)) then form_shards f else VNumber one;
  ex_pass_through_body_enabled := VBoolean (negb (Z.eqb (cf_type f) CHANNEL_TYPE_ADVANCED_CUSTOM) && is_true (cf_pass_through_body_enabled f));
  ex_responses_websocket_enabled := VBoolean (supportsResponsesWebSocket (cf_type f) && is_true (cf_responses_websocket_enabled f));
  ex_system_prompt := value_or (cf_system_prompt f) []; ex_system_prompt_override := or_false (cf_system_prompt_override f) |}.

Lemma protocol_shown f : normalizeHttpProtocol (written_protocol f) = normalizeHttpProtocol (cf_http_protocol f) /\
  (if str_eqb (normalizeHttpProtocol (written_protocol f)) HTTP_PROTOCOL_HTTP1 then VNumber one
   else normalizeHttp2ConnectionShards (written_shards f)) =
  (if num_ltb one (value_number (form_shards f)) then form_shards f else VNumber one).
Proof.
  unfold written_protocol, written_shards, form_shards, is_http1. destruct (protocol_cases (cf_http_protocol f)) as [E|E]; rewrite E.
  - rewrite str_eqb_refl, protocol_http1, str_eqb_refl. split; [done|]. by vm_compute.
  - change (str_eqb HTTP_PROTOCOL_AUTO HTTP_PROTOCOL_HTTP1) with false. cbv iota. rewrite protocol_none. split; [done|].
    change (str_eqb HTTP_PROTOCOL_AUTO HTTP_PROTOCOL_HTTP1) with false. cbv iota.
    destruct (num_ltb one _); [apply shards_idem|reflexivity].
Qed.

Lemma extra_read f : typed_setting f -> exists tp px text, buildSettingJSON f = Some text /\
  setting_object f = Some (setting_base f tp px ++ setting_tail f) /\ plugin_of f tp /\ trim_or_empty (cf_proxy f) = Some px /\ trim px = px /\
  nonempty text = true /\ read_extra (cf_type f) text = shown_extra f tp px.
Proof.
  intros Hf. destruct (setting_written f Hf) as (tp & px & Eo & Hp & Epx & Htpx & Hok).
  exists tp, px, (stringify (VObject (setting_base f tp px ++ setting_tail f))). split; [unfold buildSettingJSON; by rewrite Eo|].
  do 4 (split; [done|]). split; [reflexivity|].
  destruct (object_reads_back _ (setting_keys f tp px) Hok) as [Hparse Hfield]. unfold read_extra. rewrite Hparse.
  rewrite (extend_keys_read f tp px Hf Hp _ Hfield eq_refl). rewrite !Hfield.
  destruct (setting_fields f tp px _ _ _ (tail_shape f)) as (-> & _ & -> & -> & -> & -> & -> & -> & -> & -> & ->).
  destruct (protocol_shown f) as [E1 E2]. cbv zeta. rewrite E2, E1. unfold shown_extra.
  by rewrite !or_false_idem, or_false_flag, value_or_idem, value_or_text_empty.
Qed.

(** The fields of a form that the [setting] text holds. *)
Definition extra_fields (f : ChannelFormValues) : ExtraSettings := {|
  ex_task_plugin_key := cf_task_plugin_key f; ex_task_extend_plugin_keys := cf_task_extend_plugin_keys f;
  ex_force_format := cf_force_format f; ex_thinking_to_content := cf_thinking_to_content f; ex_proxy := cf_proxy f;
  ex_http_protocol := cf_http_protocol f; ex_http2_connection_shards := cf_http2_connection_shards f;
  ex_pass_through_body_enabled := cf_pass_through_body_enabled f;
  ex_responses_websocket_enabled := cf_responses_websocket_enabled f; ex_system_prompt := cf_system_prompt f;
  ex_system_prompt_override := cf_system_prompt_override f |}.

Lemma extra_of_channel channel :
  extra_fields (transformChannelToFormDefaults channel) = read_extra (ch_type channel) (default [] (ch_setting channel)).
Proof. unfold extra_fields, transformChannelToFormDefaults. cbn -[read_extra]. by destruct (read_extra _ _). Qed.

Lemma tail_stable f f' : cf_http_protocol f' = VString (normalizeHttpProtocol (cf_http_protocol f)) ->
  cf_http2_connection_shards f' = (if num_ltb one (value_number (form_shards f)) then form_shards f else VNumber one) ->
  setting_tail f' = setting_tail f.
Proof.
  intros Ep Es. unfold setting_tail. rewrite Ep, Es. unfold form_shards, is_http1.
  destruct (protocol_cases (cf_http_protocol f)) as [E|E]; rewrite E.
  - by rewrite protocol_http1, str_eqb_refl.
  - rewrite protocol_auto. change (str_eqb HTTP_PROTOCOL_AUTO HTTP_PROTOCOL_HTTP1) with false. cbv iota zeta.
    set (n := normalizeHttp2ConnectionShards (cf_http2_connection_shards f)).
    destruct (num_ltb one (value_number n)) eqn:El; [unfold n; rewrite shards_idem; fold n; by rewrite El|].
    change (normalizeHttp2ConnectionShards (VNumber one)) with (VNumber one).
    by change (num_ltb one (value_number (VNumber one))) with false.
Qed.

(** Reading and writing the [setting] text again does not change it. *)
Lemma setting_stable f f' tp px : typed_setting f -> plugin_of f tp -> trim px = px -> cf_type f' = cf_type f ->
  setting_object f = Some (setting_base f tp px ++ setting_tail f) -> extra_fields f' = shown_extra f tp px ->
  setting_object f' = setting_object f.
Proof.
  intros Hf Hp Hpx Et Eo Ee. rewrite Eo. unfold extra_fields, shown_extra in Ee.
  injection Ee as E1 E2 E3 E4 E5 E6 E7 E8 E9 E10 E11. unfold setting_object. rewrite (tail_stable f f' E6 E7).
  rewrite Et, E1, E5. cbn [trim_or_empty]. rewrite Hpx.
  assert ((if Z.eqb (cf_type f) CHANNEL_TYPE_TASK_PLUGIN then VString <$> trim_or_empty (value_or tp []) else Some VUndefined) = Some tp) as ->.
  { unfold plugin_of in Hp. destruct (Z.eqb (cf_type f) CHANNEL_TYPE_TASK_PLUGIN); [|by rewrite Hp]. destruct Hp as (s & -> & Hs & _).
    rewrite value_or_text_empty. cbn [trim_or_empty fmap option_fmap option_map]. by rewrite Hs. }
  cbn [mbind option_bind]. do 2 f_equal. unfold setting_base. rewrite Et, E2, E3, E4, E8, E9, E10, E11, !or_false_idem, value_or_idem.
  unfold read_keys. cbn [is_true]. destruct (Z.eqb (cf_type f) CHANNEL_TYPE_NEW_API), (Z.eqb (cf_type f) CHANNEL_TYPE_ADVANCED_CUSTOM),
    (supportsResponsesWebSocket (cf_type f)); reflexivity.
Qed.
End setting.

(** ** The [settings] text *)

(** Every field the form sets or removes, given the object it starts from. *)
Definition update_list (f : ChannelFormValues) (obj : object) : list (str * option value) :=
  let enabled := is_true (cf_upstream_model_update_check_enabled f) in
  [(u "upstream_model_update_check_enabled", Some (VBoolean enabled));
   (u "upstream_model_update_auto_sync_enabled", Some (VBoolean (enabled && is_true (cf_upstream_model_update_auto_sync_enabled f))));
   (u "upstream_model_update_ignored_models",
    Some (VArray (map VString (set_of (trimmed_names (split_char comma (text_or_empty (cf_upstream_model_update_ignored_models f)) []))))))] ++
  (if match default VUndefined (assoc_get (u "upstream_model_update_last_detected_models") obj) with VArray _ => negb enabled | _ => true end
   then [(u "upstream_model_update_last_detected_models", Some (VArray []))] else []) ++
  match default VUndefined (assoc_get (u "upstream_model_update_last_check_time") obj) with
  | VNumber _ => []
  | _ => [(u "upstream_model_update_last_check_time", Some (VNumber zero))]
  end.

Lemma update_fields_list f obj : update_fields f obj = fold_left set_field (update_list f obj) obj.
Proof.
  unfold update_fields, update_list. cbv zeta. rewrite !fold_left_app. cbn [fold_left set_field fst snd].
  destruct (default VUndefined (assoc_get (u "upstream_model_update_last_detected_models") obj));
    destruct (is_true (cf_upstream_model_update_check_enabled f));
    destruct (default VUndefined (assoc_get (u "upstream_model_update_last_check_time") obj)); reflexivity.
Qed.

Definition advanced_list (f : ChannelFormValues) : list (str * option value) :=
  if Z.eqb (cf_type f) CHANNEL_TYPE_ADVANCED_CUSTOM
  then match parseAdvancedCustomConfig (cf_advanced_custom f) with Some v => [(u "advanced_custom", Some v)] | None => [] end
  else [(u "advanced_custom", None)].
Definition fetchable (f : ChannelFormValues) : bool := one_type MODEL_FETCHABLE_TYPES (cf_type f).
Definition all_fields (f : ChannelFormValues) (obj : object) : list (str * option value) :=
  settings_fields f ++ (if fetchable f then update_list f obj else []) ++ advanced_list f.

Definition UPDATE_KEYS : list str := map u
  ["upstream_model_update_check_enabled"; "upstream_model_update_auto_sync_enabled"; "upstream_model_update_ignored_models";
   "upstream_model_update_last_detected_models"; "upstream_model_update_last_check_time"]%string.
Definition FIELD_KEYS : list str := map u
  ["vertex_key_type"; "azure_responses_version"; "openrouter_enterprise"; "aws_key_type"; "allow_service_tier"; "disable_store";
   "allow_safety_identifier"; "allow_include_obfuscation"; "allow_inference_geo"; "allow_speed"; "claude_beta_query";
   "ollama_openai_chat"; "disable_task_polling_sleep"]%string.
(** The keys the form knows. *)
Definition KNOWN_KEYS : list str := FIELD_KEYS ++ UPDATE_KEYS ++ [u "advanced_custom"].

Lemma known_distinct : NoDup KNOWN_KEYS.
Proof. apply (bool_decide_unpack _). vm_compute. exact I. Qed.
Lemma settings_keys f : (settings_fields f).*1 = FIELD_KEYS.
Proof. reflexivity. Qed.
Lemma update_keys f obj : sublist (update_list f obj).*1 UPDATE_KEYS.
Proof.
  unfold update_list. cbv zeta. rewrite !fmap_app. cbn [fmap list_fmap fst app].
  change UPDATE_KEYS with ([u "upstream_model_update_check_enabled"; u "upstream_model_update_auto_sync_enabled";
    u "upstream_model_update_ignored_models"] ++ [u "upstream_model_update_last_detected_models"; u "upstream_model_update_last_check_time"]).
  do 3 apply sublist_skip. apply (sublist_app _ [u "upstream_model_update_last_detected_models"] _ [u "upstream_model_update_last_check_time"]).
  - destruct (match default VUndefined _ with VArray _ => _ | _ => _ end); [done|apply sublist_nil_l].
  - destruct (default VUndefined _); try done. apply sublist_nil_l.
Qed.
Lemma all_fields_keys f obj : sublist (all_fields f obj).*1 KNOWN_KEYS.
Proof.
  unfold all_fields, KNOWN_KEYS. rewrite !fmap_app, settings_keys. apply sublist_app; [done|]. apply sublist_app.
  - destruct (fetchable f); [apply update_keys|apply sublist_nil_l].
  - unfold advanced_list. destruct (Z.eqb _ _); [|done]. destruct (parseAdvancedCustomConfig _); [done|apply sublist_nil_l].
Qed.

Lemma update_list_ext f obj obj' :
  assoc_get (u "upstream_model_update_last_detected_models") obj = assoc_get (u "upstream_model_update_last_detected_models") obj' ->
  assoc_get (u "upstream_model_update_last_check_time") obj = assoc_get (u "upstream_model_update_last_check_time") obj' ->
  update_list f obj = update_list f obj'.
Proof. intros E1 E2. unfold update_list. by rewrite E1, E2. Qed.

Lemma not_field_key name : bool_decide (u name ∈ FIELD_KEYS) = false -> forall f obj,
  assoc_get (u name) (fold_left set_field (settings_fields f) obj) = assoc_get (u name) obj.
Proof. intros E f obj. apply set_fields_other. rewrite settings_keys. by apply bool_decide_eq_false in E. Qed.

(** The object of the text: all its fields set in turn. *)
Lemma settings_object_fields f obj : stored_settings f = Some obj ->
  settings_object f = Some (fold_left set_field (all_fields f obj) obj).
Proof.
  intros Es. unfold settings_object. rewrite Es. cbn [mbind option_bind]. f_equal. unfold all_fields. rewrite !fold_left_app.
  set (obj1 := fold_left set_field (settings_fields f) obj).
  assert ((if one_type MODEL_FETCHABLE_TYPES (cf_type f) then update_fields f obj1 else obj1) =
          fold_left set_field (if fetchable f then update_list f obj else []) obj1) as ->.
  { unfold fetchable. destruct (one_type _ _); [|done]. rewrite update_fields_list. f_equal. apply update_list_ext; by apply not_field_key. }
  unfold advanced_list. destruct (Z.eqb _ _); [|done]. by destruct (parseAdvancedCustomConfig _).
Qed.

(** The values the schema lets through, as far as the [settings] text uses them. *)
Record typed_settings (f : ChannelFormValues) (obj : object) : Prop := {
  ts_stored : stored_settings f = Some obj;
  ts_ok : json_ok (VObject obj);
  ts_vertex : form_text (cf_vertex_key_type f);
  ts_azure : form_text (cf_azure_responses_version f);
  ts_aws : form_text (cf_aws_key_type f);
  ts_ignored : form_text (cf_upstream_model_update_ignored_models f);
  ts_advanced : Z.eqb (cf_type f) CHANNEL_TYPE_ADVANCED_CUSTOM = true ->
    exists v, parseAdvancedCustomConfig (cf_advanced_custom f) = Some v /\ json_ok v;
}.

(** The ignored models as the text lists them. *)
Definition ignored_names (f : ChannelFormValues) : list str :=
  set_of (trimmed_names (split_char comma (text_or_empty (cf_upstream_model_update_ignored_models f)) [])).

Lemma split_units c s piece : Forall code_unit piece -> Forall code_unit s -> Forall (Forall code_unit) (split_char c s piece).
Proof.
  intros Hp Hs. revert piece Hp. induction Hs as [|x s Hx Hs IH]; intros piece Hp; cbn [split_char]; [repeat constructor; by apply Forall_rev|].
  destruct (N.eqb x c); [constructor; [by apply Forall_rev|by apply IH, List.Forall_nil]|]. apply IH. by constructor.
Qed.
Lemma ignored_good f : form_text (cf_upstream_model_update_ignored_models f) ->
  Forall model_name (ignored_names f) /\ Forall (Forall code_unit) (ignored_names f).
Proof.
  intros Hi. unfold ignored_names. split; apply set_of_Forall.
  - apply trimmed_names_good. eapply List.Forall_impl; [|apply split_char_clean, List.Forall_nil]. apply no_comma_trim.
  - assert (Forall code_unit (text_or_empty (cf_upstream_model_update_ignored_models f))) as Ht.
    { destruct Hi as [->|(s & -> & Hs)]; [constructor|]. by destruct s. }
    apply List.Forall_forall. intros s Hs. unfold trimmed_names in Hs. apply filter_In in Hs as [Hs _]. apply in_map_iff in Hs as (x & <- & Hx).
    apply trim_units. pose proof (split_units comma _ [] (List.Forall_nil _) Ht) as Hsp. rewrite List.Forall_forall in Hsp. by apply Hsp.
Qed.

Lemma flag_when_ok keep v w : flag_when keep v = Some w -> json_ok w.
Proof. unfold flag_when. destruct keep; [|done]. intros E. by injection E as <-. Qed.
Lemma text_when_ok (c : bool) v fallback w : form_text v -> Forall code_unit fallback ->
  (if c then Some (value_or v fallback) else None) = Some w -> json_ok w.
Proof. intros Hv Hf. destruct c; [|done]. intros E. injection E as <-. destruct (text_written v fallback Hv Hf) as (s & -> & Hs). exact Hs. Qed.

Definition entries_ok (l : list (str * option value)) : Prop := Forall (fun e => Forall code_unit e.1 /\ forall v, e.2 = Some v -> json_ok v) l.

Lemma settings_fields_ok f obj : typed_settings f obj -> entries_ok (settings_fields f).
Proof.
  intros Hf. unfold entries_ok, settings_fields. cbv zeta.
  repeat (apply List.Forall_cons; [split; [apply literal_units|cbn [snd]; intros v]|]); try apply List.Forall_nil; try apply flag_when_ok.
  - apply text_when_ok; [exact (ts_vertex f obj Hf)|apply literal_units].
  - destruct (ts_azure f obj Hf) as [->|(s & -> & Hs)]; [by rewrite andb_false_r|].
    destruct (_ && _); [|done]. intros E. injection E as <-. exact Hs.
  - apply text_when_ok; [exact (ts_aws f obj Hf)|apply literal_units].
Qed.

Lemma all_fields_ok f obj : typed_settings f obj -> entries_ok (all_fields f obj).
Proof.
  intros Hf. unfold entries_ok, all_fields. rewrite !List.Forall_app. split; [exact (settings_fields_ok f obj Hf)|]. split.
  - destruct (fetchable f); [|apply List.Forall_nil]. unfold update_list. cbv zeta. fold (ignored_names f).
    destruct (ignored_good f (ts_ignored f obj Hf)) as [_ Hi]. rewrite !List.Forall_app. split; [|split].
    + repeat (apply List.Forall_cons; [split; [apply literal_units|cbn [snd]; intros v E; injection E as <-]|]); [exact I|exact I| |apply List.Forall_nil].
      by apply texts_ok.
    + destruct (match default VUndefined _ with VArray _ => _ | _ => _ end); [|apply List.Forall_nil].
      apply List.Forall_cons; [|apply List.Forall_nil]. split; [apply literal_units|]. intros v E. by injection E as <-.
    + assert (entries_ok [(u "upstream_model_update_last_check_time", Some (VNumber zero))]) as Hz.
      { apply List.Forall_cons; [|apply List.Forall_nil]. split; [apply literal_units|]. intros v E. by injection E as <-. }
      destruct (default VUndefined _); try exact Hz. apply List.Forall_nil.
  - unfold advanced_list. destruct (Z.eqb _ _) eqn:Et.
    + destruct (ts_advanced f obj Hf Et) as (v & -> & Hv). apply List.Forall_cons; [|apply List.Forall_nil]. split; [apply literal_units|].
      intros w E. by injection E as <-.
    + apply List.Forall_cons; [|apply List.Forall_nil]. split; [apply literal_units|done].
Qed.

(** What the form shows of a [settings] text. *)
Record shows (parsed : option value) (f : ChannelFormValues) : Prop := {
  sh_enterprise : cf_is_enterprise_account f = read_flag parsed "openrouter_enterprise";
  sh_vertex : cf_vertex_key_type f = read_text parsed "vertex_key_type" (u "json");
  sh_aws : cf_aws_key_type f = read_text parsed "aws_key_type" (u "ak_sk");
  sh_azure : cf_azure_responses_version f = read_text parsed "azure_responses_version" [];
  sh_tier : cf_allow_service_tier f = read_flag parsed "allow_service_tier";
  sh_store : cf_disable_store f = read_flag parsed "disable_store";
  sh_safety : cf_allow_safety_identifier f = read_flag parsed "allow_safety_identifier";
  sh_obfuscation : cf_allow_include_obfuscation f = read_flag parsed "allow_include_obfuscation";
  sh_geo : cf_allow_inference_geo f = read_flag parsed "allow_inference_geo";
  sh_speed : cf_allow_speed f = read_flag parsed "allow_speed";
  sh_beta : cf_claude_beta_query f = read_flag parsed "claude_beta_query";
  sh_ollama : cf_ollama_openai_chat f = read_flag parsed "ollama_openai_chat";
  sh_polling : cf_disable_task_polling_sleep f = read_flag parsed "disable_task_polling_sleep";
  sh_check : cf_upstream_model_update_check_enabled f = read_flag parsed "upstream_model_update_check_enabled";
  sh_sync : cf_upstream_model_update_auto_sync_enabled f = read_flag parsed "upstream_model_update_auto_sync_enabled";
  sh_ignored : cf_upstream_model_update_ignored_models f = read_ignored parsed;
  sh_advanced : cf_advanced_custom f = Some (read_advanced_custom parsed);
}.
Lemma channel_shows `{Host} channel : shows (parsed_text (ch_settings channel)) (transformChannelToFormDefaults channel).
Proof. split; reflexivity. Qed.

(** A field that was written is shown as it was. *)
Lemma flag_again keep v obj name : field (VObject obj) name = default VUndefined (flag_when keep v) ->
  flag_when keep (read_flag (Some (VObject obj)) name) = flag_when keep v.
Proof. intros E. unfold read_flag. rewrite E. by destruct keep. Qed.
Lemma text_again (c : bool) v obj name fallback :
  field (VObject obj) name = default VUndefined (if c then Some (value_or v fallback) else None) ->
  (if c then Some (value_or (read_text (Some (VObject obj)) name fallback) fallback) else None) =
  (if c then Some (value_or v fallback) else None).
Proof.
  intros E. destruct c; [|done]. unfold read_text. rewrite E. change (default VUndefined (Some ?w)) with w. by rewrite !value_or_idem.
Qed.
Lemma azure_again (c : bool) v obj name :
  field (VObject obj) name = default VUndefined (if c && truthy v then Some v else None) ->
  (if c && truthy (read_text (Some (VObject obj)) name []) then Some (read_text (Some (VObject obj)) name []) else None) =
  (if c && truthy v then Some v else None).
Proof.
  intros E. unfold read_text. rewrite E. destruct c; [|done]. cbn [andb]. destruct (truthy v) eqn:Et; [|done].
  change (default VUndefined (Some v)) with v. unfold value_or. by rewrite Et, Et.
Qed.

Lemma settings_fields_again f f' obj : cf_type f' = cf_type f -> shows (Some (VObject obj)) f' ->
  (forall k o, (k, o) ∈ settings_fields f -> assoc_get k obj = o) -> settings_fields f' = settings_fields f.
Proof.
  intros Et Hs Hget.
  assert (forall name o, (u name, o) ∈ settings_fields f -> field (VObject obj) name = default VUndefined o) as Hf
    by (intros name o Hin; cbn [field]; by rewrite (Hget _ _ Hin)).
  unfold settings_fields in Hf |- *. cbv zeta in Hf |- *. rewrite Et.
  rewrite (sh_vertex _ _ Hs), (sh_azure _ _ Hs), (sh_enterprise _ _ Hs), (sh_aws _ _ Hs), (sh_tier _ _ Hs), (sh_store _ _ Hs), (sh_safety _ _ Hs),
    (sh_obfuscation _ _ Hs), (sh_geo _ _ Hs), (sh_speed _ _ Hs), (sh_beta _ _ Hs), (sh_ollama _ _ Hs), (sh_polling _ _ Hs).
  repeat match goal with |- (?k, _) :: _ = (?k, _) :: _ => f_equal; [f_equal|..] end;
    first [apply flag_again | apply azure_again | apply text_again]; apply Hf;
    repeat first [apply list_elem_of_here | apply list_elem_of_further].
Qed.

Section stable.
Context (f : ChannelFormValues) (obj0 : object) (typed : typed_settings f obj0).

(** The object that is saved. *)
Definition saved_object : object := fold_left set_field (all_fields f obj0) obj0.

Lemma saved_get k o : (k, o) ∈ all_fields f obj0 -> assoc_get k saved_object = o.
Proof. apply set_fields_get. eapply sublist_NoDup; [apply known_distinct|apply all_fields_keys]. Qed.
Lemma saved_other k : k ∉ KNOWN_KEYS -> assoc_get k saved_object = assoc_get k obj0.
Proof. intros Hk. apply set_fields_other. intros Hin. apply Hk. by apply (elem_of_sublist _ _ _ Hin (all_fields_keys f obj0)). Qed.
Lemma saved_ok : json_ok (VObject saved_object).
Proof.
  apply set_fields_ok; [|exact (ts_ok f obj0 typed)]. intros k v Hin. pose proof (all_fields_ok f obj0 typed) as Hok.
  unfold entries_ok in Hok. rewrite List.Forall_forall in Hok. apply list_elem_of_In in Hin. destruct (Hok _ Hin) as [Hk Hv].
  split; [exact Hk|by apply Hv].
Qed.

Lemma fetchable_get k o : fetchable f = true -> (k, o) ∈ update_list f obj0 -> assoc_get k saved_object = o.
Proof. intros Ef Hin. apply saved_get. unfold all_fields. rewrite Ef, !elem_of_app. auto. Qed.
(** A field of the updates that is not written is kept. *)
Lemma kept_get name : bool_decide (u name ∈ FIELD_KEYS ++ [u "advanced_custom"]) = false -> u name ∉ (update_list f obj0).*1 ->
  assoc_get (u name) saved_object = assoc_get (u name) obj0.
Proof.
  intros Hn Hu. apply bool_decide_eq_false in Hn. apply set_fields_other. unfold all_fields. rewrite !fmap_app, settings_keys, !elem_of_app.
  rewrite elem_of_app in Hn. intros [Hin|[Hin|Hin]]; [tauto| |].
  - destruct (fetchable f); [done|]. by apply not_elem_of_nil in Hin.
  - apply Hn. right. unfold advanced_list in Hin. destruct (Z.eqb _ _); [|done]. destruct (parseAdvancedCustomConfig _); [done|].
    by apply not_elem_of_nil in Hin.
Qed.

Definition enabled : bool := is_true (cf_upstream_model_update_check_enabled f).

Lemma detected_saved : fetchable f = true -> exists items,
  assoc_get (u "upstream_model_update_last_detected_models") saved_object = Some (VArray items) /\ (enabled = false -> items = []).
Proof.
  intros Ef. destruct (match default VUndefined (assoc_get (u "upstream_model_update_last_detected_models") obj0) with VArray _ => negb enabled | _ => true end) eqn:Ec.
  - exists []. split; [|done]. apply (fetchable_get _ (Some (VArray []))); [done|]. unfold update_list. cbv zeta. fold enabled. rewrite Ec.
    rewrite !elem_of_app. right. left. apply list_elem_of_here.
  - destruct (assoc_get (u "upstream_model_update_last_detected_models") obj0) as [[| | | | |items|]|] eqn:Ed; try discriminate Ec.
    cbn in Ec. apply negb_false_iff in Ec. exists items. split; [|by rewrite Ec]. rewrite kept_get; [done|by vm_compute|].
    unfold update_list. cbv zeta. fold enabled. rewrite Ed, Ec. cbn [default from_option id negb]. rewrite !fmap_app.
    destruct (default VUndefined (assoc_get (u "upstream_model_update_last_check_time") obj0)); apply (bool_decide_unpack _); vm_compute; exact I.
Qed.

Lemma time_saved : fetchable f = true -> exists x, assoc_get (u "upstream_model_update_last_check_time") saved_object = Some (VNumber x).
Proof.
  intros Ef. destruct (default VUndefined (assoc_get (u "upstream_model_update_last_check_time") obj0)) as [| | |x| | |] eqn:Et.
  4: { exists x. assert (assoc_get (u "upstream_model_update_last_check_time") obj0 = Some (VNumber x)) as E0
         by (destruct (assoc_get (u "upstream_model_update_last_check_time") obj0); cbn in Et; congruence).
       rewrite kept_get; [done|by vm_compute|]. unfold update_list. cbv zeta. rewrite Et. rewrite app_nil_r, fmap_app.
       destruct (match default VUndefined _ with VArray _ => _ | _ => _ end); apply (bool_decide_unpack _); vm_compute; exact I. }
  all: exists zero; apply (fetchable_get _ (Some (VNumber zero))); [done|]; unfold update_list; cbv zeta; rewrite Et, !elem_of_app; right; right; apply list_elem_of_here.
Qed.
End stable.

Lemma to_string_texts l : to_string (VArray (map VString l)) = join (u ",") l.
Proof. cbn [to_string]. f_equal. induction l as [|s l IH]; [done|]. cbn [map nullish to_string]. by rewrite IH. Qed.

Lemma names_again l : Forall model_name l -> NoDup l -> set_of (trimmed_names (split_char comma (join (u ",") l) [])) = l.
Proof.
  intros Hl Hnd. pose proof (parse_join l Hl) as E. change (u ",") with [comma]. unfold parseModelsString in E.
  destruct (nonempty (join [comma] l)) eqn:En; [by rewrite E, set_of_id|]. apply nonempty_nil in En. rewrite En, <- E. done.
Qed.

Lemma config_text_nonblank v : v <> VUndefined -> nonempty (trim (stringify_indented 0 (VObject [(u "advanced_routes", v)]))) = true.
Proof.
  intros Hv. assert (exists m, stringify_indented 0 (VObject [(u "advanced_routes", v)]) = 123%N :: m ++ [125%N]) as [m ->].
  { cbn [stringify_indented]. unfold bracketed. destruct v; try done; (eexists; rewrite !app_assoc; cbn [app]; reflexivity). }
  rewrite (trimmed_ends (123%N :: m ++ [125%N]) 123 125); [done|done|done|]. right. by exists m.
Qed.

(** The configuration that is stored is read back. *)
Lemma advanced_again text v : parseAdvancedCustomConfig text = Some v -> json_ok v ->
  truthy v = true /\ parseAdvancedCustomConfig (Some (default [] (stringify_indented 0 <$> normalize_config_value v))) = Some v.
Proof.
  unfold parseAdvancedCustomConfig at 1. cbv zeta. destruct (negb _); [done|]. destruct (json_parse _) as [[| | | | | |fields]|]; try done.
  intros Hn Hok. pose proof (normalize_config_idem _ _ Hn) as Hi. rewrite Hi. cbn [fmap option_fmap option_map]. change (default [] (Some ?t)) with t.
  assert (exists routes, v = VObject [(u "advanced_routes", VArray routes)]) as [routes ->].
  { unfold normalize_config_value in Hn. destruct (match field (VObject fields) "advanced_routes" with VArray _ => _ | _ => _ end) as [routes|]; [|done].
    injection Hn as <-. by exists routes. }
  split; [done|]. unfold parseAdvancedCustomConfig. change (default [] (Some ?t)) with t. cbv zeta. rewrite config_text_nonblank by done.
  cbn [negb]. by rewrite (json_parse_indented _ Hok).
Qed.

(** The fields of the updates would be written as they are. *)
Lemma updates_again f obj0 f' k o : typed_settings f obj0 -> fetchable f = true -> shows (Some (VObject (saved_object f obj0))) f' ->
  (k, o) ∈ update_list f' (saved_object f obj0) -> assoc_get k (saved_object f obj0) = o.
Proof.
  intros Hf Ef Hs Hin. set (obj := saved_object f obj0) in *.
  pose proof (fetchable_get f obj0 (u "upstream_model_update_check_enabled") (Some (VBoolean (enabled f))) Ef ltac:(apply list_elem_of_here)) as G1.
  pose proof (fetchable_get f obj0 (u "upstream_model_update_auto_sync_enabled")
    (Some (VBoolean (enabled f && is_true (cf_upstream_model_update_auto_sync_enabled f)))) Ef
    ltac:(apply list_elem_of_further, list_elem_of_here)) as G2.
  pose proof (fetchable_get f obj0 (u "upstream_model_update_ignored_models") (Some (VArray (map VString (ignored_names f)))) Ef
    ltac:(do 2 apply list_elem_of_further; apply list_elem_of_here)) as G3. fold obj in G1, G2, G3.
  destruct (detected_saved f obj0 Ef) as (items & G4 & Hitems). destruct (time_saved f obj0 Ef) as [x G5]. fold obj in G4, G5.
  assert (is_true (cf_upstream_model_update_check_enabled f') = enabled f) as En
    by (rewrite (sh_check _ _ Hs); unfold read_flag; cbn [field]; by rewrite G1).
  assert (ignored_names f' = ignored_names f) as Ei.
  { destruct (ignored_good f (ts_ignored f obj0 Hf)) as [Hg _]. unfold ignored_names at 1. rewrite (sh_ignored _ _ Hs).
    unfold read_ignored. cbn [field]. rewrite G3. change (default VUndefined (Some ?w)) with w. cbv iota. rewrite to_string_texts.
    replace (text_or_empty (VString (join (u ",") (ignored_names f)))) with (join (u ",") (ignored_names f)) by (by destruct (join _ _)).
    apply names_again; [done|apply set_of_NoDup]. }
  unfold update_list in Hin. cbv zeta in Hin. fold (ignored_names f') in Hin. rewrite G4, G5, En, Ei in Hin.
  change (default VUndefined (Some ?w)) with w in Hin. cbv iota in Hin. rewrite app_nil_r, elem_of_app, !elem_of_cons in Hin.
  destruct Hin as [[E|[E|[E|E]]]|E]; [injection E as -> -> ..| |].
  + exact G1.
  + rewrite G2, (sh_sync _ _ Hs). unfold read_flag. cbn [field]. rewrite G2. cbn. by destruct (enabled f).
  + exact G3.
  + by apply not_elem_of_nil in E.
  + destruct (enabled f) eqn:Een; [by apply not_elem_of_nil in E|]. apply list_elem_of_singleton in E. injection E as -> ->.
    rewrite G4. by rewrite Hitems.
Qed.

Lemma advanced_saved f obj0 f' k o : typed_settings f obj0 -> cf_type f' = cf_type f -> shows (Some (VObject (saved_object f obj0))) f' ->
  (k, o) ∈ advanced_list f' -> assoc_get k (saved_object f obj0) = o.
Proof.
  intros Hf Et Hs Hin. set (obj := saved_object f obj0) in *.
  unfold advanced_list in Hin. rewrite Et in Hin. destruct (Z.eqb (cf_type f) CHANNEL_TYPE_ADVANCED_CUSTOM) eqn:E58.
  + destruct (ts_advanced f obj0 Hf E58) as (v & Ev & Hv).
    assert (assoc_get (u "advanced_custom") obj = Some v) as G.
    { apply saved_get. unfold all_fields, advanced_list. rewrite E58, Ev, !elem_of_app. right. right. apply list_elem_of_here. }
    destruct (advanced_again _ _ Ev Hv) as [Htr Hag]. rewrite (sh_advanced _ _ Hs) in Hin. unfold read_advanced_custom in Hin.
    cbn [field] in Hin. rewrite G in Hin. change (default VUndefined (Some v)) with v in Hin. cbv zeta in Hin. rewrite Htr, Hag in Hin.
    apply list_elem_of_singleton in Hin. injection Hin as -> ->. exact G.
  + apply list_elem_of_singleton in Hin. injection Hin as -> ->. apply saved_get. unfold all_fields, advanced_list.
    rewrite E58, !elem_of_app. right. right. apply list_elem_of_here.
Qed.

(** Reading and writing the [settings] text again does not change it. *)
Lemma settings_stable f obj0 f' : typed_settings f obj0 -> cf_type f' = cf_type f ->
  shows (Some (VObject (saved_object f obj0))) f' -> stored_settings f' = Some (saved_object f obj0) ->
  settings_fields f' = settings_fields f /\ settings_object f' = Some (saved_object f obj0).
Proof.
  intros Hf Et Hs Hst. set (obj := saved_object f obj0) in *.
  assert (settings_fields f' = settings_fields f) as Hsf.
  { apply (settings_fields_again f f' obj Et Hs). intros k o Hin. apply saved_get. unfold all_fields. apply elem_of_app. by left. }
  split; [done|]. rewrite (settings_object_fields f' obj Hst). f_equal. apply set_fields_same. intros k o Hin. unfold all_fields in Hin.
  rewrite !elem_of_app in Hin. destruct Hin as [Hin|[Hin|Hin]].
  - rewrite Hsf in Hin. apply saved_get. unfold all_fields. apply elem_of_app. by left.
  - assert (fetchable f = true) as Ef by (unfold fetchable in Hin |- *; rewrite Et in Hin; destruct (one_type _ _); [done|by apply not_elem_of_nil in Hin]).
    assert (fetchable f' = true) as Ef' by (unfold fetchable; by rewrite Et).
    rewrite Ef' in Hin. exact (updates_again f obj0 f' k o Hf Ef Hs Hin).
  - exact (advanced_saved f obj0 f' k o Hf Et Hs Hin).
Qed.

(** ** Saving *)

Lemma stored_again f' obj : json_ok (VObject obj) -> cf_settings f' = Some (stringify (VObject obj)) -> stored_settings f' = Some obj.
Proof.
  intros Hok Ec. unfold stored_settings. rewrite Ec. change (default [] (Some ?t)) with t. cbv zeta.
  change (nonempty (stringify (VObject obj))) with true. cbn [andb]. pose proof (json_parse_text _ Hok) as Ep. rewrite Ep.
  destruct (str_eqb _ _) eqn:E; [|done]. apply str_eqb_eq in E. rewrite E in Ep. cbn [negb]. cbv iota. change (json_parse (u "{}")) with (Some (VObject [])) in Ep.
  congruence.
Qed.

(** C19: The settings of a channel survive being saved and edited again.  A form the schema
    lets through writes its two JSON texts; when the saved channel is opened, the form shows
    the fields of the first text in normal form, and sending the unchanged form writes both
    texts again, character for character.  In the second text every key the form does not
    know keeps the value it had. *)
Theorem saved_settings_are_stable `{Host} {laws : LowerLaws} f stored :
  typed_setting f -> typed_settings f stored ->
  exists tp px setting settings obj, buildSettingJSON f = Some setting /\ buildSettingsJSON f = Some settings /\
    plugin_of f tp /\ trim_or_empty (cf_proxy f) = Some px /\
    json_parse settings = Some (VObject obj) /\ (forall k, k ∉ KNOWN_KEYS -> assoc_get k obj = assoc_get k stored) /\
    forall channel, ch_type channel = cf_type f -> ch_setting channel = Some setting -> ch_settings channel = settings ->
      let f' := transformChannelToFormDefaults channel in
      extra_fields f' = shown_extra f tp px /\ settings_fields f' = settings_fields f /\
      buildSettingJSON f' = Some setting /\ buildSettingsJSON f' = Some settings.
Proof.
  intros H1 H2. destruct (extra_read f H1) as (tp & px & setting & Eb & Eo & Hp & Epx & Hpx & Hne & Er).
  pose proof (saved_ok f stored H2) as Hok. set (obj := saved_object f stored) in *. pose proof (settings_object_fields f stored (ts_stored _ _ H2)) as Es.
  exists tp, px, setting, (stringify (VObject obj)), obj. split; [done|]. split; [unfold buildSettingsJSON; by rewrite Es|].
  split; [done|]. split; [done|]. split; [by apply json_parse_text|]. split; [apply saved_other|].
  intros channel Et Ec1 Ec2 f'.
  assert (extra_fields f' = shown_extra f tp px) as Ee by (unfold f'; rewrite extra_of_channel, Et, Ec1; exact Er).
  assert (cf_type f' = cf_type f) as Et' by exact Et.
  assert (shows (Some (VObject obj)) f') as Hs.
  { replace (Some (VObject obj)) with (parsed_text (ch_settings channel)); [apply channel_shows|].
    rewrite Ec2. unfold parsed_text. change (nonempty (stringify (VObject obj))) with true. cbv iota. by rewrite json_parse_text. }
  assert (stored_settings f' = Some obj) as Hst by (apply stored_again; [done|]; unfold f'; cbn [cf_settings transformChannelToFormDefaults]; by rewrite Ec2).
  destruct (settings_stable f stored f' H2 Et' Hs Hst) as [Hsf Hso]. split; [done|]. split; [done|]. split.
  - unfold buildSettingJSON. rewrite (setting_stable f f' tp px H1 Hp Hpx Et' Eo Ee). exact Eb.
  - unfold buildSettingsJSON. by rewrite Hso.
Qed.

(** ** What is sent *)

Lemma clean_up_get k payload : assoc_get k (clean_up payload) = (fun v => match v with VString [] => VNull | _ => v end) <$> assoc_get k payload.
Proof.
  induction payload as [|[k' v] l IH]; [done|]. cbn [clean_up map assoc_get snd fst].
  destruct v as [| | | |[|c s]| |]; cbn [assoc_get]; (destruct (decide (k' = k)); [done|exact IH]).
Qed.

Lemma texts_set k l payload : NoDup l.*1 -> assoc_get k (fold_left (fun p (e : str * str) => assoc_set e.1 (VString e.2) p) l payload) =
  match assoc_get k l with Some s => Some (VString s) | None => assoc_get k payload end.
Proof.
  revert payload. induction l as [|[k' s] l IH]; intros payload Hnd; [done|]. cbn [fmap list_fmap fst] in Hnd. apply list.NoDup_cons in Hnd as [Hk Hnd].
  cbn [fold_left assoc_get fst snd]. rewrite IH by done. rewrite assoc_get_set. destruct (decide (k' = k)) as [->|]; [|done].
  by rewrite (proj2 (assoc_get_None k l) Hk).
Qed.

(** An update sends the fields a user can clear as texts, empty or not, no other empty text,
    and the key only when one was typed; a new channel is sent without empty texts. *)
Lemma payload_texts `{Host} f id payload created :
  transformFormDataToUpdatePayload f id = Some payload -> transformFormDataToCreatePayload f = Some created ->
  (forall name text, (name, text) ∈ explicit_texts f -> assoc_get name payload = Some (VString text)) /\
  (forall k, assoc_get k (explicit_texts f) = None -> assoc_get k payload <> Some (VString [])) /\
  assoc_get (u "key") payload = (if nonempty (trim (cf_key f)) then Some (VString (cf_key f)) else None) /\
  forall k, assoc_get k (cp_channel created) <> Some (VString []).
Proof.
  assert (NoDup (explicit_texts f).*1) as Hnd by (apply (bool_decide_unpack _); vm_compute; exact I).
  assert (forall k p, assoc_get k (clean_up p) <> Some (VString [])) as Hclean.
  { intros k p. rewrite clean_up_get. destruct (assoc_get k p) as [[| | | |[|]| |]|]; discriminate. }
  unfold transformFormDataToUpdatePayload, transformFormDataToCreatePayload.
  destruct (buildSettingJSON f) as [setting|]; [|done]. destruct (buildSettingsJSON f) as [settings|]; [|done]. cbn [mbind option_bind]. cbv zeta.
  match goal with |- Some (fold_left _ _ (clean_up ?p)) = _ -> _ => set (sent := p) end. intros Ep Ec.
  match type of Ep with Some ?p = _ => assert (payload = p) as -> by congruence end.
  match type of Ec with Some ?p = _ => assert (created = p) as -> by congruence end. clear Ep Ec.
  split; [|split; [|split]].
  - intros name text Hin. rewrite texts_set by done. by rewrite (assoc_get_elem _ _ _ Hnd Hin).
  - intros k Hk. rewrite texts_set by done. rewrite Hk. apply Hclean.
  - rewrite texts_set by done. change (assoc_get (u "key") (explicit_texts f)) with (@None str). cbv iota. rewrite clean_up_get. unfold sent.
    destruct (nonempty (trim (cf_key f))) eqn:Ek; [|reflexivity]. rewrite assoc_get_set_eq. cbn [fmap option_fmap option_map].
    destruct (cf_key f); [done|reflexivity].
  - intros k. apply Hclean.
Qed.

(** ** Examples *)

Lemma two_zones_lower : LowerLaws (H := two_zones).
Proof.
  intros s. change (forallb lower_char s = true -> ascii_lower s = s). unfold ascii_lower. induction s as [|c s IH]; [done|]. cbn [forallb map].
  rewrite andb_true_iff. intros [Hc Hs]. f_equal; [|by apply IH]. destruct (is_upper c) eqn:Eu; [exfalso|done].
  unfold lower_char, is_lower, is_digit, is_upper, in_range in *. rewrite !andb_true_iff, !N.leb_le in Eu. rewrite orb_true_iff, !andb_true_iff, !N.leb_le in Hc. lia.
Qed.

(** A channel of the type New API, with keys the form does not know. *)
Definition sample_channel : Channel := {|
  ch_type := 60; ch_openai_organization := None; ch_test_model := None; ch_status := one; ch_name := u "relay"; ch_weight := None;
  ch_base_url := Some (u "https://example.com/"); ch_other := []; ch_models := u "gpt-4"; ch_group := u "default, vip"; ch_model_mapping := None;
  ch_status_code_mapping := None; ch_priority := None; ch_auto_ban := None; ch_tag := None;
  ch_setting := Some (uq "{'proxy': ' socks5://h ', 'task_extend_plugin_keys': ['kling'], 'http2_connection_shards': 12}");
  ch_param_override := None; ch_header_override := None; ch_remark := []; ch_multi_key_mode := None;
  ch_settings := uq "{'custom': [1], 'disable_store': true, 'upstream_model_update_ignored_models': ['a', ' b ', 'a']}" |}.
Definition sample_values : ChannelFormValues := Eval vm_compute in transformChannelToFormDefaults (H := two_zones) sample_channel.
Definition sample_stored : object := Eval vm_compute in default [] (stored_settings sample_values).

Lemma saved_settings_are_stable_witness : exists setting settings,
  buildSettingJSON (H := two_zones) sample_values = Some setting /\ buildSettingsJSON sample_values = Some settings /\
  forall channel, ch_type channel = 60%Z -> ch_setting channel = Some setting -> ch_settings channel = settings ->
    buildSettingJSON (H := two_zones) (transformChannelToFormDefaults (H := two_zones) channel) = Some setting.
Proof.
  assert (forall s, forallb (fun c => (c <? 65536)%N) s = true -> Forall code_unit s) as Hunits.
  { intros s Hs. apply List.Forall_forall. intros c Hc. rewrite forallb_forall in Hs. apply N.ltb_lt. by apply Hs. }
  assert (typed_setting sample_values) as H1.
  { split; try (right; eexists; split; [reflexivity|apply Hunits; vm_compute; reflexivity]); try (right; eexists; reflexivity).
    - apply (bool_decide_unpack _). vm_compute. exact I.
    - apply List.Forall_cons; [|apply List.Forall_nil]. split; [vm_compute; reflexivity|apply Hunits; vm_compute; reflexivity].
    - right. eexists. split; [reflexivity|vm_compute; reflexivity]. }
  assert (typed_settings sample_values sample_stored) as H2.
  { split; try (right; eexists; split; [reflexivity|apply Hunits; vm_compute; reflexivity]).
    - vm_compute. reflexivity.
    - apply json_ok_fields. split; [apply (bool_decide_unpack _); vm_compute; exact I|].
      repeat (apply List.Forall_cons; [split; [apply Hunits; vm_compute; reflexivity|]|]); [| | |apply List.Forall_nil].
      + apply json_ok_items. apply List.Forall_cons; [vm_compute; reflexivity|apply List.Forall_nil].
      + exact I.
      + apply json_ok_items. repeat (apply List.Forall_cons; [apply Hunits; vm_compute; reflexivity|]). apply List.Forall_nil.
    - intros E. vm_compute in E. discriminate. }
  destruct (saved_settings_are_stable (H := two_zones) (laws := two_zones_lower) sample_values sample_stored H1 H2)
    as (tp & px & setting & settings & obj & E1 & E2 & _ & _ & _ & _ & Hst).
  exists setting, settings. split; [exact E1|]. split; [exact E2|]. intros channel Et Ec1 Ec2. apply (Hst channel Et Ec1 Ec2).
Defined.

(** The shards are cut to the limit, the names of ignored models are cleaned up, and the key
    the form does not know is kept. *)
Example sample_texts :
  (buildSettingJSON (H := two_zones) sample_values, buildSettingsJSON sample_values) =
  (Some (uq "{'task_extend_plugin_keys':['kling'],'force_format':false,'thinking_to_content':false,'proxy':'socks5://h','pass_through_body_enabled':false,'responses_websocket_enabled':false,'system_prompt':'','system_prompt_override':false,'http2_connection_shards':8}"),
   Some (uq "{'custom':[1],'disable_store':true,'upstream_model_update_ignored_models':['a','b'],'allow_service_tier':false,'allow_safety_identifier':false,'allow_include_obfuscation':false,'allow_inference_geo':false,'allow_speed':false,'disable_task_polling_sleep':false,'upstream_model_update_check_enabled':false,'upstream_model_update_auto_sync_enabled':false,'upstream_model_update_last_detected_models':[],'upstream_model_update_last_check_time':0}")).
Proof. vm_compute. reflexivity. Qed.

(** The schema refuses the empty form, and several connections with HTTP/1.1. *)
Example default_values_are_refused :
  (map fst (field_issues (fun _ => None) CHANNEL_FORM_DEFAULT_VALUES), superRefine (H := two_zones) no_url CHANNEL_FORM_DEFAULT_VALUES) =
  ([u "name"; u "models"], Some []).
Proof. vm_compute. reflexivity. Qed.
