(* ===== verification/FlowGraph.v ===== *)
(** * The flow of the dashboard

    [features/dashboard/lib/flow.ts] (types in [features/dashboard/types.ts]): the rows
    of the usage log become paths through the visible stages, the paths become the
    nodes and links of a Sankey graph, with the filters, the limit on the nodes of a
    stage, the highlighted selection and the masking of labels.

    A [Map] is an association list in the order of insertion and a [Set] a list without
    duplicates; the objects a map holds are reached by their key only, so a mutation of
    one is an assignment to its key.  The colours of the chart library and the order of
    [localeCompare] are parameters. *)

From Stdlib Require Import String.
From S2P Require Import Prelude JsNumber JsArray JsString JsText Ast Request BillingTime Json TaskExpr Currency.

#[local] Open Scope nat_scope.

(** ** Data *)

Inductive FlowMetric : Type := M_quota | M_tokens | M_requests.
Inductive FlowOverflowMode : Type := O_aggregate | O_hide.
Inductive FlowRole : Type := R_user | R_admin | R_root.
Inductive FlowNodeKind : Type := K_user | K_node | K_token | K_group | K_model | K_channel.
#[export] Instance FlowNodeKind_eq_dec : EqDecision FlowNodeKind.
Proof. solve_decision. Defined.

Record FlowQuotaDataItem : Type := {
  q_user_id : option number;
  q_username : option str;
  q_node_name : option str;
  q_use_group : option str;
  q_token_id : option number;
  q_token_name : option str;
  q_channel_id : option number;
  q_channel_name : option str;
  q_model_name : option str;
  q_token_used : option number;
  q_count : option number;
  q_quota : option number;
}.

Record FlowMetrics : Type := { m_quota : number; m_tokens : number; m_requests : number }.
Record FlowPathNode : Type := { p_id : str; p_label : str; p_kind : FlowNodeKind }.
Record PreparedFlowPath : Type := { pp_path : list FlowPathNode; pp_metrics : FlowMetrics }.
Record FlowNodeRank : Type := { rk_node : FlowPathNode; rk_value : number }.
Record FlowPathContext : Type := { c_deletedTokenLabel : option (number -> str) }.
Record FlowNodeFilter : Type := { nf_kind : FlowNodeKind; nf_id : str }.
Record FlowLinkSelection : Type := { ls_source : str; ls_target : str }.
Record FlowHighlightSets : Type := { hs_nodes : list str; hs_links : list str }.

Record DashboardFlowNode : Type := {
  n_id : str;
  n_label : str;
  n_kind : FlowNodeKind;
  n_value : number;
  n_requests : number;
  n_quota : number;
  n_tokens : number;
  n_color : str;
  n_colorKey : str;
  n_highlighted : option bool;
  n_dimmed : option bool;
}.

Record DashboardFlowLink : Type := {
  l_source : str;
  l_target : str;
  l_value : number;
  l_requests : number;
  l_quota : number;
  l_tokens : number;
  l_sourceLabel : str;
  l_targetLabel : str;
  l_color : str;
  l_linkColor : str;
  l_linkAlpha : number;
  l_hoverColor : str;
  l_colorKey : str;
  l_share : number;
  l_highlighted : option bool;
  l_dimmed : option bool;
}.
Record DashboardFlowGraph : Type := {
  g_nodes : list DashboardFlowNode;
  g_links : list DashboardFlowLink;
}.

Record FlowGraphOptions : Type := {
  go_topNodeLimit : option number;
  go_overflowMode : option FlowOverflowMode;
  go_otherNodeLabel : option (FlowNodeKind -> str);
  go_activeNode : option FlowNodeFilter;
  go_activeLink : option FlowLinkSelection;
  go_maskSensitive : option bool;
}.

Definition EMPTY_FLOW_PATH_CONTEXT : FlowPathContext := {| c_deletedTokenLabel := None |}.
Definition DEFAULT_FLOW_ROLE : FlowRole := R_user.
Definition DEFAULT_FLOW_OVERFLOW_MODE : FlowOverflowMode := O_aggregate.
Definition DEFAULT_FLOW_CHART_COLOR : str := u "#1664FF".
Definition FLOW_NODE_KINDS : list FlowNodeKind := [K_user; K_node; K_token; K_group; K_model; K_channel].

(** The text of a kind: the constructors of the source are these strings. *)
Definition kind_text (kind : FlowNodeKind) : str :=
  match kind with
  | K_user => u "user" | K_node => u "node" | K_token => u "token"
  | K_group => u "group" | K_model => u "model" | K_channel => u "channel"
  end.
Definition OTHER_FLOW_NODE_IDS (kind : FlowNodeKind) : str :=
  match kind with
  | K_user => u "user:__other__" | K_node => u "node:__other__" | K_token => u "token:__other__"
  | K_group => u "group:__other__" | K_model => u "model:__other__" | K_channel => u "channel:__other__"
  end.
Definition DEFAULT_OTHER_FLOW_NODE_LABELS (kind : FlowNodeKind) : str :=
  match kind with
  | K_user => u "Other users" | K_node => u "Other nodes" | K_token => u "Other tokens"
  | K_group => u "Other groups" | K_model => u "Other models" | K_channel => u "Other channels"
  end.
Definition SENSITIVE_FLOW_KINDS : list FlowNodeKind := [K_user; K_node; K_token; K_group; K_channel].
Definition OTHER_FLOW_NODE_ID_SET : list str := map OTHER_FLOW_NODE_IDS FLOW_NODE_KINDS.

(** ** The nodes of a row *)

(** [Number(value)]; an array or object is read through its text. *)
Definition Number_of (v : value) : number :=
  match v with
  | VUndefined => NaN
  | VNull => zero
  | VBoolean b => if b then one else zero
  | VNumber x => x
  | VString s => to_number s
  | VArray _ | VObject _ => to_number (to_string v)
  end.
Definition numberValue (v : value) : number :=
  let n := Number_of v in if num_is_finite n then n else zero.
(** A field of a row as a value. *)
Definition field_number (o : option number) : value :=
  match o with Some x => VNumber x | None => VUndefined end.
(** [text || fallback] *)
Definition text_or (o : option str) (fallback : str) : str :=
  match o with Some (c :: s) => c :: s | _ => fallback end.

Definition isFlowNodeKind (v : value) : option FlowNodeKind :=
  match v with VString s => List.find (fun kind => str_eqb (kind_text kind) s) FLOW_NODE_KINDS | _ => None end.

Definition rowMetrics (row : FlowQuotaDataItem) : FlowMetrics :=
  {| m_quota := numberValue (field_number (q_quota row));
     m_tokens := numberValue (field_number (q_token_used row));
     m_requests := numberValue (field_number (q_count row)) |}.

Definition metricValue (metrics : FlowMetrics) (metric : FlowMetric) : number :=
  match metric with M_requests => m_requests metrics | M_tokens => m_tokens metrics | M_quota => m_quota metrics end.

Definition userNode (row : FlowQuotaDataItem) : FlowPathNode :=
  let userID := numberValue (field_number (q_user_id row)) in
  {| p_id := if num_gtb userID zero then u "user:" ++ number_to_string userID
             else u "user:" ++ text_or (q_username row) (u "unknown");
     p_label := text_or (q_username row)
       (if num_gtb userID zero then u "user-" ++ number_to_string userID else u "Unknown User");
     p_kind := K_user |}.

Definition nodeNameNode (row : FlowQuotaDataItem) : FlowPathNode :=
  let nodeName := text_or (q_node_name row) (u "default-node") in
  {| p_id := u "node:" ++ nodeName; p_label := nodeName; p_kind := K_node |}.

Definition deletedTokenLabel (tokenID : number) (ctx : FlowPathContext) : str :=
  if num_leb tokenID zero then u "Unknown Token"
  else match c_deletedTokenLabel ctx with
       | Some label => label tokenID
       | None => u "token-" ++ number_to_string tokenID
       end.

Definition tokenNode (row : FlowQuotaDataItem) (ctx : FlowPathContext) : FlowPathNode :=
  let tokenID := numberValue (field_number (q_token_id row)) in
  {| p_id := if num_gtb tokenID zero then u "token:" ++ number_to_string tokenID
             else u "token:" ++ text_or (q_token_name row) (u "unknown");
     p_label := text_or (q_token_name row) (deletedTokenLabel tokenID ctx);
     p_kind := K_token |}.

Definition groupNode (row : FlowQuotaDataItem) : FlowPathNode :=
  let useGroup := text_or (q_use_group row) (u "unknown") in
  {| p_id := u "group:" ++ useGroup; p_label := useGroup; p_kind := K_group |}.

Definition modelNode (row : FlowQuotaDataItem) : FlowPathNode :=
  let model := text_or (q_model_name row) (u "unknown") in
  {| p_id := u "model:" ++ model; p_label := text_or (q_model_name row) (u "Unknown Model"); p_kind := K_model |}.

Definition channelNode (row : FlowQuotaDataItem) : FlowPathNode :=
  let channelID := numberValue (field_number (q_channel_id row)) in
  {| p_id := if num_gtb channelID zero then u "channel:" ++ number_to_string channelID
             else u "channel:" ++ text_or (q_channel_name row) (u "unknown");
     p_label := text_or (q_channel_name row)
       (if num_gtb channelID zero then u "channel-" ++ number_to_string channelID else u "Unknown");
     p_kind := K_channel |}.

Definition NODE_BUILDERS (kind : FlowNodeKind) (row : FlowQuotaDataItem) (ctx : FlowPathContext) : FlowPathNode :=
  match kind with
  | K_user => userNode row | K_node => nodeNameNode row | K_token => tokenNode row ctx
  | K_group => groupNode row | K_model => modelNode row | K_channel => channelNode row
  end.

(** ** Stages *)

Definition ROLE_FLOW_STAGES (role : FlowRole) : list FlowNodeKind :=
  match role with
  | R_root => [K_user; K_node; K_token; K_group; K_model; K_channel]
  | R_admin => [K_user; K_group; K_model; K_channel]
  | R_user => [K_token; K_group; K_model]
  end.
Definition MIN_FLOW_STAGES : nat := 2.
Definition getFlowStages (role : FlowRole) : list FlowNodeKind := ROLE_FLOW_STAGES role.

Definition resolveVisibleStages (role : FlowRole) (visibleStages : option (list FlowNodeKind)) : list FlowNodeKind :=
  let stages := getFlowStages role in
  match visibleStages with
  | None => stages
  | Some visible =>
      let filtered := List.filter (fun stage => bool_decide (stage ∈ visible)) stages in
      if MIN_FLOW_STAGES <=? length filtered then filtered else stages
  end.

Definition flowPathForStages (row : FlowQuotaDataItem) (stages : list FlowNodeKind) (ctx : FlowPathContext)
  : list FlowPathNode := map (fun stage => NODE_BUILDERS stage row ctx) stages.

(** ** Colours *)

(** The default data scheme of the chart library, which is not empty: the colours for
    a domain of at most [maxDomainLength] values.  A colour need not be a text. *)
Record SchemeItem : Type := { maxDomainLength : option nat; scheme_colors : list value }.
Class ChartScheme : Type := { first_scheme : SchemeItem; other_schemes : list SchemeItem }.

Section colors.
Context `{ChartScheme}.

Definition scheme_fits (domainLength : nat) (item : SchemeItem) : bool :=
  match maxDomainLength item with None | Some 0 => true | Some n => domainLength <=? n end.

Definition getDashboardChartColors (domainLength : nat) : list str :=
  let schemes := first_scheme :: other_schemes in
  let scheme := match List.find (scheme_fits domainLength) schemes with
                | Some item => item
                | None => List.last schemes first_scheme
                end in
  omap as_string (scheme_colors scheme).

Definition nonempty_palette (palette : option (list str)) : option (list str) :=
  match palette with Some (c :: l) => Some (c :: l) | _ => None end.

Definition colorAt (index : nat) (palette : option (list str)) : str :=
  let colors := default (getDashboardChartColors (index + 1)) (nonempty_palette palette) in
  match colors with
  | [] => DEFAULT_FLOW_CHART_COLOR
  | _ => default DEFAULT_FLOW_CHART_COLOR (colors !! (index mod length colors))
  end.

Definition colorPalette (colorCount : nat) (palette : option (list str)) : list str :=
  match nonempty_palette palette with
  | Some colors => colors
  | None => match getDashboardChartColors colorCount with
            | [] => [DEFAULT_FLOW_CHART_COLOR]
            | colors => colors
            end
  end.

Definition stableColorMap (keys : list str) (palette : option (list str)) : list (str * str) :=
  let uniqueKeys := set_of keys in
  let colors := colorPalette (length uniqueKeys) palette in
  imap (fun index key => (key, colorAt index (Some colors))) uniqueKeys.
End colors.

Definition is_hex6 (s : str) : bool := (length s =? 6) && forallb is_hex s.

Definition alphaColor (color : str) (alpha : number) : str * number :=
  let normalized := trim color in
  let hex := if starts_with normalized (u "#") then drop 1 normalized else normalized in
  if negb (is_hex6 hex) then (normalized, alpha)
  else
    let value := fold_left (fun acc c => acc * 16 + Z.of_N (hex_value c))%Z hex 0%Z in
    let red := Z.land (Z.shiftr value 16) 255 in
    let green := Z.land (Z.shiftr value 8) 255 in
    let blue := Z.land value 255 in
    (u "rgba(" ++ number_to_string (of_Z red) ++ u ", " ++ number_to_string (of_Z green) ++ u ", " ++
     number_to_string (of_Z blue) ++ u ", " ++ to_fixed alpha 2 ++ u ")", one).

(** ** Filters *)

Definition filterRows (rows : list FlowQuotaDataItem) (selectedUsers : option (list str)) : list FlowQuotaDataItem :=
  match set_of (default [] selectedUsers) with
  | [] => rows
  | users => List.filter (fun row => bool_decide (p_id (userNode row) ∈ users)) rows
  end.

(** [`${kind}\u0000${id}`] *)
Definition nul : N := 0.
Definition nodeFilterKey (filter : FlowNodeFilter) : str := kind_text (nf_kind filter) ++ [nul] ++ nf_id filter.

(** The [Map] from a kind to the set of its ids; adding an id. *)
Definition add_id (kind : FlowNodeKind) (id : str) (m : list (FlowNodeKind * list str)) : list (FlowNodeKind * list str) :=
  assoc_set kind (set_add id (default [] (assoc_get kind m))) m.

Definition normalizeSelectedNodeFilters (selectedNodes : option (list FlowNodeFilter)) (stages : list FlowNodeKind)
  : list (FlowNodeKind * list str) :=
  fold_left (fun filters filter =>
    if bool_decide (nf_kind filter ∈ stages) then add_id (nf_kind filter) (nf_id filter) filters else filters)
    (default [] selectedNodes) [].

Definition pathMatchesNodeFilters (path : list FlowPathNode) (filters : list (FlowNodeKind * list str)) : bool :=
  match filters with
  | [] => true
  | _ =>
      let pathNodesByKind := fold_left (fun m node => add_id (p_kind node) (p_id node) m) path [] in
      forallb (fun f : FlowNodeKind * list str =>
        match assoc_get f.1 pathNodesByKind with
        | None => false
        | Some pathIds => existsb (fun id => bool_decide (id ∈ pathIds)) f.2
        end) filters
  end.

Definition filterRowsByNodes (rows : list FlowQuotaDataItem) (selectedNodes : option (list FlowNodeFilter))
    (stages : list FlowNodeKind) (ctx : FlowPathContext) : list FlowQuotaDataItem :=
  match normalizeSelectedNodeFilters selectedNodes stages with
  | [] => rows
  | filters => List.filter (fun row => pathMatchesNodeFilters (flowPathForStages row stages ctx) filters) rows
  end.

Definition selectedNodeFiltersExceptKind (selectedNodes : option (list FlowNodeFilter)) (kind : FlowNodeKind)
  : option (list FlowNodeFilter) :=
  match List.filter (fun filter => bool_decide (nf_kind filter <> kind)) (default [] selectedNodes) with
  | [] => None
  | filtered => Some filtered
  end.

(** ** Nodes and links *)

Definition addNode (m : list (str * DashboardFlowNode)) (pathNode : FlowPathNode) (metrics : FlowMetrics)
    (metric : FlowMetric) (color colorKey : str) : list (str * DashboardFlowNode) :=
  let previous := default
    {| n_id := p_id pathNode; n_label := p_label pathNode; n_kind := p_kind pathNode; n_value := zero;
       n_requests := zero; n_quota := zero; n_tokens := zero; n_color := color; n_colorKey := colorKey;
       n_highlighted := None; n_dimmed := None |} (assoc_get (p_id pathNode) m) in
  assoc_set (p_id pathNode)
    {| n_id := n_id previous; n_label := n_label previous; n_kind := n_kind previous;
       n_value := num_add (n_value previous) (metricValue metrics metric);
       n_requests := num_add (n_requests previous) (m_requests metrics);
       n_quota := num_add (n_quota previous) (m_quota metrics);
       n_tokens := num_add (n_tokens previous) (m_tokens metrics);
       n_color := n_color previous; n_colorKey := n_colorKey previous;
       n_highlighted := n_highlighted previous; n_dimmed := n_dimmed previous |} m.

(** [linkStableKey] and [pathLinkKey] *)
Definition link_key (source target : str) : str := source ++ [nul] ++ target.
Definition linkStableKey (link : DashboardFlowLink) : str := link_key (l_source link) (l_target link).
Definition pathLinkKey (source target : FlowPathNode) : str := link_key (p_id source) (p_id target).

Definition addLink (m : list (str * DashboardFlowLink)) (source target : FlowPathNode) (metrics : FlowMetrics)
    (metric : FlowMetric) (color colorKey : str) : list (str * DashboardFlowLink) :=
  let key := link_key (p_id source) (p_id target) in
  let previous := default
    {| l_source := p_id source; l_target := p_id target; l_value := zero; l_requests := zero; l_quota := zero;
       l_tokens := zero; l_sourceLabel := p_label source; l_targetLabel := p_label target; l_color := color;
       l_linkColor := color; l_linkAlpha := one; l_hoverColor := color; l_colorKey := colorKey;
       l_share := zero; l_highlighted := None; l_dimmed := None |} (assoc_get key m) in
  assoc_set key
    {| l_source := l_source previous; l_target := l_target previous;
       l_value := num_add (l_value previous) (metricValue metrics metric);
       l_requests := num_add (l_requests previous) (m_requests metrics);
       l_quota := num_add (l_quota previous) (m_quota metrics);
       l_tokens := num_add (l_tokens previous) (m_tokens metrics);
       l_sourceLabel := l_sourceLabel previous; l_targetLabel := l_targetLabel previous; l_color := l_color previous;
       l_linkColor := l_linkColor previous; l_linkAlpha := l_linkAlpha previous;
       l_hoverColor := l_hoverColor previous; l_colorKey := l_colorKey previous; l_share := l_share previous;
       l_highlighted := l_highlighted previous; l_dimmed := l_dimmed previous |} m.

(** The steps of a path: each node with the next. *)
Fixpoint steps {A} (path : list A) : list (A * A) :=
  match path with
  | a :: (b :: _) as rest => (a, b) :: steps rest
  | _ => []
  end.

Record FlowSummary : Type := { s_quota : number; s_tokens : number; s_requests : number }.
Definition buildSummary (rows : list FlowQuotaDataItem) : FlowSummary :=
  fold_left (fun summary row =>
    let metrics := rowMetrics row in
    {| s_quota := num_add (s_quota summary) (m_quota metrics);
       s_tokens := num_add (s_tokens summary) (m_tokens metrics);
       s_requests := num_add (s_requests summary) (m_requests metrics) |}) rows
    {| s_quota := zero; s_tokens := zero; s_requests := zero |}.

(** ** The limit on the nodes of a stage *)

Definition normalizeTopNodeLimit (limit : option number) : option number :=
  limit ← limit;
  let parsed := num_floor limit in
  if num_is_finite parsed && num_gtb parsed zero then Some parsed else None.

Definition otherFlowNode (kind : FlowNodeKind) (labeler : option (FlowNodeKind -> str)) : FlowPathNode :=
  {| p_id := OTHER_FLOW_NODE_IDS kind;
     p_label := match labeler with Some label => label kind | None => DEFAULT_OTHER_FLOW_NODE_LABELS kind end;
     p_kind := kind |}.

(** [l.slice(0, limit)] of a positive limit *)
Definition slice_to {A} (limit : number) (l : list A) : list A :=
  take (Z.to_nat (Z.min (num_to_Z limit) (Z.of_nat (length l)))) l.

Section graph.
Context `{Collation, ChartScheme, NumberFormats}.

Definition rank_order (a b : FlowNodeRank) : comparison :=
  or_compare (sign_of (num_sub (rk_value b) (rk_value a)))
    (or_compare (localeCompare (p_label (rk_node a)) (p_label (rk_node b)))
                (localeCompare (p_id (rk_node a)) (p_id (rk_node b)))).

Definition add_rank (value : number) (totals : list (FlowNodeKind * list (str * FlowNodeRank))) (node : FlowPathNode)
  : list (FlowNodeKind * list (str * FlowNodeRank)) :=
  match assoc_get (p_kind node) totals with
  | None => totals
  | Some stageTotals =>
      let current := default {| rk_node := node; rk_value := zero |} (assoc_get (p_id node) stageTotals) in
      assoc_set (p_kind node)
        (assoc_set (p_id node) {| rk_node := rk_node current; rk_value := num_add (rk_value current) value |} stageTotals)
        totals
  end.

Definition rank_totals (rows : list FlowQuotaDataItem) (metric : FlowMetric) (stages : list FlowNodeKind)
    (ctx : FlowPathContext) : list (FlowNodeKind * list (str * FlowNodeRank)) :=
  fold_left (fun totals row =>
      fold_left (add_rank (metricValue (rowMetrics row) metric)) (flowPathForStages row stages ctx) totals)
    rows (fold_left (fun totals stage => assoc_set stage [] totals) stages []).

Definition top_ids (limit : number) (stageTotals : list (str * FlowNodeRank)) : list str :=
  set_of (map (fun rank => p_id (rk_node rank)) (slice_to limit (sort_by rank_order (map snd stageTotals)))).

Definition buildTopNodeSets (rows : list FlowQuotaDataItem) (metric : FlowMetric) (stages : list FlowNodeKind)
    (limit : option number) (ctx : FlowPathContext) : option (list (FlowNodeKind * list str)) :=
  limit ← limit;
  if negb (num_truthy limit) then None
  else Some (fold_left (fun topSets (e : FlowNodeKind * list (str * FlowNodeRank)) =>
                assoc_set e.1 (top_ids limit e.2) topSets) (rank_totals rows metric stages ctx) []).

Definition isTopFlowNode (node : FlowPathNode) (topNodeSets : option (list (FlowNodeKind * list str))) : bool :=
  match topNodeSets ≫= assoc_get (p_kind node) with
  | None => true
  | Some topNodes => bool_decide (p_id node ∈ topNodes)
  end.

Definition applyTopNodeLimit (path : list FlowPathNode) (topNodeSets : option (list (FlowNodeKind * list str)))
    (mode : FlowOverflowMode) (labeler : option (FlowNodeKind -> str)) : option (list FlowPathNode) :=
  match topNodeSets with
  | None => Some path
  | Some _ =>
      let containsOverflowNode := existsb (fun node => negb (isTopFlowNode node topNodeSets)) path in
      if negb containsOverflowNode then Some path
      else match mode with
           | O_hide => None
           | O_aggregate =>
               Some (map (fun node => if isTopFlowNode node topNodeSets then node
                                      else otherFlowNode (p_kind node) labeler) path)
           end
  end.

(** ** The highlighted paths *)

Definition pathContainsFlowNode (path : list FlowPathNode) (filter : FlowNodeFilter) : bool :=
  existsb (fun node => bool_decide (p_kind node = nf_kind filter) && str_eqb (p_id node) (nf_id filter)) path.

Definition pathContainsFlowLink (path : list FlowPathNode) (link : FlowLinkSelection) : bool :=
  existsb (fun e : FlowPathNode * FlowPathNode =>
    str_eqb (p_id e.1) (ls_source link) && str_eqb (p_id e.2) (ls_target link)) (steps path).

Definition matchesPath (activeNode : option FlowNodeFilter) (activeLink : option FlowLinkSelection)
    (path : list FlowPathNode) : bool :=
  match activeLink with
  | Some link => pathContainsFlowLink path link
  | None => match activeNode with Some node => pathContainsFlowNode path node | None => false end
  end.

Definition add_highlight (sets : FlowHighlightSets) (path : list FlowPathNode) : FlowHighlightSets :=
  {| hs_nodes := fold_left (fun s node => set_add (p_id node) s) path (hs_nodes sets);
     hs_links := fold_left (fun s (e : FlowPathNode * FlowPathNode) => set_add (pathLinkKey e.1 e.2) s)
                   (steps path) (hs_links sets) |}.

Definition buildFlowHighlightSets (preparedPaths : list PreparedFlowPath) (activeNode : option FlowNodeFilter)
    (activeLink : option FlowLinkSelection) (stages : list FlowNodeKind) : option FlowHighlightSets :=
  let nodeActive := match activeNode with Some f => bool_decide (nf_kind f ∈ stages) | None => false end in
  let linkActive := match activeLink with Some _ => true | None => false end in
  if negb nodeActive && negb linkActive then None
  else
    let sets := fold_left (fun sets prepared =>
      if matchesPath activeNode activeLink (pp_path prepared) then add_highlight sets (pp_path prepared) else sets)
      preparedPaths {| hs_nodes := []; hs_links := [] |} in
    match hs_nodes sets with [] => None | _ => Some sets end.

(** [applyFlowHighlights], on one node and one link *)
Definition highlight_node (sets : FlowHighlightSets) (node : DashboardFlowNode) : DashboardFlowNode :=
  let highlighted := bool_decide (n_id node ∈ hs_nodes sets) in
  {| n_id := n_id node; n_label := n_label node; n_kind := n_kind node; n_value := n_value node;
     n_requests := n_requests node; n_quota := n_quota node; n_tokens := n_tokens node; n_color := n_color node;
     n_colorKey := n_colorKey node; n_highlighted := Some highlighted; n_dimmed := Some (negb highlighted) |}.
Definition highlight_link (sets : FlowHighlightSets) (link : DashboardFlowLink) : DashboardFlowLink :=
  let highlighted := bool_decide (linkStableKey link ∈ hs_links sets) in
  {| l_source := l_source link; l_target := l_target link; l_value := l_value link; l_requests := l_requests link;
     l_quota := l_quota link; l_tokens := l_tokens link; l_sourceLabel := l_sourceLabel link;
     l_targetLabel := l_targetLabel link; l_color := l_color link; l_linkColor := l_linkColor link;
     l_linkAlpha := l_linkAlpha link; l_hoverColor := l_hoverColor link; l_colorKey := l_colorKey link;
     l_share := l_share link; l_highlighted := Some highlighted; l_dimmed := Some (negb highlighted) |}.

(** The values of a map, each replaced in place. *)
Definition map_values {A} (f : A -> A) (m : list (str * A)) : list (str * A) := map (fun e => (e.1, f e.2)) m.

Definition applyFlowHighlights (nodes : list (str * DashboardFlowNode)) (links : list (str * DashboardFlowLink))
    (highlightSets : option FlowHighlightSets) : list (str * DashboardFlowNode) * list (str * DashboardFlowLink) :=
  match highlightSets with
  | None => (nodes, links)
  | Some sets => (map_values (highlight_node sets) nodes, map_values (highlight_link sets) links)
  end.

(** ** Masking *)

(** [\u2022\u2022\u2022\u2022] *)
Definition FLOW_MASK_TEXT : str := [8226; 8226; 8226; 8226]%N.
Definition maskFlowLabel (label : str) : str := match label with [] => label | _ => FLOW_MASK_TEXT end.

Definition set_node_label (label : str) (node : DashboardFlowNode) : DashboardFlowNode :=
  {| n_id := n_id node; n_label := label; n_kind := n_kind node; n_value := n_value node;
     n_requests := n_requests node; n_quota := n_quota node; n_tokens := n_tokens node; n_color := n_color node;
     n_colorKey := n_colorKey node; n_highlighted := n_highlighted node; n_dimmed := n_dimmed node |}.
Definition set_link_labels (source target : str) (link : DashboardFlowLink) : DashboardFlowLink :=
  {| l_source := l_source link; l_target := l_target link; l_value := l_value link; l_requests := l_requests link;
     l_quota := l_quota link; l_tokens := l_tokens link; l_sourceLabel := source; l_targetLabel := target;
     l_color := l_color link; l_linkColor := l_linkColor link; l_linkAlpha := l_linkAlpha link;
     l_hoverColor := l_hoverColor link; l_colorKey := l_colorKey link; l_share := l_share link;
     l_highlighted := l_highlighted link; l_dimmed := l_dimmed link |}.

Definition is_masked (node : DashboardFlowNode) : bool :=
  bool_decide (n_kind node ∈ SENSITIVE_FLOW_KINDS) && negb (bool_decide (n_id node ∈ OTHER_FLOW_NODE_ID_SET)).
Definition mask_node (node : DashboardFlowNode) : DashboardFlowNode :=
  if is_masked node then set_node_label (maskFlowLabel (n_label node)) node else node.
Definition mask_link (maskedById : list (str * str)) (link : DashboardFlowLink) : DashboardFlowLink :=
  set_link_labels (default (l_sourceLabel link) (assoc_get (l_source link) maskedById))
                  (default (l_targetLabel link) (assoc_get (l_target link) maskedById)) link.

Definition maskFlowGraphLabels (nodes : list (str * DashboardFlowNode)) (links : list (str * DashboardFlowLink))
  : list (str * DashboardFlowNode) * list (str * DashboardFlowLink) :=
  let maskedById := fold_left (fun m (e : str * DashboardFlowNode) =>
    if is_masked e.2 then assoc_set (n_id e.2) (maskFlowLabel (n_label e.2)) m else m) nodes [] in
  let nodes := map_values mask_node nodes in
  match maskedById with
  | [] => (nodes, links)
  | _ => (nodes, map_values (mask_link maskedById) links)
  end.

(** ** The colours of the links *)

Definition link_order (a b : DashboardFlowLink) : comparison :=
  or_compare (sign_of (num_sub (l_value b) (l_value a))) (localeCompare (linkStableKey a) (linkStableKey b)).

Definition set_link_color (color : str) (alpha : number) (link : DashboardFlowLink) : DashboardFlowLink :=
  {| l_source := l_source link; l_target := l_target link; l_value := l_value link; l_requests := l_requests link;
     l_quota := l_quota link; l_tokens := l_tokens link; l_sourceLabel := l_sourceLabel link;
     l_targetLabel := l_targetLabel link; l_color := l_color link; l_linkColor := color; l_linkAlpha := alpha;
     l_hoverColor := l_color link; l_colorKey := l_colorKey link; l_share := l_share link;
     l_highlighted := l_highlighted link; l_dimmed := l_dimmed link |}.

Definition alpha_034 : number := Eval vm_compute in decimal_number false (Decimal (u "0") (Some (u "34")) None).
Definition alpha_024 : number := Eval vm_compute in decimal_number false (Decimal (u "0") (Some (u "24")) None).
Definition alpha_02 : number := Eval vm_compute in decimal_number false (Decimal (u "0") (Some (u "2")) None).

(** The opacity of the link at [index] of [count] links of a source. *)
Definition link_alpha (count index : nat) : number :=
  if count =? 1 then alpha_034
  else num_add alpha_024
         (num_mul (num_div (of_Z (Z.of_nat index)) (of_Z (Z.max (Z.of_nat count - 1) 1))) alpha_02).

Definition linksBySource (links : list DashboardFlowLink) : list (str * list DashboardFlowLink) :=
  fold_left (fun m link => assoc_set (l_source link) (default [] (assoc_get (l_source link) m) ++ [link]) m) links [].

(** The sorted groups share their links with [links]: the link with a given key is
    replaced in the array. *)
Definition replace_link (key : str) (f : DashboardFlowLink -> DashboardFlowLink) (links : list DashboardFlowLink)
  : list DashboardFlowLink := map (fun link => if str_eqb (linkStableKey link) key then f link else link) links.

Definition color_link (count : nat) (index : nat) (link : DashboardFlowLink) (links : list DashboardFlowLink)
  : list DashboardFlowLink :=
  let '(color, alpha) := alphaColor (l_color link) (link_alpha count index) in
  replace_link (linkStableKey link) (set_link_color color alpha) links.

Definition assignLinkDisplayColors (links : list DashboardFlowLink) : list DashboardFlowLink :=
  fold_left (fun links (group : str * list DashboardFlowLink) =>
    let sortedLinks := sort_by link_order group.2 in
    fold_left (fun links f => f links) (imap (color_link (length sortedLinks)) sortedLinks) links)
    (linksBySource links) links.

(** ** The graph *)

Definition set_link_share (share : number) (link : DashboardFlowLink) : DashboardFlowLink :=
  {| l_source := l_source link; l_target := l_target link; l_value := l_value link; l_requests := l_requests link;
     l_quota := l_quota link; l_tokens := l_tokens link; l_sourceLabel := l_sourceLabel link;
     l_targetLabel := l_targetLabel link; l_color := l_color link; l_linkColor := l_linkColor link;
     l_linkAlpha := l_linkAlpha link; l_hoverColor := l_hoverColor link; l_colorKey := l_colorKey link;
     l_share := share; l_highlighted := l_highlighted link; l_dimmed := l_dimmed link |}.

Definition byValueThenLabel (a b : DashboardFlowNode) : comparison :=
  or_compare (sign_of (num_sub (n_value b) (n_value a))) (localeCompare (n_label a) (n_label b)).
Definition by_ends (a b : DashboardFlowLink) : comparison :=
  or_compare (localeCompare (l_source a) (l_source b)) (localeCompare (l_target a) (l_target b)).

Definition preparePaths (rows : list FlowQuotaDataItem) (stages : list FlowNodeKind) (ctx : FlowPathContext)
    (topNodeSets : option (list (FlowNodeKind * list str))) (overflowMode : FlowOverflowMode)
    (labeler : option (FlowNodeKind -> str)) : list PreparedFlowPath :=
  omap (fun row =>
    path ← applyTopNodeLimit (flowPathForStages row stages ctx) topNodeSets overflowMode labeler;
    Some {| pp_path := path; pp_metrics := rowMetrics row |}) rows.

(** [preparedPaths.map((prepared) => prepared.path[0]?.id).filter(Boolean)] *)
Definition root_ids (paths : list PreparedFlowPath) : list str :=
  omap (fun prepared => node ← head (pp_path prepared); if nonempty (p_id node) then Some (p_id node) else None) paths.

Definition add_path (metric : FlowMetric) (colors : list (str * str)) (palette : option (list str))
    (graph : list (str * DashboardFlowNode) * list (str * DashboardFlowLink)) (prepared : PreparedFlowPath)
  : list (str * DashboardFlowNode) * list (str * DashboardFlowLink) :=
  match pp_path prepared with
  | [] => graph
  | root :: _ =>
      let color := default (colorAt 0 palette) (assoc_get (p_id root) colors) in
      (fold_left (fun nodes node => addNode nodes node (pp_metrics prepared) metric color (p_id root))
         (pp_path prepared) graph.1,
       fold_left (fun links (e : FlowPathNode * FlowPathNode) =>
           addLink links e.1 e.2 (pp_metrics prepared) metric color (p_id root)) (steps (pp_path prepared)) graph.2)
  end.

Definition graph_maps (metric : FlowMetric) (palette : option (list str)) (paths : list PreparedFlowPath)
  : list (str * DashboardFlowNode) * list (str * DashboardFlowLink) :=
  fold_left (add_path metric (stableColorMap (sort_by localeCompare (root_ids paths)) palette) palette) paths ([], []).

Definition link_total (paths : list PreparedFlowPath) (links : list DashboardFlowLink) : number :=
  let firstStepSources := set_of (root_ids paths) in
  fold_left (fun sum link => num_add sum (l_value link))
    (List.filter (fun link => bool_decide (l_source link ∈ firstStepSources)) links) zero.

Definition graph_paths (rows : list FlowQuotaDataItem) (metric : FlowMetric) (stages : list FlowNodeKind)
    (ctx : FlowPathContext) (options : FlowGraphOptions) : list PreparedFlowPath :=
  preparePaths rows stages ctx
    (buildTopNodeSets rows metric stages (normalizeTopNodeLimit (go_topNodeLimit options)) ctx)
    (default DEFAULT_FLOW_OVERFLOW_MODE (go_overflowMode options)) (go_otherNodeLabel options).

Definition buildFlowGraph (rows : list FlowQuotaDataItem) (metric : FlowMetric) (role : FlowRole)
    (palette : option (list str)) (visibleStages : option (list FlowNodeKind)) (ctx : FlowPathContext)
    (options : FlowGraphOptions) : DashboardFlowGraph :=
  let stages := resolveVisibleStages role visibleStages in
  let preparedPaths := graph_paths rows metric stages ctx options in
  let '(nodes, links) := graph_maps metric palette preparedPaths in
  let '(nodes, links) := if default false (go_maskSensitive options) then maskFlowGraphLabels nodes links
                         else (nodes, links) in
  let '(nodes, links) := applyFlowHighlights nodes links
    (buildFlowHighlightSets preparedPaths (go_activeNode options) (go_activeLink options) stages) in
  let flowLinks := sort_by by_ends (map snd links) in
  let total := link_total preparedPaths flowLinks in
  let flowLinks := map (fun link =>
    set_link_share (if num_gtb total zero then num_div (l_value link) total else zero) link) flowLinks in
  {| g_nodes := sort_by byValueThenLabel (map snd nodes); g_links := assignLinkDisplayColors flowLinks |}.
End graph.
