(* ===== verification/FlowView.v ===== *)
(** * The dashboard's flow: filter options, summary and chart

    The rest of [features/dashboard/lib/flow.ts]: the options of the filters with their
    totals, [buildDashboardFlowData], the data and the styles of the Sankey chart, and the
    reading of a clicked element of the chart. *)

From Stdlib Require Import String.
From S2P Require Import Prelude JsNumber JsArray JsString JsText Ast Request BillingTime Json TaskExpr Currency FlowGraph.

#[local] Open Scope nat_scope.

(** ** Data *)

Record FlowUserFilterOption : Type := {
  uo_value : str;
  uo_label : str;
  uo_valueLabel : str;
  uo_valueRaw : number;
  uo_color : str;
}.
Record FlowNodeFilterOption : Type := {
  no_kind : FlowNodeKind;
  no_value : str;
  no_label : str;
  no_valueLabel : str;
  no_valueRaw : number;
  no_color : str;
}.
Record FlowFilterOptions : Type := {
  fo_users : list FlowUserFilterOption;
  fo_nodes : list FlowNodeFilterOption;
}.
Record FlowBuildOptions : Type := {
  bo_role : option FlowRole;
  bo_selectedUsers : option (list str);
  bo_selectedNodes : option (list FlowNodeFilter);
  bo_activeNode : option FlowNodeFilter;
  bo_activeLink : option FlowLinkSelection;
  bo_colorPalette : option (list str);
  bo_visibleStages : option (list FlowNodeKind);
  bo_topNodeLimit : option number;
  bo_overflowMode : option FlowOverflowMode;
  bo_maskSensitive : option bool;
  bo_deletedTokenLabel : option (number -> str);
  bo_otherNodeLabel : option (FlowNodeKind -> str);
}.
Record ProcessedFlowData : Type := {
  pf_summary : FlowSummary;
  pf_flow : DashboardFlowGraph;
  pf_filterOptions : FlowFilterOptions;
}.

(** The entry of a user in [buildUserFilterOptions]. *)
Record user_total : Type := { ut_label : str; ut_value : number; ut_color : str }.

Section view.
Context `{Collation, ChartScheme, NumberFormats}.

(** ** Options of the filters *)

Definition formatNumber (value : number) : str :=
  number_format {| nf_locale := None; nf_currency := None; nf_compact := false;
                   nf_minimumFractionDigits := None; nf_maximumFractionDigits := 0 |} value.

(** [!row.user_id && !row.username] *)
Definition anonymous (row : FlowQuotaDataItem) : bool :=
  negb (match q_user_id row with Some x => num_truthy x | None => false end) &&
  negb (nonempty (default [] (q_username row))).

Definition add_user (metric : FlowMetric) (colors : list (str * str)) (palette : option (list str))
    (users : list (str * user_total)) (row : FlowQuotaDataItem) : list (str * user_total) :=
  if anonymous row then users
  else
    let user := userNode row in
    let current := default {| ut_label := p_label user; ut_value := zero;
                              ut_color := default (colorAt 0 palette) (assoc_get (p_id user) colors) |}
                           (assoc_get (p_id user) users) in
    assoc_set (p_id user) {| ut_label := ut_label current;
                             ut_value := num_add (ut_value current) (metricValue (rowMetrics row) metric);
                             ut_color := ut_color current |} users.

Definition user_order (a b : FlowUserFilterOption) : comparison :=
  or_compare (sign_of (num_sub (uo_valueRaw b) (uo_valueRaw a))) (localeCompare (uo_label a) (uo_label b)).

Definition buildUserFilterOptions (rows : list FlowQuotaDataItem) (metric : FlowMetric) (palette : option (list str))
  : list FlowUserFilterOption :=
  let colors := stableColorMap (sort_by localeCompare (map (fun row => p_id (userNode row)) rows)) palette in
  let users := fold_left (add_user metric colors palette) rows [] in
  sort_by user_order (map (fun e : str * user_total =>
    {| uo_value := e.1; uo_label := ut_label e.2; uo_valueLabel := formatNumber (ut_value e.2);
       uo_valueRaw := ut_value e.2; uo_color := ut_color e.2 |}) users).

(** The totals of the nodes of a stage. *)
Definition stage_totals (rows : list FlowQuotaDataItem) (metric : FlowMetric) (stage : FlowNodeKind)
    (ctx : FlowPathContext) : list (str * FlowNodeRank) :=
  fold_left (fun totals row =>
    let value := metricValue (rowMetrics row) metric in
    let node := NODE_BUILDERS stage row ctx in
    let key := nodeFilterKey {| nf_kind := p_kind node; nf_id := p_id node |} in
    let current := default {| rk_node := node; rk_value := zero |} (assoc_get key totals) in
    assoc_set key {| rk_node := rk_node current; rk_value := num_add (rk_value current) value |} totals) rows [].

(** [stageOrder.get(kind) ?? 0] *)
Fixpoint index_of (kind : FlowNodeKind) (stages : list FlowNodeKind) (index : nat) : option nat :=
  match stages with
  | [] => None
  | stage :: stages => if decide (stage = kind) then Some index else index_of kind stages (S index)
  end.
Definition stageOrder (stages : list FlowNodeKind) (kind : FlowNodeKind) : nat := default 0 (index_of kind stages 0).

Definition option_order (stages : list FlowNodeKind) (a b : FlowNodeFilterOption) : comparison :=
  or_compare (Nat.compare (stageOrder stages (no_kind a)) (stageOrder stages (no_kind b)))
    (or_compare (sign_of (num_sub (no_valueRaw b) (no_valueRaw a)))
      (or_compare (localeCompare (no_label a) (no_label b)) (localeCompare (no_value a) (no_value b)))).

Definition stage_options (rows : list FlowQuotaDataItem) (metric : FlowMetric) (stages : list FlowNodeKind)
    (palette : option (list str)) (colors : list (str * str)) (ctx : FlowPathContext)
    (selectedNodes : option (list FlowNodeFilter)) (stage : FlowNodeKind) : list FlowNodeFilterOption :=
  let candidateRows := filterRowsByNodes rows (selectedNodeFiltersExceptKind selectedNodes stage) stages ctx in
  map (fun e : str * FlowNodeRank =>
    let rank := e.2 in
    {| no_kind := p_kind (rk_node rank); no_value := p_id (rk_node rank); no_label := p_label (rk_node rank);
       no_valueLabel := formatNumber (rk_value rank); no_valueRaw := rk_value rank;
       no_color := default (colorAt 0 palette) (assoc_get (p_id (rk_node rank)) colors) |})
    (stage_totals candidateRows metric stage ctx).

Definition buildNodeFilterOptions (rows : list FlowQuotaDataItem) (metric : FlowMetric) (role : FlowRole)
    (visibleStages : option (list FlowNodeKind)) (palette : option (list str)) (ctx : FlowPathContext)
    (selectedNodes : option (list FlowNodeFilter)) : list FlowNodeFilterOption :=
  let stages := resolveVisibleStages role visibleStages in
  let colorIds := fold_left (fun ids row =>
    fold_left (fun ids node => set_add (p_id node) ids) (flowPathForStages row stages ctx) ids) rows [] in
  let colors := stableColorMap (sort_by localeCompare colorIds) palette in
  sort_by (option_order stages)
    (concat (map (stage_options rows metric stages palette colors ctx selectedNodes) stages)).

Definition buildFlowFilterOptions (rows : list FlowQuotaDataItem) (metric : FlowMetric) (palette : option (list str))
    (role : FlowRole) (visibleStages : option (list FlowNodeKind)) (selectedNodes : option (list FlowNodeFilter))
  : FlowFilterOptions :=
  {| fo_users := buildUserFilterOptions rows metric palette;
     fo_nodes := buildNodeFilterOptions rows metric role visibleStages palette EMPTY_FLOW_PATH_CONTEXT selectedNodes |}.

(** ** The data of the dashboard *)

Definition flow_context (options : FlowBuildOptions) : FlowPathContext :=
  {| c_deletedTokenLabel := bo_deletedTokenLabel options |}.
Definition graph_options (options : FlowBuildOptions) : FlowGraphOptions :=
  {| go_topNodeLimit := bo_topNodeLimit options; go_overflowMode := bo_overflowMode options;
     go_otherNodeLabel := bo_otherNodeLabel options; go_activeNode := bo_activeNode options;
     go_activeLink := bo_activeLink options; go_maskSensitive := bo_maskSensitive options |}.
Definition flow_role (options : FlowBuildOptions) : FlowRole := default DEFAULT_FLOW_ROLE (bo_role options).
Definition flow_rows (rows : list FlowQuotaDataItem) (options : FlowBuildOptions) : list FlowQuotaDataItem :=
  filterRowsByNodes (filterRows rows (bo_selectedUsers options)) (bo_selectedNodes options)
    (resolveVisibleStages (flow_role options) (bo_visibleStages options)) (flow_context options).

Definition buildDashboardFlowData (rows : list FlowQuotaDataItem) (metric : FlowMetric) (options : FlowBuildOptions)
  : ProcessedFlowData :=
  let palette := bo_colorPalette options in
  let ctx := flow_context options in
  let filteredRows := flow_rows rows options in
  {| pf_summary := buildSummary filteredRows;
     pf_flow := buildFlowGraph filteredRows metric (flow_role options) palette (bo_visibleStages options) ctx
                  (graph_options options);
     pf_filterOptions :=
       {| fo_users := buildUserFilterOptions rows metric palette;
          fo_nodes := buildNodeFilterOptions (filterRows rows (bo_selectedUsers options)) metric (flow_role options)
                        (bo_visibleStages options) palette ctx (bo_selectedNodes options) |} |}.

(** ** Elements of the chart *)

(** [datum[key]] of a plain object; an array has none of the keys the chart reads. *)
Definition property (v : value) (key : str) : value :=
  match v with VObject fields => default VUndefined (assoc_get key fields) | _ => VUndefined end.

(** [recordValue]: objects and arrays are records, so is no other value. *)
Definition recordValue (v : value) : option value :=
  match v with VObject _ | VArray _ => Some v | _ => None end.

(** [items[index]] *)
Definition item_at (items : list value) (index : number) : value :=
  if num_is_integer index && num_leb zero index && (num_to_Z index <? Z.of_nat (length items))%Z
  then default VUndefined (items !! Z.to_nat (num_to_Z index)) else VUndefined.

Definition sankeyDatumSource (datum : value) : value :=
  match property datum (u "datum") with
  | VArray nested =>
      let depth := numberValue (property datum (u "depth")) in
      match recordValue (item_at nested depth) with
      | Some r => r
      | None => default datum (recordValue (item_at nested zero))
      end
  | nested => default datum (recordValue nested)
  end.

Definition is_undefined (v : value) : bool := match v with VUndefined => true | _ => false end.
Definition sankeyDatumValue (datum : value) (key : str) : value :=
  if negb (is_undefined (property datum key)) then property datum key else property (sankeyDatumSource datum) key.
Definition sankeyDatumFlag (datum : value) (key : str) : bool :=
  match sankeyDatumValue datum key with VBoolean true => true | _ => false end.
Definition flowSankeyDatumValue (datum : value) (key : str) : value :=
  match recordValue datum with Some record => sankeyDatumValue record key | None => VUndefined end.
Definition isSankeyLinkDatum (datum : value) : bool :=
  negb (is_undefined (sankeyDatumValue datum (u "source"))) && negb (is_undefined (sankeyDatumValue datum (u "target"))).

Definition flowNodeFilterFromSankeyDatum (datum : value) : option FlowNodeFilter :=
  record ← recordValue datum;
  if isSankeyLinkDatum record then None
  else
    let id := flowSankeyDatumValue record (u "key") in
    match id, isFlowNodeKind (flowSankeyDatumValue record (u "kind")) with
    | (VString _ | VNumber _), Some kind => Some {| nf_kind := kind; nf_id := to_string id |}
    | _, _ => None
    end.

(** ** The data of the chart *)

(** [Number(flag)] *)
Definition flag_number (o : option bool) : number :=
  match o with None => NaN | Some true => one | Some false => zero end.
Definition byLinkDrawPriority (a b : DashboardFlowLink) : comparison :=
  or_compare (sign_of (num_sub (flag_number (l_dimmed a)) (flag_number (l_dimmed b))))
    (or_compare (sign_of (num_sub (flag_number (l_highlighted b)) (flag_number (l_highlighted a))))
      (or_compare (sign_of (num_sub (l_value b) (l_value a))) (localeCompare (linkStableKey a) (linkStableKey b)))).

Definition flag_value (o : option bool) : value := match o with Some b => VBoolean b | None => VUndefined end.
Definition is_set (o : option bool) : bool := default false o.

Definition sankey_node (node : DashboardFlowNode) : value :=
  VObject
    [(u "key", VString (n_id node)); (u "name", VString (n_label node)); (u "rawLabel", VString (n_label node));
     (u "kind", VString (kind_text (n_kind node))); (u "value", VNumber (n_value node));
     (u "requests", VNumber (n_requests node)); (u "quota", VNumber (n_quota node));
     (u "tokens", VNumber (n_tokens node)); (u "color", VString (n_color node));
     (u "colorKey", VString (n_colorKey node)); (u "highlighted", flag_value (n_highlighted node));
     (u "dimmed", flag_value (n_dimmed node))].

Definition z_index (index : nat) (link : DashboardFlowLink) : Z :=
  (if is_set (l_highlighted link) then 1000000 + Z.of_nat index
   else if is_set (l_dimmed link) then Z.of_nat index else 100000 + Z.of_nat index)%Z.

Definition sankey_link (index : nat) (link : DashboardFlowLink) : value :=
  VObject
    [(u "source", VString (l_source link)); (u "target", VString (l_target link));
     (u "linkKey", VString (linkStableKey link)); (u "sourceLabel", VString (l_sourceLabel link));
     (u "targetLabel", VString (l_targetLabel link)); (u "value", VNumber (l_value link));
     (u "requests", VNumber (l_requests link)); (u "quota", VNumber (l_quota link));
     (u "tokens", VNumber (l_tokens link)); (u "color", VString (l_color link));
     (u "linkColor", VString (l_linkColor link)); (u "linkAlpha", VNumber (l_linkAlpha link));
     (u "hoverColor", VString (l_hoverColor link)); (u "colorKey", VString (l_colorKey link));
     (u "share", VNumber (l_share link)); (u "highlighted", flag_value (l_highlighted link));
     (u "dimmed", flag_value (l_dimmed link)); (u "zIndex", VNumber (of_Z (z_index index link)))].

(** The nodes and links of [buildFlowSankeySpec]. *)
Definition sankey_nodes (flow : DashboardFlowGraph) : list value := map sankey_node (g_nodes flow).
Definition drawn_links (flow : DashboardFlowGraph) : list DashboardFlowLink :=
  sort_by byLinkDrawPriority (List.filter (fun link => num_gtb (l_value link) zero) (g_links flow)).
Definition sankey_links (flow : DashboardFlowGraph) : list value := imap sankey_link (drawn_links flow).

(** What the chart compares links by. *)
Record SortedLink : Type := {
  so_value : option number;
  so_source : option str;
  so_target : option str;
  so_index : option number;
}.
Definition linkSortBy (a b : SortedLink) : comparison :=
  let number_at (o : option number) := numberValue (field_number o) in
  let key (l : SortedLink) := default [] (so_source l) ++ [nul] ++ default [] (so_target l) in
  or_compare (sign_of (num_sub (number_at (so_value b)) (number_at (so_value a))))
    (or_compare (localeCompare (key a) (key b))
      (sign_of (num_sub (number_at (so_index a)) (number_at (so_index b))))).

(** ** Styles and tooltip *)

(** [a ?? b] *)
Definition coalesce (a b : value) : value := if nullish a then b else a.
Definition decimal (int frac : string) : number := decimal_number false (Decimal (u int) (Some (u frac)) None).

Definition node_fill (datum : value) : str :=
  to_string (coalesce (sankeyDatumValue datum (u "color")) (VString (colorAt 0 None))).
Definition node_fillOpacity (datum : value) : number :=
  if sankeyDatumFlag datum (u "dimmed") then decimal "0" "18"
  else if sankeyDatumFlag datum (u "highlighted") then one else decimal "0" "92".
Definition node_stroke (datum : value) : str :=
  if sankeyDatumFlag datum (u "highlighted") then u "rgba(15, 23, 42, 0.74)" else u "rgba(148, 163, 184, 0.45)".
Definition node_lineWidth (datum : value) : number :=
  if sankeyDatumFlag datum (u "highlighted") then decimal "1" "5" else one.

Definition link_fill (datum : value) : str :=
  to_string (coalesce (sankeyDatumValue datum (u "linkColor"))
    (coalesce (sankeyDatumValue datum (u "color")) (VString (colorAt 0 None)))).
Definition link_fillOpacity (datum : value) : number :=
  if sankeyDatumFlag datum (u "dimmed") then decimal "0" "08"
  else if sankeyDatumFlag datum (u "highlighted") then decimal "0" "86"
  else let alpha := numberValue (sankeyDatumValue datum (u "linkAlpha")) in
       if num_truthy alpha then alpha else one.
Definition link_zIndex (datum : value) : number :=
  let zIndex := sankeyDatumValue datum (u "zIndex") in
  if negb (is_undefined zIndex) then numberValue zIndex
  else num_sub (of_Z 1000000000) (numberValue (sankeyDatumValue datum (u "value"))).
Definition link_hover_fill (datum : value) : str :=
  to_string (coalesce (sankeyDatumValue datum (u "hoverColor"))
    (coalesce (sankeyDatumValue datum (u "color")) (VString (colorAt 0 None)))).

Definition tooltip_visible (datum : value) : bool :=
  isSankeyLinkDatum datum || negb (is_undefined (sankeyDatumValue datum (u "key"))).
Definition tooltip_title (datum : value) : str :=
  let source := sankeyDatumValue datum (u "source") in
  let target := sankeyDatumValue datum (u "target") in
  if truthy source && truthy target then
    to_string (coalesce (sankeyDatumValue datum (u "sourceLabel")) source) ++ u " -> " ++
    to_string (coalesce (sankeyDatumValue datum (u "targetLabel")) target)
  else to_string (coalesce (sankeyDatumValue datum (u "name"))
         (coalesce (sankeyDatumValue datum (u "rawLabel")) (VString []))).

Record FlowSankeyLabels : Type := { la_quota : str; la_tokens : str; la_requests : str; la_share : str }.
Definition DEFAULT_FLOW_SANKEY_LABELS : FlowSankeyLabels :=
  {| la_quota := u "Quota"; la_tokens := u "Tokens"; la_requests := u "Requests"; la_share := u "Share" |}.

(** The lines of the tooltip of [datum] that are visible. *)
Definition tooltipMetricLines (valueFormatter : number -> str) (labels : FlowSankeyLabels) (datum : value)
  : list (str * str) :=
  let metric_at (key : string) := numberValue (sankeyDatumValue datum (u key)) in
  [(la_quota labels, valueFormatter (metric_at "quota"%string));
   (la_tokens labels, formatNumber (metric_at "tokens"%string));
   (la_requests labels, formatNumber (metric_at "requests"%string))] ++
  (if num_gtb (metric_at "share"%string) zero
   then [(la_share labels, to_fixed (num_mul (metric_at "share"%string) (of_Z 100)) 1 ++ u "%")] else []).
End view.
