(* ===== verification/Accumulate.v ===== *)
(** * Sums and groups

    Sums over a list, and the pattern of the dashboard's loops: an element is added to
    the entry of its key in a map, which it creates when it is the first. *)

From Stdlib Require Import Sorting.Permutation.
From stdpp Require Import sets.
From S2P Require Import Prelude JsNumber JsArray Ast Compile FlowGraph.

#[local] Open Scope Z_scope.

(** ** Sums *)

Definition zsum {A} (f : A -> Z) (l : list A) : Z := foldr (fun x s => f x + s) 0 l.

Section sums.
Context {A : Type}.
Implicit Types (f g : A -> Z) (l k : list A).

Lemma zsum_cons f x l : zsum f (x :: l) = f x + zsum f l.
Proof. done. Qed.
Lemma zsum_app f l k : zsum f (l ++ k) = zsum f l + zsum f k.
Proof. induction l as [|x l IH]; cbn; [done|]. unfold zsum in *. lia. Qed.
Lemma zsum_ext f g l : (forall x, x ∈ l -> f x = g x) -> zsum f l = zsum g l.
Proof.
  induction l as [|x l IH]; intros E; [done|]. cbn. rewrite E by (by left). f_equal. apply IH. intros; apply E; by right.
Qed.
Lemma zsum_zero f l : (forall x, x ∈ l -> f x = 0) -> zsum f l = 0.
Proof. intros E. rewrite (zsum_ext f (fun _ => 0)) by done. induction l; cbn; [done|]. apply IHl. intros; apply E; by right. Qed.
Lemma zsum_perm f l k : Permutation l k -> zsum f l = zsum f k.
Proof. induction 1; cbn; unfold zsum in *; lia. Qed.
Lemma zsum_add f g l : zsum (fun x => f x + g x) l = zsum f l + zsum g l.
Proof. induction l as [|x l IH]; cbn; [done|]. unfold zsum in *. lia. Qed.
Lemma zsum_map {B} (h : B -> A) f (l : list B) : zsum f (map h l) = zsum (fun x => f (h x)) l.
Proof. induction l as [|x l IH]; cbn; [done|]. unfold zsum in *. by rewrite IH. Qed.
Lemma zsum_filter (p : A -> bool) f l : zsum f (List.filter p l) = zsum (fun x => if p x then f x else 0) l.
Proof. induction l as [|x l IH]; [done|]. cbn [List.filter]. rewrite zsum_cons. destruct (p x); rewrite ?zsum_cons, IH; done. Qed.
Lemma zsum_le f g l : (forall x, x ∈ l -> f x <= g x) -> zsum f l <= zsum g l.
Proof.
  induction l as [|x l IH]; intros E; cbn; [lia|]. pose proof (E x (list_elem_of_here _ _)).
  assert (zsum f l <= zsum g l) by (apply IH; intros; apply E; by right). unfold zsum in *. lia.
Qed.
Lemma zsum_abs f l : Z.abs (zsum f l) <= zsum (fun x => Z.abs (f x)) l.
Proof. induction l as [|x l IH]; cbn; [done|]. unfold zsum in *. lia. Qed.
(** One element of a list without duplicates. *)
Lemma zsum_single `{EqDecision A} f x l : NoDup l -> x ∈ l -> zsum (fun y => if bool_decide (y = x) then f y else 0) l = f x.
Proof.
  induction l as [|y l IH]; intros Hnd Hx; [by apply not_elem_of_nil in Hx|].
  apply list.NoDup_cons in Hnd as [Hy Hnd]. cbn. fold (zsum (fun y => if bool_decide (y = x) then f y else 0) l).
  apply elem_of_cons in Hx as [->|Hx].
  - rewrite bool_decide_eq_true_2 by done. rewrite (zsum_zero _ l); [lia|]. intros z Hz. rewrite bool_decide_eq_false_2; [done|]. by intros ->.
  - rewrite bool_decide_eq_false_2 by (by intros ->). by rewrite IH.
Qed.
End sums.
Lemma zsum_concat {A B} (h : B -> list A) (f : A -> Z) (l : list B) : zsum f (concat (map h l)) = zsum (fun x => zsum f (h x)) l.
Proof. induction l as [|x l IH]; [done|]. cbn [map concat]. by rewrite zsum_app, zsum_cons, IH. Qed.

(** The sum of the sums of groups: keys [ks] that cover the elements. *)
Lemma zsum_groups {A K} `{EqDecision K} (key : A -> K) (a : A -> Z) (q : K -> bool) (ks : list K) (l : list A) :
  NoDup ks -> (forall x, x ∈ l -> key x ∈ ks) ->
  zsum (fun k => if q k then zsum (fun x => if bool_decide (key x = k) then a x else 0) l else 0) ks =
  zsum (fun x => if q (key x) then a x else 0) l.
Proof.
  intros Hnd. induction l as [|x l IH]; intros Hk; [apply zsum_zero; intros k _; by destruct (q k)|].
  cbn [zsum foldr]. fold (zsum (fun x => if q (key x) then a x else 0) l). rewrite <- IH by (intros; apply Hk; by right).
  rewrite <- (zsum_single (fun k => if q k then a x else 0) (key x) ks) by (done || apply Hk; by left).
  rewrite <- zsum_add. apply zsum_ext. intros k _. fold (zsum (fun x => if bool_decide (key x = k) then a x else 0) l).
  destruct (decide (key x = k)) as [E|E]; [rewrite !bool_decide_eq_true_2 by done|rewrite !bool_decide_eq_false_2 by done]; destruct (q k); lia.
Qed.

(** ** Exact sums of numbers *)

Definition num_sum (l : list number) : number := fold_left num_add l zero.

Lemma num_sum_exact {A} (f : A -> number) (l : list A) :
  (forall x, x ∈ l -> num_is_integer (f x) = true) -> zsum (fun x => Z.abs (num_to_Z (f x))) l < 2 ^ 53 ->
  num_is_integer (num_sum (map f l)) = true /\ num_to_Z (num_sum (map f l)) = zsum (fun x => num_to_Z (f x)) l.
Proof.
  unfold num_sum. induction l as [|x l IH] using rev_ind; intros Hi Hs; [done|].
  rewrite zsum_app, zsum_cons in Hs. change (zsum _ []) with 0 in Hs. pose proof (zsum_abs (fun x => num_to_Z (f x)) l) as Ha. cbn beta in Ha.
  destruct IH as [I E]; [intros; apply Hi; apply elem_of_app; by left|lia|].
  rewrite map_app, fold_left_app, zsum_app, zsum_cons. change (zsum _ []) with 0. cbn [map fold_left]. rewrite <- E.
  destruct (num_add_small (fold_left num_add (map f l) zero) (f x)) as [I' E']; [done| |rewrite E; lia|split; [done|lia]].
  apply Hi. apply elem_of_app. right. by left.
Qed.

(** ** Groups *)

Section accumulate.
Context {E K V : Type} `{EqDecision K} (key : E -> K) (init : E -> V) (upd : V -> E -> V).

Definition accumulate_step (m : list (K * V)) (e : E) : list (K * V) :=
  assoc_set (key e) (upd (default (init e) (assoc_get (key e) m)) e) m.
Definition accumulate (es : list E) : list (K * V) := fold_left accumulate_step es [].

Definition with_key (k : K) (es : list E) : list E := List.filter (fun e => bool_decide (key e = k)) es.

Lemma accumulate_snoc es e : accumulate (es ++ [e]) = accumulate_step (accumulate es) e.
Proof. unfold accumulate. by rewrite fold_left_app. Qed.

Lemma accumulate_get es k : assoc_get k (accumulate es) =
  match with_key k es with [] => None | e :: l => Some (fold_left upd (e :: l) (init e)) end.
Proof.
  induction es as [|e es IH] using rev_ind; [done|]. rewrite accumulate_snoc. unfold accumulate_step, with_key.
  rewrite assoc_get_set, List.filter_app. fold (with_key k es). cbn [List.filter].
  destruct (decide (key e = k)) as [<-|Ek].
  - rewrite bool_decide_eq_true_2 by done. rewrite IH. destruct (with_key (key e) es) as [|e' l]; [done|].
    cbn [default id]. rewrite <- app_comm_cons. f_equal. by rewrite app_comm_cons, fold_left_app.
  - rewrite bool_decide_eq_false_2 by done. by rewrite app_nil_r.
Qed.

Lemma accumulate_keys es : (accumulate es).*1 = set_of (map key es).
Proof.
  induction es as [|e es IH] using rev_ind; [done|]. rewrite accumulate_snoc, map_app. cbn [map].
  rewrite set_of_snoc, <- IH. apply assoc_set_keys.
Qed.

Lemma accumulate_NoDup es : NoDup (accumulate es).*1.
Proof. rewrite accumulate_keys. apply set_of_NoDup. Qed.

(** Every entry is the fold of the elements of its key. *)
Lemma accumulate_entry es k v : (k, v) ∈ accumulate es ->
  exists e l, with_key k es = e :: l /\ v = fold_left upd (e :: l) (init e).
Proof.
  intros Hin. apply assoc_get_elem in Hin; [|apply accumulate_NoDup]. rewrite accumulate_get in Hin.
  destruct (with_key k es) as [|e l]; [done|]. exists e, l. split; [done|]. by injection Hin.
Qed.

(** A number that every element adds to. *)
Lemma fold_amount (value : V -> number) (amount : E -> number) l :
  (forall v e, value (upd v e) = num_add (value v) (amount e)) ->
  forall v, value (fold_left upd l v) = fold_left num_add (map amount l) (value v).
Proof. intros Hu. induction l as [|e l IH]; intros v; [done|]. cbn [fold_left map]. by rewrite IH, Hu. Qed.

(** A component no element changes. *)
Lemma fold_kept {C} (part : V -> C) l : (forall v e, part (upd v e) = part v) ->
  forall v, part (fold_left upd l v) = part v.
Proof. intros Hu. induction l as [|e l IH]; intros v; [done|]. cbn [fold_left]. by rewrite IH, Hu. Qed.

Context (value : V -> number) (amount : E -> number).
Hypothesis value_init : forall e, value (init e) = zero.
Hypothesis value_upd : forall v e, value (upd v e) = num_add (value v) (amount e).

Lemma accumulate_value es k v : (k, v) ∈ accumulate es -> value v = num_sum (map amount (with_key k es)).
Proof. intros (e & l & -> & ->)%accumulate_entry. by rewrite (fold_amount value amount), value_init by done. Qed.

Lemma with_key_sum (f : E -> Z) k es : zsum f (with_key k es) = zsum (fun e => if bool_decide (key e = k) then f e else 0) es.
Proof. unfold with_key. apply zsum_filter. Qed.

Lemma with_key_elem k es e : e ∈ with_key k es -> e ∈ es /\ key e = k.
Proof. unfold with_key. rewrite !list_elem_of_In, filter_In, bool_decide_eq_true. tauto. Qed.

(** Whole amounts whose groups stay below 2^53. *)
Definition exact_groups (es : list E) : Prop :=
  (forall e, e ∈ es -> num_is_integer (amount e) = true) /\
  forall k, zsum (fun e => if bool_decide (key e = k) then Z.abs (num_to_Z (amount e)) else 0) es < 2 ^ 53.

(** The values are the exact sums of their groups. *)
Lemma accumulate_exact es k v : exact_groups es -> (k, v) ∈ accumulate es ->
  num_is_integer (value v) = true /\
  num_to_Z (value v) = zsum (fun e => if bool_decide (key e = k) then num_to_Z (amount e) else 0) es.
Proof.
  intros [Hi Hs] Hin. rewrite (accumulate_value es k v Hin), <- (with_key_sum (fun e => num_to_Z (amount e))).
  apply num_sum_exact; [intros e [He _]%with_key_elem; by apply Hi|]. rewrite with_key_sum. apply Hs.
Qed.

(** The sum of the values of some keys is the sum of their elements. *)
Lemma keyed_sum es (q : K -> bool) (f : E -> Z) :
  zsum (fun kv : K * V => if q kv.1 then zsum (fun e => if bool_decide (key e = kv.1) then f e else 0) es else 0) (accumulate es) =
  zsum (fun e => if q (key e) then f e else 0) es.
Proof.
  rewrite <- (zsum_groups key f q (set_of (map key es))).
  - rewrite <- accumulate_keys. change ((accumulate es).*1) with (map fst (accumulate es)). by rewrite zsum_map.
  - apply set_of_NoDup.
  - intros e He. apply elem_of_set_of. apply list_elem_of_fmap. by exists e.
Qed.

Lemma accumulate_total es (q : K -> bool) : exact_groups es ->
  zsum (fun kv : K * V => if q kv.1 then num_to_Z (value kv.2) else 0) (accumulate es) =
  zsum (fun e => if q (key e) then num_to_Z (amount e) else 0) es.
Proof.
  intros Hg. rewrite <- keyed_sum. apply zsum_ext. intros [k v] Hin. cbn [fst snd]. destruct (q k); [|done].
  by destruct (accumulate_exact es k v Hg Hin) as [_ ->].
Qed.

Lemma accumulate_total_abs es (q : K -> bool) : exact_groups es ->
  zsum (fun kv : K * V => if q kv.1 then Z.abs (num_to_Z (value kv.2)) else 0) (accumulate es) <=
  zsum (fun e => if q (key e) then Z.abs (num_to_Z (amount e)) else 0) es.
Proof.
  intros Hg. rewrite <- keyed_sum. apply zsum_le. intros [k v] Hin. cbn [fst snd]. destruct (q k); [|done].
  destruct (accumulate_exact es k v Hg Hin) as [_ ->]. etrans; [apply zsum_abs|]. apply zsum_le. intros e _.
  case_bool_decide; lia.
Qed.
End accumulate.
