(* ===== verification/FlowFacts.v ===== *)
(** * The flow of the dashboard is what the rows say

    The shape of the prepared paths, the maps of nodes and links as groups of visits, and
    what the later steps of [buildFlowGraph] keep. *)

From Stdlib Require Import String Sorting.Permutation.
From stdpp Require Import sets.
From S2P Require Import Prelude JsNumber JsArray JsString JsText Ast Compile Request Json TaskExpr Currency.
From S2P Require Import FlowGraph Accumulate.

#[local] Open Scope nat_scope.

(** ** Paths *)

(** The id of a node begins with its kind. *)
Definition well_named (node : FlowPathNode) : Prop :=
  exists rest, p_id node = kind_text (p_kind node) ++ u ":" ++ rest.
Definition path_ok (stages : list FlowNodeKind) (path : list FlowPathNode) : Prop :=
  map p_kind path = stages /\ Forall well_named path.

Lemma kind_prefix (k1 k2 : FlowNodeKind) (r1 r2 : str) :
  kind_text k1 ++ u ":" ++ r1 = kind_text k2 ++ u ":" ++ r2 -> k1 = k2.
Proof. by destruct k1, k2. Qed.
Lemma same_id_same_kind n m : well_named n -> well_named m -> p_id n = p_id m -> p_kind n = p_kind m.
Proof. intros [r ->] [r' ->]. apply kind_prefix. Qed.

Lemma NODE_BUILDERS_ok kind row ctx : p_kind (NODE_BUILDERS kind row ctx) = kind /\ well_named (NODE_BUILDERS kind row ctx).
Proof.
  unfold well_named. destruct kind; (split; [done|]);
    cbn [NODE_BUILDERS userNode nodeNameNode tokenNode groupNode modelNode channelNode p_id p_kind kind_text];
    try destruct (num_gtb _ _); eexists; reflexivity.
Qed.
Lemma otherFlowNode_ok kind labeler : well_named (otherFlowNode kind labeler).
Proof. exists (u "__other__"). by destruct kind. Qed.

Lemma flowPathForStages_ok row stages ctx : path_ok stages (flowPathForStages row stages ctx).
Proof.
  unfold path_ok, flowPathForStages. split.
  - rewrite map_map. etrans; [|apply map_id]. apply map_ext. intros kind. apply NODE_BUILDERS_ok.
  - rewrite List.Forall_forall. intros n (kind & <- & _)%in_map_iff. apply NODE_BUILDERS_ok.
Qed.

Lemma applyTopNodeLimit_ok stages path sets mode labeler path' :
  path_ok stages path -> applyTopNodeLimit path sets mode labeler = Some path' -> path_ok stages path'.
Proof.
  intros [Hk Hw]. unfold applyTopNodeLimit. destruct sets as [sets|]; [|by intros [= <-]].
  destruct (negb (existsb _ path)); [by intros [= <-]|]. destruct mode; [|done]. intros [= <-]. split.
  - rewrite <- Hk, map_map. apply map_ext. intros n. by destruct (isTopFlowNode _ _).
  - rewrite List.Forall_forall in *. intros n (m & <- & Hm)%in_map_iff.
    destruct (isTopFlowNode _ _); [by apply Hw|apply otherFlowNode_ok].
Qed.

(** Every prepared path is a row of the log. *)
Lemma preparePaths_elem rows stages ctx sets mode labeler p :
  p ∈ preparePaths rows stages ctx sets mode labeler ->
  exists row, row ∈ rows /\ pp_metrics p = rowMetrics row /\
    applyTopNodeLimit (flowPathForStages row stages ctx) sets mode labeler = Some (pp_path p).
Proof.
  unfold preparePaths. intros (row & Hr & E)%list_elem_of_omap. exists row. split; [done|].
  destruct (applyTopNodeLimit _ _ _ _) as [path|]; [|done]. by injection E as <-.
Qed.
Lemma preparePaths_ok rows stages ctx sets mode labeler p :
  p ∈ preparePaths rows stages ctx sets mode labeler -> path_ok stages (pp_path p).
Proof. intros (row & _ & _ & E)%preparePaths_elem. eapply applyTopNodeLimit_ok; [apply flowPathForStages_ok|done]. Qed.

(** Without hiding, no row is dropped. *)
Lemma preparePaths_all rows stages ctx sets mode labeler : sets = None \/ mode = O_aggregate ->
  map pp_metrics (preparePaths rows stages ctx sets mode labeler) = map rowMetrics rows.
Proof.
  intros Hm. unfold preparePaths. induction rows as [|row rows IH]; [done|]. cbn [omap list_omap map].
  assert (exists path, applyTopNodeLimit (flowPathForStages row stages ctx) sets mode labeler = Some path) as [path ->].
  { unfold applyTopNodeLimit. destruct Hm as [-> | ->]; [eauto|]. destruct sets; [|eauto]. case_match; eauto. }
  cbn. f_equal. apply IH.
Qed.

Lemma resolveVisibleStages_ok role visible :
  NoDup (resolveVisibleStages role visible) /\ 2 <= length (resolveVisibleStages role visible).
Proof.
  assert (forall r, NoDup (getFlowStages r) /\ 2 <= length (getFlowStages r)) as Hr.
  { intros r. split; [|destruct r; cbn; lia]. apply (bool_decide_unpack _). by destruct r. }
  unfold resolveVisibleStages. destruct visible as [visible|]; [|done].
  destruct (Nat.leb_spec MIN_FLOW_STAGES (length (List.filter (fun stage => bool_decide (stage ∈ visible)) (getFlowStages role))));
    [|apply Hr]. split; [|done]. apply NoDup_ListNoDup. apply List.NoDup_filter, NoDup_ListNoDup, Hr.
Qed.

(** ** Visits *)

(** What a path adds to the maps: itself with its metrics, colour and root. *)
Record visit (A : Type) : Type := { v_what : A; v_metrics : FlowMetrics; v_color : str; v_colorKey : str }.
Arguments v_what {A}. Arguments v_metrics {A}. Arguments v_color {A}. Arguments v_colorKey {A}.

Section visits.
Context `{Collation, ChartScheme} (metric : FlowMetric) (colors : list (str * str)) (palette : option (list str)).

Definition path_visits {A} (parts : list FlowPathNode -> list A) (p : PreparedFlowPath) : list (visit A) :=
  match pp_path p with
  | [] => []
  | root :: _ =>
      map (fun x => {| v_what := x; v_metrics := pp_metrics p;
                       v_color := default (colorAt 0 palette) (assoc_get (p_id root) colors);
                       v_colorKey := p_id root |}) (parts (pp_path p))
  end.
Definition visits {A} (parts : list FlowPathNode -> list A) (paths : list PreparedFlowPath) : list (visit A) :=
  concat (map (path_visits parts) paths).

Definition amount {A} (v : visit A) : number := metricValue (v_metrics v) metric.

Definition node_init (v : visit FlowPathNode) : DashboardFlowNode :=
  {| n_id := p_id (v_what v); n_label := p_label (v_what v); n_kind := p_kind (v_what v); n_value := zero;
     n_requests := zero; n_quota := zero; n_tokens := zero; n_color := v_color v; n_colorKey := v_colorKey v;
     n_highlighted := None; n_dimmed := None |}.
Definition node_upd (n : DashboardFlowNode) (v : visit FlowPathNode) : DashboardFlowNode :=
  {| n_id := n_id n; n_label := n_label n; n_kind := n_kind n; n_value := num_add (n_value n) (amount v);
     n_requests := num_add (n_requests n) (m_requests (v_metrics v));
     n_quota := num_add (n_quota n) (m_quota (v_metrics v));
     n_tokens := num_add (n_tokens n) (m_tokens (v_metrics v));
     n_color := n_color n; n_colorKey := n_colorKey n; n_highlighted := n_highlighted n; n_dimmed := n_dimmed n |}.
Definition node_key (v : visit FlowPathNode) : str := p_id (v_what v).

Definition link_init (v : visit (FlowPathNode * FlowPathNode)) : DashboardFlowLink :=
  {| l_source := p_id (v_what v).1; l_target := p_id (v_what v).2; l_value := zero; l_requests := zero;
     l_quota := zero; l_tokens := zero; l_sourceLabel := p_label (v_what v).1; l_targetLabel := p_label (v_what v).2;
     l_color := v_color v; l_linkColor := v_color v; l_linkAlpha := one; l_hoverColor := v_color v;
     l_colorKey := v_colorKey v; l_share := zero; l_highlighted := None; l_dimmed := None |}.
Definition link_upd (l : DashboardFlowLink) (v : visit (FlowPathNode * FlowPathNode)) : DashboardFlowLink :=
  {| l_source := l_source l; l_target := l_target l; l_value := num_add (l_value l) (amount v);
     l_requests := num_add (l_requests l) (m_requests (v_metrics v));
     l_quota := num_add (l_quota l) (m_quota (v_metrics v));
     l_tokens := num_add (l_tokens l) (m_tokens (v_metrics v));
     l_sourceLabel := l_sourceLabel l; l_targetLabel := l_targetLabel l; l_color := l_color l;
     l_linkColor := l_linkColor l; l_linkAlpha := l_linkAlpha l; l_hoverColor := l_hoverColor l;
     l_colorKey := l_colorKey l; l_share := l_share l; l_highlighted := l_highlighted l; l_dimmed := l_dimmed l |}.
Definition step_key (v : visit (FlowPathNode * FlowPathNode)) : str := pathLinkKey (v_what v).1 (v_what v).2.

Lemma fold_left_map {A B C} (f : A -> B -> A) (g : C -> B) (l : list C) a :
  fold_left f (map g l) a = fold_left (fun a x => f a (g x)) l a.
Proof. revert a. induction l as [|x l IH]; intros a; [done|]. apply IH. Qed.

Lemma add_path_visits graph p : add_path metric colors palette graph p =
  (fold_left (accumulate_step node_key node_init node_upd) (path_visits id p) graph.1,
   fold_left (accumulate_step step_key link_init link_upd) (path_visits steps p) graph.2).
Proof.
  unfold add_path, path_visits. destruct (pp_path p) as [|root rest]; [by destruct graph|].
  rewrite !fold_left_map. reflexivity.
Qed.

Lemma add_paths_visits paths : forall graph, fold_left (add_path metric colors palette) paths graph =
  (fold_left (accumulate_step node_key node_init node_upd) (visits id paths) graph.1,
   fold_left (accumulate_step step_key link_init link_upd) (visits steps paths) graph.2).
Proof.
  unfold visits. induction paths as [|p paths IH]; intros graph; [by destruct graph|].
  cbn [fold_left map concat]. rewrite IH, add_path_visits. cbn [fst snd]. by rewrite !fold_left_app.
Qed.

Lemma visits_elem {A} (parts : list FlowPathNode -> list A) paths v : v ∈ visits parts paths ->
  exists p, p ∈ paths /\ v_what v ∈ parts (pp_path p) /\ v_metrics v = pp_metrics p.
Proof.
  unfold visits. rewrite list_elem_of_In, in_concat. intros (l & (p & <- & Hp)%in_map_iff & Hv).
  exists p. rewrite list_elem_of_In. split; [done|]. unfold path_visits in Hv.
  destruct (pp_path p) as [|root rest] eqn:Ep; [done|]. apply in_map_iff in Hv as (x & <- & Hx). cbn [v_what v_metrics].
  by rewrite list_elem_of_In.
Qed.

Lemma visits_exists p m paths : p ∈ paths -> m ∈ pp_path p -> exists v, v ∈ visits id paths /\ v_what v = m.
Proof.
  intros Hp Hm. destruct (pp_path p) as [|root rest] eqn:Ep; [by apply not_elem_of_nil in Hm|].
  set (at_m := fun x : FlowPathNode => {| v_what := x; v_metrics := pp_metrics p;
    v_color := default (colorAt 0 palette) (assoc_get (p_id root) colors); v_colorKey := p_id root |}).
  exists (at_m m). split; [|done]. apply list_elem_of_In, in_concat. exists (path_visits id p).
  rewrite in_map_iff. split; [exists p; by rewrite <- list_elem_of_In|]. unfold path_visits. rewrite Ep.
  apply (in_map at_m). by rewrite <- list_elem_of_In.
Qed.

(** A sum over visits is a sum over paths. *)
Lemma visits_sum {A} (parts : list FlowPathNode -> list A) (q : A -> bool) (f : FlowMetrics -> Z) paths :
  parts [] = [] ->
  zsum (fun v => if q (v_what v) then f (v_metrics v) else 0%Z) (visits parts paths) =
  zsum (fun p => zsum (fun x => if q x then f (pp_metrics p) else 0%Z) (parts (pp_path p))) paths.
Proof.
  intros Hn. unfold visits. rewrite zsum_concat. apply zsum_ext. intros p _. unfold path_visits.
  destruct (pp_path p) as [|root rest]; [by rewrite Hn|]. by rewrite zsum_map.
Qed.
End visits.

(** ** The steps after the maps *)

Section steps_after.
Context `{Collation, ChartScheme}.

(** Colours change nothing else of a link. *)
Definition uncolored {B} (part : DashboardFlowLink -> B) : Prop :=
  forall color alpha link, part (set_link_color color alpha link) = part link.

Lemma replace_link_part {B} (part : DashboardFlowLink -> B) key color alpha links : uncolored part ->
  map part (replace_link key (set_link_color color alpha) links) = map part links.
Proof.
  intros Hp. unfold replace_link. rewrite map_map. apply map_ext. intros link. by destruct (str_eqb _ _).
Qed.

Lemma fold_left_keeps {A B C} (f : A -> B -> A) (part : A -> C) (l : list B) :
  (forall a b, b ∈ l -> part (f a b) = part a) -> forall a, part (fold_left f l a) = part a.
Proof.
  induction l as [|b l IH]; intros Hf a; [done|]. cbn [fold_left]. rewrite IH by (intros; apply Hf; by right). apply Hf. by left.
Qed.

Lemma assignLinkDisplayColors_part {B} (part : DashboardFlowLink -> B) links : uncolored part ->
  map part (assignLinkDisplayColors links) = map part links.
Proof.
  intros Hp. unfold assignLinkDisplayColors. apply (fold_left_keeps _ (map part)). intros l group _.
  apply (fold_left_keeps _ (map part)). clear l. intros l f Hf.
  apply elem_of_lookup_imap in Hf as (i & link & -> & _). unfold color_link.
  destruct (alphaColor _ _) as [color alpha]. by apply replace_link_part.
Qed.

Definition masked_labels (nodes : list (str * DashboardFlowNode)) : list (str * str) :=
  fold_left (fun m (e : str * DashboardFlowNode) =>
    if is_masked e.2 then assoc_set (n_id e.2) (maskFlowLabel (n_label e.2)) m else m) nodes [].

Lemma mask_link_nil link : mask_link [] link = link.
Proof. by destruct link. Qed.
Lemma maskFlowGraphLabels_eq nodes links : maskFlowGraphLabels nodes links =
  (map_values mask_node nodes, map_values (mask_link (masked_labels nodes)) links).
Proof.
  unfold maskFlowGraphLabels. fold (masked_labels nodes). destruct (masked_labels nodes); [|done]. f_equal.
  unfold map_values. rewrite <- (map_id links) at 1. apply map_ext. intros [k l]. cbn [fst snd]. by rewrite mask_link_nil.
Qed.

(** What becomes of a node and a link of the maps. *)
Definition final_node (mask : bool) (sets : option FlowHighlightSets) (n : DashboardFlowNode) : DashboardFlowNode :=
  let n := if mask then mask_node n else n in match sets with Some s => highlight_node s n | None => n end.
Definition final_link (masked : list (str * str)) (sets : option FlowHighlightSets) (l : DashboardFlowLink)
  : DashboardFlowLink :=
  let l := mask_link masked l in match sets with Some s => highlight_link s l | None => l end.

Context (rows : list FlowQuotaDataItem) (metric : FlowMetric) (role : FlowRole) (palette : option (list str)).
Context (visible : option (list FlowNodeKind)) (ctx : FlowPathContext) (options : FlowGraphOptions).

Definition the_stages := resolveVisibleStages role visible.
Definition the_paths := graph_paths rows metric the_stages ctx options.
Definition the_sets := buildFlowHighlightSets the_paths (go_activeNode options) (go_activeLink options) the_stages.
Definition the_graph := buildFlowGraph rows metric role palette visible ctx options.
Definition the_maps := graph_maps metric palette the_paths.
Definition masking : bool := default false (go_maskSensitive options).
Definition the_masked : list (str * str) := if masking then masked_labels the_maps.1 else [].

Definition ending_links : list DashboardFlowLink :=
  sort_by by_ends (map (final_link the_masked the_sets) (map snd the_maps.2)).

Lemma map_values_snd {A} (f : A -> A) (m : list (str * A)) : map snd (map_values f m) = map f (map snd m).
Proof. unfold map_values. by rewrite !map_map. Qed.

Lemma the_graph_nodes : g_nodes the_graph = sort_by byValueThenLabel (map (final_node masking the_sets) (map snd the_maps.1)).
Proof.
  unfold the_graph, buildFlowGraph, masking. fold the_stages. fold the_paths. fold the_sets. fold the_maps.
  destruct the_maps as [nodes links]. cbn [fst snd]. rewrite maskFlowGraphLabels_eq.
  destruct (default false _); cbn [fst snd]; unfold final_node, applyFlowHighlights; destruct the_sets;
    cbn [g_nodes]; rewrite ?map_values_snd; repeat rewrite ?map_map; cbn; done.
Qed.

Lemma the_graph_links : g_links the_graph =
  let total := link_total the_paths ending_links in
  assignLinkDisplayColors (map (fun link =>
    set_link_share (if num_gtb total zero then num_div (l_value link) total else zero) link) ending_links).
Proof.
  unfold the_graph, buildFlowGraph, ending_links, the_masked, masking. fold the_stages. fold the_paths. fold the_sets.
  fold the_maps. destruct the_maps as [nodes links]. cbn [fst snd]. rewrite maskFlowGraphLabels_eq.
  assert (forall sets l, map (final_link [] sets) l = map (fun l => match sets with Some s => highlight_link s l | None => l end) l)
    as Hn by (intros; apply map_ext; intros; unfold final_link; by rewrite mask_link_nil).
  destruct (default false _); rewrite ?Hn; unfold final_link, applyFlowHighlights; destruct the_sets; cbn [g_links];
    rewrite ?map_values_snd; rewrite ?map_map, ?map_id; done.
Qed.
End steps_after.
