(* ===== verification/FlowBalance.v ===== *)
(** * Conservation of the flow

    What enters a node of the graph leaves it, every stage carries the whole total, and
    the total is the summary of the rows. *)

From Stdlib Require Import String Sorting.Permutation.
From stdpp Require Import sets.
From S2P Require Import Prelude JsNumber JsArray JsString JsText Ast Compile Request Json TaskExpr Currency.
From S2P Require Import FlowGraph Accumulate FlowFacts.

#[local] Open Scope Z_scope.

(** ** Steps of a path *)

Lemma steps_sources {A} (path : list A) : map fst (steps path) = removelast path.
Proof.
  induction path as [|a path IH]; [done|]. destruct path as [|b path]; [done|].
  change (steps (a :: b :: path)) with ((a, b) :: steps (b :: path)). cbn [map fst]. by rewrite IH.
Qed.
Lemma steps_targets {A} (path : list A) : map snd (steps path) = tail path.
Proof.
  induction path as [|a path IH]; [done|]. destruct path as [|b path]; [done|].
  change (steps (a :: b :: path)) with ((a, b) :: steps (b :: path)). cbn [map snd]. rewrite IH. done.
Qed.
Lemma steps_elem {A} (path : list A) e : e ∈ steps path -> e.1 ∈ path /\ e.2 ∈ path.
Proof.
  induction path as [|a path IH]; [by intros ?%not_elem_of_nil|]. destruct path as [|b path]; [by intros ?%not_elem_of_nil|].
  change (steps (a :: b :: path)) with ((a, b) :: steps (b :: path)). intros [->|He]%elem_of_cons; [cbn; set_solver|].
  apply IH in He as [? ?]. split; by right.
Qed.

(** ** Ids along a path *)

Lemma path_ids_NoDup stages path : NoDup stages -> path_ok stages path -> NoDup (map p_id path).
Proof.
  intros Hnd [Hk Hw]. subst. induction path as [|n path IH]; cbn [map]; [apply NoDup_nil_2|].
  cbn [map] in Hnd. apply list.NoDup_cons in Hnd as [Hn Hnd]. apply Forall_cons_iff in Hw as [Wn Wp].
  apply list.NoDup_cons. split; [|by apply IH]. intros Hin. apply Hn.
  apply list_elem_of_fmap in Hin as (m & E & Hm). apply list_elem_of_fmap. exists m. split; [|done].
  rewrite List.Forall_forall in Wp. apply same_id_same_kind; [done| |done]. apply Wp. by rewrite <- list_elem_of_In.
Qed.

(** Counting one element among distinct ones. *)
Lemma zsum_at_most_one {A B} `{EqDecision B} (f : A -> B) (y : B) (c : Z) (l : list A) : NoDup (map f l) ->
  zsum (fun x => if bool_decide (f x = y) then c else 0) l = if bool_decide (y ∈ map f l) then c else 0.
Proof.
  intros Hnd. transitivity (zsum (fun z => if bool_decide (z = y) then c else 0) (map f l)); [by rewrite zsum_map|].
  destruct (decide (y ∈ map f l)) as [Hy|Hy].
  - rewrite bool_decide_eq_true_2 by done. by apply (zsum_single (fun _ => c)).
  - rewrite bool_decide_eq_false_2 by done. apply zsum_zero. intros z Hz. rewrite bool_decide_eq_false_2; [done|]. by intros ->.
Qed.

(** ** Keys of links *)

Definition not_nul (c : N) : bool := negb (N.eqb c nul).
Definition key_source (key : str) : str := take_while not_nul key.
Definition key_target (key : str) : str := drop 1 (drop_while not_nul key).
Definition no_nul (s : str) : Prop := nul ∉ s.

Lemma while_not_nul s t : no_nul s ->
  take_while not_nul (s ++ nul :: t) = s /\ drop_while not_nul (s ++ nul :: t) = nul :: t.
Proof.
  unfold no_nul. induction s as [|c s IH]; intros Hs; [done|]. rewrite not_elem_of_cons in Hs. destruct Hs as [Hc Hs].
  cbn [app take_while drop_while]. assert (not_nul c = true) as -> by (unfold not_nul; destruct (N.eqb_spec c nul); by subst).
  destruct (IH Hs) as [-> ->]. done.
Qed.
Lemma key_parts s t : no_nul s -> key_source (link_key s t) = s /\ key_target (link_key s t) = t.
Proof.
  intros Hs. unfold key_source, key_target, link_key. cbn [app]. destruct (while_not_nul s t Hs) as [-> ->]. done.
Qed.

Lemma step_keys_NoDup path : NoDup (map p_id path) -> Forall (fun n => no_nul (p_id n)) path ->
  NoDup (map (fun e : FlowPathNode * FlowPathNode => pathLinkKey e.1 e.2) (steps path)).
Proof.
  intros Hnd Hn. apply (NoDup_fmap_1 key_source).
  change (key_source <$> map ?f ?l) with (map key_source (map f l)). rewrite map_map.
  rewrite (map_ext_in _ (fun e : FlowPathNode * FlowPathNode => p_id e.1)).
  - rewrite <- (map_map fst p_id), steps_sources. destruct path as [|n path _] using rev_ind; [done|].
    rewrite removelast_last. rewrite map_app in Hnd. by apply list.NoDup_app in Hnd as [? _].
  - intros [a b] He. cbn [fst snd]. apply list_elem_of_In, steps_elem in He as [Ha _]. cbn [fst] in Ha.
    rewrite List.Forall_forall in Hn. apply key_parts, Hn. by rewrite <- list_elem_of_In.
Qed.

(** ** The balance *)

Lemma str_neqb (x y : str) : x <> y -> str_eqb x y = false.
Proof. intros Hn. unfold str_eqb. by apply bool_decide_eq_false_2. Qed.

Section balance.
Context `{Collation, ChartScheme}.
Context (metric : FlowMetric) (colors : list (str * str)) (palette : option (list str)).
Context (stages : list FlowNodeKind) (paths : list PreparedFlowPath).

Definition path_amount (p : PreparedFlowPath) : number := metricValue (pp_metrics p) metric.

Hypothesis stages_distinct : NoDup stages.
Hypothesis stages_many : (2 <= length stages)%nat.
Hypothesis paths_ok : forall p, p ∈ paths -> path_ok stages (pp_path p).
Hypothesis ids_ok : forall p n, p ∈ paths -> n ∈ pp_path p -> no_nul (p_id n).
Hypothesis amounts_whole : forall p, p ∈ paths -> num_is_integer (path_amount p) = true.
Hypothesis amounts_small : zsum (fun p => Z.abs (num_to_Z (path_amount p))) paths < 2 ^ 53.

Abbreviation node_map := (accumulate node_key node_init (node_upd metric) (visits colors palette id paths)).
Abbreviation link_map := (accumulate step_key link_init (link_upd metric) (visits colors palette steps paths)).

(** At most one part of a path has a given key. *)
Lemma visits_exact {A} (parts : list FlowPathNode -> list A) (key : visit A -> str) (f : A -> str) :
  parts [] = [] -> (forall v, key v = f (v_what v)) -> (forall p, p ∈ paths -> NoDup (map f (parts (pp_path p)))) ->
  exact_groups key (amount metric) (visits colors palette parts paths).
Proof.
  intros Hn Hk Hnd. split.
  - intros v (p & Hp & _ & E)%visits_elem. unfold amount. rewrite E. by apply amounts_whole.
  - intros k. eapply Z.le_lt_trans; [|exact amounts_small].
    rewrite (zsum_ext _ (fun v => if bool_decide (f (v_what v) = k) then Z.abs (num_to_Z (metricValue (v_metrics v) metric)) else 0))
      by (intros v _; by rewrite Hk).
    etrans; [apply Z.eq_le_incl; by apply (visits_sum colors palette parts (fun x => str_eqb (f x) k)
      (fun m => Z.abs (num_to_Z (metricValue m metric))))|].
    apply zsum_le. intros p Hp. etrans; [apply Z.eq_le_incl; by apply (zsum_at_most_one f k), Hnd|].
    unfold path_amount. case_bool_decide; lia.
Qed.

Lemma nodes_exact : exact_groups node_key (amount metric) (visits colors palette id paths).
Proof.
  apply (visits_exact id node_key p_id); [done|done|]. intros p Hp. eapply path_ids_NoDup; [exact stages_distinct|]. by apply paths_ok.
Qed.
Lemma links_exact : exact_groups step_key (amount metric) (visits colors palette steps paths).
Proof.
  apply (visits_exact steps step_key (fun e => pathLinkKey e.1 e.2)); [done|done|]. intros p Hp. apply step_keys_NoDup.
  - eapply path_ids_NoDup; [exact stages_distinct|]. by apply paths_ok.
  - rewrite List.Forall_forall. intros n Hn. apply (ids_ok p); [done|]. by rewrite list_elem_of_In.
Qed.

(** The amount of the paths through an id. *)
Definition through (id : str) : Z :=
  zsum (fun p => zsum (fun n => if str_eqb (p_id n) id then num_to_Z (path_amount p) else 0) (pp_path p)) paths.

Lemma node_entry k n : (k, n) ∈ node_map -> n_id n = k /\ num_to_Z (n_value n) = through k /\
  exists p m, p ∈ paths /\ m ∈ pp_path p /\ p_id m = k /\ n_kind n = p_kind m.
Proof.
  intros Hin. destruct (accumulate_exact node_key node_init (node_upd metric) n_value (amount metric) ltac:(done) ltac:(done)
    _ k n nodes_exact Hin) as [_ ->].
  destruct (accumulate_entry _ _ _ _ _ _ Hin) as (v & l & E & ->).
  assert (v ∈ with_key node_key k (visits colors palette id paths)) as [Hv <-]%with_key_elem by (rewrite E; by left).
  rewrite !(fold_kept (node_upd metric)) by done. split; [done|]. split.
  - by apply (visits_sum colors palette id (fun n => str_eqb (p_id n) (node_key v)) (fun m => num_to_Z (metricValue m metric))).
  - apply visits_elem in Hv as (p & Hp & Hm & _). exists p, (v_what v). done.
Qed.

Lemma link_entry k l : (k, l) ∈ link_map -> k = linkStableKey l /\ exists p e, p ∈ paths /\ e ∈ steps (pp_path p) /\
  l_source l = p_id e.1 /\ l_target l = p_id e.2.
Proof.
  intros (v & r & E & ->)%accumulate_entry.
  assert (v ∈ with_key step_key k (visits colors palette steps paths)) as [Hv <-]%with_key_elem by (rewrite E; by left).
  unfold linkStableKey. rewrite !(fold_kept (link_upd metric)) by done. split; [done|].
  apply visits_elem in Hv as (p & Hp & Hm & _). by exists p, (v_what v).
Qed.

(** Selecting links by their ends is selecting keys. *)
Definition by_key (q : str -> str -> bool) (k : str) : bool := q (key_source k) (key_target k).

Lemma link_by_key q k l : (k, l) ∈ link_map -> by_key q k = q (l_source l) (l_target l).
Proof.
  intros (-> & p & e & Hp & [He _]%steps_elem & Es & Et)%link_entry. unfold by_key, linkStableKey.
  destruct (key_parts (l_source l) (l_target l)) as [-> ->]; [|done]. rewrite Es. by apply (ids_ok p).
Qed.

Lemma visits_by_key (q : str -> str -> bool) (f : FlowMetrics -> Z) :
  zsum (fun v => if by_key q (step_key v) then f (v_metrics v) else 0) (visits colors palette steps paths) =
  zsum (fun p => zsum (fun e : FlowPathNode * FlowPathNode =>
    if q (p_id e.1) (p_id e.2) then f (pp_metrics p) else 0) (steps (pp_path p))) paths.
Proof.
  etrans; [by apply (visits_sum colors palette steps (fun e => by_key q (pathLinkKey e.1 e.2)) f)|].
  apply zsum_ext. intros p Hp. apply zsum_ext. intros e [He _]%steps_elem. unfold pathLinkKey, by_key.
  destruct (key_parts (p_id e.1) (p_id e.2)) as [-> ->]; [by apply (ids_ok p)|done].
Qed.

(** The amount of some steps, as the sum of the links. *)
Lemma link_sum (q : str -> str -> bool) :
  zsum (fun kl : str * DashboardFlowLink => if q (l_source kl.2) (l_target kl.2) then num_to_Z (l_value kl.2) else 0) link_map =
  zsum (fun p => zsum (fun e : FlowPathNode * FlowPathNode =>
    if q (p_id e.1) (p_id e.2) then num_to_Z (path_amount p) else 0) (steps (pp_path p))) paths.
Proof.
  etrans; [|apply (visits_by_key q (fun m => num_to_Z (metricValue m metric)))].
  etrans; [|apply (accumulate_total step_key link_init (link_upd metric) l_value (amount metric) ltac:(done) ltac:(done) _
    (by_key q) links_exact)].
  apply zsum_ext. intros [k l] Hin. cbn [fst snd]. by rewrite (link_by_key q k l).
Qed.
Lemma link_sum_abs (q : str -> str -> bool) :
  zsum (fun kl : str * DashboardFlowLink => if q (l_source kl.2) (l_target kl.2) then Z.abs (num_to_Z (l_value kl.2)) else 0) link_map <=
  zsum (fun p => zsum (fun e : FlowPathNode * FlowPathNode =>
    if q (p_id e.1) (p_id e.2) then Z.abs (num_to_Z (path_amount p)) else 0) (steps (pp_path p))) paths.
Proof.
  etrans; [|apply Z.eq_le_incl, (visits_by_key q (fun m => Z.abs (num_to_Z (metricValue m metric))))].
  etrans; [|apply (accumulate_total_abs step_key link_init (link_upd metric) l_value (amount metric) ltac:(done) ltac:(done) _
    (by_key q) links_exact)].
  apply Z.eq_le_incl, zsum_ext. intros [k l] Hin. cbn [fst snd]. by rewrite (link_by_key q k l).
Qed.

(** Every path is as long as the stages. *)
Lemma path_shape p : p ∈ paths -> exists first path' last, pp_path p = first :: path' ++ [last] /\
  head stages = Some (p_kind first) /\ list.last stages = Some (p_kind last).
Proof.
  intros Hp. destruct (paths_ok p Hp) as [Hk _].
  assert (2 <= length (pp_path p))%nat as Hl by (rewrite <- Hk, length_map in stages_many; done).
  destruct (pp_path p) as [|first rest]; [cbn in Hl; lia|]. destruct rest as [|last path' _] using rev_ind; [cbn in Hl; lia|].
  exists first, path', last. split; [done|]. rewrite <- Hk. cbn [map head hd_error]. split; [done|].
  rewrite map_app. cbn [map]. rewrite app_comm_cons. apply last_snoc.
Qed.

(** A node with the id of another is of its kind. *)
Lemma other_kind p n p' m x : p ∈ paths -> n ∈ pp_path p -> p' ∈ paths -> m ∈ pp_path p' -> p_id m = x ->
  p_kind n <> p_kind m -> p_id n <> x.
Proof.
  intros Hp Hn Hp' Hm <- Hk E. apply Hk. destruct (paths_ok p Hp) as [_ W], (paths_ok p' Hp') as [_ W'].
  rewrite List.Forall_forall in W, W'. apply same_id_same_kind; [apply W|apply W'|done]; by rewrite <- list_elem_of_In.
Qed.

Section at_node.
Context (x : str) (p0 : PreparedFlowPath) (m0 : FlowPathNode).
Hypotheses (p0_in : p0 ∈ paths) (m0_in : m0 ∈ pp_path p0) (m0_id : p_id m0 = x).

Lemma through_sources : list.last stages <> Some (p_kind m0) -> through x =
  zsum (fun p => zsum (fun e : FlowPathNode * FlowPathNode =>
    if str_eqb (p_id e.1) x then num_to_Z (path_amount p) else 0) (steps (pp_path p))) paths.
Proof.
  intros Hl. apply zsum_ext. intros p Hp. destruct (path_shape p Hp) as (first & path' & last & E & _ & El).
  etrans; [|apply (zsum_map fst (fun n => if str_eqb (p_id n) x then num_to_Z (path_amount p) else 0))].
  rewrite steps_sources, E, app_comm_cons, removelast_last, zsum_app, (zsum_cons _ last).
  rewrite (str_neqb (p_id last) x); [change (zsum _ []) with 0; lia|].
  eapply other_kind; [exact Hp| |exact p0_in|exact m0_in|exact m0_id|congruence]. rewrite E. set_solver.
Qed.
Lemma through_targets : head stages <> Some (p_kind m0) -> through x =
  zsum (fun p => zsum (fun e : FlowPathNode * FlowPathNode =>
    if str_eqb (p_id e.2) x then num_to_Z (path_amount p) else 0) (steps (pp_path p))) paths.
Proof.
  intros Hl. apply zsum_ext. intros p Hp. destruct (path_shape p Hp) as (first & path' & last & E & Eh & _).
  etrans; [|apply (zsum_map snd (fun n => if str_eqb (p_id n) x then num_to_Z (path_amount p) else 0))].
  rewrite steps_targets, E. cbn [tail]. rewrite zsum_cons.
  rewrite (str_neqb (p_id first) x); [lia|].
  eapply other_kind; [exact Hp| |exact p0_in|exact m0_in|exact m0_id|congruence]. rewrite E. by left.
Qed.
End at_node.

(** The amount of every path, as the sum of a stage. *)
Definition whole : Z := zsum (fun p => num_to_Z (path_amount p)) paths.

Lemma stage_amount kind : kind ∈ stages ->
  zsum (fun kn : str * DashboardFlowNode => if bool_decide (n_kind kn.2 = kind) then num_to_Z (n_value kn.2) else 0) node_map = whole.
Proof.
  intros Hk. set (q := fun k : str => starts_with k (kind_text kind ++ u ":")).
  assert (forall p n, p ∈ paths -> n ∈ pp_path p -> q (p_id n) = bool_decide (p_kind n = kind)) as Hq.
  { intros p n Hp Hn. destruct (paths_ok p Hp) as [_ W]. rewrite List.Forall_forall in W.
    destruct (W n) as [rest E]; [by rewrite <- list_elem_of_In|]. apply eq_bool_prop_intro.
    unfold q. rewrite !Is_true_true, starts_with_app, bool_decide_eq_true, E. split.
    - intros [t Et]. rewrite <- app_assoc in Et. by apply kind_prefix in Et.
    - intros ->. exists rest. by rewrite <- app_assoc. }
  transitivity (zsum (fun kn : str * DashboardFlowNode => if q kn.1 then num_to_Z (n_value kn.2) else 0) node_map).
  { apply zsum_ext. intros [k n] Hin. cbn [fst snd]. apply node_entry in Hin as (_ & _ & p & m & Hp & Hm & <- & ->). by rewrite (Hq p). }
  etrans; [apply (accumulate_total node_key node_init (node_upd metric) n_value (amount metric) ltac:(done) ltac:(done) _ q nodes_exact)|].
  etrans; [by apply (visits_sum colors palette id (fun n => q (p_id n)) (fun m => num_to_Z (metricValue m metric)))|].
  apply zsum_ext. intros p Hp. change (id (pp_path p)) with (pp_path p).
  rewrite (zsum_ext _ (fun n => if bool_decide (p_kind n = kind) then num_to_Z (path_amount p) else 0)).
  - destruct (paths_ok p Hp) as [Ek _]. rewrite (zsum_at_most_one p_kind) by (by rewrite Ek). rewrite Ek. by rewrite bool_decide_eq_true_2.
  - intros n Hn. by rewrite (Hq p).
Qed.

(** ... and as the sum of the links from the first stage. *)
Lemma roots_elem x : x ∈ root_ids paths <-> exists p first rest, p ∈ paths /\ pp_path p = first :: rest /\ p_id first = x.
Proof.
  unfold root_ids. rewrite list_elem_of_omap. split.
  - intros (p & Hp & E). destruct (pp_path p) as [|first rest] eqn:Ep; [done|]. cbn in E.
    destruct (nonempty (p_id first)); [|done]. injection E as <-. by exists p, first, rest.
  - intros (p & first & rest & Hp & Ep & <-). exists p. split; [done|]. rewrite Ep. cbn.
    destruct (paths_ok p Hp) as [_ W]. rewrite Ep in W. apply Forall_cons_iff in W as [[r ->] _]. by destruct (p_kind first).
Qed.

Definition is_root (x : str) : bool := bool_decide (x ∈ set_of (root_ids paths)).

Lemma first_stage_amount (f : PreparedFlowPath -> Z) :
  zsum (fun p => zsum (fun e : FlowPathNode * FlowPathNode =>
    if is_root (p_id e.1) then f p else 0) (steps (pp_path p))) paths = zsum f paths.
Proof.
  apply zsum_ext. intros p Hp. destruct (path_shape p Hp) as (first & path' & last & E & Eh & _).
  etrans; [symmetry; apply (zsum_map fst (fun n => if is_root (p_id n) then f p else 0))|].
  rewrite steps_sources, E, app_comm_cons, removelast_last, zsum_cons.
  assert (is_root (p_id first) = true) as ->
    by (apply bool_decide_eq_true_2, elem_of_set_of, roots_elem; by exists p, first, (path' ++ [last])).
  rewrite zsum_zero; [lia|]. intros n Hn. assert (is_root (p_id n) = false) as ->; [|done]. apply bool_decide_eq_false_2.
  rewrite elem_of_set_of, roots_elem. intros (p' & first' & rest' & Hp' & E' & En).
  destruct (path_shape p' Hp') as (first'' & path'' & last'' & E'' & Eh' & _). rewrite E'' in E'. injection E' as -> _.
  destruct (paths_ok p Hp) as [Ek _]. rewrite E in Ek. cbn [map] in Ek. rewrite <- Ek in stages_distinct.
  apply list.NoDup_cons in stages_distinct as [Hnot _]. apply Hnot. rewrite map_app. apply elem_of_app. left.
  apply list_elem_of_fmap. exists n. split; [|done].
  rewrite Eh in Eh'. injection Eh' as ->. symmetry.
  destruct (paths_ok p Hp) as [_ W], (paths_ok p' Hp') as [_ W']. rewrite List.Forall_forall in W, W'.
  apply same_id_same_kind; [apply W|apply W'|done]; rewrite <- list_elem_of_In; [rewrite E|rewrite E'']; set_solver.
Qed.

(** The values of the links from the first stage add up exactly. *)
Lemma roots_sum (cores : list (str * str * number)) :
  Permutation cores (map (fun kl : str * DashboardFlowLink => (l_source kl.2, l_target kl.2, l_value kl.2)) link_map) ->
  num_to_Z (num_sum (map snd (List.filter (fun c : str * str * number => is_root c.1.1) cores))) = whole.
Proof.
  intros Hp.
  assert (forall f : number -> Z, zsum (fun c => f c.2) (List.filter (fun c : str * str * number => is_root c.1.1) cores) =
    zsum (fun kl : str * DashboardFlowLink => if is_root (l_source kl.2) then f (l_value kl.2) else 0) link_map) as Hf.
  { intros f. rewrite zsum_filter, (zsum_perm _ _ _ Hp). by rewrite zsum_map. }
  destruct (num_sum_exact (fun c : str * str * number => c.2) (List.filter (fun c : str * str * number => is_root c.1.1) cores)) as [_ E].
  - intros c [Hc _]%list_elem_of_In%filter_In. apply list_elem_of_In in Hc. rewrite Hp in Hc.
    apply list_elem_of_fmap in Hc as ([k l] & -> & Hin).
    by apply (accumulate_exact step_key link_init (link_upd metric) l_value (amount metric) ltac:(done) ltac:(done) _ k l links_exact).
  - rewrite (Hf (fun x => Z.abs (num_to_Z x))). eapply Z.le_lt_trans; [apply (link_sum_abs (fun s _ => is_root s))|].
    by rewrite first_stage_amount.
  - etrans; [exact E|]. rewrite (Hf num_to_Z). etrans; [apply (link_sum (fun s _ => is_root s))|]. apply first_stage_amount.
Qed.

(** ** Summary *)

Definition leaving (x : str) : Z :=
  zsum (fun kl : str * DashboardFlowLink => if str_eqb (l_source kl.2) x then num_to_Z (l_value kl.2) else 0) link_map.
Definition entering (x : str) : Z :=
  zsum (fun kl : str * DashboardFlowLink => if str_eqb (l_target kl.2) x then num_to_Z (l_value kl.2) else 0) link_map.

Lemma node_balanced k n : (k, n) ∈ node_map -> n_id n = k /\
  (list.last stages <> Some (n_kind n) -> num_to_Z (n_value n) = leaving k) /\
  (head stages <> Some (n_kind n) -> num_to_Z (n_value n) = entering k).
Proof.
  intros (E & -> & p & m & Hp & Hm & Em & ->)%node_entry. split; [done|]. unfold leaving, entering. split; intros Hk.
  - rewrite (through_sources k p m) by done. symmetry. apply (link_sum (fun s _ => str_eqb s k)).
  - rewrite (through_targets k p m) by done. symmetry. apply (link_sum (fun _ t => str_eqb t k)).
Qed.
End balance.
