(* ===== verification/FlowTheorems.v ===== *)
(** * The theorems on the flow of the dashboard *)

From Stdlib Require Import String Sorting.Permutation.
From stdpp Require Import sets.
From S2P Require Import Prelude JsNumber JsArray JsString JsText Ast Compile Request Json TaskExpr Currency.
From S2P Require Import FlowGraph FlowView Accumulate FlowFacts FlowBalance.

#[local] Open Scope Z_scope.

(** ** From rows to paths *)

Definition row_amount (metric : FlowMetric) (row : FlowQuotaDataItem) : number := metricValue (rowMetrics row) metric.

Lemma path_node_origin row stages ctx sets mode labeler path n :
  applyTopNodeLimit (flowPathForStages row stages ctx) sets mode labeler = Some path -> n ∈ path ->
  n = NODE_BUILDERS (p_kind n) row ctx \/ n = otherFlowNode (p_kind n) labeler.
Proof.
  assert (forall m, m ∈ flowPathForStages row stages ctx -> m = NODE_BUILDERS (p_kind m) row ctx) as Hb.
  { intros m (kind & -> & _)%list_elem_of_fmap. by destruct (NODE_BUILDERS_ok kind row ctx) as [-> _]. }
  unfold applyTopNodeLimit. destruct sets as [sets|]; [|intros [= <-]; auto].
  destruct (negb (existsb _ _)); [intros [= <-]; auto|]. destruct mode; [|done]. intros [= <-] Hn.
  apply list_elem_of_In, in_map_iff in Hn as (m & <- & Hm%list_elem_of_In). destruct (isTopFlowNode _ _); [auto|by right].
Qed.

Lemma prepared_no_nul rows stages ctx sets mode labeler p n :
  (forall row kind, row ∈ rows -> no_nul (p_id (NODE_BUILDERS kind row ctx))) ->
  p ∈ preparePaths rows stages ctx sets mode labeler -> n ∈ pp_path p -> no_nul (p_id n).
Proof.
  intros Hr (row & Hrow & _ & E)%preparePaths_elem Hn.
  destruct (path_node_origin _ _ _ _ _ _ _ _ E Hn) as [-> | ->]; [by apply Hr|].
  apply (bool_decide_unpack _). by destruct (p_kind n).
Qed.

Lemma prepared_sum (f : FlowMetrics -> Z) rows stages ctx sets mode labeler : (forall m, 0 <= f m) ->
  zsum (fun p => f (pp_metrics p)) (preparePaths rows stages ctx sets mode labeler) <= zsum (fun row => f (rowMetrics row)) rows.
Proof.
  intros Hf. unfold preparePaths. induction rows as [|row rows IH]; [done|]. cbn [omap list_omap].
  rewrite zsum_cons. specialize (Hf (rowMetrics row)). destruct (applyTopNodeLimit _ _ _ _);
    cbn [mbind option_bind]; rewrite ?zsum_cons; cbn [pp_metrics]; [apply Zplus_le_compat_l, IH|etrans; [apply IH|lia]].
Qed.

(** ** The core of nodes and links *)

Section theorems.
Context `{Collation, ChartScheme}.

Section graph_core.
Context (rows : list FlowQuotaDataItem) (metric : FlowMetric) (role : FlowRole) (palette : option (list str)).
Context (visible : option (list FlowNodeKind)) (ctx : FlowPathContext) (options : FlowGraphOptions).

Abbreviation graph := (buildFlowGraph rows metric role palette visible ctx options).
Abbreviation stages := (resolveVisibleStages role visible).
Abbreviation paths := (graph_paths rows metric stages ctx options).
Definition path_colors : list (str * str) := stableColorMap (sort_by localeCompare (root_ids paths)) palette.
Abbreviation node_map := (accumulate node_key node_init (node_upd metric) (visits path_colors palette id paths)).
Abbreviation link_map := (accumulate step_key link_init (link_upd metric) (visits path_colors palette steps paths)).

Lemma the_maps_eq : the_maps rows metric role palette visible ctx options = (node_map, link_map).
Proof. unfold the_maps, graph_maps, the_paths, the_stages. by rewrite add_paths_visits. Qed.

Definition node_core (n : DashboardFlowNode) : str * FlowNodeKind * number := (n_id n, n_kind n, n_value n).
Definition link_core (l : DashboardFlowLink) : str * str * number := (l_source l, l_target l, l_value l).

Lemma graph_node_cores : Permutation (map node_core (g_nodes graph)) (map (fun kn : str * DashboardFlowNode => node_core kn.2) node_map).
Proof.
  change graph with (the_graph rows metric role palette visible ctx options). rewrite the_graph_nodes, the_maps_eq.
  rewrite sort_by_perm. cbn [fst]. rewrite !map_map. apply Permutation_refl', map_ext. intros [k n]. cbn [snd].
  unfold final_node, mask_node. destruct (masking options), (is_masked n), (the_sets _ _ _ _ _ _); done.
Qed.

Lemma graph_link_cores : Permutation (map link_core (g_links graph)) (map (fun kl : str * DashboardFlowLink => link_core kl.2) link_map).
Proof.
  change graph with (the_graph rows metric role palette visible ctx options). rewrite the_graph_links. cbv zeta.
  rewrite (assignLinkDisplayColors_part link_core) by done. rewrite map_map. unfold ending_links. rewrite the_maps_eq.
  rewrite sort_by_perm. cbn [snd]. rewrite !map_map. apply Permutation_refl', map_ext. intros [k l]. cbn [snd].
  unfold final_link. destruct (the_sets _ _ _ _ _ _); done.
Qed.

Lemma graph_node_sum (f : str * FlowNodeKind * number -> Z) :
  zsum (fun n => f (node_core n)) (g_nodes graph) = zsum (fun kn : str * DashboardFlowNode => f (node_core kn.2)) node_map.
Proof.
  etrans; [symmetry; apply (zsum_map node_core f)|]. rewrite (zsum_perm _ _ _ graph_node_cores).
  apply (zsum_map (fun kn : str * DashboardFlowNode => node_core kn.2) f).
Qed.
Lemma graph_link_sum (f : str * str * number -> Z) :
  zsum (fun l => f (link_core l)) (g_links graph) = zsum (fun kl : str * DashboardFlowLink => f (link_core kl.2)) link_map.
Proof.
  etrans; [symmetry; apply (zsum_map link_core f)|]. rewrite (zsum_perm _ _ _ graph_link_cores).
  apply (zsum_map (fun kl : str * DashboardFlowLink => link_core kl.2) f).
Qed.

Lemma graph_node_entry n : n ∈ g_nodes graph -> exists k n', (k, n') ∈ node_map /\ node_core n = node_core n'.
Proof.
  intros Hn. assert (node_core n ∈ map node_core (g_nodes graph)) as Hc by (apply list_elem_of_fmap; by exists n).
  rewrite graph_node_cores in Hc. apply list_elem_of_fmap in Hc as ([k n'] & E & Hin). by exists k, n'.
Qed.

(** The nodes of the graph are those of the paths, each once. *)
Lemma node_map_entry k n : (k, n) ∈ node_map ->
  n_id n = k /\ exists p m, p ∈ paths /\ m ∈ pp_path p /\ p_id m = k /\ p_kind m = n_kind n.
Proof.
  intros (v & l & E & ->)%accumulate_entry.
  assert (v ∈ with_key node_key k (visits path_colors palette id paths)) as [Hv <-]%with_key_elem by (rewrite E; by left).
  rewrite !(fold_kept (node_upd metric)) by done. split; [done|].
  apply visits_elem in Hv as (p & Hp & Hm & _). by exists p, (v_what v).
Qed.

Lemma graph_node_source n : n ∈ g_nodes graph ->
  exists p m, p ∈ paths /\ m ∈ pp_path p /\ p_id m = n_id n /\ p_kind m = n_kind n.
Proof.
  intros (k & n' & Hin & E)%graph_node_entry. injection E as -> -> _.
  apply node_map_entry in Hin as (-> & p & m & Hp & Hm & Ei & Ek). by exists p, m.
Qed.

Lemma graph_ids : Permutation (map n_id (g_nodes graph)) (accumulate node_key node_init (node_upd metric) (visits path_colors palette id paths)).*1.
Proof.
  rewrite <- (map_map node_core (fun c : str * FlowNodeKind * number => c.1.1)), graph_node_cores, map_map.
  apply Permutation_refl', map_ext_in. intros [k n] Hin%list_elem_of_In. apply node_map_entry in Hin as [Ek _]. exact Ek.
Qed.
Lemma graph_ids_NoDup : NoDup (map n_id (g_nodes graph)).
Proof. rewrite graph_ids. apply accumulate_NoDup. Qed.

Lemma graph_node_exists p m : p ∈ paths -> m ∈ pp_path p -> exists n, n ∈ g_nodes graph /\ n_id n = p_id m.
Proof.
  intros Hp Hm. assert (p_id m ∈ map n_id (g_nodes graph)) as Hid.
  { rewrite graph_ids, accumulate_keys, elem_of_set_of. apply list_elem_of_fmap.
    destruct (visits_exists path_colors palette p m _ Hp Hm) as (v & Hv & <-). by exists v. }
  apply list_elem_of_fmap in Hid as (n & E & Hn). by exists n.
Qed.

(** The shares are fractions of the links from the first stage. *)
Lemma graph_shares :
  let total := num_sum (map (fun c : str * str * number => c.2)
    (List.filter (fun c : str * str * number => is_root paths c.1.1) (map link_core (ending_links rows metric role palette visible ctx options)))) in
  Permutation (map link_core (ending_links rows metric role palette visible ctx options))
    (map (fun kl : str * DashboardFlowLink => link_core kl.2) link_map) /\
  forall l, l ∈ g_links graph -> l_share l = if num_gtb total zero then num_div (l_value l) total else zero.
Proof.
  cbv zeta. split.
  - unfold ending_links. rewrite the_maps_eq, sort_by_perm. cbn [snd]. rewrite !map_map. apply Permutation_refl', map_ext.
    intros [k l]. unfold final_link. by destruct (the_sets _ _ _ _ _ _).
  - set (links := ending_links _ _ _ _ _ _ _). set (total := num_sum _).
    assert (link_total paths links = total) as Ht.
    { unfold link_total, total, num_sum. clearbody links. generalize zero. induction links as [|l links IH]; intros x; [done|].
      cbn [List.filter map fst link_core]. fold (is_root paths (l_source l)). destruct (is_root paths (l_source l)); cbn [fold_left map snd]; apply IH. }
    intros l Hl. pose proof (the_graph_links rows metric role palette visible ctx options) as E. cbv zeta in E.
    unfold the_paths, the_stages in E. fold links in E. rewrite Ht in E.
    assert ((l_value l, l_share l) ∈ map (fun l => (l_value l, l_share l)) (g_links graph)) as Hin
      by (apply list_elem_of_fmap; by exists l).
    change graph with (the_graph rows metric role palette visible ctx options) in Hin.
    rewrite E, (assignLinkDisplayColors_part (fun l => (l_value l, l_share l))), map_map in Hin by done.
    apply list_elem_of_fmap in Hin as (l' & [= -> ->] & _). done.
Qed.
End graph_core.

(** ** Conservation *)

Definition is_kind (kind k : FlowNodeKind) : bool := bool_decide (k = kind).
Definition outflow (g : DashboardFlowGraph) (x : str) : Z :=
  zsum (fun l => if str_eqb (l_source l) x then num_to_Z (l_value l) else 0) (g_links g).
Definition inflow (g : DashboardFlowGraph) (x : str) : Z :=
  zsum (fun l => if str_eqb (l_target l) x then num_to_Z (l_value l) else 0) (g_links g).
Definition stage_sum (g : DashboardFlowGraph) (kind : FlowNodeKind) : Z :=
  zsum (fun n => if is_kind kind (n_kind n) then num_to_Z (n_value n) else 0) (g_nodes g).
Definition summary_value (s : FlowSummary) (metric : FlowMetric) : number :=
  match metric with M_quota => s_quota s | M_tokens => s_tokens s | M_requests => s_requests s end.

Lemma buildSummary_value rows metric : summary_value (buildSummary rows) metric = num_sum (map (row_amount metric) rows).
Proof.
  unfold buildSummary, num_sum. assert (forall s, summary_value (fold_left (fun summary row =>
    let metrics := rowMetrics row in
    {| s_quota := num_add (s_quota summary) (m_quota metrics);
       s_tokens := num_add (s_tokens summary) (m_tokens metrics);
       s_requests := num_add (s_requests summary) (m_requests metrics) |}) rows s) metric =
    fold_left num_add (map (row_amount metric) rows) (summary_value s metric)) as Hs.
  { induction rows as [|row rows IH]; intros s; [done|]. cbn [fold_left map]. rewrite IH. by destruct metric. }
  rewrite Hs. by destruct metric.
Qed.

(** Nothing is hidden: there is no limit, or the overflow is aggregated. *)
Definition nothing_hidden (options : FlowGraphOptions) : Prop :=
  normalizeTopNodeLimit (go_topNodeLimit options) = None \/ go_overflowMode options <> Some O_hide.

Lemma prepared_sound rows metric stages ctx options :
  (forall row, row ∈ rows -> num_is_integer (row_amount metric row) = true /\
    forall kind, no_nul (p_id (NODE_BUILDERS kind row ctx))) ->
  zsum (fun row => Z.abs (num_to_Z (row_amount metric row))) rows < 2 ^ 53 ->
  let paths := graph_paths rows metric stages ctx options in
  (forall p, p ∈ paths -> path_ok stages (pp_path p)) /\
  (forall p n, p ∈ paths -> n ∈ pp_path p -> no_nul (p_id n)) /\
  (forall p, p ∈ paths -> num_is_integer (path_amount metric p) = true) /\
  zsum (fun p => Z.abs (num_to_Z (path_amount metric p))) paths < 2 ^ 53.
Proof.
  intros Hrows Hsmall paths. split; [intros p; apply preparePaths_ok|].
  split; [intros p n; apply prepared_no_nul; intros row kind Hr; by apply Hrows|]. split.
  - intros p (row & Hr & E & _)%preparePaths_elem. unfold path_amount. rewrite E. by apply Hrows.
  - eapply Z.le_lt_trans; [|exact Hsmall]. apply (prepared_sum (fun m => Z.abs (num_to_Z (metricValue m metric)))). lia.
Qed.

Lemma prepared_whole rows metric stages ctx options : nothing_hidden options ->
  whole metric (graph_paths rows metric stages ctx options) = zsum (fun row => num_to_Z (row_amount metric row)) rows.
Proof.
  intros Hn. unfold whole, path_amount, row_amount, graph_paths.
  transitivity (zsum (fun m => num_to_Z (metricValue m metric)) (map rowMetrics rows)); [|by rewrite zsum_map].
  rewrite <- (preparePaths_all rows stages ctx
    (buildTopNodeSets rows metric stages (normalizeTopNodeLimit (go_topNodeLimit options)) ctx)
    (default DEFAULT_FLOW_OVERFLOW_MODE (go_overflowMode options)) (go_otherNodeLabel options)); [by rewrite zsum_map|].
  destruct Hn as [-> | Hm]; [by left|right]. destruct (go_overflowMode options) as [[|]|]; done.
Qed.

(** C23: In the graph of the dashboard the flow is conserved, for whole metrics whose sizes
    sum to less than 2^53 and names without NUL: what enters a node leaves it (the first
    stage has no links in, the last none out), every visible stage sums to the same total,
    which is the summary of the rows unless paths are hidden, and the share of a link is
    its fraction of that total. *)
Theorem flow_is_conserved rows metric role palette visible ctx options :
  (forall row, row ∈ rows -> num_is_integer (row_amount metric row) = true /\
    forall kind, no_nul (p_id (NODE_BUILDERS kind row ctx))) ->
  zsum (fun row => Z.abs (num_to_Z (row_amount metric row))) rows < 2 ^ 53 ->
  let stages := resolveVisibleStages role visible in
  let g := buildFlowGraph rows metric role palette visible ctx options in
  (forall n, n ∈ g_nodes g ->
    (list.last stages <> Some (n_kind n) -> num_to_Z (n_value n) = outflow g (n_id n)) /\
    (head stages <> Some (n_kind n) -> num_to_Z (n_value n) = inflow g (n_id n))) /\
  exists total,
    (forall kind, kind ∈ stages -> stage_sum g kind = num_to_Z total) /\
    (forall l, l ∈ g_links g -> l_share l = if num_gtb total zero then num_div (l_value l) total else zero) /\
    (nothing_hidden options -> num_to_Z total = num_to_Z (summary_value (buildSummary rows) metric)).
Proof.
  intros Hrows Hsmall stages g.
  destruct (resolveVisibleStages_ok role visible) as [Snd Slen]. fold stages in Snd, Slen.
  destruct (prepared_sound rows metric stages ctx options Hrows Hsmall) as (Pok & Pid & Pint & Psm).
  set (colors := path_colors rows metric role palette visible ctx options).
  set (paths := graph_paths rows metric stages ctx options) in *.
  split.
  - intros n (k & n' & Hin & [= -> -> ->])%graph_node_entry. unfold outflow, inflow.
    destruct (node_balanced metric colors palette stages paths Snd Slen Pok Pid Pint Psm k n' Hin) as (-> & Hout & Hin').
    split; intros Hk; [rewrite Hout by done|rewrite Hin' by done]; symmetry.
    + apply (graph_link_sum rows metric role palette visible ctx options (fun c => if str_eqb c.1.1 k then num_to_Z c.2 else 0)).
    + apply (graph_link_sum rows metric role palette visible ctx options (fun c => if str_eqb c.1.2 k then num_to_Z c.2 else 0)).
  - destruct (graph_shares rows metric role palette visible ctx options) as [Hperm Hshare]. cbv zeta in Hperm, Hshare.
    eexists. split; [|split; [exact Hshare|]].
    + intros kind Hk. rewrite (roots_sum metric colors palette stages paths) by done.
      rewrite <- (stage_amount metric colors palette stages paths) with (kind := kind) by done.
      apply (graph_node_sum rows metric role palette visible ctx options
        (fun c : str * FlowNodeKind * number => if is_kind kind c.1.2 then num_to_Z c.2 else 0)).
    + intros Hn. rewrite (roots_sum metric colors palette stages paths), buildSummary_value by done.
      destruct (num_sum_exact (row_amount metric) rows) as [_ ->]; [intros; by apply Hrows|done|].
      by apply prepared_whole.
Qed.
End theorems.
