(* ===== verification/FlowFilters.v ===== *)
(** * Filters and selections of the flow

    What the selected nodes keep, what the numbers of the filter options mean, and which
    nodes and links a selection in the chart highlights. *)

From Stdlib Require Import String Sorting.Permutation.
From stdpp Require Import sets.
From S2P Require Import Prelude JsNumber JsArray JsString JsText Ast Compile Request Json TaskExpr Currency.
From S2P Require Import FlowGraph FlowView Accumulate FlowFacts FlowBalance FlowTheorems.

#[local] Open Scope nat_scope.

(** ** The rows a selection keeps *)

Definition ids_of (kind : FlowNodeKind) (selected : list FlowNodeFilter) : list str :=
  map nf_id (List.filter (fun f => bool_decide (nf_kind f = kind)) selected).
(** A kind without selected nodes keeps every row. *)
Definition kind_keeps (selected : list FlowNodeFilter) (kind : FlowNodeKind) (id : str) : bool :=
  match ids_of kind selected with [] => true | ids => bool_decide (id ∈ ids) end.
(** The rows whose node is selected in every visible kind that has a selection. *)
Definition row_kept (selected : list FlowNodeFilter) (stages : list FlowNodeKind) (ctx : FlowPathContext)
    (row : FlowQuotaDataItem) : bool :=
  forallb (fun kind => kind_keeps selected kind (p_id (NODE_BUILDERS kind row ctx))) stages.

Lemma ids_of_elem kind selected id : id ∈ ids_of kind selected <-> exists f, f ∈ selected /\ nf_kind f = kind /\ nf_id f = id.
Proof.
  unfold ids_of. rewrite list_elem_of_In, in_map_iff. setoid_rewrite filter_In. setoid_rewrite bool_decide_eq_true.
  setoid_rewrite list_elem_of_In. naive_solver.
Qed.
Lemma kind_keeps_true selected kind id : kind_keeps selected kind id = true <-> (ids_of kind selected = [] \/ id ∈ ids_of kind selected).
Proof.
  unfold kind_keeps. destruct (ids_of kind selected) eqn:E; [tauto|]. rewrite bool_decide_eq_true. naive_solver.
Qed.

(** The map of the ids added by [add_id]. *)
Lemma add_id_get kind id m k : assoc_get k (add_id kind id m) =
  if decide (kind = k) then Some (set_add id (default [] (assoc_get kind m))) else assoc_get k m.
Proof. unfold add_id. apply assoc_get_set. Qed.

Definition ids_map {A} (kind : A -> FlowNodeKind) (id : A -> str) (l : list A) : list (FlowNodeKind * list str) :=
  fold_left (fun m x => add_id (kind x) (id x) m) l [].

Lemma ids_map_get {A} (kind : A -> FlowNodeKind) (id : A -> str) (l : list A) k :
  assoc_get k (ids_map kind id l) =
  match List.filter (fun x => bool_decide (kind x = k)) l with [] => None | xs => Some (set_of (map id xs)) end.
Proof.
  unfold ids_map. induction l as [|x l IH] using rev_ind; [done|]. rewrite fold_left_app. cbn [fold_left].
  rewrite add_id_get, List.filter_app. cbn [List.filter]. destruct (decide (kind x = k)) as [E|E].
  - rewrite (bool_decide_eq_true_2 _ E), E, IH. destruct (List.filter _ l) as [|y ys]; [done|].
    cbn [default Datatypes.id app]. rewrite app_comm_cons, map_app. by rewrite <- set_of_snoc.
  - rewrite (bool_decide_eq_false_2 _ E). by rewrite app_nil_r.
Qed.
Lemma ids_map_NoDup {A} (kind : A -> FlowNodeKind) (id : A -> str) (l : list A) : NoDup (ids_map kind id l).*1.
Proof.
  unfold ids_map. induction l as [|x l IH] using rev_ind; [apply NoDup_nil_2|]. rewrite fold_left_app. by apply assoc_set_NoDup.
Qed.

Definition visible_filters (selected : list FlowNodeFilter) (stages : list FlowNodeKind) : list FlowNodeFilter :=
  List.filter (fun f => bool_decide (nf_kind f ∈ stages)) selected.

Lemma fold_left_filter {A B} (f : A -> B -> A) (p : B -> bool) (l : list B) a :
  fold_left (fun a x => if p x then f a x else a) l a = fold_left f (List.filter p l) a.
Proof. revert a. induction l as [|x l IH]; intros a; [done|]. cbn [fold_left List.filter]. rewrite IH. by destruct (p x). Qed.

Lemma normalizeSelectedNodeFilters_eq selectedNodes stages :
  normalizeSelectedNodeFilters selectedNodes stages = ids_map nf_kind nf_id (visible_filters (default [] selectedNodes) stages).
Proof. unfold normalizeSelectedNodeFilters, ids_map, visible_filters. by rewrite <- fold_left_filter. Qed.

Lemma ids_of_visible kind selected stages :
  ids_of kind (visible_filters selected stages) = if bool_decide (kind ∈ stages) then ids_of kind selected else [].
Proof.
  unfold ids_of, visible_filters. induction selected as [|f selected IH]; [by case_bool_decide|]. cbn [List.filter].
  destruct (decide (nf_kind f = kind)) as [E|E].
  - rewrite (bool_decide_eq_true_2 (nf_kind f = kind)), E by done. destruct (bool_decide (kind ∈ stages)) eqn:Ek; [|done].
    cbn [List.filter]. rewrite (bool_decide_eq_true_2 (nf_kind f = kind)) by done. cbn [map]. by rewrite IH.
  - rewrite (bool_decide_eq_false_2 (nf_kind f = kind)) by done. destruct (bool_decide (nf_kind f ∈ stages)); [|done].
    cbn [List.filter]. by rewrite (bool_decide_eq_false_2 (nf_kind f = kind)) by done.
Qed.

Lemma path_of_kind row stages ctx kind : NoDup stages -> kind ∈ stages ->
  List.filter (fun n => bool_decide (p_kind n = kind)) (flowPathForStages row stages ctx) = [NODE_BUILDERS kind row ctx].
Proof.
  intros Hnd Hk. unfold flowPathForStages. induction stages as [|s stages IH]; [by apply not_elem_of_nil in Hk|].
  apply list.NoDup_cons in Hnd as [Hs Hnd]. cbn [map List.filter]. destruct (NODE_BUILDERS_ok s row ctx) as [-> _].
  apply elem_of_cons in Hk as [->|Hk].
  - rewrite bool_decide_eq_true_2 by done. f_equal. clear IH Hnd. induction stages as [|t stages IH]; [done|].
    apply not_elem_of_cons in Hs as [Hst Hs]. cbn [map List.filter]. destruct (NODE_BUILDERS_ok t row ctx) as [-> _].
    rewrite bool_decide_eq_false_2 by done. by apply IH.
  - rewrite bool_decide_eq_false_2 by (by intros ->). by apply IH.
Qed.

Lemma pathMatches_row selected stages ctx row : NoDup stages ->
  pathMatchesNodeFilters (flowPathForStages row stages ctx) (ids_map nf_kind nf_id (visible_filters selected stages)) =
  row_kept selected stages ctx row.
Proof.
  intros Hnd. set (filters := ids_map nf_kind nf_id (visible_filters selected stages)).
  assert (forall kind ids, (kind, ids) ∈ filters <-> kind ∈ stages /\ ids = set_of (ids_of kind selected) /\ ids_of kind selected <> []) as Hf.
  { intros kind ids. trans (assoc_get kind filters = Some ids).
    { split; [apply assoc_get_elem, ids_map_NoDup|apply assoc_get_In]. }
    unfold filters. rewrite ids_map_get. pose proof (ids_of_visible kind selected stages) as Hv. unfold ids_of in Hv at 1.
    destruct (decide (kind ∈ stages)) as [Hk|Hk];
      [rewrite (bool_decide_eq_true_2 _ Hk) in Hv|rewrite (bool_decide_eq_false_2 _ Hk) in Hv].
    - rewrite <- Hv. destruct (List.filter _ (visible_filters selected stages)) as [|f fs]; naive_solver.
    - destruct (List.filter _ (visible_filters selected stages)) as [|f fs]; naive_solver. }
  apply eq_bool_prop_intro. rewrite !Is_true_true. unfold row_kept. rewrite forallb_forall.
  trans (forall kind ids, (kind, ids) ∈ filters -> p_id (NODE_BUILDERS kind row ctx) ∈ ids).
  - unfold pathMatchesNodeFilters. fold (ids_map p_kind p_id (flowPathForStages row stages ctx)).
    destruct filters as [|f0 fs] eqn:Ef; [split; [intros _ kind ids []%not_elem_of_nil|done]|]. rewrite <- Ef in *. clear Ef.
    rewrite forallb_forall. split.
    + intros Hall kind ids Hin. specialize (Hall (kind, ids) (proj1 (list_elem_of_In _ _) Hin)). cbn [fst snd] in Hall.
      apply Hf in Hin as (Hk & -> & _). rewrite ids_map_get, path_of_kind in Hall by done.
      apply existsb_exists in Hall as (id & Hid & E). apply bool_decide_eq_true, elem_of_set_of in E.
      apply list_elem_of_singleton in E as ->. by rewrite list_elem_of_In.
    + intros Hall [kind ids] Hin%list_elem_of_In. pose proof (Hall kind ids Hin) as Hid. apply Hf in Hin as (Hk & -> & _).
      cbn [fst snd]. rewrite ids_map_get, path_of_kind by done. apply existsb_exists. exists (p_id (NODE_BUILDERS kind row ctx)).
      rewrite <- list_elem_of_In. split; [done|]. apply bool_decide_eq_true. by left.
  - split.
    + intros Hall kind Hk%list_elem_of_In. apply kind_keeps_true. destruct (ids_of kind selected) as [|i l] eqn:E; [by left|right].
      rewrite <- E. apply elem_of_set_of. apply (Hall kind). apply Hf. rewrite E. done.
    + intros Hall kind ids (Hk & -> & Hne)%Hf. apply elem_of_set_of. apply list_elem_of_In in Hk.
      specialize (Hall kind Hk). apply kind_keeps_true in Hall as [?|?]; done.
Qed.

(** The filter keeps, of the rows, those the selection keeps. *)
Lemma filterRowsByNodes_eq rows selectedNodes stages ctx : NoDup stages ->
  filterRowsByNodes rows selectedNodes stages ctx = List.filter (row_kept (default [] selectedNodes) stages ctx) rows.
Proof.
  intros Hnd. unfold filterRowsByNodes. rewrite normalizeSelectedNodeFilters_eq.
  destruct (ids_map _ _ _) as [|f fs] eqn:E.
  - assert (forall row, row_kept (default [] selectedNodes) stages ctx row = true) as Hall
      by (intros row; rewrite <- pathMatches_row, E by done; done).
    clear E. induction rows as [|row rows IH]; [done|]. cbn [List.filter]. by rewrite Hall, <- IH.
  - rewrite <- E. apply List.filter_ext. intros row. by apply pathMatches_row.
Qed.

(** ** The options of the filters *)

Section options.
Context `{Collation, ChartScheme, NumberFormats}.

Definition rank_key (stage : FlowNodeKind) (ctx : FlowPathContext) (row : FlowQuotaDataItem) : str :=
  let node := NODE_BUILDERS stage row ctx in nodeFilterKey {| nf_kind := p_kind node; nf_id := p_id node |}.
Definition rank_init (stage : FlowNodeKind) (ctx : FlowPathContext) (row : FlowQuotaDataItem) : FlowNodeRank :=
  {| rk_node := NODE_BUILDERS stage row ctx; rk_value := zero |}.
Definition rank_upd (metric : FlowMetric) (rank : FlowNodeRank) (row : FlowQuotaDataItem) : FlowNodeRank :=
  {| rk_node := rk_node rank; rk_value := num_add (rk_value rank) (row_amount metric row) |}.

Lemma stage_totals_eq rows metric stage ctx :
  stage_totals rows metric stage ctx = accumulate (rank_key stage ctx) (rank_init stage ctx) (rank_upd metric) rows.
Proof. done. Qed.

Lemma rank_key_inj stage ctx row row' : rank_key stage ctx row = rank_key stage ctx row' <->
  p_id (NODE_BUILDERS stage row ctx) = p_id (NODE_BUILDERS stage row' ctx).
Proof.
  unfold rank_key, nodeFilterKey. cbn [nf_kind nf_id].
  destruct (NODE_BUILDERS_ok stage row ctx) as [-> _], (NODE_BUILDERS_ok stage row' ctx) as [-> _].
  split; [|by intros ->]. intros E. apply app_inv_head in E. by injection E.
Qed.

(** The total of a node is the sum of its rows. *)
Lemma stage_total_entry rows metric stage ctx k rank : (k, rank) ∈ stage_totals rows metric stage ctx ->
  p_kind (rk_node rank) = stage /\
  rk_value rank = num_sum (map (row_amount metric)
    (List.filter (fun row => bool_decide (p_id (NODE_BUILDERS stage row ctx) = p_id (rk_node rank))) rows)).
Proof.
  rewrite stage_totals_eq. intros Hin.
  rewrite (accumulate_value (rank_key stage ctx) (rank_init stage ctx) (rank_upd metric) rk_value (row_amount metric)
    ltac:(done) ltac:(done) rows k rank Hin).
  apply accumulate_entry in Hin as (row & l & E & ->).
  assert (row ∈ with_key (rank_key stage ctx) k rows) as [_ <-]%with_key_elem by (rewrite E; by left).
  rewrite !(fold_kept (rank_upd metric)) by done. cbn [rank_init rk_node]. split; [apply NODE_BUILDERS_ok|].
  f_equal. f_equal. unfold with_key. apply List.filter_ext. intros row'. apply bool_decide_ext, rank_key_inj.
Qed.

Lemma stage_total_exists rows metric stage ctx row : row ∈ rows ->
  exists k rank, (k, rank) ∈ stage_totals rows metric stage ctx /\ p_id (rk_node rank) = p_id (NODE_BUILDERS stage row ctx).
Proof.
  intros Hr. rewrite stage_totals_eq.
  assert (rank_key stage ctx row ∈ (accumulate (rank_key stage ctx) (rank_init stage ctx) (rank_upd metric) rows).*1) as Hk
    by (rewrite accumulate_keys, elem_of_set_of; apply list_elem_of_fmap; by exists row).
  apply list_elem_of_fmap in Hk as ([k rank] & E & Hin). cbn [fst] in E. subst k. exists (rank_key stage ctx row), rank. split; [done|].
  apply accumulate_entry in Hin as (row' & l & E & ->).
  assert (row' ∈ with_key (rank_key stage ctx) (rank_key stage ctx row) rows) as [_ Ek]%with_key_elem by (rewrite E; by left).
  rewrite !(fold_kept (rank_upd metric)) by done. by apply rank_key_inj.
Qed.

(** Selecting one node of a kind more. *)
Definition other_kinds (kind : FlowNodeKind) (selected : list FlowNodeFilter) : list FlowNodeFilter :=
  List.filter (fun f => bool_decide (nf_kind f <> kind)) selected.

Lemma selectedNodeFiltersExceptKind_eq selectedNodes kind :
  default [] (selectedNodeFiltersExceptKind selectedNodes kind) = other_kinds kind (default [] selectedNodes).
Proof. unfold selectedNodeFiltersExceptKind, other_kinds. by destruct (List.filter _ _). Qed.

Lemma ids_of_choice kind id selected k : ids_of k (other_kinds kind selected ++ [{| nf_kind := kind; nf_id := id |}]) =
  if bool_decide (k = kind) then [id] else ids_of k (other_kinds kind selected).
Proof.
  unfold ids_of. rewrite List.filter_app, map_app. cbn [List.filter nf_kind]. destruct (decide (k = kind)) as [->|Hk].
  - rewrite !(bool_decide_eq_true_2 (kind = kind)) by done. cbn [map nf_id].
    enough (List.filter (fun f => bool_decide (nf_kind f = kind)) (other_kinds kind selected) = []) as -> by done.
    unfold other_kinds. induction selected as [|f selected IH]; [done|]. cbn [List.filter].
    case_bool_decide as E; [|done]. cbn [List.filter]. by rewrite bool_decide_eq_false_2.
  - rewrite (bool_decide_eq_false_2 (k = kind)), (bool_decide_eq_false_2 (kind = k)) by congruence. apply app_nil_r.
Qed.
Lemma ids_of_others kind selected : ids_of kind (other_kinds kind selected) = [].
Proof.
  unfold ids_of, other_kinds. induction selected as [|f selected IH]; [done|]. cbn [List.filter].
  case_bool_decide as E; [|done]. cbn [List.filter]. by rewrite bool_decide_eq_false_2.
Qed.

Lemma row_kept_choice selected stages ctx kind id row : kind ∈ stages ->
  row_kept (other_kinds kind selected ++ [{| nf_kind := kind; nf_id := id |}]) stages ctx row =
  bool_decide (p_id (NODE_BUILDERS kind row ctx) = id) && row_kept (other_kinds kind selected) stages ctx row.
Proof.
  intros Hk. apply eq_bool_prop_intro. rewrite !Is_true_true, andb_true_iff, bool_decide_eq_true.
  unfold row_kept. rewrite !forallb_forall. setoid_rewrite <- list_elem_of_In. setoid_rewrite kind_keeps_true.
  split.
  - intros Hall. split.
    + specialize (Hall kind Hk). rewrite ids_of_choice, bool_decide_eq_true_2 in Hall by done.
      destruct Hall as [?|?%list_elem_of_singleton]; done.
    + intros k Hin. specialize (Hall k Hin). rewrite ids_of_choice in Hall. destruct (decide (k = kind)) as [->|E].
      * rewrite ids_of_others. by left.
      * by rewrite bool_decide_eq_false_2 in Hall.
  - intros [Hid Hall] k Hin. rewrite ids_of_choice. destruct (decide (k = kind)) as [->|E].
    + rewrite bool_decide_eq_true_2, list_elem_of_singleton by done. by right.
    + rewrite bool_decide_eq_false_2 by done. by apply Hall.
Qed.

Definition with_selection (options : FlowBuildOptions) (selected : list FlowNodeFilter) : FlowBuildOptions :=
  {| bo_role := bo_role options; bo_selectedUsers := bo_selectedUsers options; bo_selectedNodes := Some selected;
     bo_activeNode := bo_activeNode options; bo_activeLink := bo_activeLink options;
     bo_colorPalette := bo_colorPalette options; bo_visibleStages := bo_visibleStages options;
     bo_topNodeLimit := bo_topNodeLimit options; bo_overflowMode := bo_overflowMode options;
     bo_maskSensitive := bo_maskSensitive options; bo_deletedTokenLabel := bo_deletedTokenLabel options;
     bo_otherNodeLabel := bo_otherNodeLabel options |}.

Definition shown_stages (options : FlowBuildOptions) : list FlowNodeKind :=
  resolveVisibleStages (flow_role options) (bo_visibleStages options).

Lemma node_option_elem rows metric role visible palette ctx selectedNodes o :
  o ∈ buildNodeFilterOptions rows metric role visible palette ctx selectedNodes <->
  exists stage colors, stage ∈ resolveVisibleStages role visible /\
    colors = stableColorMap (sort_by localeCompare (fold_left (fun ids row =>
      fold_left (fun ids node => set_add (p_id node) ids) (flowPathForStages row (resolveVisibleStages role visible) ctx) ids) rows [])) palette /\
    o ∈ stage_options rows metric (resolveVisibleStages role visible) palette colors ctx selectedNodes stage.
Proof.
  unfold buildNodeFilterOptions. rewrite sort_by_perm, list_elem_of_In, in_concat. setoid_rewrite in_map_iff.
  setoid_rewrite list_elem_of_In. split.
  - intros (l & (stage & <- & Hs) & Ho). by exists stage, (stableColorMap (sort_by localeCompare (fold_left (fun ids row =>
      fold_left (fun ids node => set_add (p_id node) ids) (flowPathForStages row (resolveVisibleStages role visible) ctx) ids) rows [])) palette).
  - intros (stage & colors & Hs & -> & Ho). eexists. split; [by exists stage|done].
Qed.

(** C25: The number shown with an option of a node filter is the total the dashboard shows
    when that node is chosen as the only one of its kind, the other kinds keeping their
    selection; and the options of a kind are complete: every row that the selections of the
    other kinds keep has an option for its node. *)
Theorem options_predict_the_summary rows metric options :
  let data := buildDashboardFlowData rows metric options in
  let selected := default [] (bo_selectedNodes options) in
  (forall o, o ∈ fo_nodes (pf_filterOptions data) ->
    no_kind o ∈ shown_stages options /\
    no_valueRaw o = summary_value (pf_summary (buildDashboardFlowData rows metric (with_selection options
      (other_kinds (no_kind o) selected ++ [{| nf_kind := no_kind o; nf_id := no_value o |}])))) metric) /\
  (forall row kind, row ∈ filterRows rows (bo_selectedUsers options) -> kind ∈ shown_stages options ->
    row_kept (other_kinds kind selected) (shown_stages options) (flow_context options) row = true ->
    exists o, o ∈ fo_nodes (pf_filterOptions data) /\ no_kind o = kind /\
      no_value o = p_id (NODE_BUILDERS kind row (flow_context options))).
Proof.
  intros data selected. subst data. unfold buildDashboardFlowData. cbn [pf_filterOptions pf_summary fo_nodes].
  destruct (resolveVisibleStages_ok (flow_role options) (bo_visibleStages options)) as [Hnd _]. split.
  - intros o (stage & colors & Hs & _ & Ho)%node_option_elem. unfold stage_options in Ho.
    apply list_elem_of_fmap in Ho as ([k rank] & -> & Hin). cbn [snd no_kind no_value no_valueRaw].
    apply stage_total_entry in Hin as [-> ->]. split; [done|]. rewrite buildSummary_value. f_equal. f_equal.
    unfold flow_rows. change (flow_role (with_selection _ _)) with (flow_role options). rewrite !filterRowsByNodes_eq by done.
    rewrite selectedNodeFiltersExceptKind_eq. cbn [with_selection bo_selectedUsers bo_selectedNodes bo_visibleStages default Datatypes.id].
    change (flow_context (with_selection _ _)) with (flow_context options). set (rows' := filterRows _ _). clearbody rows'.
    induction rows' as [|row rows' IH]; [done|]. cbn [List.filter]. rewrite row_kept_choice by done. fold selected in IH |- *.
    destruct (row_kept (other_kinds stage selected) _ _ row); cbn [List.filter];
      rewrite ?andb_true_r, ?andb_false_r; rewrite IH; done.
  - intros row kind Hr Hk Hkept. destruct (stage_total_exists (filterRowsByNodes (filterRows rows (bo_selectedUsers options))
      (selectedNodeFiltersExceptKind (bo_selectedNodes options) kind) (shown_stages options) (flow_context options)) metric kind
      (flow_context options) row) as (k & rank & Hin & Eid).
    { rewrite filterRowsByNodes_eq, selectedNodeFiltersExceptKind_eq by done. apply list_elem_of_In, filter_In.
      by rewrite <- list_elem_of_In. }
    destruct (stage_total_entry _ _ _ _ _ _ Hin) as [Ekind _].
    eexists. split; [apply node_option_elem; exists kind; eexists; split; [exact Hk|split; [reflexivity|]]|].
    + unfold stage_options. apply list_elem_of_fmap. exists (k, rank). split; [reflexivity|exact Hin].
    + done.
Qed.
End options.

(** ** The highlighted paths *)

Lemma fold_add_elem {A} (f : A -> str) (l : list A) (acc : list str) x :
  x ∈ fold_left (fun s y => set_add (f y) s) l acc <-> x ∈ acc \/ exists y, y ∈ l /\ f y = x.
Proof.
  rewrite <- (fold_left_map (fun s y => set_add y s) f), fold_set_add_elem, list_elem_of_In.
  setoid_rewrite list_elem_of_In. rewrite (in_map_iff f). naive_solver.
Qed.

Definition highlight_sets (paths : list PreparedFlowPath) : FlowHighlightSets :=
  fold_left (fun sets p => add_highlight sets (pp_path p)) paths {| hs_nodes := []; hs_links := [] |}.

Lemma highlight_sets_elem paths :
  (forall x, x ∈ hs_nodes (highlight_sets paths) <-> exists p n, p ∈ paths /\ n ∈ pp_path p /\ p_id n = x) /\
  (forall x, x ∈ hs_links (highlight_sets paths) <-> exists p e, p ∈ paths /\ e ∈ steps (pp_path p) /\ pathLinkKey e.1 e.2 = x).
Proof.
  unfold highlight_sets. induction paths as [|p paths [IHn IHl]] using rev_ind.
  { split; intros x; (split; [intros []%not_elem_of_nil|intros (p & ? & []%not_elem_of_nil & _)]). }
  rewrite fold_left_app. cbn [fold_left add_highlight hs_nodes hs_links]. split; intros x.
  - rewrite fold_add_elem, IHn. setoid_rewrite elem_of_app. setoid_rewrite list_elem_of_singleton. naive_solver.
  - rewrite (fold_add_elem (fun e : FlowPathNode * FlowPathNode => pathLinkKey e.1 e.2)), IHl.
    setoid_rewrite elem_of_app. setoid_rewrite list_elem_of_singleton. naive_solver.
Qed.

(** The key of a link names its ends. *)
Lemma link_key_ends `{Collation, ChartScheme} rows metric role palette visible ctx options :
  (forall row kind, row ∈ rows -> no_nul (p_id (NODE_BUILDERS kind row ctx))) ->
  let paths := graph_paths rows metric (resolveVisibleStages role visible) ctx options in
  forall l, l ∈ g_links (buildFlowGraph rows metric role palette visible ctx options) ->
  forall p e, p ∈ paths -> e ∈ steps (pp_path p) ->
  (pathLinkKey e.1 e.2 = linkStableKey l <-> p_id e.1 = l_source l /\ p_id e.2 = l_target l).
Proof.
  intros Hrows paths l Hl p e Hp [He _]%steps_elem.
  assert (no_nul (l_source l)) as Hsl.
  { assert (link_core l ∈ map link_core (g_links (buildFlowGraph rows metric role palette visible ctx options))) as Hc
      by (apply list_elem_of_fmap; by exists l).
    rewrite graph_link_cores in Hc. apply list_elem_of_fmap in Hc as ([k l'] & Ec & Hin). injection Ec as -> _ _.
    apply link_entry in Hin as (_ & p' & e' & Hp' & [He' _]%steps_elem & -> & _). eapply prepared_no_nul; [exact Hrows|exact Hp'|done]. }
  assert (no_nul (p_id e.1)) as Hse by (eapply prepared_no_nul; [exact Hrows|exact Hp|done]).
  unfold pathLinkKey, linkStableKey. split; [|by intros [-> ->]]. intros E.
  destruct (key_parts (p_id e.1) (p_id e.2) Hse) as [E1 E2], (key_parts (l_source l) (l_target l) Hsl) as [E3 E4].
  rewrite E in E1, E2. split; congruence.
Qed.

Section highlights.
Context `{Collation, ChartScheme}.
Context (rows : list FlowQuotaDataItem) (metric : FlowMetric) (role : FlowRole) (palette : option (list str)).
Context (visible : option (list FlowNodeKind)) (ctx : FlowPathContext) (options : FlowGraphOptions).

Abbreviation stages := (resolveVisibleStages role visible).
Abbreviation paths := (graph_paths rows metric stages ctx options).
Abbreviation graph := (buildFlowGraph rows metric role palette visible ctx options).

(** The selection of the chart: a link, or a node of a visible stage. *)
Definition selection_active : Prop :=
  go_activeLink options <> None \/ exists f, go_activeNode options = Some f /\ nf_kind f ∈ stages.
(** A path through the selected link or, when none is selected, through the selected node. *)
Definition lit (p : PreparedFlowPath) : Prop :=
  match go_activeLink options with
  | Some l => exists e, e ∈ steps (pp_path p) /\ p_id e.1 = ls_source l /\ p_id e.2 = ls_target l
  | None => exists f m, go_activeNode options = Some f /\ m ∈ pp_path p /\ p_kind m = nf_kind f /\ p_id m = nf_id f
  end.
Definition lit_paths : list PreparedFlowPath :=
  List.filter (fun p => matchesPath (go_activeNode options) (go_activeLink options) (pp_path p)) paths.

Lemma lit_paths_elem p : p ∈ lit_paths <-> p ∈ paths /\ lit p.
Proof.
  unfold lit_paths. rewrite list_elem_of_In, filter_In, <- list_elem_of_In. apply and_iff_compat_l. unfold matchesPath, lit.
  destruct (go_activeLink options) as [l|]; [|destruct (go_activeNode options) as [f|]; [|naive_solver]].
  - unfold pathContainsFlowLink. rewrite existsb_exists. setoid_rewrite andb_true_iff. setoid_rewrite str_eqb_eq.
    by setoid_rewrite list_elem_of_In.
  - unfold pathContainsFlowNode. rewrite existsb_exists. setoid_rewrite andb_true_iff. setoid_rewrite str_eqb_eq.
    setoid_rewrite bool_decide_eq_true. setoid_rewrite list_elem_of_In. naive_solver.
Qed.

Lemma the_sets_spec :
  let sets := the_sets rows metric role visible ctx options in
  (selection_active -> lit_paths <> [] -> sets = Some (highlight_sets lit_paths)) /\
  (~ selection_active \/ lit_paths = [] -> sets = None).
Proof.
  cbv zeta. unfold the_sets, buildFlowHighlightSets, selection_active. unfold the_paths, the_stages.
  rewrite (fold_left_filter (fun sets p => add_highlight sets (pp_path p))). fold lit_paths. fold (highlight_sets lit_paths).
  set (inactive := negb (match go_activeNode options with Some f => bool_decide (nf_kind f ∈ stages) | None => false end) &&
    negb (match go_activeLink options with Some _ => true | None => false end)).
  assert (inactive = false <-> go_activeLink options <> None \/ exists f, go_activeNode options = Some f /\ nf_kind f ∈ stages) as Hin.
  { unfold inactive. rewrite andb_false_iff, !negb_false_iff. destruct (go_activeLink options) as [l|], (go_activeNode options) as [f|];
      rewrite ?bool_decide_eq_true; naive_solver. }
  destruct (highlight_sets_elem lit_paths) as [Hn _]. split.
  - intros Ha Hl. apply Hin in Ha. rewrite Ha. destruct lit_paths as [|p l] eqn:E; [done|].
    destruct (hs_nodes (highlight_sets (p :: l))) as [|x xs] eqn:Ex; [|done]. exfalso.
    assert (exists n path, pp_path p = n :: path) as (n & path & Ep).
    { assert (p ∈ lit_paths) as [Hp _]%lit_paths_elem by (rewrite E; by left). apply preparePaths_ok in Hp as [Hk _].
      destruct (resolveVisibleStages_ok role visible) as [_ Hlen]. rewrite <- Hk in Hlen. destruct (pp_path p) as [|n path]; [cbn in Hlen; lia|eauto]. }
    apply (not_elem_of_nil (p_id n)). apply Hn. exists p, n. rewrite Ep. split; [by left|split; [by left|done]].
  - intros [Ha|Hl]; [destruct inactive; [done|]; exfalso; by apply Ha, Hin|]. destruct inactive; [done|]. by rewrite Hl.
Qed.

Lemma node_flags n : n ∈ g_nodes graph ->
  match the_sets rows metric role visible ctx options with
  | Some s => n_highlighted n = Some (bool_decide (n_id n ∈ hs_nodes s)) /\ n_dimmed n = Some (negb (bool_decide (n_id n ∈ hs_nodes s)))
  | None => n_highlighted n = None /\ n_dimmed n = None
  end.
Proof.
  change graph with (the_graph rows metric role palette visible ctx options). rewrite the_graph_nodes, sort_by_perm, the_maps_eq.
  intros (n0 & -> & ([k n1] & -> & Hin)%list_elem_of_fmap)%list_elem_of_fmap. cbn [fst snd] in *. unfold final_node.
  destruct (the_sets _ _ _ _ _ _); [by destruct (masking options)|].
  apply accumulate_entry in Hin as (v & l & _ & ->). unfold mask_node.
  destruct (masking options); [case_match|]; cbn [set_node_label n_highlighted n_dimmed]; by rewrite !(fold_kept (node_upd metric)) by done.
Qed.

Lemma link_flags l : l ∈ g_links graph ->
  match the_sets rows metric role visible ctx options with
  | Some s => l_highlighted l = Some (bool_decide (linkStableKey l ∈ hs_links s)) /\
              l_dimmed l = Some (negb (bool_decide (linkStableKey l ∈ hs_links s)))
  | None => l_highlighted l = None /\ l_dimmed l = None
  end.
Proof.
  intros Hl. pose proof (the_graph_links rows metric role palette visible ctx options) as E. cbv zeta in E.
  set (part := fun l => (linkStableKey l, l_highlighted l, l_dimmed l)).
  assert (part l ∈ map part (g_links graph)) as Hp by (apply list_elem_of_fmap; by exists l).
  change graph with (the_graph rows metric role palette visible ctx options) in Hp.
  rewrite E, (assignLinkDisplayColors_part part), map_map in Hp by done.
  apply list_elem_of_fmap in Hp as (l1 & [= -> -> ->] & Hl1). unfold ending_links in Hl1. rewrite sort_by_perm, the_maps_eq in Hl1.
  apply list_elem_of_fmap in Hl1 as (l2 & -> & ([k l3] & -> & Hin)%list_elem_of_fmap). cbn [snd] in *. unfold final_link.
  destruct (the_sets _ _ _ _ _ _); [done|]. apply accumulate_entry in Hin as (v & r & _ & ->).
  cbn [mask_link set_link_labels l_highlighted l_dimmed set_link_share]. by rewrite !(fold_kept (link_upd metric)) by done.
Qed.

(** A selection in the chart highlights exactly the paths through it.  When a link, or a
    node of a visible stage, is selected and some path passes through it, every node and
    link is either highlighted or dimmed, and highlighted are those of the paths through the
    selection; otherwise nothing is highlighted or dimmed (names are without NUL). *)
Theorem highlighted_are_the_paths_of_the_selection :
  (forall row kind, row ∈ rows -> no_nul (p_id (NODE_BUILDERS kind row ctx))) ->
  (selection_active -> (exists p, p ∈ paths /\ lit p) ->
    (forall n, n ∈ g_nodes graph -> exists b, n_highlighted n = Some b /\ n_dimmed n = Some (negb b) /\
      (b = true <-> exists p m, p ∈ paths /\ lit p /\ m ∈ pp_path p /\ p_id m = n_id n)) /\
    (forall l, l ∈ g_links graph -> exists b, l_highlighted l = Some b /\ l_dimmed l = Some (negb b) /\
      (b = true <-> exists p e, p ∈ paths /\ lit p /\ e ∈ steps (pp_path p) /\ p_id e.1 = l_source l /\ p_id e.2 = l_target l))) /\
  (~ (selection_active /\ exists p, p ∈ paths /\ lit p) ->
    (forall n, n ∈ g_nodes graph -> n_highlighted n = None /\ n_dimmed n = None) /\
    (forall l, l ∈ g_links graph -> l_highlighted l = None /\ l_dimmed l = None)).
Proof.
  intros Hrows. pose proof the_sets_spec as [Hsome Hnone]. cbv zeta in Hsome, Hnone. pose proof node_flags as Hn. pose proof link_flags as Hl.
  assert ((exists p, p ∈ paths /\ lit p) <-> lit_paths <> []) as Hlit.
  { setoid_rewrite <- lit_paths_elem. destruct lit_paths as [|p l]; [|naive_solver (by left)].
    split; [intros (p & []%not_elem_of_nil)|done]. }
  split.
  - intros Ha Hp. rewrite (Hsome Ha) in Hn, Hl by (by apply Hlit). destruct (highlight_sets_elem lit_paths) as [En El]. split.
    + intros n Hin. destruct (Hn n Hin) as [-> ->]. eexists. split; [done|split; [done|]]. rewrite bool_decide_eq_true, En.
      setoid_rewrite lit_paths_elem. naive_solver.
    + intros l Hin. destruct (Hl l Hin) as [-> ->]. eexists. split; [done|split; [done|]]. rewrite bool_decide_eq_true, El.
      setoid_rewrite lit_paths_elem.
      assert (forall p e, p ∈ paths -> e ∈ steps (pp_path p) ->
        (pathLinkKey e.1 e.2 = linkStableKey l <-> p_id e.1 = l_source l /\ p_id e.2 = l_target l)) as Hkey.
      { intros p e Hp' He. apply (link_key_ends rows metric role palette visible ctx options Hrows l Hin p e Hp' He). }
      split; [intros (p & e & [? ?] & ? & ?); exists p, e; naive_solver|intros (p & e & ? & ? & ? & ?); exists p, e; naive_solver].
  - intros Hno. assert (~ selection_active \/ lit_paths = []) as Hoff%Hnone; [|by rewrite Hoff in Hn, Hl].
    destruct lit_paths as [|p l]; [by right|left]. intros Ha. apply Hno. split; [done|]. by apply Hlit.
Qed.
End highlights.
