(* ===== verification/FlowMask.v ===== *)
(** * Masked labels, and the elements of the chart

    Masking hides every sensitive label of the graph and changes nothing else of it.  A
    node or link of the graph, drawn by the chart and handed back on a click or for a
    tooltip, is read back as what it was. *)

From Stdlib Require Import String Sorting.Permutation.
From stdpp Require Import sets.
From S2P Require Import Prelude JsNumber JsArray JsString JsText Ast Compile Request Json TaskExpr Currency.
From S2P Require Import FlowGraph FlowView Accumulate FlowFacts FlowBalance FlowTheorems.

#[local] Open Scope nat_scope.

(** ** The labels *)

Definition hidden (label : str) : Prop := label = FLOW_MASK_TEXT \/ label = [].
(** A node whose label could name a person, a key or a machine. *)
Definition sensitive (n : DashboardFlowNode) : Prop := n_kind n ∈ SENSITIVE_FLOW_KINDS /\ n_id n ∉ OTHER_FLOW_NODE_ID_SET.

Lemma is_masked_true n : is_masked n = true <-> sensitive n.
Proof. unfold is_masked, sensitive. rewrite andb_true_iff, negb_true_iff, bool_decide_eq_true, bool_decide_eq_false. done. Qed.
Lemma maskFlowLabel_hidden label : hidden (maskFlowLabel label).
Proof. destruct label; [by right|by left]. Qed.

Lemma masked_labels_spec nodes :
  (forall x label, assoc_get x (masked_labels nodes) = Some label -> hidden label) /\
  (forall k n, (k, n) ∈ nodes -> sensitive n -> assoc_get (n_id n) (masked_labels nodes) <> None).
Proof.
  unfold masked_labels. induction nodes as [|[k n] nodes [IH1 IH2]] using rev_ind; [split; [done|intros ?? []%not_elem_of_nil]|].
  rewrite fold_left_app. cbn [fold_left snd]. split.
  - intros x label. destruct (is_masked n); [|apply IH1]. rewrite assoc_get_set.
    case_decide; [intros [= <-]; apply maskFlowLabel_hidden|apply IH1].
  - intros k' n' [Hin|[= -> ->]%list_elem_of_singleton]%elem_of_app Hs.
    + destruct (is_masked n); [|by apply (IH2 k')]. rewrite assoc_get_set. case_decide; [done|by apply (IH2 k')].
    + rewrite (proj2 (is_masked_true n) Hs), assoc_get_set. by rewrite decide_True.
Qed.

(** ** The rest of the graph *)

Definition unlabel_node (n : DashboardFlowNode) : DashboardFlowNode := set_node_label [] n.
Definition unlabel_link (l : DashboardFlowLink) : DashboardFlowLink := set_link_labels [] [] l.

Lemma assoc_get_values {A B} (f : A -> B) (m : list (str * A)) k :
  assoc_get k (map (fun e => (e.1, f e.2)) m) = option_map f (assoc_get k m).
Proof. induction m as [|[k' v] m IH]; [done|]. cbn [map assoc_get fst snd]. by case_decide. Qed.
Lemma assoc_set_values {A B} (f : A -> B) (m : list (str * A)) k v :
  assoc_set k (f v) (map (fun e => (e.1, f e.2)) m) = map (fun e => (e.1, f e.2)) (assoc_set k v m).
Proof.
  induction m as [|[k' v'] m IH]; [done|]. cbn [map assoc_set fst snd]. case_decide; [done|]. cbn [map fst snd]. by rewrite IH.
Qed.

Lemma linksBySource_unlabel links :
  linksBySource (map unlabel_link links) = map (fun g => (g.1, map unlabel_link g.2)) (linksBySource links).
Proof.
  unfold linksBySource. induction links as [|l links IH] using rev_ind; [done|].
  rewrite map_app, !fold_left_app. cbn [map fold_left]. rewrite IH. cbn [unlabel_link set_link_labels l_source].
  rewrite assoc_get_values, <- assoc_set_values, map_app. f_equal. f_equal. by destruct (assoc_get _ _).
Qed.

Lemma color_links_unlabel (color : nat -> DashboardFlowLink -> list DashboardFlowLink -> list DashboardFlowLink) s :
  (forall i x links, color i (unlabel_link x) (map unlabel_link links) = map unlabel_link (color i x links)) ->
  forall links, fold_left (fun links f => f links) (imap color (map unlabel_link s)) (map unlabel_link links) =
    map unlabel_link (fold_left (fun links f => f links) (imap color s) links).
Proof.
  revert color. induction s as [|x s IH]; intros color Hc links; [done|]. cbn [map imap fold_left].
  rewrite Hc. apply (IH (color ∘ S)). intros. apply Hc.
Qed.

Section masking.
Context `{Collation, ChartScheme}.

Lemma assign_unlabel links :
  assignLinkDisplayColors (map unlabel_link links) = map unlabel_link (assignLinkDisplayColors links).
Proof.
  unfold assignLinkDisplayColors. rewrite linksBySource_unlabel, fold_left_map.
  generalize (linksBySource links). intros groups. revert links. induction groups as [|g groups IH]; intros links; [done|].
  cbn [fold_left snd]. rewrite (sort_by_map unlabel_link link_order) by done. rewrite length_map, color_links_unlabel; [apply IH|].
  intros i x ls. unfold color_link. change (l_color (unlabel_link x)) with (l_color x). destruct (alphaColor _ _) as [color alpha].
  change (linkStableKey (unlabel_link x)) with (linkStableKey x). unfold replace_link. rewrite !map_map. apply map_ext.
  intros l. change (linkStableKey (unlabel_link l)) with (linkStableKey l). by destruct (str_eqb _ _).
Qed.

Definition with_masking (options : FlowGraphOptions) (mask : option bool) : FlowGraphOptions :=
  {| go_topNodeLimit := go_topNodeLimit options; go_overflowMode := go_overflowMode options;
     go_otherNodeLabel := go_otherNodeLabel options; go_activeNode := go_activeNode options;
     go_activeLink := go_activeLink options; go_maskSensitive := mask |}.

Context (rows : list FlowQuotaDataItem) (metric : FlowMetric) (role : FlowRole) (palette : option (list str)).
Context (visible : option (list FlowNodeKind)) (ctx : FlowPathContext) (options : FlowGraphOptions).

Abbreviation drawn mask := (buildFlowGraph rows metric role palette visible ctx (with_masking options mask)).

Definition shared_links (mask : option bool) : list DashboardFlowLink :=
  map unlabel_link (ending_links rows metric role palette visible ctx (with_masking options mask)).

Lemma shared_links_same mask mask' : shared_links mask = shared_links mask'.
Proof.
  unfold shared_links, ending_links. rewrite <- !(sort_by_map unlabel_link by_ends by_ends) by done. f_equal. rewrite !map_map.
  change (the_maps rows metric role palette visible ctx (with_masking options mask')) with
    (the_maps rows metric role palette visible ctx (with_masking options mask)).
  change (the_sets rows metric role visible ctx (with_masking options mask')) with
    (the_sets rows metric role visible ctx (with_masking options mask)).
  apply map_ext. intros [k l]. unfold final_link. by destruct (the_sets _ _ _ _ _ _).
Qed.

Lemma link_total_unlabel paths links : link_total paths (map unlabel_link links) = link_total paths links.
Proof.
  unfold link_total. generalize zero. induction links as [|l links IH]; intros x; [done|]. cbn [map List.filter].
  change (l_source (unlabel_link l)) with (l_source l). case_match; cbn [fold_left]; apply IH.
Qed.

Lemma links_unlabelled mask : map unlabel_link (g_links (drawn mask)) =
  let paths := graph_paths rows metric (resolveVisibleStages role visible) ctx options in
  let total := link_total paths (shared_links mask) in
  assignLinkDisplayColors (map (fun link =>
    set_link_share (if num_gtb total zero then num_div (l_value link) total else zero) link) (shared_links mask)).
Proof.
  pose proof (the_graph_links rows metric role palette visible ctx (with_masking options mask)) as E.
  change (the_graph _ _ _ _ _ _ _) with (drawn mask) in E. rewrite E. cbv zeta. rewrite <- assign_unlabel.
  unfold shared_links. rewrite link_total_unlabel, !map_map. f_equal.
Qed.

Lemma nodes_unlabelled mask mask' : Permutation (map unlabel_node (g_nodes (drawn mask))) (map unlabel_node (g_nodes (drawn mask'))).
Proof.
  assert (forall m, Permutation (map unlabel_node (g_nodes (drawn m)))
    (map (fun n => unlabel_node (final_node false (the_sets rows metric role visible ctx options) n))
       (map snd (the_maps rows metric role palette visible ctx options).1))) as Hm; [|by rewrite !Hm].
  intros m. pose proof (the_graph_nodes rows metric role palette visible ctx (with_masking options m)) as E.
  change (the_graph _ _ _ _ _ _ _) with (drawn m) in E. rewrite E, sort_by_perm.
  change (the_maps rows metric role palette visible ctx (with_masking options m)) with (the_maps rows metric role palette visible ctx options).
  change (the_sets rows metric role visible ctx (with_masking options m)) with (the_sets rows metric role visible ctx options).
  rewrite map_map. apply Permutation_refl', map_ext. intros n. unfold final_node, mask_node.
  destruct (masking _), (is_masked n), (the_sets _ _ _ _ _ _); done.
Qed.

(** Every end of a link is a node of the graph. *)
Lemma link_ends_are_nodes mask l : l ∈ g_links (drawn mask) ->
  (exists n, n ∈ g_nodes (drawn mask) /\ n_id n = l_source l) /\ (exists n, n ∈ g_nodes (drawn mask) /\ n_id n = l_target l).
Proof.
  intros Hl.
  assert (link_core l ∈ map link_core (g_links (drawn mask))) as Hc by (apply list_elem_of_fmap; by exists l).
  rewrite graph_link_cores in Hc. apply list_elem_of_fmap in Hc as ([k l'] & Ec & Hin). injection Ec as -> -> _.
  apply link_entry in Hin as (_ & p & e & Hp & [He1 He2]%steps_elem & -> & ->).
  split; eapply graph_node_exists; eassumption.
Qed.

Lemma masked_node_label n : n ∈ g_nodes (drawn (Some true)) -> sensitive n -> hidden (n_label n).
Proof.
  intros Hn Hs. pose proof (the_graph_nodes rows metric role palette visible ctx (with_masking options (Some true))) as E.
  change (the_graph _ _ _ _ _ _ _) with (drawn (Some true)) in E. rewrite E, sort_by_perm in Hn.
  apply list_elem_of_fmap in Hn as (n0 & -> & _). unfold final_node in *. cbn [masking with_masking go_maskSensitive default Datatypes.id] in *.
  change (masking (with_masking options (Some true))) with true in *. cbv iota in *.
  assert (is_masked n0 = true) as Em.
  { apply is_masked_true. unfold mask_node in Hs. destruct (the_sets _ _ _ _ _ _), (is_masked n0) eqn:E0;
      try (by apply is_masked_true in E0); exact Hs. }
  unfold mask_node. rewrite Em. destruct (the_sets _ _ _ _ _ _); apply maskFlowLabel_hidden.
Qed.

Lemma masked_link_labels l n : l ∈ g_links (drawn (Some true)) -> n ∈ g_nodes (drawn (Some true)) -> sensitive n ->
  (n_id n = l_source l -> hidden (l_sourceLabel l)) /\ (n_id n = l_target l -> hidden (l_targetLabel l)).
Proof.
  intros Hl Hn Hs.
  apply graph_node_entry in Hn as (k & n' & Hin & Ec). injection Ec as Ei Ek _.
  assert (sensitive n') as Hs' by (unfold sensitive in *; by rewrite <- Ei, <- Ek).
  rewrite Ei. clear Ei Ek Hs n. destruct (masked_labels_spec (the_maps rows metric role palette visible ctx (with_masking options (Some true))).1) as [H1 H2].
  assert (assoc_get (n_id n') (the_masked rows metric role palette visible ctx (with_masking options (Some true))) <> None) as Hsome.
  { change (the_masked rows metric role palette visible ctx (with_masking options (Some true))) with (masked_labels (the_maps rows metric role palette visible ctx (with_masking options (Some true))).1).
    apply (H2 k n'); [|done]. rewrite the_maps_eq. exact Hin. }
  pose proof (the_graph_links rows metric role palette visible ctx (with_masking options (Some true))) as E. change (the_graph _ _ _ _ _ _ _) with (drawn (Some true)) in E.
  cbv zeta in E. set (part := fun l => (l_source l, l_target l, l_sourceLabel l, l_targetLabel l)).
  assert (part l ∈ map part (g_links (drawn (Some true)))) as Hp by (apply list_elem_of_fmap; by exists l).
  rewrite E, (assignLinkDisplayColors_part part), map_map in Hp by done. apply list_elem_of_fmap in Hp as (l1 & El & Hl1).
  injection El as -> -> -> ->. unfold ending_links in Hl1. rewrite sort_by_perm in Hl1. apply list_elem_of_fmap in Hl1 as (l2 & -> & _).
  unfold final_link. destruct (the_sets _ _ _ _ _ _); cbn [highlight_link mask_link set_link_labels set_link_share l_source l_target
    l_sourceLabel l_targetLabel]; (split; intros <-; (destruct (assoc_get (n_id n') _) as [label|] eqn:Eg; [by apply H1 in Eg|done])).
Qed.

(** C24: With masking on, no label of a user, node, token, group or channel is left in the
    graph: neither on its node (unless it is the aggregate of the others) nor on the ends of
    its links, all of which are nodes of the graph; and masking changes the labels only: the
    links are the same in the same order, the nodes the same up to their order. *)
Theorem masking_hides_labels_only :
  (forall n, n ∈ g_nodes (drawn (Some true)) -> sensitive n -> hidden (n_label n)) /\
  (forall l, l ∈ g_links (drawn (Some true)) ->
    (exists n, n ∈ g_nodes (drawn (Some true)) /\ n_id n = l_source l) /\
    (exists n, n ∈ g_nodes (drawn (Some true)) /\ n_id n = l_target l) /\
    forall n, n ∈ g_nodes (drawn (Some true)) -> sensitive n ->
      (n_id n = l_source l -> hidden (l_sourceLabel l)) /\ (n_id n = l_target l -> hidden (l_targetLabel l))) /\
  map unlabel_link (g_links (drawn (Some true))) = map unlabel_link (g_links (drawn None)) /\
  Permutation (map unlabel_node (g_nodes (drawn (Some true)))) (map unlabel_node (g_nodes (drawn None))).
Proof.
  split; [exact masked_node_label|]. split; [|split; [|apply nodes_unlabelled]].
  - intros l Hl. destruct (link_ends_are_nodes _ _ Hl) as [H1 H2]. split; [done|split; [done|]].
    intros n Hn Hs. by apply masked_link_labels.
  - rewrite !links_unlabelled. cbv zeta. by rewrite (shared_links_same None (Some true)).
Qed.
End masking.

(** ** The elements of the chart *)


(** How the chart hands an element back: the value itself, nested under [datum], or in the
    array of the values on the way to it, at its depth. *)
Inductive handed_back (v : value) : value -> Prop :=
| handed_plain : handed_back v v
| handed_nested : handed_back v (VObject [(u "datum", v)])
| handed_deep items (depth : nat) : (Z.of_nat depth < 2 ^ 53)%Z -> items !! depth = Some v ->
    handed_back v (VObject [(u "datum", VArray items); (u "depth", VNumber (of_Z (Z.of_nat depth)))]).

(** A value of the chart: an object without nested data. *)
Definition plain_object (v : value) : Prop := exists fields, v = VObject fields /\ assoc_get (u "datum") fields = None.

Lemma item_at_depth items depth v : (Z.of_nat depth < 2 ^ 53)%Z -> items !! depth = Some v ->
  item_at items (numberValue (VNumber (of_Z (Z.of_nat depth)))) = v.
Proof.
  intros Hd Hv. assert (Z.abs (Z.of_nat depth) < 2 ^ 53)%Z as Ha by lia.
  pose proof (of_Z_integer _ Ha) as Hi. pose proof (of_Z_exact _ Ha) as He.
  assert (num_is_finite (of_Z (Z.of_nat depth)) = true) as Hf by (destruct (of_Z (Z.of_nat depth)); done).
  unfold numberValue. cbn [Number_of]. rewrite Hf. unfold item_at. rewrite Hi, He. unfold num_leb.
  rewrite (num_compare_ints zero _ eq_refl Hi), He. change (num_to_Z zero) with 0%Z.
  apply lookup_lt_Some in Hv as Hl. assert ((Z.of_nat depth <? Z.of_nat (length items))%Z = true) as -> by (apply Z.ltb_lt; lia).
  rewrite Nat2Z.id, Hv. destruct (Z.compare_spec 0 (Z.of_nat depth)); done || lia.
Qed.

(** Every property but the nesting is the element's. *)
Lemma handed_back_value v d key : plain_object v -> handed_back v d -> key <> u "datum" -> key <> u "depth" ->
  recordValue d = Some d /\ sankeyDatumValue d key = property v key.
Proof.
  intros (fields & -> & Hn) Hd K1 K2. unfold sankeyDatumValue. destruct Hd as [| |items depth Hlt Hit]; (split; [done|]).
  - destruct (is_undefined (property (VObject fields) key)) eqn:E; [|done]. cbn [negb]. unfold sankeyDatumSource.
    cbn [property]. rewrite Hn. done.
  - cbn [property assoc_get]. rewrite decide_False by done. done.
  - cbn [property assoc_get]. rewrite !decide_False by done. cbn [default is_undefined negb]. unfold sankeyDatumSource.
    assert (property (VObject [(u "datum", VArray items); (u "depth", VNumber (of_Z (Z.of_nat depth)))]) (u "datum") = VArray items) as -> by done.
    assert (property (VObject [(u "datum", VArray items); (u "depth", VNumber (of_Z (Z.of_nat depth)))]) (u "depth") =
      VNumber (of_Z (Z.of_nat depth))) as -> by done.
    rewrite (item_at_depth items depth (VObject fields)) by done. done.
Qed.

Section chart.
Context `{Collation, ChartScheme, NumberFormats}.

Lemma sankey_node_plain n : plain_object (sankey_node n).
Proof. eexists. split; [reflexivity|]. vm_compute. reflexivity. Qed.
Lemma sankey_link_plain index l : plain_object (sankey_link index l).
Proof. eexists. split; [reflexivity|]. vm_compute. reflexivity. Qed.

Lemma isFlowNodeKind_text kind : isFlowNodeKind (VString (kind_text kind)) = Some kind.
Proof. destruct kind; vm_compute; reflexivity. Qed.

(** The opacity of an element by its flags. *)
Definition opacity (highlighted dimmed : option bool) (dark bright plain : number) : number :=
  if is_set dimmed then dark else if is_set highlighted then bright else plain.

Lemma flag_value_set o : match flag_value o with VBoolean true => true | _ => false end = is_set o.
Proof. by destruct o as [[]|]. Qed.

(** What the chart hands back of a node is read as the filter of that node, with its
    label as the title and the opacity of its flags; what it hands back of a link is never
    read as a node, and is titled by the labels of its ends. *)
Theorem chart_elements_are_read_back :
  (forall n d, handed_back (sankey_node n) d ->
    flowNodeFilterFromSankeyDatum d = Some {| nf_kind := n_kind n; nf_id := n_id n |} /\
    tooltip_title d = n_label n /\ tooltip_visible d = true /\
    node_fill d = n_color n /\
    node_fillOpacity d = opacity (n_highlighted n) (n_dimmed n) (decimal "0" "18") one (decimal "0" "92")) /\
  (forall l index d, handed_back (sankey_link index l) d -> l_source l <> [] -> l_target l <> [] ->
    flowNodeFilterFromSankeyDatum d = None /\
    tooltip_title d = l_sourceLabel l ++ u " -> " ++ l_targetLabel l /\ tooltip_visible d = true /\
    link_fill d = l_linkColor l).
Proof.
  split.
  - intros n d Hd. pose proof (handed_back_value _ d (u "key") (sankey_node_plain n) Hd ltac:(done) ltac:(done)) as [Hr _].
    assert (forall key, key <> u "datum" -> key <> u "depth" -> sankeyDatumValue d key = property (sankey_node n) key) as Hv
      by (intros key K1 K2; by apply handed_back_value; [apply sankey_node_plain| | |]).
    unfold flowNodeFilterFromSankeyDatum, tooltip_title, tooltip_visible, isSankeyLinkDatum, flowSankeyDatumValue, node_fill,
      node_fillOpacity, sankeyDatumFlag.
    rewrite Hr. cbn [mbind option_bind]. rewrite ?Hr, !Hv by done.
    change (property (sankey_node n) (u "kind")) with (VString (kind_text (n_kind n))). rewrite isFlowNodeKind_text.
    change (property (sankey_node n) (u "dimmed")) with (flag_value (n_dimmed n)).
    change (property (sankey_node n) (u "highlighted")) with (flag_value (n_highlighted n)). rewrite !flag_value_set.
    repeat split; reflexivity.
  - intros l index d Hd Hs Ht. pose proof (handed_back_value _ d (u "key") (sankey_link_plain index l) Hd ltac:(done) ltac:(done)) as [Hr _].
    assert (forall key, key <> u "datum" -> key <> u "depth" -> sankeyDatumValue d key = property (sankey_link index l) key) as Hv
      by (intros key K1 K2; by apply handed_back_value; [apply sankey_link_plain| | |]).
    unfold flowNodeFilterFromSankeyDatum, tooltip_title, tooltip_visible, isSankeyLinkDatum, link_fill.
    rewrite Hr. cbn [mbind option_bind]. rewrite !Hv by done.
    change (property (sankey_link index l) (u "source")) with (VString (l_source l)).
    change (property (sankey_link index l) (u "target")) with (VString (l_target l)). cbn [is_undefined negb andb orb truthy].
    assert (nonempty (l_source l) = true) as -> by (by destruct (l_source l)).
    assert (nonempty (l_target l) = true) as -> by (by destruct (l_target l)). repeat split; reflexivity.
Qed.

(** The draw order: highlighted links above all others, of fewer than 900 000. *)
Theorem highlighted_links_are_drawn_above flow i j l l' :
  drawn_links flow !! i = Some l -> drawn_links flow !! j = Some l' -> (Z.of_nat (length (drawn_links flow)) < 900000)%Z ->
  is_set (l_highlighted l) = true -> is_set (l_highlighted l') = false -> (z_index j l' < z_index i l)%Z.
Proof.
  intros Hi%lookup_lt_Some Hj%lookup_lt_Some Hlen Hl Hl'. unfold z_index. rewrite Hl, Hl'. destruct (is_set (l_dimmed l')); lia.
Qed.
End chart.
