(* ===== verification/FlowLimit.v ===== *)
(** * The limit on the nodes of a stage

    Which nodes the limit keeps, and how many nodes a stage of the graph has; then a
    small dashboard on which the theorems on the flow are evaluated. *)

From Stdlib Require Import String Sorting.Sorted Sorting.Permutation.
From stdpp Require Import sets.
From S2P Require Import Prelude JsNumber JsArray JsString JsText Ast Compile Request Json TaskExpr Currency TaskFacts.
From S2P Require Import FlowGraph FlowView Accumulate FlowFacts FlowBalance FlowTheorems FlowFilters FlowMask.

#[local] Open Scope nat_scope.

(** ** The totals by stage *)

Definition stage_key (ctx : FlowPathContext) (kind : FlowNodeKind) (row : FlowQuotaDataItem) : str :=
  p_id (NODE_BUILDERS kind row ctx).
Definition kind_ranks (rows : list FlowQuotaDataItem) (metric : FlowMetric) (ctx : FlowPathContext) (kind : FlowNodeKind)
  : list (str * FlowNodeRank) :=
  accumulate (stage_key ctx kind) (rank_init kind ctx) (rank_upd metric) rows.

Lemma add_rank_get value totals node k : assoc_get k (add_rank value totals node) =
  if decide (p_kind node = k) then
    (fun st => assoc_set (p_id node)
      {| rk_node := rk_node (default {| rk_node := node; rk_value := zero |} (assoc_get (p_id node) st));
         rk_value := num_add (rk_value (default {| rk_node := node; rk_value := zero |} (assoc_get (p_id node) st))) value |} st)
    <$> assoc_get k totals
  else assoc_get k totals.
Proof.
  unfold add_rank. destruct (decide (p_kind node = k)) as [<-|E].
  - destruct (assoc_get (p_kind node) totals) as [st|] eqn:Es; [|by rewrite Es]. by rewrite assoc_get_set_eq.
  - destruct (assoc_get (p_kind node) totals) as [st|]; [|done]. by rewrite assoc_get_set_ne.
Qed.

Lemma add_ranks_get metric row ctx stages kind : NoDup stages -> forall totals,
  assoc_get kind (fold_left (add_rank (row_amount metric row)) (flowPathForStages row stages ctx) totals) =
  if bool_decide (kind ∈ stages)
  then (fun st => accumulate_step (stage_key ctx kind) (rank_init kind ctx) (rank_upd metric) st row) <$> assoc_get kind totals
  else assoc_get kind totals.
Proof.
  unfold flowPathForStages. induction stages as [|s stages IH]; intros Hnd totals.
  { by rewrite bool_decide_eq_false_2 by apply not_elem_of_nil. }
  apply list.NoDup_cons in Hnd as [Hs Hnd]. cbn [map fold_left]. rewrite IH, add_rank_get by done.
  destruct (NODE_BUILDERS_ok s row ctx) as [-> _]. destruct (decide (s = kind)) as [->|E].
  - rewrite (bool_decide_eq_false_2 (kind ∈ stages)), (bool_decide_eq_true_2 (kind ∈ kind :: stages)) by (done || by left). done.
  - destruct (decide (kind ∈ stages)) as [Hk|Hk].
    + by rewrite !bool_decide_eq_true_2 by (done || by right).
    + rewrite !bool_decide_eq_false_2; [done|intros [->|?]%elem_of_cons; done|done].
Qed.

Lemma empty_totals_get {V} (stages : list FlowNodeKind) kind : forall totals : list (FlowNodeKind * list V),
  assoc_get kind (fold_left (fun totals stage => assoc_set stage [] totals) stages totals) =
  if bool_decide (kind ∈ stages) then Some [] else assoc_get kind totals.
Proof.
  induction stages as [|s stages IH]; intros totals.
  { by rewrite bool_decide_eq_false_2 by apply not_elem_of_nil. }
  cbn [fold_left]. rewrite IH, assoc_get_set. destruct (decide (s = kind)) as [->|E].
  - rewrite (bool_decide_eq_true_2 (kind ∈ kind :: stages)) by (by left). by case_bool_decide.
  - destruct (decide (kind ∈ stages)) as [Hk|Hk].
    + by rewrite !bool_decide_eq_true_2 by (done || by right).
    + rewrite !bool_decide_eq_false_2; [done|intros [->|?]%elem_of_cons; done|done].
Qed.

Lemma rank_totals_get rows metric stages ctx kind : NoDup stages -> kind ∈ stages ->
  assoc_get kind (rank_totals rows metric stages ctx) = Some (kind_ranks rows metric ctx kind).
Proof.
  intros Hnd Hk. unfold rank_totals, kind_ranks. induction rows as [|row rows IH] using rev_ind.
  - cbn [fold_left]. by rewrite empty_totals_get, bool_decide_eq_true_2.
  - rewrite fold_left_app. cbn [fold_left]. fold (row_amount metric row). rewrite add_ranks_get, bool_decide_eq_true_2 by done.
    rewrite IH, accumulate_snoc. done.
Qed.

Lemma fold_set_keys {A B K} `{EqDecision K} (key : A -> K) (val : A -> B) (l : list A) : forall m : list (K * B),
  NoDup m.*1 -> NoDup (fold_left (fun m x => assoc_set (key x) (val x) m) l m).*1.
Proof. induction l as [|x l IH]; intros m Hm; [done|]. cbn [fold_left]. by apply IH, assoc_set_NoDup. Qed.

Lemma rank_totals_NoDup rows metric stages ctx : NoDup (rank_totals rows metric stages ctx).*1.
Proof.
  unfold rank_totals. assert (forall totals, NoDup totals.*1 ->
    NoDup (fold_left (fun totals row => fold_left (add_rank (metricValue (rowMetrics row) metric)) (flowPathForStages row stages ctx) totals)
      rows totals).*1) as Hf; [|apply Hf, (fold_set_keys (fun s => s) (fun _ => [])), NoDup_nil_2].
  induction rows as [|row rows IH]; intros totals Ht; [done|]. cbn [fold_left]. apply IH.
  revert totals Ht. induction (flowPathForStages row stages ctx) as [|n path IHp]; intros totals Ht; [done|]. cbn [fold_left].
  apply IHp. unfold add_rank. destruct (assoc_get _ _); [by apply assoc_set_NoDup|done].
Qed.

Lemma mapped_get {A B K} `{EqDecision K} (f : A -> B) (l : list (K * A)) k : NoDup l.*1 -> forall m,
  assoc_get k (fold_left (fun m (e : K * A) => assoc_set e.1 (f e.2) m) l m) =
  match assoc_get k l with Some a => Some (f a) | None => assoc_get k m end.
Proof.
  induction l as [|[k' a] l IH]; intros Hnd m; [done|]. cbn [fmap list_fmap fst] in Hnd. apply list.NoDup_cons in Hnd as [Hk Hnd].
  cbn [fold_left fst snd assoc_get]. rewrite IH, assoc_get_set by done. destruct (decide (k' = k)) as [->|E]; [|done].
  by apply assoc_get_None in Hk as ->.
Qed.

Section limit.
Context `{Collation, ChartScheme}.

Lemma top_sets_get rows metric stages limit ctx sets kind : NoDup stages -> kind ∈ stages ->
  buildTopNodeSets rows metric stages (Some limit) ctx = Some sets ->
  assoc_get kind sets = Some (top_ids limit (kind_ranks rows metric ctx kind)).
Proof.
  intros Hnd Hk. cbn [buildTopNodeSets mbind option_bind]. destruct (negb (num_truthy limit)); [done|]. intros [= <-].
  rewrite (mapped_get (top_ids limit)) by apply rank_totals_NoDup. by rewrite rank_totals_get.
Qed.

(** ** The ids of a stage *)

Lemma top_ids_length limit ranks : (Z.of_nat (length (top_ids limit ranks)) <= Z.max 0 (num_to_Z limit))%Z.
Proof.
  unfold top_ids. assert (forall l : list str, length (set_of l) <= length l) as Hs.
  { intros l. apply NoDup_incl_length; [apply NoDup_ListNoDup, set_of_NoDup|]. intros x. rewrite <- !list_elem_of_In. by rewrite elem_of_set_of. }
  pose proof (Hs (map (fun rank => p_id (rk_node rank)) (slice_to limit (sort_by rank_order (map snd ranks))))) as Hl.
  rewrite length_map in Hl. unfold slice_to in Hl at 2. rewrite length_take in Hl. lia.
Qed.

(** A node of a limited path is among the top of its stage, or the aggregate. *)
Lemma limited_node rows metric stages limit ctx sets mode labeler row path n :
  NoDup stages -> buildTopNodeSets rows metric stages (Some limit) ctx = Some sets ->
  applyTopNodeLimit (flowPathForStages row stages ctx) (Some sets) mode labeler = Some path -> n ∈ path ->
  p_kind n ∈ stages /\ (p_id n ∈ top_ids limit (kind_ranks rows metric ctx (p_kind n)) \/
    mode = O_aggregate /\ p_id n = OTHER_FLOW_NODE_IDS (p_kind n)).
Proof.
  intros Hnd Hsets. assert (forall m, m ∈ flowPathForStages row stages ctx -> p_kind m ∈ stages) as Hin.
  { intros m (kind & -> & Hk)%list_elem_of_fmap. by destruct (NODE_BUILDERS_ok kind row ctx) as [-> _]. }
  assert (forall m, m ∈ flowPathForStages row stages ctx -> isTopFlowNode m (Some sets) = true ->
    p_id m ∈ top_ids limit (kind_ranks rows metric ctx (p_kind m))) as Htop.
  { intros m Hm. unfold isTopFlowNode. cbn [mbind option_bind]. rewrite (top_sets_get rows metric stages limit ctx sets) by auto.
    by intros ?%bool_decide_eq_true. }
  unfold applyTopNodeLimit. destruct (existsb _ _) eqn:Ex; cbn [negb].
  - destruct mode; [|done]. intros [= <-] (m & -> & Hm)%list_elem_of_fmap. destruct (isTopFlowNode m (Some sets)) eqn:Et.
    + split; [by apply Hin|left; by apply Htop].
    + split; [exact (Hin m Hm)|by right].
  - intros [= <-] Hn. split; [auto|]. left. apply Htop; [done|]. apply not_true_iff_false in Ex.
    destruct (isTopFlowNode n (Some sets)) eqn:Et; [done|]. exfalso. apply Ex, existsb_exists. exists n.
    rewrite <- list_elem_of_In, Et. done.
Qed.

(** ** The heaviest nodes *)

(** The total of the rows of a node. *)
Definition node_total (rows : list FlowQuotaDataItem) (metric : FlowMetric) (ctx : FlowPathContext) (kind : FlowNodeKind)
    (x : str) : number :=
  num_sum (map (row_amount metric) (List.filter (fun row => bool_decide (stage_key ctx kind row = x)) rows)).

Lemma kind_rank_entry rows metric ctx kind k rank : (k, rank) ∈ kind_ranks rows metric ctx kind ->
  p_id (rk_node rank) = k /\ rk_value rank = node_total rows metric ctx kind k /\
  exists row, row ∈ rows /\ stage_key ctx kind row = k.
Proof.
  unfold kind_ranks. intros Hin.
  rewrite (accumulate_value (stage_key ctx kind) (rank_init kind ctx) (rank_upd metric) rk_value (row_amount metric)
    ltac:(done) ltac:(done) rows k rank Hin).
  apply accumulate_entry in Hin as (row & l & E & ->).
  assert (row ∈ with_key (stage_key ctx kind) k rows) as [Hr <-]%with_key_elem by (rewrite E; by left).
  rewrite !(fold_kept (rank_upd metric)) by done. split; [done|split; [done|]]. by exists row.
Qed.
Lemma kind_rank_exists rows metric ctx kind row : row ∈ rows ->
  exists rank, (stage_key ctx kind row, rank) ∈ kind_ranks rows metric ctx kind.
Proof.
  intros Hr. assert (stage_key ctx kind row ∈ (kind_ranks rows metric ctx kind).*1) as Hk
    by (unfold kind_ranks; rewrite accumulate_keys, elem_of_set_of; apply list_elem_of_fmap; by exists row).
  apply list_elem_of_fmap in Hk as ([k rank] & -> & Hin). by exists rank.
Qed.

Lemma rank_order_sign x y : num_is_finite (rk_value x) = true -> num_is_finite (rk_value y) = true ->
  valid (rk_value x) = true -> valid (rk_value y) = true ->
  if positive (rank_order x y) then le (rk_value x) (rk_value y) else le (rk_value y) (rk_value x).
Proof.
  intros Fx Fy Vx Vy. unfold rank_order, sign_of, num_ltb. rewrite (num_compare_sym _ zero), sub_compare by done.
  unfold le, num_leb. rewrite (num_compare_sym (rk_value y) (rk_value x)).
  destruct (num_compare (rk_value y) (rk_value x)) as [[]|] eqn:E; cbn [option_map CompOpp or_compare positive]; try done.
  - by destruct (positive _).
  - by destruct (rk_value x), (rk_value y).
Qed.

Lemma num_sum_valid l : valid (num_sum l) = true.
Proof.
  unfold num_sum. destruct l as [|x l _] using rev_ind; [done|]. rewrite fold_left_app. apply num_add_valid.
Qed.

Lemma sorted_take_drop {A} (R : A -> A -> Prop) (l : list A) n x y :
  StronglySorted R l -> x ∈ take n l -> y ∈ drop n l -> R x y.
Proof.
  intros Hs. revert n. induction Hs as [|z l Hs IH Hz]; intros n; [rewrite take_nil; by intros ?%not_elem_of_nil|].
  destruct n as [|n]; [by intros ?%not_elem_of_nil|]. cbn [take drop]. intros [->|Hx]%elem_of_cons Hy; [|by apply (IH n)].
  rewrite List.Forall_forall in Hz. apply Hz, list_elem_of_In. rewrite <- (take_drop n l), elem_of_app. by right.
Qed.

Lemma top_heaviest rows metric ctx kind limit row1 row2 :
  (forall row, row ∈ rows -> num_is_finite (node_total rows metric ctx kind (stage_key ctx kind row)) = true) ->
  row1 ∈ rows -> row2 ∈ rows ->
  stage_key ctx kind row1 ∈ top_ids limit (kind_ranks rows metric ctx kind) ->
  stage_key ctx kind row2 ∉ top_ids limit (kind_ranks rows metric ctx kind) ->
  le (node_total rows metric ctx kind (stage_key ctx kind row2)) (node_total rows metric ctx kind (stage_key ctx kind row1)).
Proof.
  intros Hfin H1 H2 Hin Hout. set (ranks := kind_ranks rows metric ctx kind) in *.
  set (good := fun rank => rank ∈ map snd ranks).
  assert (forall rank, good rank -> num_is_finite (rk_value rank) = true /\ valid (rk_value rank) = true) as Hgood.
  { intros rank ([k rank'] & -> & Hk)%list_elem_of_fmap. cbn [snd]. apply kind_rank_entry in Hk as (_ & -> & row & Hr & <-).
    split; [by apply Hfin|apply num_sum_valid]. }
  set (sorted := sort_by rank_order (map snd ranks)).
  assert (StronglySorted (fun x y => le (rk_value y) (rk_value x)) sorted) as Hsorted.
  { apply (sort_after_sorted _ good).
    - intros x y [Fx Vx]%Hgood [Fy Vy]%Hgood. by apply rank_order_sign.
    - intros x y z _ [Fy%finite_numeric _]%Hgood _ Hxy Hyz. by apply (le_trans _ (rk_value y)).
    - apply List.Forall_forall. intros x Hx. by apply list_elem_of_In. }
  unfold top_ids in Hin, Hout. rewrite elem_of_set_of in Hin, Hout. fold sorted in Hin, Hout.
  apply list_elem_of_fmap in Hin as (rank1 & E1 & Hr1). destruct (kind_rank_exists rows metric ctx kind row2 H2) as (rank2 & Hr2).
  destruct (kind_rank_entry _ _ _ _ _ _ Hr2) as (E2 & <- & _).
  unfold slice_to in *. set (n := Z.to_nat _) in *.
  assert (rank2 ∈ drop n sorted) as Hd.
  { assert (rank2 ∈ sorted) as Hs by (unfold sorted; rewrite sort_by_perm; apply list_elem_of_fmap; by exists (stage_key ctx kind row2, rank2)).
    rewrite <- (take_drop n sorted), elem_of_app in Hs. destruct Hs as [Hs|Hs]; [|done]. exfalso. apply Hout.
    apply list_elem_of_fmap. by exists rank2. }
  pose proof (sorted_take_drop _ _ n rank1 rank2 Hsorted Hr1 Hd) as Hle. cbn beta in Hle.
  assert (rank1 ∈ map snd ranks) as Hm by (rewrite <- (sort_by_perm rank_order); fold sorted; rewrite <- (take_drop n sorted), elem_of_app; by left).
  apply list_elem_of_fmap in Hm as ([k rank1'] & -> & Hk). cbn [snd] in *. apply kind_rank_entry in Hk as (E & Ev & _).
  rewrite Ev, <- E, <- E1 in Hle. done.
Qed.

(** ** The stages of a limited graph *)

Lemma normalized_limit l limit : normalizeTopNodeLimit l = Some limit -> num_truthy limit = true /\ (0 <= num_to_Z limit)%Z.
Proof.
  unfold normalizeTopNodeLimit. destruct l as [x|]; [|done]. cbn [mbind option_bind].
  destruct (num_is_finite _ && num_gtb _ zero) eqn:E; [|done]. intros [= <-]. apply andb_true_iff in E as [Hf Hp].
  destruct (num_floor x) as [|?|s m e]; try done. unfold num_gtb, num_ltb in Hp. set (k := Z.min (-1074) e) in Hp.
  unfold zero in Hp. rewrite (num_compare_scaled _ _ _ _ _ _ (Z.min (-1074) e)) in Hp by lia. cbn [signed] in Hp.
  assert (0 < 2 ^ (e - Z.min (-1074) e))%Z by (apply pow2_pos; lia).
  destruct (Z.compare_spec (0 * 2 ^ (-1074 - Z.min (-1074) e)) (signed s m * 2 ^ (e - Z.min (-1074) e)))%Z as [| Hlt|]; try done.
  assert (0 < signed s m)%Z as Hs by nia. unfold num_truthy, num_to_Z.
  assert (0 < 2 ^ pos e)%Z by (apply pow2_pos; unfold pos; lia). assert (0 < 2 ^ pos (- e))%Z by (apply pow2_pos; unfold pos; lia).
  split; [destruct s; cbn [signed] in Hs; destruct (Z.eqb_spec m 0); done || lia|]. destruct s; cbn [signed] in *.
  - enough (m * 2 ^ pos e / 2 ^ pos (- e) <= 0)%Z by lia. apply Z.div_le_upper_bound; nia.
  - apply Z.div_pos; nia.
Qed.

Section limited.
Context (rows : list FlowQuotaDataItem) (metric : FlowMetric) (role : FlowRole) (palette : option (list str)).
Context (visible : option (list FlowNodeKind)) (ctx : FlowPathContext) (options : FlowGraphOptions) (limit : number).
Abbreviation stages := (resolveVisibleStages role visible).
Abbreviation graph := (buildFlowGraph rows metric role palette visible ctx options).
Abbreviation mode := (default DEFAULT_FLOW_OVERFLOW_MODE (go_overflowMode options)).
Hypothesis limit_set : normalizeTopNodeLimit (go_topNodeLimit options) = Some limit.

Lemma limited_sets : exists sets, buildTopNodeSets rows metric stages (normalizeTopNodeLimit (go_topNodeLimit options)) ctx = Some sets /\
  buildTopNodeSets rows metric stages (Some limit) ctx = Some sets.
Proof.
  rewrite limit_set. cbn [buildTopNodeSets mbind option_bind]. destruct (normalized_limit _ _ limit_set) as [-> _]. cbn [negb]. eauto.
Qed.

(** An id of the graph is among the top of its stage, or the aggregate. *)
Lemma limited_id n : n ∈ g_nodes graph -> n_kind n ∈ stages /\
  (n_id n ∈ top_ids limit (kind_ranks rows metric ctx (n_kind n)) \/ mode = O_aggregate /\ n_id n = OTHER_FLOW_NODE_IDS (n_kind n)).
Proof.
  intros (p & m & Hp & Hm & <- & <-)%graph_node_source. destruct limited_sets as (sets & Es & Es').
  unfold graph_paths in Hp. rewrite Es in Hp. apply preparePaths_elem in Hp as (row & _ & _ & E).
  eapply limited_node; [apply resolveVisibleStages_ok|exact Es'|exact E|exact Hm].
Qed.

Lemma stage_bound kind : kind ∈ stages ->
  (Z.of_nat (length (List.filter (fun n => is_kind kind (n_kind n)) (g_nodes graph))) <=
   num_to_Z limit + match mode with O_hide => 0 | O_aggregate => 1 end)%Z.
Proof.
  intros Hk. set (ns := List.filter _ _). set (extra := match mode with O_hide => [] | O_aggregate => [OTHER_FLOW_NODE_IDS kind] end).
  pose proof (top_ids_length limit (kind_ranks rows metric ctx kind)) as Hlen. destruct (normalized_limit _ _ limit_set) as [_ Hpos].
  assert (length (map n_id ns) <= length (top_ids limit (kind_ranks rows metric ctx kind) ++ extra)) as Hb.
  { apply NoDup_incl_length.
    - apply NoDup_ListNoDup. pose proof (graph_ids_NoDup rows metric role palette visible ctx options) as Hnd.
      unfold ns. induction (g_nodes graph) as [|n l IH]; [apply NoDup_nil_2|]. cbn [map] in Hnd. apply list.NoDup_cons in Hnd as [Hn Hnd].
      cbn [List.filter]. destruct (is_kind kind (n_kind n)); [|by apply IH]. cbn [map]. apply list.NoDup_cons. split; [|by apply IH].
      intros Hin. apply Hn. apply list_elem_of_fmap in Hin as (m & -> & [Hm _]%list_elem_of_In%filter_In). apply list_elem_of_fmap.
      exists m. by rewrite list_elem_of_In.
    - intros x Hx. apply list_elem_of_In. apply list_elem_of_In, list_elem_of_fmap in Hx as (n & -> & Hn).
      apply list_elem_of_In, filter_In in Hn as [Hn Ek%bool_decide_eq_true]. apply list_elem_of_In in Hn.
      apply limited_id in Hn as [_ Hid]. rewrite Ek in Hid. apply elem_of_app. destruct Hid as [?|[Em ->]]; [by left|right].
      unfold extra. rewrite Em. by left. }
  rewrite length_map, length_app in Hb. unfold extra in Hb. destruct mode; cbn [length] in Hb; lia.
Qed.

(** A node among the top of its stage is shown. *)
Lemma top_node_shown kind row : kind ∈ stages -> mode = O_aggregate -> row ∈ rows ->
  stage_key ctx kind row ∈ top_ids limit (kind_ranks rows metric ctx kind) ->
  exists n, n ∈ g_nodes graph /\ n_id n = stage_key ctx kind row.
Proof.
  intros Hk Hmode Hr Htop. destruct limited_sets as (sets & Es & Es').
  destruct (resolveVisibleStages_ok role visible) as [Hnd _]. set (node := NODE_BUILDERS kind row ctx).
  assert (node ∈ flowPathForStages row stages ctx) as Hnode by (apply list_elem_of_fmap; by exists kind).
  assert (isTopFlowNode node (Some sets) = true) as Ht.
  { unfold isTopFlowNode. cbn [mbind option_bind]. assert (p_kind node = kind) as -> by apply NODE_BUILDERS_ok.
    rewrite (top_sets_get rows metric stages limit ctx sets) by done. by apply bool_decide_eq_true. }
  assert (exists path, applyTopNodeLimit (flowPathForStages row stages ctx) (Some sets) O_aggregate (go_otherNodeLabel options) = Some path /\
    node ∈ path) as (path & Ep & Hin).
  { unfold applyTopNodeLimit. destruct (negb _); [eauto|]. eexists. split; [reflexivity|]. apply list_elem_of_fmap. exists node. by rewrite Ht. }
  apply (graph_node_exists rows metric role palette visible ctx options {| pp_path := path; pp_metrics := rowMetrics row |}); [|done].
  unfold graph_paths, preparePaths. rewrite Es, Hmode. apply list_elem_of_omap. exists row. split; [done|]. by rewrite Ep.
Qed.

(** C26: With a limit on the nodes of a stage, a visible stage of the graph has at most that
    many nodes, and one more when the overflow is aggregated, for the others.  When the
    overflow is aggregated and the totals are finite, what is kept is the heaviest: a node
    that is not shown has at most the total of any shown one.  When the overflow is hidden
    this does not hold, since a path goes with any of its nodes
    ([hidden_paths_take_heavy_nodes]). *)
Theorem limited_stages_keep_the_heaviest :
  (forall kind, kind ∈ stages ->
    (Z.of_nat (length (List.filter (fun n => is_kind kind (n_kind n)) (g_nodes graph))) <=
     num_to_Z limit + match mode with O_hide => 0 | O_aggregate => 1 end)%Z) /\
  (forall kind, kind ∈ stages -> mode = O_aggregate ->
    (forall row, row ∈ rows -> num_is_finite (node_total rows metric ctx kind (stage_key ctx kind row)) = true) ->
    forall row1 row2, row1 ∈ rows -> row2 ∈ rows ->
    stage_key ctx kind row1 ∈ map n_id (g_nodes graph) -> stage_key ctx kind row1 <> OTHER_FLOW_NODE_IDS kind ->
    stage_key ctx kind row2 ∉ map n_id (g_nodes graph) ->
    num_leb (node_total rows metric ctx kind (stage_key ctx kind row2)) (node_total rows metric ctx kind (stage_key ctx kind row1)) = true).
Proof.
  split; [exact stage_bound|]. intros kind Hk Hmode Hfin row1 row2 H1 H2 Hs1 Ho1 Hs2.
  apply (top_heaviest rows metric ctx kind limit row1 row2 Hfin H1 H2).
  - apply list_elem_of_fmap in Hs1 as (n & E & Hn). pose proof (graph_node_source _ _ _ _ _ _ _ n Hn) as (p & m & Hp & Hm & Ei & Ek).
    assert (n_kind n = kind) as En.
    { apply preparePaths_ok in Hp as [_ W]. rewrite List.Forall_forall in W. destruct (NODE_BUILDERS_ok kind row1 ctx) as [Ek1 W1].
      rewrite <- Ek, <- Ek1 at 1. apply same_id_same_kind; [apply W; by rewrite <- list_elem_of_In|done|]. rewrite Ei. by symmetry. }
    apply limited_id in Hn as [_ Hid]. rewrite En, <- E in Hid. destruct Hid as [?|[_ ?]]; done.
  - intros Htop. apply Hs2. destruct (top_node_shown kind row2 Hk Hmode H2 Htop) as (n & Hn & E).
    apply list_elem_of_fmap. by exists n.
Qed.
End limited.
End limit.

(** ** A small dashboard

    Rows on which the theorems on the flow are evaluated. *)

#[local] Open Scope Z_scope.

#[local] Existing Instance plain_collation.
#[local] Instance one_color : ChartScheme :=
  {| first_scheme := {| maxDomainLength := None; scheme_colors := [VString (u "#1664FF"); VNull] |}; other_schemes := [] |}.

Definition usage (token : Z) (name : option str) (group model : string) (quota : Z) : FlowQuotaDataItem :=
  {| q_user_id := None; q_username := None; q_node_name := None; q_use_group := Some (u group);
     q_token_id := Some (of_Z token); q_token_name := name; q_channel_id := None; q_channel_name := None;
     q_model_name := Some (u model); q_token_used := None; q_count := Some one; q_quota := Some (of_Z quota) |}.
Definition usage_log : list FlowQuotaDataItem :=
  [usage 1 (Some (u "build")) "vip" "large" 10; usage 2 (Some (u "test")) "vip" "large" 5; usage 3 None "free" "small" 7].

Definition plain_options : FlowGraphOptions :=
  {| go_topNodeLimit := None; go_overflowMode := None; go_otherNodeLabel := None; go_activeNode := None;
     go_activeLink := None; go_maskSensitive := None |}.
Definition limited_options : FlowGraphOptions :=
  {| go_topNodeLimit := Some (of_Z 1); go_overflowMode := None; go_otherNodeLabel := None;
     go_activeNode := Some {| nf_kind := K_model; nf_id := u "model:large" |};
     go_activeLink := None; go_maskSensitive := Some true |}.

Abbreviation drawn options := (buildFlowGraph usage_log M_quota R_user None None EMPTY_FLOW_PATH_CONTEXT options).

Example limited_nodes : map (fun n => (n_id n, num_to_Z (n_value n))) (g_nodes (drawn limited_options)) =
  [(u "model:large", 15); (u "group:vip", 15); (OTHER_FLOW_NODE_IDS K_token, 12); (u "token:1", 10);
   (OTHER_FLOW_NODE_IDS K_group, 7); (OTHER_FLOW_NODE_IDS K_model, 7)].
Proof. vm_compute. reflexivity. Qed.

(** The rows satisfy the hypotheses. *)
Lemma usage_fine row : row ∈ usage_log -> num_is_integer (row_amount M_quota row) = true /\
  forall kind, no_nul (p_id (NODE_BUILDERS kind row EMPTY_FLOW_PATH_CONTEXT)).
Proof.
  unfold usage_log. intros Hr.
  repeat (apply elem_of_cons in Hr as [->|Hr];
    [split; [vm_compute; reflexivity|intros []; apply (bool_decide_unpack _); vm_compute; exact I]|]).
  by apply not_elem_of_nil in Hr.
Qed.

Lemma flow_is_conserved_witness :
  summary_value (buildSummary usage_log) M_quota = of_Z 22 /\
  (forall kind, kind ∈ [K_token; K_group; K_model] -> stage_sum (drawn plain_options) kind = 22) /\
  (forall n, n ∈ g_nodes (drawn plain_options) -> n_kind n = K_group ->
    num_to_Z (n_value n) = inflow (drawn plain_options) (n_id n) /\ num_to_Z (n_value n) = outflow (drawn plain_options) (n_id n)).
Proof.
  split; [vm_compute; reflexivity|].
  destruct (flow_is_conserved usage_log M_quota R_user None None EMPTY_FLOW_PATH_CONTEXT plain_options usage_fine
    ltac:(vm_compute; reflexivity)) as [Hn (total & Hstage & _ & Hsum)].
  split.
  - intros kind Hk. rewrite (Hstage kind Hk), Hsum by (by left). vm_compute. reflexivity.
  - intros n Hin Ek. destruct (Hn n Hin) as [Hout Hi]. rewrite Ek in Hout, Hi.
    split; [apply Hi|apply Hout]; done.
Defined.

Lemma highlighted_are_the_paths_of_the_selection_witness :
  exists n, n ∈ g_nodes (drawn limited_options) /\ n_id n = u "group:vip" /\ n_highlighted n = Some true /\ n_dimmed n = Some false.
Proof.
  destruct (highlighted_are_the_paths_of_the_selection usage_log M_quota R_user None None EMPTY_FLOW_PATH_CONTEXT limited_options
    (fun row kind Hr => proj2 (usage_fine row Hr) kind)) as [Hon _].
  assert (selection_active R_user None limited_options) as Ha
    by (right; eexists; split; [reflexivity|]; apply (bool_decide_unpack _); vm_compute; exact I).
  pose (p := {| pp_path := [{| p_id := u "token:1"; p_label := u "build"; p_kind := K_token |};
      {| p_id := u "group:vip"; p_label := u "vip"; p_kind := K_group |};
      {| p_id := u "model:large"; p_label := u "large"; p_kind := K_model |}];
    pp_metrics := {| m_quota := of_Z 10; m_tokens := zero; m_requests := one |} |}).
  assert (p ∈ graph_paths usage_log M_quota (resolveVisibleStages R_user None) EMPTY_FLOW_PATH_CONTEXT limited_options) as Hp
    by (vm_compute; left).
  assert (lit limited_options p) as Hlit.
  { eexists _, {| p_id := u "model:large"; p_label := u "large"; p_kind := K_model |}.
    split; [reflexivity|split; [right; right; left|split; reflexivity]]. }
  destruct (Hon Ha (ex_intro _ p (conj Hp Hlit))) as [Hn _].
  pose (n := nth 1 (g_nodes (drawn limited_options)) (nth 0 (g_nodes (drawn limited_options)) (node_init
    {| v_what := {| p_id := []; p_label := []; p_kind := K_user |}; v_metrics := pp_metrics p; v_color := []; v_colorKey := [] |}))).
  assert (n ∈ g_nodes (drawn limited_options)) as Hin by (vm_compute; right; left).
  exists n. split; [done|]. split; [vm_compute; reflexivity|]. destruct (Hn n Hin) as (b & -> & -> & Hb).
  enough (b = true) as -> by done. apply Hb. exists p, {| p_id := u "group:vip"; p_label := u "vip"; p_kind := K_group |}.
  split; [done|split; [done|split; [right; left|vm_compute; reflexivity]]].
Defined.

Lemma limited_stages_keep_the_heaviest_witness :
  normalizeTopNodeLimit (go_topNodeLimit limited_options) = Some (of_Z 1) /\
  Z.of_nat (length (List.filter (fun n => is_kind K_token (n_kind n)) (g_nodes (drawn limited_options)))) <= 2 /\
  num_leb (node_total usage_log M_quota EMPTY_FLOW_PATH_CONTEXT K_token (u "token:3"))
          (node_total usage_log M_quota EMPTY_FLOW_PATH_CONTEXT K_token (u "token:1")) = true.
Proof.
  assert (normalizeTopNodeLimit (go_topNodeLimit limited_options) = Some (of_Z 1)) as Hl by (vm_compute; reflexivity).
  destruct (limited_stages_keep_the_heaviest usage_log M_quota R_user None None EMPTY_FLOW_PATH_CONTEXT limited_options (of_Z 1) Hl)
    as [Hb Hh].
  assert (K_token ∈ resolveVisibleStages R_user None) as Hk by (vm_compute; left).
  split; [done|]. split; [eapply Z.le_trans; [exact (Hb K_token Hk)|vm_compute; discriminate]|].
  apply (Hh K_token Hk eq_refl) with (row1 := usage 1 (Some (u "build")) "vip" "large" 10) (row2 := usage 3 None "free" "small" 7).
  - unfold usage_log. intros row Hr.
    repeat (apply elem_of_cons in Hr as [->|Hr]; [vm_compute; reflexivity|]). destruct (not_elem_of_nil _ Hr).
  - left.
  - right. right. left.
  - apply (bool_decide_unpack _). vm_compute. exact I.
  - vm_compute. discriminate.
  - apply (bool_decide_unpack _). vm_compute. exact I.
Defined.

(** When the overflow is hidden, the heaviest token is not shown, though the limit has
    room for it: each of its paths crosses a group that is not among the heaviest. *)
Definition spread_log : list FlowQuotaDataItem :=
  [usage 1 None "a" "large" 4; usage 1 None "b" "large" 4; usage 1 None "c" "large" 4; usage 2 None "d" "large" 10;
   usage 3 None "e" "large" 9].
Definition hidden_options : FlowGraphOptions :=
  {| go_topNodeLimit := Some (of_Z 2); go_overflowMode := Some O_hide; go_otherNodeLabel := None; go_activeNode := None;
     go_activeLink := None; go_maskSensitive := None |}.

Example hidden_paths_take_heavy_nodes :
  map n_id (g_nodes (buildFlowGraph spread_log M_quota R_user None None EMPTY_FLOW_PATH_CONTEXT hidden_options)) =
    [u "group:d"; u "model:large"; u "token:2"] /\
  num_gtb (node_total spread_log M_quota EMPTY_FLOW_PATH_CONTEXT K_token (u "token:1"))
          (node_total spread_log M_quota EMPTY_FLOW_PATH_CONTEXT K_token (u "token:2")) = true.
Proof. split; vm_compute; reflexivity. Qed.

(** ** Masking and the order of the nodes *)

Definition equal_log : list FlowQuotaDataItem :=
  [usage 1 (Some (u "test")) "vip" "large" 5; usage 2 (Some (u "build")) "vip" "large" 5].
Definition tokens_drawn (options : FlowGraphOptions) : list str :=
  map n_id (List.filter (fun n => is_kind K_token (n_kind n))
    (g_nodes (buildFlowGraph equal_log M_quota R_user None None EMPTY_FLOW_PATH_CONTEXT options))).

(** Nodes of the same value are ordered by their label, so masking changes their order. *)
Example masking_reorders_equal_nodes :
  tokens_drawn plain_options = [u "token:2"; u "token:1"] /\
  tokens_drawn (with_masking plain_options (Some true)) = [u "token:1"; u "token:2"].
Proof. split; vm_compute; reflexivity. Qed.

(** ** Ids of users *)

Definition user_row (id : option number) (name : string) : FlowQuotaDataItem :=
  {| q_user_id := id; q_username := Some (u name); q_node_name := None; q_use_group := None; q_token_id := None;
     q_token_name := None; q_channel_id := None; q_channel_name := None; q_model_name := None; q_token_used := None;
     q_count := None; q_quota := Some one |}.

(** A row without a user id whose name is a number is taken for the user with that id. *)
Example numeric_name_is_taken_for_an_id :
  p_id (userNode (user_row (Some (of_Z 7)) "ann")) = p_id (userNode (user_row None "7")) /\
  map n_label (List.filter (fun n => is_kind K_user (n_kind n))
    (g_nodes (buildFlowGraph [user_row (Some (of_Z 7)) "ann"; user_row None "7"] M_quota R_admin None None EMPTY_FLOW_PATH_CONTEXT
      plain_options))) = [u "ann"].
Proof. split; vm_compute; reflexivity. Qed.
