(* ===== verification/TableFacts.v ===== *)
(** * The task price table

    The rows of the table, with explicit conditions for the last one where they
    are unique, against the charge; and the row a settlement is shown to hit. *)

From Stdlib Require Import String.
From stdpp Require Import sets.
From S2P Require Import Prelude JsNumber JsString JsText Ast Parser Compile Request BillingTime Runtime.
From S2P Require Import RuntimeFacts Display TaskDisplay Regex Json BillingExpr TaskExpr TaskTable.
From S2P Require Import PriceFacts DisplayFacts TaskFacts.

(** ** Combinations of condition values *)

Lemma insert_text_elem s l x : x ∈ insert_text s l <-> x = s \/ x ∈ l.
Proof.
  induction l as [|t l IH]; cbn; [set_solver|]. destruct (str_leb s t); [set_solver|].
  rewrite !elem_of_cons, IH. tauto.
Qed.
Lemma sort_texts_elem l x : x ∈ sort_texts l <-> x ∈ l.
Proof.
  induction l as [|s l IH]; cbn; [done|]. fold (sort_texts l). rewrite insert_text_elem, IH.
  by rewrite elem_of_cons.
Qed.
Lemma set_of_elem (l : list str) x : forall acc,
  x ∈ fold_left (fun s x => set_add x s) l acc <-> x ∈ acc \/ x ∈ l.
Proof.
  induction l as [|y l IH]; intros acc; cbn; [set_solver|]. rewrite IH, elem_of_set_add. set_solver.
Qed.

Lemma condition_fields_elem tiers t c :
  t ∈ tiers -> c ∈ task_conditions t -> tk_field c ∈ condition_fields tiers.
Proof.
  intros Ht Hc. unfold condition_fields. rewrite sort_texts_elem, set_of_elem. right.
  apply list_elem_of_In, in_flat_map. exists t. split; [by apply list_elem_of_In|].
  by apply in_map, list_elem_of_In.
Qed.

(** The combination that picks the value [v field] of every field. *)
Definition picked (v : str -> str) (fields : list str) : list TaskCondition :=
  map (fun field => TaskCond field (v field)) fields.

Lemma picked_combination schema v fields : forall acc combinations c,
  fold_option (extend_conditions schema) acc fields = Some combinations -> c ∈ acc ->
  (forall field, field ∈ fields -> forall values,
     field_values schema field = Some values -> v field ∈ values) ->
  c ++ picked v fields ∈ combinations.
Proof.
  induction fields as [|field fields IH]; intros acc combinations c Hf Hc Hv.
  { injection Hf as <-. by rewrite app_nil_r. }
  cbn in Hf. apply bind_Some in Hf as (acc' & He & Hf). unfold extend_conditions in He.
  apply bind_Some in He as (values & Hval & He). destruct (_ || _); [done|]. injection He as <-.
  replace (c ++ picked v (field :: fields)) with ((c ++ [TaskCond field (v field)]) ++ picked v fields)
    by by rewrite <- app_assoc.
  eapply IH; [exact Hf| |].
  - apply list_elem_of_In, in_flat_map. exists c. split; [by apply list_elem_of_In|].
    apply (in_map (fun v => c ++ [TaskCond field v])), list_elem_of_In, (Hv field); [by left|done].
  - intros field' Hin. apply Hv. by right.
Qed.

Lemma find_app {A} (f : A -> bool) l1 l2 :
  List.find f (l1 ++ l2) = match List.find f l1 with Some x => Some x | None => List.find f l2 end.
Proof. induction l1 as [|x l1 IH]; cbn; [done|]. by destruct (f x). Qed.

Section usage.
Context (schema : BillingUsageSchema) (usage : list (str * value)).
Context (Hconf : conforms schema usage).

Definition text_of_usage (field : str) : str := default [] (usage_text usage field).

(** A usage that conforms has one of the values of every field that has some. *)
Lemma usage_value field values :
  field_values schema field = Some values ->
  usage_text usage field = Some (text_of_usage field) /\ text_of_usage field ∈ values.
Proof.
  unfold field_values, text_of_usage, usage_text. intros (f & Hf & Hv)%bind_Some.
  destruct (Hconf field f Hf) as [Hb He]. case_bool_decide as Ht.
  - injection Hv as <-. destruct (Hb Ht) as [b ->]. cbn. split; [done|].
    destruct b; [right|]; left.
  - destruct (He Ht values Hv) as (s & -> & Hs). done.
Qed.

Lemma fields_valued fields : forall acc combinations,
  fold_option (extend_conditions schema) acc fields = Some combinations ->
  forall field, field ∈ fields -> exists values, field_values schema field = Some values.
Proof.
  induction fields as [|f fields IH]; intros acc combinations Hf field; [by intros ?%elem_of_nil|].
  cbn in Hf. apply bind_Some in Hf as (acc' & He & Hf). unfold extend_conditions in He.
  apply bind_Some in He as (values & Hval & He). intros [->|Hin]%elem_of_cons; [eauto|]. by eapply IH.
Qed.

(** On the values of the usage, covering a combination is applying. *)
Lemma picked_covers fields t :
  (forall field, field ∈ fields -> usage_text usage field = Some (text_of_usage field)) ->
  (forall c, c ∈ task_conditions t -> tk_field c ∈ fields) ->
  tier_covers (picked text_of_usage fields) t = task_applies usage t.
Proof.
  intros Hu Ht. unfold tier_covers, task_applies. revert Ht.
  induction (task_conditions t) as [|c l IH]; intros Ht; [done|]. cbn [forallb].
  rewrite IH by (intros; apply Ht; by right). f_equal.
  specialize (Ht c ltac:(by left)). unfold task_holds. rewrite (Hu _ Ht).
  apply eq_true_iff_eq. rewrite existsb_exists, bool_decide_eq_true. unfold picked, same_condition. split.
  - intros (x & Hx & Heq). apply in_map_iff in Hx as (f & <- & _). cbn in Heq.
    apply andb_true_iff in Heq as [->%str_eqb_eq <-%str_eqb_eq]. done.
  - intros [= E]. exists (TaskCond (tk_field c) (text_of_usage (tk_field c))). split.
    + apply (in_map (fun field => TaskCond field (text_of_usage field))). by apply list_elem_of_In.
    + cbn. by rewrite E, !str_eqb_refl.
Qed.

Lemma picked_applies fields t :
  (forall field, field ∈ fields -> usage_text usage field = Some (text_of_usage field)) ->
  task_applies usage (with_conditions (picked text_of_usage fields) t) = true.
Proof.
  intros Hu. unfold task_applies. cbn. apply forallb_forall. intros c Hc.
  apply in_map_iff in Hc as (field & <- & Hin). unfold task_holds. cbn.
  apply bool_decide_eq_true, Hu. by apply list_elem_of_In.
Qed.

(** Giving the last row its conditions does not change the row that applies. *)
Lemma explicit_fallback_find previous fallback :
  task_conditions fallback = [] ->
  exists t, List.find (task_applies usage) (previous ++ [fallback]) = Some t /\
    exists cs, List.find (task_applies usage)
      (explicit_fallback schema (previous ++ [fallback]) previous fallback) = Some (with_conditions cs t).
Proof.
  intros Hfb. assert (task_applies usage fallback = true) as Hap by (unfold task_applies; by rewrite Hfb).
  assert (forall t, with_conditions (task_conditions t) t = t) as Hid by by intros [].
  destruct (List.find (task_applies usage) (previous ++ [fallback])) as [t|] eqn:Ef.
  2: { exfalso. assert (In fallback (previous ++ [fallback])) as Hin by (apply in_or_app; right; by left).
       by rewrite (find_none _ _ Ef _ Hin) in Hap. }
  exists t. split; [done|]. unfold explicit_fallback.
  destruct (fold_option _ _ _) as [combinations|] eqn:Ec; [|exists (task_conditions t); by rewrite Hid].
  assert (forall field, field ∈ condition_fields previous ->
    usage_text usage field = Some (text_of_usage field)) as Hu.
  { intros field Hin. destruct (fields_valued _ _ _ Ec field Hin) as [values Hv].
    by destruct (usage_value field values Hv). }
  destruct (List.filter _ combinations) as [|remaining [|? ?]] eqn:Er;
    try (exists (task_conditions t); by rewrite Hid).
  rewrite find_app in Ef |- *. destruct (List.find (task_applies usage) previous) as [t'|] eqn:Ep.
  { exists (task_conditions t). rewrite Hid. done. }
  assert (picked text_of_usage (condition_fields previous) ∈ [remaining]) as Hin.
  { rewrite <- Er. apply list_elem_of_In, filter_In. split.
    - apply list_elem_of_In. apply (picked_combination schema text_of_usage _ [[]] combinations [] Ec);
        [by left|]. intros field _ values Hv. by destruct (usage_value field values Hv).
    - apply negb_true_iff, not_true_iff_false. rewrite existsb_exists. intros (x & Hx & Hcov).
      rewrite picked_covers in Hcov; [by rewrite (find_none _ _ Ep x Hx) in Hcov|done|].
      intros c Hc. apply (condition_fields_elem previous x); [by apply list_elem_of_In|done]. }
  apply list_elem_of_singleton in Hin as <-. exists (picked text_of_usage (condition_fields previous)).
  cbn [List.find] in Ef |- *. rewrite Hap in Ef. injection Ef as <-. by rewrite picked_applies.
Qed.
End usage.

(** ** The rows of the table *)

Lemma chain_fallback schema b node : forall tiers,
  readTaskTierChain schema b node = Some tiers ->
  exists previous fallback, tiers = previous ++ [fallback] /\ task_conditions fallback = [].
Proof.
  induction node as [node IH] using node_children_ind. intros tiers Ht.
  destruct node as [| | | | |c y m s e];
    try (cbn [readTaskTierChain] in Ht; apply bind_Some in Ht as (t & Hf & [= <-]);
         apply (taskTier_fields (H := plain_collation)) in Hf as [Hc _]; by exists [], t).
  cbn [readTaskTierChain] in Ht. apply bind_Some in Ht as (o & _ & Ht).
  rewrite List.Forall_forall in IH. specialize (IH m ltac:(cbn; auto)).
  destruct o as [|cs]; [by apply IH|].
  apply bind_Some in Ht as (t & _ & Ht). apply bind_Some in Ht as (ts & Hts & [= <-]).
  destruct (IH ts Hts) as (previous & fallback & -> & Hc). by exists (t :: previous), fallback.
Qed.

Lemma table_rows schema expression tiers rows :
  parseTaskTiersFromExpr expression schema true = Ok tiers -> tiers <> [] ->
  getTaskPricingDisplayTiers expression (Some schema) = Ok rows ->
  forall previous fallback, tiers = previous ++ [fallback] ->
  rows = tiers /\ previous = [] \/ rows = explicit_fallback schema tiers previous fallback.
Proof.
  intros Ht Hne Hr previous fallback ->. unfold getTaskPricingDisplayTiers in Hr. cbn [default] in Hr.
  change (id schema) with schema in Hr. rewrite Ht in Hr. cbn [mbind result_bind] in Hr.
  rewrite last_snoc, removelast_last, length_app in Hr.
  destruct (previous ++ [fallback]) as [|x l] eqn:E; [by destruct previous|].
  destruct (Nat.ltb_spec (length previous + length [fallback]) 2) as [Hlt|_]; injection Hr as <-; [left|by right].
  split; [done|]. destruct previous; [done|]. cbn in Hlt. lia.
Qed.

(** C29: the task price table shows what is charged.  When a task expression is
    read as a chain of tiers, the rows of the table are as many as the tiers, and
    a successful evaluation on a usage that conforms to the schema is charged by
    the first row whose conditions hold: the matched tier has the label of the
    row and the cost is its constant plus its unit prices times the usage.  In
    particular the conditions the table adds to the last row, when only one
    combination of values remains for it, hold exactly when that row is charged. *)
Theorem table_rows_hold_the_charge `{Host} clock expression billingExpr rules compiled context
    schema usage tiers rows r :
  splitBillingExprAndRequestRules expression = Ok (billingExpr, rules) ->
  compile billingExpr = inl compiled ->
  parseTaskTiersFromExpr expression schema true = Ok tiers -> tiers <> [] ->
  getTaskPricingDisplayTiers expression (Some schema) = Ok rows ->
  ctx_usage context = Some usage -> conforms schema usage ->
  evaluateCompiled clock compiled context = inl r ->
  length rows = length tiers /\
  exists t, List.find (task_applies usage) rows = Some t /\
    task_cost schema usage t (be_cost r) /\ be_matchedTier r = task_label t.
Proof.
  intros Hsplit Hcomp Ht Hne Hr Hu Hc He.
  assert (readTaskTierChain schema true (ce_ast compiled) = Some tiers) as Hchain.
  { clear Hr. unfold parseTaskTiersFromExpr in Ht. destruct (_ || _); [by injection Ht as <-|].
    rewrite Hsplit in Ht. cbn [mbind result_bind] in Ht. rewrite Hcomp in Ht.
    destruct (readTaskTierChain schema true (ce_ast compiled)); by injection Ht as <-. }
  destruct (chain_fallback schema true _ _ Hchain) as (previous & fallback & -> & Hfb).
  destruct (task_rows_charge clock compiled context schema true usage _ r Hchain Hu Hc He)
    as (t & Hf & Hcost & Hl & _).
  destruct (table_rows _ _ _ _ Ht Hne Hr _ _ eq_refl) as [[-> _]| ->].
  { split; [done|]. by exists t. }
  destruct (explicit_fallback_find schema usage Hc previous fallback Hfb) as (t' & Hf' & cs & Hrow).
  assert (t' = t) as -> by congruence. split.
  - unfold explicit_fallback. destruct (fold_option _ _ _); [|done].
    destruct (List.filter _ _) as [|? [|? ?]]; [done| |done]. by rewrite !length_app.
  - exists (with_conditions cs t). done.
Qed.

(** The last row of [video_source] is shown for the one value that remains. *)
Definition clip_source : str :=
  u "u('quality') == '720p' ? tier('low', u('seconds') * 0.1) : tier('high', u('seconds') * 0.3 + 1)".

Lemma table_rows_hold_the_charge_witness : exists tiers rows r t,
  parseTaskTiersFromExpr clip_source video_schema true = Ok tiers /\
  getTaskPricingDisplayTiers clip_source (Some video_schema) = Ok rows /\
  evaluateCompiled (H := two_zones) 0 (compiled_text clip_source) (usage_context video_usage) = inl r /\
  List.find (task_applies video_usage) rows = Some t /\
  task_conditions t = [TaskCond (u "quality") (u "1080p")] /\
  task_cost video_schema video_usage t (be_cost r).
Proof.
  destruct (parseTaskTiersFromExpr clip_source video_schema true) as [tiers|] eqn:Et; [|by vm_compute in Et].
  destruct (getTaskPricingDisplayTiers clip_source (Some video_schema)) as [rows|] eqn:Er; [|by vm_compute in Er].
  succeeds (evaluateCompiled (H := two_zones) 0 (compiled_text clip_source)
    (usage_context video_usage)) r Ev.
  destruct (table_rows_hold_the_charge (H := two_zones) 0 clip_source clip_source []
    (compiled_text clip_source) (usage_context video_usage) video_schema video_usage tiers rows r)
    as (_ & t & Hf & Hcost & _).
  - vm_compute. reflexivity.
  - vm_compute. reflexivity.
  - exact Et.
  - intros ->. vm_compute in Et. discriminate Et.
  - exact Er.
  - reflexivity.
  - apply video_conforms.
  - exact Ev.
  - exists tiers, rows, r, t. split; [done|]. split; [done|]. split; [done|]. split; [done|]. split; [|done].
    vm_compute in Er. injection Er as <-. vm_compute in Hf. injection Hf as <-. reflexivity.
Defined.

(** ** The row of a settlement *)

Section settlement.
Context `{Host}.

Lemma holds_fact_is usage c : task_holds usage c = true -> fact_is usage c = true.
Proof.
  unfold task_holds, fact_is, usage_text. rewrite bool_decide_eq_true.
  destruct (assoc_get _ _) as [[| |b|x|s| |]|]; try done; intros [= <-]; by apply str_eqb_eq.
Qed.

(** The rows that have the label of [t], up to spelling. *)
Definition same_label (t : TaskTier) (rows : list TaskTier) : list TaskTier :=
  List.filter (fun row => str_eqb (normalizeTierLabel (Some (task_label row)))
                            (normalizeTierLabel (Some (task_label t)))) rows.

Lemma same_label_length t rows :
  nonempty (normalizeTierLabel (Some (task_label t))) = true ->
  length (List.filter (fun c => tierMatchesNormalizedLabel c (normalizeTierLabel (Some (task_label t))))
            (map TaskRow rows)) = length (same_label t rows).
Proof.
  intros Hn. unfold same_label, tierMatchesNormalizedLabel. rewrite Hn. cbn [andb].
  induction rows as [|row rows IH]; [done|]. cbn [map List.filter row_label].
  destruct (str_eqb _ _); cbn [length]; [f_equal|]; exact IH.
Qed.
End settlement.

(** C30: the settlement of a task is shown in the row that was charged.  When
    the engine reports the label of the first row whose conditions hold, that row
    is marked as hit if its label is unique in the table, or if it has conditions
    on usage values only; every row that is marked has the reported label, and
    where several rows have it, the facts of the settlement meet its conditions. *)
Theorem settlement_hits_the_charged_row `{Host} rows usage t :
  List.find (task_applies usage) rows = Some t ->
  nonempty (normalizeTierLabel (Some (task_label t))) = true ->
  let hit row := isBreakdownTierMatched (TaskRow row) (map TaskRow rows) (Some (task_label t))
                   (Some usage) None None in
  (length (same_label t rows) = 1%nat \/ task_conditions t <> [] /\ task_conditionText t = None ->
   hit t = true) /\
  forall row, row ∈ rows -> hit row = true ->
    row ∈ same_label t rows /\
    ((1 < length (same_label t rows))%nat -> forallb (fact_is usage) (task_conditions row) = true).
Proof.
  intros Hf Hn hit. pose proof (find_some _ _ Hf) as [Hin Hap].
  assert (t ∈ same_label t rows) as Hself.
  { apply list_elem_of_In, filter_In. split; [done|apply str_eqb_refl]. }
  assert (forall row, hit row =
    if str_eqb (normalizeTierLabel (Some (task_label row))) (normalizeTierLabel (Some (task_label t))) then
      if (1 <? length (same_label t rows))%nat
      then no_text (task_conditionText row) && (negb (is_nil (task_conditions row))
             && forallb (fact_is usage) (task_conditions row))
      else true
    else false) as Hhit.
  { intros row. unfold hit, isBreakdownTierMatched. cbn [excluded].
    assert (is_nil (List.filter (fun c => tierMatchesNormalizedLabel c
      (normalizeTierLabel (Some (task_label t)))) (map TaskRow rows)) = false) as ->.
    { pose proof (same_label_length t rows Hn) as El. destruct (List.filter _ (map TaskRow rows)); [|done].
      destruct (same_label t rows); [by apply elem_of_nil in Hself|done]. }
    rewrite same_label_length by done. unfold tierMatchesNormalizedLabel. rewrite Hn. done. }
  split.
  - intros Hone. rewrite Hhit, str_eqb_refl. destruct (Nat.ltb_spec 1 (length (same_label t rows))); [|done].
    destruct Hone as [?|[Hc ->]]; [lia|]. cbn [no_text andb]. apply andb_true_iff. split.
    + by destruct (task_conditions t).
    + apply forallb_forall. intros c Hcin. apply holds_fact_is.
      unfold task_applies in Hap. rewrite forallb_forall in Hap. by apply Hap.
  - intros row Hrow Hr. rewrite Hhit in Hr. destruct (str_eqb _ _) eqn:El; [|done]. split.
    + apply list_elem_of_In, filter_In. split; [by apply list_elem_of_In|done].
    + intros Hlt. apply Nat.ltb_lt in Hlt. rewrite Hlt in Hr. rewrite !andb_true_iff in Hr. tauto.
Qed.

Lemma settlement_hits_the_charged_row_witness : exists rows t,
  getTaskPricingDisplayTiers clip_source (Some video_schema) = Ok rows /\
  List.find (task_applies video_usage) rows = Some t /\
  isBreakdownTierMatched (H := two_zones) (TaskRow t) (map TaskRow rows) (Some (task_label t))
    (Some video_usage) None None = true.
Proof.
  destruct (getTaskPricingDisplayTiers clip_source (Some video_schema)) as [rows|] eqn:Er; [|by vm_compute in Er].
  destruct (List.find (task_applies video_usage) rows) as [t|] eqn:Et.
  2: { vm_compute in Er. injection Er as <-. vm_compute in Et. discriminate Et. }
  exists rows, t. split; [done|]. split; [done|].
  apply (settlement_hits_the_charged_row (H := two_zones) rows video_usage t).
  - exact Et.
  - vm_compute in Er. injection Er as <-. vm_compute in Et. injection Et as <-. reflexivity.
  - left. vm_compute in Er. injection Er as <-. vm_compute in Et. injection Et as <-. reflexivity.
Defined.
