(* ===== verification/PricingFacts.v ===== *)
(** * Shown ratios and price ranges

    The group ratio of summary prices, and the ranges of unit prices over the
    tiers of one expression and over providers. *)

From Stdlib Require Import String.
From stdpp Require Import sets.
From S2P Require Import Prelude JsNumber JsString JsText Ast Parser Compile Request BillingTime Runtime JsArray.
From S2P Require Import Display TaskDisplay Regex Json BillingExpr TierExpr TaskExpr TaskTable.
From S2P Require Import Currency PricingModel DynamicPrice TaskFacts TableFacts.

(** ** The best group ratio *)

Lemma finite_ratio_finite v x : finite_ratio v = Some x -> num_is_finite x = true.
Proof. destruct v as [[]|]; try done. cbn. destruct (num_is_finite _) eqn:E; [|done]. by intros [= <-]. Qed.

Lemma min_ratio_spec ratios groups : forall start, numeric start = true ->
  let r := min_ratio ratios groups start in
  numeric r = true /\ le r start /\
  (forall g x, g ∈ groups -> finite_ratio (assoc_get g ratios) = Some x -> le r x) /\
  (r = start \/ exists g, g ∈ groups /\ finite_ratio (assoc_get g ratios) = Some r).
Proof.
  induction groups as [|g groups IH]; intros start Hs; cbn.
  { split; [done|]. split; [by apply le_refl|]. split; [by intros g x ?%elem_of_nil|by left]. }
  set (next := match finite_ratio (assoc_get g ratios) with
               | Some ratio => if num_ltb ratio start then ratio else start | None => start end).
  assert (numeric next = true /\ le next start /\
    (forall x, finite_ratio (assoc_get g ratios) = Some x -> le next x) /\
    (next = start \/ finite_ratio (assoc_get g ratios) = Some next)) as (Hn & Hle & Hx & Heq).
  { unfold next. destruct (finite_ratio (assoc_get g ratios)) as [x|] eqn:E.
    - pose proof (finite_numeric _ (finite_ratio_finite _ _ E)) as Hxn. destruct (num_ltb x start) eqn:El.
      + split; [done|]. split; [by apply lt_le|]. split; [intros y [= <-]; by apply le_refl|by right].
      + split; [done|]. split; [by apply le_refl|]. split; [intros y [= <-]; by apply le_total|by left].
    - split; [done|]. split; [by apply le_refl|]. split; [done|by left]. }
  destruct (IH next Hn) as (Hr & Hrn & Hall & Hex). split; [done|].
  split; [exact (le_trans _ _ _ Hn Hrn Hle)|]. split.
  - intros g' x [->|Hin]%elem_of_cons Hg; [|by eapply Hall]. exact (le_trans _ _ _ Hn Hrn (Hx x Hg)).
  - destruct Hex as [->|(g' & Hin & Hg)]; [|right; exists g'; split; [by right|done]].
    destruct Heq as [->|Heq]; [by left|right]. exists g. split; [by left|done].
Qed.

(** summary prices use the best ratio the viewer can get: without a group
    filter, the ratio shown is the smallest finite ratio configured for a group
    of the model, or 1 when no group has one; with a filter on one of the
    model's groups, it is that group's ratio. *)
Theorem display_ratio_is_the_best model :
  let ratio g := finite_ratio (assoc_get g (default [] (group_ratio model))) in
  let shown := getDisplayGroupRatio model None in
  (forall g x, g ∈ enabled_groups model -> ratio g = Some x -> le shown x) /\
  ((exists g, g ∈ enabled_groups model /\ ratio g = Some shown) \/
   shown = one /\ forall g, g ∈ enabled_groups model -> ratio g = None) /\
  (forall g, g ∈ enabled_groups model -> g <> [] -> g <> FILTER_ALL ->
     getDisplayGroupRatio model (Some g) = default one (ratio g)).
Proof.
  intros ratio shown. pose proof (min_ratio_spec (default [] (group_ratio model)) (enabled_groups model)
    (Infinite false) eq_refl) as (Hn & _ & Hall & Hex). cbn zeta in Hall, Hex. fold ratio in Hall, Hex.
  set (r := min_ratio _ _ _) in *.
  assert (r = Infinite false -> forall g, g ∈ enabled_groups model -> ratio g = None) as Hnone.
  { intros Hr g Hg. destruct (ratio g) as [x|] eqn:E; [|done]. specialize (Hall g x Hg E).
    apply finite_ratio_finite in E. rewrite Hr in Hall. by destruct x. }
  assert (shown = r /\ r <> Infinite false \/
          shown = one /\ forall g, g ∈ enabled_groups model -> ratio g = None) as Hshown.
  { unfold shown, getDisplayGroupRatio. destruct (enabled_groups model) as [|g0 groups] eqn:E.
    { right. split; [done|]. by intros g ?%elem_of_nil. }
    fold r. destruct (num_eqb r (Infinite false)) eqn:Er.
    - right. split; [done|]. apply Hnone. by destruct r as [|[]|].
    - left. split; [done|]. intros Hr. by rewrite Hr in Er. }
  split; [|split].
  - intros g x Hg Hx. destruct Hshown as [[-> _]|[_ Ha]]; [by eapply Hall|]. by rewrite Ha in Hx.
  - destruct Hshown as [[-> Hr]|?]; [|by right]. left. by destruct Hex as [?|?].
  - intros g Hg Hne Hall'. unfold getDisplayGroupRatio.
    replace (nonempty g && negb (str_eqb g FILTER_ALL) && one_of (enabled_groups model) g) with true; [done|].
    symmetry. rewrite !andb_true_iff. split; [split|].
    + by destruct g.
    + apply negb_true_iff, not_true_iff_false. by rewrite str_eqb_eq.
    + by apply one_of_In.
Qed.

(** A model of a catalogue, with its providers, groups, ratios and expression. *)
Definition sample_model variants groups ratios mode expression schema : PricingModel := {|
  billing_plugin_variants := variants; model_name := u "sample"; model_description := None;
  vendor_name := None; quota_type := zero; model_ratio := one; completion_ratio := one;
  model_price := None; cache_ratio := None; create_cache_ratio := None; image_ratio := None;
  audio_ratio := None; audio_completion_ratio := None; enable_groups := groups; tags := None;
  supported_endpoint_types := None; group_ratio := ratios; billing_mode := mode;
  billing_expr := expression; billing_usage_schema := schema; billing_usage_examples := None |}.

(** A group of the model without a configured ratio is charged the ratio 1, and
    is left out of the best ratio: filtering by it shows a lower price than the
    summary of all groups. *)
Lemma best_ratio_skips_a_group : exists model g,
  g ∈ enabled_groups model /\ num_ltb (getDisplayGroupRatio model (Some g)) (getDisplayGroupRatio model None) = true.
Proof.
  exists (sample_model None (Some [u "vip"; u "default"]) (Some [(u "vip", VNumber (of_Z 2))]) None None None),
    (u "default").
  split; [right; left|reflexivity].
Qed.

(** ** Amounts in tokens *)

(** Amounts of a thousand tokens or more are abbreviated unless the caller asks
    for the full number. *)
Lemma token_amounts_are_abbreviated `{NumberFormats} :
  formatCurrencyFromUSD (Some {| displayInCurrency := true; quotaDisplayType := TOKENS;
      quotaPerUnit := of_Z 500000; usdExchangeRate := one; customCurrencySymbol := u "";
      customCurrencyExchangeRate := one |}) (Some (of_Z 10)) None = u "5000k".
Proof. vm_compute. reflexivity. Qed.

(** ** Ranges over the tiers *)

Lemma shown_value_finite v x : shown_value v = Some x -> num_is_finite x = true.
Proof.
  destruct v as [y|]; [|done]. cbn. destruct (num_is_finite y) eqn:E; [|done]. cbn.
  destruct (num_ltb y zero); [done|]. by intros [= <-].
Qed.

(** The shown price of a field in a row. *)
Definition row_price (field : str) (t : DynamicPricingTier) : option number :=
  match t with TaskRow t => shown_value (assoc_get field (task_unitPrices t)) | TokenRow _ => None end.

Lemma price_range_cons field t tiers a b :
  price_range field (t :: tiers) a b =
  match row_price field t with
  | Some x => price_range field tiers (num_min a x) (num_max b x)
  | None => price_range field tiers a b
  end.
Proof. by destruct t. Qed.

Lemma price_range_spec field tiers : forall a b, numeric a = true -> numeric b = true ->
  let range := price_range field tiers a b in
  numeric range.1 = true /\ numeric range.2 = true /\ le range.1 a /\ le b range.2 /\
  (forall t x, t ∈ tiers -> row_price field t = Some x -> le range.1 x /\ le x range.2) /\
  (range.1 = a \/ exists t, t ∈ tiers /\ row_price field t = Some range.1) /\
  (range.2 = b \/ exists t, t ∈ tiers /\ row_price field t = Some range.2).
Proof.
  induction tiers as [|t tiers IH]; intros a b Ha Hb; cbn zeta.
  { cbn. split_and!; auto using le_refl. by intros t x ?%elem_of_nil. }
  rewrite price_range_cons. destruct (row_price field t) as [x|] eqn:Ex.
  2: { destruct (IH a b Ha Hb) as (H1 & H2 & H3 & H4 & H5 & H6 & H7). split_and!; try done.
       - intros t' x [->|Hin]%elem_of_cons; [by rewrite Ex|by apply H5].
       - destruct H6 as [?|(t' & ? & ?)]; [by left|right; exists t'; split; [by right|done]].
       - destruct H7 as [?|(t' & ? & ?)]; [by left|right; exists t'; split; [by right|done]]. }
  assert (numeric x = true) as Hx.
  { destruct t; [done|]. by apply finite_numeric, (shown_value_finite _ _ Ex). }
  destruct (min_spec a x Ha Hx) as (Hm1 & Hm2 & Hm3), (max_spec b x Hb Hx) as (HM1 & HM2 & HM3).
  pose proof (min_numeric a x Ha Hx) as Hmn. pose proof (max_numeric b x Hb Hx) as HMn.
  destruct (IH _ _ Hmn HMn) as (H1 & H2 & H3 & H4 & H5 & H6 & H7). split_and!; try done.
  - exact (le_trans _ _ _ Hmn H3 Hm1).
  - exact (le_trans _ _ _ HMn HM1 H4).
  - intros t' y [->|Hin]%elem_of_cons Hy; [|by apply (H5 t')].
    assert (y = x) as -> by congruence.
    split; [exact (le_trans _ _ _ Hmn H3 Hm2)|exact (le_trans _ _ _ HMn HM2 H4)].
  - destruct H6 as [E|(t' & ? & ?)]; [|right; exists t'; split; [by right|done]].
    destruct Hm3 as [E'|E']; [left; congruence|right; exists t; split; [by left|congruence]].
  - destruct H7 as [E|(t' & ? & ?)]; [|right; exists t'; split; [by right|done]].
    destruct HM3 as [E'|E']; [left; congruence|right; exists t; split; [by left|congruence]].
Qed.

Section ranges.
Context `{Host} `{Collation} `{NumberFormats} (stored : option CurrencyConfig) (clock : Z).

Lemma priceRanges_get schema tiers field range :
  assoc_get field (priceRanges schema tiers) = Some range ->
  range = price_range field tiers (Infinite false) (Infinite true) /\
  num_is_finite range.1 = true /\ num_is_finite range.2 = true.
Proof.
  unfold priceRanges. assert (forall fields ranges,
    (forall field range, assoc_get field ranges = Some range ->
       range = price_range field tiers (Infinite false) (Infinite true) /\
       num_is_finite range.1 = true /\ num_is_finite range.2 = true) ->
    forall field range, assoc_get field (fold_left (fun ranges (e : str * BillingUsageFieldSchema) =>
      let '(min, max) := price_range e.1 tiers (Infinite false) (Infinite true) in
      if num_is_finite min && num_is_finite max then assoc_set e.1 (min, max) ranges else ranges)
      fields ranges) = Some range ->
    range = price_range field tiers (Infinite false) (Infinite true) /\
    num_is_finite range.1 = true /\ num_is_finite range.2 = true) as Hgen; [|by apply Hgen].
  clear. intros fields. induction fields as [|e fields IH]; intros ranges Hr; [done|]. cbn [fold_left].
  apply IH. destruct (price_range e.1 tiers _ _) as [mn mx] eqn:E.
  destruct (num_is_finite mn && num_is_finite mx) eqn:Ef; [|done]. apply andb_true_iff in Ef as [E1 E2].
  intros field range. destruct (decide (e.1 = field)) as [<-|Hne].
  - rewrite assoc_get_set_eq. by intros [= <-].
  - rewrite assoc_get_set_ne by done. apply Hr.
Qed.

(** A field some row shows a price for has a range. *)
Lemma priceRanges_some schema tiers t x e :
  e ∈ getTaskNumberFields schema -> t ∈ tiers -> row_price e.1 t = Some x ->
  exists range, assoc_get e.1 (priceRanges schema tiers) = Some range.
Proof.
  intros He Ht Hx. unfold priceRanges.
  destruct (price_range_spec e.1 tiers (Infinite false) (Infinite true) eq_refl eq_refl)
    as (_ & _ & _ & _ & Hb & Hlo & Hhi). cbn zeta in *. destruct (Hb t x Ht Hx) as [Hb1 Hb2].
  assert (num_is_finite x = true) as Hfx by (destruct t; [done|exact (shown_value_finite _ _ Hx)]).
  assert (forall t y, row_price e.1 t = Some y -> num_is_finite y = true) as Hfin
    by (intros [] y Hy; [done|exact (shown_value_finite _ _ Hy)]).
  assert (num_is_finite (price_range e.1 tiers (Infinite false) (Infinite true)).1 = true /\
    num_is_finite (price_range e.1 tiers (Infinite false) (Infinite true)).2 = true) as [F1 F2].
  { split.
    - destruct Hlo as [E|(t' & _ & E)]; [|by eapply Hfin]. rewrite E in Hb1. by destruct x.
    - destruct Hhi as [E|(t' & _ & E)]; [|by eapply Hfin]. rewrite E in Hb2. by destruct x. }
  assert (forall fields ranges, (exists r, assoc_get e.1 ranges = Some r) \/ e ∈ fields ->
    exists r, assoc_get e.1 (fold_left (fun ranges (e : str * BillingUsageFieldSchema) =>
      let '(min, max) := price_range e.1 tiers (Infinite false) (Infinite true) in
      if num_is_finite min && num_is_finite max then assoc_set e.1 (min, max) ranges else ranges)
      fields ranges) = Some r) as Hgen; [|apply Hgen; by right].
  induction fields as [|d fields IH]; intros ranges Hr; cbn [fold_left].
  { destruct Hr as [?|?%elem_of_nil]; done. }
  apply IH. destruct Hr as [[r Hr]|[<-|Hin]%elem_of_cons]; [| |by right]; left.
  - destruct (price_range d.1 tiers _ _) as [mn mx]. destruct (_ && _); [|by exists r].
    destruct (decide (d.1 = e.1)) as [->|Hne]; [rewrite assoc_get_set_eq; eauto|].
    rewrite assoc_get_set_ne by done. eauto.
  - destruct (price_range e.1 tiers _ _) as [mn mx]. cbn in F1, F2. rewrite F1, F2. cbn.
    rewrite assoc_get_set_eq. eauto.
Qed.

Lemma own_summary_task model options s :
  own_summary stored clock model options = Ok (Some s) -> isTaskUsagePricingModel model = true ->
  ds_entries s = ranged_entries stored options
    (priceRanges (default [] (billing_usage_schema model)) (ds_tiers s))
    (getDynamicPriceEntries stored (list.last (ds_tiers s))
       (with_schema (billing_usage_schema model) options)).
Proof.
  unfold own_summary. intros Hs Ht. destruct (negb _); [done|].
  apply result_bind_ok in Hs as (tiers & _ & Hs). rewrite Ht in Hs.
  apply result_bind_ok in Hs as ([base rules] & _ & Hs). apply result_bind_ok in Hs as (? & [= <-] & Hs).
  cbn [summary_entries] in Hs. apply result_bind_ok in Hs as (b & _ & [= <-]). done.
Qed.

Lemma last_elem {A} (l : list A) x : list.last l = Some x -> x ∈ l.
Proof. intros Hl. apply last_Some in Hl as [l' ->]. apply elem_of_app. right. by left. Qed.

Lemma token_entries_kind options t e :
  e ∈ token_entries stored options t -> de_labelKind e = Label_i18n.
Proof.
  unfold token_entries. generalize BILLING_PRICING_VARS. intros vars He.
  apply elem_of_app in He as [He|He];
    apply list_elem_of_In, filter_In in He as [He _]; apply list_elem_of_In, list_elem_of_omap in He as (v & _ & Hv);
    apply bind_Some in Hv as (field & _ & Hv); apply bind_Some in Hv as (x & _ & Hv);
    (destruct (_ && _ && _); [discriminate Hv|]); injection Hv as <-; reflexivity.
Qed.

(** An entry with a schema label shows the price of the last tier. *)
Lemma schema_entry tier options schema e :
  dp_usageSchema options = Some schema ->
  e ∈ getDynamicPriceEntries stored tier options -> de_labelKind e = Label_schema ->
  exists t f, tier = Some t /\ (de_field e, f) ∈ getTaskNumberFields schema /\
    row_price (de_field e) t = Some (de_value e).
Proof.
  intros Hsch He Hk.
  destruct tier as [[t|t]|]; cbn [getDynamicPriceEntries] in He; [| |by apply elem_of_nil in He].
  - exfalso. assert (e ∈ token_entries stored options t -> False) as Htok.
    { intros Hin%token_entries_kind. congruence. }
    destruct (pt_billingUnit t) as [[]|]; [by apply Htok| |by apply Htok].
    destruct (pt_fixedPrice t); [|by apply Htok].
    apply list_elem_of_singleton in He. rewrite He in Hk. discriminate Hk.
  - rewrite Hsch in He. unfold task_entries in He. apply elem_of_app in He as [He|He].
    + apply list_elem_of_omap in He as ([k f] & Hin & Hv). unfold usage_entry in Hv.
      apply bind_Some in Hv as (x & Hx & Hv). apply bind_Some in Hv as (un & _ & [= <-]).
      exists (TaskRow t), f. done.
    + destruct (num_gtb _ _); [|by apply elem_of_nil in He].
      apply list_elem_of_singleton in He. by subst e.
Qed.
End ranges.

(** the price range on a card is the range of the tiers.  In the summary of
    a model billed by usage, every usage price comes with a lower and an upper
    bound: every tier that has a price for the field lies between them, both
    bounds are prices of tiers, the price itself is one of the prices between
    them, and a range is printed exactly when the bounds differ. *)
Theorem summary_ranges_are_tight `{Host} `{Collation} `{NumberFormats} stored clock model options s e :
  own_variants model = [] ->
  getDynamicPricingSummary stored clock model options = Ok (Some s) ->
  isTaskUsagePricingModel model = true ->
  e ∈ ds_entries s -> de_labelKind e = Label_schema ->
  exists lo hi, de_minValue e = Some lo /\ de_maxValue e = Some hi /\
    (forall t x, t ∈ ds_tiers s -> row_price (de_field e) t = Some x -> le lo x /\ le x hi) /\
    (exists t, t ∈ ds_tiers s /\ row_price (de_field e) t = Some lo) /\
    (exists t, t ∈ ds_tiers s /\ row_price (de_field e) t = Some hi) /\
    le lo (de_value e) /\ le (de_value e) hi /\
    (de_formattedRange e = None <-> num_eqb lo hi = true).
Proof.
  intros Hv Hs Ht He Hk. unfold getDynamicPricingSummary in Hs. rewrite Hv in Hs.
  pose proof (own_summary_task _ _ _ _ _ Hs Ht) as Ee. rewrite Ee in He. clear Ee Hs.
  unfold ranged_entries in He. apply list_elem_of_In, in_map_iff in He as (e0 & <- & He).
  assert (exists schema, billing_usage_schema model = Some schema) as [schema Hsch].
  { unfold isTaskUsagePricingModel, hasTaskUsageSchema in Ht. apply andb_true_iff in Ht as [_ Ht].
    destruct (billing_usage_schema model); [eauto|done]. }
  apply list_elem_of_In in He. rewrite Hsch in He, Hk |- *. cbn [default] in Hk |- *.
  change (id schema) with schema in *.
  set (range := assoc_get (de_field e0) (priceRanges schema (ds_tiers s))) in *.
  assert (de_labelKind e0 = Label_schema) as Hk0 by by destruct range.
  destruct (schema_entry _ _ (with_schema (Some schema) options) schema _ eq_refl He Hk0) as (t & f & Hl & Hin & Hp).
  apply last_elem in Hl.
  destruct (priceRanges_some schema (ds_tiers s) t _ _ Hin Hl Hp) as [[lo hi] Hr]. cbn [fst] in Hr.
  unfold range. rewrite Hr.
  destruct (priceRanges_get _ _ _ _ Hr) as (Hrange & Hflo & Hfhi). cbn [fst snd] in Hflo, Hfhi.
  destruct (price_range_spec (de_field e0) (ds_tiers s) (Infinite false) (Infinite true) eq_refl eq_refl)
    as (_ & _ & _ & _ & Hb & Hlo & Hhi). cbn zeta in Hb, Hlo, Hhi. rewrite <- Hrange in Hb, Hlo, Hhi.
  cbn [fst snd] in *. destruct (Hb t _ Hl Hp) as [Hb1 Hb2].
  exists lo, hi. split; [done|]. split; [done|]. cbn [with_range de_field de_value de_formattedRange].
  split; [exact Hb|]. split; [destruct Hlo as [->|?]; [done|done]|].
  split; [destruct Hhi as [->|?]; [done|done]|]. split; [done|]. split; [done|].
  unfold format_range. cbn [fst snd]. by destruct (num_eqb lo hi).
Qed.

(** Number formats that print a number as the language does. *)
Definition plain_formats : NumberFormats := {|
  number_format := fun _ => number_to_string;
  power_of_ten := fun n => num_div one (of_Z (10 ^ Z.of_nat n));
|}.

(** A model billed by its usage, with two prices of a second of video. *)
Definition clip_model : PricingModel :=
  sample_model None None None (Some (u "tiered_expr")) (Some clip_source) (Some video_schema).

Definition clip_options : DynamicPriceOptions := {|
  dp_tokenUnit := Per_M; dp_showCurrencySymbol := None; dp_showRechargePrice := None;
  dp_priceRate := None; dp_usdExchangeRate := None; dp_groupRatioMultiplier := None;
  dp_usageSchema := None; dp_now := None |}.

Lemma summary_ranges_are_tight_witness : exists s e lo hi,
  getDynamicPricingSummary (H := two_zones) (H0 := plain_collation) (H1 := plain_formats)
    None 0 clip_model clip_options = Ok (Some s) /\
  e ∈ ds_entries s /\ de_field e = u "seconds" /\
  de_minValue e = Some lo /\ de_maxValue e = Some hi /\
  le lo (de_value e) /\ le (de_value e) hi /\ num_eqb lo hi = false /\ de_formattedRange e <> None.
Proof.
  destruct (getDynamicPricingSummary (H := two_zones) (H0 := plain_collation) (H1 := plain_formats)
    None 0 clip_model clip_options) as [[s|]|] eqn:Es; [|by vm_compute in Es|by vm_compute in Es].
  destruct (ds_entries s) as [|e rest] eqn:Ee.
  { vm_compute in Es. injection Es as <-. discriminate Ee. }
  assert (de_field e = u "seconds" /\ de_labelKind e = Label_schema /\ de_formattedRange e <> None) as (Hf & Hk & Hr).
  { vm_compute in Es. injection Es as <-. injection Ee as <- _. repeat split; discriminate. }
  destruct (summary_ranges_are_tight (H := two_zones) (H0 := plain_collation) (H1 := plain_formats)
    None 0 clip_model clip_options s e) as (lo & hi & Hlo & Hhi & _ & _ & _ & L1 & L2 & Hp).
  - reflexivity.
  - exact Es.
  - reflexivity.
  - rewrite Ee. left.
  - exact Hk.
  - exists s, e, lo, hi. split; [reflexivity|]. clear Es. rewrite Ee. split; [by left|].
    repeat (split; [assumption|]). split; [|exact Hr].
    destruct (num_eqb lo hi); [|reflexivity]. destruct Hr. by apply Hp.
Defined.
