(* ===== verification/ProviderFacts.v ===== *)
(** * Prices over several providers

    A model offered by several plugins shows one price per field and unit, from
    the smallest to the largest of the providers' prices. *)

From Stdlib Require Import String.
From stdpp Require Import sets.
From S2P Require Import Prelude JsNumber JsString JsText Ast Parser Compile Request BillingTime Runtime JsArray.
From S2P Require Import Display TaskDisplay Regex Json BillingExpr TierExpr TaskExpr TaskTable.
From S2P Require Import Currency PricingModel DynamicPrice TaskFacts TableFacts PricingFacts.

(** ** Keys of ranges *)

(** A unit's text has no colon, so field and unit can be read off the key. *)
Lemma range_key_inj e e' :
  range_key e = range_key e' -> de_field e = de_field e' /\ de_unit e = de_unit e'.
Proof.
  unfold range_key. destruct (de_unit e) as [[]| |], (de_unit e') as [[]| |]; intros E;
    first [ apply app_inv_tail in E; done
          | exfalso; apply (f_equal (@rev N)) in E; rewrite !rev_app_distr in E; discriminate E ].
Qed.

Lemma assoc_get_of {V} (k : str) (v : V) l : NoDup l.*1 -> (k, v) ∈ l -> assoc_get k l = Some v.
Proof.
  induction l as [|[k' w] l IH]; [by intros _ ?%elem_of_nil|].
  intros [Hk Hl]%list.NoDup_cons [[= -> ->]|Hin]%elem_of_cons; cbn; [by rewrite decide_True|].
  rewrite decide_False; [by apply IH|]. intros ->. apply Hk. apply list_elem_of_fmap. by exists (k, v).
Qed.

(** ** Merging the providers' entries *)

(** The bounds of an entry: its range, or its price. *)
Definition low (e : DynamicPriceEntry) : number := default (de_value e) (de_minValue e).
Definition high (e : DynamicPriceEntry) : number := default (de_value e) (de_maxValue e).

Definition measured (e : DynamicPriceEntry) : Prop := numeric (low e) = true /\ numeric (high e) = true.

(** Prices of the same field in the same unit. *)
Definition same_price (e e' : DynamicPriceEntry) : Prop := de_field e = de_field e' /\ de_unit e = de_unit e'.

(** [ranges] merges the entries [seen] so far. *)
Record merges (seen : list DynamicPriceEntry) (ranges : list (str * ProviderRange)) : Prop := {
  merges_keys : NoDup ranges.*1;
  merges_covers : forall e, e ∈ seen -> exists r, assoc_get (range_key e) ranges = Some r /\
    le (rng_min r) (low e) /\ le (high e) (rng_max r);
  merges_attains : forall k r, assoc_get k ranges = Some r ->
    (exists e, e ∈ seen /\ range_key e = k /\ same_price (rng_entry r) e) /\
    (exists e, e ∈ seen /\ range_key e = k /\ low e = rng_min r) /\
    (exists e, e ∈ seen /\ range_key e = k /\ high e = rng_max r);
}.

Lemma min_start x : numeric x = true -> num_min (Infinite false) x = x.
Proof. by destruct x as [|[]|]. Qed.
Lemma max_start x : numeric x = true -> num_max (Infinite true) x = x.
Proof. by destruct x as [|[]|]. Qed.

Lemma merges_nil : merges [] [].
Proof. split; [apply base.NoDup_nil_2|by intros e ?%elem_of_nil|done]. Qed.

(** Merging labels keeps field and unit. *)
Lemma merged_entry_price range key e :
  same_price (merged_entry range key e) (match range with Some r => rng_entry r | None => e end).
Proof. unfold merged_entry. by destruct range, (no_label _). Qed.

(** The range an entry is merged into. *)
Lemma merged_range seen ranges e : merges seen ranges -> (forall e, e ∈ seen -> measured e) -> measured e ->
  exists r, assoc_get (range_key e) (add_range ranges e) = Some r /\
    le (rng_min r) (low e) /\ le (high e) (rng_max r) /\
    (forall old, assoc_get (range_key e) ranges = Some old ->
       le (rng_min r) (rng_min old) /\ le (rng_max old) (rng_max r) /\
       numeric (rng_min old) = true /\ numeric (rng_max old) = true /\
       same_price (rng_entry r) (rng_entry old) /\
       (rng_min r = low e \/ rng_min r = rng_min old) /\ (rng_max r = high e \/ rng_max r = rng_max old)) /\
    (assoc_get (range_key e) ranges = None ->
       same_price (rng_entry r) e /\ rng_min r = low e /\ rng_max r = high e).
Proof.
  intros Hm Hs [Hl Hh]. unfold add_range. rewrite assoc_get_set_eq. eexists. split; [done|].
  cbn [rng_min rng_max rng_entry]. fold (low e) (high e).
  pose proof (merged_entry_price (assoc_get (range_key e) ranges) (range_key e) e) as Hprice.
  destruct (assoc_get (range_key e) ranges) as [old|] eqn:E.
  - destruct (merges_attains _ _ Hm _ _ E) as (_ & (e1 & H1 & _ & L1) & (e2 & H2 & _ & L2)).
    assert (numeric (rng_min old) = true) as Hn1 by (rewrite <- L1; by apply Hs).
    assert (numeric (rng_max old) = true) as Hn2 by (rewrite <- L2; by apply Hs).
    destruct (min_spec _ _ Hn1 Hl) as (? & ? & Hmin), (max_spec _ _ Hn2 Hh) as (? & ? & Hmax).
    split; [done|]. split; [done|]. split; [|done]. intros ? [= <-]. tauto.
  - rewrite min_start, max_start by done. split_and!; try done; by apply le_refl.
Qed.

Lemma add_range_other ranges e k :
  k <> range_key e -> assoc_get k (add_range ranges e) = assoc_get k ranges.
Proof. intros Hk. by apply assoc_get_set_ne. Qed.

Lemma merges_step seen ranges e : merges seen ranges -> (forall e, e ∈ seen -> measured e) -> measured e ->
  merges (seen ++ [e]) (add_range ranges e).
Proof.
  intros Hm Hs He. destruct (merged_range _ _ _ Hm Hs He) as (r & Hr & Hl & Hh & Hold & Hnew).
  assert (forall x, x ∈ seen -> x ∈ seen ++ [e]) as Hin by (intros; apply elem_of_app; by left).
  assert (e ∈ seen ++ [e]) as Hine by (apply elem_of_app; right; by left).
  split.
  - apply assoc_set_NoDup, Hm.
  - intros x [Hx| ->%list_elem_of_singleton]%elem_of_app; [|by exists r].
    destruct (merges_covers _ _ Hm x Hx) as (old & Ho & Hl' & Hh').
    destruct (decide (range_key x = range_key e)) as [E|E]; [|exists old; by rewrite add_range_other].
    exists r. rewrite E. split; [done|]. rewrite E in Ho.
    destruct (Hold _ Ho) as (Hl2 & Hh2 & Hn1 & Hn2 & _).
    split; [exact (le_trans _ _ _ Hn1 Hl2 Hl')|exact (le_trans _ _ _ Hn2 Hh' Hh2)].
  - intros k r' Hk. destruct (decide (k = range_key e)) as [->|E].
    2: { rewrite add_range_other in Hk by done.
         destruct (merges_attains _ _ Hm _ _ Hk) as ((x & ? & ?) & (y & ? & ?) & (z & ? & ?)).
         split_and!; [exists x|exists y|exists z]; split; auto. }
    rewrite Hr in Hk. injection Hk as <-.
    destruct (assoc_get (range_key e) ranges) as [old|] eqn:Eo.
    + destruct (Hold _ eq_refl) as (_ & _ & _ & _ & Ee & E1 & E2).
      destruct (merges_attains _ _ Hm _ _ Eo) as ((x & ? & ? & ?) & (y & ? & ? & ?) & (z & ? & ? & ?)).
      split_and!.
      * exists x. unfold same_price in *. split_and!; auto; intuition congruence.
      * destruct E1; [by exists e|exists y; split_and!; auto; congruence].
      * destruct E2; [by exists e|exists z; split_and!; auto; congruence].
    + destruct (Hnew eq_refl) as (Ee & E1 & E2). split_and!; by exists e.
Qed.

Lemma merges_all entries : forall seen ranges, merges seen ranges ->
  (forall e, e ∈ seen ++ entries -> measured e) -> merges (seen ++ entries) (fold_left add_range entries ranges).
Proof.
  induction entries as [|e entries IH]; intros seen ranges Hm Hs; cbn; [by rewrite app_nil_r|].
  replace (seen ++ e :: entries) with ((seen ++ [e]) ++ entries) in * by by rewrite <- app_assoc.
  apply IH; [|done]. apply merges_step; [done| |].
  - intros x Hx. apply Hs. apply elem_of_app. left. apply elem_of_app. by left.
  - apply Hs. apply elem_of_app. left. apply elem_of_app. right. by left.
Qed.

(** What the list of merged entries shows of the entries of the providers. *)
Record shows (seen shown : list DynamicPriceEntry) : Prop := {
  shows_once : NoDup (map (fun r => (de_field r, de_unit r)) shown);
  shows_covers : forall e, e ∈ seen -> exists r lo hi, r ∈ shown /\ same_price r e /\
    de_minValue r = Some lo /\ de_maxValue r = Some hi /\ le lo (low e) /\ le (high e) hi;
  shows_attained : forall r, r ∈ shown -> exists lo hi, de_minValue r = Some lo /\ de_maxValue r = Some hi /\
    de_value r = lo /\ (de_formattedRange r = None <-> num_eqb lo hi = true) /\
    (exists e, e ∈ seen /\ same_price e r /\ low e = lo) /\
    (exists e, e ∈ seen /\ same_price e r /\ high e = hi);
}.

Section provider_entries.
Context `{NumberFormats} (stored : option CurrencyConfig) (options : DynamicPriceOptions).

Lemma ranged_bounds r : let e := ranged_entry stored options r in
  de_minValue e = Some (rng_min r) /\ de_maxValue e = Some (rng_max r) /\ de_value e = rng_min r /\
  (de_formattedRange e = None <-> num_eqb (rng_min r) (rng_max r) = true).
Proof. cbn. unfold format_range. split_and!; try done. by destruct (num_eqb _ _). Qed.

(** A range is shown for the field and unit of its key. *)
Lemma merged_key seen ranges k r : merges seen ranges -> (k, r) ∈ ranges ->
  assoc_get k ranges = Some r /\
  forall e, range_key e = k -> same_price (ranged_entry stored options r) e.
Proof.
  intros Hm Hin. pose proof (assoc_get_of _ _ _ (merges_keys _ _ Hm) Hin) as Hk. split; [done|].
  intros e He. destruct (merges_attains _ _ Hm _ _ Hk) as ((x & _ & Hx & E1 & E2) & _).
  unfold same_price. cbn [ranged_entry de_field de_unit]. rewrite E1, E2. apply range_key_inj. congruence.
Qed.

Lemma merged_once ranges : forall seen, merges seen ranges ->
  NoDup (map (fun e => (de_field e, de_unit e)) (map (fun e => ranged_entry stored options e.2) ranges)).
Proof.
  intros seen Hm. rewrite map_map. pose proof (merges_keys _ _ Hm) as Hnd.
  assert (forall k r, (k, r) ∈ ranges -> range_key (ranged_entry stored options r) = k) as Hkey.
  { intros k r Hin. destruct (merged_key _ _ _ _ Hm Hin) as [Hk Hall].
    destruct (merges_attains _ _ Hm _ _ Hk) as ((x & _ & Hx & _) & _).
    destruct (Hall x Hx) as [E1 E2]. unfold range_key in *. by rewrite E1, E2. }
  clear Hm. induction ranges as [|[k r] ranges IH]; cbn; [apply base.NoDup_nil_2|].
  apply list.NoDup_cons in Hnd as [Hk Hnd]. apply list.NoDup_cons. split.
  - intros Hin. apply Hk. apply list_elem_of_In, in_map_iff in Hin as ([k' r'] & E & Hin).
    apply list_elem_of_In in Hin. cbn in E. injection E as E1 E2.
    apply list_elem_of_fmap. exists (k', r'). split; [|done]. cbn.
    rewrite <- (Hkey k r) by (by left). rewrite <- (Hkey k' r') by (by right).
    unfold range_key. cbn. by rewrite E1, E2.
  - apply IH; [done|]. intros k' r' Hin. apply Hkey. by right.
Qed.

Lemma provider_entries_show entries : (forall e, e ∈ concat entries -> measured e) ->
  shows (concat entries) (provider_entries stored options entries).
Proof.
  intros He. unfold provider_entries. set (seen := concat entries) in *.
  pose proof (merges_all seen [] [] merges_nil He) as Hm. cbn [app] in Hm.
  set (ranges := fold_left add_range seen []) in *. split.
  - exact (merged_once _ _ Hm).
  - intros e Hin. destruct (merges_covers _ _ Hm e Hin) as (r & Hr & Hl & Hh).
    apply assoc_get_In in Hr. destruct (merged_key _ _ _ _ Hm Hr) as [_ Hall].
    exists (ranged_entry stored options r), (rng_min r), (rng_max r). split; [|by split; [apply Hall|]].
    apply list_elem_of_In, in_map_iff. exists (range_key e, r). split; [done|]. by apply list_elem_of_In.
  - intros e Hin. apply list_elem_of_In, in_map_iff in Hin as ([k r] & <- & Hin). apply list_elem_of_In in Hin.
    destruct (merged_key _ _ _ _ Hm Hin) as [Hk Hall]. cbn [snd].
    destruct (merges_attains _ _ Hm _ _ Hk) as (_ & (x & Hx & Kx & Lx) & (y & Hy & Ky & Ly)).
    destruct (ranged_bounds r) as (B1 & B2 & B3 & B4). exists (rng_min r), (rng_max r).
    destruct (Hall x Kx), (Hall y Ky). split_and!; try done; [exists x|exists y]; done.
Qed.
End provider_entries.

(** C31: prices over several providers.  When a model is offered by several
    plugins, its summary shows one price per field and unit of the providers'
    summaries (and of the price per request): the range of every provider's price lies
    in the shown range, both ends of the shown range are prices of a provider for the
    same field in the same unit, the price shown first is the lower end, and a
    range is printed exactly when the ends differ.  Every entry is listed
    either as a primary or as a secondary price. *)
Theorem provider_ranges_cover_all_providers `{Host} `{Collation} `{NumberFormats}
    stored clock model options variants found s :
  own_variants model = variants -> variants <> [] ->
  map_result (fun v => own_summary stored clock (withPluginPricing model v) options) variants = Ok found ->
  getDynamicPricingSummary stored clock model options = Ok (Some s) ->
  let prices := concat (map ds_entries (omap (M := list) (fun s => s) found)
                        ++ [per_call_entries stored model options variants]) in
  (forall e, e ∈ prices -> measured e) ->
  shows prices (ds_entries s) /\
  (forall e, e ∈ ds_entries s <-> e ∈ ds_primaryEntries s \/ e ∈ ds_secondaryEntries s).
Proof.
  intros Hv Hne Hf Hs prices Hm. unfold getDynamicPricingSummary in Hs. rewrite Hv in Hs.
  destruct variants as [|v variants]; [done|]. apply result_bind_ok in Hs as (s' & Hs & [= <-]).
  unfold providers_summary in Hs. rewrite Hf in Hs. injection Hs as <-. cbn [ds_entries ds_primaryEntries ds_secondaryEntries].
  split; [by apply provider_entries_show|].
  intros e. unfold sort_first. rewrite elem_of_app, !list_elem_of_In, !filter_In.
  set (shown := provider_entries _ _ _). set (primary := one_of _ _).
  destruct primary, (is_provider_primary e); cbn; tauto.
Qed.

(** A clip offered by two providers, at different prices of a second. *)
Definition clip_variant (key expr : str) : BillingPluginVariant := {|
  pv_plugin_key := key; pv_billing_expr := expr; pv_billing_mode := None;
  pv_billing_usage_schema := video_schema; pv_billing_usage_examples := None |}.

Definition two_providers : list BillingPluginVariant :=
  [clip_variant (u "first") clip_source;
   clip_variant (u "second") (u "tier('flat', u('seconds') * 0.5)")].

Definition offered_clip : PricingModel := sample_model (Some two_providers) None None None None None.

Lemma provider_ranges_cover_all_providers_witness : exists found s prices,
  map_result (fun v => own_summary (H := two_zones) (H0 := plain_collation) (H1 := plain_formats)
    None 0 (withPluginPricing offered_clip v) clip_options) two_providers = Ok found /\
  getDynamicPricingSummary (H := two_zones) (H0 := plain_collation) (H1 := plain_formats)
    None 0 offered_clip clip_options = Ok (Some s) /\
  length prices = 3%nat /\ length (ds_entries s) = 2%nat /\ shows prices (ds_entries s).
Proof.
  destruct (map_result (fun v => own_summary (H := two_zones) (H0 := plain_collation) (H1 := plain_formats)
    None 0 (withPluginPricing offered_clip v) clip_options) two_providers) as [found|] eqn:Ef;
    [|by vm_compute in Ef].
  destruct (getDynamicPricingSummary (H := two_zones) (H0 := plain_collation) (H1 := plain_formats)
    None 0 offered_clip clip_options) as [[s|]|] eqn:Es; [|by vm_compute in Es|by vm_compute in Es].
  destruct (provider_ranges_cover_all_providers (H := two_zones) (H0 := plain_collation) (H1 := plain_formats)
    None 0 offered_clip clip_options two_providers found s) as [Hshows _].
  - reflexivity.
  - discriminate.
  - exact Ef.
  - exact Es.
  - vm_compute in Ef. injection Ef as <-. intros e He.
    apply list_elem_of_In in He. destruct He as [<-|[<-|[<-|[]]]]; by split.
  - eexists found, s, _. split; [reflexivity|]. split; [reflexivity|]. split; [|split; [|exact Hshows]].
    + vm_compute in Ef. injection Ef as <-. reflexivity.
    + vm_compute in Es. injection Es as <-. reflexivity.
Defined.

(** ** Prices of tokens over providers *)

(** The token prices of a single provider are shown in the chosen unit; merged
    over providers they are shown for a million tokens in either unit. *)
Definition chat_provider : PricingModel :=
  sample_model (Some [{| pv_plugin_key := u "chat"; pv_billing_expr := u "tier('base', p * 2)";
    pv_billing_mode := None; pv_billing_usage_schema := []; pv_billing_usage_examples := None |}])
    None None None None None.

Definition thousand_options : DynamicPriceOptions := {|
  dp_tokenUnit := Per_K; dp_showCurrencySymbol := None; dp_showRechargePrice := None;
  dp_priceRate := None; dp_usdExchangeRate := None; dp_groupRatioMultiplier := None;
  dp_usageSchema := None; dp_now := None |}.

Definition shown_per_thousand (model : PricingModel) : list str :=
  match getDynamicPricingSummary (H := two_zones) (H0 := plain_collation) (H1 := plain_formats)
          None 0 model thousand_options with
  | Ok (Some s) => map de_formatted (ds_entries s)
  | _ => []
  end.

Lemma provider_token_price_ignores_the_unit :
  (shown_per_thousand chat_provider = [u "2"]) /\
  (flat_map (fun v => shown_per_thousand (withPluginPricing chat_provider v)) (own_variants chat_provider)
   = [u "0.002"]).
Proof. vm_compute. split; reflexivity. Qed.
