(* ===== verification/CatalogFacts.v ===== *)
(** * The list of models

    What the search, the filters and the orders of the catalogue select and in
    which order. *)

From Stdlib Require Import String Sorting.Sorted Sorting.Permutation.
From stdpp Require Import sets.
From S2P Require Import Prelude JsNumber JsArray JsString JsText Ast Parser Compile Request BillingTime Runtime.
From S2P Require Import Display TaskDisplay Regex Json BillingExpr TierExpr TaskExpr TaskTable.
From S2P Require Import Currency PricingModel DynamicPrice Catalog TaskFacts TableFacts PricingFacts.

#[local] Open Scope Z_scope.

(** ** What the filters select *)

Section selection.
Context `{Host} `{Collation}.

Definition found (query : str) (m : PricingModel) : bool :=
  negb (nonempty query) || existsb (mentions (toLowerCase query))
    [Some (model_name m); model_description m; tags m; vendor_name m].
Definition chosen (all option_ : str) (p : bool) : bool := str_eqb option_ all || p.

(** The bucket of a model: usage, tokens or requests. *)
Definition in_bucket (quotaType : str) (m : PricingModel) : bool :=
  if str_eqb quotaType QUOTA_TYPES_TASK then hasTaskUsageSchema m
  else negb (hasTaskUsageSchema m)
       && num_eqb (quota_type m) (if str_eqb quotaType QUOTA_TYPES_TOKEN then QUOTA_TOKEN else QUOTA_REQUEST).

Definition selected (f : Filters) (m : PricingModel) : bool :=
  found (fl_search f) m
  && chosen FILTER_ALL (fl_vendor f) (bool_decide (vendor_name m = Some (fl_vendor f)))
  && chosen FILTER_ALL (fl_group f) (one_of (default [] (enable_groups m)) (fl_group f))
  && chosen QUOTA_TYPES_ALL (fl_quotaType f) (in_bucket (fl_quotaType f) m)
  && chosen ENDPOINT_TYPES_ALL (fl_endpointType f)
       (one_of (default [] (supported_endpoint_types m)) (fl_endpointType f))
  && chosen FILTER_ALL (fl_tag f) (one_of (map toLowerCase (parseTags (tags m))) (toLowerCase (fl_tag f))).

Lemma filter_filter {A} (p q : A -> bool) l :
  List.filter p (List.filter q l) = List.filter (fun x => q x && p x) l.
Proof. induction l as [|x l IH]; cbn; [done|]. destruct (q x); cbn; [|done]. by rewrite IH. Qed.
Lemma filter_true {A} (l : list A) : List.filter (fun _ => true) l = l.
Proof. induction l as [|x l IH]; cbn; [done|]. by rewrite IH. Qed.

Lemma search_filter models query : filterBySearch models query = List.filter (found query) models.
Proof.
  unfold filterBySearch, found. destruct (nonempty query); cbn [negb orb]; [|by rewrite filter_true].
  apply filter_ext. intros m. cbn [existsb]. by rewrite orb_false_r, !orb_assoc.
Qed.
Lemma chosen_filter all option_ (p : PricingModel -> bool) models :
  (if str_eqb option_ all then models else List.filter p models) =
  List.filter (fun m => chosen all option_ (p m)) models.
Proof. unfold chosen. destruct (str_eqb option_ all); cbn; [by rewrite filter_true|done]. Qed.
Lemma bucket_filter models quotaType :
  filterByQuotaType models quotaType =
  List.filter (fun m => chosen QUOTA_TYPES_ALL quotaType (in_bucket quotaType m)) models.
Proof.
  rewrite <- chosen_filter. unfold filterByQuotaType, in_bucket. destruct (str_eqb quotaType QUOTA_TYPES_ALL); [done|].
  destruct (str_eqb quotaType QUOTA_TYPES_TASK); [done|]. apply filter_ext. intros m. apply andb_comm.
Qed.

Lemma filters_select models f :
  filterAndSortModels models f = sortModels (List.filter (selected f) models) (fl_sortBy f).
Proof.
  unfold filterAndSortModels. f_equal. rewrite search_filter, bucket_filter.
  unfold filterByVendor, filterByGroup, filterByEndpointType, filterByTag. cbn zeta.
  rewrite !chosen_filter, !filter_filter. apply filter_ext. intros m. unfold selected.
  by rewrite !andb_assoc.
Qed.

(** The price of a model is a number to compare by. *)
Definition priced (m : PricingModel) : Prop :=
  valid (getModelPrice m) = true /\ num_is_finite (getModelPrice m) = true.

Lemma dearer_order a b : priced a -> priced b -> dearer a b = num_gtb (getModelPrice a) (getModelPrice b).
Proof. intros [? ?] [? ?]. by apply sub_positive. Qed.

Definition cheap_first (a b : PricingModel) : Prop := le (getModelPrice a) (getModelPrice b).

Lemma dearer_R a b : priced a -> priced b -> if dearer a b then cheap_first b a else cheap_first a b.
Proof.
  intros Ha Hb. rewrite dearer_order by done. unfold num_gtb, cheap_first.
  destruct (num_ltb _ _) eqn:E; [by apply lt_le|]. destruct Ha as [_ Ha], Hb as [_ Hb].
  by apply le_total; [apply finite_numeric..|].
Qed.
Lemma cheap_first_trans a b c : priced a -> priced b -> priced c ->
  cheap_first a b -> cheap_first b c -> cheap_first a c.
Proof. intros _ [_ Hb] _. apply le_trans. by apply finite_numeric. Qed.

Lemma equal_not_dearer a b : priced a -> priced b ->
  num_eqb (getModelPrice a) (getModelPrice b) = true -> dearer a b = false.
Proof.
  intros Ha Hb. rewrite dearer_order by done. unfold num_eqb, num_gtb, num_ltb.
  rewrite (num_compare_sym (getModelPrice a)). by destruct (num_compare _ _) as [[]|].
Qed.
End selection.

Lemma same_price_not_dearer a b : priced a -> priced b ->
  getModelPrice a = getModelPrice b -> dearer a b = false.
Proof.
  intros Ha Hb E. apply equal_not_dearer; [done..|]. rewrite E. unfold num_eqb.
  destruct Hb as [_ Hb]. destruct (getModelPrice b); [done..|]. by rewrite num_compare_refl.
Qed.

Lemma priced_elem l x : Forall priced l -> x ∈ l -> priced x.
Proof. rewrite Forall_forall. intros Hl Hx. by apply Hl, list_elem_of_In. Qed.

(** C32: the list of models shows exactly the models that meet the search and
    every filter, each as often as it is in the catalogue.  By price, where the
    prices are finite, the list is in order of the price, and models of the same
    price keep the order of the catalogue.  A model billed by tokens or by
    request is in exactly one of the buckets tokens, requests and tasks. *)
Theorem catalogue_selects_and_orders `{Host} `{Collation} models f :
  let result := filterAndSortModels models f in
  Permutation result (List.filter (selected f) models) /\
  (Forall priced models -> fl_sortBy f = SORT_PRICE_LOW -> StronglySorted cheap_first result) /\
  (Forall priced models -> fl_sortBy f = SORT_PRICE_HIGH -> StronglySorted (flip cheap_first) result) /\
  (Forall priced models -> fl_sortBy f = SORT_PRICE_LOW \/ fl_sortBy f = SORT_PRICE_HIGH -> forall x,
     List.filter (fun m => bool_decide (getModelPrice m = x)) result =
     List.filter (fun m => bool_decide (getModelPrice m = x)) (List.filter (selected f) models)) /\
  (forall m, quota_type m = QUOTA_TOKEN \/ quota_type m = QUOTA_REQUEST ->
     length (List.filter (fun q => in_bucket q m) [QUOTA_TYPES_TOKEN; u "request"; QUOTA_TYPES_TASK]) = 1%nat).
Proof.
  intros result. unfold result. rewrite filters_select. set (shown := List.filter (selected f) models).
  assert (Forall priced models -> Forall priced shown) as Hpr.
  { rewrite !Forall_forall. intros Hm m [Hin _]%filter_In. by apply Hm. }
  unfold sortModels. split; [|split; [|split; [|split]]].
  - destruct_matches; first [apply sort_after_perm | done].
  - intros Hm%Hpr ->. apply (sort_after_sorted _ priced); [exact dearer_R|exact cheap_first_trans|done].
  - intros Hm%Hpr ->. apply (sort_after_sorted _ priced); [|unfold flip; eauto using cheap_first_trans|done].
    intros x y Hx Hy. exact (dearer_R y x Hy Hx).
  - intros Hm%Hpr [-> | ->] x; apply sort_after_stable; intros a b Ha Hb Ea%bool_decide_eq_true Eb%bool_decide_eq_true;
      apply same_price_not_dearer; eauto using priced_elem; congruence.
  - intros m Hq. unfold in_bucket. cbn [List.filter].
    destruct (hasTaskUsageSchema m); [by destruct Hq as [-> | ->]|by destruct Hq as [-> | ->]].
Qed.

(** Three models, two of them of the same price. *)
Definition listed (name : str) (ratio : number) (groups : list str) : PricingModel := {|
  billing_plugin_variants := None; model_name := name; model_description := None; vendor_name := None;
  quota_type := zero; model_ratio := ratio; completion_ratio := one; model_price := None;
  cache_ratio := None; create_cache_ratio := None; image_ratio := None; audio_ratio := None;
  audio_completion_ratio := None; enable_groups := Some groups; tags := Some (u "chat, fast");
  supported_endpoint_types := None; group_ratio := None; billing_mode := None; billing_expr := None;
  billing_usage_schema := None; billing_usage_examples := None |}.
Definition listed_models : list PricingModel :=
  [listed (u "large") (of_Z 5) [u "vip"]; listed (u "small") one [u "default"; u "vip"];
   listed (u "tiny") one [u "vip"]; listed (u "other") zero [u "default"]].
Definition vip_by_price : Filters := {|
  fl_search := []; fl_vendor := FILTER_ALL; fl_group := u "vip"; fl_quotaType := QUOTA_TYPES_TOKEN;
  fl_endpointType := ENDPOINT_TYPES_ALL; fl_tag := u "chat"; fl_sortBy := SORT_PRICE_LOW |}.

Lemma catalogue_selects_and_orders_witness :
  map model_name (filterAndSortModels (H := two_zones) (H0 := plain_collation) listed_models vip_by_price)
    = [u "small"; u "tiny"; u "large"] /\
  StronglySorted cheap_first
    (filterAndSortModels (H := two_zones) (H0 := plain_collation) listed_models vip_by_price).
Proof.
  split; [vm_compute; reflexivity|].
  destruct (catalogue_selects_and_orders (H := two_zones) (H0 := plain_collation) listed_models vip_by_price)
    as (_ & Hs & _).
  apply Hs; [|reflexivity]. repeat constructor.
Defined.
