(* ===== verification/ChatFacts.v ===== *)
(** * Properties of the chat

    The invariant of the state machine of [ChatSession]: which request is current,
    what is still awaited, and what a superseded request can do. *)

From Stdlib Require Import String.
From stdpp Require Import list.
From S2P Require Import Prelude JsNumber JsString JsText Ast Request Json ChatMessage ChatConversation ChatSession.

#[local] Open Scope nat_scope.

(** ** The invariant *)

(** A send that waits for headers, an open stream or a request without stream, each
    of the current generation. *)
Definition awaits_headers (c : Chat) : Prop := exists h, (generation c, h) ∈ waiting c.
Definition awaits_answer (c : Chat) : Prop :=
  exists call, call ∈ calls c /\ ca_generation call = requestGeneration c.
Definition awaiting (c : Chat) : Prop := awaits_headers c \/ source c <> None \/ awaits_answer c.

Definition has_chunks (p : PendingStreamChunks) : bool := nonempty (p_reasoning p) || nonempty (p_content p).

(** Which source and which requests are current. *)
Record frame_ok (c : Chat) : Prop := {
  ok_source : forall i, source c = Some i -> exists s, sources c !! i = Some s /\
    so_generation s = generation c /\ so_chat s = requestGeneration c /\
    so_completed s = false /\ so_closed s = false;
  ok_closed : forall i s, sources c !! i = Some s -> so_closed s = false -> source c = Some i;
  ok_waiting : forall g h, (g, h) ∈ waiting c -> g <= generation c /\
    (g = generation c -> h = requestGeneration c /\ source c = None /\ ~ awaits_answer c);
  ok_calls : forall call, call ∈ calls c -> ca_generation call <= requestGeneration c /\
    (ca_generation call = requestGeneration c ->
       ca_aborted call = false /\ abortController c = Some (requestGeneration c) /\ source c = None);
  ok_abort : forall g, abortController c = Some g -> g = requestGeneration c;
  ok_streaming : mounted c = true -> isStreaming c = match source c with Some _ => true | None => false end;
}.

(** What the chat handler knows about them. *)
Record chat_ok (c : Chat) : Prop := {
  ok_frame :> frame_ok c;
  ok_requesting : mounted c = true -> isRequesting c = true <-> awaiting c;
  ok_timer : mounted c = true -> forall g, flushTimer c = Some g -> g = requestGeneration c;
  ok_pending : mounted c = true -> p_generation (pendingChunks c) = requestGeneration c;
  ok_chunks : mounted c = true -> has_chunks (pendingChunks c) = true -> flushTimer c <> None;
  ok_unmounted : mounted c = false -> ~ awaiting c;
}.

Lemma awaiting_mounted c : chat_ok c -> awaiting c -> mounted c = true.
Proof. intros H Ha. destruct (mounted c) eqn:M; [done|]. by destruct (ok_unmounted _ H M). Qed.
Lemma open_mounted c i : chat_ok c -> source c = Some i -> mounted c = true.
Proof. intros H E. apply awaiting_mounted; [done|]. right. left. by rewrite E. Qed.

Lemma ok_initial loaded : chat_ok (initial_chat loaded).
Proof.
  split; [split|..]; cbn; try done.
  - by intros ? ? ?%elem_of_nil.
  - by intros ? ?%elem_of_nil.
  - intros _. split; [done|]. intros [[? ?%elem_of_nil]|[?|(? & ?%elem_of_nil & _)]]; done.
Qed.

(** *** The shape of the handlers *)

Lemma ok_set_messages ms q c : chat_ok c -> chat_ok (set_messages ms q c).
Proof. by intros [[]]; split; [split|..]. Qed.

Lemma update_shape env upd c : exists q, onMessageUpdate env upd c = set_messages (messages c) q c.
Proof. unfold onMessageUpdate. destruct (_ && _); eauto. Qed.

(** A flush of the current generation empties the buffer and stops the timer. *)
Lemma flush_shape env c : p_generation (pendingChunks c) = requestGeneration c ->
  exists q, flushStreamUpdates env (requestGeneration c) c =
    set_messages (messages c) q
      (set_handler (requestGeneration c) (no_chunks (requestGeneration c)) None (isRequesting c) c).
Proof.
  intros Hp. unfold flushStreamUpdates. rewrite Nat.eqb_refl. cbn [negb].
  cbn [pendingChunks set_handler]. rewrite Hp, Nat.eqb_refl. cbn [negb].
  destruct (pendingChunks c) as [pg pc pr] eqn:E. cbn in Hp. cbn [p_reasoning p_content].
  destruct (negb (nonempty pr) && negb (nonempty pc)) eqn:Ee.
  - destruct pr, pc; try done. exists (queue c). subst pg. done.
  - destruct (update_shape env (U_flush (requestGeneration c) pr pc)
      (set_handler (requestGeneration c) (no_chunks (requestGeneration c)) None (isRequesting c) c)) as [q Hq].
    exists q. exact Hq.
Qed.

(** The end of the current request in the chat handler. *)
Definition over (q : list Update) (c : Chat) : Chat :=
  set_messages (messages c) q
    (set_handler (requestGeneration c) (no_chunks (requestGeneration c)) None false c).

Lemma error_shape t env error code c : p_generation (pendingChunks c) = requestGeneration c ->
  exists q, handleStreamError t env (requestGeneration c) error code c = over q c.
Proof.
  intros Hp. unfold handleStreamError. rewrite Nat.eqb_refl. cbn [negb].
  destruct (flush_shape env c Hp) as [q1 ->].
  match goal with |- exists q, onMessageUpdate env ?x ?y = _ => destruct (update_shape env x y) as [q ->] end.
  by exists q.
Qed.
Lemma complete_shape env c : p_generation (pendingChunks c) = requestGeneration c ->
  exists q, handleStreamComplete env (requestGeneration c) c = over q c.
Proof.
  intros Hp. unfold handleStreamComplete. rewrite Nat.eqb_refl. cbn [negb].
  destruct (flush_shape env c Hp) as [q1 ->].
  match goal with |- exists q, onMessageUpdate env ?x ?y = _ => destruct (update_shape env x y) as [q ->] end.
  by exists q.
Qed.

(** The end of the current stream. *)
Definition stream_over (i : nat) (q : list Update) (c : Chat) : Chat :=
  over q (set_stream None (generation c) (close_source i (complete_source i (sources c))) (waiting c) false c).

Lemma current_source_Some i c s : chat_ok c -> current_source i c = Some s <->
  source c = Some i /\ sources c !! i = Some s.
Proof.
  intros H%ok_frame. unfold current_source. split.
  - intros E. destruct (sources c !! i) as [s'|] eqn:Es; [|done]. cbn in E.
    destruct (_ =? _); cbn in E; [|done]. case_bool_decide; [|done]. cbn in E.
    destruct (so_completed s'); by simplify_eq.
  - intros [E Es]. destruct (ok_source _ H i E) as (s' & Es' & Hg & _ & Hc & _). simplify_eq.
    rewrite Es. cbn. by rewrite Hg, Nat.eqb_refl, (bool_decide_true _ E), Hc.
Qed.

Lemma handleError_shape t env i error code c : chat_ok c -> source c = Some i ->
  exists q, handleError t env i error code c = stream_over i q c.
Proof.
  intros H E. destruct (ok_source _ H i E) as (s & Es & _ & Hg & _).
  unfold handleError. rewrite (proj2 (current_source_Some i c s H)) by done. rewrite Hg.
  destruct (error_shape t env error code (mark_completed i c)
    (ok_pending _ H (open_mounted _ _ H E))) as [q Hq].
  cbn [requestGeneration mark_completed set_stream] in Hq. rewrite Hq. exists q.
  unfold closeActiveSource. cbn [source over set_messages set_handler mark_completed set_stream].
  by rewrite (bool_decide_true _ E).
Qed.

Lemma handleError_stale t env i error code c : chat_ok c -> source c <> Some i -> handleError t env i error code c = c.
Proof.
  intros H E. unfold handleError. destruct (current_source i c) as [s|] eqn:Es; [|done].
  by apply (current_source_Some _ _ _ H) in Es as [? _].
Qed.

(** *** Preservation *)

Lemma ok_over q c : frame_ok c -> ~ awaiting c -> chat_ok (over q c).
Proof.
  intros [H1 H2 H3 H4 H5 H6] Ha. split; [by split|..]; cbn; try done.
Qed.

Lemma close_complete_lookup i j l :
  close_source i (complete_source i l) !! j =
  (if decide (i = j) then (fun s => {| so_generation := so_generation s; so_chat := so_chat s;
     so_completed := true; so_closed := true |}) <$> l !! j else l !! j).
Proof.
  unfold close_source, complete_source. rewrite !list_lookup_alter. case_decide as D; [|done].
  subst j. rewrite decide_True by done. by destruct (l !! i).
Qed.

(** An open stream is the only thing awaited. *)
Lemma open_alone c i : frame_ok c -> source c = Some i -> ~ awaits_headers c /\ ~ awaits_answer c.
Proof.
  intros H E. split.
  - intros [h Hh]. destruct (ok_waiting _ H _ _ Hh) as [_ Hw]. destruct (Hw eq_refl) as (_ & ? & _). congruence.
  - intros (call & Hin & Hg). destruct (ok_calls _ H _ Hin) as [_ Hc]. destruct (Hc Hg) as (_ & _ & ?). congruence.
Qed.

Lemma ok_stream_over i q c : chat_ok c -> source c = Some i -> chat_ok (stream_over i q c).
Proof.
  intros H%ok_frame E. destruct (open_alone _ _ H E) as [Hh Ha]. apply ok_over.
  - split; cbn; try done.
    + intros j s. rewrite close_complete_lookup. case_decide as D.
      * destruct (sources c !! j); cbn; [|done]. by intros [= <-].
      * intros Es Hs. pose proof (ok_closed _ H _ _ Es Hs). congruence.
    + intros g h Hin. destruct (ok_waiting _ H _ _ Hin) as [Hle Hw]. split; [done|].
      intros Hg. destruct (Hw Hg) as (? & ? & ?). done.
    + intros call Hin. destruct (ok_calls _ H _ Hin) as [Hle Hc]. split; [done|].
      intros Hg. destruct (Hc Hg) as (? & ? & ?). done.
    + apply (ok_abort _ H).
  - by intros [?|[?|?]].
Qed.

(** Closing whatever was open. *)
Lemma close_previous_closed c i s : frame_ok c -> close_previous c !! i = Some s -> so_closed s = true.
Proof.
  intros H. unfold close_previous, close_source. destruct (source c) as [j|] eqn:E.
  - rewrite list_lookup_alter. case_decide as D.
    + destruct (sources c !! j); cbn; [|done]. by intros [= <-].
    + intros Es. destruct (so_closed s) eqn:Hs; [done|]. pose proof (ok_closed _ H _ _ Es Hs). congruence.
  - intros Es. destruct (so_closed s) eqn:Hs; [done|]. pose proof (ok_closed _ H _ _ Es Hs). congruence.
Qed.

Lemma abort_call_elem call controller l : call ∈ abort_call controller l ->
  exists old, old ∈ l /\ ca_generation old = ca_generation call.
Proof.
  destruct controller as [g|]; cbn; [|eauto]. intros (old & -> & Hin)%list_elem_of_fmap.
  exists old. split; [done|]. destruct (ca_generation old =? g) eqn:E; [|done]. cbn. by apply Nat.eqb_eq.
Qed.

Lemma generations_below c : frame_ok c ->
  (forall g h, (g, h) ∈ waiting c -> g < S (generation c)) /\
  (forall call, call ∈ abort_call (abortController c) (calls c) -> ca_generation call < S (requestGeneration c)).
Proof.
  intros H. split.
  - intros g h Hin. destruct (ok_waiting _ H _ _ Hin). lia.
  - intros call (old & Hin & <-)%abort_call_elem. destruct (ok_calls _ H _ Hin). lia.
Qed.

(** A step to a new generation that closes the stream and aborts the requests. *)
Lemma ok_stopped q ms c : chat_ok c -> mounted c = true ->
  chat_ok (set_messages ms q (set_handler (S (requestGeneration c)) (no_chunks (S (requestGeneration c))) None false
    (set_calls None (abort_call (abortController c) (calls c))
       (set_stream None (S (generation c)) (close_previous c) (waiting c) false c)))).
Proof.
  intros H%ok_frame Hm. apply ok_set_messages. destruct (generations_below _ H) as [Hw Hc].
  split; [split|..]; cbn; try done.
  - intros i s Es Hs. pose proof (close_previous_closed _ _ _ H Es). congruence.
  - intros g h Hin. pose proof (Hw _ _ Hin). split; lia.
  - intros call Hin. pose proof (Hc _ Hin). split; lia.
  - intros _. split; [done|]. intros [[h Hin]|[?|(call & Hin & E)]]; [|done|].
    + apply Hw in Hin. cbn in Hin. lia.
    + apply Hc in Hin. cbn in E. lia.
  - congruence.
Qed.

(** Buffering a chunk. *)
Lemma ok_buffered p c : chat_ok c -> p_generation p = requestGeneration c ->
  chat_ok (set_handler (requestGeneration c) p (Some (requestGeneration c)) (isRequesting c) c).
Proof. intros [[] ? ? ? ? ?] Hp. split; [by split|..]; cbn; try done. intros _ g. by intros [= <-]. Qed.

Lemma update_buffers g type chunk c c' : chat_ok c -> mounted c = true -> handleStreamUpdate g type chunk c = Some c' ->
  c' = c \/ exists p, p_generation p = requestGeneration c /\
    c' = set_handler (requestGeneration c) p (Some (requestGeneration c)) (isRequesting c) c.
Proof.
  intros H Hm. unfold handleStreamUpdate. destruct (g =? requestGeneration c) eqn:Eg; cbn [negb orb]; [|by intros [= <-]; left].
  destruct (p_generation (pendingChunks c) =? g) eqn:Ep; cbn [negb]; [|by intros [= <-]; left].
  apply Nat.eqb_eq in Eg, Ep. subst g. intros E. right.
  apply bind_Some in E as (p & E & [= <-]). exists p.
  assert (p_generation p = requestGeneration c) as Hp.
  { destruct type; apply bind_Some in E as (? & _ & [= <-]); done. }
  split; [done|]. unfold scheduleStreamFlush. cbn [requestGeneration set_handler]. rewrite Nat.eqb_refl. cbn [negb].
  cbn [flushTimer set_handler]. destruct (flushTimer c) as [g|] eqn:Et; [|done].
  by rewrite (ok_timer _ H Hm _ Et).
Qed.

Lemma updates_ok g updates c : chat_ok c -> mounted c = true ->
  chat_ok (fst (on_updates g updates c)) /\ source (fst (on_updates g updates c)) = source c /\
  mounted (fst (on_updates g updates c)) = true.
Proof.
  revert c. induction updates as [|[type chunk] updates IH]; intros c H Hm; cbn; [done|].
  destruct (handleStreamUpdate g type chunk c) as [c'|] eqn:E; [|done].
  destruct (update_buffers _ _ _ _ _ H Hm E) as [-> | (p & Hp & ->)]; [by apply IH|].
  destruct (IH _ (ok_buffered p c H Hp) Hm) as (? & ? & ?). done.
Qed.

Lemma ok_handleError t env i error code c : chat_ok c -> chat_ok (handleError t env i error code c).
Proof.
  intros H. destruct (decide (source c = Some i)) as [E|E].
  - destruct (handleError_shape t env i error code c H E) as [q ->]. by apply ok_stream_over.
  - by rewrite handleError_stale.
Qed.

Lemma ok_on_message t env i data c : chat_ok c -> chat_ok (on_message t env i data c).
Proof.
  intros H. unfold on_message. destruct (current_source i c) as [s|] eqn:Es; [|done].
  apply (current_source_Some _ _ _ H) in Es as [E Es]. pose proof (open_mounted _ _ H E) as Hm.
  destruct (isStreamDoneMessage data).
  - destruct (ok_source _ H i E) as (s' & Es' & _ & Hg & _). simplify_eq. rewrite Hg.
    unfold closeActiveSource. cbn [source mark_completed set_stream]. rewrite (bool_decide_true _ E).
    match goal with |- context [handleStreamComplete env _ ?x] => destruct (complete_shape env x (ok_pending _ H Hm)) as [q Hq] end.
    cbn [requestGeneration mark_completed set_stream] in Hq. rewrite Hq. by apply ok_stream_over.
  - destruct (parseStreamMessageUpdates data) as [updates|]; [|by apply ok_handleError].
    destruct (updates_ok (so_chat s) updates c H Hm) as (? & _ & _).
    destruct (on_updates (so_chat s) updates c) as [c' threw]. destruct threw; [|done]. by apply ok_handleError.
Qed.

Lemma ok_on_source_error t env i readyState data c : chat_ok c -> chat_ok (on_source_error t env i readyState data c).
Proof.
  intros H. unfold on_source_error. destruct (current_source i c); [|done]. destruct (negb _); [|done].
  by apply ok_handleError.
Qed.
Lemma ok_on_readystate t env i readyState status c : chat_ok c -> chat_ok (on_readystate t env i readyState status c).
Proof.
  intros H. unfold on_readystate. destruct (current_source i c); [|done].
  destruct (getStreamReadyStateError _ _); [|done]. by apply ok_handleError.
Qed.

Lemma ok_flush env g c : chat_ok c -> chat_ok (flushStreamUpdates env g c).
Proof.
  intros H. destruct (decide (g = requestGeneration c)) as [->|E].
  2: { unfold flushStreamUpdates. by rewrite (proj2 (Nat.eqb_neq _ _) E). }
  destruct (mounted c) eqn:Hm.
  - destruct (flush_shape env c (ok_pending _ H Hm)) as [q ->]. apply ok_set_messages.
    destruct H as [[] ? ? ? ? ?]. by split; [split|..].
  - assert (exists q p timer, flushStreamUpdates env (requestGeneration c) c =
      set_messages (messages c) q (set_handler (requestGeneration c) p timer (isRequesting c) c)) as (q & p & timer & ->).
    { unfold flushStreamUpdates. rewrite Nat.eqb_refl. cbn [negb]. repeat case_match.
      - by eexists (queue c), _, _.
      - by eexists (queue c), _, _.
      - match goal with |- context [onMessageUpdate env ?x ?y] => destruct (update_shape env x y) as [q ->] end.
        by eexists q, _, _. }
    apply ok_set_messages. destruct H as [[] ? ? ? ? ?]. split; [by split|..]; cbn; first [done | by rewrite Hm].
Qed.

Lemma ok_onMessageUpdate env upd c : chat_ok c -> chat_ok (onMessageUpdate env upd c).
Proof. intros H. destruct (update_shape env upd c) as [q ->]. by apply ok_set_messages. Qed.

Lemma ok_sendStreamingChat env ms c : chat_ok c -> mounted c = true -> chat_ok (sendStreamingChat env ms c).
Proof.
  intros H%ok_frame Hm. destruct (generations_below _ H) as [Hw Hc]. unfold sendStreamingChat, send.
  split; [split|..]; cbn -[close_previous abort_call]; try done.
  - intros i s Es Hs. pose proof (close_previous_closed _ _ _ H Es). congruence.
  - intros g h [Hin|E%list_elem_of_singleton]%elem_of_app.
    + pose proof (Hw _ _ Hin). split; lia.
    + injection E as -> ->. split; [done|]. intros _. split_and!; [done..|].
      intros (call & Hin & Hg). cbn in Hin, Hg. pose proof (Hc _ Hin). lia.
  - intros call Hin. pose proof (Hc _ Hin). split; lia.
  - intros _. split; [|done]. intros _. left. eexists. cbn. apply elem_of_app. right. by apply list_elem_of_singleton.
  - congruence.
Qed.

Lemma ok_sendNonStreamingChat env ms c : chat_ok c -> mounted c = true -> chat_ok (sendNonStreamingChat env ms c).
Proof.
  intros H%ok_frame Hm. destruct (generations_below _ H) as [Hw Hc]. unfold sendNonStreamingChat.
  split; [split|..]; cbn -[close_previous abort_call]; try done.
  - intros i s Es Hs. pose proof (close_previous_closed _ _ _ H Es). congruence.
  - intros g h Hin. pose proof (Hw _ _ Hin). split; lia.
  - intros call [Hin|E%list_elem_of_singleton]%elem_of_app.
    + pose proof (Hc _ Hin). split; lia.
    + subst call. done.
  - intros g [= <-]. done.
  - intros _. split; [|done]. intros _. right. right. eexists. cbn -[abort_call]. split.
    + apply elem_of_app. right. by apply list_elem_of_singleton.
    + done.
  - congruence.
Qed.

Lemma ok_sendChat env ms c : chat_ok c -> mounted c = true -> chat_ok (sendChat env ms c).
Proof. unfold sendChat. destruct (cf_stream _); auto using ok_sendStreamingChat, ok_sendNonStreamingChat. Qed.

Lemma update_mounted env upd c : mounted (onMessageUpdate env upd c) = mounted c.
Proof. by destruct (update_shape env upd c) as [q ->]. Qed.

Lemma ok_stopGeneration env c : chat_ok c -> mounted c = true -> chat_ok (stopGeneration env c).
Proof.
  intros H Hm. unfold stopGeneration. destruct (flush_shape env c (ok_pending _ H Hm)) as [q ->].
  apply ok_onMessageUpdate. exact (ok_stopped q (messages c) c H Hm).
Qed.

Lemma ok_unmount c : chat_ok c -> chat_ok (unmount c).
Proof.
  intros H%ok_frame. destruct (generations_below _ H) as [Hw Hc]. unfold unmount.
  split; [split|..]; cbn -[close_previous abort_call]; try done.
  - intros i s Es Hs. pose proof (close_previous_closed _ _ _ H Es). congruence.
  - intros g h Hin. pose proof (Hw _ _ Hin). split; lia.
  - intros call Hin. pose proof (Hc _ Hin). split; lia.
  - intros _ [[h Hin]|[?|(call & Hin & E)]]; [|done|]; cbn -[abort_call] in *.
    + apply Hw in Hin. lia.
    + apply Hc in Hin. lia.
Qed.

Lemma filter_elem {A} (f : A -> bool) l x : x ∈ List.filter f l <-> x ∈ l /\ f x = true.
Proof. rewrite !list_elem_of_In. apply List.filter_In. Qed.

Lemma find_elem {A} (f : A -> bool) l x : List.find f l = Some x -> x ∈ l /\ f x = true.
Proof. rewrite list_elem_of_In. apply List.find_some. Qed.

(** The wait for the headers of [g] is over. *)
Definition headers_over (g : nat) (c : Chat) : Chat :=
  set_stream (source c) (generation c) (sources c) (List.filter (fun w => negb (fst w =? g)) (waiting c)) (isStreaming c) c.

Lemma waiting_over g g' h c : (g', h) ∈ waiting (headers_over g c) <-> (g', h) ∈ waiting c /\ g' <> g.
Proof. cbn. rewrite filter_elem. cbn. by rewrite negb_true_iff, Nat.eqb_neq. Qed.

Lemma headers_over_frame g c : frame_ok c -> frame_ok (headers_over g c).
Proof.
  intros [H1 H2 H3 H4 H5 H6]. split; try done. intros g' h [Hin _]%waiting_over. by destruct (H3 _ _ Hin).
Qed.

Lemma headers_over_other g c : generation c <> g -> awaiting (headers_over g c) <-> awaiting c.
Proof.
  intros Hg. unfold awaiting, awaits_headers. cbn [generation source headers_over set_stream].
  by setoid_rewrite waiting_over; split; intros [[h Hin]|?]; [left; exists h; tauto|by right|left; exists h; tauto|by right].
Qed.

Lemma ok_headers_other g c : chat_ok c -> generation c <> g -> chat_ok (headers_over g c).
Proof.
  intros H Hg. destruct (H) as [Hf ? ? ? ? ?]. pose proof (headers_over_other g c Hg) as Ha.
  split; [by apply headers_over_frame|..]; try done; rewrite Ha; done.
Qed.

(** The headers of the current request: it is the only thing awaited. *)
Lemma headers_current c h : frame_ok c -> (generation c, h) ∈ waiting c ->
  h = requestGeneration c /\ source c = None /\ ~ awaiting (headers_over (generation c) c).
Proof.
  intros H Hin. destruct (ok_waiting _ H _ _ Hin) as [_ Hw]. destruct (Hw eq_refl) as (-> & Hs & Ha).
  split_and!; [done..|]. intros [[h [_ Hne]%waiting_over]|[?|?]]; done.
Qed.

(** A stream opens. *)
Lemma ok_opened c : frame_ok c -> chat_ok c -> isRequesting c = true -> mounted c = true -> source c = None ->
  ~ awaiting (headers_over (generation c) c) ->
  let i := length (sources c) in
  let s := {| so_generation := generation c; so_chat := requestGeneration c; so_completed := false; so_closed := false |} in
  chat_ok (set_stream (Some i) (generation c) (sources c ++ [s]) (waiting (headers_over (generation c) c)) true
             (headers_over (generation c) c)).
Proof.
  intros Hf H Hr Hm Hs Ha i s. destruct (headers_over_frame (generation c) c Hf) as [H1 H2 H3 H4 H5 H6].
  assert (~ awaits_answer c) as Hc by (intros E; apply Ha; by right; right).
  split; [split|..]; try done.
  - cbn. intros j [= <-]. exists s. split; [|done]. unfold i. by rewrite lookup_app_r, Nat.sub_diag.
  - cbn. intros j s' Es Hcl. destruct (decide (j < i)) as [Hj|Hj].
    + rewrite lookup_app_l in Es by done. pose proof (ok_closed _ Hf _ _ Es Hcl). congruence.
    + apply lookup_lt_Some in Es as Hl. rewrite length_app in Hl. cbn in Hl. f_equal. unfold i in *. lia.
  - intros g h Hin. destruct (H3 _ _ Hin) as [Hle _]. split; [done|]. intros ->.
    exfalso. apply Ha. left. by exists h.
  - intros call Hin. destruct (H4 _ Hin) as [Hle _]. split; [done|]. intros E. destruct Hc. by exists call.
  - intros _. split; [|done]. intros _. right. by left.
  - apply (ok_timer _ H).
  - apply (ok_pending _ H).
  - apply (ok_chunks _ H).
  - cbn. congruence.
Qed.

Lemma ok_on_headers t env g answer starts c c' : chat_ok c -> on_headers t env g answer starts c = Some c' -> chat_ok c'.
Proof.
  intros H. unfold on_headers. destruct (List.find _ _) as [[g' h]|] eqn:E; [|done]. cbn [mbind option_bind].
  apply find_elem in E as [Hin Eg]. cbn in Eg. apply Nat.eqb_eq in Eg. subst g'. fold (headers_over g c).
  change (generation (headers_over g c)) with (generation c). destruct (generation c =? g) eqn:Eg; cbn [negb].
  2: { intros [= <-]. apply ok_headers_other; [done|by apply Nat.eqb_neq]. }
  apply Nat.eqb_eq in Eg. subst g. destruct (headers_current _ _ (ok_frame _ H) Hin) as (-> & Hs & Ha).
  assert (awaiting c) as Haw by (left; by exists (requestGeneration c)).
  pose proof (awaiting_mounted _ H Haw) as Hm. pose proof (proj2 (ok_requesting _ H Hm) Haw) as Hr.
  destruct answer as [[]|message].
  - pose proof (ok_opened c (ok_frame _ H) H Hr Hm Hs Ha) as Ho. intros [= <-].
    destruct starts; [exact Ho|]. apply ok_handleError. exact Ho.
  - generalize (default (STREAM_START_ERROR ERROR_MESSAGES) message). intros error [= <-].
    destruct (error_shape t env error None
      (headers_over (generation c) c) (ok_pending _ H Hm)) as [q Hq].
    change (requestGeneration (headers_over (generation c) c)) with (requestGeneration c) in Hq. rewrite Hq.
    apply ok_over; [|done]. by apply headers_over_frame, ok_frame.
Qed.

(** The request without stream of [g] is over. *)
Definition call_over (g : nat) (c : Chat) : Chat :=
  set_calls (abortController c) (List.filter (fun call => negb (ca_generation call =? g)) (calls c)) c.

Lemma calls_over g call c : call ∈ calls (call_over g c) <-> call ∈ calls c /\ ca_generation call <> g.
Proof. cbn. rewrite filter_elem. by rewrite negb_true_iff, Nat.eqb_neq. Qed.

Lemma call_over_frame g c : frame_ok c -> frame_ok (call_over g c).
Proof.
  intros [H1 H2 H3 H4 H5 H6]. split; try done.
  - intros g' h Hin. destruct (H3 _ _ Hin) as [Hle Hw]. split; [done|]. intros E.
    destruct (Hw E) as (? & ? & Ha). split_and!; [done..|]. intros (call & [Hc _]%calls_over & Eg).
    apply Ha. by exists call.
  - intros call [Hin _]%calls_over. by apply H4.
Qed.

Lemma ok_call_over_other g c : chat_ok c -> requestGeneration c <> g -> chat_ok (call_over g c).
Proof.
  intros H Hg. destruct (H) as [Hf ? ? ? ? ?].
  assert (awaiting (call_over g c) <-> awaiting c) as Ha.
  { unfold awaiting. enough (awaits_answer (call_over g c) <-> awaits_answer c) as E by (rewrite E; done).
    unfold awaits_answer. setoid_rewrite calls_over. split; intros (call & Hin & E); exists call; [tauto|].
    cbn in E. split_and!; try done. by rewrite E. }
  split; [by apply call_over_frame|..]; try done; rewrite Ha; done.
Qed.

Lemma answer_current c call : frame_ok c -> call ∈ calls c -> ca_generation call = requestGeneration c ->
  ca_aborted call = false /\ source c = None /\ ~ awaiting (call_over (requestGeneration c) c).
Proof.
  intros H Hin Eg. destruct (ok_calls _ H _ Hin) as [_ Hc]. destruct (Hc Eg) as (Hab & _ & Hs).
  split_and!; [done..|]. intros [[h Hh]|[?|(call' & [_ Hne]%calls_over & ?)]]; [|done..].
  destruct (ok_waiting _ H _ _ Hh) as [_ Hw]. destruct (Hw eq_refl) as (_ & _ & Ha). apply Ha. by exists call.
Qed.

Lemma ok_idle_requesting q c : frame_ok c -> ~ awaiting c -> mounted c = true ->
  p_generation (pendingChunks c) = requestGeneration c -> (forall g, flushTimer c = Some g -> g = requestGeneration c) ->
  (has_chunks (pendingChunks c) = true -> flushTimer c <> None) ->
  (forall call, call ∈ calls c -> ca_generation call <> requestGeneration c) ->
  chat_ok (set_requesting false (set_calls None (calls c) (set_messages (messages c) q c))).
Proof.
  intros [H1 H2 H3 H4 H5 H6] Ha Hm Hp Ht Hk Hc. split; [split|..]; cbn; try done.
  intros call Hin. destruct (H4 _ Hin) as [Hle _]. split; [done|]. intros E. by destruct (Hc _ Hin).
Qed.

Lemma ok_on_answer t env g answer c c' : chat_ok c -> on_answer t env g answer c = Some c' -> chat_ok c'.
Proof.
  intros H. unfold on_answer. destruct (List.find _ _) as [call|] eqn:E; [|done]. cbn [mbind option_bind].
  apply find_elem in E as [Hin Eg]. apply Nat.eqb_eq in Eg. fold (call_over g c).
  change (requestGeneration (call_over g c)) with (requestGeneration c).
  destruct (requestGeneration c =? g) eqn:Er; cbn [negb].
  2: { rewrite orb_true_r. unfold finally_. change (requestGeneration (call_over g c)) with (requestGeneration c).
       rewrite Er. intros [= <-]. apply ok_call_over_other; [done|by apply Nat.eqb_neq]. }
  apply Nat.eqb_eq in Er. subst g. destruct (answer_current _ _ (ok_frame _ H) Hin (eq_sym Er)) as (-> & Hs & Ha).
  rewrite <- Er in *. cbn [orb]. intros [= <-].
  assert (mounted c = true) as Hm by (apply awaiting_mounted; [done|]; right; right; by exists call).
  pose proof (call_over_frame (requestGeneration c) c (ok_frame _ H)) as Hf.
  assert (forall call', call' ∈ calls (call_over (requestGeneration c) c) -> ca_generation call' <> requestGeneration c)
    as Hc by (by intros call' [_ ?]%calls_over).
  assert (forall error code, chat_ok (finally_ (requestGeneration c)
    (handleStreamError t env (requestGeneration c) error code (call_over (requestGeneration c) c)))) as He.
  { intros error code. destruct (error_shape t env error code (call_over (requestGeneration c) c) (ok_pending _ H Hm)) as [q Hq].
    change (requestGeneration (call_over (requestGeneration c) c)) with (requestGeneration c) in Hq. rewrite Hq.
    unfold finally_. cbn [requestGeneration over set_messages set_handler call_over set_calls]. rewrite Nat.eqb_refl.
    pose proof (ok_over q _ Hf Ha) as Ho. exact (ok_idle_requesting q _ (ok_frame _ Ho) Ha Hm eq_refl
      (fun g E => match E with eq_refl => I end) (fun E => match E with eq_refl => I end) Hc). }
  destruct answer as [response|error]; [|apply He].
  destruct (hasChatCompletionChoice response); cbn [negb]; [|apply He].
  destruct (update_shape env (U_response (requestGeneration c) response) (call_over (requestGeneration c) c)) as [q ->].
  unfold finally_. cbn [requestGeneration set_messages call_over set_calls]. rewrite Nat.eqb_refl.
  exact (ok_idle_requesting q _ Hf Ha Hm (ok_pending _ H Hm) (ok_timer _ H Hm) (ok_chunks _ H Hm) Hc).
Qed.

Lemma chat_reachable_ok t c : reachable t c -> chat_ok c.
Proof.
  induction 1 as [loaded|env e c c' _ H Hs]; [apply ok_initial|]. unfold handle in Hs.
  destruct (of_page e && negb (mounted c)) eqn:Hp; [done|].
  assert (of_page e = true -> mounted c = true) as Hm.
  { intros E. rewrite E in Hp. by destruct (mounted c). }
  destruct e; cbn [of_page] in Hm; try (specialize (Hm eq_refl)).
  - injection Hs as <-. unfold handleSendMessage, submit.
    apply ok_sendChat; [by apply ok_onMessageUpdate|]. by rewrite update_mounted.
  - injection Hs as <-. unfold handleRegenerateMessage, submit. destruct (createRegeneratedMessages _ _ _ _ _); [|done].
    apply ok_sendChat; [by apply ok_onMessageUpdate|]. by rewrite update_mounted.
  - injection Hs as <-. unfold applyEdit. repeat case_match; try done; [|by apply ok_onMessageUpdate].
    apply ok_sendChat; [by apply ok_onMessageUpdate|]. by rewrite update_mounted.
  - injection Hs as <-. by apply ok_onMessageUpdate.
  - injection Hs as <-. by apply ok_stopGeneration.
  - injection Hs as <-. by apply ok_unmount.
  - injection Hs as <-. by apply ok_set_messages.
  - by eapply ok_on_headers.
  - apply bind_Some in Hs as (? & _ & [= <-]). by apply ok_on_message.
  - apply bind_Some in Hs as (? & _ & [= <-]). by apply ok_on_source_error.
  - apply bind_Some in Hs as (? & _ & [= <-]). by apply ok_on_readystate.
  - apply bind_Some in Hs as (? & _ & [= <-]). by apply ok_flush.
  - by eapply ok_on_answer.
Qed.

(** ** What is awaited *)

(** The events that answer what is awaited. *)
Definition answers (c : Chat) (e : event) : Prop :=
  match e with
  | Ev_headers g _ _ => g = generation c /\ awaits_headers c
  | Ev_message i _ => source c = Some i
  | Ev_answer g _ => g = requestGeneration c /\ awaits_answer c
  | _ => False
  end.

Lemma find_present {A} (f : A -> bool) l x : x ∈ l -> f x = true -> exists y, List.find f l = Some y.
Proof.
  intros Hin Hx. destruct (List.find f l) as [y|] eqn:E; [by exists y|].
  rewrite list_elem_of_In in Hin. by rewrite (List.find_none _ _ E _ Hin) in Hx.
Qed.

Lemma answer_taken t env c e : chat_ok c -> answers c e -> exists c', handle t env e c = Some c'.
Proof.
  intros H. destruct e; cbn; try done.
  - intros [-> [h Hin]]. unfold on_headers.
    destruct (find_present (fun w => fst w =? generation c) _ _ Hin) as [[g' h'] ->]; [by apply Nat.eqb_refl|].
    cbn [mbind option_bind]. repeat case_match; eauto.
  - intros E. destruct (ok_source _ H _ E) as (s & -> & _). cbn. eauto.
  - intros [-> (call & Hin & Hg)]. unfold on_answer.
    destruct (find_present (fun call => ca_generation call =? requestGeneration c) _ _ Hin) as [call' ->]; [by apply Nat.eqb_eq|].
    cbn. eauto.
Qed.

(** C17: the page shows a generation exactly while one is under way.  In every
    reachable state of the mounted page, the chat is generating if and only if the
    current request waits for its headers, for its stream or for its answer, one
    of the three, and an event that answers it can be taken; the open event
    source is the current one, and every other one is closed; and text that is
    buffered has a timer that will show it. *)
Theorem generating_while_awaiting t c : reachable t c -> mounted c = true ->
  (isGenerating c = true <-> awaiting c) /\
  (isGenerating c = true -> exists e, answers c e /\ forall env, exists c', handle t env e c = Some c') /\
  (forall i, source c = Some i -> ~ awaits_headers c /\ ~ awaits_answer c) /\
  (awaits_headers c -> ~ awaits_answer c) /\
  (forall i s, sources c !! i = Some s -> so_closed s = false <-> source c = Some i) /\
  (has_chunks (pendingChunks c) = true -> flushTimer c = Some (requestGeneration c)).
Proof.
  intros H%chat_reachable_ok Hm.
  assert (isGenerating c = true <-> awaiting c) as Hg.
  { unfold isGenerating. rewrite (ok_streaming _ H Hm), orb_true_iff, (ok_requesting _ H Hm).
    split; [|by right]. intros [E|E]; [|done]. right. left. by destruct (source c). }
  split_and!; [done|..].
  - intros [[h Hh]|[Hs|(call & Hin & E)]]%Hg.
    + exists (Ev_headers (generation c) (Ok tt) true). assert (answers c (Ev_headers (generation c) (Ok tt) true)) as Ha.
      { split; [done|]. by exists h. } split; [done|]. intros env. by apply answer_taken.
    + destruct (source c) as [i|] eqn:E; [|done]. exists (Ev_message i []). split; [done|].
      intros env. by apply answer_taken.
    + exists (Ev_answer (requestGeneration c) (Ok [])).
      assert (answers c (Ev_answer (requestGeneration c) (Ok []))) as Ha. { split; [done|]. by exists call. }
      split; [done|]. intros env. by apply answer_taken.
  - intros i E. by apply (open_alone _ _ (ok_frame _ H) E).
  - intros [h Hh]. destruct (ok_waiting _ H _ _ Hh) as [_ Hw]. by destruct (Hw eq_refl) as (_ & _ & ?).
  - intros i s Es. split; [by apply (ok_closed _ H)|]. intros E.
    destruct (ok_source _ H _ E) as (s' & Es' & _ & _ & _ & Hc). by simplify_eq.
  - intros Hk. pose proof (ok_chunks _ H Hm Hk) as Ht. destruct (flushTimer c) as [g|] eqn:E; [|done].
    by rewrite (ok_timer _ H Hm _ E).
Qed.

(** ** Superseded requests *)

(** The generation of the request an event belongs to. *)
Definition belongs (c : Chat) (e : event) : option nat :=
  match e with
  | Ev_headers g _ _ => snd <$> List.find (fun w => fst w =? g) (waiting c)
  | Ev_message i _ | Ev_source_error i _ _ | Ev_readystate i _ _ => so_chat <$> sources c !! i
  | Ev_timer => flushTimer c
  | Ev_answer g _ => Some g
  | _ => None
  end.
Definition update_generation (upd : Update) : option nat :=
  match upd with
  | U_replace _ | U_remove _ => None
  | U_flush g _ _ | U_complete g | U_error g _ _ _ | U_response g _ | U_stop g => Some g
  end.

(** All but the requests that still wait. *)
Definition observe (c : Chat) : Chat :=
  set_stream (source c) (generation c) (sources c) [] (isStreaming c) (set_calls (abortController c) [] c).

Lemma stale_source i c : chat_ok c -> forall s, sources c !! i = Some s -> so_chat s <> requestGeneration c ->
  current_source i c = None.
Proof.
  intros H s Es Hg. destruct (current_source i c) as [s'|] eqn:E; [|done].
  apply (current_source_Some _ _ _ H) in E as [E Es']. destruct (ok_source _ H _ E) as (? & ? & _ & ? & _). by simplify_eq.
Qed.

Lemma stale_event t env e c c' g : chat_ok c -> handle t env e c = Some c' -> belongs c e = Some g ->
  g <> requestGeneration c -> observe c' = observe c.
Proof.
  intros H. unfold handle. destruct (of_page e && _); [done|].
  destruct e; cbn [belongs]; intros Hs Hb Hg; try done.
  - unfold on_headers in Hs. destruct (List.find _ _) as [[g1 h]|] eqn:E; [|done]. cbn in Hb. injection Hb as ->.
    cbn [mbind option_bind] in Hs. apply find_elem in E as [Hin Eg]. cbn in Eg. apply Nat.eqb_eq in Eg. subst g1.
    change (generation (set_stream _ _ _ _ _ c)) with (generation c) in Hs.
    destruct (generation c =? g0) eqn:Ec; cbn [negb] in Hs; [|by injection Hs as <-].
    apply Nat.eqb_eq in Ec. destruct (ok_waiting _ H _ _ Hin) as [_ Hw]. by destruct (Hw (eq_sym Ec)) as [? _].
  - destruct (sources c !! i) as [s|] eqn:Es; [|done]. cbn in Hb, Hs. injection Hb as <-. injection Hs as <-.
    unfold on_message. by rewrite (stale_source _ _ H _ Es).
  - destruct (sources c !! i) as [s|] eqn:Es; [|done]. cbn in Hb, Hs. injection Hb as <-. injection Hs as <-.
    unfold on_source_error. by rewrite (stale_source _ _ H _ Es).
  - destruct (sources c !! i) as [s|] eqn:Es; [|done]. cbn in Hb, Hs. injection Hb as <-. injection Hs as <-.
    unfold on_readystate. by rewrite (stale_source _ _ H _ Es).
  - rewrite Hb in Hs. cbn in Hs. injection Hs as <-. unfold flushStreamUpdates.
    by rewrite (proj2 (Nat.eqb_neq _ _) Hg).
  - injection Hb as ->. unfold on_answer in Hs. destruct (List.find _ _) as [call|]; [|done]. cbn [mbind option_bind] in Hs.
    change (requestGeneration (set_calls _ _ c)) with (requestGeneration c) in Hs.
    apply not_eq_sym, Nat.eqb_neq in Hg. rewrite Hg in Hs. cbn [negb] in Hs. rewrite orb_true_r in Hs.
    unfold finally_ in Hs. change (requestGeneration (set_calls _ _ c)) with (requestGeneration c) in Hs.
    rewrite Hg in Hs. by injection Hs as <-.
Qed.

Lemma stale_update current clock upd g ms : update_generation upd = Some g -> g <> current ->
  run_update current clock upd ms = ms.
Proof. destruct upd; cbn; try done; intros [= ->] Hg; by rewrite (proj2 (Nat.eqb_neq _ _) Hg). Qed.

(** *** Generations only grow *)

Lemma update_generation_same env upd c : requestGeneration (onMessageUpdate env upd c) = requestGeneration c.
Proof. by destruct (update_shape env upd c) as [q ->]. Qed.
Lemma flush_generation env g c : requestGeneration (flushStreamUpdates env g c) = requestGeneration c.
Proof. unfold flushStreamUpdates. repeat case_match; by rewrite ?update_generation_same. Qed.
Lemma error_generation t env g error code c :
  requestGeneration (handleStreamError t env g error code c) = requestGeneration c.
Proof.
  unfold handleStreamError. case_match; [done|]. rewrite update_generation_same. apply flush_generation.
Qed.
Lemma complete_generation env g c : requestGeneration (handleStreamComplete env g c) = requestGeneration c.
Proof. unfold handleStreamComplete. case_match; [done|]. rewrite update_generation_same. apply flush_generation. Qed.
Lemma close_generation i c : requestGeneration (closeActiveSource i c) = requestGeneration c.
Proof. unfold closeActiveSource. by case_match. Qed.
Lemma handleError_generation t env i error code c : requestGeneration (handleError t env i error code c) = requestGeneration c.
Proof. unfold handleError. case_match; [|done]. by rewrite close_generation, error_generation. Qed.
Lemma updates_generation g updates c : requestGeneration (fst (on_updates g updates c)) = requestGeneration c.
Proof.
  revert c. induction updates as [|[type chunk] updates IH]; intros c; cbn; [done|].
  destruct (handleStreamUpdate g type chunk c) as [c'|] eqn:E; [|done]. rewrite IH. unfold handleStreamUpdate in E.
  destruct (_ || _); [by injection E as <-|]. apply bind_Some in E as (p & _ & [= <-]).
  unfold scheduleStreamFlush. by repeat case_match.
Qed.
Lemma finally_generation g c : requestGeneration (finally_ g c) = requestGeneration c.
Proof. unfold finally_. by case_match. Qed.

Create Rewrite HintDb same_generation.
#[local] Hint Rewrite update_generation_same flush_generation error_generation complete_generation close_generation
  handleError_generation finally_generation : same_generation.

Lemma send_generation env ms c : requestGeneration c <= requestGeneration (sendChat env ms c).
Proof. unfold sendChat. case_match; cbn; lia. Qed.

Lemma generation_grows t env e c c' : handle t env e c = Some c' -> requestGeneration c <= requestGeneration c'.
Proof.
  unfold handle. destruct (of_page e && _); [done|]. destruct e; intros E.
  - injection E as <-. unfold handleSendMessage, submit. etransitivity; [|apply send_generation].
    by autorewrite with same_generation.
  - injection E as <-. unfold handleRegenerateMessage, submit. case_match; [|done].
    etransitivity; [|apply send_generation]. by autorewrite with same_generation.
  - injection E as <-. unfold applyEdit. repeat case_match; autorewrite with same_generation; try done.
    etransitivity; [|apply send_generation]. by autorewrite with same_generation.
  - injection E as <-. unfold handleDeleteMessage. by autorewrite with same_generation.
  - injection E as <-. unfold stopGeneration. autorewrite with same_generation. cbn. lia.
  - injection E as <-. cbn. lia.
  - by injection E as <-.
  - unfold on_headers in E. apply bind_Some in E as ([? ?] & _ & E). repeat case_match; injection E as <-;
      autorewrite with same_generation; done.
  - apply bind_Some in E as (? & _ & [= <-]). unfold on_message. case_match; [|done].
    case_match; [by autorewrite with same_generation|]. case_match; [|by autorewrite with same_generation].
    pose proof (updates_generation (so_chat s) l c) as Hu. destruct (on_updates _ _ c) as [c' []]; cbn in Hu;
      autorewrite with same_generation; lia.
  - apply bind_Some in E as (? & _ & [= <-]). unfold on_source_error. repeat case_match; autorewrite with same_generation; done.
  - apply bind_Some in E as (? & _ & [= <-]). unfold on_readystate. repeat case_match; autorewrite with same_generation; done.
  - apply bind_Some in E as (? & _ & [= <-]). by autorewrite with same_generation.
  - apply bind_Some in E as (? & _ & [= <-]). repeat case_match; autorewrite with same_generation; done.
Qed.

Lemma steps_grow t c es c' : steps t c es c' -> requestGeneration c <= requestGeneration c'.
Proof. induction 1 as [|env e es c c1 c2 Hs _ IH]; [done|]. apply generation_grows in Hs. lia. Qed.
Lemma steps_reachable t c es c' : reachable t c -> steps t c es c' -> reachable t c'.
Proof. intros H Hs. induction Hs as [|env e es c c1 c2 Hs _ IH]; [done|]. apply IH. by eapply reach_step. Qed.

(** C15: a superseded request has no effect.  Once a newer request was sent, or the
    chat was stopped or left, whatever still comes of an older request (headers,
    events of its stream, its timer, its answer) changes nothing but the list of
    what is outstanding, at any later time; and updates of the messages that an
    older request has queued are dropped when they run. *)
Theorem superseded_request_is_inert t c g es c1 env e c2 : reachable t c -> g < requestGeneration c ->
  steps t c es c1 -> handle t env e c1 = Some c2 -> belongs c1 e = Some g ->
  observe c2 = observe c1 /\
  forall upd clock ms, update_generation upd = Some g -> run_update (requestGeneration c2) clock upd ms = ms.
Proof.
  intros Hr Hg Hs He Hb. pose proof (steps_grow _ _ _ _ Hs) as H1. pose proof (generation_grows _ _ _ _ _ He) as H2.
  split.
  - apply (stale_event t env e c1 c2 g); [by eapply chat_reachable_ok, steps_reachable|done..|lia].
  - intros upd clock ms Hu. apply (stale_update _ _ _ g); [done|lia].
Qed.

(** ** Stopping *)

Lemma run_updates_snoc current clocks q upd ms :
  exists clock, run_updates current clocks (q ++ [upd]) ms = run_update current clock upd (run_updates current clocks q ms).
Proof.
  revert clocks ms. induction q as [|v q IH]; intros clocks ms; [by exists (clocks 0)|]. cbn. apply IH.
Qed.

(** What the messages become when the queue runs. *)
Definition upcoming (c : Chat) (clocks : nat -> Clock) : list Message :=
  run_updates (requestGeneration c) clocks (queue c) (messages c).

Lemma upcoming_update env upd c clocks : exists clock,
  upcoming (onMessageUpdate env upd c) clocks = run_update (requestGeneration c) clock upd (upcoming c clocks).
Proof.
  unfold onMessageUpdate. destruct (env_eager env && _) eqn:E.
  - destruct (queue c) eqn:Eq; [|by rewrite andb_false_r in E]. exists (env_clock env 0).
    unfold upcoming. cbn. by rewrite Eq.
  - unfold upcoming. cbn [requestGeneration messages queue set_messages]. apply run_updates_snoc.
Qed.

(** The last message, when the assistant wrote it, satisfies [P]. *)
Definition last_answer (P : Message -> Prop) (ms : list Message) : Prop :=
  forall before m, ms = before ++ [m] -> m_from m = Role_assistant -> P m.

Lemma unsnoc_spec ms : match unsnoc ms with Some (before, m) => ms = before ++ [m] | None => ms = [] end.
Proof.
  unfold unsnoc. destruct (rev ms) as [|m l] eqn:E.
  - by rewrite <- (rev_involutive ms), E.
  - by rewrite <- (rev_involutive ms), E.
Qed.
Lemma unsnoc_app before m : unsnoc (before ++ [m]) = Some (before, m).
Proof. unfold unsnoc. rewrite rev_app_distr. cbn. by rewrite rev_involutive. Qed.

Lemma update_last_answer (P : Message -> Prop) f ms : (forall m, m_from m = Role_assistant -> P (f m)) ->
  (forall m, m_from (f m) = m_from m) ->
  last_answer P (updateLastAssistantMessage ms f).
Proof.
  intros HP Hf before m. unfold updateLastAssistantMessage. pose proof (unsnoc_spec ms) as E.
  destruct (unsnoc ms) as [[b x]|]; subst ms; [|by destruct before].
  case_bool_decide as Hx; intros [-> [= <-]]%app_inj_tail; [|done]. intros _. by apply HP.
Qed.

Lemma from_timing m completed : m_from (completeAssistantTiming m completed) = m_from m.
Proof. unfold completeAssistantTiming. by case_match. Qed.
Lemma status_timing m completed : m_status (completeAssistantTiming m completed) = m_status m.
Proof. unfold completeAssistantTiming. by case_match. Qed.
Lemma from_reasoning m completed : m_from (completeReasoningTiming m completed) = m_from m.
Proof. unfold completeReasoningTiming. by repeat case_match. Qed.
Lemma status_reasoning m completed : m_status (completeReasoningTiming m completed) = m_status m.
Proof. unfold completeReasoningTiming. by repeat case_match. Qed.
Lemma from_finalize clock m api : m_from (finalizeMessage clock m api) = m_from m.
Proof. unfold finalizeMessage. by rewrite from_reasoning. Qed.
Lemma from_complete clock m : m_from (completeAssistantMessage clock m) = m_from m.
Proof. unfold completeAssistantMessage. rewrite from_timing. apply from_finalize. Qed.
Lemma pending_complete clock m : isAssistantMessagePending (completeAssistantMessage clock m) = false.
Proof. unfold completeAssistantMessage, isAssistantMessagePending. by rewrite status_timing. Qed.
Lemma from_response clock m response : m_from (default m (applyChatCompletionResponse clock m response)) = m_from m.
Proof. destruct response; cbn; [done|]. unfold applyChatCompletionChoice. rewrite from_timing. exact (from_finalize clock (updateCurrentVersionContent m _) _). Qed.

(** The updates that settle the answer. *)
Definition settling (upd : Update) : bool :=
  match upd with
  | U_complete _ | U_error _ _ _ _ | U_stop _ | U_response _ (_ :: _) => true
  | _ => false
  end.

Lemma settling_settles current clock upd ms : settling upd = true -> update_generation upd = Some current ->
  last_answer (fun m => isAssistantMessagePending m = false) (run_update current clock upd ms).
Proof.
  destruct upd as [| | |g|g error code title|g [|choice response]|g]; try done; cbn; intros _ [= ->]; rewrite Nat.eqb_refl;
    cbn [negb]; apply update_last_answer; intros m.
  - intros _. destruct (isAssistantMessageFinal m) eqn:E; [|apply pending_complete].
    unfold isAssistantMessageFinal, isAssistantMessagePending in *. by repeat case_match.
  - case_match; [done|apply from_complete].
  - intros _. unfold isAssistantMessagePending. by rewrite status_timing.
  - by rewrite from_timing.
  - intros _. cbn. unfold isAssistantMessagePending, applyChatCompletionChoice. by rewrite status_timing.
  - apply (from_response clock m (choice :: response)).
  - intros _. destruct (isAssistantMessagePending m) eqn:E; [apply pending_complete|done].
  - case_match; [apply from_complete|done].
Qed.

(** The last queued update settles the answer. *)
Definition ended (c : Chat) : Prop := forall clocks, exists clock upd ms,
  upcoming c clocks = run_update (requestGeneration c) clock upd ms /\
  settling upd = true /\ update_generation upd = Some (requestGeneration c).

Lemma update_ended env upd c : settling upd = true -> update_generation upd = Some (requestGeneration c) ->
  ended (onMessageUpdate env upd c).
Proof.
  intros Hs Hg clocks. destruct (upcoming_update env upd c clocks) as [clock E].
  exists clock, upd, (upcoming c clocks). by rewrite update_generation_same.
Qed.

Lemma error_ended t env error code c : ended (handleStreamError t env (requestGeneration c) error code c).
Proof.
  unfold handleStreamError. rewrite Nat.eqb_refl. apply update_ended; [done|].
  cbn. by rewrite flush_generation.
Qed.
Lemma complete_ended env c : ended (handleStreamComplete env (requestGeneration c) c).
Proof.
  unfold handleStreamComplete. rewrite Nat.eqb_refl. apply update_ended; [done|].
  cbn. by rewrite flush_generation.
Qed.
Lemma closed_ended i c : ended c -> ended (closeActiveSource i c).
Proof. unfold closeActiveSource. by case_match. Qed.
Lemma finally_ended g c : ended c -> ended (finally_ g c).
Proof. unfold finally_. by case_match. Qed.

Lemma handleError_ended t env i error code c : chat_ok c -> source c = Some i -> ended (handleError t env i error code c).
Proof.
  intros H E. destruct (ok_source _ H i E) as (s & Es & _ & Hg & _). unfold handleError.
  rewrite (proj2 (current_source_Some i c s H)) by done. apply closed_ended. rewrite Hg.
  exact (error_ended t env error code (mark_completed i c)).
Qed.

Lemma handleError_cases t env i error code c : chat_ok c ->
  handleError t env i error code c = c \/ ended (handleError t env i error code c).
Proof.
  intros H. destruct (decide (source c = Some i)) as [E|E]; [right; by apply handleError_ended|left].
  by apply handleError_stale.
Qed.

Lemma updates_generating g updates c : isGenerating (fst (on_updates g updates c)) = isGenerating c.
Proof.
  revert c. induction updates as [|[type chunk] updates IH]; intros c; cbn; [done|].
  destruct (handleStreamUpdate g type chunk c) as [c'|] eqn:E; [|done]. rewrite IH. unfold handleStreamUpdate in E.
  destruct (_ || _); [by injection E as <-|]. apply bind_Some in E as (p & _ & [= <-]).
  unfold scheduleStreamFlush. by repeat case_match.
Qed.
Lemma update_generating env upd c : isGenerating (onMessageUpdate env upd c) = isGenerating c.
Proof. by destruct (update_shape env upd c) as [q ->]. Qed.
Lemma flush_generating env g c : isGenerating (flushStreamUpdates env g c) = isGenerating c.
Proof. unfold flushStreamUpdates. by repeat case_match; rewrite ?update_generating. Qed.
Lemma send_generating env ms c : isGenerating (sendChat env ms c) = true.
Proof. unfold sendChat, isGenerating. by case_match. Qed.

Lemma headers_end t env g answer starts c c1 : chat_ok c -> isGenerating c = true ->
  on_headers t env g answer starts c = Some c1 -> isGenerating c1 = false -> ended c1.
Proof.
  intros H Hg Hs Hg1. unfold on_headers in Hs. destruct (List.find _ _) as [[g' h]|] eqn:E; [|done].
  cbn [mbind option_bind] in Hs. apply find_elem in E as [Hin Eg]. cbn in Eg. apply Nat.eqb_eq in Eg. subst g'.
  fold (headers_over g c) in Hs. change (generation (headers_over g c)) with (generation c) in Hs.
  destruct (generation c =? g) eqn:Eg; cbn [negb] in Hs.
  2: { injection Hs as <-. change (isGenerating c = false) in Hg1; congruence. }
  apply Nat.eqb_eq in Eg. subst g. destruct (headers_current _ _ (ok_frame _ H) Hin) as (-> & Hsrc & Ha).
  destruct answer as [[]|message].
  - destruct starts; injection Hs as <-; [done|].
    assert (awaiting c) as Haw by (left; by exists (requestGeneration c)).
    pose proof (awaiting_mounted _ H Haw) as Hm. pose proof (proj2 (ok_requesting _ H Hm) Haw) as Hr.
    apply handleError_ended; [|done]. exact (ok_opened c (ok_frame _ H) H Hr Hm Hsrc Ha).
  - injection Hs as <-. exact (error_ended t env _ None (headers_over (generation c) c)).
Qed.

Lemma message_ends t env i data c : chat_ok c -> isGenerating c = true ->
  isGenerating (on_message t env i data c) = false -> ended (on_message t env i data c).
Proof.
  intros H Hg Hg1. unfold on_message in *.
  destruct (current_source i c) as [s|] eqn:E; [|congruence]. apply (current_source_Some _ _ _ H) in E as [E Es].
  destruct (isStreamDoneMessage data).
  { destruct (ok_source _ H _ E) as (s2 & Es2 & _ & Hc & _). rewrite Es in Es2. injection Es2 as <-. rewrite Hc.
    pose proof (complete_ended env (closeActiveSource i (mark_completed i c))) as He. by rewrite close_generation in He. }
  destruct (parseStreamMessageUpdates data) as [updates|]; [|by apply handleError_ended].
  destruct (updates_ok (so_chat s) updates c H (open_mounted _ _ H E)) as (Ho & Hso & _).
  pose proof (updates_generating (so_chat s) updates c) as Hu.
  destruct (on_updates (so_chat s) updates c) as [c' threw]. cbn in Ho, Hso, Hu.
  destruct threw; [|congruence]. apply handleError_ended; [done|congruence].
Qed.

Lemma answer_ends t env g answer c c1 : chat_ok c -> isGenerating c = true ->
  on_answer t env g answer c = Some c1 -> isGenerating c1 = false -> ended c1.
Proof.
  intros H Hg Hs Hg1. unfold on_answer in Hs. destruct (List.find _ _) as [call|] eqn:E; [|done].
  cbn [mbind option_bind] in Hs. fold (call_over g c) in Hs.
  change (requestGeneration (call_over g c)) with (requestGeneration c) in Hs.
  destruct (requestGeneration c =? g) eqn:Er; cbn [negb] in Hs.
  2: { rewrite orb_true_r in Hs. unfold finally_ in Hs. change (requestGeneration (call_over g c)) with (requestGeneration c) in Hs.
       rewrite Er in Hs. injection Hs as <-. change (isGenerating c = false) in Hg1; congruence. }
  apply find_elem in E as [Hin Eg]. apply Nat.eqb_eq in Er, Eg. subst g.
  destruct (answer_current _ _ (ok_frame _ H) Hin (eq_sym Er)) as (Hab & _). rewrite Hab in Hs. cbn [orb] in Hs.
  rewrite <- Er in Hs. injection Hs as <-. apply finally_ended.
  destruct answer as [[|choice response]|error]; cbn [hasChatCompletionChoice negb].
  - exact (error_ended t env _ None (call_over (requestGeneration c) c)).
  - by apply update_ended.
  - exact (error_ended t env _ _ (call_over (requestGeneration c) c)).
Qed.

Lemma handleError_ends t env i error code c : chat_ok c -> isGenerating c = true ->
  isGenerating (handleError t env i error code c) = false -> ended (handleError t env i error code c).
Proof. intros H Hg. destruct (handleError_cases t env i error code c H) as [-> |?]; [congruence|done]. Qed.

Lemma generation_ends t env e c c1 : chat_ok c -> isGenerating c = true -> handle t env e c = Some c1 ->
  mounted c1 = true -> isGenerating c1 = false -> ended c1.
Proof.
  intros H Hg Hs Hm Hg1. unfold handle in Hs. destruct (of_page e && _); [done|]. destruct e.
  - injection Hs as <-. unfold handleSendMessage, submit in Hg1. by rewrite send_generating in Hg1.
  - injection Hs as <-. unfold handleRegenerateMessage, submit in Hg1. case_match; [|congruence].
    by rewrite send_generating in Hg1.
  - injection Hs as <-. unfold applyEdit in Hg1. repeat case_match; rewrite ?send_generating, ?update_generating in Hg1; congruence.
  - injection Hs as <-. unfold handleDeleteMessage in Hg1. rewrite update_generating in Hg1. congruence.
  - injection Hs as <-. by apply update_ended.
  - by injection Hs as <-.
  - injection Hs as <-. change (isGenerating c = false) in Hg1; congruence.
  - by apply (headers_end t env g answer starts c).
  - apply bind_Some in Hs as (s & Es & [= <-]). by apply message_ends.
  - apply bind_Some in Hs as (s & Es & [= <-]). unfold on_source_error in *.
    destruct (current_source i c); [|congruence]. destruct (negb _); [|congruence]. by apply handleError_ends.
  - apply bind_Some in Hs as (s & Es & [= <-]). unfold on_readystate in *.
    destruct (current_source i c); [|congruence]. destruct (getStreamReadyStateError _ _); [|congruence].
    by apply handleError_ends.
  - apply bind_Some in Hs as (g & _ & [= <-]). rewrite flush_generating in Hg1. congruence.
  - by apply (answer_ends t env g answer c).
Qed.

(** C16: a generation does not end with an answer that is still pending.  However a
    generation ends (the last message of the stream, an error of the connection, a
    message that cannot be read, missing headers, an answer, a stop), once the
    messages are rendered the last answer is complete or an error. *)
Theorem ended_generation_settles_the_answer t env e c c1 env' c2 : reachable t c -> isGenerating c = true ->
  handle t env e c = Some c1 -> isGenerating c1 = false -> handle t env' Ev_render c1 = Some c2 ->
  last_answer (fun m => isAssistantMessagePending m = false) (messages c2) /\ queue c2 = [].
Proof.
  intros Hr%chat_reachable_ok Hg Hs Hg1 Hren. unfold handle in Hren. cbn [of_page andb] in Hren.
  destruct (mounted c1) eqn:Hm; [|done]. cbn [negb] in Hren. injection Hren as <-. split; [|done].
  destruct (generation_ends _ _ _ _ _ Hr Hg Hs Hm Hg1 (env_clock env')) as (clock & upd & ms & E & Hset & Hgen).
  cbn [messages render set_messages]. fold (upcoming c1 (env_clock env')). rewrite E. by apply settling_settles.
Qed.

(** ** Runs *)

(** Consecutive events with their surroundings; [None] when one cannot happen. *)
Fixpoint run_events (t : str -> str) (l : list (Env * event)) (c : Chat) : option Chat :=
  match l with
  | [] => Some c
  | (env, e) :: l => c' ← handle t env e c; run_events t l c'
  end.

Lemma run_steps t l c c' : run_events t l c = Some c' -> steps t c (map snd l) c'.
Proof.
  revert c. induction l as [|[env e] l IH]; intros c; cbn [run_events map snd]; [intros [= <-]; apply steps_nil|].
  intros (c1 & H1 & H2)%bind_Some. by apply (steps_cons t env e _ c c1), IH.
Qed.
Lemma run_reachable t l c c' : reachable t c -> run_events t l c = Some c' -> reachable t c'.
Proof. intros H Hr%run_steps. by eapply steps_reachable. Qed.

Module Demo.
Definition config : PlaygroundConfig :=
  {| cf_model := u "gpt-4o"; cf_group := u "default"; cf_temperature := one; cf_top_p := one; cf_max_tokens := of_Z 4096;
     cf_frequency_penalty := zero; cf_presence_penalty := zero; cf_seed := None; cf_stream := true |}.
Definition enabled : ParameterEnabled :=
  {| on_temperature := true; on_top_p := true; on_max_tokens := false; on_frequency_penalty := true;
     on_presence_penalty := true; on_seed := false |}.
Definition env (eager : bool) : Env :=
  {| env_config := config; env_enabled := enabled; env_eager := eager; env_clock := fun _ _ => one |}.
Definition ids (n : string) : PairIds :=
  {| user_key := u "u" ++ u n; user_version := u "uv" ++ u n; answer_key := u "a" ++ u n; answer_version := u "av" ++ u n |}.
Definition translate (s : str) : str := s.
Definition delta (text : string) : str := uq "{'choices':[{'delta':{'content':'" ++ u text ++ uq "'}}]}".

Definition run (l : list (bool * event)) (c : Chat) : Chat :=
  default (initial_chat []) (run_events translate (map (fun p => (env (fst p), snd p)) l) c).

(** A message was sent and its stream is open. *)
Definition opened : Chat :=
  run [(true, Ev_send (ids "1") one (u "hi")); (true, Ev_render); (true, Ev_headers 1 (Ok tt) true)] (initial_chat []).
Definition answer : Message := createLoadingAssistantMessage (u "a1") (u "av1") one.
Definition question : Message := createUserMessage (u "u1") (u "uv1") (u "hi") one.

Definition reached (l : list (bool * event)) : Prop :=
  exists c, run_events translate (map (fun p => (env (fst p), snd p)) l) (initial_chat []) = Some c.
End Demo.

Lemma demo_reachable l : Demo.reached l -> reachable Demo.translate (Demo.run l (initial_chat [])).
Proof.
  intros [c Hc]. unfold Demo.run. rewrite Hc. cbn [default from_option id].
  eapply run_reachable; [apply reach_start|exact Hc].
Qed.

Lemma generating_while_awaiting_witness :
  isGenerating Demo.opened = true /\ awaiting Demo.opened.
Proof.
  assert (isGenerating Demo.opened = true) as Hg by (vm_compute; reflexivity). split; [exact Hg|].
  apply (generating_while_awaiting Demo.translate Demo.opened); [|vm_compute; reflexivity|exact Hg].
  apply demo_reachable. eexists. vm_compute. reflexivity.
Defined.

(** The stream of the first question, after a second one. *)
Definition demo_second : Chat :=
  Demo.run [(true, Ev_send (Demo.ids "1") one (u "hi")); (true, Ev_render); (true, Ev_headers 1 (Ok tt) true);
            (true, Ev_send (Demo.ids "2") one (u "and?")); (true, Ev_render)] (initial_chat []).

Lemma superseded_request_is_inert_witness :
  observe (default (initial_chat []) (handle Demo.translate (Demo.env true) (Ev_message 0 (Demo.delta "late")) demo_second))
  = observe demo_second.
Proof.
  apply (superseded_request_is_inert Demo.translate demo_second 1 [] demo_second (Demo.env true)
           (Ev_message 0 (Demo.delta "late"))).
  - apply demo_reachable. eexists. vm_compute. reflexivity.
  - vm_compute. repeat constructor.
  - apply steps_nil.
  - vm_compute. reflexivity.
  - vm_compute. reflexivity.
Defined.

Lemma ended_generation_settles_the_answer_witness :
  last_answer (fun m => isAssistantMessagePending m = false)
    (messages (Demo.run [(false, Ev_stop); (false, Ev_render)] Demo.opened)).
Proof.
  apply (ended_generation_settles_the_answer Demo.translate (Demo.env false) Ev_stop Demo.opened
           (Demo.run [(false, Ev_stop)] Demo.opened) (Demo.env false)).
  - apply demo_reachable. eexists. vm_compute. reflexivity.
  - vm_compute. reflexivity.
  - vm_compute. reflexivity.
  - vm_compute. reflexivity.
  - vm_compute. reflexivity.
Defined.

(** *** Losses *)

(** The text that is buffered when the user stops is lost, unless React runs the
    update at once: the updater of the flush runs under the new generation. *)
Lemma stop_drops_buffered_text :
  map getMessageContent (messages (Demo.run [(false, Ev_message 0 (Demo.delta "abc")); (false, Ev_stop); (false, Ev_render)] Demo.opened))
    = [u "hi"; []] /\
  map getMessageContent (messages (Demo.run [(true, Ev_message 0 (Demo.delta "abc")); (true, Ev_stop); (true, Ev_render)] Demo.opened))
    = [u "hi"; u "abc"].
Proof. vm_compute. split; reflexivity. Qed.

(** A stream that is closed by the server, with status 200 and without its last
    message, is never noticed. *)
Lemma silent_close_keeps_generating :
  Demo.run [(true, Ev_readystate 0 (Some 2%Z) (Some 200%Z)); (true, Ev_source_error 0 (Some 2%Z) None)] Demo.opened = Demo.opened /\
  isGenerating Demo.opened = true.
Proof. vm_compute. split; reflexivity. Qed.
