(* ===== verification/ChatStream.v ===== *)
(** * The text of a streamed answer

    Chunks are buffered and shown in batches, at times that a timer decides.  The
    text that results does not depend on them; it is the text of the deltas, or the
    last of the snapshots, that the server sent. *)

From Stdlib Require Import String.
From stdpp Require Import list.
From S2P Require Import Prelude JsNumber JsString JsText Ast Request Json ChatMessage ChatConversation ChatSession ChatFacts.

#[local] Open Scope nat_scope.

(** ** Batches of chunks *)

(** [mergePendingStreamChunk] and the appending of [applyStreamingChunk], on texts. *)
Definition merge (current next : str) : str :=
  if nonempty current && starts_with next current then next else current ++ next.
Definition deliver (content chunk : str) : str := content ++ getAppendableChunk content chunk.

Definition merge_all (batch : list str) : str := fold_left merge batch [].
Definition deliver_all (batches : list (list str)) : str := fold_left deliver (map merge_all batches) [].

(** The chunks give this text, however they are cut into batches. *)
Definition streams (chunks : list str) (text : str) : Prop :=
  forall batches, concat batches = chunks -> deliver_all batches = text.

Lemma merge_pending current next : mergePendingStreamChunk current (VString next) = Some (merge current next).
Proof. unfold mergePendingStreamChunk, merge. by destruct (nonempty current) eqn:E; [|destruct current]; cbn. Qed.

Lemma deliver_nil content : deliver content [] = content.
Proof.
  unfold deliver, getAppendableChunk. destruct content as [|x content]; [done|]. cbn. by rewrite app_nil_r.
Qed.

Lemma merge_all_snoc batch chunk : merge_all (batch ++ [chunk]) = merge (merge_all batch) chunk.
Proof. unfold merge_all. by rewrite fold_left_app. Qed.
Lemma deliver_all_snoc batches batch : deliver_all (batches ++ [batch]) = deliver (deliver_all batches) (merge_all batch).
Proof. unfold deliver_all. by rewrite map_app, fold_left_app. Qed.

(** *** Deltas *)

(** No run of chunks is followed at once by its own text. *)
Definition repeats (l : list str) (n : nat) : bool :=
  nonempty (concat (take n l)) && starts_with (concat (drop n l)) (concat (take n l)).
Fixpoint unambiguous (chunks : list str) : bool :=
  match chunks with
  | [] => true
  | _ :: rest => forallb (fun n => negb (repeats chunks n)) (seq 0 (S (length chunks))) && unambiguous rest
  end.

Lemma unambiguous_drop l1 l2 : unambiguous (l1 ++ l2) = true -> unambiguous l2 = true.
Proof. induction l1 as [|x l1 IH]; [done|]. cbn. intros [_ ?]%andb_true_iff. by apply IH. Qed.

Lemma unambiguous_run l1 l2 l3 l4 : unambiguous (l1 ++ l2 ++ l3 ++ l4) = true ->
  nonempty (concat l2) && starts_with (concat l3) (concat l2) = false.
Proof.
  intros H%unambiguous_drop. destruct (_ && _) eqn:E; [|done]. apply andb_true_iff in E as [Hn Hs].
  destruct l2 as [|x l2]; [done|]. cbn [app unambiguous] in H. apply andb_true_iff in H as [H _].
  rewrite forallb_forall in H. specialize (H (length (x :: l2))). exfalso.
  assert (repeats (x :: l2 ++ l3 ++ l4) (length (x :: l2)) = true) as Hr.
  { unfold repeats. change (x :: l2 ++ l3 ++ l4) with ((x :: l2) ++ l3 ++ l4).
    rewrite take_app_length, drop_app_length, Hn, concat_app. cbn [andb].
    apply starts_with_app in Hs as [r Hs]. apply starts_with_app. exists (r ++ concat l4). by rewrite Hs, (assoc_L (++)). }
  rewrite Hr in H. discriminate H. apply in_seq. cbn. rewrite !length_app. lia.
Qed.

Lemma delta_merge l1 batch l2 : unambiguous (l1 ++ batch ++ l2) = true -> merge_all batch = concat batch.
Proof.
  revert l2. induction batch as [|chunk batch IH] using rev_ind; intros l2 H; [done|].
  rewrite merge_all_snoc, concat_app, (IH (chunk :: l2)) by (by rewrite <- (assoc_L (++)) in H). cbn. rewrite app_nil_r.
  unfold merge. rewrite <- (assoc_L (++)) in H. apply (unambiguous_run l1 batch [chunk]) in H. cbn in H.
  rewrite app_nil_r in H. by rewrite H.
Qed.

Lemma delta_deliver batches l : unambiguous (concat batches ++ l) = true -> deliver_all batches = concat (concat batches).
Proof.
  revert l. induction batches as [|batch batches IH] using rev_ind; intros l H; [done|].
  rewrite concat_app in H |- *. cbn in H |- *. rewrite app_nil_r in H |- *. rewrite <- (assoc_L (++)) in H.
  rewrite deliver_all_snoc, (IH (batch ++ l)), (delta_merge (concat batches) batch l), concat_app by done.
  unfold deliver, getAppendableChunk.
  apply (unambiguous_run [] (concat batches) batch l) in H. destruct (nonempty (concat (concat batches))); [|done].
  cbn [andb negb orb] in *. by rewrite H.
Qed.

Lemma deltas_stream chunks : unambiguous chunks = true -> streams chunks (concat chunks).
Proof. intros H batches <-. apply (delta_deliver batches []). by rewrite app_nil_r. Qed.

(** *** Snapshots *)

(** Each snapshot extends the one before. *)
Fixpoint growing (text : str) (snapshots : list str) : bool :=
  match snapshots with
  | [] => true
  | next :: snapshots => starts_with next text && growing next snapshots
  end.

Definition latest (text : str) (snapshots : list str) : str := List.last snapshots text.

Lemma latest_cons text next l : latest text (next :: l) = latest next l.
Proof. unfold latest. destruct l as [|x l]; [done|]. cbn [List.last]. revert x. induction l as [|y l IH]; intros x; [done|]. apply IH. Qed.

Lemma growing_app text l1 l2 : growing text (l1 ++ l2) = growing text l1 && growing (latest text l1) l2.
Proof.
  revert text. induction l1 as [|next l1 IH]; intros text; [done|]. cbn [app growing].
  by rewrite IH, latest_cons, andb_assoc.
Qed.
Lemma latest_app text l1 l2 : latest text (l1 ++ l2) = latest (latest text l1) l2.
Proof. revert text. induction l1 as [|next l1 IH]; intros text; [done|]. cbn [app]. by rewrite !latest_cons. Qed.

Lemma starts_with_refl s : starts_with s s = true.
Proof. apply starts_with_app. exists []. by rewrite app_nil_r. Qed.
Lemma growing_latest text l : growing text l = true -> starts_with (latest text l) text = true.
Proof.
  revert text. induction l as [|next l IH]; intros text; [intros _; apply starts_with_refl|]. cbn [growing].
  intros [Hn Hl]%andb_true_iff. rewrite latest_cons. apply IH in Hl. apply starts_with_app in Hn as [a ->], Hl as [b ->].
  apply starts_with_app. exists (a ++ b). by rewrite (assoc_L (++)).
Qed.

Lemma snapshot_merge text chunk : starts_with chunk text = true -> merge text chunk = chunk.
Proof. intros H. unfold merge. rewrite H. by destruct text. Qed.
Lemma snapshot_deliver text chunk : starts_with chunk text = true -> deliver text chunk = chunk.
Proof.
  intros H. unfold deliver, getAppendableChunk. rewrite H. destruct text as [|x text]; [done|]. cbn [nonempty negb orb].
  apply starts_with_app in H as [r ->]. by rewrite drop_app_length.
Qed.

Lemma snapshot_merge_all batch text : growing text batch = true -> merge_all batch = latest [] batch.
Proof.
  destruct batch as [|chunk batch]; [done|]. cbn [growing]. intros [_ H]%andb_true_iff. rewrite latest_cons.
  unfold merge_all. cbn [fold_left]. change (merge [] chunk) with chunk. revert chunk H.
  induction batch as [|next batch IH]; intros chunk H; [done|]. cbn [growing] in H. apply andb_true_iff in H as [Hn H].
  cbn [fold_left]. rewrite snapshot_merge, latest_cons by done. by apply IH.
Qed.

Lemma snapshots_stream snapshots : growing [] snapshots = true -> streams snapshots (latest [] snapshots).
Proof.
  intros H batches <-. induction batches as [|batch batches IH] using rev_ind; [done|].
  rewrite concat_app in H |- *. cbn in H |- *. rewrite app_nil_r in H |- *. rewrite growing_app in H.
  apply andb_true_iff in H as [H1 H2]. rewrite deliver_all_snoc, IH, latest_app, (snapshot_merge_all _ _ H2) by done.
  destruct batch as [|chunk batch]; [apply deliver_nil|]. apply growing_latest in H2 as Hl.
  rewrite !latest_cons in *. by apply snapshot_deliver.
Qed.

(** ** Chunks in a message *)

Definition thought (m : Message) : str := match m_reasoning m with Some r => r_content r | None => [] end.

Lemma content_updated m content : getMessageContent (updateCurrentVersionContent m content) = content.
Proof. done. Qed.

Lemma content_reasoning_timing m completed :
  getMessageContent (completeReasoningTiming m completed) = getMessageContent m.
Proof. unfold completeReasoningTiming. by repeat case_match. Qed.
Lemma content_timing m completed : getMessageContent (completeAssistantTiming m completed) = getMessageContent m.
Proof. unfold completeAssistantTiming. by case_match. Qed.
Lemma thought_reasoning_timing m completed : thought (completeReasoningTiming m completed) = thought m.
Proof.
  unfold completeReasoningTiming, thought. destruct (m_reasoning m) as [r|] eqn:E; [|by rewrite E].
  destruct (r_durationMs r); [by rewrite E|done].
Qed.
Lemma key_reasoning_timing m completed : m_key (completeReasoningTiming m completed) = m_key m.
Proof. unfold completeReasoningTiming. by repeat case_match. Qed.
Lemma start_content m started : r_content (startReasoningTiming m started) = thought m.
Proof. unfold startReasoningTiming, thought. by case_match. Qed.

Lemma process_content clock m chunk :
  getMessageContent (processStreamingContent clock m chunk) = getMessageContent m ++ chunk /\
  m_from (processStreamingContent clock m chunk) = m_from m /\ m_key (processStreamingContent clock m chunk) = m_key m.
Proof. unfold processStreamingContent. by repeat case_match. Qed.

Lemma no_tags content : includes content open_tag = false -> parseThinkTags content = Parsed content [] false.
Proof. unfold parseThinkTags. by intros ->. Qed.

Lemma process_thought clock m chunk : includes (getMessageContent m ++ chunk) open_tag = false ->
  thought (processStreamingContent clock m chunk) = thought m.
Proof.
  intros H. unfold processStreamingContent. change (v_content (getCurrentVersion m)) with (getMessageContent m).
  rewrite H, (no_tags _ H). unfold thought. destruct (m_reasoning m) eqn:E; cbn; rewrite ?E; done.
Qed.

(** A message that still takes chunks, with its texts. *)
Record takes (before_key : str) (content : str) (m : Message) : Prop := {
  takes_from : m_from m = Role_assistant;
  takes_key : m_key m = before_key;
  takes_status : isAssistantMessagePending m = true;
  takes_content : getMessageContent m = content;
}.

Lemma takes_not_error key content m : takes key content m -> bool_decide (m_status m = Some Status_error) = false.
Proof.
  intros [_ _ H _]. unfold isAssistantMessagePending in H. apply bool_decide_eq_false. by destruct (m_status m) as [[]|].
Qed.

Lemma takes_reasoning clock key content m chunk : takes key content m ->
  takes key content (applyStreamingChunk clock m Chunk_reasoning chunk) /\
  thought (applyStreamingChunk clock m Chunk_reasoning chunk) = deliver (thought m) chunk.
Proof.
  intros H. pose proof (takes_not_error _ _ _ H) as Hs. destruct H as [H1 H2 H3 H4]. unfold applyStreamingChunk. rewrite Hs.
  rewrite !start_content. split; [by split|done].
Qed.

Lemma takes_chunk clock key content m chunk : takes key content m ->
  takes key (deliver content chunk) (applyStreamingChunk clock m Chunk_content chunk) /\
  (includes (deliver content chunk) open_tag = false ->
   thought (applyStreamingChunk clock m Chunk_content chunk) = thought m).
Proof.
  intros H. pose proof (takes_not_error _ _ _ H) as Hs. destruct H as [H1 H2 H3 H4]. unfold applyStreamingChunk. rewrite Hs.
  change (v_content (getCurrentVersion m)) with (getMessageContent m). rewrite H4.
  set (m' := processStreamingContent clock m (getAppendableChunk content chunk)).
  destruct (process_content clock m (getAppendableChunk content chunk)) as (Hc & Hf & Hk). fold m' in Hc, Hf, Hk.
  assert (getMessageContent m' = deliver content chunk) as Hd by (by rewrite Hc, H4).
  assert (includes (deliver content chunk) open_tag = false -> thought m' = thought m) as Ht.
  { intros E. apply process_thought. by rewrite H4. }
  destruct (m_isReasoningStreaming m') as [[]|]; (split; [split|]); try done; cbn.
  all: rewrite ?from_reasoning, ?key_reasoning_timing; try congruence.
  all: first [ change (getMessageContent (completeReasoningTiming m' (clock 1)) = deliver content chunk);
               by rewrite content_reasoning_timing
             | intros E; change (thought (completeReasoningTiming m' (clock 1)) = thought m);
               rewrite thought_reasoning_timing; by apply Ht ].
Qed.

(** A batch of chunks of both kinds. *)
Lemma takes_batch clock key content m reasoning chunk : takes key content m ->
  takes key (deliver content chunk) (apply_chunks clock reasoning chunk m) /\
  (includes (deliver content chunk) open_tag = false ->
   thought (apply_chunks clock reasoning chunk m) = deliver (thought m) reasoning).
Proof.
  intros H. unfold apply_chunks.
  set (m1 := if nonempty reasoning then applyStreamingChunk clock m Chunk_reasoning reasoning else m).
  assert (takes key content m1 /\ thought m1 = deliver (thought m) reasoning) as [H1 Ht].
  { unfold m1. destruct reasoning as [|x reasoning]; [by rewrite deliver_nil|]. by apply takes_reasoning. }
  destruct chunk as [|x chunk]; cbn [nonempty].
  - rewrite deliver_nil. done.
  - destruct (takes_chunk (fun k => clock (S (S k))) _ _ _ (x :: chunk) H1) as [H2 Ht2]. split; [done|].
    intros E. by rewrite (Ht2 E).
Qed.

(** The end of the answer. *)
Lemma complete_content clock m : getMessageContent (completeAssistantMessage clock m) =
  visibleContent (parseThinkTags (getMessageContent m)).
Proof.
  unfold completeAssistantMessage, finalizeMessage. rewrite content_timing.
  change (getMessageContent (with_status Status_complete ?x)) with (getMessageContent x). rewrite content_reasoning_timing.
  change (v_content (getCurrentVersion m)) with (getMessageContent m).
  destruct (includes (getMessageContent m) open_tag) eqn:E; [done|]. by rewrite (no_tags _ E).
Qed.

Lemma reasoning_timing m completed : r_content <$> m_reasoning (completeReasoningTiming m completed) = r_content <$> m_reasoning m.
Proof.
  unfold completeReasoningTiming. destruct (m_reasoning m) as [r|] eqn:E; [|by rewrite E].
  destruct (r_durationMs r); [by rewrite E|done].
Qed.
Lemma assistant_timing_reasoning m completed : m_reasoning (completeAssistantTiming m completed) = m_reasoning m.
Proof. unfold completeAssistantTiming. by case_match. Qed.

Lemma complete_thought clock m : includes (getMessageContent m) open_tag = false ->
  r_content <$> m_reasoning (completeAssistantMessage clock m) = if nonempty (thought m) then Some (thought m) else None.
Proof.
  intros E. unfold completeAssistantMessage, finalizeMessage. rewrite assistant_timing_reasoning.
  change (v_content (getCurrentVersion m)) with (getMessageContent m). rewrite E.
  change (m_reasoning (with_status Status_complete ?x)) with (m_reasoning x). rewrite reasoning_timing.
  unfold thought. destruct (m_reasoning m) as [r|] eqn:Er; cbn; [|done].
  by destruct (r_content r).
Qed.

Lemma key_complete clock m : m_key (completeAssistantMessage clock m) = m_key m.
Proof.
  unfold completeAssistantMessage, completeAssistantTiming. unfold finalizeMessage. case_match; cbn; by rewrite key_reasoning_timing.
Qed.
Lemma status_complete clock m : m_status (completeAssistantMessage clock m) = Some Status_complete.
Proof. unfold completeAssistantMessage. by rewrite status_timing. Qed.

(** ** The stream of a request *)

Definition text_update (p : StreamChunkType * str) : StreamChunkType * value := (fst p, VString (snd p)).

(** What happens while source [i] streams texts: its messages, the timer, renders. *)
Definition stream_event (i : nat) (e : event) : Prop :=
  match e with
  | Ev_message j data => j = i /\ isStreamDoneMessage data = false /\
      exists texts, parseStreamMessageUpdates data = Some (map text_update texts)
  | Ev_timer | Ev_render => True
  | _ => False
  end.

Definition is_content (type : StreamChunkType) : bool :=
  match type with Chunk_content => true | Chunk_reasoning => false end.
Definition texts_of (content : bool) (updates : list (StreamChunkType * value)) : list str :=
  flat_map (fun p => match p with
                     | (type, VString text) => if Bool.eqb (is_content type) content then [text] else []
                     | _ => []
                     end) updates.

(** The chunks of content, or of reasoning, that the events bring. *)
Definition chunks_in (content : bool) (e : event) : list str :=
  match e with
  | Ev_message _ data =>
      match parseStreamMessageUpdates data with Some updates => texts_of content updates | None => [] end
  | _ => []
  end.
Definition chunks_of (content : bool) (es : list event) : list str := flat_map (chunks_in content) es.

Lemma includes_prefix a b t : includes (a ++ b) t = false -> includes a t = false.
Proof.
  induction a as [|x a IH]; cbn [includes app].
  - destruct t as [|y t]; [|done]. destruct b; cbn; congruence.
  - intros [H1 H2]%orb_false_iff. rewrite (IH H2), orb_false_r. destruct (starts_with (x :: a) t) eqn:E; [|done].
    apply starts_with_app in E as [r E]. enough (starts_with (x :: a ++ b) t = true) by congruence.
    apply starts_with_app. exists (r ++ b). by rewrite (assoc_L (++)), <- E.
Qed.

Section stream.
  Context (t : str -> str) (before : list Message) (key : str).

  (** Shown: the batches [kb] of content and [rb] of reasoning; buffered: [kc] and [rc]. *)
Record buffered (c : Chat) (kb rb : list (list str)) (kc rc : list str) : Prop := {
    buffer_pending : pendingChunks c =
      {| p_generation := requestGeneration c; p_content := merge_all kc; p_reasoning := merge_all rc |};
    buffer_shown : forall clocks, exists m, upcoming c clocks = before ++ [m] /\ takes key (deliver_all kb) m /\
      (includes (deliver_all kb) open_tag = false -> thought m = deliver_all rb);
  }.

Lemma update_buffer type text c kb rb kc rc : buffered c kb rb kc rc ->
    exists c', handleStreamUpdate (requestGeneration c) type (VString text) c = Some c' /\
      buffered c' kb rb (if is_content type then kc ++ [text] else kc) (if is_content type then rc else rc ++ [text]) /\
      requestGeneration c' = requestGeneration c.
  Proof.
    intros [Hp Hu]. unfold handleStreamUpdate. rewrite Hp, Nat.eqb_refl. cbn [p_generation]. rewrite Nat.eqb_refl.
    cbn [negb orb p_reasoning p_content]. unfold scheduleStreamFlush.
    destruct type; rewrite merge_pending; cbn [mbind option_bind requestGeneration set_handler is_content];
      rewrite Nat.eqb_refl; cbn [negb]; eexists; (split; [reflexivity|]).
    all: case_match; (split; [|done]); (split; [cbn; by rewrite merge_all_snoc|exact Hu]).
  Qed.

Lemma updates_buffer texts c kb rb kc rc : buffered c kb rb kc rc ->
    snd (on_updates (requestGeneration c) (map text_update texts) c) = false /\
    buffered (fst (on_updates (requestGeneration c) (map text_update texts) c)) kb rb
      (kc ++ texts_of true (map text_update texts)) (rc ++ texts_of false (map text_update texts)).
  Proof.
    revert c kc rc. induction texts as [|[type text] texts IH]; intros c kc rc H; [cbn; by rewrite !app_nil_r|].
    cbn [map text_update fst snd on_updates]. destruct (update_buffer type text c kb rb kc rc H) as (c' & -> & H' & Hg).
    rewrite <- Hg. destruct (IH c' _ _ H') as [H1 H2]. split; [done|].
    cbn [texts_of flat_map]. destruct type; cbn [is_content Bool.eqb app] in H2 |- *; by rewrite <- (assoc_L (++)) in H2.
  Qed.

Lemma flush_buffer env c kb rb kc rc : buffered c kb rb kc rc ->
    buffered (flushStreamUpdates env (requestGeneration c) c) (kb ++ [kc]) (rb ++ [rc]) [] [].
  Proof.
    intros [Hp Hu]. unfold flushStreamUpdates. rewrite Nat.eqb_refl. cbn [negb pendingChunks set_handler].
    rewrite Hp. cbn [p_generation p_reasoning p_content]. rewrite Nat.eqb_refl. cbn [negb].
    destruct (negb (nonempty (merge_all rc)) && negb (nonempty (merge_all kc))) eqn:E.
    - apply andb_true_iff in E as [Er Ek]. destruct (merge_all rc) eqn:Mr; [|done]. destruct (merge_all kc) eqn:Mk; [|done].
      split; [done|]. rewrite !deliver_all_snoc, Mr, Mk, !deliver_nil. exact Hu.
    - set (c0 := set_handler _ (no_chunks _) _ _ _).
      split; [by destruct (update_shape env (U_flush (requestGeneration c) (merge_all rc) (merge_all kc)) c0) as [q ->]|].
      intros clocks. destruct (upcoming_update env (U_flush (requestGeneration c) (merge_all rc) (merge_all kc)) c0 clocks) as [clock ->].
      change (upcoming c0 clocks) with (upcoming c clocks). destruct (Hu clocks) as (m & -> & Hm & Ht).
      cbn [run_update requestGeneration c0 set_handler]. rewrite Nat.eqb_refl. cbn [negb].
      unfold updateLastAssistantMessage. rewrite unsnoc_app, (bool_decide_true _ (takes_from _ _ _ Hm)).
      rewrite !deliver_all_snoc. destruct (takes_batch clock _ _ _ (merge_all rc) (merge_all kc) Hm) as [H1 H2].
      eexists. split; [reflexivity|]. split; [done|]. intros E1. rewrite (H2 E1), Ht; [done|].
      by eapply includes_prefix.
  Qed.

Lemma event_buffer env i e c c' kb rb kc rc : chat_ok c -> source c = Some i -> stream_event i e ->
    buffered c kb rb kc rc -> handle t env e c = Some c' ->
    source c' = Some i /\ exists kb' rb' kc' rc', buffered c' kb' rb' kc' rc' /\
      concat kb' ++ kc' = (concat kb ++ kc) ++ chunks_in true e /\
      concat rb' ++ rc' = (concat rb ++ rc) ++ chunks_in false e.
  Proof.
    intros H Hi He Hb Hs. pose proof (open_mounted _ _ H Hi) as Hm. destruct e; try done; unfold handle in Hs; cbn [of_page andb] in Hs.
    - rewrite Hm in Hs. injection Hs as <-. split; [done|]. exists kb, rb, kc, rc. cbn [chunks_in]. rewrite !app_nil_r.
      split; [|done]. split; [exact (buffer_pending _ _ _ _ _ Hb)|]. intros clocks.
      exact (buffer_shown _ _ _ _ _ Hb (env_clock env)).
    - destruct He as (-> & Hd & texts & Hp). apply bind_Some in Hs as (s & Es & [= <-]).
      cbn [chunks_in]. rewrite Hp. unfold on_message. rewrite (proj2 (current_source_Some i c s H)) by done.
      rewrite Hd, Hp. destruct (ok_source _ H _ Hi) as (s' & Es' & _ & Hg & _). rewrite Es in Es'. injection Es' as <-. rewrite Hg.
      destruct (updates_buffer texts c kb rb kc rc Hb) as [H1 H2].
      pose proof (updates_ok (requestGeneration c) (map text_update texts) c H Hm) as (_ & H3 & _).
      destruct (on_updates _ _ c) as [c' threw]. cbn [fst snd] in H1, H2, H3. subst threw. split; [congruence|].
      exists kb, rb, (kc ++ texts_of true (map text_update texts)), (rc ++ texts_of false (map text_update texts)).
      by rewrite !(assoc_L (++)).
    - apply bind_Some in Hs as (g & Hg & [= <-]). rewrite (ok_timer _ H Hm _ Hg).
      split; [by destruct (flush_shape env c (ok_pending _ H Hm)) as [q ->]|].
      exists (kb ++ [kc]), (rb ++ [rc]), [], []. split; [by apply flush_buffer|]. cbn [chunks_in].
      rewrite !concat_app. cbn. by rewrite !app_nil_r.
  Qed.

Lemma events_buffer i es c c' kb rb kc rc : reachable t c -> source c = Some i -> Forall (stream_event i) es ->
    buffered c kb rb kc rc -> steps t c es c' ->
    reachable t c' /\ source c' = Some i /\ exists kb' rb' kc' rc', buffered c' kb' rb' kc' rc' /\
      concat kb' ++ kc' = (concat kb ++ kc) ++ chunks_of true es /\
      concat rb' ++ rc' = (concat rb ++ rc) ++ chunks_of false es.
  Proof.
    intros Hr Hi Hes Hb Hs. revert kb rb kc rc Hi Hes Hb.
    induction Hs as [c|env e es c c1 c2 He _ IH]; intros kb rb kc rc Hi Hes Hb.
    { split_and!; [done..|]. exists kb, rb, kc, rc. cbn. by rewrite !app_nil_r. }
    apply Forall_cons_iff in Hes as [H1 H2].
    destruct (event_buffer env i e c c1 kb rb kc rc (chat_reachable_ok _ _ Hr) Hi H1 Hb He) as (Hi1 & kb1 & rb1 & kc1 & rc1 & Hb1 & Ek & Er).
    destruct (IH (reach_step _ _ _ _ _ Hr He) kb1 rb1 kc1 rc1 Hi1 H2 Hb1) as (Hr2 & Hi2 & kb2 & rb2 & kc2 & rc2 & Hb2 & Ek2 & Er2).
    split_and!; [done..|]. exists kb2, rb2, kc2, rc2. split; [done|]. cbn [chunks_of flat_map].
    rewrite Ek2, Er2, Ek, Er. by rewrite !(assoc_L (++)).
  Qed.
End stream.

(** A message that waits for its first chunk. *)
Definition fresh_answer (m : Message) : Prop :=
  m_from m = Role_assistant /\ isAssistantMessagePending m = true /\ getMessageContent m = [] /\ m_reasoning m = None.

Lemma fresh_buffered c before m : chat_ok c -> mounted c = true -> queue c = [] -> has_chunks (pendingChunks c) = false ->
  messages c = before ++ [m] -> fresh_answer m -> buffered before (m_key m) c [] [] [] [].
Proof.
  intros H Hm Hq Hk Hms (H1 & H2 & H3 & H4). split.
  - pose proof (ok_pending _ H Hm) as Hp. destruct (pendingChunks c) as [g k r]. cbn in Hp, Hk |- *.
    apply orb_false_iff in Hk as [? ?]. by destruct k, r; subst.
  - intros clocks. exists m. unfold upcoming. rewrite Hq, Hms. split; [done|]. split; [by split|].
    intros _. unfold thought. by rewrite H4.
Qed.

(** [\[DONE\]] after the chunks. *)
Lemma done_completes t env c i before key kb rb kc rc : chat_ok c -> source c = Some i ->
  buffered before key c kb rb kc rc ->
  isGenerating (on_message t env i (u "[DONE]") c) = false /\ mounted (on_message t env i (u "[DONE]") c) = true /\
  forall clocks, exists clock m, upcoming (on_message t env i (u "[DONE]") c) clocks = before ++ [completeAssistantMessage clock m] /\
    takes key (deliver_all (kb ++ [kc])) m /\
    (includes (deliver_all (kb ++ [kc])) open_tag = false -> thought m = deliver_all (rb ++ [rc])).
Proof.
  intros H Hi Hb. pose proof (open_mounted _ _ H Hi) as Hm.
  destruct (ok_source _ H _ Hi) as (s & Es & _ & Hg & _). unfold on_message.
  rewrite (proj2 (current_source_Some i c s H)) by done. change (isStreamDoneMessage (u "[DONE]")) with true. cbn match. rewrite Hg.
  unfold closeActiveSource. cbn [source mark_completed set_stream]. rewrite (bool_decide_true _ Hi).
  set (c1 := set_stream None _ _ _ false _).
  assert (buffered before key c1 kb rb kc rc) as Hb1 by (destruct Hb as [Hp Hu]; split; [exact Hp|exact Hu]).
  change (requestGeneration c) with (requestGeneration c1).
  destruct (complete_shape env c1 (ok_pending _ H Hm)) as [q Hq].
  split; [by rewrite Hq|]. split; [by rewrite Hq|]. intros clocks. clear q Hq.
  pose proof (flush_buffer before key env c1 kb rb kc rc Hb1) as [_ Hu].
  unfold handleStreamComplete. rewrite Nat.eqb_refl. cbn [negb].
  set (c2 := set_requesting false _).
  destruct (upcoming_update env (U_complete (requestGeneration c1)) c2 clocks) as [clock ->].
  change (upcoming c2 clocks) with (upcoming (flushStreamUpdates env (requestGeneration c1) c1) clocks).
  destruct (Hu clocks) as (m & -> & Htk & Hth). exists clock, m. split; [|done].
  replace (requestGeneration c2) with (requestGeneration c1) by (symmetry; apply (flush_generation env)).
  cbn [run_update]. rewrite Nat.eqb_refl. cbn [negb]. unfold updateLastAssistantMessage.
  rewrite unsnoc_app, (bool_decide_true _ (takes_from _ _ _ Htk)). pose proof (takes_status _ _ _ Htk) as Hst.
  destruct (isAssistantMessageFinal m) eqn:Ef; [|done].
  unfold isAssistantMessageFinal, isAssistantMessagePending in *. by destruct (m_status m) as [[]|].
Qed.

(** C12: a streamed answer shows the text that was sent.  A stream whose chunks give
    [text], its messages interleaved in any way with the timer and with renders,
    and ended by the last message, leaves the answer complete with the visible part
    of [text] (what is outside of the tags for thinking) and every other message as
    it was; and when the text has no such tags, the reasoning is the text that the
    chunks of reasoning give. *)
Theorem streamed_answer_is_complete t c i before m es c1 env c2 env' c3 text :
  reachable t c -> source c = Some i -> queue c = [] -> has_chunks (pendingChunks c) = false ->
  messages c = before ++ [m] -> fresh_answer m ->
  Forall (stream_event i) es -> steps t c es c1 ->
  handle t env (Ev_message i (u "[DONE]")) c1 = Some c2 -> handle t env' Ev_render c2 = Some c3 ->
  streams (chunks_of true es) text ->
  isGenerating c3 = false /\
  exists answer, messages c3 = before ++ [answer] /\ m_key answer = m_key m /\
    m_status answer = Some Status_complete /\ getMessageContent answer = visibleContent (parseThinkTags text) /\
    forall thinking, includes text open_tag = false -> streams (chunks_of false es) thinking ->
      r_content <$> m_reasoning answer = if nonempty thinking then Some thinking else None.
Proof.
  intros Hr Hi Hq Hk Hms Hfr Hes Hs Hd Hren Htext. pose proof (chat_reachable_ok _ _ Hr) as H.
  pose proof (fresh_buffered c before m H (open_mounted _ _ H Hi) Hq Hk Hms Hfr) as Hb.
  destruct (events_buffer t before (m_key m) i es c c1 [] [] [] [] Hr Hi Hes Hb Hs) as (Hr1 & Hi1 & kb & rb & kc & rc & Hb1 & Ek & Er).
  cbn [concat app] in Ek, Er. unfold handle in Hd. cbn [of_page andb] in Hd. apply bind_Some in Hd as (s & _ & [= <-]).
  destruct (done_completes t env c1 i before (m_key m) kb rb kc rc (chat_reachable_ok _ _ Hr1) Hi1 Hb1) as (Hgen & Hm2 & Hu).
  unfold handle in Hren. cbn [of_page andb] in Hren. rewrite Hm2 in Hren. injection Hren as <-.
  split; [exact Hgen|]. destruct (Hu (env_clock env')) as (clock & m' & Em & Htk & Hth).
  exists (completeAssistantMessage clock m'). cbn [messages render set_messages].
  assert (deliver_all (kb ++ [kc]) = text) as Et.
  { apply Htext. rewrite concat_app. cbn. by rewrite app_nil_r. }
  split; [exact Em|]. rewrite key_complete, status_complete, complete_content, (takes_content _ _ _ Htk), Et.
  split; [apply (takes_key _ _ _ Htk)|]. split; [done|]. split; [done|]. intros thinking Hnt Hthink.
  assert (deliver_all (rb ++ [rc]) = thinking) as Eth.
  { apply Hthink. rewrite concat_app. cbn. by rewrite app_nil_r. }
  rewrite complete_thought by (by rewrite (takes_content _ _ _ Htk), Et). rewrite Hth, Eth; [done|by rewrite Et].
Qed.

(** the timer does not change the text.  Chunks that are deltas, as long as no
    run of them is followed by its own text, give their concatenation however they
    are cut into batches; and chunks that are snapshots, each extending the one
    before, give the last one. *)
Theorem batches_do_not_change_the_text chunks batches : concat batches = chunks ->
  (unambiguous chunks = true -> deliver_all batches = concat chunks) /\
  (growing [] chunks = true -> deliver_all batches = latest [] chunks).
Proof. intros E. split; intros H; [by apply (deltas_stream chunks H)|by apply (snapshots_stream chunks H)]. Qed.

Lemma batches_do_not_change_the_text_witness :
  deliver_all [[u "He"; u "llo"]; []; [u " wor"; u "ld"]] = u "Hello world" /\
  deliver_all [[u "He"; u "Hello"]; [u "Hello wor"; u "Hello world"]] = u "Hello world".
Proof.
  split.
  - apply (batches_do_not_change_the_text [u "He"; u "llo"; u " wor"; u "ld"]); reflexivity.
  - apply (batches_do_not_change_the_text [u "He"; u "Hello"; u "Hello wor"; u "Hello world"]); reflexivity.
Defined.

(** *** An example *)

Definition demo_stream : list (bool * event) :=
  [(true, Ev_message 0 (Demo.delta "He")); (true, Ev_timer); (false, Ev_message 0 (Demo.delta "llo"));
   (true, Ev_render); (false, Ev_message 0 (Demo.delta " world"))].

Lemma streamed_answer_is_complete_witness :
  let final := Demo.run (demo_stream ++ [(false, Ev_message 0 (u "[DONE]")); (true, Ev_render)]) Demo.opened in
  exists answer, messages final = [Demo.question] ++ [answer] /\ getMessageContent answer = u "Hello world".
Proof.
  intros final.
  assert (streams (chunks_of true (map snd demo_stream)) (u "Hello world")) as Ht.
  { assert (chunks_of true (map snd demo_stream) = [u "He"; u "llo"; u " world"]) as -> by (vm_compute; reflexivity).
    apply (deltas_stream [u "He"; u "llo"; u " world"]). vm_compute. reflexivity. }
  assert (reachable Demo.translate Demo.opened) as Hr.
  { apply demo_reachable. eexists. vm_compute. reflexivity. }
  assert (source Demo.opened = Some 0) as Hi by (vm_compute; reflexivity).
  assert (queue Demo.opened = []) as Hq by (vm_compute; reflexivity).
  assert (has_chunks (pendingChunks Demo.opened) = false) as Hk by (vm_compute; reflexivity).
  assert (messages Demo.opened = [Demo.question] ++ [Demo.answer]) as Hm by (vm_compute; reflexivity).
  assert (fresh_answer Demo.answer) as Hf by (vm_compute; repeat split).
  assert (forall text, stream_event 0 (Ev_message 0 (Demo.delta text)) <->
    isStreamDoneMessage (Demo.delta text) = false /\ exists texts, parseStreamMessageUpdates (Demo.delta text) = Some (map text_update texts))
    as He by (intros text; unfold stream_event; tauto).
  assert (Forall (stream_event 0) (map snd demo_stream)) as Hes.
  { unfold demo_stream. cbn [map snd]. repeat (apply List.Forall_cons); try exact I; try (apply List.Forall_nil); apply He; (split; [vm_compute; reflexivity|]).
    - exists [(Chunk_content, u "He")]. vm_compute. reflexivity.
    - exists [(Chunk_content, u "llo")]. vm_compute. reflexivity.
    - exists [(Chunk_content, u " world")]. vm_compute. reflexivity. }
  assert (run_events Demo.translate (map (fun p => (Demo.env (fst p), snd p)) demo_stream) Demo.opened
          = Some (Demo.run demo_stream Demo.opened)) as Hs by (vm_compute; reflexivity).
  apply run_steps in Hs. rewrite map_map in Hs. cbn [snd] in Hs.
  assert (handle Demo.translate (Demo.env false) (Ev_message 0 (u "[DONE]")) (Demo.run demo_stream Demo.opened)
          = Some (Demo.run (demo_stream ++ [(false, Ev_message 0 (u "[DONE]"))]) Demo.opened)) as Hd by (vm_compute; reflexivity).
  assert (handle Demo.translate (Demo.env true) Ev_render (Demo.run (demo_stream ++ [(false, Ev_message 0 (u "[DONE]"))]) Demo.opened)
          = Some final) as Hren by (vm_compute; reflexivity).
  destruct (streamed_answer_is_complete _ _ _ _ _ _ _ _ _ _ _ _ Hr Hi Hq Hk Hm Hf Hes Hs Hd Hren Ht)
    as (_ & answer & H1 & _ & _ & H2 & _).
  exists answer. split; [exact H1|]. rewrite H2. vm_compute. reflexivity.
Defined.

(** A chunk that repeats the text so far is taken for a snapshot and is lost. *)
Lemma repeated_chunk_is_dropped :
  deliver_all [[u "ha"]; [u "ha"]] = u "ha" /\ deliver_all [[u "ha"; u "ha"]] = u "ha".
Proof. split; reflexivity. Qed.
