(* ===== verification/ChatTexts.v ===== *)
(** * Thinking tags and stored conversations

    What [parseThinkTags] makes of a text, and what a conversation is after it was
    loaded. *)

From Stdlib Require Import String.
From stdpp Require Import list.
From S2P Require Import Prelude JsNumber JsString JsText Ast Request Regex Json ChatMessage ChatConversation ChatStorage ChatSession ChatFacts ChatStream.

#[local] Open Scope nat_scope.

(** ** The first occurrence of a text *)

Lemma position_of_None s t : position_of s t = None <-> includes s t = false.
Proof.
  induction s as [|x s IH]; cbn [position_of includes].
  - destruct (starts_with [] t); done.
  - destruct (starts_with (x :: s) t); cbn [orb]; [done|]. rewrite <- IH. by destruct (position_of s t).
Qed.

Lemma position_of_Some s t n : position_of s t = Some n ->
  s = take n s ++ t ++ drop (n + length t) s /\ includes (take n s) t = false \/ t = [].
Proof.
  revert n. induction s as [|x s IH]; intros n; cbn [position_of].
  - destruct t; [by right|done].
  - destruct (starts_with (x :: s) t) eqn:E.
    + intros [= <-]. apply starts_with_app in E as [r E]. destruct t as [|y t]; [by right|left]. rewrite E.
      cbn [Nat.add]. by rewrite drop_app_length.
    + destruct (position_of s t) as [k|] eqn:Ek; [|done]. intros [= <-]. destruct (IH k eq_refl) as [[E1 E2]| ->]; [left|by right].
      cbn. split; [congruence|]. rewrite E2, orb_false_r. destruct (starts_with (x :: take k s) t) eqn:E3; [|done].
      apply starts_with_app in E3 as [r E3]. enough (starts_with (x :: s) t = true) by congruence.
      apply starts_with_app. exists (r ++ drop k s). rewrite (assoc_L (++)), <- E3. cbn. by rewrite take_drop.
Qed.

(** A text whose first character does not come again in it. *)
Definition unbordered (t : str) : Prop := exists c r, t = c :: r /\ c ∉ r.

Lemma starts_later t w r : unbordered t -> w <> [] -> includes w t = false -> starts_with (w ++ t ++ r) t = false.
Proof.
  intros (c & t0 & -> & Hc) Hw Hi. destruct (starts_with _ _) eqn:E; [|done]. apply starts_with_app in E as [r' E].
  destruct (decide (length w < length (c :: t0))) as [Hl|Hl].
  - exfalso. apply (f_equal (fun l => l !! length w)) in E. rewrite lookup_app_r, Nat.sub_diag in E by done.
    rewrite (lookup_app_l (c :: t0) r' (length w)) in E by done. destruct w as [|x w]; [done|]. cbn in E.
    apply Hc. apply list_elem_of_lookup. exists (length w). exact (eq_sym E).
  - enough (includes w (c :: t0) = true) by congruence. destruct w as [|x w]; [done|].
    cbn [includes]. apply orb_true_iff. left. apply starts_with_app. exists (drop (length (c :: t0)) (x :: w)).
    apply (f_equal (take (length (x :: w)))) in E. rewrite take_app_length, take_app_ge in E by lia.
    rewrite E at 1. apply (f_equal (drop (length (c :: t0)))) in E. rewrite drop_app_length in E. by rewrite E.
Qed.

Lemma position_first t v r : unbordered t -> includes v t = false -> position_of (v ++ t ++ r) t = Some (length v).
Proof.
  intros Ht. induction v as [|x v IH]; intros Hv.
  - cbn [app]. assert (starts_with (t ++ r) t = true) as E by (apply starts_with_app; by exists r).
    destruct (t ++ r) as [|y s] eqn:El; cbn [position_of]; by rewrite E.
  - pose proof (starts_later t (x :: v) r Ht) as E. cbn [app position_of] in E |- *. rewrite E; [|done..].
    cbn [includes] in Hv. apply orb_false_iff in Hv as [_ Hv]. by rewrite (IH Hv).
Qed.

Lemma open_unbordered : unbordered open_tag.
Proof. eexists _, _. split; [reflexivity|]. by apply (bool_decide_eq_true_1 _). Qed.
Lemma close_unbordered : unbordered close_tag.
Proof. eexists _, _. split; [reflexivity|]. by apply (bool_decide_eq_true_1 _). Qed.

(** ** Segments of a text *)

(** Visible text and reasoning, in turn. *)
Definition segment_text (p : str * str) : str := fst p ++ open_tag ++ snd p ++ close_tag.
Definition tagged (segments : list (str * str)) (tail : str) : str := concat (map segment_text segments) ++ tail.
Definition clean (p : str * str) : Prop := includes (fst p) open_tag = false /\ includes (snd p) close_tag = false.

Lemma join_concat l : join [] l = concat l.
Proof. induction l as [|s [|s' l] IH]; [done|cbn; by rewrite app_nil_r|]. cbn in *. by rewrite IH. Qed.

(** [think_loop] on a text that starts with a segment. *)
Lemma think_segment fuel v r rest visible reasoning : clean (v, r) -> exists visible',
  think_loop (S fuel) (segment_text (v, r) ++ rest) visible reasoning = think_loop fuel rest visible' (reasoning ++ [r]) /\
  concat visible' = concat visible ++ v.
Proof.
  intros [Hv Hr]. cbn [fst snd] in Hv, Hr. unfold segment_text. cbn [fst snd think_loop].
  rewrite <- !(assoc_L (++)), (position_first open_tag v _ open_unbordered Hv).
  assert (forall x : str, drop (length v + 7) (v ++ open_tag ++ x) = x) as ->.
  { intros x. rewrite <- drop_drop, drop_app_length. apply (drop_app_length open_tag). }
  rewrite (position_first close_tag r _ close_unbordered Hr), !take_app_length.
  assert (drop (length r + 8) (r ++ close_tag ++ rest) = rest) as ->.
  { rewrite <- drop_drop, drop_app_length. apply (drop_app_length close_tag). }
  eexists. split; [reflexivity|]. destruct v as [|x v]; [cbn; by rewrite app_nil_r|]. cbn [length Nat.ltb Nat.leb].
  rewrite concat_app. cbn. by rewrite app_nil_r.
Qed.

Lemma segments_cost segments tail : length segments <= length (tagged segments tail).
Proof.
  induction segments as [|[v r] segments IH]; [cbn [length]; lia|]. unfold tagged in *. cbn [map concat].
  rewrite <- (assoc_L (++)), length_app. unfold segment_text at 1. cbn [fst snd]. rewrite !length_app in *.
  change (length open_tag) with 7. cbn [length]. lia.
Qed.

Lemma think_segments segments : forall fuel tail visible reasoning, Forall clean segments ->
  exists visible',
    think_loop (length segments + fuel) (tagged segments tail) visible reasoning =
      think_loop fuel tail visible' (reasoning ++ map snd segments) /\
    concat visible' = concat visible ++ concat (map fst segments).
Proof.
  induction segments as [|[v r] segments IH]; intros fuel tail visible reasoning Hc.
  { exists visible. cbn. by rewrite !app_nil_r. }
  apply Forall_cons_iff in Hc as [H1 H2]. unfold tagged. cbn [map concat length Nat.add]. rewrite <- (assoc_L (++)).
  destruct (think_segment (length segments + fuel) v r (tagged segments tail) visible reasoning H1) as (visible1 & E1 & C1).
  unfold tagged in E1. rewrite E1. destruct (IH fuel tail visible1 (reasoning ++ [r]) H2) as (visible2 & E2 & C2).
  unfold tagged in E2. rewrite E2. exists visible2. rewrite C2, C1. cbn [fst snd]. by rewrite <- !(assoc_L (++)).
Qed.

Lemma includes_middle v t s : includes (v ++ t ++ s) t = true.
Proof.
  induction v as [|x v IH]; cbn [app].
  - assert (starts_with (t ++ s) t = true) as E by (apply starts_with_app; by exists s).
    destruct (t ++ s); cbn [includes]; by rewrite E.
  - cbn [includes]. by rewrite IH, orb_true_r.
Qed.

Lemma tagged_includes segments tail : segments <> [] -> includes (tagged segments tail) open_tag = true.
Proof.
  destruct segments as [|[v r] segments]; [done|]. intros _. unfold tagged, segment_text. cbn [map concat fst snd].
  rewrite <- !(assoc_L (++)). apply includes_middle.
Qed.

(** The end of a text: a visible part and possibly a thought that is not closed. *)
Definition tail_text (tail : str) (last : option str) : str :=
  tail ++ match last with Some thought => open_tag ++ thought | None => [] end.
Definition clean_tail (tail : str) (last : option str) : Prop :=
  includes tail open_tag = false /\ match last with Some thought => includes thought close_tag = false | None => True end.

Lemma think_tail fuel tail last visible reasoning : clean_tail tail last -> exists visible',
  think_loop (S fuel) (tail_text tail last) visible reasoning =
    (visible', reasoning ++ match last with Some thought => [thought] | None => [] end,
     match last with Some _ => true | None => false end) /\
  concat visible' = concat visible ++ tail.
Proof.
  unfold tail_text. intros [Ht Hl]. cbn [think_loop]. destruct last as [thought|].
  - rewrite (position_first open_tag tail thought open_unbordered Ht).
    rewrite <- drop_drop, drop_app_length. change 7 with (length open_tag). rewrite drop_app_length, take_app_length.
    rewrite (proj2 (position_of_None thought close_tag) Hl). eexists. split; [reflexivity|].
    destruct tail as [|x tail]; [cbn; by rewrite app_nil_r|]. cbn [length Nat.ltb Nat.leb].
    rewrite concat_app. cbn. by rewrite app_nil_r.
  - rewrite app_nil_r, (proj2 (position_of_None tail open_tag) Ht), app_nil_r. eexists. split; [reflexivity|].
    destruct tail as [|x tail]; [cbn; by rewrite app_nil_r|]. cbn [nonempty]. rewrite concat_app. cbn. by rewrite app_nil_r.
Qed.

Lemma tail_includes segments tail thought : includes (tagged segments (tail_text tail (Some thought))) open_tag = true.
Proof. unfold tagged, tail_text. rewrite (assoc_L (++)). apply includes_middle. Qed.

Lemma parse_tagged segments tail last : Forall clean segments -> clean_tail tail last ->
  includes (tagged segments (tail_text tail last)) open_tag = true ->
  parseThinkTags (tagged segments (tail_text tail last)) =
    Parsed (trim (concat (map fst segments) ++ tail))
      (trim (join [10; 10]%N (map snd segments ++ match last with Some thought => [thought] | None => [] end)))
      (match last with Some _ => true | None => false end).
Proof.
  intros Hc Ht Hi. unfold parseThinkTags. rewrite Hi. cbn [negb].
  pose proof (segments_cost segments (tail_text tail last)) as Hn. set (content := tagged segments (tail_text tail last)) in *.
  replace (S (length content)) with (length segments + S (length content - length segments)) by lia.
  destruct (think_segments segments (S (length content - length segments)) (tail_text tail last) [] [] Hc) as (visible & E & C).
  unfold content at 2. rewrite E.
  destruct (think_tail (length content - length segments) tail last visible ([] ++ map snd segments) Ht) as (visible' & E' & C').
  rewrite E', join_concat, C', C. done.
Qed.

Lemma position_split s t n : unbordered t -> position_of s t = Some n ->
  exists a b, s = a ++ t ++ b /\ includes a t = false.
Proof. intros (c & r & -> & _) H. destruct (position_of_Some _ _ _ H) as [[? ?]|?]; [by eexists _, _|done]. Qed.

Lemma text_tagged n : forall content, length content <= n -> exists segments tail last,
  Forall clean segments /\ clean_tail tail last /\ content = tagged segments (tail_text tail last).
Proof.
  induction n as [|n IH]; intros content Hn.
  { exists [], [], None. split; [apply List.Forall_nil|]. destruct content; [|cbn in Hn; lia]. by repeat split. }
  destruct (position_of content open_tag) as [k|] eqn:Ek.
  2: { exists [], content, None. split; [apply List.Forall_nil|]. apply position_of_None in Ek. split; [done|].
       unfold tagged, tail_text. cbn. by rewrite app_nil_r. }
  destruct (position_split _ _ _ open_unbordered Ek) as (v & rest & -> & Hv).
  destruct (position_of rest close_tag) as [j|] eqn:Ej.
  2: { exists [], v, (Some rest). split; [apply List.Forall_nil|]. apply position_of_None in Ej. done. }
  destruct (position_split _ _ _ close_unbordered Ej) as (r & rest' & -> & Hr).
  destruct (IH rest') as (segments & tail & last & H1 & H2 & ->).
  { rewrite !length_app in Hn. change (length open_tag) with 7 in Hn. lia. }
  exists ((v, r) :: segments), tail, last. split; [by apply List.Forall_cons|]. split; [done|].
  unfold tagged, segment_text. cbn [map concat fst snd]. by rewrite <- !(assoc_L (++)).
Qed.

(** the parts of a text with thinking tags are kept apart.  A text made of
    visible parts without the opening tag and thoughts without the closing one,
    the last thought possibly not closed, is split into exactly these: what is shown
    is the visible parts one after the other, what is thought is the thoughts on
    paragraphs of their own, and an open tag is reported; a text without tags is
    shown as it is.  Every text is of this form. *)
Theorem think_tags_keep_parts_apart :
  (forall segments tail last, Forall clean segments -> clean_tail tail last ->
     parseThinkTags (tagged segments (tail_text tail last)) =
       match segments, last with
       | [], None => Parsed tail [] false
       | _, _ =>
           Parsed (trim (concat (map fst segments) ++ tail))
             (trim (join [10; 10]%N (map snd segments ++ match last with Some thought => [thought] | None => [] end)))
             (match last with Some _ => true | None => false end)
       end) /\
  (forall content, exists segments tail last, Forall clean segments /\ clean_tail tail last /\
     content = tagged segments (tail_text tail last)).
Proof.
  split; [|intros content; by apply (text_tagged (length content))].
  intros segments tail last Hc Ht. destruct segments as [|p segments]; [destruct last as [thought|]|].
  - apply parse_tagged; [done..|]. apply tail_includes.
  - unfold tagged, tail_text. cbn [map concat app]. rewrite app_nil_r. apply no_tags, Ht.
  - rewrite parse_tagged; [done..|]. by apply tagged_includes.
Qed.

(** ** The sizes of loaded messages *)

Lemma size_app a b : size (a ++ b) = (size a + size b)%Z.
Proof. unfold size. rewrite length_app. lia. Qed.
Lemma size_nonneg s : (0 <= size s)%Z.
Proof. unfold size. lia. Qed.
Lemma size_trim s : (size (trim s) <= size s)%Z.
Proof. unfold size. pose proof (trim_length s). lia. Qed.
Lemma size_drop n s : (size (drop n s) <= size s)%Z.
Proof. unfold size. rewrite length_drop. lia. Qed.

Lemma truncate_size text maximum : (0 <= maximum)%Z -> (size (truncateText text maximum) <= maximum)%Z.
Proof.
  intros Hm. unfold truncateText. destruct (Z.leb_spec (size text) maximum); [done|].
  destruct (Z.leb_spec maximum (size TRUNCATED_CONTENT_SUFFIX)).
  - unfold size. rewrite length_take. lia.
  - rewrite size_app. unfold size at 1. rewrite length_take. lia.
Qed.

Lemma collapse_size text : (size (collapseRepeatedSectionSnapshots text) <= size text)%Z.
Proof. unfold collapseRepeatedSectionSnapshots. repeat case_match; try lia. apply size_drop. Qed.

(** Neither part of a text is longer than the text. *)
Lemma tagged_size segments tail last :
  (size (concat (map fst segments) ++ tail) <= size (tagged segments (tail_text tail last)))%Z /\
  (size (join [10; 10]%N (map snd segments ++ match last with Some thought => [thought] | None => [] end))
   <= size (tagged segments (tail_text tail last)))%Z.
Proof.
  unfold tagged. induction segments as [|[v r] segments [IH1 IH2]].
  - cbn [map concat app join]. unfold tail_text. rewrite size_app. split; [match goal with |- (_ <= _ + size ?x)%Z => pose proof (size_nonneg x); lia end|].
    destruct last as [thought|]; cbn [join].
    + rewrite size_app. pose proof (size_nonneg tail). pose proof (size_nonneg open_tag). lia.
    + pose proof (size_nonneg tail). cbn. unfold size. cbn. lia.
  - cbn [map concat fst snd]. unfold segment_text at 1 3. cbn [fst snd]. rewrite !size_app in *.
    change (size open_tag) with 7%Z. change (size close_tag) with 8%Z.
    pose proof (size_nonneg v). pose proof (size_nonneg r). split; [lia|].
    cbn [app]. destruct (map snd segments ++ _) as [|s rest].
    + cbn [join]. pose proof (size_nonneg (concat (map segment_text segments))). pose proof (size_nonneg (tail_text tail last)). lia.
    + change (join [10; 10]%N (r :: s :: rest)) with (r ++ [10; 10]%N ++ join [10; 10]%N (s :: rest)).
      rewrite !size_app. change (size [10; 10]%N) with 2%Z. lia.
Qed.

Lemma parse_size content : (size (visibleContent (parseThinkTags content)) <= size content)%Z /\
  (size (think_reasoning (parseThinkTags content)) <= size content)%Z.
Proof.
  destruct (includes content open_tag) eqn:E; [|rewrite (no_tags _ E); cbn; unfold size; cbn; lia].
  destruct (text_tagged (length content) content) as (segments & tail & last & H1 & H2 & ->); [done|].
  rewrite (parse_tagged _ _ _ H1 H2 E). cbn [visibleContent think_reasoning].
  destruct (tagged_size segments tail last). split; (etransitivity; [apply size_trim|done]).
Qed.

(** Every text of the message is short enough. *)
Definition bounded (m : Message) : Prop :=
  Forall (fun v => (size (v_content v) <= MAX_LOADED_MESSAGE_CHARS)%Z) (m_versions m) /\
  (size (thought m) <= MAX_LOADED_MESSAGE_CHARS)%Z.

Lemma bounded_content m : bounded m -> (size (getMessageContent m) <= MAX_LOADED_MESSAGE_CHARS)%Z.
Proof.
  intros [H _]. unfold getMessageContent, getCurrentVersion. destruct (m_versions m); [done|].
  by apply Forall_cons_iff in H as [? _].
Qed.

Lemma normalized_version_size v : (size (v_content (fst (normalized_version v))) <= MAX_LOADED_MESSAGE_CHARS)%Z.
Proof.
  unfold normalized_version.
  assert (size (truncateText (collapseRepeatedSectionSnapshots (v_content v)) MAX_LOADED_MESSAGE_CHARS)
          <= MAX_LOADED_MESSAGE_CHARS)%Z as H by by apply truncate_size.
  destruct (_ && _) eqn:E; [|done]. cbn [fst]. apply andb_true_iff in E as [E _]. apply str_eqb_eq in E. by rewrite <- E.
Qed.

Lemma normalized_texts_bounded m : bounded (fst (normalized_texts m)).
Proof.
  unfold normalized_texts. destruct (existsb snd _ || _) eqn:E; cbn [fst].
  - split.
    + cbn [m_versions with_reasoning with_versions]. apply List.Forall_map, List.Forall_map, List.Forall_forall.
      intros v _. apply normalized_version_size.
    + unfold thought. cbn [m_reasoning with_reasoning]. destruct (m_reasoning m) as [r|]; cbn; [by apply truncate_size|done].
  - apply orb_false_iff in E as [Ev Er]. split.
    + apply List.Forall_forall. intros v Hv. destruct (snd (normalized_version v)) eqn:Es.
      { assert (existsb snd (map normalized_version (m_versions m)) = true) as Ht; [|congruence].
        apply existsb_exists. exists (normalized_version v). split; [by apply List.in_map|done]. }
      pose proof (normalized_version_size v) as Hs. unfold normalized_version in Es, Hs. by destruct (_ && _).
    + unfold thought. apply negb_false_iff, bool_decide_eq_true in Er. destruct (m_reasoning m) as [r|]; [|done].
      cbn in Er. injection Er as Er. rewrite <- Er. by apply truncate_size.
Qed.

Lemma bounded_finalize clock m : bounded m -> bounded (finalizeMessage clock m None).
Proof.
  intros H. pose proof (bounded_content m H) as Hc. destruct H as [_ Ht]. destruct (parse_size (getMessageContent m)) as [Pv Pr].
  split.
  - assert (m_versions (finalizeMessage clock m None) =
      [Version (v_id (getCurrentVersion m)) (visibleContent (parseThinkTags (getMessageContent m)))]) as ->.
    { unfold finalizeMessage. change (v_content (getCurrentVersion m)) with (getMessageContent m).
      destruct (includes (getMessageContent m) open_tag) eqn:E; [|rewrite (no_tags _ E)];
        unfold completeReasoningTiming; by repeat case_match. }
    apply List.Forall_cons; [|apply List.Forall_nil]. cbn [v_content]. lia.
  - unfold finalizeMessage. rewrite thought_reasoning_timing. unfold thought in Ht |- *.
    change (v_content (getCurrentVersion m)) with (getMessageContent m). cbn [m_reasoning with_streaming with_reasoning or_text].
    set (final := or_text _ _). assert (size final <= MAX_LOADED_MESSAGE_CHARS)%Z as Hf.
    { unfold final. destruct (m_reasoning m) as [r|]; cbn [fmap option_fmap option_map or_text].
      - destruct (nonempty (r_content r)); [done|]. destruct (includes _ _); cbn; [case_match; [lia|done]|done].
      - destruct (includes _ _); cbn; [case_match; [lia|done]|done]. }
    by destruct (nonempty final).
Qed.

Lemma bounded_timing m completed : bounded m -> bounded (completeAssistantTiming m completed).
Proof. unfold completeAssistantTiming. by case_match. Qed.

Lemma normalize_bounded clock m : bounded (fst (normalizeStoredMessageForLoad clock m)).
Proof.
  unfold normalizeStoredMessageForLoad. pose proof (normalized_texts_bounded m) as H.
  destruct (normalized_texts m) as [m' changed]. cbn [fst] in H. repeat (case_match; [done|]).
  cbn [fst]. apply bounded_timing. exact (bounded_finalize clock m' H).
Qed.

(** *** What is kept *)

Definition total_size (l : list Message) : Z := foldr (fun m total => (getMessageSize m + total)%Z) 0%Z l.

(** The messages before the kept ones come in reverse order. *)
Lemma size_loop_spec rest : forall total result, total = total_size result ->
  (length result <= 1 \/ (total <= MAX_LOADED_MESSAGES_CHARS)%Z) ->
  exists dropped, rev rest ++ result = dropped ++ size_loop total result rest /\
    (length (size_loop total result rest) <= 1 \/
     (total_size (size_loop total result rest) <= MAX_LOADED_MESSAGES_CHARS)%Z) /\
    (rest <> [] -> size_loop total result rest <> []).
Proof.
  induction rest as [|m rest IH]; intros total result Ht Hb; cbn [size_loop].
  { exists []. rewrite <- Ht. by split. }
  destruct (match result with [] => false | _ => _ end) eqn:E.
  - exists (rev (m :: rest)). rewrite <- Ht. split; [done|]. split; [done|]. by destruct result.
  - destruct (IH (total + getMessageSize m)%Z (m :: result)) as (dropped & H1 & H2 & H3).
    + cbn [total_size foldr]. fold (total_size result). lia.
    + destruct result as [|x result]; [by left|]. right. apply Z.ltb_ge in E. lia.
    + exists dropped. split; [|split; [done|]].
      * rewrite <- H1. cbn [rev]. by rewrite <- (assoc_L (++)).
      * intros _. destruct rest; [done|]. by apply H3.
Qed.

Lemma trim_suffix l : exists dropped, l = dropped ++ trimMessages l /\ length (trimMessages l) <= MAX_STORED_MESSAGES.
Proof.
  unfold trimMessages. destruct (Nat.leb_spec (length l) MAX_STORED_MESSAGES) as [H|H]; [by exists []|].
  exists (take (length l - MAX_STORED_MESSAGES) l). split; [by rewrite take_drop|]. rewrite length_drop. lia.
Qed.

(** *** Pending messages *)

Definition blank (m : Message) : Prop := trim (getMessageContent m) = [] /\ trim (thought m) = [].

Lemma has_reasoning_thought m : has_reasoning m = nonempty (trim (thought m)).
Proof. unfold has_reasoning, thought. by destruct (m_reasoning m). Qed.

Lemma normalized_pending clock m : isAssistantMessagePending (fst (normalizeStoredMessageForLoad clock m)) = true ->
  blank (fst (normalizeStoredMessageForLoad clock m)).
Proof.
  unfold normalizeStoredMessageForLoad. destruct (normalized_texts m) as [m' changed].
  destruct (isAssistantMessagePending m') eqn:Ep; cbn [negb fst]; [|congruence].
  rewrite has_reasoning_thought. unfold hasMessageContent.
  destruct (negb _ && negb _) eqn:E; cbn [fst].
  - intros _. apply andb_true_iff in E as [E1 E2]. split; [by destruct (trim (getMessageContent m'))|by destruct (trim (thought m'))].
  - unfold isAssistantMessagePending. by rewrite status_timing.
Qed.

Lemma includes_head c t s : includes s (c :: t) = true -> c ∈ s.
Proof.
  induction s as [|x s IH]; [done|]. cbn [includes]. intros [H|H]%orb_true_iff.
  - cbn in H. apply andb_true_iff in H as [H _]. apply N.eqb_eq in H as <-. apply list_elem_of_here.
  - apply list_elem_of_further. by apply IH.
Qed.

Lemma blank_no_tags s : trim s = [] -> includes s open_tag = false.
Proof.
  intros H. destruct (includes s open_tag) eqn:E; [|done]. exfalso.
  apply (includes_head 60%N) in E. destruct (trim_split s) as (a & b & Es & Ha & Hb). rewrite H in Es. cbn in Es. subst s.
  assert (is_space 60%N = true) as Hsp; [|by vm_compute in Hsp].
  apply elem_of_app in E as [E|E]; rewrite list_elem_of_In in E; [by apply (proj1 (List.Forall_forall _ _) Ha)|by apply (proj1 (List.Forall_forall _ _) Hb)].
Qed.

Lemma last_pending_None l : last_pending l = None -> Forall (fun m => isPendingAssistantMessage m = false) l.
Proof.
  induction l as [|m l IH]; cbn; [intros _; apply List.Forall_nil|]. destruct (last_pending l) as [[[? ?] ?]|]; [done|].
  destruct (isPendingAssistantMessage m) eqn:E; [done|]. intros _. apply List.Forall_cons; [done|]. by apply IH.
Qed.
Lemma last_pending_Some l before target after : last_pending l = Some (before, target, after) ->
  l = before ++ target :: after /\ isPendingAssistantMessage target = true /\
  Forall (fun m => isPendingAssistantMessage m = false) after.
Proof.
  revert before. induction l as [|m l IH]; intros before; cbn; [done|].
  destruct (last_pending l) as [[[b x] a]|] eqn:E.
  - intros [= <- -> ->]. destruct (IH _ eq_refl) as (-> & ? & ?). done.
  - destruct (isPendingAssistantMessage m) eqn:Em; [|done]. intros [= <- <- <-]. split_and!; [done..|].
    by apply last_pending_None.
Qed.

Section loading.
  Context (t : str -> str).

Definition interrupted : str := t (API_REQUEST_ERROR ERROR_MESSAGES) ++ u ": " ++ t (INTERRUPTED ERROR_MESSAGES).

  (** The repair of a blank message. *)
Lemma sanitize_blank clock before target after l : last_pending l = Some (before, target, after) -> blank target ->
    exists notice, sanitizeMessagesOnLoad t clock l = before ++ notice :: after /\
      m_key notice = m_key target /\ m_status notice = Some Status_error /\ getMessageContent notice = interrupted.
  Proof.
    intros E [Hc Ht]. unfold sanitizeMessagesOnLoad. rewrite E. pose proof (blank_no_tags _ Hc) as Hi.
    set (finalized := finalizeMessage clock target None).
    assert (getMessageContent finalized = getMessageContent target) as Ec.
    { unfold finalized, finalizeMessage. rewrite content_reasoning_timing.
      change (v_content (getCurrentVersion target)) with (getMessageContent target). by rewrite Hi. }
    assert (thought finalized = thought target) as Eth.
    { unfold finalized, finalizeMessage. rewrite thought_reasoning_timing.
      change (v_content (getCurrentVersion target)) with (getMessageContent target). rewrite Hi. unfold thought.
      destruct (m_reasoning target) as [r|]; cbn; [|done]. by destruct (r_content r). }
    unfold hasMessageContent. rewrite Ec, Hc. cbn [nonempty orb].
    assert (match m_reasoning finalized with Some r => nonempty (trim (r_content r)) | None => false end = false) as ->.
    { fold (has_reasoning finalized). by rewrite has_reasoning_thought, Eth, Ht. }
    eexists. split; [reflexivity|]. split; [|split].
    - unfold completeAssistantTiming. case_match; cbn; unfold finalized, finalizeMessage; by rewrite key_reasoning_timing.
    - by rewrite status_timing.
    - by rewrite content_timing.
  Qed.

  (** The messages [kept] of a stored conversation, as they are shown. *)
Definition shown_as (kept ms : list Message) : Prop :=
    Forall (fun m => isPendingAssistantMessage m = false) kept /\ ms = kept \/
    exists before target after notice, kept = before ++ target :: after /\ blank target /\
      Forall (fun m => isPendingAssistantMessage m = false) after /\ ms = before ++ notice :: after /\
      m_key notice = m_key target /\ m_status notice = Some Status_error /\ getMessageContent notice = interrupted.

Lemma sanitize_shows clock kept : Forall (fun m => isAssistantMessagePending m = true -> blank m) kept ->
    shown_as kept (sanitizeMessagesOnLoad t clock kept).
  Proof.
    intros Hb. destruct (last_pending kept) as [[[before target] after]|] eqn:E.
    - destruct (last_pending_Some _ _ _ _ E) as (Ek & Hp & Ha). right.
      assert (blank target) as Ht.
      { rewrite List.Forall_forall in Hb. apply Hb; [rewrite Ek; apply in_elt|].
        unfold isPendingAssistantMessage in Hp. by apply andb_true_iff in Hp as [_ ?]. }
      destruct (sanitize_blank clock _ _ _ _ E Ht) as (notice & H1 & H2 & H3 & H4). by exists before, target, after, notice.
    - left. split; [by apply last_pending_None|]. unfold sanitizeMessagesOnLoad. by rewrite E.
  Qed.

Lemma shown_length kept ms : shown_as kept ms -> length ms = length kept.
  Proof. intros [[_ ->]|(b & x & a & n & -> & _ & _ & -> & _)]; [done|]. by rewrite !length_app. Qed.
End loading.

(** C33: a loaded conversation is bounded and settled.  Whatever the stored text and
    the schema, messages that are loaded are the last of the stored ones, at most
    100 of them and, if more than one, at most 120000 characters in all, with no
    text of more than 40000 characters; the last answer is not left pending: one
    without any text becomes the notice of an interruption.  If the browser lets
    them, exactly the loaded messages are stored again. *)
Theorem loaded_messages_are_repaired schema conforms encode accepts t clocks clock stored ms stored' :
  loadMessages schema conforms encode accepts t clocks clock stored = (Some ms, stored') ->
  exists v parsed dropped kept, (stored ≫= json_parse) = Some v /\ schema (unwrapStoredValue v) = Some parsed /\
    imap (fun i m => fst (normalizeStoredMessageForLoad (clocks i) m)) parsed = dropped ++ kept /\
    (parsed <> [] -> kept <> []) /\
    length kept <= MAX_STORED_MESSAGES /\
    (length kept <= 1 \/ (total_size kept <= MAX_LOADED_MESSAGES_CHARS)%Z) /\
    Forall bounded kept /\ shown_as t kept ms /\
    stored' = if conforms ms && accepts (encode ms) then Some (encode ms) else stored.
Proof.
  unfold loadMessages. destruct stored as [[|x saved]|]; [done| |done]. case_match; [done|].
  destruct (json_parse (x :: saved)) as [v|] eqn:Ej; [|done]. destruct (truthy v); cbn [negb]; [|done].
  destruct (schema (unwrapStoredValue v)) as [parsed|] eqn:Es; [|done]. unfold repaired.
  set (normalized := imap _ parsed). intros [= <- <-].
  destruct (trim_suffix normalized) as (d1 & E1 & L1).
  destruct (size_loop_spec (rev (trimMessages normalized)) 0 [] eq_refl (or_introl (le_S _ _ (le_n 0)))) as (d2 & E2 & L2 & N2).
  rewrite rev_involutive, app_nil_r in E2. fold (trimMessagesByContentSize (trimMessages normalized)) in E2, L2, N2.
  set (kept := trimMessagesByContentSize (trimMessages normalized)) in *.
  assert (Forall (fun m => bounded m /\ (isAssistantMessagePending m = true -> blank m)) normalized) as Hn.
  { unfold normalized. apply list.Forall_lookup. intros i m. rewrite list_lookup_imap. destruct (parsed !! i); [|done].
    intros [= <-]. split; [apply normalize_bounded|apply normalized_pending]. }
  assert (Forall (fun m => bounded m /\ (isAssistantMessagePending m = true -> blank m)) kept) as Hk.
  { rewrite E1, E2 in Hn. by apply list.Forall_app in Hn as [_ [_ ?]%list.Forall_app]. }
  assert (shown_as t kept (sanitizeMessagesOnLoad t clock kept)) as Hs.
  { apply sanitize_shows. by eapply list.Forall_impl; [exact Hk|]; intros m [_ ?]. }
  exists v, parsed, (d1 ++ d2), kept. split_and!; [exact Ej|exact Es| | | |done| |done|].
  - fold normalized. rewrite E1, E2 at 1. by rewrite (assoc_L (++)).
  - intros Hp. apply N2. intros E. apply Hp. apply (f_equal (@length _)) in E. rewrite length_rev in E. cbn in E.
    unfold trimMessages in E. destruct (Nat.leb_spec (length normalized) MAX_STORED_MESSAGES).
    + unfold normalized in E. rewrite length_imap in E. by apply nil_length_inv.
    + rewrite length_drop in E. unfold MAX_STORED_MESSAGES in *. lia.
  - rewrite E2, length_app in L1. lia.
  - by eapply list.Forall_impl; [exact Hk|]; intros m [? _].
  - unfold saveMessages. assert (trimMessages (sanitizeMessagesOnLoad t clock kept) = sanitizeMessagesOnLoad t clock kept) as ->; [|done].
    unfold trimMessages. rewrite (shown_length _ _ _ Hs). rewrite (proj2 (Nat.leb_le _ _)); [done|]. rewrite E2, length_app in L1. lia.
Qed.

(** Two answers that were never begun. *)
Definition stuck (key : string) : Message := createLoadingAssistantMessage (u key) (u "v") one.

Lemma loaded_messages_are_repaired_witness :
  exists dropped kept, [stuck "a"; stuck "b"] = dropped ++ kept /\ length kept <= MAX_STORED_MESSAGES.
Proof.
  set (load := loadMessages (fun _ => Some [stuck "a"; stuck "b"]) (fun _ => true) (fun _ => u "x") (fun _ => true)
                 Demo.translate (fun _ _ => one) (fun _ => one) (Some (u "[1]"))).
  assert (load = (Some (default [] (fst load)), snd load)) as H by (vm_compute; reflexivity).
  destruct (loaded_messages_are_repaired _ _ _ _ _ _ _ _ _ _ H) as (v & parsed & dropped & kept & _ & H1 & H2 & _ & H3 & _).
  injection H1 as <-. exists dropped, kept. split; [|exact H3]. rewrite <- H2. vm_compute. reflexivity.
Defined.

(** Only the last stuck answer is settled; an earlier one is still shown as loading. *)
Lemma earlier_stuck_answer_stays :
  map m_status (sanitizeMessagesOnLoad Demo.translate (fun _ => one) [stuck "a"; stuck "b"])
  = [Some Status_loading; Some Status_error].
Proof. vm_compute. reflexivity. Qed.
