(* ===== verification/AuthFacts.v ===== *)
(** * The login session under interleaving

    Invariants of the client in every reachable state; a refresh that a login or
    sign-out has overtaken has no effect; a refresh ends after a bounded number of
    answers; its outcome says what the store holds. *)

From Stdlib Require Import String.
From stdpp Require Import sets.
From S2P Require Import Prelude JsNumber JsString JsText Request Json AuthSession.

#[local] Open Scope nat_scope.

Create HintDb auth.

(** ** Steps *)

Lemma steps_app locks c es c' es' c'' :
  steps locks c es c' -> steps locks c' es' c'' -> steps locks c (es ++ es') c''.
Proof. induction 1; cbn; [done|]. intros. econstructor; eauto. Qed.

(** Invariants by induction on the steps from the start. *)
Lemma reachable_ind_step locks (P : Client -> Prop) :
  P initial_client -> (forall c e c', reachable locks c -> P c -> step locks c e c' -> P c') ->
  forall c, reachable locks c -> P c.
Proof.
  intros H0 Hs c [es Hes].
  assert (forall c0, reachable locks c0 -> P c0 -> steps locks c0 es c -> P c) as Hgen.
  { clear Hes. induction es as [|e es IH]; intros c0 Hr Hp Hst; inversion Hst; subst; [done|].
    eapply IH; [|by eapply Hs|done].
    destruct Hr as [es0 Hr]. exists (es0 ++ [e]). eapply steps_app; [done|].
    econstructor; [done|constructor]. }
  apply (Hgen initial_client); [exists []; constructor|done|done].
Qed.

(** Both ways a [run] can go. *)
Lemma run_cases epoch attempt retry c :
  authEpoch c <> epoch /\ run epoch attempt retry c = settle epoch (Transient Superseded) c \/
  authEpoch c = epoch /\ refreshPromise (run epoch attempt retry c) =
    Some {| rf_epoch := epoch; rf_phase := Requested attempt retry |} /\
    store (run epoch attempt retry c) = store c /\ authEpoch (run epoch attempt retry c) = authEpoch c /\
    published (run epoch attempt retry c) = published c /\
    requests (run epoch attempt retry c) = requests c ++ [current_sid c].
Proof. unfold run, is_current. destruct (Nat.eqb_spec (authEpoch c) epoch); [right|left]; done. Qed.

(** ** The invariant *)

(** Token, expiry and session are set together, and are usable. *)
Definition credentials_ok (s : AuthStore) : Prop :=
  match accessToken s, accessExpiresAt s, session s with
  | Some token, Some expires, Some session_ =>
      nonempty token = true /\ num_is_finite expires = true /\ num_gtb expires zero = true /\
      nonempty (ls_sid session_) = true /\ user s <> None
  | None, None, None => True
  | _, _, _ => False
  end.

Definition phase_ok (p : Phase) : Prop :=
  match p with
  | Waiting_lock | Settling _ => True
  | Requested attempt _ => attempt <= 3
  | Sleeping delay attempt _ => 1 <= attempt <= 3 /\ refreshRaceDelays !! (attempt - 1) = Some delay
  end.

Record client_ok (c : Client) : Prop := {
  ok_credentials : credentials_ok (store c);
  ok_epoch : forall r, refreshPromise c = Some r -> rf_epoch r <= authEpoch c /\ phase_ok (rf_phase r);
  ok_messages : Forall (fun m => nonempty (se_sid m) = true) (published c);
}.

Lemma token_fields_ok v token type expires : hasValidTokenFields v = Some (token, type, expires) ->
  nonempty token = true /\ num_is_finite expires = true /\ num_gtb expires zero = true.
Proof.
  unfold hasValidTokenFields. intros (t & Ht & H)%bind_Some. apply bind_Some in H as (ty & _ & H).
  apply bind_Some in H as (x & _ & H). destruct (num_is_finite x && num_gtb x zero) eqn:E; [|done].
  apply andb_true_iff in E as [E1 E2]. injection H as <- <- <-. split; [|done].
  unfold as_text in Ht. destruct (field v "access_token"); try done. destruct (nonempty s) eqn:En; [|done].
  by injection Ht as <-.
Qed.

Lemma session_sid v s : isLoginSession v = Some s -> nonempty (ls_sid s) = true.
Proof.
  unfold isLoginSession. intros (sid & Hs & H)%bind_Some.
  repeat match goal with H : _ ≫= _ = Some _ |- _ => apply bind_Some in H as (? & _ & H) end.
  injection H as <-. cbn. unfold as_text in Hs. destruct (field v "sid"); try done.
  destruct (nonempty s) eqn:En; [|done]. by injection Hs as <-.
Qed.

(** A bundle whose credentials are usable. *)
Definition bundle_ok (b : AuthBundle) : Prop :=
  nonempty (ab_access_token b) = true /\ num_is_finite (ab_access_expires_at b) = true /\
  num_gtb (ab_access_expires_at b) zero = true /\ nonempty (ls_sid (ab_session b)) = true.

Lemma isAuthBundle_ok v b : isAuthBundle v = Some b -> bundle_ok b.
Proof.
  unfold isAuthBundle. intros ([[token type] expires] & Ht & H)%bind_Some.
  apply bind_Some in H as (u_ & _ & H). apply bind_Some in H as (s & Hs & [= <-]).
  destruct (token_fields_ok _ _ _ _ Ht) as (H1 & H2 & H3). repeat split; try done. by eapply session_sid.
Qed.

Lemma setBundle_ok b s : bundle_ok b -> credentials_ok (setBundle b s).
Proof. intros (H1 & H2 & H3 & H4). cbn. repeat split; done. Qed.

Lemma applyAuthBundle_ok b sync c : bundle_ok b -> client_ok c -> client_ok (applyAuthBundle b sync c).
Proof.
  intros Hb [Hc He Hm]. split; [by apply setBundle_ok| |].
  - intros r Hr. destruct (He r Hr) as [? ?]. split; [|done]. cbn. lia.
  - cbn. destruct (_ && _); [|done]. unfold publishAuthSessionEvent. destruct (nonempty _) eqn:E; [|done].
    apply Forall_app. split; [done|]. by repeat constructor.
Qed.

Lemma clearAuthentication_ok sync b c : client_ok c -> client_ok (clearAuthentication sync b c).
Proof.
  intros [Hc He Hm]. split; [done| |].
  - intros r Hr. destruct (He r Hr) as [? ?]. split; [|done]. cbn. lia.
  - cbn. destruct sync, (current_sid c) as [sid|]; try done. unfold publishAuthSessionEvent.
    destruct (nonempty sid) eqn:E; [|done]. apply Forall_app. split; [done|]. by repeat constructor.
Qed.

Lemma with_store_ok f c : (credentials_ok (store c) -> credentials_ok (f (store c))) ->
  client_ok c -> client_ok (with_store f c).
Proof. intros Hf [Hc He Hm]. split; [by apply Hf|done|done]. Qed.

Lemma at_phase_ok epoch p c : epoch <= authEpoch c -> phase_ok p -> client_ok c -> client_ok (at_phase epoch p c).
Proof. intros Hle Hp [Hc He Hm]. split; [done| |done]. by intros r [= <-]. Qed.

Lemma run_ok epoch attempt retry c : epoch <= authEpoch c -> attempt <= 3 -> client_ok c ->
  client_ok (run epoch attempt retry c).
Proof.
  intros Hle Ha Hc. unfold run. destruct (negb _); [by apply at_phase_ok|].
  apply at_phase_ok; [done|done|]. destruct Hc. by split.
Qed.

Lemma runtime_clear_ok sync b c : client_ok c -> client_ok (runtime_clear sync b c).
Proof.
  intros Hc. unfold runtime_clear. destruct (_ && _); [by apply with_store_ok|by apply clearAuthentication_ok].
Qed.

Lemma runtime_clear_epoch sync b c : authEpoch c <= authEpoch (runtime_clear sync b c).
Proof. unfold runtime_clear. destruct (_ && _); cbn; lia. Qed.

Lemma bootstrap_credentials b s : credentials_ok s -> credentials_ok (setBootstrapState b s).
Proof. done. Qed.
#[export] Hint Resolve at_phase_ok run_ok runtime_clear_ok with_store_ok applyAuthBundle_ok
  clearAuthentication_ok bootstrap_credentials isAuthBundle_ok : auth.

Lemma on_response_ok epoch attempt retry response c :
  epoch <= authEpoch c -> attempt <= 3 -> client_ok c -> client_ok (on_response epoch attempt retry response c).
Proof.
  intros Hle Ha Hc. unfold on_response, settle. destruct (negb _); [by apply at_phase_ok|]. cbn zeta.
  assert (forall sync b p, phase_ok p -> client_ok (at_phase epoch p (runtime_clear sync b c))) as Hclear.
  { intros sync b p Hp. apply at_phase_ok; auto with auth.
    pose proof (runtime_clear_epoch sync b c). lia. }
  set (failed := if _ && is_code _ "AUTH_REFRESH_RACE" then _ else _).
  assert (client_ok failed) as Hfailed.
  { unfold failed. destruct (_ && is_code _ "AUTH_REFRESH_RACE").
    { destruct (refreshRaceDelays !! attempt) as [delay|] eqn:Ed; [|by apply Hclear].
      apply at_phase_ok; [done| |done]. apply lookup_lt_Some in Ed as Hlt. cbn in Hlt |- *.
      split; [lia|]. by rewrite Nat.sub_0_r. }
    destruct (_ && is_code _ "AUTH_SESSION_MISMATCH").
    { destruct retry; [|by apply Hclear]. apply run_ok; [|lia|auto with auth].
      pose proof (runtime_clear_epoch false (Some Idle) c). lia. }
    destruct (_ =? 401)%Z; [by apply Hclear|]. destruct (_ || _); [|by apply Hclear].
    apply at_phase_ok; [done|done|by apply with_store_ok]. }
  destruct (strictly_true _); [|done]. destruct (isAuthBundle _) as [b|] eqn:Eb; [|done].
  apply at_phase_ok; [cbn; lia|done|]. eauto with auth.
Qed.

Lemma refreshAuthentication_ok locks c : client_ok c -> client_ok (refreshAuthentication locks c).
Proof.
  intros Hc. unfold refreshAuthentication. destruct (refreshPromise c); [done|].
  destruct locks; [by apply at_phase_ok|]. apply run_ok; [lia|lia|done].
Qed.

Lemma resolve_ok locks now c : client_ok c -> client_ok (resolveAuthentication locks now c).1.
Proof.
  intros Hc. unfold resolveAuthentication. destruct (currentValidAuthBundle now (store c)); cbn.
  { by apply with_store_ok. }
  destruct (_ && _); cbn; [done|]. apply refreshAuthentication_ok. by apply with_store_ok.
Qed.

Lemma bootstrap_cases locks now document c :
  (bootstrapAuthentication locks now document c).1 = c \/
  bootstrapAuthentication locks now document c = resolveAuthentication locks now c.
Proof.
  unfold bootstrapAuthentication. destruct (currentValidAuthBundle now (store c)); [by right|].
  destruct (hasSessionHint document); [by right|]. destruct (user (store c)); [by right|].
  destruct (session (store c)); [by right|by left].
Qed.

Lemma rotation_ok v c c' : client_ok c -> applyAuthRotation v c = Ok c' -> client_ok c'.
Proof.
  intros Hc. unfold applyAuthRotation, isAuthTokenRotation.
  destruct (hasValidTokenFields v) as [[[token type] expires]|] eqn:Ht; cbn; [|done].
  destruct (isLoginSession (field v "session")) as [s|] eqn:Es; cbn; [|done].
  destruct (_ && _); [|done]. destruct (user (store c)) as [u_|], (session (store c)) as [s0|]; try done.
  destruct (negb _); [done|]. intros [= <-]. apply applyAuthBundle_ok; [|done].
  destruct (token_fields_ok _ _ _ _ Ht) as (H1 & H2 & H3). repeat split; try done. by eapply session_sid.
Qed.

Lemma setUser_credentials u_ s : credentials_ok s -> credentials_ok (setUser (Some u_) s).
Proof.
  unfold credentials_ok, setUser. cbn. destruct (accessToken s), (accessExpiresAt s), (session s); try done.
  intros (? & ? & ? & ? & _). done.
Qed.

(** Operations of the rest of the client on the session. *)
Definition outside (e : event) : bool :=
  match e with Ev_settled => false | _ => negb (resumes e) end.

Lemma outside_ok locks e c c' : outside e = true -> client_ok c -> step locks c e c' -> client_ok c'.
Proof.
  intros Ho Hc. unfold step. destruct e; cbn in Ho |- *; try discriminate Ho.
  - intros [= <-]. by apply refreshAuthentication_ok.
  - intros [= <-]. by apply resolve_ok.
  - intros [= <-]. destruct (bootstrap_cases locks now document c) as [-> | ->]; [done|by apply resolve_ok].
  - intros (b & Hb & [= <-])%bind_Some. eauto with auth.
  - intros [= <-]. destruct (applyAuthRotation _ c) eqn:E; [by eapply rotation_ok|done].
  - intros [= <-]. auto with auth.
  - intros [= <-]. apply with_store_ok; [apply setUser_credentials|done].
  - intros [= <-]. by apply with_store_ok.
Qed.

(** What a step of the refresh does, by the phase it resumes. *)
Lemma resume_cases locks e c c' : outside e = false -> step locks c e c' ->
  exists epoch p, refreshPromise c = Some {| rf_epoch := epoch; rf_phase := p |} /\
  match p with
  | Waiting_lock => e = Ev_lock /\ c' = run epoch 0 true c
  | Requested attempt retry => exists response, e = Ev_response response /\
      c' = on_response epoch attempt retry response c
  | Sleeping _ attempt retry => e = Ev_timer /\ c' = run epoch attempt retry c
  | Settling _ => e = Ev_settled /\ c' = with_refresh None c
  end.
Proof.
  unfold step. intros Ho Hs. destruct e; cbn in Ho; try discriminate Ho; cbn [handle] in Hs;
    destruct (refreshPromise c) as [[epoch []]|]; try discriminate Hs; injection Hs as <-;
    (eexists _, _; split; [reflexivity|]; cbn; eauto).
Qed.

Lemma handle_ok locks e c c' : client_ok c -> step locks c e c' -> client_ok c'.
Proof.
  intros Hc Hs. destruct (outside e) eqn:Ho; [by eapply outside_ok|].
  destruct (resume_cases _ _ _ _ Ho Hs) as (epoch & p & Er & Hcase).
  destruct (ok_epoch _ Hc _ Er) as [Hle Hp]. cbn in Hle, Hp. destruct p.
  - destruct Hcase as [_ ->]. apply run_ok; [done|lia|done].
  - destruct Hcase as (response & _ & ->). by apply on_response_ok.
  - destruct Hcase as [_ ->], Hp as [[_ ?] _]. by apply run_ok.
  - destruct Hcase as [_ ->], Hc. by split.
Qed.

Lemma reachable_ok locks c : reachable locks c -> client_ok c.
Proof.
  apply reachable_ind_step.
  - split; [done|done|constructor].
  - intros ? e ? _ Hc Hs. by eapply handle_ok.
Qed.

(** ** Overtaken refreshes *)

Lemma with_refresh_twice r r' c : with_refresh r (with_refresh r' c) = with_refresh r c.
Proof. done. Qed.
Lemma with_refresh_same c r : refreshPromise c = r -> with_refresh r c = c.
Proof. intros <-. by destruct c. Qed.

(** While a refresh is under way, the rest of the client does not look at it. *)
Lemma refresh_shared locks c r : refreshPromise c = Some r -> refreshAuthentication locks c = c.
Proof. unfold refreshAuthentication. by intros ->. Qed.

Lemma resolve_shared locks now c r r0 : refreshPromise c = Some r0 ->
  (resolveAuthentication locks now (with_refresh (Some r) c)).1 =
  with_refresh (Some r) (resolveAuthentication locks now c).1.
Proof.
  intros Hr. unfold resolveAuthentication. cbn [store with_refresh].
  destruct (currentValidAuthBundle now (store c)); [done|]. destruct (_ && _); [done|]. cbn [fst].
  rewrite (refresh_shared _ (with_store _ (with_refresh _ _)) r) by done.
  by rewrite (refresh_shared _ (with_store _ c) r0).
Qed.

Lemma handle_shared locks e c r r0 : outside e = true -> refreshPromise c = Some r0 ->
  handle locks e (with_refresh (Some r) c) = with_refresh (Some r) <$> handle locks e c.
Proof.
  intros Ho Hr. destruct e; cbn in Ho; try discriminate Ho; cbn [handle fmap option_fmap option_map].
  - by rewrite (refresh_shared _ _ r), (refresh_shared _ _ r0).
  - f_equal. by eapply resolve_shared.
  - f_equal. unfold bootstrapAuthentication. cbn [store with_refresh].
    destruct (currentValidAuthBundle now (store c)); [by eapply resolve_shared|].
    destruct (hasSessionHint document); [by eapply resolve_shared|].
    destruct (user (store c)); [by eapply resolve_shared|].
    destruct (session (store c)); [by eapply resolve_shared|done].
  - by destruct (isAuthBundle bundle).
  - f_equal. unfold applyAuthRotation. cbn [store with_refresh].
    destruct (isAuthTokenRotation rotation); [|done].
    destruct (user (store c)), (session (store c)); try done. by destruct (negb _).
  - done.
  - done.
  - done.
Qed.

Lemma outside_keeps locks e c c' r : outside e = true -> refreshPromise c = Some r -> step locks c e c' ->
  refreshPromise c' = Some r /\ authEpoch c <= authEpoch c'.
Proof.
  intros Ho Hr Hs. pose proof (handle_shared locks e c r r Ho Hr) as E. unfold step in Hs.
  rewrite (with_refresh_same c (Some r) Hr), Hs in E. cbn in E. injection E as E.
  split; [by rewrite E|]. clear E.
  assert (forall now, authEpoch c <= authEpoch (resolveAuthentication locks now c).1) as Hres.
  { intros now. unfold resolveAuthentication. destruct (currentValidAuthBundle now (store c)); [done|].
    destruct (_ && _); [done|]. cbn [fst]. by rewrite (refresh_shared _ (with_store _ c) r). }
  destruct e; cbn in Ho; try discriminate Ho; cbn [handle] in Hs.
  - injection Hs as <-. by rewrite (refresh_shared _ _ r).
  - injection Hs as <-. apply Hres.
  - injection Hs as <-. destruct (bootstrap_cases locks now document c) as [-> | ->]; [done|apply Hres].
  - apply bind_Some in Hs as (b & _ & [= <-]). cbn. lia.
  - injection Hs as <-. unfold applyAuthRotation. destruct (isAuthTokenRotation rotation); [|done].
    destruct (user (store c)), (session (store c)); try done. destruct (negb _); [done|]. cbn. lia.
  - injection Hs as <-. cbn. lia.
  - by injection Hs as <-.
  - by injection Hs as <-.
Qed.

Definition stale (c : Client) : Prop :=
  exists r, refreshPromise c = Some r /\ rf_epoch r < authEpoch c.

(** A resumed refresh that is stale gives up. *)
Lemma stale_gives_up locks c e c' r : refreshPromise c = Some r -> rf_epoch r < authEpoch c ->
  resumes e = true -> step locks c e c' -> c' = settle (rf_epoch r) (Transient Superseded) c.
Proof.
  intros Hr Hlt Hres Hs. assert (outside e = false) as Ho by by destruct e.
  destruct (resume_cases _ _ _ _ Ho Hs) as (epoch & p & Er & Hcase). rewrite Hr in Er. injection Er as ->.
  cbn in Hlt |- *. assert (is_current epoch c = false) as Hc by (apply Nat.eqb_neq; lia). destruct p.
  - destruct Hcase as [_ ->]. unfold run. by rewrite Hc.
  - destruct Hcase as (response & _ & ->). unfold on_response. by rewrite Hc.
  - destruct Hcase as [_ ->]. unfold run. by rewrite Hc.
  - destruct Hcase as [-> _]. done.
Qed.

Lemma stale_steps locks c es c' : steps locks c es c' -> Forall (fun e => e <> Ev_settled) es -> stale c ->
  forall r, steps locks (with_refresh (Some r) c) (List.filter (fun e => negb (resumes e)) es)
              (with_refresh (Some r) c').
Proof.
  induction 1 as [c|c e c1 es c2 Hs Hss IH]; intros Hes (r0 & Hr & Hlt) r; [constructor|].
  apply Forall_cons_iff in Hes as [He Hes]. cbn. destruct (resumes e) eqn:Hres; cbn.
  - rewrite (stale_gives_up _ _ _ _ _ Hr Hlt Hres Hs) in IH. apply IH; [done|]. eexists. by split.
  - assert (outside e = true) as Ho by by destruct e.
    destruct (outside_keeps _ _ _ _ _ Ho Hr Hs) as [Hr1 Hle].
    econstructor; [|apply IH; [done|]].
    + unfold step. rewrite (handle_shared _ _ _ _ _ Ho Hr). unfold step in Hs. by rewrite Hs.
    + exists r0. split; [done|lia].
Qed.

Lemma stale_outcome locks c es c' : steps locks c es c' -> Forall (fun e => e <> Ev_settled) es -> stale c ->
  let quiet c := forall r o, refreshPromise c = Some r -> rf_phase r = Settling o -> o = Transient Superseded in
  quiet c -> quiet c'.
Proof.
  intros Hs Hes Hst quiet. induction Hs as [c|c e c1 es c2 Hs Hss IH]; [done|].
  apply Forall_cons_iff in Hes as [He Hes]. destruct Hst as (r0 & Hr & Hlt). intros Hq.
  destruct (resumes e) eqn:Hres.
  - rewrite (stale_gives_up _ _ _ _ _ Hr Hlt Hres Hs) in IH. apply IH; [done| |].
    + eexists. by split.
    + intros r o [= <-]. cbn. by intros [= <-].
  - assert (outside e = true) as Ho by by destruct e.
    destruct (outside_keeps _ _ _ _ _ Ho Hr Hs) as [Hr1 Hle].
    apply IH; [done|exists r0; split; [done|lia]|]. intros r o. rewrite Hr1, <- Hr. apply Hq.
Qed.

(** A login, an accepted rotation or a sign-out. *)
Definition overtakes (e : event) (c : Client) : Prop :=
  match e with
  | Ev_login _ _ | Ev_clear _ _ => True
  | Ev_rotation v => exists c', applyAuthRotation v c = Ok c'
  | _ => False
  end.

Lemma overtakes_epoch locks e c c' : overtakes e c -> step locks c e c' ->
  outside e = true /\ authEpoch c' = S (authEpoch c).
Proof.
  unfold step. destruct e; try done; cbn.
  - intros _ (b & _ & [= <-])%bind_Some. done.
  - intros [c1 E] [= <-]. rewrite E. split; [done|]. unfold applyAuthRotation in E.
    destruct (isAuthTokenRotation rotation); [|done]. destruct (user (store c)), (session (store c)); try done.
    destruct (negb _); [done|]. by injection E as <-.
  - by intros _ [= <-].
Qed.

(** C13: a refresh cannot undo what the user did meanwhile.  When a login, a
    token rotation or a sign-out happens while a refresh is under way, then until
    the refresh is over its lock, answers and timers change nothing: removing
    them from any sequence of events leads to the same session, the same
    messages to other tabs and the same requests; and the refresh ends as
    superseded. *)
Theorem overtaken_refresh_is_inert locks c r e c1 es c2 :
  reachable locks c -> refreshPromise c = Some r -> (forall o, rf_phase r <> Settling o) ->
  overtakes e c -> step locks c e c1 -> steps locks c1 es c2 -> Forall (fun e => e <> Ev_settled) es ->
  steps locks c1 (List.filter (fun e => negb (resumes e)) es) (with_refresh (Some r) c2) /\
  (forall r' o, refreshPromise c2 = Some r' -> rf_phase r' = Settling o -> o = Transient Superseded).
Proof.
  intros Hreach Hr Hp Hov Hs Hss Hes. destruct (overtakes_epoch _ _ _ _ Hov Hs) as [Ho Hep].
  destruct (outside_keeps _ _ _ _ _ Ho Hr Hs) as [Hr1 _].
  assert (stale c1) as Hst.
  { exists r. split; [done|]. destruct (ok_epoch _ (reachable_ok _ _ Hreach) _ Hr) as [? _]. lia. }
  split.
  - pose proof (stale_steps _ _ _ _ Hss Hes Hst r) as H. by rewrite (with_refresh_same c1 (Some r) Hr1) in H.
  - apply (stale_outcome _ _ _ _ Hss Hes Hst). intros r' o E. rewrite Hr1 in E. injection E as <-.
    intros E. by destruct (Hp o).
Qed.

(** ** Progress *)

(** The answers a refresh can still wait for, and the requests it can still send. *)
Definition rank (p : Phase) : nat :=
  match p with
  | Waiting_lock => 15
  | Requested attempt retry => 2 * (3 - attempt) + 1 + (if retry then 7 else 0)
  | Sleeping _ attempt retry => 2 * (3 - attempt) + 2 + (if retry then 7 else 0)
  | Settling _ => 0
  end.
Definition budget (p : Phase) : nat :=
  match p with
  | Waiting_lock => 8
  | Requested attempt retry => (3 - attempt) + (if retry then 4 else 0)
  | Sleeping _ attempt retry => (4 - attempt) + (if retry then 4 else 0)
  | Settling _ => 0
  end.
Definition rank_of (c : Client) : nat := match refreshPromise c with Some r => rank (rf_phase r) | None => 15 end.
Definition budget_of (c : Client) : nat :=
  length (requests c) + match refreshPromise c with Some r => budget (rf_phase r) | None => 8 end.

Lemma run_progress epoch attempt retry c : attempt <= 3 ->
  rank_of (run epoch attempt retry c) <= rank (Requested attempt retry) /\
  budget_of (run epoch attempt retry c) <= length (requests c) + 1 + budget (Requested attempt retry).
Proof.
  intros Ha. unfold rank_of, budget_of.
  destruct (run_cases epoch attempt retry c) as [[_ ->]|(_ & -> & _ & _ & _ & ->)]; cbn; rewrite ?length_app; cbn; lia.
Qed.

Lemma runtime_clear_requests sync b c : requests (runtime_clear sync b c) = requests c.
Proof. unfold runtime_clear. by destruct (_ && _). Qed.

Lemma response_progress epoch attempt retry response c : attempt <= 3 ->
  rank_of (on_response epoch attempt retry response c) < rank (Requested attempt retry) /\
  budget_of (on_response epoch attempt retry response c) <= length (requests c) + budget (Requested attempt retry).
Proof.
  intros Ha. assert (forall c1 o, requests c1 = requests c ->
    rank_of (settle epoch o c1) < rank (Requested attempt retry) /\
    budget_of (settle epoch o c1) <= length (requests c) + budget (Requested attempt retry)) as Hsettle.
  { intros c1 o E. unfold rank_of, budget_of. cbn. rewrite E. lia. }
  unfold on_response. destruct (negb _); [by apply Hsettle|]. cbn zeta.
  set (failed := if _ && is_code _ "AUTH_REFRESH_RACE" then _ else _).
  assert (rank_of failed < rank (Requested attempt retry) /\
    budget_of failed <= length (requests c) + budget (Requested attempt retry)) as Hfailed.
  { unfold failed. destruct (_ && is_code _ "AUTH_REFRESH_RACE").
    { destruct (refreshRaceDelays !! attempt) as [delay|] eqn:Ed.
      - apply lookup_lt_Some in Ed. cbn in Ed. unfold rank_of, budget_of. cbn. destruct retry; lia.
      - apply Hsettle, runtime_clear_requests. }
    destruct (_ && is_code _ "AUTH_SESSION_MISMATCH").
    { destruct retry; [|apply Hsettle, runtime_clear_requests].
      destruct (run_progress epoch 0 false (runtime_clear false (Some Idle) c)) as [H1 H2]; [lia|].
      rewrite runtime_clear_requests in H2. cbn in *. lia. }
    destruct (_ =? 401)%Z; [apply Hsettle, runtime_clear_requests|].
    destruct (_ || _); apply Hsettle; [done|apply runtime_clear_requests]. }
  destruct (strictly_true _); [|done]. destruct (isAuthBundle _); [by apply Hsettle|done].
Qed.

Lemma start_progress locks c : refreshPromise c = None ->
  rank_of (refreshAuthentication locks c) <= 15 /\ budget_of (refreshAuthentication locks c) <= length (requests c) + 8.
Proof.
  intros Hr. unfold refreshAuthentication. rewrite Hr. destruct locks; [unfold rank_of, budget_of; cbn; lia|].
  destruct (run_progress (authEpoch c) 0 true c) as [H1 H2]; [lia|]. cbn in *. lia.
Qed.

Lemma resolve_progress locks now c :
  rank_of (resolveAuthentication locks now c).1 <= rank_of c /\
  budget_of (resolveAuthentication locks now c).1 <= budget_of c.
Proof.
  unfold resolveAuthentication. destruct (currentValidAuthBundle now (store c)); [done|].
  destruct (_ && _); [done|]. cbn [fst]. destruct (refreshPromise c) as [r|] eqn:Er.
  - by rewrite (refresh_shared _ (with_store _ c) r).
  - destruct (start_progress locks (with_store (setBootstrapState Checking) c) Er) as [H1 H2]. cbn in H2.
    unfold rank_of at 2, budget_of at 2. rewrite Er. done.
Qed.

Lemma outside_progress locks e c c' : outside e = true -> step locks c e c' ->
  rank_of c' <= rank_of c /\ budget_of c' <= budget_of c.
Proof.
  intros Ho Hs. unfold step in Hs. destruct e; cbn in Ho; try discriminate Ho; cbn [handle] in Hs.
  - injection Hs as <-. destruct (refreshPromise c) as [r|] eqn:Er; [by rewrite (refresh_shared _ _ r)|].
    unfold rank_of at 2, budget_of at 2. rewrite Er. by apply start_progress.
  - injection Hs as <-. apply resolve_progress.
  - injection Hs as <-. destruct (bootstrap_cases locks now document c) as [-> | ->]; [done|apply resolve_progress].
  - by apply bind_Some in Hs as (b & _ & [= <-]).
  - injection Hs as <-. unfold applyAuthRotation. destruct (isAuthTokenRotation rotation); [|done].
    destruct (user (store c)), (session (store c)); try done. by destruct (negb _).
  - by injection Hs as <-.
  - by injection Hs as <-.
  - by injection Hs as <-.
Qed.

Lemma step_progress locks e c c' : client_ok c -> e <> Ev_settled -> step locks c e c' ->
  (if resumes e then 1 else 0) + rank_of c' <= rank_of c /\ budget_of c' <= budget_of c.
Proof.
  intros Hc He Hs. destruct (outside e) eqn:Ho.
  { assert (resumes e = false) as -> by by destruct e. by apply (outside_progress locks e). }
  assert (resumes e = true) as -> by by destruct e.
  destruct (resume_cases _ _ _ _ Ho Hs) as (epoch & p & Er & Hcase).
  destruct (ok_epoch _ Hc _ Er) as [_ Hp]. cbn in Hp.
  assert (rank_of c = rank p) as -> by (unfold rank_of; by rewrite Er).
  assert (budget_of c = length (requests c) + budget p) as -> by (unfold budget_of; by rewrite Er).
  destruct p as [|attempt retry|delay attempt retry|o].
  - destruct Hcase as [_ ->]. destruct (run_progress epoch 0 true c) as [H1 H2]; [lia|]. cbn in *. lia.
  - destruct Hcase as (response & _ & ->).
    destruct (response_progress epoch attempt retry response c Hp) as [H1 H2]. lia.
  - destruct Hcase as [_ ->], Hp as [[H3 H4] _].
    destruct (run_progress epoch attempt retry c H4) as [H1 H2]. cbn in *. lia.
  - by destruct Hcase as [-> _].
Qed.

Lemma steps_progress locks c es c' : steps locks c es c' -> client_ok c -> Forall (fun e => e <> Ev_settled) es ->
  length (List.filter resumes es) + rank_of c' <= rank_of c /\ budget_of c' <= budget_of c.
Proof.
  induction 1 as [c|c e c1 es c2 Hs Hss IH]; intros Hc Hes; cbn; [lia|].
  apply Forall_cons_iff in Hes as [He Hes]. destruct (step_progress _ _ _ _ Hc He Hs) as [H1 H2].
  destruct (IH (handle_ok _ _ _ _ Hc Hs) Hes) as [H3 H4]. destruct (resumes e); cbn; lia.
Qed.

(** What a phase waits for. *)
Definition awaits (p : Phase) (e : event) : Prop :=
  match p with
  | Waiting_lock => e = Ev_lock
  | Requested _ _ => exists response, e = Ev_response response
  | Sleeping _ _ _ => e = Ev_timer
  | Settling _ => False
  end.

Lemma awaited_steps locks c r e : refreshPromise c = Some r -> awaits (rf_phase r) e -> exists c', step locks c e c'.
Proof.
  unfold step. destruct r as [epoch p]. intros Hr. destruct p; cbn; try done.
  - intros ->. cbn. rewrite Hr. eauto.
  - intros [response ->]. cbn. rewrite Hr. eauto.
  - intros ->. cbn. rewrite Hr. eauto.
Qed.

(** C14: a refresh ends.  From a state without a refresh, whatever else happens,
    the client sends at most 8 refresh requests and takes at most 15 answers (a
    lock, replies and timers) before the refresh is over; until then it waits for
    an answer and takes any that comes, so it cannot get stuck. *)
Theorem refresh_ends_within_eight_requests locks c es c' :
  reachable locks c -> refreshPromise c = None -> steps locks c es c' ->
  Forall (fun e => e <> Ev_settled) es ->
  length (List.filter resumes es) <= 15 /\
  length (requests c') <= length (requests c) + 8 /\
  forall r, refreshPromise c' = Some r ->
    (exists o, rf_phase r = Settling o) \/
    length (List.filter resumes es) < 15 /\ (exists e, awaits (rf_phase r) e) /\
    forall e, awaits (rf_phase r) e -> exists c'', step locks c' e c''.
Proof.
  intros Hreach Hr Hs Hes. destruct (steps_progress _ _ _ _ Hs (reachable_ok _ _ Hreach) Hes) as [H1 H2].
  unfold rank_of at 2 in H1. unfold budget_of in H2. rewrite Hr in H1, H2. split; [lia|]. split; [lia|].
  intros r Hr'. unfold rank_of in H1. rewrite Hr' in H1.
  destruct (rf_phase r) as [|attempt retry|delay attempt retry|o] eqn:Ep; [right|right|right|by left; exists o].
  all: split; [cbn in H1; lia|]; split; [cbn; eauto|].
  all: intros e He; apply (awaited_steps locks c' r); [done|by rewrite Ep].
  Unshelve. all: exact {| rs_status := 0; rs_data := VUndefined; rs_error := VUndefined |}.
Qed.

(** ** Outcomes *)

Lemma clear_store sync c : store (runtime_clear sync None c) = reset Complete (store c) /\
  published (runtime_clear sync None c) =
    match sync, current_sid c with
    | true, Some sid => publishAuthSessionEvent Sync_signed_out sid (published c)
    | _, _ => published c
    end.
Proof. unfold runtime_clear. rewrite andb_false_r. done. Qed.

(** What the outcome of a refresh says about the state before and after its last
    answer. *)
Definition describes (epoch : nat) (o : RefreshOutcome) (c c' : Client) : Prop :=
  match o with
  | Authenticated b => store c' = setBundle b (store c) /\ bundle_ok b /\ published c' = published c
  | Anonymous => store c' = reset Complete (store c) /\
      published c' = published c ++
        match current_sid c with Some sid => [SyncMessage Sync_signed_out sid] | None => [] end
  | OutOfSync _ => store c' = reset Complete (store c) /\ published c' = published c
  | Transient Superseded => store c' = store c /\ published c' = published c /\ authEpoch c <> epoch
  | Transient (Refused _) =>
      store c' = setBootstrapState Idle (store c) /\ published c' = published c /\ authEpoch c' = authEpoch c
  end.

Lemma run_describes epoch attempt retry c o : 
  refreshPromise (run epoch attempt retry c) = Some {| rf_epoch := epoch; rf_phase := Settling o |} ->
  describes epoch o c (run epoch attempt retry c) /\ requests (run epoch attempt retry c) = requests c /\
  authEpoch c <> epoch.
Proof.
  destruct (run_cases epoch attempt retry c) as [[He ->]|(_ & E & _)]; [|by rewrite E].
  intros [= <-]. done.
Qed.

Lemma sid_nonempty c sid : client_ok c -> current_sid c = Some sid -> nonempty sid = true.
Proof.
  intros Hc. unfold current_sid. pose proof (ok_credentials _ Hc) as H. unfold credentials_ok in H.
  destruct (session (store c)) as [s|]; [|done]. intros [= <-].
  destruct (accessToken (store c)), (accessExpiresAt (store c)); tauto.
Qed.

Lemma response_describes epoch attempt retry response c o : client_ok c ->
  refreshPromise (on_response epoch attempt retry response c) =
    Some {| rf_epoch := epoch; rf_phase := Settling o |} ->
  describes epoch o c (on_response epoch attempt retry response c) /\
  requests (on_response epoch attempt retry response c) = requests c.
Proof.
  intros Hc. unfold on_response, is_current. destruct (Nat.eqb_spec (authEpoch c) epoch) as [Ee|Ee]; cbn [negb].
  2: { by intros [= <-]. }
  cbn zeta. set (failed := if _ && is_code _ "AUTH_REFRESH_RACE" then _ else _).
  assert (forall code, let c' := settle epoch (OutOfSync code) (runtime_clear false None c) in
    refreshPromise c' = Some {| rf_epoch := epoch; rf_phase := Settling o |} ->
    describes epoch o c c' /\ requests c' = requests c) as Hout.
  { intros code c' [= <-]. destruct (clear_store false c) as [E1 E2]. split; [|by apply runtime_clear_requests].
    split; [exact E1|exact E2]. }
  assert (refreshPromise failed = Some {| rf_epoch := epoch; rf_phase := Settling o |} ->
    describes epoch o c failed /\ requests failed = requests c) as Hfailed.
  { unfold failed. destruct (_ && is_code _ "AUTH_REFRESH_RACE").
    { destruct (refreshRaceDelays !! attempt); [done|apply Hout]. }
    destruct (_ && is_code _ "AUTH_SESSION_MISMATCH").
    { destruct retry; [|apply Hout]. intros Hrun. by destruct (run_describes _ _ _ _ _ Hrun) as (_ & _ & []). }
    destruct (_ =? 401)%Z.
    { intros [= <-]. destruct (clear_store true c) as [E1 E2]. split; [|by apply runtime_clear_requests].
      split; [exact E1|]. cbn [at_phase settle with_refresh published]. rewrite E2.
      destruct (current_sid c) as [sid|] eqn:Es; [|by rewrite app_nil_r].
      unfold publishAuthSessionEvent. by rewrite (sid_nonempty _ _ Hc Es). }
    destruct (_ || _); [by intros [= <-]|apply Hout]. }
  destruct (strictly_true _); [|done]. destruct (isAuthBundle _) as [b|] eqn:Eb; [|done].
  intros [= <-]. split; [|done]. split; [done|]. split; [by eapply isAuthBundle_ok|done].
Qed.

(** the outcome of a refresh describes the session it leaves.  When the last
    answer of a refresh arrives, [authenticated] means that the store now holds
    the bundle, with usable credentials; [anonymous] that it is empty and that the
    other tabs are told about the session that was open; [out of sync] that it is
    empty and nobody is told; a refused request keeps the session and marks the
    check as not done; and a superseded refresh, one that another operation has
    overtaken, leaves the store as it is.  No further request is sent. *)
Theorem refresh_outcome_describes_the_session locks c e c' r o :
  reachable locks c -> refreshPromise c = Some r -> (forall o, rf_phase r <> Settling o) ->
  step locks c e c' -> refreshPromise c' = Some {| rf_epoch := rf_epoch r; rf_phase := Settling o |} ->
  describes (rf_epoch r) o c c' /\ requests c' = requests c.
Proof.
  intros Hreach Hr Hp Hs Hr'. pose proof (reachable_ok _ _ Hreach) as Hc. destruct (outside e) eqn:Ho.
  { destruct (outside_keeps _ _ _ _ _ Ho Hr Hs) as [E _]. rewrite E in Hr'. injection Hr' as Er.
    destruct (Hp o). by rewrite Er. }
  destruct (resume_cases _ _ _ _ Ho Hs) as (epoch & p & Er & Hcase). rewrite Hr in Er. injection Er as ->.
  cbn in Hr', Hp |- *. destruct p.
  - destruct Hcase as [_ ->]. by destruct (run_describes _ _ _ _ _ Hr') as (? & ? & _).
  - destruct Hcase as (response & _ & ->). by apply response_describes.
  - destruct Hcase as [_ ->]. by destruct (run_describes _ _ _ _ _ Hr') as (? & ? & _).
  - by destruct (Hp outcome).
Qed.

(** ** The session and the headers *)

Definition json_header : str * str := (u "Content-Type", u "application/json").

(** C34: the session is consistent in every reachable state, whatever the order of
    logins, rotations, sign-outs, refreshes and their answers: token, expiry and
    session are set together, with a token that is not empty, a positive finite
    expiry, a session id and a user; requests carry the token exactly then; and
    messages to other tabs always name a session. *)
Theorem session_stays_consistent locks c : reachable locks c ->
  (forall s, session (store c) = Some s -> exists token expires,
     accessToken (store c) = Some token /\ accessExpiresAt (store c) = Some expires /\
     nonempty token = true /\ num_is_finite expires = true /\ num_gtb expires zero = true /\
     nonempty (ls_sid s) = true /\ user (store c) <> None /\
     getCommonHeaders (store c) = [json_header; (u "Authorization", u "Bearer " ++ token)]) /\
  (session (store c) = None -> accessToken (store c) = None /\ accessExpiresAt (store c) = None /\
     getCommonHeaders (store c) = [json_header]) /\
  Forall (fun m => nonempty (se_sid m) = true) (published c).
Proof.
  intros Hc%reachable_ok. pose proof (ok_credentials _ Hc) as H. unfold credentials_ok in H.
  unfold getCommonHeaders. split; [|split; [|exact (ok_messages _ Hc)]].
  - intros s Es. rewrite Es in H. destruct (accessToken (store c)) as [token|], (accessExpiresAt (store c)) as [expires|];
      try contradiction H. destruct H as (H1 & H2 & H3 & H4 & H5).
    exists token, expires. split_and!; try done. cbn [present_text mbind option_bind]. by rewrite H1.
  - intros Es. rewrite Es in H. by destruct (accessToken (store c)), (accessExpiresAt (store c)).
Qed.

(** ** Examples *)

Fixpoint run_events (locks : bool) (es : list event) (c : Client) : option Client :=
  match es with
  | [] => Some c
  | e :: es => handle locks e c ≫= run_events locks es
  end.
Lemma run_events_steps locks es : forall c c', run_events locks es c = Some c' -> steps locks c es c'.
Proof.
  induction es as [|e es IH]; intros c c'; cbn; [intros [= <-]; constructor|].
  intros (c1 & Hc1 & H)%bind_Some. econstructor; [exact Hc1|by apply IH].
Qed.
Lemma run_events_reachable locks es c : run_events locks es initial_client = Some c -> reachable locks c.
Proof. intros H%run_events_steps. by exists es. Qed.

Definition json_object (fields : list (string * value)) : value :=
  VObject (map (fun e => (u e.1, e.2)) fields).
(** The bundle of a login with a session id and a token. *)
Definition login_value (sid token : string) : value :=
  json_object [("access_token"%string, VString (u token)); ("token_type"%string, VString (u "Bearer"));
    ("access_expires_at"%string, VNumber (of_Z 1000));
    ("user"%string, json_object [("id"%string, VNumber one); ("username"%string, VString (u "ann"));
       ("role"%string, VNumber one)]);
    ("session"%string, json_object [("sid"%string, VString (u sid)); ("current"%string, VBoolean true);
       ("login_method"%string, VString (u "password")); ("ip"%string, VString (u "::1"));
       ("user_agent"%string, VString (u "test")); ("created_at"%string, VNumber one);
       ("last_active_at"%string, VNumber one); ("expires_at"%string, VNumber (of_Z 2000))])].
Definition answer (status : Z) (fields : list (string * value)) : event :=
  Ev_response {| rs_status := status; rs_data := json_object fields; rs_error := VUndefined |}.
Definition granted (sid token : string) : event :=
  answer 200 [("success"%string, VBoolean true); ("data"%string, login_value sid token)].
Definition conflict (code : string) : event := answer 409 [("code"%string, VString (u code))].

(** A sign-out while a refresh waits for its answer; the answer comes later. *)
Lemma overtaken_refresh_is_inert_witness : exists c c1 c2 r,
  run_events false [Ev_login (login_value "s1" "t1") true; Ev_refresh] initial_client = Some c /\
  step false c (Ev_clear true Complete) c1 /\ run_events false [granted "s1" "t2"] c1 = Some c2 /\
  refreshPromise c = Some r /\ steps false c1 [] (with_refresh (Some r) c2) /\ store c2 = reset Complete (store c).
Proof.
  destruct (run_events false [Ev_login (login_value "s1" "t1") true; Ev_refresh] initial_client) as [c|] eqn:Ec;
    [|by vm_compute in Ec].
  destruct (handle false (Ev_clear true Complete) c) as [c1|] eqn:E1; [|discriminate E1].
  destruct (run_events false [granted "s1" "t2"] c1) as [c2|] eqn:E2.
  2: { vm_compute in Ec. injection Ec as <-. vm_compute in E1. injection E1 as <-. vm_compute in E2. discriminate E2. }
  destruct (refreshPromise c) as [r|] eqn:Er; [|vm_compute in Ec; injection Ec as <-; discriminate Er].
  exists c, c1, c2, r. split; [reflexivity|]. split; [exact E1|]. split; [exact E2|]. split; [exact Er|].
  destruct (overtaken_refresh_is_inert false c r (Ev_clear true Complete) c1 [granted "s1" "t2"] c2) as [Hsteps _].
  - exact (run_events_reachable _ _ _ Ec).
  - exact Er.
  - intros o. vm_compute in Ec. injection Ec as <-. vm_compute in Er. injection Er as <-. discriminate.
  - exact I.
  - exact E1.
  - exact (run_events_steps _ _ _ _ E2).
  - repeat constructor. discriminate.
  - split; [exact Hsteps|]. vm_compute in Ec. injection Ec as <-. vm_compute in E1. injection E1 as <-.
    vm_compute in E2. injection E2 as <-. reflexivity.
Defined.

(** The longest refresh: three races, a mismatch, four more races. *)
Definition racing : list event :=
  [conflict "AUTH_REFRESH_RACE"; Ev_timer; conflict "AUTH_REFRESH_RACE"; Ev_timer;
   conflict "AUTH_REFRESH_RACE"; Ev_timer].
Definition longest : list event :=
  [Ev_refresh; Ev_lock] ++ racing ++ [conflict "AUTH_SESSION_MISMATCH"] ++ racing
  ++ [conflict "AUTH_REFRESH_RACE"].

Lemma refresh_ends_within_eight_requests_witness : exists c,
  run_events true longest initial_client = Some c /\ length (List.filter resumes longest) = 15 /\
  length (requests c) = 8 /\ length (requests c) <= 0 + 8.
Proof.
  destruct (run_events true longest initial_client) as [c|] eqn:Ec; [|by vm_compute in Ec].
  exists c. split; [reflexivity|]. split; [reflexivity|]. split.
  { vm_compute in Ec. injection Ec as <-. reflexivity. }
  destruct (refresh_ends_within_eight_requests true initial_client longest c) as (_ & H & _).
  - exists []. constructor.
  - reflexivity.
  - exact (run_events_steps _ _ _ _ Ec).
  - repeat constructor; discriminate.
  - exact H.
Defined.

Lemma refresh_outcome_describes_the_session_witness : exists c c' r b,
  run_events true [Ev_refresh; Ev_lock] initial_client = Some c /\ refreshPromise c = Some r /\
  step true c (granted "s1" "t1") c' /\
  describes (rf_epoch r) (Authenticated b) c c' /\ ab_access_token b = u "t1".
Proof.
  destruct (run_events true [Ev_refresh; Ev_lock] initial_client) as [c|] eqn:Ec; [|by vm_compute in Ec].
  destruct (handle true (granted "s1" "t1") c) as [c'|] eqn:Es;
    [|vm_compute in Ec; injection Ec as <-; vm_compute in Es; discriminate Es].
  destruct (refreshPromise c) as [r|] eqn:Er; [|vm_compute in Ec; injection Ec as <-; discriminate Er].
  destruct (isAuthBundle (login_value "s1" "t1")) as [b|] eqn:Eb; [|by vm_compute in Eb].
  exists c, c', r, b. split; [reflexivity|]. split; [exact Er|]. split; [exact Es|].
  destruct (refresh_outcome_describes_the_session true c (granted "s1" "t1") c' r (Authenticated b)) as [Hd _].
  - exact (run_events_reachable _ _ _ Ec).
  - exact Er.
  - intros o. vm_compute in Ec. injection Ec as <-. vm_compute in Er. injection Er as <-. discriminate.
  - exact Es.
  - vm_compute in Ec. injection Ec as <-. vm_compute in Er. injection Er as <-.
    vm_compute in Es. injection Es as <-. vm_compute in Eb. injection Eb as <-. reflexivity.
  - split; [exact Hd|]. vm_compute in Eb. injection Eb as <-. reflexivity.
Defined.

Lemma session_stays_consistent_witness : exists c s token,
  run_events false [Ev_refresh; granted "s1" "t1"; Ev_settled] initial_client = Some c /\
  session (store c) = Some s /\
  getCommonHeaders (store c) = [json_header; (u "Authorization", u "Bearer " ++ token)].
Proof.
  destruct (run_events false [Ev_refresh; granted "s1" "t1"; Ev_settled] initial_client) as [c|] eqn:Ec;
    [|by vm_compute in Ec].
  destruct (session (store c)) as [s|] eqn:Es; [|vm_compute in Ec; injection Ec as <-; discriminate Es].
  destruct (session_stays_consistent false c) as (H & _ & _).
  - exact (run_events_reachable _ _ _ Ec).
  - destruct (H s Es) as (token & _ & _ & _ & _ & _ & _ & _ & _ & Hh).
    exists c, s, token. split; [reflexivity|]. split; [exact Es|exact Hh].
Defined.
