(* ===== verification/TaskRoundTrip.v ===== *)
(** * The task editor reads back what it prints

    [generateTaskExprFromConfig] followed by [tryParseTaskVisualConfig]: the
    printed expression parses, type checks, is not split as a request rule, and
    is read as the tiers it was printed from. *)

From Stdlib Require Import String.
From S2P Require Import Prelude JsNumber JsString JsText Ast Parser Compile Request Structure Display.
From S2P Require Import Json JsonFacts Spelling BillingExpr TaskExpr PriceFacts DisplayFacts TaskFacts.
#[local] Open Scope nat_scope.

(** ** Words and trees of a configuration *)

Definition usage_node (field : str) : ExpressionNode := Call Fn_u [text_node field] 0 0.
Definition usage_words (field : str) : list word := call_words Fn_u [string_word field].

Definition is_token (f : BillingUsageFieldSchema) : bool := bool_decide (f_unit f = Some U_token).

(** [u("field") * price], divided by a million for tokens. *)
Definition product_words (field : str) (price : number) : list word :=
  usage_words field ++ op_word (u "*") :: lead [number_word price].
Definition price_words (field : str) (price : number) (token : bool) : list word :=
  if token then product_words field price ++ op_word (u "/") :: lead [number_word million]
  else product_words field price.
Definition price_node (field : str) (price : number) (token : bool) : ExpressionNode :=
  let product := binary_of Op_mul (usage_node field) (number_node price) in
  if token then binary_of Op_div product (number_node million) else product.

Definition shown_price (tier : TaskVisualTier) (e : str * BillingUsageFieldSchema) : number :=
  default zero (assoc_get e.1 (tv_unitPrices tier)).
Definition term_words (tier : TaskVisualTier) (e : str * BillingUsageFieldSchema) : list word :=
  price_words e.1 (shown_price tier e) (is_token e.2).
Definition term_node (tier : TaskVisualTier) (e : str * BillingUsageFieldSchema) : ExpressionNode :=
  price_node e.1 (shown_price tier e) (is_token e.2).

Definition charged (tier : TaskVisualTier) : bool := num_gtb (tv_constant tier) zero.

Definition body_terms (tier : TaskVisualTier) (fields : list (str * BillingUsageFieldSchema))
  : list (list word) :=
  (if charged tier then [[number_word (tv_constant tier)]] else []) ++ map (term_words tier) fields.
Definition body_nodes (tier : TaskVisualTier) (fields : list (str * BillingUsageFieldSchema))
  : list ExpressionNode :=
  (if charged tier then [number_node (tv_constant tier)] else []) ++ map (term_node tier) fields.

Definition tier_words (tier : TaskVisualTier) (fields : list (str * BillingUsageFieldSchema)) : list word :=
  call_words Fn_tier ([string_word (tv_label tier)]
    ++ symbol (u ",") :: lead (join_words (op_word (u "+")) (body_terms tier fields))).
Definition tier_node (tier : TaskVisualTier) (fields : list (str * BillingUsageFieldSchema))
  : ExpressionNode :=
  Call Fn_tier [text_node (tv_label tier); joined Op_add (body_nodes tier fields)] 0 0.

Definition test_words (c : TaskCondition) : list word :=
  usage_words (tk_field c) ++ op_word (u "==") :: lead [string_word (tk_value c)].
Definition test_node (c : TaskCondition) : ExpressionNode :=
  binary_of Op_eq (usage_node (tk_field c)) (text_node (tk_value c)).
Definition condition_words (l : list TaskCondition) : list word :=
  join_words (op_word (u "&&")) (map test_words l).
Definition condition_node (l : list TaskCondition) : ExpressionNode :=
  joined Op_and (map test_node l).

Abbreviation tiers_words fields :=
  (chain_words (fun t => condition_words (tv_conditions t)) (fun t => tier_words t fields)).
Abbreviation tiers_node fields :=
  (chain_node (fun t => condition_node (tv_conditions t)) (fun t => tier_node t fields)).

(** ** The text is the spelling of the words *)

Abbreviation fields_of schema := (getTaskNumberFields schema).

Lemma term_plain tier e : starts_plain (term_words tier e).
Proof. unfold term_words, price_words. by destruct (is_token e.2). Qed.

Lemma terms_plain tier fields : Forall starts_plain (body_terms tier fields).
Proof.
  unfold body_terms. apply Forall_app. split.
  - destruct (charged tier); repeat constructor.
  - apply Forall_map, Forall_true. intros e. apply term_plain.
Qed.

Lemma join_plain op l : l <> [] -> Forall starts_plain l -> starts_plain (join_words op l).
Proof. destruct l as [|ws l]; [done|]. intros _ [Hw _]%Forall_cons_iff. by destruct ws. Qed.

Lemma spell_term tier e : spell_all (term_words tier e) = price_part tier e.
Proof.
  unfold term_words, price_words, product_words, price_part, is_token, shown_price.
  destruct (bool_decide _); rewrite ?spell_all_app, spell_all_cons; unfold usage_words;
    rewrite spell_call, ?app_nil_r; unfold spell_all; cbn -[json_string number_to_string];
    rewrite ?app_nil_r; cbn -[json_string number_to_string]; rewrite <- ?app_assoc; done.
Qed.

Lemma spell_body tier fields :
  spell_all (join_words (op_word (u "+")) (body_terms tier fields)) = generateTaskTierBody tier fields.
Proof.
  rewrite spell_join by apply terms_plain. unfold generateTaskTierBody, body_terms.
  change (32%N :: w_text (op_word (u "+")) ++ [32%N]) with (u " + "). f_equal.
  rewrite map_app, map_map. f_equal.
  - unfold charged. destruct (num_gtb _ _); [|done]. cbn [map]. by rewrite spell_all_cons, app_nil_r.
  - apply map_ext. intros e. apply spell_term.
Qed.

Lemma body_terms_nonempty tier fields : fields <> [] -> body_terms tier fields <> [].
Proof. unfold body_terms. by destruct fields, (charged tier). Qed.

Lemma spell_tier tier fields : fields <> [] ->
  spell_all (tier_words tier fields) = generateTaskTierCall tier fields.
Proof.
  intros Hf. unfold tier_words, generateTaskTierCall. rewrite spell_call, spell_all_app, !spell_all_cons.
  rewrite spell_lead by by apply join_plain; [apply body_terms_nonempty|apply terms_plain].
  rewrite spell_body. cbn [spell string_word w_space w_text app]. rewrite ?app_nil_r.
  by rewrite <- !app_assoc.
Qed.

Lemma spell_condition l : spell_all (condition_words l) = generateTaskCondition l.
Proof.
  unfold condition_words, generateTaskCondition. rewrite spell_join, map_map.
  2: { apply Forall_map, Forall_true. done. }
  change (32%N :: w_text (op_word (u "&&")) ++ [32%N]) with (u " && "). f_equal.
  apply map_ext. intros c. unfold test_words, usage_words. rewrite spell_all_app, spell_call, <- !app_assoc.
  rewrite !spell_all_cons, app_nil_r, spell_lead, spell_all_cons, app_nil_r by done. reflexivity.
Qed.

(** ** The words are read back and not split *)

(** A tier and a condition that can be spelled. *)
Definition tier_spelled (fields : list (str * BillingUsageFieldSchema)) (tier : TaskVisualTier) : Prop :=
  Forall code_unit (tv_label tier) /\ readable_price (tv_constant tier) = true /\
  Forall (fun e => Forall code_unit e.1 /\ readable_price (shown_price tier e) = true) fields /\
  Forall (fun c => Forall code_unit (tk_field c) /\ Forall code_unit (tk_value c)) (tv_conditions tier).

Lemma printed_usage top field : Forall code_unit field -> printed top (usage_words field).
Proof. intros Hf. by apply printed_call, printed_string. Qed.

Lemma printed_term tier e :
  Forall code_unit e.1 -> readable_price (shown_price tier e) = true -> printed false (term_words tier e).
Proof.
  intros He Hp. assert (printed false (product_words e.1 (shown_price tier e))) as Hprod.
  { apply printed_infix; [done|apply infix_times|done|by apply printed_usage|by apply printed_number]. }
  unfold term_words, price_words. destruct (is_token e.2); [|done].
  apply printed_infix; [done|apply infix_plain; [symbol|done]|done|done|].
  by apply printed_number.
Qed.

Lemma printed_tier top fields tier :
  fields <> [] -> tier_spelled fields tier -> printed top (tier_words tier fields).
Proof.
  intros Hne (Hl & Hc & Hf & _). apply printed_call.
  apply printed_infix; [done|apply infix_plain; [symbol|done]|done|by apply printed_string|].
  assert (Forall (printed false) (body_terms tier fields)) as Ht.
  { unfold body_terms. apply Forall_app. split.
    - destruct (charged tier); [|done]. constructor; [by apply printed_number|done].
    - apply Forall_map. eapply list.Forall_impl; [exact Hf|]. intros e []. by apply printed_term. }
  pose proof (body_terms_nonempty tier fields Hne) as Hb.
  destruct (body_terms tier fields) as [|ws l]; [done|]. apply Forall_cons_iff in Ht as [Hw Ht].
  apply printed_join; [done|apply infix_plain; [symbol|done]|done|done].
Qed.

Lemma printed_condition top l :
  l <> [] -> Forall (fun c => Forall code_unit (tk_field c) /\ Forall code_unit (tk_value c)) l ->
  printed top (condition_words l).
Proof.
  intros Hne Hl. assert (Forall (printed top) (map test_words l)) as Ht.
  { apply Forall_map. eapply list.Forall_impl; [exact Hl|]. intros c [Hf Hv].
    apply printed_infix; [done|apply infix_plain; [symbol|done]|done|by apply printed_usage|].
    by apply printed_string. }
  unfold condition_words. destruct l as [|c l]; [done|]. cbn [map] in *.
  apply Forall_cons_iff in Ht as [Hw Ht].
  apply printed_join; [done|apply infix_plain; [symbol|done]|done|done].
Qed.

Lemma generate_parts_chain fields tiers :
  fields <> [] -> guarded tv_conditions tiers ->
  generate_parts fields tiers = Some (chain_parts (fun t => condition_words (tv_conditions t))
                                        (fun t => tier_words t fields) tiers).
Proof.
  intros Hf. induction tiers as [|t [|t' tiers] IH]; [done| |].
  { intros _. cbn [generate_parts chain_parts]. by rewrite spell_tier. }
  intros [Hc Hg]. specialize (IH Hg).
  change (generate_parts fields (t :: t' :: tiers)) with
    (if negb (nonempty (generateTaskCondition (tv_conditions t))) then None
     else parts ← generate_parts fields (t' :: tiers);
          Some ((generateTaskCondition (tv_conditions t) ++ u " ? " ++ generateTaskTierCall t fields) :: parts)).
  rewrite IH, <- spell_condition. replace (nonempty (spell_all _)) with true by by destruct (tv_conditions t).
  cbn [negb mbind option_bind]. by rewrite <- spell_tier.
Qed.

(** ** The words derive the tree *)

Lemma writes_usage d field : writes_operand (S d) (usage_words field) (usage_node field).
Proof.
  apply writes_call; [done|]. apply writes_argument, writes_of_chain, writes_chain_operand, writes_string.
Qed.

Lemma writes_term d p tier e : (p <= 6)%Z -> writes_chain (2 + d) p (term_words tier e) (term_node tier e).
Proof.
  intros Hp. assert (forall p, (p <= 6)%Z ->
    writes_chain (2 + d) p (product_words e.1 (shown_price tier e))
      (binary_of Op_mul (usage_node e.1) (number_node (shown_price tier e)))) as Hprod.
  { intros p' Hp'. eapply writes_binary; [done|done|apply writes_chain_operand, writes_usage|].
    apply writes_lead, writes_of_chain, writes_chain_operand, writes_number. }
  unfold term_words, term_node, price_words, price_node. destruct (is_token e.2); [|by apply Hprod].
  eapply writes_binary; [done|done|by apply Hprod|].
  apply writes_lead, writes_of_chain, writes_chain_operand, writes_number.
Qed.

Lemma writes_body d tier fields : fields <> [] ->
  writes (4 + d) 0 (join_words (op_word (u "+")) (body_terms tier fields))
    (joined Op_add (body_nodes tier fields)).
Proof.
  intros Hf. apply writes_of_chain.
  assert (Forall2 (fun ws n => forall d p, (p <= 6)%Z -> writes_chain (2 + d) p ws n)
    (body_terms tier fields) (body_nodes tier fields)) as Ht.
  { unfold body_terms, body_nodes. apply Forall2_app.
    - destruct (charged tier); [|done]. constructor; [|done]. intros. apply writes_chain_operand, writes_number.
    - clear Hf. induction fields as [|e l IH]; [done|]. constructor; [|exact IH].
      intros. by apply writes_term. }
  pose proof (body_terms_nonempty tier fields Hf) as Hne.
  destruct Ht as [|ws n l bs Hw Ht]; [done|]. cbn [joined].
  eapply (writes_join _ _ Op_add 5); [done|lia|by apply (Hw (S d))|].
  eapply list.Forall2_impl; [exact Ht|]. intros ws' n' H. by apply writes_of_chain, (H d).
Qed.

Lemma writes_tier d tier fields : fields <> [] ->
  writes_operand (4 + d) (tier_words tier fields) (tier_node tier fields).
Proof.
  intros Hf. apply writes_call; [done|]. apply writes_comma.
  - apply writes_of_chain, writes_chain_operand, writes_string.
  - by apply writes_argument, writes_lead, writes_body.
Qed.

Lemma writes_condition d l : l <> [] -> writes_chain (2 + d) 0 (condition_words l) (condition_node l).
Proof.
  assert (forall d p c, (p <= 3)%Z -> writes_chain (S d) p (test_words c) (test_node c)) as Ht.
  { intros d' p c Hp. eapply writes_binary; [done|done|apply writes_chain_operand, writes_usage|].
    apply writes_lead, writes_of_chain, writes_chain_operand, writes_string. }
  destruct l as [|c l]; [done|]. intros _. unfold condition_words, condition_node. cbn [map joined].
  eapply (writes_join _ _ Op_and 2); [done|done|by apply (Ht (S d))|].
  induction l as [|c' l IH]; [done|]. constructor; [|exact IH]. by apply writes_of_chain, Ht.
Qed.

(** ** The tree type checks *)

Lemma typed_term tier e : typed T_number 3 (term_node tier e).
Proof.
  unfold term_node, price_node. destruct (is_token e.2); (split; [done|]; split; [cbn; lia|]);
    by repeat constructor.
Qed.

Lemma typed_tier tier fields : fields <> [] ->
  typed T_number (5 + length fields) (tier_node tier fields).
Proof.
  intros Hf. assert (typed T_number (4 + length fields) (joined Op_add (body_nodes tier fields)))
    as (Ht & Hh & Hn).
  { assert (Forall (typed T_number 3) (body_nodes tier fields)) as Hl.
    { unfold body_nodes. apply Forall_app. split.
      - destruct (charged tier); [|done]. constructor; [apply typed_number|done].
      - apply Forall_map, Forall_true. intros e. apply typed_term. }
    assert (length (body_nodes tier fields) <= 1 + length fields) as Hlen.
    { unfold body_nodes. rewrite length_app, length_map. destruct (charged tier); cbn; lia. }
    assert (body_nodes tier fields <> []) as Hne by (unfold body_nodes; by destruct fields, (charged tier)).
    destruct (body_nodes tier fields) as [|a l]; [done|]. apply Forall_cons_iff in Hl as [Ha Hl].
    cbn [joined length] in *. destruct (typed_joined Op_add T_number 3 a l) as (? & ? & ?); [|done..|].
    { intros m n Em En. cbn. by rewrite Em, En. }
    split; [done|]. split; [lia|done]. }
  split; [|split].
  - cbn [tier_node infer]. by rewrite Ht.
  - cbn [tier_node node_height foldr text_node]. lia.
  - apply no_fixed_children; [|done]. constructor; [apply no_fixed_text|]. by constructor.
Qed.

Lemma typed_condition l : l <> [] -> typed T_boolean (1 + length l) (condition_node l).
Proof.
  assert (forall c, typed T_boolean 2 (test_node c)) as Ht.
  { intros c. split; [done|]. split; [cbn; lia|]. by repeat constructor. }
  destruct l as [|c l]; [done|]. intros _. unfold condition_node. cbn [map joined length].
  destruct (typed_joined Op_and T_boolean 2 (test_node c) (map test_node l)) as (? & Hh & ?).
  - intros m n Em En. cbn. by rewrite Em, En.
  - apply Ht.
  - apply Forall_map, Forall_true. apply Ht.
  - rewrite length_map in Hh. split; [done|]. split; [lia|done].
Qed.

(** ** Reading a tree does not depend on its positions *)

Section reading.
Context (schema : BillingUsageSchema) (b : bool).

Lemma task_condition_shape n : task_condition schema b (shape n) = task_condition schema b n.
Proof.
  destruct n as [| | | |o x y s e|]; try done. destruct o; try done.
  destruct x as [| |f args s' e'| | |]; try done. destruct f; try done.
  destruct args as [|a args]; [done|]. destruct a as [v| | | | |]; try done.
  destruct v; try done. by destruct y.
Qed.

Lemma unit_price_shape n scaled : unit_price schema (shape n) scaled = unit_price schema n scaled.
Proof.
  destruct n as [| | | |o x y s e|]; try done. destruct o; try done.
  destruct x as [| |f args s' e'| | |]; try done. destruct f; try done.
  destruct args as [|a args]; [done|]. destruct a as [v| | | | |]; try done.
  destruct v; try done. cbn [shape map unit_price]. by rewrite price_literal_shape.
Qed.

Lemma unscaled_shape n :
  unscaled (shape n) = match unscaled n with Some (m, scaled) => Some (shape m, scaled) | None => None end.
Proof.
  destruct n as [| | | |o x y s e|]; try done. destruct o; try done.
  destruct y as [v| | | | |]; try done. destruct v; try done. cbn [shape unscaled]. by destruct (num_eqb _ _).
Qed.

Lemma task_terms_shape l : forall constant prices,
  task_terms schema (map shape l) constant prices = task_terms schema l constant prices.
Proof.
  induction l as [|n l IH]; intros constant prices; [done|]. cbn [map task_terms].
  rewrite price_literal_shape. destruct (nonnegativePriceLiteral n); [by destruct constant|].
  rewrite unscaled_shape. destruct (unscaled n) as [[m scaled]|]; [|done]. cbn [mbind option_bind].
  rewrite unit_price_shape. destruct (unit_price schema m scaled) as [[field price]|]; [|done].
  cbn [mbind option_bind]. by destruct (assoc_has field prices).
Qed.

Lemma taskTier_shape n conditions : taskTier schema (shape n) conditions = taskTier schema n conditions.
Proof.
  destruct n as [| |f args s e| | |]; try done. destruct f; try done.
  destruct args as [|a args]; [done|]. destruct a as [v| | | | |]; try done.
  destruct v; try done. destruct args as [|body args]; [done|]. cbn [shape map taskTier].
  by rewrite flatten_shape, task_terms_shape.
Qed.

Lemma readTaskTierChain_shape n : readTaskTierChain schema b (shape n) = readTaskTierChain schema b n.
Proof.
  induction n as [n IH] using node_children_ind.
  pose proof (taskTier_shape n []) as Hl.
  destruct n as [| | | | |c y m s e]; try (cbn [readTaskTierChain shape] in *; by rewrite Hl).
  rewrite List.Forall_forall in IH. specialize (IH m ltac:(cbn; auto)).
  cbn [shape readTaskTierChain]. unfold taskConditions.
  rewrite flatten_shape, map_option_shape by apply task_condition_shape.
  destruct (map_option _ _) as [cs|]; [|done]. cbn [mbind option_bind].
  destruct (forallb snd cs); [|done]. by rewrite taskTier_shape, IH.
Qed.
End reading.

(** ** Reading the printed tree *)

Section read_back.
Context `{Collation} (schema : BillingUsageSchema).

(** What the editor needs of a schema: distinct keys (it is an object), and no
    boolean field with enum values. *)
Record editable_schema : Prop := {
  es_keys : NoDup schema.*1;
  es_enums : Forall (fun e => is_enum_field e.2 = true -> f_type e.2 <> Some F_boolean) schema;
}.
Context (Hschema : editable_schema).

Lemma number_fields_elem e :
  e ∈ getTaskNumberFields schema <-> e ∈ schema /\ is_number_field e.2 = true.
Proof. unfold getTaskNumberFields. rewrite sort_by_key_perm, !list_elem_of_In. apply filter_In. Qed.

Lemma number_fields_nodup : NoDup (getTaskNumberFields schema).*1.
Proof.
  unfold getTaskNumberFields. rewrite sort_by_key_perm. apply filter_keys_nodup, es_keys, Hschema.
Qed.

Lemma schema_get e : e ∈ schema -> assoc_get e.1 schema = Some e.2.
Proof.
  destruct Hschema as [Hk _]. clear Hschema. induction schema as [|d l IH]; [by intros ?%elem_of_nil|].
  cbn in Hk. apply list.NoDup_cons in Hk as [Hd Hl]. intros [->|He]%elem_of_cons; cbn.
  - destruct d as [k v]. cbn. by rewrite decide_True.
  - destruct d as [k v]. cbn in *. rewrite decide_False; [by apply IH|].
    intros E. apply Hd. apply list_elem_of_fmap. by exists e.
Qed.

Lemma read_term tier e scaled :
  e ∈ getTaskNumberFields schema -> readable_price (shown_price tier e) = true ->
  scaled = is_token e.2 ->
  unit_price schema (binary_of Op_mul (usage_node e.1) (number_node (shown_price tier e))) scaled =
  Some (e.1, shown_price tier e).
Proof.
  intros [He Hn]%number_fields_elem Hp ->. apply charged_positive in Hp as [Hp _].
  cbn. rewrite Hp. cbn. rewrite (schema_get e He). cbn. unfold is_number_field in Hn. unfold is_token.
  destruct (f_type e.2) as [[]|]; try discriminate Hn. destruct (f_unit e.2) as [unit_|]; [|discriminate Hn].
  by destruct unit_.
Qed.

Lemma read_terms tier fields : forall constant acc,
  (forall e, e ∈ fields -> e ∈ getTaskNumberFields schema /\ readable_price (shown_price tier e) = true) ->
  NoDup (acc.*1 ++ fields.*1) ->
  task_terms schema (map (term_node tier) fields) constant acc =
  Some (default zero constant, acc ++ map (fun e => (e.1, shown_price tier e)) fields).
Proof.
  induction fields as [|e fields IH]; intros constant acc Hf Hd.
  { cbn. by rewrite app_nil_r. }
  destruct (Hf e ltac:(by left)) as [He Hp]. cbn [map task_terms].
  assert (nonnegativePriceLiteral (term_node tier e) = None) as ->.
  { unfold term_node, price_node. by destruct (is_token e.2). }
  assert (unscaled (term_node tier e) =
    Some (binary_of Op_mul (usage_node e.1) (number_node (shown_price tier e)), is_token e.2)) as ->.
  { unfold term_node, price_node. by destruct (is_token e.2). }
  cbn [mbind option_bind]. rewrite read_term by done. cbn [mbind option_bind].
  assert (e.1 ∉ acc.*1) as Hfresh.
  { apply list.NoDup_app in Hd as (_ & Hd & _). intros Hin. apply (Hd _ Hin). cbn. by left. }
  assert (assoc_has e.1 acc = false) as ->.
  { unfold assoc_has. by rewrite (proj2 (assoc_get_None _ _) Hfresh). }
  rewrite assoc_set_fst_fresh by done. rewrite IH.
  - by rewrite <- app_assoc.
  - intros e' He'. apply Hf. by right.
  - rewrite fmap_app, <- app_assoc. exact Hd.
Qed.

(** The row a printed tier is read as. *)
Definition read_tier (tier : TaskVisualTier) : TaskTier :=
  {| task_conditionText := None; task_label := tv_label tier; task_conditions := tv_conditions tier;
     task_constant := tv_constant tier;
     task_unitPrices := map (fun e => (e.1, shown_price tier e)) (getTaskNumberFields schema) |}.

Lemma term_single tier e : flattenBinary (term_node tier e) Op_add = [term_node tier e].
Proof. unfold term_node, price_node. by destruct (is_token e.2). Qed.

Lemma read_tier_node tier :
  getTaskNumberFields schema <> [] -> tier_spelled (getTaskNumberFields schema) tier ->
  taskTier schema (tier_node tier (getTaskNumberFields schema)) (tv_conditions tier) =
  Some (read_tier tier).
Proof.
  intros Hne (_ & Hc & Hf & _). set (fields := getTaskNumberFields schema) in *.
  cbn [tier_node taskTier text_node]. rewrite flatten_joined.
  2: { unfold body_nodes. by destruct fields, (charged tier). }
  2: { unfold body_nodes. apply Forall_app. split; [by destruct (charged tier); repeat constructor|].
       apply Forall_map, Forall_true. apply term_single. }
  assert (forall constant, task_terms schema (map (term_node tier) fields) constant [] =
    Some (default zero constant, map (fun e => (e.1, shown_price tier e)) fields)) as Ht.
  { intros constant. rewrite read_terms; [done| |].
    - intros e He. split; [done|]. rewrite List.Forall_forall in Hf. apply list_elem_of_In in He.
      by destruct (Hf e He).
    - cbn. apply number_fields_nodup. }
  destruct (charged_positive _ Hc) as [Hge Hzero].
  assert (task_terms schema (body_nodes tier fields) None [] =
    Some (tv_constant tier, map (fun e => (e.1, shown_price tier e)) fields)) as ->.
  { unfold body_nodes, charged. destruct (num_gtb _ _).
    - cbn [app task_terms number_node nonnegativePriceLiteral]. rewrite Hge. by rewrite Ht.
    - cbn [app]. rewrite Ht. by rewrite Hzero. }
  cbn [mbind option_bind]. unfold read_tier. fold fields. by destruct fields.
Qed.

(** The condition is on a declared value of an enum field. *)
Definition declared_value (c : TaskCondition) : bool :=
  match assoc_get (tk_field c) (getTaskEnumFields schema) with
  | Some f => one_of (default [] (f_enum f)) (tk_value c)
  | None => false
  end.

Lemma read_test c : declared_value c = true -> task_condition schema false (test_node c) = Some (c, true).
Proof.
  unfold declared_value. destruct (assoc_get _ _) as [f|] eqn:Eg; [|done]. intros Hv.
  apply assoc_get_In, enum_fields_elem in Eg as [Hin He]. pose proof (schema_get _ Hin) as Hg.
  cbn in Hg, He. destruct Hschema as [_ Hb]. rewrite List.Forall_forall in Hb.
  apply list_elem_of_In in Hin. specialize (Hb _ Hin He). cbn in Hb.
  cbn [test_node binary_of usage_node text_node task_condition]. rewrite Hg. cbn [mbind option_bind].
  rewrite bool_decide_eq_false_2 by done. unfold is_enum_field in He.
  destruct (f_enum f) as [values|]; [|done]. change (one_of values (tk_value c) = true) in Hv. rewrite Hv. by destruct c.
Qed.

Lemma read_condition l : l <> [] -> Forall (fun c => declared_value c = true) l ->
  taskConditions schema false (condition_node l) = Some (Conditions l).
Proof.
  intros Hne Hl. unfold taskConditions, condition_node. rewrite flatten_joined.
  - assert (map_option (task_condition schema false) (map test_node l) = Some (map (fun c => (c, true)) l))
      as ->.
    { clear Hne. induction Hl as [|c l Hc _ IH]; [done|]. cbn [map map_option].
      rewrite read_test by done. cbn [mbind option_bind]. by rewrite IH. }
    cbn [mbind option_bind]. rewrite forallb_map, map_map. cbn.
    replace (forallb (fun _ => true) l) with true by (symmetry; by apply forallb_forall).
    by rewrite map_id.
  - by destruct l.
  - apply Forall_map, Forall_true. done.
Qed.

Lemma read_tiers tiers :
  getTaskNumberFields schema <> [] -> guarded tv_conditions tiers ->
  Forall (tier_spelled (getTaskNumberFields schema)) tiers ->
  Forall (fun t => Forall (fun c => declared_value c = true) (tv_conditions t)) tiers ->
  readTaskTierChain schema false (tiers_node (getTaskNumberFields schema) tiers) =
  Some (map read_tier tiers).
Proof.
  intros Hne. induction tiers as [|t tiers IH]; [done|].
  intros Hg [Ht Hs]%Forall_cons_iff [Hd Hds]%Forall_cons_iff.
  pose proof (read_tier_node t Hne Ht) as Hr. destruct tiers as [|t' tiers].
  { cbn in Hg. rewrite Hg in Hr. cbn [tiers_node map]. 
    change (readTaskTierChain schema false (tier_node t (getTaskNumberFields schema))) with
      (fallback ← taskTier schema (tier_node t (getTaskNumberFields schema)) []; Some [fallback]).
    by rewrite Hr. }
  destruct Hg as [Hc Hg].
  change (tiers_node (getTaskNumberFields schema) (t :: t' :: tiers)) with
    (Conditional (condition_node (tv_conditions t)) (tier_node t (getTaskNumberFields schema))
       (tiers_node (getTaskNumberFields schema) (t' :: tiers)) 0 0).
  cbn [readTaskTierChain]. rewrite read_condition by done. cbn [mbind option_bind].
  rewrite Hr. cbn [mbind option_bind]. by rewrite (IH Hg Hs Hds).
Qed.

(** ** Normalization *)

Lemma amount_or_zero_idem x : amount_or_zero (amount_or_zero x) = amount_or_zero x.
Proof. unfold amount_or_zero. destruct (num_is_finite x && num_geb x zero) eqn:E; [by rewrite E|done]. Qed.

Lemma filter_all {A} (f : A -> bool) l : Forall (fun x => f x = true) l -> List.filter f l = l.
Proof. induction 1 as [|x l Hx _ IH]; [done|]. cbn. by rewrite Hx, IH. Qed.

(** What a normalized tier is. *)
Definition normal (t : TaskVisualTier) : Prop :=
  nonempty (tv_label t) = true /\ Forall (fun c => declared_value c = true) (tv_conditions t) /\
  amount_or_zero (tv_constant t) = tv_constant t /\
  exists price, tv_unitPrices t = map (fun e => (e.1, price e.1)) (getTaskNumberFields schema) /\
    forall k, amount_or_zero (price k) = price k.

Lemma index_label_nonempty i : nonempty (index_label i) = true.
Proof. unfold index_label. by destruct (i =? 0). Qed.

Lemma normalize_tier_normal i t : normal (normalize_tier schema i t).
Proof.
  split; [|split; [|split]]; cbn.
  - destruct (nonempty (tv_label t)) eqn:E; [done|apply index_label_nonempty].
  - apply List.Forall_forall. intros c [_ Hc]%filter_In. exact Hc.
  - apply amount_or_zero_idem.
  - exists (fun k => amount_or_zero (default NaN (assoc_get k (tv_unitPrices t)))). split; [done|].
    intros k. apply amount_or_zero_idem.
Qed.

Lemma prices_get (price : str -> number) (fields : list (str * BillingUsageFieldSchema)) e : e ∈ fields ->
  assoc_get e.1 (map (fun e => (e.1, price e.1)) fields) = Some (price e.1).
Proof.
  induction fields as [|d l IH]; [by intros ?%elem_of_nil|]. cbn. intros He.
  case_decide as Hd; [by rewrite Hd|]. apply IH. by apply elem_of_cons in He as [->|].
Qed.

Lemma normal_fixpoint i t : normal t -> normalize_tier schema i t = t.
Proof.
  intros (Hl & Hc & Ha & price & Hp & Hz). destruct t as [label conditions constant prices]. cbn in *.
  unfold normalize_tier. cbn. rewrite Hl, Ha. f_equal; [by apply filter_all|]. subst prices.
  apply map_ext_in. intros e He. apply list_elem_of_In in He. rewrite prices_get by done. cbn. by rewrite Hz.
Qed.

Lemma read_tier_normal t : normal t -> visual_tier (read_tier t) = t.
Proof.
  intros (_ & _ & _ & price & Hp & _). destruct t as [label conditions constant prices]. cbn in *.
  subst prices. unfold visual_tier, read_tier. cbn. f_equal. apply map_ext_in. intros e He.
  apply list_elem_of_In in He. unfold shown_price. cbn. by rewrite prices_get.
Qed.

Lemma normalize_normal c : Forall normal (normalizeTaskVisualConfig c schema).
Proof.
  unfold normalizeTaskVisualConfig. destruct c as [|t c].
  - constructor; [|done]. split; [done|]. split; [done|]. split; [done|]. by exists (fun _ => zero).
  - apply List.Forall_forall. intros t' Ht'. apply list_elem_of_In, elem_of_lookup_imap in Ht' as (i & t0 & -> & _).
    apply normalize_tier_normal.
Qed.

Lemma normalize_fixpoint l : l <> [] -> Forall normal l -> normalizeTaskVisualConfig l schema = l.
Proof.
  intros Hne Hl. unfold normalizeTaskVisualConfig. destruct l as [|t l]; [done|].
  assert (forall i, imap (fun j => normalize_tier schema (i + j)) (t :: l) = t :: l) as H'; [|apply (H' 0)].
  clear Hne. induction Hl as [|t' l' Ht Hl IH]; intros i; [done|]. cbn [imap].
  rewrite normal_fixpoint by done. f_equal. rewrite <- (IH (S i)) at 2. apply imap_ext.
  intros j x _. cbn. f_equal. lia.
Qed.

(** ** The text *)

Lemma tier_ends fields tier : exists c middle,
  (c = 116 \/ c = 117)%N /\ spell_all (tier_words tier fields) = c :: middle ++ u ")".
Proof.
  unfold tier_words. rewrite spell_call. exists 116%N.
  match goal with |- context [spell_all ?ws] => exists (u "ier(" ++ spell_all ws) end. by split; [left|].
Qed.

Lemma condition_starts l : l <> [] -> exists c rest,
  (c = 116 \/ c = 117)%N /\ spell_all (condition_words l) = c :: rest.
Proof. destruct l as [|x l]; [done|]. intros _. exists 117%N. eexists. split; [by right|reflexivity]. Qed.

(** A tier that can be printed, with at most [k] conditions. *)
Definition tier_good (k : nat) (t : TaskVisualTier) : Prop :=
  tier_spelled (getTaskNumberFields schema) t /\ length (tv_conditions t) <= k.

Context (k : nat) (Hfields : getTaskNumberFields schema <> []).

Lemma good_body t : tier_good k t -> printed true (tier_words t (getTaskNumberFields schema)).
Proof. intros [Ht _]. by apply printed_tier. Qed.
Lemma good_test t : tier_good k t -> tv_conditions t <> [] -> printed true (condition_words (tv_conditions t)).
Proof. intros [(_ & _ & _ & Ht) _] Hc. by apply printed_condition. Qed.

Lemma generate_text c :
  guarded tv_conditions (normalizeTaskVisualConfig c schema) ->
  Forall (tier_good k) (normalizeTaskVisualConfig c schema) ->
  generateTaskExprFromConfig c schema =
  spell_all (tiers_words (getTaskNumberFields schema) (normalizeTaskVisualConfig c schema)).
Proof.
  intros Hg Hl. rewrite <- (spell_chain _ _ _ _ good_body good_test) by done.
  unfold generateTaskExprFromConfig. pose proof (generate_parts_chain _ _ Hfields Hg) as Ep.
  destruct (getTaskNumberFields schema) as [|e fields] eqn:Ef; [done|].
  destruct (normalizeTaskVisualConfig c schema) as [|t [|t' tiers]]; [done| |by rewrite Ep].
  cbn [chain_parts join]. by rewrite spell_tier.
Qed.

Lemma compile_tiers tiers :
  guarded tv_conditions tiers -> Forall (tier_good k) tiers -> length tiers <= 120 ->
  5 + length (getTaskNumberFields schema) + k + length tiers <= 256 ->
  (Z.of_nat (length (spell_all (tiers_words (getTaskNumberFields schema) tiers))) < 10000)%Z ->
  trim (spell_all (tiers_words (getTaskNumberFields schema) tiers)) =
    spell_all (tiers_words (getTaskNumberFields schema) tiers) /\
  exists compiled, compile (spell_all (tiers_words (getTaskNumberFields schema) tiers)) = inl compiled /\
    shape (ce_ast compiled) = tiers_node (getTaskNumberFields schema) tiers.
Proof.
  intros Hg Ht Hn Hh Hl.
  eapply (compile_chain tv_conditions (tier_good k)); [..|exact Hg|exact Ht| | |exact Hl].
  - apply good_body.
  - apply good_test.
  - intros t _. apply tier_ends.
  - intros t _. apply condition_starts.
  - intros t d _. by apply (writes_tier d).
  - intros t d _ Hc. by apply (writes_condition (2 + d)).
  - intros t _. destruct (typed_tier t (getTaskNumberFields schema) Hfields) as (? & ? & ?).
    split; [done|]. split; [|done]. instantiate (1 := 5 + length (getTaskNumberFields schema) + k). lia.
  - intros t [_ Hk] Hc. destruct (typed_condition _ Hc) as (? & ? & ?). split; [done|]. split; [lia|done].
  - by intros c [-> | ->].
  - lia.
  - lia.
Qed.

Lemma tiers_unsplit tiers :
  guarded tv_conditions tiers -> Forall (tier_good k) tiers ->
  trim (spell_all (tiers_words (getTaskNumberFields schema) tiers)) =
    spell_all (tiers_words (getTaskNumberFields schema) tiers) ->
  splitBillingExprAndRequestRules (spell_all (tiers_words (getTaskNumberFields schema) tiers)) =
  Ok (spell_all (tiers_words (getTaskNumberFields schema) tiers), []).
Proof.
  intros Hg Hl Htrim. unfold splitBillingExprAndRequestRules. rewrite Htrim.
  pose proof (chain_unsplit _ _ _ _ good_body good_test tiers Hg Hl) as Hs.
  fold (splitTopLevelMultiply (spell_all (tiers_words (getTaskNumberFields schema) tiers))) in Hs.
  apply Nat.leb_le in Hs. rewrite Hs. by destruct (nonempty _) eqn:E; [|destruct (spell_all _)].
Qed.
End read_back.

(** A configuration the editor can print: every tier but the last has a
    condition, its texts are texts and its prices readable, and the expression
    stays within the limits of the parser. *)
Record printable `{Collation} (schema : BillingUsageSchema) (c : TaskVisualConfig) : Prop := {
  pr_schema : editable_schema schema;
  pr_fields : getTaskNumberFields schema <> [];
  pr_guarded : guarded tv_conditions (normalizeTaskVisualConfig c schema);
  pr_spelled : Forall (tier_spelled (getTaskNumberFields schema)) (normalizeTaskVisualConfig c schema);
  pr_tiers : length (normalizeTaskVisualConfig c schema) <= 120;
  pr_height : Forall (fun t => 5 + length (getTaskNumberFields schema) + length (tv_conditions t)
                                 + length (normalizeTaskVisualConfig c schema) <= 256)
                (normalizeTaskVisualConfig c schema);
  pr_length : (Z.of_nat (length (generateTaskExprFromConfig c schema)) < 10000)%Z;
}.

(** C6: the task editor reads its own expressions: printing a configuration and
    opening the printed text again gives the normalized configuration, tier by
    tier with labels, conditions, constants and unit prices.  The text goes
    through the splitter of request rules, the lexer, the parser, the type
    checker and the reader of tier chains on the way. *)
Theorem task_editor_round_trip `{Collation} (schema : BillingUsageSchema) (c : TaskVisualConfig) :
  printable schema c ->
  tryParseTaskVisualConfig (generateTaskExprFromConfig c schema) schema =
  Ok (Some (normalizeTaskVisualConfig c schema)).
Proof.
  intros [Hs Hf Hg Ht Hn Hh Hl].
  pose proof (normalize_normal schema c) as Hnormal.
  set (tiers := normalizeTaskVisualConfig c schema) in *.
  assert (Forall (tier_good schema (251 - length (getTaskNumberFields schema) - length tiers)) tiers) as Hgood.
  { rewrite List.Forall_forall in Ht, Hh |- *. intros t Hin. split; [auto|]. specialize (Hh t Hin). lia. }
  pose proof (generate_text schema _ Hf c Hg Hgood) as E. fold tiers in E. rewrite E in Hl |- *.
  assert (5 + length (getTaskNumberFields schema) + length tiers <= 256) as Hh0.
  { assert (exists t, t ∈ tiers) as [t Hin] by (destruct tiers as [|t tiers']; [done|]; exists t; by left).
    rewrite List.Forall_forall in Hh. apply list_elem_of_In in Hin. specialize (Hh t Hin). lia. }
  destruct (compile_tiers schema _ Hf tiers Hg Hgood Hn ltac:(lia) Hl) as (Htrim & compiled & Ec & Esh).
  unfold tryParseTaskVisualConfig, parseTaskTiersFromExpr.
  replace (nonempty (spell_all _)) with true.
  2: { symmetry. destruct (spell_all _) eqn:E0; [|done]. exfalso. by vm_compute in Ec. }
  destruct schema as [|d schema']; [done|]. cbn [negb orb].
  erewrite tiers_unsplit by done. cbn [mbind result_bind]. rewrite Ec.
  rewrite <- readTaskTierChain_shape, Esh. rewrite read_tiers; [|done..|].
  2: { eapply list.Forall_impl; [exact Hnormal|]. by intros t (_ & ? & _). }
  cbn [default]. assert (map visual_tier (map (read_tier (d :: schema')) tiers) = tiers) as Ev.
  { rewrite map_map. etransitivity; [|apply map_id]. apply map_ext_in. intros t Hin.
    rewrite List.Forall_forall in Hnormal. by apply read_tier_normal, Hnormal. }
  destruct (map (read_tier (d :: schema')) tiers) as [|r rows] eqn:Er.
  { apply map_eq_nil in Er. by rewrite Er in Hg. }
  unfold id. rewrite Ev, normalize_fixpoint; [done| |done]. intros E0. by rewrite E0 in Hg.
Qed.

(** Two tiers with a label that needs escapes, a constant and prices per second
    and per million tokens. *)
Definition clip_schema : BillingUsageSchema :=
  [(u "seconds", plain_field (Some F_number) (Some U_second) None);
   (u "tokens", plain_field (Some F_number) (Some U_token) None);
   (u "quality", plain_field None None (Some [u "hd"; u "sd"]))].
Definition clip_config : TaskVisualConfig :=
  [{| tv_label := awkward; tv_conditions := [TaskCond (u "quality") (u "hd"); TaskCond (u "gone") (u "x")];
      tv_constant := to_number (u "0.25");
      tv_unitPrices := [(u "seconds", to_number (u "1.5")); (u "tokens", of_Z 3)] |};
   {| tv_label := []; tv_conditions := []; tv_constant := NaN;
      tv_unitPrices := [(u "seconds", to_number (u "1e-7"))] |}].

#[local] Instance tier_spelled_dec fields tier : Decision (tier_spelled fields tier).
Proof. unfold tier_spelled. apply _. Defined.

Lemma clip_printable : printable (H := plain_collation) clip_schema clip_config.
Proof.
  constructor.
  - split; [decided|]. by repeat constructor.
  - by vm_compute.
  - by vm_compute.
  - decided.
  - decided.
  - decided.
  - decided.
Qed.

Lemma task_editor_round_trip_witness :
  printable (H := plain_collation) clip_schema clip_config /\
  tryParseTaskVisualConfig (H := plain_collation)
    (generateTaskExprFromConfig (H := plain_collation) clip_config clip_schema) clip_schema =
  Ok (Some (normalizeTaskVisualConfig (H := plain_collation) clip_config clip_schema)).
Proof.
  split; [exact clip_printable|].
  exact (task_editor_round_trip (H := plain_collation) clip_schema clip_config clip_printable).
Defined.
