(* ===== verification/TierRoundTrip.v ===== *)
(** * What the tier editor prints, the price tables read

    [generateExprFromVisualConfig] prints the tiers of the tier editor; the
    price tables read a text with [readTokenTierChain].  The printed text
    compiles, and the rows read from it are the tiers that were edited. *)

From Stdlib Require Import String.
From S2P Require Import Prelude JsNumber JsString JsText Ast Parser Compile Request BillingTime Runtime.
From S2P Require Import RuntimeFacts FixedPrice Structure Display PriceFacts DisplayFacts.
From S2P Require Import Json JsonFacts Spelling BillingExpr TierExpr.
#[local] Open Scope nat_scope.

(** ** The rows of a configuration *)

Definition input_number (v : ConditionInputValue) : number :=
  match v with Input_number x => x | Input_text s => to_number s end.
Definition given_conditions (tier : VisualTier) : list TokenTierCondition :=
  map (fun c => TokenCondition (ti_var c) (ti_op c) (input_number (ti_value c)))
    (List.filter (fun c => is_given (ti_value c)) (vt_conditions tier)).

Definition charged_prices (tier : VisualTier) : list (BillingVariable * number) :=
  (Var_p, number_or_zero (vt_input_unit_cost tier)) :: (Var_c, number_or_zero (vt_output_unit_cost tier))
  :: omap (fun cv : BillingVariable * str =>
       let v := number_or_zero (cost_of (vt_costs tier) cv.2) in
       if num_eqb v zero then None else Some (cv.1, v)) BILLING_CACHE_VAR_MAP.

Definition label_or (other : str) (tier : VisualTier) : str :=
  if nonempty (vt_label tier) then vt_label tier else other.

Fixpoint rows_from (i : nat) (tiers : list VisualTier) : list TokenTier :=
  match tiers with
  | [] => []
  | tier :: rest =>
      price_tier (label_or (u "tier_" ++ number_to_string (of_Z (Z.of_nat i + 1))) tier)
        (match rest with [] => [] | _ => given_conditions tier end) (charged_prices tier)
      :: rows_from (S i) rest
  end.

Definition visual_rows (config : VisualConfig) : list TokenTier :=
  match config with
  | [tier] => [price_tier (label_or (u "default") tier) (given_conditions tier) (charged_prices tier)]
  | tiers => rows_from 0 tiers
  end.

(** ** Words and trees of a row *)

Definition var_node (v : BillingVariable) : ExpressionNode := Variable_ v 0 0.
Definition var_words (v : BillingVariable) : list word := [name (variable_text v)].

Definition price_words (e : BillingVariable * number) : list word :=
  var_words e.1 ++ op_word (u "*") :: lead [number_word e.2].
Definition price_node (e : BillingVariable * number) : ExpressionNode :=
  binary_of Op_mul (var_node e.1) (number_node e.2).
Definition row_words (row : TokenTier) : list word :=
  call_words Fn_tier ([string_word (tt_label row)]
    ++ symbol (u ",") :: lead (join_words (op_word (u "+")) (map price_words (tt_prices row)))).
Definition row_node (row : TokenTier) : ExpressionNode :=
  Call Fn_tier [text_node (tt_label row); joined Op_add (map price_node (tt_prices row))] 0 0.

Definition test_words (c : TokenTierCondition) : list word :=
  var_words (tc_var c) ++ op_word (operator_text (tc_op c)) :: lead [number_word (tc_value c)].
Definition test_node (c : TokenTierCondition) : ExpressionNode :=
  binary_of (tc_op c) (var_node (tc_var c)) (number_node (tc_value c)).
Definition tests_words (row : TokenTier) : list word :=
  join_words (op_word (u "&&")) (map test_words (tt_conditions row)).
Definition tests_node (row : TokenTier) : ExpressionNode :=
  joined Op_and (map test_node (tt_conditions row)).

(** ** Rows that can be printed *)

(** The label is printed between quotes as it is. *)
Definition plain_label (label : str) : Prop :=
  Forall code_unit label /\ json_string label = quoted label.
Definition test_ok (c : TokenTierCondition) : bool :=
  is_order (tc_op c) && is_condition_variable (tc_var c) && readable_price (tc_value c).
Definition row_ok (k : nat) (row : TokenTier) : Prop :=
  row = price_tier (tt_label row) (tt_conditions row) (tt_prices row) /\
  plain_label (tt_label row) /\ tt_prices row <> [] /\ NoDup (tt_prices row).*1 /\
  Forall (fun e => readable_price e.2 = true /\ e.1 <> Var_len /\ e.1 <> Var_image_count) (tt_prices row) /\
  Forall (fun c => test_ok c = true) (tt_conditions row) /\
  length (tt_prices row) <= 20 /\ length (tt_conditions row) <= k.

Lemma printed_var top v : printed top (var_words v).
Proof.
  apply printed_single; [apply name_ok; by destruct v|done|].
  intros z. apply passes_text. by destruct v.
Qed.

Lemma printed_price e : readable_price e.2 = true -> printed false (price_words e).
Proof.
  intros He. apply printed_infix; [done|apply infix_times|done|apply printed_var|by apply printed_number].
Qed.

Lemma printed_row k row : row_ok k row -> printed true (row_words row).
Proof.
  intros (_ & [Hl _] & Hne & _ & Hp & _). apply printed_call.
  apply printed_infix; [done|apply infix_plain; [symbol|done]|done|by apply printed_string|].
  destruct (tt_prices row) as [|e l]; [done|]. apply Forall_cons_iff in Hp as [[He _] Hp]. cbn [map].
  apply printed_join; [done|apply infix_plain; [symbol|done]|by apply printed_price|].
  apply Forall_map. eapply list.Forall_impl; [exact Hp|]. intros e' [? _]. by apply printed_price.
Qed.

Lemma order_symbol o : is_order o = true -> operator_text o ∈ SYMBOLS.
Proof. destruct o; try discriminate; intros _; symbol. Qed.

Lemma printed_test top c : test_ok c = true -> printed top (test_words c).
Proof.
  unfold test_ok. rewrite !andb_true_iff. intros [[Ho _] Hx].
  apply printed_infix; [done| |done|apply printed_var|by apply printed_number].
  apply infix_plain; [by apply order_symbol|]. by destruct (tc_op c).
Qed.

Lemma printed_tests k row : row_ok k row -> tt_conditions row <> [] -> printed true (tests_words row).
Proof.
  intros (_ & _ & _ & _ & _ & Hc & _) Hne. unfold tests_words.
  destruct (tt_conditions row) as [|c l]; [done|]. apply Forall_cons_iff in Hc as [Hc Hl]. cbn [map].
  apply printed_join; [done|apply infix_plain; [symbol|done]|by apply printed_test|].
  apply Forall_map. eapply list.Forall_impl; [exact Hl|]. intros c' ?. by apply printed_test.
Qed.

(** ** The words derive the tree, and it type checks *)

Lemma writes_price d p e : (p <= 6)%Z -> writes_chain (S d) p (price_words e) (price_node e).
Proof.
  intros Hp. eapply writes_binary; [done|done|apply writes_chain_operand, writes_variable|].
  apply writes_lead, writes_of_chain, writes_chain_operand, writes_number.
Qed.

Lemma writes_row k d row : row_ok k row -> writes_operand (3 + d) (row_words row) (row_node row).
Proof.
  intros (_ & _ & Hne & _). apply writes_call; [done|]. apply writes_comma.
  { apply writes_of_chain, writes_chain_operand, writes_string. }
  apply writes_argument, writes_lead, writes_of_chain.
  destruct (tt_prices row) as [|e l]; [done|]. cbn [map joined].
  eapply (writes_join _ _ Op_add 5); [done|done|by apply writes_price|].
  clear Hne. induction l as [|e' l IH]; [done|]. constructor; [|exact IH].
  by apply writes_of_chain, writes_price.
Qed.

Lemma writes_tests k d row : row_ok k row -> tt_conditions row <> [] ->
  writes_chain (2 + d) 0 (tests_words row) (tests_node row).
Proof.
  intros (_ & _ & _ & _ & _ & Hc & _) Hne. unfold tests_words, tests_node.
  assert (forall d p c, test_ok c = true -> (p <= 3)%Z -> writes_chain (S d) p (test_words c) (test_node c))
    as Ht.
  { intros d' p c. unfold test_ok. rewrite !andb_true_iff. intros [[Ho _] _] Hp.
    apply (writes_binary _ _ (tc_op c) 4 (op_word (operator_text (tc_op c)))); [|lia| |].
    - by destruct (tc_op c).
    - apply writes_chain_operand, writes_variable.
    - apply writes_lead, writes_of_chain, writes_chain_operand, writes_number. }
  destruct (tt_conditions row) as [|c l]; [done|]. apply Forall_cons_iff in Hc as [Hc Hl]. cbn [map joined].
  eapply (writes_join _ _ Op_and 2); [done|done|by apply Ht|]. clear Hne.
  induction Hl as [|c' l Hc' _ IH]; [done|]. constructor; [|exact IH]. by apply writes_of_chain, Ht.
Qed.

Lemma typed_row k row : row_ok k row -> typed T_number 24 (row_node row).
Proof.
  intros (_ & _ & Hne & _ & _ & _ & Hlen & _).
  assert (typed T_number 22 (joined Op_add (map price_node (tt_prices row)))) as (Ht & Hh & Hn).
  { destruct (tt_prices row) as [|e l]; [done|]. cbn [map joined length] in *.
    assert (forall e, typed T_number 1 (price_node e)) as Hp.
    { intros e'. split; [done|]. split; [cbn; lia|]. by repeat constructor. }
    destruct (typed_joined Op_add T_number 1 (price_node e) (map price_node l)) as (? & Hh & ?).
    - intros m n Em En. cbn. by rewrite Em, En.
    - apply Hp.
    - apply Forall_map, Forall_true. apply Hp.
    - rewrite length_map in Hh. split; [done|]. split; [lia|done]. }
  split; [cbn [row_node infer]; by rewrite Ht|]. split; [cbn [row_node node_height foldr text_node]; lia|].
  apply no_fixed_children; [|done]. constructor; [apply no_fixed_text|]. by constructor.
Qed.

Lemma typed_tests k row : row_ok k row -> tt_conditions row <> [] ->
  typed T_boolean (1 + k) (tests_node row).
Proof.
  intros (_ & _ & _ & _ & _ & Hc & _ & Hk) Hne. unfold tests_node.
  assert (forall c, test_ok c = true -> typed T_boolean 1 (test_node c)) as Ht.
  { intros c. unfold test_ok. rewrite !andb_true_iff. intros [[Ho _] _].
    split; [by destruct c as [? [] ?]|]. split; [cbn; lia|]. by repeat constructor. }
  destruct (tt_conditions row) as [|c l]; [done|]. apply Forall_cons_iff in Hc as [Hc Hl].
  cbn [map joined length] in *.
  destruct (typed_joined Op_and T_boolean 1 (test_node c) (map test_node l)) as (? & Hh & ?).
  - intros m n Em En. cbn. by rewrite Em, En.
  - by apply Ht.
  - apply Forall_map. eapply list.Forall_impl; [exact Hl|]. apply Ht.
  - rewrite length_map in Hh. split; [done|]. split; [lia|done].
Qed.

(** ** Reading a tree does not depend on its positions *)

Lemma token_condition_shape n : token_condition (shape n) = token_condition n.
Proof.
  destruct n as [| | | |o x y s e|]; try done. destruct x; try done. by destruct y as [v| | | | |].
Qed.

Lemma price_variable_shape n : price_variable (shape n) = price_variable n.
Proof.
  destruct n as [|v|f args s e| | |]; try done. destruct f; try done.
  destruct args as [|a [|b [|c args]]]; try done.
  assert (forall m, is_zero_literal (shape m) = is_zero_literal m) as Hz by by intros [].
  assert (forall m, is_len_minus_ai (shape m) = is_len_minus_ai m) as Hl.
  { intros [| | | |o x y ? ?|]; try done. destruct o; try done. destruct x as [|v| | | |]; try done.
    destruct v; try done. by destruct y. }
  cbn [shape map price_variable]. by rewrite !Hz, !Hl.
Qed.

Lemma price_term_shape n : price_term (shape n) = price_term n.
Proof.
  destruct n as [| | | |o x y s e|]; try done. destruct o; try done. cbn [shape price_term].
  rewrite !price_literal_shape. destruct (nonnegativePriceLiteral y); cbn [mbind option_bind].
  - by rewrite price_variable_shape.
  - destruct (nonnegativePriceLiteral x); [|done]. cbn [mbind option_bind]. by rewrite price_variable_shape.
Qed.

Lemma price_terms_shape l : forall prices, price_terms (map shape l) prices = price_terms l prices.
Proof.
  induction l as [|n l IH]; intros prices; [done|]. cbn [map price_terms]. rewrite price_term_shape.
  destruct (price_term n) as [[v x]|]; [|done]. cbn [mbind option_bind]. by destruct (assoc_has v prices).
Qed.

Lemma tokenTier_shape n conditions : tokenTier (shape n) conditions = tokenTier n conditions.
Proof.
  destruct n as [| |f args s e| | |]; try done. destruct f; try done.
  destruct args as [|a args]; [done|]. destruct a as [v| | | | |]; try done. destruct v; try done.
  destruct args as [|body args]; [done|]. cbn [shape map].
  assert (flattenBinary (shape body) Op_add = map shape (flattenBinary body Op_add)) as Hf
    by apply flatten_shape.
  destruct body as [| |g fargs s' e'| | |]; try (cbn [tokenTier shape] in *; by rewrite Hf, price_terms_shape).
  destruct g; try (cbn [tokenTier shape] in *; by rewrite Hf, price_terms_shape).
  destruct fargs as [|x fargs]; [done|]. by destruct x as [v| | | | |]; try done; destruct v.
Qed.

Lemma tokenConditions_shape n : tokenConditions (shape n) = tokenConditions n.
Proof. unfold tokenConditions. rewrite flatten_shape. apply map_option_shape, token_condition_shape. Qed.

Lemma read_linear_shape n : read_linear_chain (shape n) = read_linear_chain n.
Proof.
  induction n as [n IH] using node_children_ind. pose proof (tokenTier_shape n []) as Hl.
  destruct n as [| | | | |c y m s e]; try (cbn [read_linear_chain shape] in *; by rewrite Hl).
  rewrite List.Forall_forall in IH. specialize (IH m ltac:(cbn; auto)).
  cbn [shape read_linear_chain]. rewrite tokenConditions_shape.
  destruct (tokenConditions c) as [cs|]; [|done]. cbn [mbind option_bind]. by rewrite tokenTier_shape, IH.
Qed.

(** A printed chain is read by the loop of [readTokenTierChain]. *)
Definition linear (n : ExpressionNode) : bool :=
  match n with
  | Conditional (Binary Op_or _ _ _ _) _ _ _ _ | Binary Op_mul _ _ _ _ => false
  | _ => true
  end.

Lemma linear_shape n : linear (shape n) = linear n.
Proof. destruct n as [| | | |o ? ? ? ?|c ? ? ? ?]; try done. by destruct c. Qed.

Lemma read_linear n : linear n = true -> readTokenTierChain n = read_linear_chain n.
Proof. destruct n as [| | | |o ? ? ? ?|c ? ? ? ?]; try done; [by destruct o|]. destruct c as [| | | |o ? ? ? ?|]; try done. by destruct o. Qed.

(** ** Reading the printed tree *)

Lemma read_prices l : forall acc,
  Forall (fun e => readable_price e.2 = true /\ e.1 <> Var_len /\ e.1 <> Var_image_count) l ->
  NoDup (acc.*1 ++ l.*1) -> price_terms (map price_node l) acc = Some (acc ++ l).
Proof.
  induction l as [|e l IH]; intros acc Hl Hd; [cbn; by rewrite app_nil_r|].
  apply Forall_cons_iff in Hl as [(Hp & Hlen & Himg) Hl]. cbn [map price_terms].
  assert (price_term (price_node e) = Some e) as ->.
  { apply charged_positive in Hp as [Hp _]. destruct e as [v x]. cbn in *. rewrite Hp. cbn.
    by destruct v. }
  destruct e as [v x]. cbn [mbind option_bind].
  assert (v ∉ acc.*1) as Hfresh.
  { apply list.NoDup_app in Hd as (_ & Hd & _). intros Hin. apply (Hd _ Hin). cbn. by left. }
  replace (assoc_has v acc) with false.
  2: { unfold assoc_has. by rewrite (proj2 (assoc_get_None _ _) Hfresh). }
  rewrite assoc_set_fst_fresh by done. rewrite IH; [by rewrite <- app_assoc|done|].
  rewrite fmap_app, <- app_assoc. exact Hd.
Qed.

Lemma read_row k row : row_ok k row -> tokenTier (row_node row) (tt_conditions row) = Some row.
Proof.
  intros (Hrow & _ & Hne & Hd & Hp & _).
  assert (flattenBinary (joined Op_add (map price_node (tt_prices row))) Op_add =
          map price_node (tt_prices row)) as Hf.
  { apply flatten_joined; [by destruct (tt_prices row)|]. apply Forall_map, Forall_true. done. }
  assert (exists o a b, joined Op_add (map price_node (tt_prices row)) = binary_of o a b) as (o & a & b & Eb).
  { destruct (tt_prices row) as [|e l]; [done|]. cbn [map joined].
    destruct (map price_node l) as [|x xs] using rev_ind; [do 3 eexists; reflexivity|].
    rewrite fold_left_app. cbn. do 3 eexists. reflexivity. }
  cbn [row_node text_node tokenTier]. rewrite Eb in Hf |- *. cbn [binary_of]. fold (binary_of o a b).
  rewrite Hf, read_prices by done. cbn [app mbind option_bind].
  destruct (tt_prices row) as [|e l] eqn:E; [done|]. by rewrite Hrow.
Qed.

Lemma read_tests k row : row_ok k row -> tt_conditions row <> [] ->
  tokenConditions (tests_node row) = Some (tt_conditions row).
Proof.
  intros (_ & _ & _ & _ & _ & Hc & _) Hne. unfold tokenConditions, tests_node. rewrite flatten_joined.
  - clear Hne. induction Hc as [|c l Hc _ IH]; [done|]. cbn [map map_option].
    assert (token_condition (test_node c) = Some c) as ->.
    { unfold test_ok in Hc. rewrite !andb_true_iff in Hc. destruct Hc as [[Ho Hv] Hx].
      cbn. rewrite Ho, Hv. apply charged_positive in Hx as [Hx _]. destruct c as [v o x]. cbn in *.
      unfold num_geb, num_leb, num_ltb in *. rewrite num_compare_sym.
      by destruct (num_compare zero x) as [[]|]. }
    cbn [mbind option_bind]. by rewrite IH.
  - by destruct (tt_conditions row).
  - apply Forall_map. eapply list.Forall_impl; [exact Hc|]. intros c Ht. unfold test_ok in Ht.
    rewrite !andb_true_iff in Ht. destruct Ht as [[Ho _] _]. by destruct c as [? [] ?].
Qed.

Abbreviation rows_words := (chain_words tests_words row_words).
Abbreviation rows_node := (chain_node tests_node row_node).

Lemma read_rows k rows : guarded tt_conditions rows -> Forall (row_ok k) rows ->
  read_linear_chain (rows_node rows) = Some rows /\ linear (rows_node rows) = true.
Proof.
  induction rows as [|r [|r' rows] IH]; [done| |]; intros Hg [Hr Hrs]%Forall_cons_iff;
    pose proof (read_row k r Hr) as Er.
  - cbn in Hg. rewrite Hg in Er. cbn [chain_node]. split; [|done].
    change (read_linear_chain (row_node r)) with (fallback ← tokenTier (row_node r) []; Some [fallback]).
    by rewrite Er.
  - destruct Hg as [Hc Hg]. rewrite chain_node_cons. split.
    + cbn [read_linear_chain]. rewrite (read_tests k) by done. cbn [mbind option_bind]. rewrite Er.
      cbn [mbind option_bind]. by rewrite (proj1 (IH Hg Hrs)).
    + unfold tests_node. destruct Hr as (_ & _ & _ & _ & _ & Ht & _).
      destruct (tt_conditions r) as [|c l]; [done|]. apply Forall_cons_iff in Ht as [Ht _].
      cbn [map joined]. destruct (map test_node l) as [|x xs] using rev_ind.
      * unfold test_ok in Ht. rewrite !andb_true_iff in Ht. destruct Ht as [[Ho _] _].
        by destruct c as [? [] ?].
      * by rewrite fold_left_app.
Qed.

(** ** The text is the spelling of the rows *)

(** The tier is charged by tokens, and what is typed for a condition is the
    spelling of a number. *)
Definition tier_plain (tier : VisualTier) : Prop :=
  vt_billing_unit tier <> Some Unit_request /\
  Forall (fun c => is_given (ti_value c) = true ->
            input_text (ti_value c) = number_to_string (input_number (ti_value c))) (vt_conditions tier).

Definition price_text (e : BillingVariable * number) : str :=
  variable_text e.1 ++ u " * " ++ number_to_string e.2.

Lemma spell_price e : spell_all (price_words e) = price_text e.
Proof.
  unfold price_words, price_text. rewrite spell_all_app, spell_all_cons, spell_lead by done.
  unfold var_words. rewrite !spell_all_cons, !app_nil_r. done.
Qed.

Lemma spell_row k row : row_ok k row ->
  spell_all (row_words row) =
  u "tier(" ++ quoted (tt_label row) ++ u ", " ++ join (u " + ") (map price_text (tt_prices row)) ++ u ")".
Proof.
  intros (_ & [_ Hl] & Hne & _). unfold row_words. rewrite spell_call, spell_all_app, !spell_all_cons.
  assert (Forall starts_plain (map price_words (tt_prices row))) as Hp by by apply Forall_map, Forall_true.
  rewrite spell_lead by (destruct (tt_prices row); [done|done]). rewrite spell_join by done.
  rewrite map_map, (map_ext _ _ spell_price).
  change (32%N :: w_text (op_word (u "+")) ++ [32%N]) with (u " + ").
  cbn [spell string_word w_space w_text app]. rewrite Hl, ?app_nil_r. by rewrite <- !app_assoc.
Qed.

Lemma map_omap {A B C} (f : A -> option B) (g : B -> C) (l : list A) :
  map g (omap f l) = omap (fun x => g <$> f x) l.
Proof. induction l as [|x l IH]; [done|]. cbn. destruct (f x); cbn; by rewrite IH. Qed.

Lemma body_text tier : tier_plain tier ->
  buildTierBodyExpr tier = join (u " + ") (map price_text (charged_prices tier)).
Proof.
  intros [Hu _]. unfold buildTierBodyExpr. 
  assert (forall A (a b : A), match vt_billing_unit tier with Some Unit_request => a | _ => b end = b) as Hm.
  { intros A a b. by destruct (vt_billing_unit tier) as [[]|]. }
  rewrite Hm. f_equal. unfold charged_prices. cbn [map app]. f_equal. f_equal.
  rewrite map_omap. apply list_omap_ext. apply Forall2_same_length_lookup_2; [done|].
  intros i x y Hx Hy. assert (x = y) as -> by congruence. by destruct (num_eqb _ _).
Qed.

Lemma conditions_text tier row : tier_plain tier -> tt_conditions row = given_conditions tier ->
  spell_all (tests_words row) = buildConditionStr (vt_conditions tier).
Proof.
  intros [_ Hc] E. unfold tests_words, buildConditionStr. rewrite E. unfold given_conditions.
  rewrite spell_join by (apply Forall_map, Forall_true; done). rewrite !map_map.
  change (32%N :: w_text (op_word (u "&&")) ++ [32%N]) with (u " && "). f_equal.
  apply map_ext_in. intros c [Hin Hg]%filter_In. rewrite List.Forall_forall in Hc.
  rewrite (Hc c Hin Hg). unfold test_words. rewrite spell_all_app, spell_all_cons, spell_lead by done.
  unfold var_words. rewrite !spell_all_cons, !app_nil_r. cbn [tc_var tc_op tc_value]. done.
Qed.

Lemma row_text k label conditions tier :
  tier_plain tier -> row_ok k (price_tier label conditions (charged_prices tier)) ->
  spell_all (row_words (price_tier label conditions (charged_prices tier))) = tier_call label tier.
Proof. intros Ht Hr. rewrite (spell_row k) by done. unfold tier_call. by rewrite body_text. Qed.

Lemma tests_nonempty row : tt_conditions row <> [] -> nonempty (spell_all (tests_words row)) = true.
Proof.
  unfold tests_words. destruct (tt_conditions row) as [|c l]; [done|]. intros _.
  by destruct (tc_var c) eqn:E; cbn; rewrite E.
Qed.

Lemma generate_tiers_parts k tiers : forall i,
  Forall tier_plain tiers -> guarded tt_conditions (rows_from i tiers) ->
  Forall (row_ok k) (rows_from i tiers) ->
  generate_tiers i tiers = chain_parts tests_words row_words (rows_from i tiers).
Proof.
  induction tiers as [|t tiers IH]; intros i Hp Hg Hr; [done|].
  apply Forall_cons_iff in Hp as [Ht Hp]. cbn [rows_from] in Hr. apply Forall_cons_iff in Hr as [Hr Hrs].
  destruct tiers as [|t' tiers].
  { cbn [generate_tiers rows_from chain_parts]. by rewrite (row_text k). }
  destruct Hg as [Hc Hg]. specialize (IH (S i) Hp Hg Hrs).
  change (generate_tiers i (t :: t' :: tiers)) with
    ((if nonempty (buildConditionStr (vt_conditions t))
      then buildConditionStr (vt_conditions t) ++ u " ? "
             ++ tier_call (label_or (u "tier_" ++ number_to_string (of_Z (Z.of_nat i + 1))) t) t
      else tier_call (label_or (u "tier_" ++ number_to_string (of_Z (Z.of_nat i + 1))) t) t)
     :: generate_tiers (S i) (t' :: tiers)).
  rewrite IH. set (label := label_or _ t) in *.
  set (row := price_tier label (given_conditions t) (charged_prices t)) in *.
  change (rows_from i (t :: t' :: tiers)) with (row :: rows_from (S i) (t' :: tiers)).
  change (chain_parts tests_words row_words (row :: rows_from (S i) (t' :: tiers))) with
    ((spell_all (tests_words row) ++ u " ? " ++ spell_all (row_words row))
     :: chain_parts tests_words row_words (rows_from (S i) (t' :: tiers))).
  f_equal. rewrite <- (row_text k label (given_conditions t)) by done. fold row.
  rewrite <- (conditions_text t row Ht eq_refl), tests_nonempty by done. done.
Qed.

Lemma generate_rows k config :
  Forall tier_plain config -> guarded tt_conditions (visual_rows config) ->
  Forall (row_ok k) (visual_rows config) ->
  generateExprFromVisualConfig config = spell_all (rows_words (visual_rows config)).
Proof.
  intros Hp Hg Hr. rewrite <- (spell_chain _ _ _ _ (printed_row k) (printed_tests k)) by done.
  destruct config as [|t [|t' tiers]]; [done| |].
  - cbn [visual_rows chain_parts join] in *. apply Forall_cons_iff in Hp as [Hp _], Hr as [Hr _].
    rewrite (row_text k) by done. cbn in Hg. unfold generateExprFromVisualConfig.
    assert (buildConditionStr (vt_conditions t) = []) as ->; [|done].
    rewrite <- (conditions_text t (price_tier [] (given_conditions t) []) Hp eq_refl), Hg. done.
  - cbn [visual_rows] in *. by rewrite <- (generate_tiers_parts k).
Qed.

Lemma row_ends row : exists c middle,
  (c = 116 \/ c = 112 \/ c = 99 \/ c = 108)%N /\ spell_all (row_words row) = c :: middle ++ u ")".
Proof.
  unfold row_words. rewrite spell_call. exists 116%N.
  match goal with |- context [spell_all ?ws] => exists (u "ier(" ++ spell_all ws) end. by split; [left|].
Qed.

Lemma tests_start k row : row_ok k row -> tt_conditions row <> [] -> exists c rest,
  (c = 116 \/ c = 112 \/ c = 99 \/ c = 108)%N /\ spell_all (tests_words row) = c :: rest.
Proof.
  intros (_ & _ & _ & _ & _ & Hc & _) Hne. unfold tests_words.
  destruct (tt_conditions row) as [|c l]; [done|]. apply Forall_cons_iff in Hc as [Hc _].
  unfold test_ok in Hc. rewrite !andb_true_iff in Hc. destruct Hc as [[_ Hv] _].
  destruct c as [v o x]. cbn in Hv. destruct v; try discriminate Hv; do 2 eexists;
    (split; [|reflexivity]); tauto.
Qed.

(** C7: the price tables show what the tier editor was given, when no label needs
    an escape.  The tiers are charged by tokens, their labels hold no character
    that JSON escapes ([plain_label], such as a quote), the conditions typed in are
    spelled as the numbers they are, only the last tier has none, and the numbers and
    the text are within the limits of the engine ([row_ok], [guarded]).  Then the
    text the editor prints compiles, and reading it for the tables gives, tier by
    tier, the label, the conditions and the unit prices that are charged: the prices
    of input and output, and the others when they are not 0.  The condition on the
    labels is needed: they are printed as they are, and a label with a quote gives a
    text that does not compile ([quoted_label_breaks_the_expression]). *)
Theorem tier_editor_round_trip (k : nat) (config : VisualConfig) :
  Forall tier_plain config -> guarded tt_conditions (visual_rows config) ->
  Forall (row_ok k) (visual_rows config) ->
  length config <= 120 -> 24 + k + length config <= 256 ->
  (Z.of_nat (length (generateExprFromVisualConfig config)) < 10000)%Z ->
  exists compiled, compile (generateExprFromVisualConfig config) = inl compiled /\
    readTokenTierChain (ce_ast compiled) = Some (visual_rows config).
Proof.
  intros Hp Hg Hr Hn Hh Hl. rewrite (generate_rows k) in Hl |- * by done.
  assert (length (visual_rows config) = length config) as Elen.
  { destruct config as [|t [|t' tiers]]; [done|done|]. cbn [visual_rows].
    generalize 0 (t :: t' :: tiers). intros i l. revert i. induction l as [|x l IH]; intros i; [done|].
    cbn. by rewrite IH. }
  destruct (compile_chain tt_conditions (row_ok k) tests_words row_words tests_node row_node
    (printed_row k) (printed_tests k) (fun c => c = 116 \/ c = 112 \/ c = 99 \/ c = 108)%N) with
    (d := 3) (h := 24 + k) (l := visual_rows config) as (_ & compiled & Ec & Esh); try done.
  - intros row _. apply row_ends.
  - apply tests_start.
  - intros row d Ht. by apply (writes_row k).
  - intros row d Ht Hc. by apply (writes_tests k (1 + d)).
  - intros row Ht. destruct (typed_row k row Ht) as (? & ? & ?). split; [done|]. split; [lia|done].
  - intros row Ht Hc. destruct (typed_tests k row Ht Hc) as (? & ? & ?). split; [done|]. split; [lia|done].
  - by intros c [-> |[-> |[-> | ->]]].
  - lia.
  - lia.
  - exists compiled. split; [done|]. destruct (read_rows k _ Hg Hr) as [Hread Hlin].
    rewrite read_linear by by rewrite <- linear_shape, Esh. by rewrite <- read_linear_shape, Esh.
Qed.

(** Two tiers by context length, one with a price for cached input. *)
Definition length_tiers : VisualConfig :=
  [normalizeVisualTier (partial_tier (u "short")
     [{| ti_var := Var_len; ti_op := Op_le; ti_value := Input_text (u "200000") |};
      {| ti_var := Var_p; ti_op := Op_lt; ti_value := Input_text [] |}]
     (to_number (u "1.25")) (of_Z 10) [(u "cache_read_unit_cost", to_number (u "0.125"))]);
   normalizeVisualTier (partial_tier [] [] (to_number (u "2.5")) (of_Z 15) [])].

#[local] Instance plain_label_dec l : Decision (plain_label l).
Proof. unfold plain_label. apply _. Defined.

Lemma tier_editor_round_trip_witness :
  (exists compiled, compile (generateExprFromVisualConfig length_tiers) = inl compiled /\
    readTokenTierChain (ce_ast compiled) = Some (visual_rows length_tiers)) /\
  length (visual_rows length_tiers) = 2.
Proof.
  split; [|reflexivity]. apply (tier_editor_round_trip 1).
  - apply List.Forall_cons; [split; [done|decided]|].
    apply List.Forall_cons; [split; [done|decided]|]. apply List.Forall_nil.
  - split; [by vm_compute|reflexivity].
  - assert (forall label conditions prices, plain_label label -> prices <> [] -> NoDup prices.*1 ->
      Forall (fun e => readable_price e.2 = true /\ e.1 <> Var_len /\ e.1 <> Var_image_count) prices ->
      Forall (fun c => test_ok c = true) conditions -> length prices <= 20 -> length conditions <= 1 ->
      row_ok 1 (price_tier label conditions prices)) as Hrow
      by (intros; unfold row_ok; cbn [tt_label tt_conditions tt_prices price_tier]; auto 10).
    apply List.Forall_cons; [apply Hrow; first [decided|done]|].
    apply List.Forall_cons; [apply Hrow; first [decided|done]|]. apply List.Forall_nil.
  - vm_compute. lia.
  - vm_compute. lia.
  - decided.
Defined.
